(* ===== verification/_CoqProject ===== *)
-Q . S2P
Prelude.v
Go.v
Utf8.v
Labels.v
Escape.v
Names.v
NameDecode.v
NameEncode.v
NameLen.v
Wire.v
Codec.v
NameCarry.v
Text.v
Nsec.v
Encodings.v
Apl.v
Edns.v
Svcb.v
RData.v
RDataCarry.v
RR.v
RRCarry.v
Msg.v
MsgCarry.v
Safety.v
Mux.v
Build.v
Lengths.v
Truncate.v
Tsig.v
Server.v
Shutdown.v
Xfr.v
XfrCarry.v
Zpack.v
Zunpack.v
Ztypes.v
Duplicate.v
Order.v
Der.v
Dnssec.v
DnssecCarry.v
Strconv.v
Netip.v
NetipCarry.v
TimeText.v
Types.v
Lexer.v
LexCarry.v
Scan.v
ScanRR.v
Present.v
PresentCarry.v
SvcbText.v
EdnsText.v
Generate.v
Zone.v
RecordCarry.v
ScanSafe.v
ParseSafe.v
ZoneSafe.v
ZoneCarry.v
Nsecx.v
Sanitize.v
