(* ===== verification/Prelude.v ===== *)
(** * Formal development of the DNS library

    The library (src/) turns DNS messages into octets and back, builds, signs,
    truncates and serves them.  The development models that core as executable
    functions and one transition system, and proves what the code promises.

    ** Conventions

    A Go [string] or [[]byte] is a list of bytes; an integer of w bits is a [Z]
    with its wrap-around written out; a struct is a [Record]; a method with a
    pointer receiver returns the receiver it leaves.  A call gives [Ok], [Err]
    (a Go error), [Panic] (a run-time panic) or [Diverge] (fuel ran out, which
    the theorems exclude); [wire] is such a result whose error carries the offset
    Go returns next to it.  Loops ([loop] in Go.v) run with a fuel that is a
    bound on their iterations: the octets left of a message, or for compression
    pointers [maxCompressionPointers + 1] times the message; that it is enough is
    a consequence of the totality theorems, which never speak of [Diverge] alone.

    ** Parts

    - Prelude.v (bytes, slices, list and arithmetic lemmas, hint databases),
      Go.v (outcomes, loops, slicing that panics, the rules [ensures]),
      Utf8.v ([strings.Map], [strings.LastIndexFunc] on UTF-8).
    - Names: Labels.v (labels.go and the name predicates of defaults.go),
      Escape.v (escapes of types.go and msg.go), Names.v ([packDomainName],
      [UnpackDomainName], [domainNameLen], [IsDomainName] of msg.go and
      defaults.go), NameEncode.v, NameDecode.v and NameLen.v (their theorems,
      against a parser [parse_name] of the presentation format and a relation
      [name_at] of what stands in a message).
    - The wire format: Wire.v, Text.v, Encodings.v, Nsec.v, Apl.v, Edns.v, Svcb.v
      (msg_helpers.go field by field, edns.go, svcb.go), RData.v and RDataCarry.v
      (the RR structs of types.go as schemas, with what msg_generate.go and
      types_generate.go make of them), RR.v and RRCarry.v (dns.go, records in
      msg.go), Msg.v and MsgCarry.v (messages in msg.go).  Codec.v holds the
      contract these parts share: [carries], a packer whose octets its unpacker
      reads back whatever surrounds them.  NameCarry.v discharges it for names.
    - Safety.v: the decoders on every input.
    - Build.v (defaults.go and update.go on messages whose records are shared,
      and [PackBuffer] through the pointers), Lengths.v ([Len] and compression),
      Truncate.v (msg_truncate.go), Mux.v (serve_mux.go).
    - Tsig.v (tsig.go), Server.v (serveDNS and the response writer of server.go,
      acceptfunc.go), Shutdown.v (the goroutines of a server in server.go, with
      the start of [serveUDP] that fails), Xfr.v and XfrCarry.v (xfr.go).
    - Generated code, method by method as generated: Zpack.v and Zunpack.v (zmsg.go)
      and Ztypes.v (ztypes.go), with their equality with the schemas of RData.v, and
      Duplicate.v (duplicate.go, zduplicate.go).
    - DNSSEC: Order.v and Der.v (ordering of octets; big integers and ASN.1),
      Dnssec.v and DnssecCarry.v (dnssec.go, dnssec_keygen.go), Nsecx.v (nsecx.go),
      Sanitize.v (sanitize.go).
    - Zone files: Strconv.v, Netip.v, NetipCarry.v, TimeText.v, Types.v (what the
      text format uses of Go's library and of the tables), Lexer.v and LexCarry.v
      (the tokens of scan.go), Scan.v and ScanRR.v (scan_rr.go), Generate.v
      (generate.go), Zone.v (the [ZoneParser] of scan.go); Present.v,
      PresentCarry.v, SvcbText.v, EdnsText.v (the [String] methods);
      RecordCarry.v and ZoneCarry.v (what is printed is read back), ScanSafe.v,
      ParseSafe.v and ZoneSafe.v (every text is parsed without panic).

    ** Theorems

    - Round trips: names, every field, options, service parameters, records,
      whole messages with compression ([Pack_Unpack]), TSIG ([TSIG_roundtrip]),
      zone files and single records as text ([zone_roundtrip], [NewRR_String]),
      record sets that are signed ([Sign_Verify]), public keys
      ([Generate_public_key]), the framing of TCP ([tcp_framing]), whole
      transfers from server to client ([axfr_transfer], [ixfr_transfer]).
    - Safety on every input: [Unpack_total], [UnpackDomainName_total],
      [serveDNS_spec], [zone_parsing_ends]; a signature that verifies is over the
      records it covers ([Verify_sound], [signed_data_binds]).
    - Bounds: [Len_bounds_Pack], [Truncate_fits], [packRR_length].
    - Reference definitions and specifications: [packDomainName_correct] and
      [UnpackDomainName_correct] against the parser and the relation of names,
      [generated_pack_fields], [generated_unpack_fields] and [generated_len_fields]
      against the schemas, [IsDuplicate_decides] against an equivalence relation,
      [ServeMux_refines] against a table of registrations, [update_functional]
      against RFC 2136, [KeyTag_rfc4034] and [Cover_spec] against formulas and
      intervals of their own, [Dedup_spec].
    - Invariants: messages made by the builders are packed and read back, or
      refused for an extended rcode without OPT ([built_messages_pack]); the
      server's goroutines, connections and WaitGroup ([shutdown_drains]);
      liveness and termination of shutting down ([shutdown_completes], also for
      the server that never closes its channel, [shutdown_terminates]) and of
      reading a transfer ([transfers_end]).
    - Where the code errs, a theorem shows it on the code as it is
      ([IsFqdn_multibyte_bug], [packRR_end_of_buffer], [AMTRELAY_discovery_bit],
      [stripTsig_missing], [update_aliasing], [compression_pointer_limit],
      [ServeMux_DS_grandparent], [IsDomainName_over_limit]).

    ** Parameters and what is not modelled

    HMAC, the hash functions (but for SHA-1, which Nsecx.v computes) and the
    public-key library are parameters, with the documented contract of a key pair
    as a hypothesis where a signature is verified.  The floating-point
    expressions of LOC and GPOS, the letter case of
    runes outside ASCII and the file system of $INCLUDE are interfaces (type
    classes).  Clocks, random numbers, handlers and networks are arguments or free
    choices.  Not modelled: sockets and the client (client.go, udp*.go, listen*.go),
    resolv.conf (clientconfig.go), user-defined types (privaterr.go), SIG(0)
    (sig0.go), the files of private keys (dnssec_keyscan.go, dnssec_privkey.go),
    certificates (dane.go, tlsa.go, smimea.go).  Nil records, and the address
    space: lengths are unbounded integers, as a Go slice never reaches 2^63. *)

From Stdlib Require Export ZArith Lia Strings.Byte.
From Stdlib Require String.
From stdpp Require Export base decidable countable list gmap.
Export String.StringSyntax.

#[export] Set Default Goal Selector "!".
#[global] Open Scope Z_scope.

Create HintDb dns discriminated.
Create HintDb zlen discriminated.

(** ** Bytes *)

(** Go's [byte] is [Byte.byte]; [bytes] is both Go's [string] and [[]byte]. *)
Abbreviation byte := Byte.byte.
Abbreviation bytes := (list byte).

#[export] Instance byte_eq_dec : EqDecision byte := Byte.byte_eq_dec.

(** The value of a byte and the truncating conversion [byte(z)]. *)
Definition bval (b : byte) : Z := Z.of_N (Byte.to_N b).
Definition byte_of (z : Z) : byte :=
  default x00 (Byte.of_N (Z.to_N (z mod 256))).

Lemma bval_range b : 0 <= bval b < 256.
Proof.
  unfold bval. pose proof (Byte.to_N_bounded b). lia.
Qed.

Lemma bval_byte_of z : bval (byte_of z) = z mod 256.
Proof.
  unfold bval, byte_of.
  pose proof (Z.mod_pos_bound z 256 ltac:(lia)) as Hz.
  destruct (Byte.of_N (Z.to_N (z mod 256))) as [b|] eqn:E; simpl.
  - apply Byte.to_of_N in E. rewrite E. lia.
  - apply Byte.of_N_None_iff in E. lia.
Qed.

Lemma byte_of_bval b : byte_of (bval b) = b.
Proof.
  unfold byte_of, bval. rewrite Z.mod_small by apply bval_range.
  rewrite N2Z.id, Byte.of_to_N. done.
Qed.

Lemma byte_of_small z : 0 <= z < 256 -> bval (byte_of z) = z.
Proof. intros. rewrite bval_byte_of. apply Z.mod_small. lia. Qed.

#[export] Instance bval_inj : Inj (=) (=) bval.
Proof. intros x y H. rewrite <- (byte_of_bval x), H. apply byte_of_bval. Qed.

#[export] Instance byte_countable : Countable byte.
Proof.
  refine (inj_countable' bval byte_of _). exact byte_of_bval.
Defined.

(** Comparison as the source writes it. *)
Definition beq (a b : byte) : bool := Byte.eqb a b.
Declare Scope dns_scope.
Infix "=b" := beq (at level 70) : dns_scope.
#[global] Open Scope dns_scope.

Lemma beq_spec a b : reflect (a = b) (a =b b).
Proof.
  unfold beq. destruct (Byte.eqb a b) eqn:E; constructor.
  - by apply Byte.byte_dec_bl.
  - by apply Byte.eqb_false.
Qed.

Lemma beq_refl a : (a =b a) = true.
Proof. by destruct (beq_spec a a). Qed.

Lemma beq_ne a b : a <> b -> (a =b b) = false.
Proof. by destruct (beq_spec a b). Qed.

(** The characters the library compares with. *)
Definition ch_dot : byte := x2e.
Definition ch_bslash : byte := x5c.
Definition ch_quote : byte := x22.
Definition ch_space : byte := x20.
Definition ch_tilde : byte := x7e.

(** String literals as bytes. *)
Definition bs (s : String.string) : bytes := String.list_byte_of_string s.
Arguments bs s%_string_scope.

(** ** Sequences indexed by Go's [int] *)

Section ZLists.
Context {A : Type}.
Implicit Types l : list A.

Definition zlen l : Z := Z.of_nat (length l).

(** [l[i]]; [None] is the run-time panic. *)
Definition zget l (i : Z) : option A :=
  if (0 <=? i) then l !! Z.to_nat i else None.

(** [l[i] = v] for an index in range. *)
Definition zset l (i : Z) (v : A) : list A := <[Z.to_nat i := v]> l.

Definition ztake (n : Z) l : list A := take (Z.to_nat n) l.
Definition zdrop (n : Z) l : list A := drop (Z.to_nat n) l.

(** [l[i:j]]; [None] is the run-time panic. *)
Definition slice l (i j : Z) : option (list A) :=
  if (0 <=? i) && (i <=? j) && (j <=? zlen l)
  then Some (ztake (j - i) (zdrop i l)) else None.

(** [copy(l[off:], src)] when [src] fits. *)
Definition blit l (off : Z) (src : list A) : list A :=
  ztake off l ++ src ++ zdrop (off + zlen src) l.

Lemma zlen_nonneg l : 0 <= zlen l.
Proof. unfold zlen. lia. Qed.

Lemma zlen_nil : zlen [] = 0.
Proof. done. Qed.

Lemma zlen_cons x l : zlen (x :: l) = 1 + zlen l.
Proof. unfold zlen. simpl. lia. Qed.

Lemma zlen_app l1 l2 : zlen (l1 ++ l2) = zlen l1 + zlen l2.
Proof. unfold zlen. rewrite length_app. lia. Qed.

Lemma zlen_zset l i v : zlen (zset l i v) = zlen l.
Proof. unfold zlen, zset. by rewrite length_insert. Qed.

Lemma zlen_ztake n l : 0 <= n <= zlen l -> zlen (ztake n l) = n.
Proof. unfold zlen, ztake. rewrite length_take. lia. Qed.

Lemma zlen_zdrop n l : 0 <= n <= zlen l -> zlen (zdrop n l) = zlen l - n.
Proof. unfold zlen, zdrop. rewrite length_drop. lia. Qed.

Lemma zget_Some l i : 0 <= i < zlen l -> exists x, zget l i = Some x.
Proof.
  intros H. unfold zget. rewrite (proj2 (Z.leb_le 0 i)) by lia.
  apply lookup_lt_is_Some. unfold zlen in H. lia.
Qed.

Lemma zget_range l i x : zget l i = Some x -> 0 <= i < zlen l.
Proof.
  unfold zget, zlen. destruct (Z.leb_spec 0 i); [|done].
  intros Hx%lookup_lt_Some. lia.
Qed.

Lemma zget_neg l i : i < 0 -> zget l i = None.
Proof. intros. unfold zget. by rewrite (proj2 (Z.leb_gt 0 i)) by lia. Qed.

Lemma zget_app_l l1 l2 i : i < zlen l1 -> zget (l1 ++ l2) i = zget l1 i.
Proof.
  unfold zget, zlen. intros. destruct (Z.leb_spec 0 i); [|done].
  apply lookup_app_l. lia.
Qed.

Lemma zget_app_r l1 l2 i : zlen l1 <= i -> zget (l1 ++ l2) i = zget l2 (i - zlen l1).
Proof.
  unfold zget, zlen. intros.
  rewrite !(proj2 (Z.leb_le _ _)) by lia.
  rewrite lookup_app_r by lia. f_equal. lia.
Qed.

Lemma zget_cons_0 x l : zget (x :: l) 0 = Some x.
Proof. done. Qed.

Lemma zget_mid l1 x l2 : zget (l1 ++ x :: l2) (zlen l1) = Some x.
Proof. rewrite zget_app_r by lia. by rewrite Z.sub_diag. Qed.

Lemma zget_zset_eq l i v : 0 <= i < zlen l -> zget (zset l i v) i = Some v.
Proof.
  unfold zget, zset, zlen. intros. rewrite (proj2 (Z.leb_le _ _)) by lia.
  apply list_lookup_insert_eq. lia.
Qed.

Lemma zget_zset_ne l i j v :
  0 <= i -> 0 <= j -> i <> j -> zget (zset l i v) j = zget l j.
Proof.
  unfold zget, zset. intros. rewrite (proj2 (Z.leb_le _ _)) by lia.
  apply list_lookup_insert_ne. lia.
Qed.

Lemma slice_Some l i j :
  0 <= i -> i <= j -> j <= zlen l ->
  slice l i j = Some (ztake (j - i) (zdrop i l)).
Proof.
  intros. unfold slice. by rewrite !(proj2 (Z.leb_le _ _)) by lia.
Qed.

Lemma slice_mid l1 l2 l3 i j :
  i = zlen l1 -> j = zlen l1 + zlen l2 -> slice (l1 ++ l2 ++ l3) i j = Some l2.
Proof.
  intros -> ->. pose proof (zlen_nonneg l1). pose proof (zlen_nonneg l2).
  pose proof (zlen_nonneg l3).
  rewrite slice_Some by (rewrite ?zlen_app; lia). f_equal.
  unfold ztake, zdrop, zlen.
  rewrite Nat2Z.id, drop_app_length.
  replace (Z.to_nat _) with (length l2) by lia. apply take_app_length.
Qed.

Lemma slice_inv l i j m :
  slice l i j = Some m ->
  0 <= i <= j /\ j <= zlen l /\ zlen m = j - i /\
  l = ztake i l ++ m ++ zdrop j l.
Proof.
  unfold slice.
  destruct (Z.leb_spec 0 i), (Z.leb_spec i j), (Z.leb_spec j (zlen l)); try done.
  intros [= <-]. split_and!; try lia.
  - rewrite zlen_ztake; [lia|]. rewrite zlen_zdrop; lia.
  - unfold ztake, zdrop.
    rewrite <- (take_drop (Z.to_nat i) l) at 1. f_equal.
    rewrite <- (take_drop (Z.to_nat (j - i)) (drop (Z.to_nat i) l)) at 1. f_equal.
    rewrite drop_drop. f_equal. lia.
Qed.

Lemma blit_eq l1 l2 l3 off src :
  off = zlen l1 -> zlen src = zlen l2 ->
  blit (l1 ++ l2 ++ l3) off src = l1 ++ src ++ l3.
Proof.
  intros -> H. unfold blit, ztake, zdrop. rewrite H. unfold zlen in *.
  rewrite Nat2Z.id, take_app_length. do 2 f_equal.
  rewrite (app_assoc l1 l2 l3).
  replace (Z.to_nat _) with (length (l1 ++ l2)) by (rewrite length_app; lia).
  apply drop_app_length.
Qed.

Lemma zlen_blit l off src :
  0 <= off -> off + zlen src <= zlen l -> zlen (blit l off src) = zlen l.
Proof.
  intros. pose proof (zlen_nonneg src). unfold blit.
  rewrite !zlen_app, zlen_ztake, zlen_zdrop by lia. lia.
Qed.

(** Every in-range window of a sequence splits it in three. *)
Lemma split_window l off n :
  0 <= off -> 0 <= n -> off + n <= zlen l ->
  exists l1 l2 l3, l = l1 ++ l2 ++ l3 /\ zlen l1 = off /\ zlen l2 = n.
Proof.
  intros. exists (ztake off l), (ztake n (zdrop off l)), (zdrop (off + n) l).
  pose proof (slice_inv l off (off + n) (ztake n (zdrop off l))) as Hs.
  rewrite slice_Some in Hs by lia.
  replace (off + n - off) with n in Hs by lia. specialize (Hs eq_refl).
  destruct Hs as (?&?&?&?). split_and!; [done| |lia].
  rewrite zlen_ztake; lia.
Qed.
End ZLists.

#[export] Hint Rewrite @zlen_nil @zlen_cons @zlen_app @zlen_zset : zlen.

(** Normalise lengths and close linear goals about them and about bytes. *)
Ltac pose_lengths :=
  repeat match goal with
  | |- context [zlen ?l] =>
      lazymatch goal with
      | _ : 0 <= zlen l |- _ => fail
      | _ => pose proof (zlen_nonneg l)
      end
  | _ : context [zlen ?l] |- _ =>
      lazymatch goal with
      | _ : 0 <= zlen l |- _ => fail
      | _ => pose proof (zlen_nonneg l)
      end
  | |- context [bval ?b] =>
      lazymatch goal with
      | _ : 0 <= bval b < 256 |- _ => fail
      | _ => pose proof (bval_range b)
      end
  | _ : context [bval ?b] |- _ =>
      lazymatch goal with
      | _ : 0 <= bval b < 256 |- _ => fail
      | _ => pose proof (bval_range b)
      end
  end.

Ltac zlia :=
  autorewrite with zlen in *; pose_lengths; lia.

(** [lia] with division and modulo by constants. *)
Ltac dlia := Z.to_euclidean_division_equations; lia.

(** Decide a boolean comparison whose answer follows from the context. *)
Ltac decide_ifs :=
  repeat match goal with
  | |- context [?a <=? ?b] =>
      first [rewrite (proj2 (Z.leb_le a b)) by zlia
            |rewrite (proj2 (Z.leb_gt a b)) by zlia]
  | |- context [?a <? ?b] =>
      first [rewrite (proj2 (Z.ltb_lt a b)) by zlia
            |rewrite (proj2 (Z.ltb_ge a b)) by zlia]
  | |- context [?a =? ?b] =>
      first [rewrite (proj2 (Z.eqb_eq a b)) by zlia
            |rewrite (proj2 (Z.eqb_neq a b)) by zlia]
  end; cbn [andb orb negb].

(** ** Bit fields *)

(** The bits of [x] from [k] on, [n] of them. *)
Definition field (x k n : Z) : Z := Z.shiftr x k mod 2 ^ n.

Lemma field_bits x k n i : 0 <= k -> 0 <= n -> 0 <= i ->
  Z.testbit (field x k n) i = (i <? n) && Z.testbit x (i + k).
Proof.
  intros. unfold field. destruct (Z.ltb_spec i n).
  - by rewrite Z.mod_pow2_bits_low, Z.shiftr_spec by lia.
  - by rewrite Z.mod_pow2_bits_high by lia.
Qed.

Lemma mask_bits k n i : 0 <= k -> 0 <= n -> 0 <= i ->
  Z.testbit (Z.shiftl (Z.ones n) k) i = (k <=? i) && (i <? k + n).
Proof.
  intros. destruct (Z.leb_spec k i).
  - rewrite Z.shiftl_spec by lia. rewrite Z.testbit_ones by lia.
    rewrite (proj2 (Z.leb_le 0 _)) by lia. simpl.
    destruct (Z.ltb_spec (i - k) n), (Z.ltb_spec i (k + n)); lia || done.
  - by rewrite Z.shiftl_spec_low by lia.
Qed.

Lemma high_bits x n i : 0 <= x < 2 ^ n -> n <= i -> Z.testbit x i = false.
Proof.
  intros Hx Hi. destruct (decide (0 <= n)) as [Hn|]; [|rewrite Z.pow_neg_r in Hx by lia; lia].
  rewrite <- (Z.mod_small x (2 ^ n)) by done. by rewrite Z.mod_pow2_bits_high by lia.
Qed.


(** Replace the field. *)
Definition set_field (x k n v : Z) : Z := Z.lor (Z.ldiff x (Z.shiftl (Z.ones n) k)) (Z.shiftl v k).

Lemma set_field_bits x k n v i : 0 <= k -> 0 <= n -> 0 <= i -> 0 <= v < 2 ^ n ->
  Z.testbit (set_field x k n v) i =
  if (k <=? i) && (i <? k + n) then Z.testbit v (i - k) else Z.testbit x i.
Proof.
  intros. unfold set_field. rewrite Z.lor_spec, Z.ldiff_spec, mask_bits by lia.
  destruct (Z.leb_spec k i); cbn [andb negb].
  - rewrite Z.shiftl_spec by lia. destruct (Z.ltb_spec i (k + n)); cbn [andb negb].
    + by rewrite andb_false_r.
    + rewrite (high_bits v n) by lia. by rewrite andb_true_r, orb_false_r.
  - rewrite Z.shiftl_spec_low by lia. by rewrite andb_true_r, orb_false_r.
Qed.

Lemma field_set x k n v : 0 <= k -> 0 <= n -> 0 <= v < 2 ^ n -> field (set_field x k n v) k n = v.
Proof.
  intros. apply Z.bits_inj'. intros i Hi. rewrite field_bits, set_field_bits by lia.
  destruct (Z.ltb_spec i n); cbn [andb].
  - rewrite (proj2 (Z.leb_le _ _)), (proj2 (Z.ltb_lt _ _)) by lia. cbn [andb]. f_equal. lia.
  - by rewrite (high_bits v n).
Qed.

Lemma field_set_other x k n v k' n' : 0 <= k -> 0 <= n -> 0 <= k' -> 0 <= n' -> 0 <= v < 2 ^ n ->
  k' + n' <= k \/ k + n <= k' -> field (set_field x k n v) k' n' = field x k' n'.
Proof.
  intros. apply Z.bits_inj'. intros i Hi. rewrite !field_bits, set_field_bits by lia.
  destruct (Z.ltb_spec i n'); [|done]. cbn [andb].
  destruct (Z.leb_spec k (i + k')), (Z.ltb_spec (i + k') (k + n)); cbn [andb]; done || lia.
Qed.

Lemma land_mask x N m : 0 <= x < 2 ^ N -> Z.land x (Z.ldiff (Z.ones N) m) = Z.ldiff x m.
Proof.
  intros Hx. destruct (decide (0 <= N)); [|rewrite Z.pow_neg_r in Hx by lia; lia].
  apply Z.bits_inj'. intros i Hi. rewrite Z.land_spec, !Z.ldiff_spec, Z.testbit_ones by lia.
  rewrite (proj2 (Z.leb_le 0 i)) by lia. destruct (Z.ltb_spec i N); cbn [andb]; [done|].
  rewrite (high_bits x N) by lia. done.
Qed.

Lemma land_field x k n : 0 <= k -> 0 <= n ->
  Z.shiftr (Z.land x (Z.shiftl (Z.ones n) k)) k = field x k n.
Proof.
  intros. apply Z.bits_inj'. intros i Hi. rewrite field_bits, Z.shiftr_spec, Z.land_spec, mask_bits by lia.
  rewrite (proj2 (Z.leb_le k (i + k))) by lia. cbn [andb].
  destruct (Z.ltb_spec i n), (Z.ltb_spec (i + k) (k + n)); cbn [andb]; rewrite ?andb_true_r, ?andb_false_r; done || lia.
Qed.

Lemma field_range x k n : 0 <= n -> 0 <= field x k n < 2 ^ n.
Proof. intros. unfold field. apply Z.mod_pos_bound. lia. Qed.

Lemma set_field_range x k n v N : 0 <= k -> 0 <= n -> k + n <= N -> 0 <= v < 2 ^ n -> 0 <= x < 2 ^ N ->
  0 <= set_field x k n v < 2 ^ N.
Proof.
  intros Hk Hn HN Hv Hx.
  assert (set_field x k n v = set_field x k n v mod 2 ^ N) as ->; [|apply Z.mod_pos_bound; lia].
  apply Z.bits_inj'. intros i Hi. destruct (Z.ltb_spec i N).
  - by rewrite Z.mod_pow2_bits_low.
  - rewrite Z.mod_pow2_bits_high, set_field_bits by lia.
    rewrite (proj2 (Z.ltb_ge i (k + n))) by lia. rewrite andb_false_r. by apply (high_bits x N).
Qed.

(** A single bit, tested with a mask. *)
Lemma bit_field x k : 0 <= k -> (Z.land x (2 ^ k) =? 2 ^ k) = (field x k 1 =? 1).
Proof.
  intros Hk. pose proof (land_field x k 1 Hk ltac:(lia)) as E.
  assert (Z.shiftl (Z.ones 1) k = 2 ^ k) as Em.
  { rewrite Z.shiftl_mul_pow2 by lia. change (Z.ones 1) with 1. lia. }
  rewrite Em in E. rewrite <- E.
  assert (Z.land x (2 ^ k) = Z.shiftr (Z.land x (2 ^ k)) k * 2 ^ k) as E2.
  { apply Z.bits_inj'. intros i Hi. rewrite <- Z.shiftl_mul_pow2 by lia.
    rewrite Z.land_spec, Z.pow2_bits_eqb by lia.
    destruct (Z.ltb_spec i k).
    - rewrite Z.shiftl_spec_low by lia. rewrite (proj2 (Z.eqb_neq k i)) by lia. apply andb_false_r.
    - rewrite Z.shiftl_spec, Z.shiftr_spec, Z.land_spec, Z.pow2_bits_eqb by lia.
      by replace (i - k + k) with i by lia. }
  rewrite E2 at 1. pose proof (Z.pow_pos_nonneg 2 k ltac:(lia) Hk).
  destruct (Z.eqb_spec (Z.shiftr (Z.land x (2 ^ k)) k) 1) as [->|Hne]; [apply Z.eqb_eq; lia|].
  apply Z.eqb_neq. nia.
Qed.

Lemma set_bit x k : 0 <= k -> Z.lor x (2 ^ k) = set_field x k 1 1.
Proof.
  intros Hk. apply Z.bits_inj'. intros i Hi. rewrite set_field_bits by lia.
  rewrite Z.lor_spec, Z.pow2_bits_eqb by lia.
  destruct (Z.eqb_spec k i) as [->|].
  - rewrite (proj2 (Z.leb_le _ _)), (proj2 (Z.ltb_lt _ _)) by lia. cbn [andb].
    rewrite Z.sub_diag. apply orb_true_r.
  - rewrite orb_false_r.
    destruct (Z.leb_spec k i), (Z.ltb_spec i (k + 1)); cbn [andb]; done || lia.
Qed.

Lemma clear_bit x k : 0 <= k -> Z.ldiff x (2 ^ k) = set_field x k 1 0.
Proof.
  intros Hk. unfold set_field. rewrite Z.shiftl_0_l, Z.lor_0_r. f_equal.
  rewrite Z.shiftl_mul_pow2 by lia. change (Z.ones 1) with 1. lia.
Qed.

(** A value below [2^k] shares no bit with a multiple of [2^k]. *)
Lemma land_small_shiftl a b k : 0 <= k -> 0 <= a < 2 ^ k -> Z.land a (b * 2 ^ k) = 0.
Proof.
  intros Hk Ha. rewrite <- Z.shiftl_mul_pow2 by done.
  apply Z.bits_inj'. intros n Hn. rewrite Z.land_spec, Z.bits_0.
  destruct (Z.ltb_spec n k).
  - rewrite Z.shiftl_spec_low by done. apply andb_false_r.
  - rewrite <- (Z.mod_small a (2 ^ k)) by done.
    by rewrite Z.mod_pow2_bits_high by lia.
Qed.

Lemma lor_small_shiftl a b k : 0 <= k -> 0 <= a < 2 ^ k -> Z.lor (b * 2 ^ k) a = b * 2 ^ k + a.
Proof.
  intros. rewrite <- (Z.add_lor_land (b * 2 ^ k) a).
  rewrite Z.land_comm, land_small_shiftl by done. lia.
Qed.

Lemma lxor_small_shiftl a b k : 0 <= k -> 0 <= a < 2 ^ k -> Z.lxor a (b * 2 ^ k) = a + b * 2 ^ k.
Proof. intros. symmetry. apply Z.add_nocarry_lxor, land_small_shiftl; done. Qed.
