(* ===== verification/Go.v ===== *)
(** * The Go constructs the library is written with

    Outcomes of a call (a value, an error, a run-time panic), loops, and the
    total-correctness rules [ensures] the other files prove their code with. *)

From S2P Require Import Prelude.

(** The errors of msg.go (the [Err*] variables), [&Error{err: s}] and
    [fmt.Errorf("ctx: %w", err)]. *)
Inductive error :=
| ErrAlg | ErrAuth | ErrBuf | ErrExtendedRcode | ErrFqdn | ErrId | ErrKeyAlg
| ErrKey | ErrKeySize | ErrLongDomain | ErrNoSig | ErrPrivKey | ErrRcode
| ErrRdata | ErrRRset | ErrSecret | ErrShortRead | ErrSig | ErrSoa | ErrTime
| MkError (err : String.string)
| Errorf (ctx : String.string) (e : error).
Arguments MkError err%_string_scope.
Arguments Errorf ctx%_string_scope e.

#[export] Instance error_eq_dec : EqDecision error.
Proof. unfold EqDecision, Decision. decide equality; apply String.string_dec. Defined.

(** Outcome of a call: [Diverge] is a loop that used up its fuel, which the
    theorems rule out. *)
Inductive res (E A : Type) :=
| Ok (a : A)
| Err (e : E)
| Panic
| Diverge.
Arguments Ok {E A} a.
Arguments Err {E A} e.
Arguments Panic {E A}.
Arguments Diverge {E A}.

#[export] Instance res_bind E : MBind (res E) := fun A B f r =>
  match r with
  | Ok a => f a
  | Err e => Err e
  | Panic => Panic
  | Diverge => Diverge
  end.
#[export] Instance res_ret E : MRet (res E) := fun A a => Ok a.

(** [if err != nil { return f(err) }]: the caller rewrites what is returned
    with the error. *)
Definition on_err {E F A} (f : E -> F) (r : res E A) : res F A :=
  match r with
  | Ok a => Ok a
  | Err e => Err (f e)
  | Panic => Panic
  | Diverge => Diverge
  end.

(** An index or slice expression out of range panics. *)
Definition index {E A} (o : option A) : res E A :=
  match o with Some a => Ok a | None => Panic end.

(** Failing calls of the wire code return an offset with the error. *)
Abbreviation wire A := (res (Z * error) A).
Definition fail {A} (off : Z) (e : error) : wire A := Err (off, e).

(** [for { body }]: the body continues with a new state or returns. *)
Fixpoint loop {E S R} (fuel : nat) (body : S -> res E (S + R)) (s : S) : res E R :=
  match fuel with
  | O => Diverge
  | Datatypes.S f =>
      r ← body s;
      match r with inl s' => loop f body s' | inr r => Ok r end
  end.

(** [for _, x := range l]: a left fold that may fail. *)
Fixpoint foldM {E S A} (f : S -> A -> res E S) (s : S) (l : list A) : res E S :=
  match l with
  | [] => Ok s
  | x :: l => s' ← f s x; foldM f s' l
  end.

(** ** Total correctness *)

(** [ensures r Q X]: the call returns, without panic, a value satisfying [Q]
    or an error satisfying [X]. *)
Definition ensures {E A} (r : res E A) (Q : A -> Prop) (X : E -> Prop) : Prop :=
  match r with
  | Ok a => Q a
  | Err e => X e
  | Panic | Diverge => False
  end.

(** The call returns (a value or an error): no panic, no divergence. *)
Definition returns {E A} (r : res E A) : Prop :=
  ensures r (fun _ => True) (fun _ => True).

Section Rules.
Context {E : Type}.

Lemma ensures_mono {A} (r : res E A) (Q Q' : A -> Prop) (X X' : E -> Prop) :
  ensures r Q X -> (forall a, Q a -> Q' a) -> (forall e, X e -> X' e) ->
  ensures r Q' X'.
Proof. destruct r; simpl; auto. Qed.

Lemma ensures_bind {A B} (r : res E A) (f : A -> res E B) Q X :
  ensures r (fun a => ensures (f a) Q X) X -> ensures (r ≫= f) Q X.
Proof. by destruct r. Qed.

Lemma ensures_bind_via {A B} (r : res E A) (f : A -> res E B) P Q X :
  ensures r P X -> (forall a, P a -> ensures (f a) Q X) -> ensures (r ≫= f) Q X.
Proof. destruct r; simpl; auto. Qed.

Lemma ensures_on_err {F A} (g : E -> F) (r : res E A) Q X :
  ensures r Q (fun e => X (g e)) -> ensures (on_err g r) Q X.
Proof. by destruct r. Qed.

Lemma ensures_index {A} (o : option A) Q X :
  (exists a, o = Some a /\ Q a) -> @ensures E A (index o) Q X.
Proof. by intros (a & -> & Ha). Qed.

Lemma ensures_Ok_inv {A} (r : res E A) Q X a : ensures r Q X -> r = Ok a -> Q a.
Proof. by intros H ->. Qed.

Lemma ensures_and {A} (r : res E A) Q1 Q2 X1 X2 :
  ensures r Q1 X1 -> ensures r Q2 X2 ->
  ensures r (fun a => Q1 a /\ Q2 a) (fun e => X1 e /\ X2 e).
Proof. destruct r; simpl; auto. Qed.

Lemma ensures_returns {A} (r : res E A) Q X : ensures r Q X -> returns r.
Proof. intros. eapply ensures_mono; [done|auto..]. Qed.

(** A loop returns when a measure bounded by the fuel decreases at every
    iteration; the invariant carries the postcondition. *)
Lemma loop_ensures {S R} (I : S -> Prop) (m : S -> nat) (body : S -> res E (S + R))
    (Q : R -> Prop) (X : E -> Prop) :
  (forall s, I s ->
     ensures (body s)
       (fun r => match r with inl s' => I s' /\ (m s' < m s)%nat | inr a => Q a end) X) ->
  forall fuel s, I s -> (m s < fuel)%nat -> ensures (loop fuel body s) Q X.
Proof.
  intros Hbody fuel. induction fuel as [|fuel IH]; intros s HI Hm; [lia|].
  simpl. apply ensures_bind.
  eapply ensures_mono; [by apply Hbody| |done].
  intros [s'|r]; simpl; [|done].
  intros [HI' Hm']. apply IH; [done|lia].
Qed.

Lemma loop_next {S R} fuel (body : S -> res E (S + R)) s s' :
  body s = Ok (inl s') -> loop (Datatypes.S fuel) body s = loop fuel body s'.
Proof. intros H. cbn [loop]. by rewrite H. Qed.

Lemma loop_done {S R} fuel (body : S -> res E (S + R)) s r :
  body s = Ok (inr r) -> loop (Datatypes.S fuel) body s = Ok r.
Proof. intros H. cbn [loop]. by rewrite H. Qed.

(** Partial correctness: what an invariant gives of a loop that returned. *)
Lemma loop_Ok_inv {S R} (I : S -> Prop) (Q : R -> Prop) (body : S -> res E (S + R)) :
  (forall s s', I s -> body s = Ok (inl s') -> I s') ->
  (forall s r, I s -> body s = Ok (inr r) -> Q r) ->
  forall fuel s r, I s -> loop fuel body s = Ok r -> Q r.
Proof.
  intros HI HQ. induction fuel as [|fuel IH]; intros s r Hs H; [done|].
  cbn [loop] in H. destruct (body s) as [[s'|r']|e| |] eqn:Eb; cbn in H; try done.
  - eapply IH; [by eapply HI|done].
  - injection H as <-. by eapply HQ.
Qed.

Lemma loop_ext {S R} (I : S -> Prop) (body body' : S -> res E (S + R)) :
  (forall s, I s -> body s = body' s) ->
  (forall s s', I s -> body s = Ok (inl s') -> I s') ->
  forall fuel s, I s -> loop fuel body s = loop fuel body' s.
Proof.
  intros Hb HI. induction fuel as [|fuel IH]; intros s Hs; [done|].
  cbn [loop]. rewrite <- Hb by done.
  destruct (body s) as [[s'|r']|e| |] eqn:Eb; cbn; try done. apply IH. by eapply HI.
Qed.

(** More fuel does not change the outcome of a loop that ended. *)
Lemma loop_fuel {S R} (body : S -> res E (S + R)) n m s :
  loop n body s <> Diverge -> (n <= m)%nat -> loop m body s = loop n body s.
Proof.
  revert m s. induction n as [|n IH]; intros m s H Hm; [done|].
  destruct m as [|m]; [lia|]. simpl in *.
  destruct (body s) as [[s'|r]|e| |]; simpl in *; [|done..].
  apply IH; [done|lia].
Qed.

Lemma foldM_ensures {S A} (I : S -> Prop) (f : S -> A -> res E S) (X : E -> Prop) l :
  (forall s x, x ∈ l -> I s -> ensures (f s x) I X) ->
  forall s, I s -> ensures (foldM f s l) I X.
Proof.
  induction l as [|x l IH]; intros Hf s Hs; simpl; [done|].
  apply ensures_bind. eapply ensures_mono; [apply Hf; [left|done]| |done].
  intros s' Hs'. apply IH; [|done]. intros; apply Hf; [by right|done].
Qed.

Lemma foldM_app {S A} (f : S -> A -> res E S) s l1 l2 :
  foldM f s (l1 ++ l2) = foldM f s l1 ≫= fun s' => foldM f s' l2.
Proof.
  revert s. induction l1 as [|x l1 IH]; intros s; simpl; [done|].
  destruct (f s x); simpl; auto.
Qed.
End Rules.

(** Two calls end the same way, with related values. *)
Definition res_rel {E A B} (R : A -> B -> Prop) (r : res E A) (r' : res E B) : Prop :=
  match r, r' with
  | Ok a, Ok b => R a b
  | Err e, Err e' => e = e'
  | Panic, Panic | Diverge, Diverge => True
  | _, _ => False
  end.

Definition sum_rel {A B C D} (R : A -> C -> Prop) (Q : B -> D -> Prop) (x : A + B) (y : C + D) : Prop :=
  match x, y with inl a, inl c => R a c | inr b, inr d => Q b d | _, _ => False end.

Lemma loop_rel {E S S' A A'} (R : S -> S' -> Prop) (Q : A -> A' -> Prop)
    (body : S -> res E (S + A)) (body' : S' -> res E (S' + A')) :
  (forall s s', R s s' -> res_rel (sum_rel R Q) (body s) (body' s')) ->
  forall n s s', R s s' -> res_rel Q (loop n body s) (loop n body' s').
Proof.
  intros H. induction n as [|n IH]; intros s s' Hs; [done|]. cbn [loop].
  specialize (H s s' Hs).
  destruct (body s) as [[a|a]|e| |], (body' s') as [[b|b]|e'| |]; cbn in *; try done.
  by apply IH.
Qed.

Lemma res_rel_bind {E A B C D} (R : A -> B -> Prop) (Q : C -> D -> Prop)
    (r : res E A) (r' : res E B) f f' :
  res_rel R r r' -> (forall a b, R a b -> res_rel Q (f a) (f' b)) ->
  res_rel Q (r ≫= f) (r' ≫= f').
Proof. destruct r, r'; cbn; naive_solver. Qed.

Lemma res_rel_refl {E A} (r : res E A) : res_rel eq r r.
Proof. by destruct r. Qed.

#[export] Hint Resolve ensures_returns : dns.

(** Invert a bind that returned a value. *)
Lemma bind_Ok {E A B} (r : res E A) (f : A -> res E B) b :
  (r ≫= f) = Ok b -> exists a, r = Ok a /\ f a = Ok b.
Proof. destruct r; simpl; naive_solver. Qed.

Lemma on_err_Ok {E F A} (g : E -> F) (r : res E A) a :
  on_err g r = Ok a -> r = Ok a.
Proof. destruct r; naive_solver. Qed.

Lemma index_Ok {E A} (o : option A) a : @index E A o = Ok a -> o = Some a.
Proof. destruct o; naive_solver. Qed.

(** Take apart a hypothesis [(x ← r; k) = Ok b]. *)
Ltac inv_bind H :=
  lazymatch type of H with
  | (_ ≫= _) = Ok _ =>
      let a := fresh "a" in let Ha := fresh "Ha" in
      apply bind_Ok in H as (a & Ha & H);
      try (apply on_err_Ok in Ha); try (apply index_Ok in Ha)
  end.

(** Step through straight-line monadic code in an [ensures] goal. *)
Ltac ens :=
  repeat first
    [ progress (simpl; fold @ensures)
    | apply ensures_bind ].

(** Reduce the monad and nothing else. *)
Ltac gosimp := cbn [mbind res_bind index mret res_ret on_err].
