(* ===== verification/Utf8.v ===== *)
(** * The UTF-8 functions of Go's standard library the names code relies on

    [utf8.DecodeRuneInString], [utf8.DecodeLastRuneInString],
    [strings.LastIndexFunc] and [strings.Map], as far as the library uses
    them.  A rune is a [Z]; 65533 is [utf8.RuneError]. *)

From S2P Require Import Prelude Go.

Definition RuneError : Z := 65533.

Definition in_range (b : byte) (lo hi : Z) : bool := (lo <=? bval b) && (bval b <=? hi).

(** Continuation bytes are 0x80..0xBF. *)
Definition is_cont (b : byte) : bool := in_range b 128 191.

(** The range the second byte must be in, by first byte (Go's [acceptRanges]). *)
Definition accept_range (b0 : byte) : Z * Z :=
  if bval b0 =? 224 then (160, 191) else
  if bval b0 =? 237 then (128, 159) else
  if bval b0 =? 240 then (144, 191) else
  if bval b0 =? 244 then (128, 143) else (128, 191).

(** The rune at the start of [s] and its width; an invalid byte is
    [RuneError] of width 1. *)
Definition decode_rune (s : bytes) : Z * nat :=
  match s with
  | [] => (RuneError, 0%nat)
  | b0 :: s1 =>
      if bval b0 <? 128 then (bval b0, 1%nat) else
      let '(lo, hi) := accept_range b0 in
      match s1 with
      | b1 :: s2 =>
          if negb (in_range b1 lo hi) then (RuneError, 1%nat) else
          if in_range b0 194 223
          then ((bval b0 mod 32) * 64 + bval b1 mod 64, 2%nat) else
          match s2 with
          | b2 :: s3 =>
              if negb (is_cont b2) then (RuneError, 1%nat) else
              if in_range b0 224 239
              then ((bval b0 mod 16) * 4096 + (bval b1 mod 64) * 64 + bval b2 mod 64, 3%nat)
              else
              match s3 with
              | b3 :: _ =>
                  if is_cont b3 && in_range b0 240 244
                  then ((bval b0 mod 8) * 262144 + (bval b1 mod 64) * 4096
                        + (bval b2 mod 64) * 64 + bval b3 mod 64, 4%nat)
                  else (RuneError, 1%nat)
              | [] => (RuneError, 1%nat)
              end
          | [] => (RuneError, 1%nat)
          end
      | [] => (RuneError, 1%nat)
      end
  end.

(** Where the last rune starts, looking back over at most [k] continuation
    bytes from index [start]. *)
Fixpoint last_start (s : bytes) (start k : nat) : nat :=
  match k, start with
  | O, _ => start
  | _, O => O
  | S k', S start' =>
      match s !! start' with
      | Some b => if is_cont b then last_start s start' k' else start'
      | None => start'
      end
  end.

(** The width of the last rune of [s]. *)
Definition decode_last_width (s : bytes) : nat :=
  match last s with
  | None => 0%nat
  | Some b =>
      if bval b <? 128 then 1%nat else
      let len := length s in
      let start := last_start s (len - 1) 3 in
      let '(_, size) := decode_rune (drop start s) in
      if Nat.eqb (start + size) len then size else 1%nat
  end.

(** [strings.LastIndexFunc(s, func(r rune) bool { return r != '\\' })]. *)
Fixpoint last_index_not_bslash (s : bytes) (n : nat) : Z :=
  match n with
  | O => -1
  | S n' =>
      match s !! n' with
      | Some c =>
          if c =b ch_bslash then last_index_not_bslash s n'
          else Z.of_nat n - Z.of_nat (decode_last_width (take n s))
      | None => -1
      end
  end.

(** U+FFFD, what [strings.Map] writes for an invalid byte. *)
Definition replacement : bytes := [xef; xbf; xbd].

(** [strings.Map(f, s)] for an [f] that only changes ASCII runes, to ASCII
    runes; [fuel] is [length s]. *)
Fixpoint map_ascii_runes (f : byte -> byte) (fuel : nat) (s : bytes) : bytes :=
  match fuel, s with
  | S fuel', b :: s' =>
      if bval b <? 128 then f b :: map_ascii_runes f fuel' s' else
      let '(r, w) := decode_rune s in
      if (r =? RuneError) && Nat.eqb w 1
      then replacement ++ map_ascii_runes f fuel' s'
      else take w s ++ map_ascii_runes f fuel' (drop w s)
  | _, _ => []
  end.

Definition strings_Map_ascii (f : byte -> byte) (s : bytes) : bytes :=
  map_ascii_runes f (length s) s.

(** ** ASCII strings *)

Definition is_ascii (s : bytes) : Prop := Forall (fun b => bval b < 128) s.

Lemma is_ascii_app s1 s2 : is_ascii (s1 ++ s2) <-> is_ascii s1 /\ is_ascii s2.
Proof. apply Forall_app. Qed.

Lemma strings_Map_ascii_ascii f s : is_ascii s -> strings_Map_ascii f s = map f s.
Proof.
  unfold strings_Map_ascii. induction 1 as [|b s Hb Hs IH]; simpl; [done|].
  rewrite (proj2 (Z.ltb_lt _ _)) by done. by rewrite IH.
Qed.

Lemma decode_last_width_ascii s b : bval b < 128 -> decode_last_width (s ++ [b]) = 1%nat.
Proof.
  intros Hb. unfold decode_last_width. rewrite last_snoc.
  by rewrite (proj2 (Z.ltb_lt _ _)).
Qed.
