(* ===== verification/Labels.v ===== *)
(** * labels.go: label arithmetic on presentation-format names

    [NextLabel], [PrevLabel], [Split], [SplitDomainName], [CountLabel],
    [CompareDomainName] and [equal], with [IsFqdn], [Fqdn], [CanonicalName]
    and [IsSubDomain] of defaults.go.

    The code decides whether a dot is escaped by counting the backslashes
    before it; the specification ([esc_after], [is_sep]) reads the name from
    the left, as a parser does. *)

From S2P Require Import Prelude Go Utf8.

(** [j := i - 1; for j >= 0 && s[j] == '\\' { j-- }], with [n = j + 1]. *)
Fixpoint skip_bslash (s : bytes) (n : nat) : Z :=
  match n with
  | O => -1
  | S n' =>
      match s !! n' with
      | Some c => if c =b ch_bslash then skip_bslash s n' else Z.of_nat n'
      | None => Z.of_nat n'
      end
  end.

(** [(j-i)%2 == 0]: the dot at [i] is escaped. *)
Definition dot_escaped (s : bytes) (i : Z) : bool :=
  Z.rem (skip_bslash s (Z.to_nat i) - i) 2 =? 0.

Definition is_dot (s : bytes) (i : Z) : bool :=
  match zget s i with Some c => c =b ch_dot | None => false end.

(** The loop of [NextLabel]; [n] iterations remain. *)
Fixpoint NextLabel_loop (s : bytes) (i : Z) (n : nat) : Z * bool :=
  match n with
  | O => (i + 1, true)
  | S n' =>
      if negb (is_dot s i) then NextLabel_loop s (i + 1) n' else
      if dot_escaped s i then NextLabel_loop s (i + 1) n' else
      (i + 1, false)
  end.

Definition NextLabel (s : bytes) (offset : Z) : res error (Z * bool) :=
  match s with
  | [] => Ok (0, true)
  | _ =>
      if offset <? 0 then Panic
      else Ok (NextLabel_loop s offset (Z.to_nat (zlen s - 1 - offset)))
  end.

(** The loop of [PrevLabel], at [l = k - 1]. *)
Fixpoint PrevLabel_loop (s : bytes) (k : nat) (n : Z) : Z * bool :=
  match k with
  | O => (0, 1 <? n)
  | S k' =>
      let l := Z.of_nat k' in
      if negb (0 <? n) then (0, 1 <? n) else
      if negb (is_dot s l) then PrevLabel_loop s k' n else
      if dot_escaped s l then PrevLabel_loop s k' n else
      let n := n - 1 in
      if n =? 0 then (l + 1, false) else PrevLabel_loop s k' n
  end.

Definition PrevLabel (s : bytes) (n : Z) : Z * bool :=
  match s with
  | [] => (0, true)
  | _ =>
      if n =? 0 then (zlen s, false) else
      let l := zlen s - 1 in
      let l := if is_dot s l then l - 1 else l in
      PrevLabel_loop s (Z.to_nat (l + 1)) n
  end.

(** [Split]: the offsets where labels start. *)
Definition Split (s : bytes) : res error (list Z) :=
  if decide (s = [ch_dot]) then Ok [] else
  loop (S (length s))
    (fun '(off, idx) =>
       '(off, end_) ← NextLabel s off;
       if end_ : bool then Ok (inr idx) else Ok (inl (off, idx ++ [off])))
    (0, [0]).

Definition CountLabel (s : bytes) : res error Z :=
  if decide (s = [ch_dot]) then Ok 0 else
  loop (S (length s))
    (fun '(off, labels) =>
       '(off, end_) ← NextLabel s off;
       let labels := labels + 1 in
       if end_ : bool then Ok (inr labels) else Ok (inl (off, labels)))
    (0, 0).

Definition is_upper (b : byte) : bool := (65 <=? bval b) && (bval b <=? 90).

(** [if c >= 'A' && c <= 'Z' { c |= 'a' - 'A' }]. *)
Definition lower (b : byte) : byte :=
  if is_upper b then byte_of (Z.lor (bval b) 32) else b.

(** [equal]: the loop compares from the end, [n] bytes remain. *)
Fixpoint equal_loop (a b : bytes) (n : nat) : res error bool :=
  match n with
  | O => Ok true
  | S i =>
      ai ← index (a !! i);
      bi ← index (b !! i);
      if lower ai =b lower bi then equal_loop a b i else Ok false
  end.

Definition equal (a b : bytes) : res error bool :=
  if zlen a =? zlen b then equal_loop a b (length a) else Ok false.

(** [s[i:]] *)
Definition from (s : bytes) (i : Z) : option bytes := slice s i (zlen s).

(** The loop of [CompareDomainName], over the indices j1, i1, j2, i2. *)
Fixpoint CompareDomainName_loop (s1 s2 : bytes) (l1 l2 : list Z) (j1 j2 : Z) (n : Z)
    (fuel : nat) : res error Z :=
  match fuel with
  | O => Diverge
  | S fuel' =>
      let i1 := j1 - 1 in let i2 := j2 - 1 in
      if (i1 <? 0) || (i2 <? 0) then Ok n else
      b1 ← index (zget l1 i1); e1 ← index (zget l1 j1);
      b2 ← index (zget l2 i2); e2 ← index (zget l2 j2);
      x1 ← index (slice s1 b1 e1);
      x2 ← index (slice s2 b2 e2);
      b ← equal x1 x2;
      if b : bool then CompareDomainName_loop s1 s2 l1 l2 i1 i2 (n + 1) fuel'
      else Ok n
  end.

Definition CompareDomainName (s1 s2 : bytes) : res error Z :=
  if decide (s1 = [ch_dot]) then Ok 0 else
  if decide (s2 = [ch_dot]) then Ok 0 else
  l1 ← Split s1;
  l2 ← Split s2;
  let j1 := zlen l1 - 1 in
  let j2 := zlen l2 - 1 in
  o1 ← index (zget l1 j1);
  o2 ← index (zget l2 j2);
  x1 ← index (from s1 o1);
  x2 ← index (from s2 o2);
  b ← equal x1 x2;
  if b : bool then CompareDomainName_loop s1 s2 l1 l2 j1 j2 1 (S (length l1)) else Ok 0.

(** [IsFqdn], with [strings.LastIndexFunc] over runes. *)
Definition IsFqdn (s : bytes) : bool :=
  match last s with
  | None => false
  | Some c =>
      if negb (c =b ch_dot) then false else
      let s := take (length s - 1) s in
      match last s with
      | None => true
      | Some c =>
          if negb (c =b ch_bslash) then true else
          let i := last_index_not_bslash s (length s) in
          negb (Z.rem (zlen s - i) 2 =? 0)
      end
  end.

Definition Fqdn (s : bytes) : bytes := if IsFqdn s then s else s ++ [ch_dot].

Definition lower_rune (b : byte) : byte :=
  if is_upper b then byte_of (bval b + 32) else b.

Definition CanonicalName (s : bytes) : bytes := strings_Map_ascii lower_rune (Fqdn s).

(** The loop of [SplitDomainName] over [idx[1:]]. *)
Definition SplitDomainName_loop (s : bytes) (begin : Z) (ends : list Z)
    : res error (list bytes * Z) :=
  foldM (fun '(labels, begin) end_ =>
           l ← index (slice s begin (end_ - 1));
           Ok (labels ++ [l], end_)) ([], begin) ends.

Definition SplitDomainName (s : bytes) : res error (list bytes) :=
  match s with
  | [] => Ok []
  | _ =>
      idx ← Split s;
      let fqdnEnd := if IsFqdn s then zlen s - 1 else zlen s in
      match idx with
      | [] => Ok []
      | _ :: ends =>
          '(labels, begin) ← SplitDomainName_loop s 0 ends;
          l ← index (slice s begin fqdnEnd);
          Ok (labels ++ [l])
      end
  end.

Definition IsSubDomain (parent child : bytes) : res error bool :=
  n ← CompareDomainName parent child;
  c ← CountLabel parent;
  Ok (n =? c).

(** ** The specification: reading the name from the left *)

(** Whether the character after the prefix is escaped. *)
Definition esc_step (e : bool) (c : byte) : bool := if e then false else c =b ch_bslash.
Definition esc_after (s : bytes) : bool := fold_left esc_step s false.

(** An unescaped dot. *)
Definition is_sep (s : bytes) (p : Z) : bool := is_dot s p && negb (esc_after (ztake p s)).

(** The segments of a name: its labels, each with the dot that ends it; the
    last segment runs to the end of the string. *)
Fixpoint segs (e : bool) (s : bytes) : list bytes :=
  match s with
  | [] => [[]]
  | c :: s' =>
      if negb e && (c =b ch_dot) && negb (bool_decide (s' = []))
      then [c] :: segs false s'
      else match segs (esc_step e c) s' with
           | h :: t => (c :: h) :: t
           | [] => [[c]]
           end
  end.

(** Where each segment starts. *)
Fixpoint offsets (k : Z) (l : list bytes) : list Z :=
  match l with
  | [] => []
  | x :: l => k :: offsets (k + zlen x) l
  end.

(** The segments up to case. *)
Definition ci_segs (s : bytes) : list bytes := map lower <$> segs false s.

(** Length of the longest common prefix. *)
Fixpoint common_prefix (l1 l2 : list bytes) : Z :=
  match l1, l2 with
  | x :: l1, y :: l2 => if decide (x = y) then 1 + common_prefix l1 l2 else 0
  | _, _ => 0
  end.

(** The offsets after the separators in [i, i+n). *)
Fixpoint starts_from (s : bytes) (i : Z) (n : nat) : list Z :=
  match n with
  | O => []
  | S n' => if is_sep s i then (i + 1) :: starts_from s (i + 1) n'
            else starts_from s (i + 1) n'
  end.

Definition label_starts (s : bytes) : list Z := 0 :: starts_from s 0 (length s - 1).

(** ** Counting backslashes backwards agrees with reading forwards *)

Lemma esc_after_snoc s c : esc_after (s ++ [c]) = esc_step (esc_after s) c.
Proof. unfold esc_after. by rewrite fold_left_app. Qed.

Lemma skip_bslash_esc s n :
  (n <= length s)%nat ->
  Z.even (Z.of_nat n - skip_bslash s n) = esc_after (take n s).
Proof.
  induction n as [|n IH]; intros Hn; [done|].
  destruct (lookup_lt_is_Some_2 s n) as [c Hc]; [lia|].
  cbn [skip_bslash]. rewrite (take_S_r _ _ c) by done.
  rewrite esc_after_snoc, Hc. unfold esc_step.
  destruct (c =b ch_bslash) eqn:E.
  - replace (Z.of_nat (S n) - skip_bslash s n) with (Z.succ (Z.of_nat n - skip_bslash s n)) by lia.
    rewrite Z.even_succ, <- Z.negb_even, IH by lia. by destruct (esc_after _).
  - replace (Z.of_nat (S n) - Z.of_nat n) with 1 by lia. by destruct (esc_after _).
Qed.

Lemma dot_escaped_esc s i :
  0 <= i <= zlen s -> dot_escaped s i = esc_after (ztake i s).
Proof.
  intros Hi. unfold zlen in Hi. unfold dot_escaped, ztake.
  rewrite <- skip_bslash_esc by lia. rewrite Z2Nat.id by lia.
  set (d := i - skip_bslash s (Z.to_nat i)).
  replace (skip_bslash s (Z.to_nat i) - i) with (- d) by (unfold d; lia).
  rewrite (Zeven_mod d : Z.even d = _). clearbody d.
  destruct (d mod 2 =? 0) eqn:E;
    [apply Z.eqb_eq in E; apply Z.eqb_eq|apply Z.eqb_neq in E; apply Z.eqb_neq];
    Z.to_euclidean_division_equations; lia.
Qed.

Lemma NextLabel_loop_starts s i n :
  0 <= i -> i + Z.of_nat n <= zlen s ->
  NextLabel_loop s i n =
    match starts_from s i n with
    | [] => (i + Z.of_nat n + 1, true)
    | o :: _ => (o, false)
    end /\
  match starts_from s i n with
  | [] => True
  | o :: r => i < o <= i + Z.of_nat n /\
              r = starts_from s o (Z.to_nat (i + Z.of_nat n - o))
  end.
Proof.
  revert i. induction n as [|n IH]; intros i Hi Hn; simpl.
  { split; [|done]. f_equal. lia. }
  unfold is_sep.
  rewrite dot_escaped_esc by lia.
  destruct (is_dot s i) eqn:Hd; [destruct (esc_after (ztake i s)) eqn:He|]; simpl.
  2: { split; [done|]. split; [lia|]. f_equal. lia. }
  all: destruct (IH (i + 1)) as [IH1 IH2]; [lia|lia|];
    rewrite IH1; destruct (starts_from s (i + 1) n); split;
      [f_equal; lia|done|done|destruct IH2 as [? ->]; split; [lia|f_equal; lia]].
Qed.

Lemma starts_from_length s i n : (length (starts_from s i n) <= n)%nat.
Proof. revert i. induction n; intros i; simpl; [lia|]. case_match; simpl; specialize (IHn (i + 1)); lia. Qed.

(** One call of [NextLabel] moves to the next start. *)
Lemma NextLabel_starts s off :
  s <> [] -> 0 <= off < zlen s ->
  NextLabel s off =
    Ok match starts_from s off (Z.to_nat (zlen s - 1 - off)) with
       | [] => (zlen s, true)
       | o :: _ => (o, false)
       end.
Proof.
  intros Hs Ho. destruct s as [|c s]; [done|]. unfold NextLabel.
  decide_ifs.
  destruct (NextLabel_loop_starts (c :: s) off (Z.to_nat (zlen (c :: s) - 1 - off))) as [-> _];
    [lia|lia|].
  destruct (starts_from _ _ _); [|done]. do 2 f_equal. lia.
Qed.

Lemma starts_from_step s off o r :
  0 <= off < zlen s ->
  starts_from s off (Z.to_nat (zlen s - 1 - off)) = o :: r ->
  off < o < zlen s /\ r = starts_from s o (Z.to_nat (zlen s - 1 - o)).
Proof.
  intros Ho Hst.
  destruct (NextLabel_loop_starts s off (Z.to_nat (zlen s - 1 - off))) as [_ H]; [lia|lia|].
  rewrite Hst in H. destruct H as [? ->]. split; [lia|]. f_equal. lia.
Qed.

(** The loop shared by [Split] and [CountLabel]: it visits every start. *)
Lemma visit_loop {St R} (s : bytes) (next : Z -> St -> St) (done_ : St -> R)
    (body : Z * St -> res error ((Z * St) + R)) fuel off st :
  s <> [] -> 0 <= off < zlen s ->
  (forall off st, body (off, st) =
     ('(off, end_) ← NextLabel s off;
      if end_ : bool then Ok (inr (done_ st)) else Ok (inl (off, next off st)))) ->
  (length (starts_from s off (Z.to_nat (zlen s - 1 - off))) < fuel)%nat ->
  loop fuel body (off, st) =
    Ok (done_ (fold_left (fun st o => next o st)
                 (starts_from s off (Z.to_nat (zlen s - 1 - off))) st)).
Proof.
  intros Hs Ho Hbody.
  remember (starts_from s off (Z.to_nat (zlen s - 1 - off))) as r eqn:Hr.
  revert off st fuel Ho Hr. induction r as [|o r IH]; intros off st fuel Ho Hr Hf;
    (destruct fuel as [|fuel]; [simpl in Hf; lia|]); simpl;
    rewrite Hbody, NextLabel_starts by done; rewrite <- Hr; simpl; [done|].
  destruct (starts_from_step s off o r) as [? ->]; [done..|].
  apply IH; [lia|done|simpl in Hf; lia].
Qed.

Lemma fold_left_append {A} (l : list A) acc :
  fold_left (fun acc o => acc ++ [o]) l acc = acc ++ l.
Proof.
  revert acc. induction l as [|x l IH]; intros acc; simpl; [by rewrite app_nil_r|].
  rewrite IH. by rewrite <- app_assoc.
Qed.

Lemma starts_from_fuel s : s <> [] ->
  (length (starts_from s 0 (Z.to_nat (zlen s - 1 - 0))) < S (length s))%nat.
Proof.
  intros. pose proof (starts_from_length s 0 (Z.to_nat (zlen s - 1 - 0))).
  unfold zlen in *. lia.
Qed.

Lemma Split_label_starts s : s <> [ch_dot] -> Split s = Ok (label_starts s).
Proof.
  intros Hs. unfold Split. rewrite decide_False by done.
  destruct (decide (s = [])) as [->|Hne]; [done|].
  assert (0 < zlen s) by (destruct s; [done|zlia]).
  rewrite (visit_loop s (fun off idx => idx ++ [off]) id);
    [|done|lia|done|by apply starts_from_fuel].
  simpl. rewrite fold_left_append. unfold label_starts, id, zlen. simpl.
  do 4 f_equal. lia.
Qed.

Lemma CountLabel_label_starts s :
  s <> [ch_dot] -> CountLabel s = Ok (zlen (label_starts s)).
Proof.
  intros Hs. unfold CountLabel. rewrite decide_False by done.
  destruct (decide (s = [])) as [->|Hne]; [done|].
  assert (0 < zlen s) by (destruct s; [done|zlia]).
  rewrite (visit_loop s (fun _ n => n + 1) (fun n => n + 1));
    [|done|lia|done|by apply starts_from_fuel].
  f_equal. unfold label_starts. rewrite zlen_cons.
  replace (Z.to_nat (zlen s - 1 - 0)) with (length s - 1)%nat by (unfold zlen; lia).
  enough (forall l k, fold_left (fun n (_ : Z) => n + 1) l k = k + zlen l) as ->; [lia|].
  clear. induction l as [|x l IH]; intros k; simpl; [rewrite zlen_nil; lia|].
  rewrite IH, zlen_cons. lia.
Qed.

(** ** Segments and offsets *)

Lemma segs_nonempty e s : segs e s <> [].
Proof. destruct s; simpl; [done|]. case_match; [done|]. by case_match. Qed.

Lemma concat_segs e s : concat (segs e s) = s.
Proof.
  revert e. induction s as [|c s IH]; intros e; simpl; [done|].
  case_match; simpl; [by rewrite IH|].
  specialize (IH (esc_step e c)).
  destruct (segs (esc_step e c) s) eqn:E; [by apply segs_nonempty in E|].
  simpl in *. by rewrite IH.
Qed.

Lemma length_offsets k l : length (offsets k l) = length l.
Proof. revert k. induction l; intros k; simpl; [done|]. by rewrite IHl. Qed.

Lemma offsets_head k x l : exists r, offsets k (x :: l) = k :: r.
Proof. by eexists. Qed.

(** The scan by index visits the starts of the segments. *)
Lemma starts_from_segs pre suf :
  starts_from (pre ++ suf) (zlen pre) (length suf - 1) =
  tail (offsets (zlen pre) (segs (esc_after pre) suf)).
Proof.
  revert pre. induction suf as [|c suf IH]; intros pre; [done|].
  replace (length (c :: suf) - 1)%nat with (length suf) by (simpl; lia).
  specialize (IH (pre ++ [c])). rewrite <- app_assoc in IH. simpl in IH.
  rewrite esc_after_snoc in IH. rewrite zlen_app in IH.
  replace (zlen pre + zlen [c]) with (zlen pre + 1) in IH by done.
  destruct suf as [|c' suf]; [cbn [segs]; rewrite (bool_decide_true ([] = [])), andb_false_r by done; done|].
  replace (length (c' :: suf)) with (S (length (c' :: suf) - 1)) by (simpl; lia).
  cbn [starts_from]. rewrite IH.
  assert (is_sep (pre ++ c :: c' :: suf) (zlen pre)
          = negb (esc_after pre) && (c =b ch_dot)) as ->.
  { unfold is_sep, is_dot. rewrite zget_mid.
    unfold ztake, zlen. rewrite Nat2Z.id, take_app_length. apply andb_comm. }
  remember (c' :: suf) as t eqn:Ht.
  cbn [segs]. rewrite (bool_decide_false (t = [])) by (by subst). simpl. rewrite andb_true_r.
  destruct (negb (esc_after pre) && (c =b ch_dot)) eqn:E.
  - apply andb_true_iff in E as [E1 E2]. apply negb_true_iff in E1.
    destruct (beq_spec c ch_dot) as [->|]; [|done].
    rewrite E1. change (esc_step false ch_dot) with false.
    by destruct (segs false t) eqn:E; [apply segs_nonempty in E|].
  - destruct (segs (esc_step (esc_after pre) c) t) eqn:E'; [by apply segs_nonempty in E'|].
    simpl. f_equal. rewrite zlen_cons. lia.
Qed.

Lemma label_starts_segs s : label_starts s = offsets 0 (segs false s).
Proof.
  unfold label_starts. pose proof (starts_from_segs [] s) as H.
  change (zlen (@nil byte)) with 0 in H. change (esc_after []) with false in H.
  simpl in H. rewrite H.
  by destruct (segs false s) eqn:E; [apply segs_nonempty in E|].
Qed.

(** ** The suffixes at the starts of the labels *)

(** The names that enclose a name given by its labels, the closest first. *)
Fixpoint enclosing (ls : list bytes) : list bytes :=
  match ls with
  | [] => []
  | l :: ls' => concat (l :: ls') :: enclosing ls'
  end.

Lemma from_suffix (pre suf : bytes) : from (pre ++ suf) (zlen pre) = Some suf.
Proof.
  unfold from. rewrite <- (app_nil_r suf) at 1. apply slice_mid; [done|by rewrite zlen_app].
Qed.

(** The suffixes at the starts of the labels are the enclosing names. *)
Lemma offsets_enclosing l : forall pre,
  map (from (pre ++ concat l)) (offsets (zlen pre) l) = map Some (enclosing l).
Proof.
  induction l as [|x l IH]; intros pre; [done|]. cbn [enclosing offsets map].
  rewrite from_suffix. f_equal. cbn [concat]. rewrite app_assoc.
  rewrite <- (IH (pre ++ x)). by rewrite zlen_app.
Qed.

Lemma label_names q : map (from q) (label_starts q) = map Some (enclosing (segs false q)).
Proof.
  rewrite label_starts_segs. pose proof (offsets_enclosing (segs false q) []) as H.
  by rewrite concat_segs in H.
Qed.

(** A label as it is written: no unescaped dot, no escape left open. *)
Fixpoint undotted (e : bool) (s : bytes) : bool :=
  match s with
  | [] => negb e
  | c :: s => (e || negb (c =b ch_dot)) && undotted (esc_step e c) s
  end.

Lemma undotted_app e r1 r2 : undotted e r1 = true -> undotted false r2 = true -> undotted e (r1 ++ r2) = true.
Proof.
  revert e. induction r1 as [|c r1 IH]; intros e H1 H2; cbn [undotted app] in *.
  - by destruct e.
  - apply andb_prop in H1 as [-> H1]. by apply IH.
Qed.

Lemma segs_undotted e r x : undotted e r = true ->
  segs e (r ++ ch_dot :: x) = if decide (x = []) then [r ++ [ch_dot]] else (r ++ [ch_dot]) :: segs false x.
Proof.
  revert e. induction r as [|c r IH]; intros e H; cbn [undotted app segs] in *.
  - destruct e; [done|]. cbn [negb andb]. rewrite beq_refl. cbn [andb].
    case_decide as Hx; [subst; by rewrite bool_decide_true|]. by rewrite bool_decide_false.
  - apply andb_prop in H as [Hc H]. rewrite (IH _ H).
    assert (negb e && (c =b ch_dot) = false) as -> by (destruct e, (c =b ch_dot); done). cbn [andb].
    by case_decide.
Qed.

(** The names that enclose a name, itself first. *)
Definition suffixes (s : bytes) : list bytes := if decide (s = []) then [] else enclosing (segs false s).

Lemma suffixes_label r x : undotted false r = true ->
  suffixes (r ++ ch_dot :: x) = (r ++ ch_dot :: x) :: suffixes x.
Proof.
  intros H. unfold suffixes. rewrite decide_False by by destruct r. rewrite segs_undotted by done.
  case_decide as Hx; [subst; cbn; by rewrite app_nil_r|]. cbn [enclosing concat].
  by rewrite concat_segs, <- app_assoc.
Qed.

Lemma offsets_lookup k l i :
  (i < length l)%nat -> offsets k l !! i = Some (k + zlen (concat (take i l))).
Proof.
  revert k i. induction l as [|x l IH]; intros k i Hi; simpl in *; [lia|].
  destruct i as [|i]; simpl; [f_equal; change (zlen (@nil byte)) with 0; lia|].
  rewrite IH by lia. f_equal. rewrite zlen_app. lia.
Qed.

(** Slicing between consecutive offsets gives the segment. *)
Lemma slice_segment (l : list bytes) i x :
  l !! i = Some x ->
  slice (concat l) (zlen (concat (take i l))) (zlen (concat (take (S i) l))) = Some x.
Proof.
  intros Hx. rewrite (take_S_r _ _ _ Hx), concat_app, zlen_app. simpl. rewrite app_nil_r.
  rewrite <- (take_drop_middle _ _ _ Hx) at 1. rewrite concat_app. simpl.
  by apply slice_mid.
Qed.

(** ** Case-insensitive comparison *)

Lemma equal_loop_spec a b n :
  (n <= length a)%nat -> (n <= length b)%nat ->
  equal_loop a b n = Ok (bool_decide (map lower (take n a) = map lower (take n b))).
Proof.
  induction n as [|n IH]; intros Ha Hb; simpl; [done|].
  destruct (lookup_lt_is_Some_2 a n) as [x Hx]; [lia|].
  destruct (lookup_lt_is_Some_2 b n) as [y Hy]; [lia|].
  rewrite Hx, Hy. simpl. rewrite IH by lia.
  rewrite (take_S_r a _ _ Hx), (take_S_r b _ _ Hy), !map_app. simpl.
  destruct (beq_spec (lower x) (lower y)) as [E|E].
  - rewrite E. do 2 f_equal. apply bool_decide_ext. split; [by intros ->|].
    intros H. by apply app_inj_tail in H as [? _].
  - rewrite bool_decide_false; [done|]. intros H. by apply app_inj_tail in H as [_ ?].
Qed.

Lemma equal_spec a b : equal a b = Ok (bool_decide (map lower a = map lower b)).
Proof.
  unfold equal. destruct (Z.eqb_spec (zlen a) (zlen b)) as [E|E]; unfold zlen in E.
  - rewrite equal_loop_spec by lia. by rewrite !firstn_all2 by lia.
  - rewrite bool_decide_false; [done|]. intros H%(f_equal length).
    rewrite !length_map in H. lia.
Qed.

(** ** Comparing from the right *)

Lemma zget_offsets l i :
  0 <= i < zlen l ->
  zget (offsets 0 l) i = Some (zlen (concat (take (Z.to_nat i) l))).
Proof.
  intros Hi. unfold zget, zlen in *. decide_ifs.
  rewrite offsets_lookup by lia. done.
Qed.

Lemma CompareDomainName_loop_spec S1 S2 k1 k2 n fuel :
  (k1 < length S1)%nat -> (k2 < length S2)%nat -> (k1 < fuel)%nat ->
  CompareDomainName_loop (concat S1) (concat S2) (offsets 0 S1) (offsets 0 S2)
    (Z.of_nat k1) (Z.of_nat k2) n fuel =
  Ok (n + common_prefix (rev (map (map lower) (take k1 S1)))
                        (rev (map (map lower) (take k2 S2)))).
Proof.
  revert k1 k2 n. induction fuel as [|fuel IH]; intros k1 k2 n H1 H2 Hf; [lia|].
  cbn [CompareDomainName_loop].
  destruct k1 as [|k1]; [simpl; by rewrite Z.add_0_r|].
  destruct k2 as [|k2].
  { simpl. rewrite orb_true_r. destruct (rev _); simpl; by rewrite Z.add_0_r. }
  replace (Z.of_nat (S k1) - 1) with (Z.of_nat k1) by lia.
  replace (Z.of_nat (S k2) - 1) with (Z.of_nat k2) by lia.
  decide_ifs.
  rewrite !zget_offsets by (unfold zlen; lia). rewrite !Nat2Z.id. cbn [index mbind res_bind].
  destruct (lookup_lt_is_Some_2 S1 k1) as [x Hx]; [lia|].
  destruct (lookup_lt_is_Some_2 S2 k2) as [y Hy]; [lia|].
  rewrite (slice_segment _ _ _ Hx), (slice_segment _ _ _ Hy). simpl.
  rewrite equal_spec. simpl.
  rewrite (take_S_r _ _ _ Hx), (take_S_r _ _ _ Hy), !map_app, !rev_app_distr. simpl.
  case_bool_decide; case_decide; try done; [|by rewrite Z.add_0_r].
  rewrite IH by lia. f_equal. lia.
Qed.

(** [CompareDomainName] is the length of the longest common suffix of the
    two segment lists, up to case. *)
Lemma CompareDomainName_suffix s1 s2 :
  CompareDomainName s1 s2 =
  Ok (if decide (s1 = [ch_dot] \/ s2 = [ch_dot]) then 0
      else common_prefix (rev (ci_segs s1)) (rev (ci_segs s2))).
Proof.
  unfold CompareDomainName.
  destruct (decide (s1 = [ch_dot])) as [H1|H1], (decide (s2 = [ch_dot])) as [H2|H2];
    destruct (decide (s1 = [ch_dot] \/ s2 = [ch_dot])) as [H3|H3];
    try done; try (destruct H3; auto; fail); try tauto; clear H3.
  rewrite !Split_label_starts, !label_starts_segs by done. gosimp.
  unfold ci_segs.
  assert (Hn1 := segs_nonempty false s1). assert (Hn2 := segs_nonempty false s2).
  assert (Hc1 := concat_segs false s1). assert (Hc2 := concat_segs false s2).
  set (S1 := segs false s1) in *. set (S2 := segs false s2) in *.
  clearbody S1 S2. subst s1 s2.
  destruct (exists_last Hn1) as (S1' & x & ->). destruct (exists_last Hn2) as (S2' & y & ->).
  replace (zlen (offsets 0 (S1' ++ [x])) - 1) with (Z.of_nat (length S1'))
    by (unfold zlen; rewrite length_offsets, length_app; simpl; lia).
  replace (zlen (offsets 0 (S2' ++ [y])) - 1) with (Z.of_nat (length S2'))
    by (unfold zlen; rewrite length_offsets, length_app; simpl; lia).
  rewrite !zget_offsets by (unfold zlen; rewrite length_app; simpl; lia).
  rewrite !Nat2Z.id, !take_app_length. gosimp. unfold from.
  assert (forall (l : list bytes) z, slice (concat (l ++ [z])) (zlen (concat l)) (zlen (concat (l ++ [z]))) = Some z)
    as Hlast.
  { intros l z. rewrite concat_app. simpl. rewrite app_nil_r.
    pose proof (slice_mid (concat l) z [] (zlen (concat l)) (zlen (concat l ++ z))) as Hs.
    rewrite app_nil_r in Hs. apply Hs; [done|]. by rewrite zlen_app. }
  rewrite !Hlast. gosimp. rewrite equal_spec. gosimp.
  rewrite length_offsets, CompareDomainName_loop_spec by (rewrite length_app; simpl; lia).
  rewrite !take_app_length, !fmap_app, !rev_app_distr. simpl.
  by case_bool_decide; case_decide.
Qed.

Lemma common_prefix_le l1 l2 : 0 <= common_prefix l1 l2 <= zlen l1.
Proof.
  revert l2. induction l1 as [|x l1 IH]; intros l2; simpl; [unfold zlen; simpl; lia|].
  destruct l2 as [|y l2]; [zlia|]. case_decide; [|zlia].
  specialize (IH l2). zlia.
Qed.

Lemma common_prefix_full l1 l2 : common_prefix l1 l2 = zlen l1 <-> l1 `prefix_of` l2.
Proof.
  revert l2. induction l1 as [|x l1 IH]; intros l2; simpl.
  { split; [intros; apply prefix_nil|done]. }
  destruct l2 as [|y l2]; simpl.
  { split; [rewrite zlen_cons; pose_lengths; lia|]. by intros ?%prefix_nil_not. }
  rewrite zlen_cons. pose proof (common_prefix_le l1 l2). case_decide as E.
  - subst. split.
    + intros. apply prefix_cons. apply IH. lia.
    + intros H'%prefix_cons_inv_2. apply IH in H'. lia.
  - split; [pose_lengths; lia|]. by intros ?%prefix_cons_inv_1.
Qed.

Lemma IsSubDomain_prefix p c :
  IsSubDomain p c =
  Ok (bool_decide (p = [ch_dot] \/
        (c <> [ch_dot] /\ rev (ci_segs p) `prefix_of` rev (ci_segs c)))).
Proof.
  unfold IsSubDomain. rewrite CompareDomainName_suffix. gosimp.
  destruct (decide (p = [ch_dot])) as [->|Hp].
  { rewrite decide_True by auto. unfold CountLabel. rewrite decide_True by done. gosimp.
    by rewrite bool_decide_true by auto. }
  rewrite CountLabel_label_starts by done. gosimp. f_equal.
  assert (zlen (label_starts p) = zlen (rev (ci_segs p))) as Hlen.
  { rewrite label_starts_segs. unfold zlen, ci_segs.
    by rewrite length_offsets, length_rev, length_fmap. }
  assert (0 < zlen (label_starts p)) by (unfold label_starts; zlia).
  destruct (decide (c = [ch_dot])) as [->|Hc].
  { rewrite decide_True by auto. rewrite bool_decide_false by tauto.
    by decide_ifs. }
  rewrite decide_False by tauto. rewrite Hlen.
  apply eq_true_iff_eq. rewrite Z.eqb_eq, bool_decide_eq_true, common_prefix_full. tauto.
Qed.

(** ** Theorems *)

(** [IsSubDomain(parent, child)] never panics and is true exactly when the
    parent is the root, or the child is not the root and the parent's labels
    are a suffix of the child's labels, up to ASCII case (labels read from the
    left, with escapes, by [segs]). *)
Theorem IsSubDomain_suffix p c :
  IsSubDomain p c =
  Ok (bool_decide (p = [ch_dot] \/
        (c <> [ch_dot] /\ ci_segs p `suffix_of` ci_segs c))).
Proof.
  rewrite IsSubDomain_prefix. f_equal. apply bool_decide_ext.
  enough (forall l1 l2 : list bytes, rev l1 `prefix_of` rev l2 <-> l1 `suffix_of` l2) as ->; [done|].
  intros l1 l2. rewrite !rev_alt. symmetry. apply suffix_prefix_reverse.
Qed.

(** ** [PrevLabel] *)

(** The starts in [1, k+1), from the right. *)
Fixpoint starts_down (s : bytes) (k : nat) : list Z :=
  match k with
  | O => []
  | S k' => if is_sep s (Z.of_nat k') then (Z.of_nat k' + 1) :: starts_down s k'
            else starts_down s k'
  end.

Lemma starts_from_snoc s i n :
  starts_from s i (S n) =
  starts_from s i n ++ if is_sep s (i + Z.of_nat n) then [i + Z.of_nat n + 1] else [].
Proof.
  revert i. induction n as [|n IH]; intros i.
  { simpl. by rewrite Z.add_0_r. }
  change (starts_from s i (S (S n))) with
    (if is_sep s i then (i + 1) :: starts_from s (i + 1) (S n) else starts_from s (i + 1) (S n)).
  rewrite IH. cbn [starts_from].
  replace (i + 1 + Z.of_nat n) with (i + Z.of_nat (S n)) by lia.
  by destruct (is_sep s i).
Qed.

Lemma starts_down_from s k : starts_down s k = rev (starts_from s 0 k).
Proof.
  induction k as [|k IH]; [done|]. rewrite starts_from_snoc, rev_app_distr, <- IH.
  rewrite Z.add_0_l. cbn [starts_down]. by destruct (is_sep s (Z.of_nat k)).
Qed.

Lemma PrevLabel_loop_starts s k n :
  (k <= length s)%nat -> 0 < n ->
  PrevLabel_loop s k n =
  match starts_down s k !! Z.to_nat (n - 1) with
  | Some o => (o, false)
  | None => (0, 1 <? n - zlen (starts_down s k))
  end.
Proof.
  revert n. induction k as [|k IH]; intros n Hk Hn.
  { cbn -[zlen]. change (zlen (@nil Z)) with 0. by rewrite Z.sub_0_r. }
  cbn [PrevLabel_loop starts_down]. decide_ifs. unfold is_sep.
  rewrite dot_escaped_esc by (unfold zlen; lia).
  destruct (is_dot s (Z.of_nat k)); [destruct (esc_after (ztake (Z.of_nat k) s))|];
    cbn [negb andb]; [apply IH; lia| |apply IH; lia].
  destruct (Z.eqb_spec (n - 1) 0) as [E|E].
  - replace n with 1 by lia. done.
  - rewrite IH by lia.
    replace (Z.to_nat (n - 1)) with (S (Z.to_nat (n - 1 - 1))) by lia. simpl.
    case_match; [done|]. do 2 f_equal. zlia.
Qed.

Lemma is_dot_last s : s <> [] -> is_dot s (zlen s - 1) = true -> exists s', s = s' ++ [ch_dot].
Proof.
  intros Hs. destruct (exists_last Hs) as (s' & c & ->). unfold is_dot.
  replace (zlen (s' ++ [c]) - 1) with (zlen s') by zlia. rewrite zget_mid.
  destruct (beq_spec c ch_dot) as [->|]; [eauto|done].
Qed.

(** [PrevLabel(s, n)], for a name other than the root, is the start of the
    [n]-th label counted from the right among the offsets [Split(s)] returns;
    the flag is set exactly when there are fewer labels than [n]. *)
Theorem PrevLabel_Split s n idx :
  s <> [] -> 0 < n -> Split s = Ok idx -> s <> [ch_dot] ->
  PrevLabel s n =
  match rev idx !! Z.to_nat (n - 1) with
  | Some o => (o, false)
  | None => (0, true)
  end.
Proof.
  intros Hs Hn Hsp Hroot. rewrite Split_label_starts in Hsp by done. injection Hsp as <-.
  assert (0 < zlen s) by (destruct s; [done|zlia]).
  unfold PrevLabel. destruct s as [|c0 s0] eqn:Es; [done|]. rewrite <- Es in *.
  decide_ifs.
  set (k := Z.to_nat _).
  assert (PrevLabel_loop s k n = PrevLabel_loop s (length s - 1) n) as ->.
  { unfold k. destruct (is_dot s (zlen s - 1)) eqn:E.
    - f_equal. unfold zlen. lia.
    - replace (Z.to_nat _) with (S (length s - 1)) by (unfold zlen in *; lia).
      cbn [PrevLabel_loop]. decide_ifs.
      replace (Z.of_nat (length s - 1)) with (zlen s - 1) by (unfold zlen in *; lia).
      by rewrite E. }
  rewrite PrevLabel_loop_starts, starts_down_from by lia.
  unfold label_starts. change (0 :: ?l) with ([0] ++ l). rewrite rev_app_distr. simpl.
  set (l := rev (starts_from s 0 (length s - 1))).
  destruct (l !! Z.to_nat (n - 1)) as [o|] eqn:E.
  { by rewrite (lookup_app_l_Some _ _ _ _ E). }
  apply lookup_ge_None in E. rewrite lookup_app_r by done.
  destruct (Z.to_nat (n - 1) - length l)%nat as [|d] eqn:Ed; simpl; unfold zlen; f_equal;
    [apply Z.ltb_ge|apply Z.ltb_lt]; lia.
Qed.
Lemma PrevLabel_Split_witness :
  PrevLabel (bs "www.miek.nl.") 2 = (4, false) /\ Split (bs "www.miek.nl.") = Ok [0; 4; 9].
Proof.
  split; [|reflexivity].
  exact (PrevLabel_Split (bs "www.miek.nl.") 2 [0; 4; 9] ltac:(discriminate)
           ltac:(lia) eq_refl ltac:(discriminate)).
Defined.

(** ** Fully qualified names *)

Lemma last_index_ascii s n :
  is_ascii s -> (n <= length s)%nat -> last_index_not_bslash s n = skip_bslash s n.
Proof.
  intros Ha. induction n as [|n IH]; intros Hn; [done|].
  destruct (lookup_lt_is_Some_2 s n) as [c Hc]; [lia|].
  cbn [last_index_not_bslash skip_bslash]. rewrite Hc.
  destruct (c =b ch_bslash); [apply IH; lia|].
  rewrite (take_S_r _ _ c) by done. rewrite decode_last_width_ascii; [lia|].
  unfold is_ascii in Ha. rewrite Forall_lookup in Ha. eauto.
Qed.

(** A name that ends with an unescaped dot. *)
Definition ends_with_sep (s : bytes) : Prop :=
  exists s', s = s' ++ [ch_dot] /\ esc_after s' = false.

Lemma IsFqdn_iff s : is_ascii s -> (IsFqdn s = true <-> ends_with_sep s).
Proof.
  intros Ha. unfold ends_with_sep, IsFqdn.
  destruct (decide (s = [])) as [->|Hs].
  { split; [done|]. intros (s' & H & _). by destruct s'. }
  destruct (exists_last Hs) as (s0 & c & ->). rewrite last_snoc.
  apply is_ascii_app in Ha as [Ha _].
  replace (take _ _) with s0
    by (rewrite length_app, Nat.add_sub; by rewrite take_app_length).
  transitivity (c = ch_dot /\ esc_after s0 = false).
  2: { split; [intros [-> ?]; eauto|]. intros (s' & E & ?).
       by apply app_inj_tail in E as [-> ->]. }
  destruct (beq_spec c ch_dot) as [->|]; [|naive_solver]; simpl.
  enough (negb (esc_after s0) =
    match last s0 with
    | Some c => if negb (c =b ch_bslash) then true else
        negb (Z.rem (zlen s0 - last_index_not_bslash s0 (length s0)) 2 =? 0)
    | None => true end) as <- by (rewrite negb_true_iff; naive_solver).
  destruct (decide (s0 = [])) as [->|Hs0]; [done|].
  destruct (exists_last Hs0) as (s1 & d & ->). rewrite last_snoc.
  destruct (beq_spec d ch_bslash) as [->|Hd]; simpl.
  2: { rewrite esc_after_snoc. unfold esc_step. rewrite beq_ne by done. by destruct (esc_after s1). }
  rewrite last_index_ascii by done. f_equal.
  set (t := s1 ++ _) in *. pose proof (skip_bslash_esc t (length t)) as H.
  rewrite firstn_all in H. rewrite <- H by lia. unfold zlen.
  rewrite (Zeven_mod _ : Z.even _ = _).
  apply eq_true_iff_eq. rewrite !Z.eqb_eq. Z.to_euclidean_division_equations. lia.
Qed.

(** On ASCII names [IsFqdn] is true exactly when the name ends with a dot
    that is not escaped when the name is read from the left. *)
Theorem IsFqdn_ascii s :
  is_ascii s -> (IsFqdn s = true <-> ends_with_sep s).
Proof. apply IsFqdn_iff. Qed.

Lemma IsFqdn_ascii_witness : is_ascii (bs "a\..") /\ ends_with_sep (bs "a\..").
Proof.
  assert (is_ascii (bs "a\..")) as H by (repeat constructor).
  split; [exact H|]. exact (proj1 (IsFqdn_ascii (bs "a\..") H) eq_refl).
Defined.

(** With a multi-byte rune before the backslashes the parity test of
    [IsFqdn] counts bytes of the rune: the two-byte letter e-acute followed by
    an escaped dot is reported fully qualified, although the dot belongs to
    the label. *)
Theorem IsFqdn_multibyte_bug :
  IsFqdn [xc3; xa9; ch_bslash; ch_dot] = true /\
  ~ ends_with_sep [xc3; xa9; ch_bslash; ch_dot].
Proof.
  split; [reflexivity|]. intros (s' & E & He).
  change [xc3; xa9; ch_bslash; ch_dot] with ([xc3; xa9; ch_bslash] ++ [ch_dot]) in E.
  apply app_inj_tail in E as [<- _]. done.
Qed.

(** ** [SplitDomainName] *)

(** [strings.Join(labels, ".")]. *)
Fixpoint join_dots (l : list bytes) : bytes :=
  match l with
  | [] => []
  | [x] => x
  | x :: l => x ++ [ch_dot] ++ join_dots l
  end.

Lemma segs_dots e s S' x :
  segs e s = S' ++ [x] -> Forall (fun y => exists l, y = l ++ [ch_dot]) S'.
Proof.
  revert e S'. induction s as [|c s IH]; intros e S' H.
  { destruct S' as [|? S']; [constructor|]. injection H as _ H. by destruct S'. }
  cbn [segs] in H. destruct (_ && _) eqn:E.
  - destruct S' as [|y S']; [constructor|]. injection H as <- H.
    apply andb_true_iff in E as [[_ E]%andb_true_iff _].
    destruct (beq_spec c ch_dot) as [->|]; [|done].
    constructor; [by exists []|]. by eapply IH.
  - destruct (segs (esc_step e c) s) as [|h t] eqn:Es; [by apply segs_nonempty in Es|].
    destruct S' as [|y S']; [constructor|]. injection H as <- ->.
    specialize (IH _ (h :: S') Es). inversion IH as [|? ? (l & ->) ?]; subst.
    constructor; [|done]. by exists (c :: l).
Qed.

Lemma segs_last_nonempty e s S' x : s <> [] -> segs e s = S' ++ [x] -> x <> [].
Proof.
  revert e S'. induction s as [|c s IH]; intros e S' Hs H; [done|].
  cbn [segs] in H. destruct (_ && _) eqn:E.
  - apply andb_true_iff in E as [_ E]. apply negb_true_iff, bool_decide_eq_false in E.
    destruct S' as [|? S']; injection H as _ H; [by apply segs_nonempty in H|].
    by eapply IH.
  - destruct (segs (esc_step e c) s) as [|h t] eqn:Es; [by apply segs_nonempty in Es|].
    destruct S' as [|y S']; injection H as <- H; [done|]. subst t.
    destruct s as [|c' s]; [by destruct S'|]. by eapply (IH _ (h :: S')).
Qed.

Lemma SplitDomainName_loop_segs pre S' x labels :
  Forall (fun y => exists l, y = l ++ [ch_dot]) S' ->
  foldM (fun '(labels, begin) end_ =>
           l ← index (slice (concat (pre ++ S' ++ [x])) begin (end_ - 1));
           Ok (labels ++ [l], end_))
    (labels, zlen (concat pre)) (tail (offsets (zlen (concat pre)) (S' ++ [x]))) =
  @Ok error _ (labels ++ map (@removelast byte) S', zlen (concat (pre ++ S'))).
Proof.
  revert pre labels. induction S' as [|y S' IH]; intros pre labels HS.
  { simpl. by rewrite !app_nil_r. }
  inversion HS as [|? ? (l & ->) HS']; subst.
  specialize (IH (pre ++ [l ++ [ch_dot]]) (labels ++ [l]) HS').
  rewrite <- !app_assoc in IH.
  simpl app in *. cbn [offsets tail] in *.
  assert (zlen (concat (pre ++ [l ++ [ch_dot]])) = zlen (concat pre) + zlen (l ++ [ch_dot])) as Hz
    by (rewrite concat_app, zlen_app; simpl; by rewrite app_nil_r).
  rewrite Hz in IH.
  destruct (S' ++ [x]) as [|z r] eqn:Er; [by destruct S'|].
  cbn [offsets tail foldM] in *.
  replace (slice _ _ _) with (Some l).
  2: { symmetry. rewrite concat_app. simpl. rewrite <- app_assoc.
       apply slice_mid; [done|]. zlia. }
  gosimp. cbn [map]. rewrite removelast_last. exact IH.
Qed.

Lemma join_removelast S' x :
  Forall (fun y => exists l, y = l ++ [ch_dot]) S' ->
  join_dots (map (@removelast byte) S' ++ [x]) = concat S' ++ x.
Proof.
  induction 1 as [|y S' (l & ->) HS IH]; [done|].
  cbn [map app]. rewrite removelast_last. cbn [concat]. rewrite <- app_assoc.
  rewrite <- IH. destruct (map (@removelast byte) S' ++ [x]) eqn:E; [by destruct (map (@removelast byte) S')|].
  simpl. by rewrite <- app_assoc.
Qed.

(** The labels are the segments without their final dots. *)
Lemma last_segment s S' x : s <> [] -> s <> [ch_dot] -> segs false s = S' ++ [x] -> concat S' ++ x = s /\
  x = (if IsFqdn s then removelast x else x) ++ if IsFqdn s then [ch_dot] else [].
Proof.
  intros Hs Hroot HS. pose proof (concat_segs false s) as Hc.
  rewrite HS in Hc. rewrite concat_app in Hc. simpl in Hc. rewrite app_nil_r in Hc. split; [done|].
  destruct (IsFqdn s) eqn:Hf; [|by rewrite app_nil_r].
  pose proof (segs_last_nonempty _ _ _ _ Hs HS) as Hxne.
  destruct (exists_last Hxne) as (x' & c & ->). rewrite removelast_last. f_equal.
  unfold IsFqdn in Hf. rewrite <- Hc, app_assoc, last_snoc in Hf.
  destruct (beq_spec c ch_dot) as [->|]; [done|done].
Qed.

Lemma SplitDomainName_segs s S' x : s <> [] -> s <> [ch_dot] -> segs false s = S' ++ [x] ->
  SplitDomainName s = Ok (map (@removelast byte) S' ++ [if IsFqdn s then removelast x else x]) /\
  CountLabel s = Ok (zlen (S' ++ [x])).
Proof.
  intros Hs Hroot HS. destruct (last_segment s S' x Hs Hroot HS) as [Hc Hx].
  pose proof (segs_dots _ _ _ _ HS) as Hd. set (y := if IsFqdn s then removelast x else x) in *. split.
  - unfold SplitDomainName. destruct s as [|c0 s0] eqn:Es; [done|]. rewrite <- Es in *.
    rewrite Split_label_starts, label_starts_segs, HS by done. gosimp.
    pose proof (SplitDomainName_loop_segs [] S' x [] Hd) as Hl.
    simpl in Hl. change (zlen (@nil byte)) with 0 in Hl.
    rewrite concat_app in Hl. simpl in Hl. rewrite app_nil_r, Hc in Hl.
    unfold SplitDomainName_loop.
    destruct (offsets 0 (S' ++ [x])) as [|o r] eqn:Eo.
    { apply (f_equal length) in Eo. rewrite length_offsets, length_app in Eo. simpl in Eo. lia. }
    cbn [tail] in Hl. rewrite Hl. gosimp.
    replace (slice _ _ _) with (Some y); [done|].
    rewrite <- Hc at 1. rewrite Hx at 1. rewrite Hx in Hc. symmetry. apply slice_mid; [done|].
    apply (f_equal zlen) in Hc. destruct (IsFqdn s); zlia.
  - rewrite CountLabel_label_starts, label_starts_segs, HS by done. f_equal.
    unfold zlen. by rewrite length_offsets.
Qed.

(** [SplitDomainName] never panics, returns as many labels as [CountLabel]
    counts, and joining its labels with dots (plus the final dot of a fully
    qualified name) gives the name back. *)
Theorem SplitDomainName_join s :
  s <> [] -> s <> [ch_dot] ->
  exists ls,
    SplitDomainName s = Ok ls /\ CountLabel s = Ok (zlen ls) /\
    s = join_dots ls ++ (if IsFqdn s then [ch_dot] else []).
Proof.
  intros Hs Hroot.
  destruct (exists_last (segs_nonempty false s)) as (S' & x & HS).
  destruct (last_segment s S' x Hs Hroot HS) as [Hc Hx].
  destruct (SplitDomainName_segs s S' x Hs Hroot HS) as [H1 H2].
  eexists. split_and!; [exact H1| |].
  - rewrite H2. f_equal. unfold zlen. by rewrite !length_app, length_map.
  - rewrite join_removelast by (by eapply segs_dots). by rewrite <- app_assoc, <- Hx.
Qed.
Lemma SplitDomainName_join_witness :
  exists ls, SplitDomainName (bs "a\.b.nl.") = Ok ls /\ CountLabel (bs "a\.b.nl.") = Ok (zlen ls) /\
    bs "a\.b.nl." = join_dots ls ++ (if IsFqdn (bs "a\.b.nl.") then [ch_dot] else []).
Proof. apply (SplitDomainName_join (bs "a\.b.nl.")); discriminate. Defined.
