(* ===== verification/Escape.v ===== *)
(** * Presentation-format escapes (msg.go, types.go)

    [isDigit], [isDDD], [dddToByte], [escapeByte], [isDomainNameLabelSpecial],
    [nextByte], [sprintName], [sprintTxt], [sprintTxtOctet] and
    [writeTXTStringByte]. *)

From S2P Require Import Prelude Go.

Definition isDigit (b : byte) : bool := (48 <=? bval b) && (bval b <=? 57).

Definition isDDD (s : bytes) : bool :=
  match s with
  | a :: b :: c :: _ => isDigit a && isDigit b && isDigit c
  | _ => false
  end.

(** [byte((s[0]-'0')*100 + (s[1]-'0')*10 + (s[2]-'0'))]: byte arithmetic. *)
Definition dddToByte (s : bytes) : res error byte :=
  match s with
  | a :: b :: c :: _ =>
      Ok (byte_of ((bval a - 48) * 100 + (bval b - 48) * 10 + (bval c - 48)))
  | _ => Panic
  end.

(** The two constant tables of [escapeByte]. *)
Definition escapedByteSmall : bytes :=
  bs "\000\001\002\003\004\005\006\007\008\009" ++
  bs "\010\011\012\013\014\015\016\017\018\019" ++
  bs "\020\021\022\023\024\025\026\027\028\029" ++
  bs "\030\031".

Definition escapedByteLarge : bytes :=
  bs "\127\128\129" ++
  bs "\130\131\132\133\134\135\136\137\138\139" ++
  bs "\140\141\142\143\144\145\146\147\148\149" ++
  bs "\150\151\152\153\154\155\156\157\158\159" ++
  bs "\160\161\162\163\164\165\166\167\168\169" ++
  bs "\170\171\172\173\174\175\176\177\178\179" ++
  bs "\180\181\182\183\184\185\186\187\188\189" ++
  bs "\190\191\192\193\194\195\196\197\198\199" ++
  bs "\200\201\202\203\204\205\206\207\208\209" ++
  bs "\210\211\212\213\214\215\216\217\218\219" ++
  bs "\220\221\222\223\224\225\226\227\228\229" ++
  bs "\230\231\232\233\234\235\236\237\238\239" ++
  bs "\240\241\242\243\244\245\246\247\248\249" ++
  bs "\250\251\252\253\254\255".

Definition escapeByte {E} (b : byte) : res E bytes :=
  if bval b <? bval ch_space then
    index (slice escapedByteSmall (bval b * 4 mod 256) ((bval b * 4 + 4) mod 256))
  else
    let b := byte_of (bval b - (bval ch_tilde + 1)) in
    index (slice escapedByteLarge (bval b * 4) (bval b * 4 + 4)).

Definition isDomainNameLabelSpecial (b : byte) : bool :=
  (b =b x2e) || (b =b x20) || (b =b x27) || (b =b x40) || (b =b x3b)
  || (b =b x28) || (b =b x29) || (b =b x22) || (b =b x5c).

(** [b < ' ' || b > '~']. *)
Definition unprintable (b : byte) : bool :=
  (bval b <? bval ch_space) || (bval ch_tilde <? bval b).

(** The byte at [offset], unescaped, and how many characters it took. *)
Definition nextByte (s : bytes) (offset : Z) : res error (byte * Z) :=
  if zlen s <=? offset then Ok (x00, 0) else
  c ← index (zget s offset);
  if negb (c =b ch_bslash) then Ok (c, 1) else
  let rest := zdrop (offset + 1) s in
  let remaining := zlen s - offset in
  if remaining =? 1 then Ok (x00, 0) else
  if (4 <=? remaining) && isDDD rest then
    b ← dddToByte rest; Ok (b, 4)
  else
    c1 ← index (zget s (offset + 1)); Ok (c1, 2).

(** [sprintName]: [dst] is the [strings.Builder]; its emptiness is tested. *)
Definition sprintName (s : bytes) : res error bytes :=
  loop (S (length s))
    (fun '(i, dst) =>
       let finish (dst : bytes) : res error ((Z * bytes) + bytes) :=
         Ok (inr (if decide (dst = []) then s else dst)) in
       if negb (i <? zlen s) then finish dst else
       c ← index (zget s i);
       if c =b ch_dot then
         Ok (inl (i + 1, if decide (dst = []) then dst else dst ++ [ch_dot]))
       else
         '(b, n) ← nextByte s i;
         if n =? 0 then
           (if decide (dst = []) then p ← index (slice s 0 i); Ok (inr p) else finish dst)
         else
           if isDomainNameLabelSpecial b then
             pre ← (if decide (dst = []) then index (slice s 0 i) else Ok dst);
             Ok (inl (i + n, pre ++ [ch_bslash; b]))
           else if unprintable b then
             pre ← (if decide (dst = []) then index (slice s 0 i) else Ok dst);
             e ← escapeByte b;
             Ok (inl (i + n, pre ++ e))
           else
             Ok (inl (i + n, if decide (dst = []) then dst else dst ++ [b])))
    (0, []).

Definition writeTXTStringByte (s : bytes) (b : byte) : res error bytes :=
  if (b =b ch_quote) || (b =b ch_bslash) then Ok (s ++ [ch_bslash; b]) else
  if unprintable b then e ← escapeByte b; Ok (s ++ e) else Ok (s ++ [b]).

Definition sprintTxtOctet (s : bytes) : res error bytes :=
  loop (S (length s))
    (fun '(i, dst) =>
       if negb (i <? zlen s) then Ok (inr (dst ++ [ch_quote])) else
       if (i + 1 <? zlen s) && bool_decide (zget s i = Some ch_bslash)
          && bool_decide (zget s (i + 1) = Some ch_dot) then
         w ← index (slice s i (i + 2));
         Ok (inl (i + 2, dst ++ w))
       else
         '(b, n) ← nextByte s i;
         if n =? 0 then Ok (inl (i + 1 + n, dst)) else
         dst ← writeTXTStringByte dst b;
         Ok (inl (i + n, dst)))
    (0, [ch_quote]).

(** One string of [sprintTxt]. *)
Definition sprintTxt_string (out : bytes) (s : bytes) : res error bytes :=
  loop (S (length s))
    (fun '(j, out) =>
       if negb (j <? zlen s) then Ok (inr out) else
       '(b, n) ← nextByte s j;
       if n =? 0 then Ok (inr out) else
       out ← writeTXTStringByte out b;
       Ok (inl (j + n, out)))
    (0, out).

Definition sprintTxt (txt : list bytes) : res error bytes :=
  '(_, out) ←
    foldM (fun '(i, out) s =>
             let out := if 0 <? i then out ++ [ch_space; ch_quote] else out ++ [ch_quote] in
             out ← sprintTxt_string out s;
             Ok (i + 1, out ++ [ch_quote])) (0, []) txt;
  Ok out.

(** ** Facts about single bytes, by computation over the 256 values *)

(** The canonical presentation of a label byte. *)
Definition escape_byte (b : byte) : bytes :=
  if isDomainNameLabelSpecial b then [ch_bslash; b] else
  if unprintable b then
    [ch_bslash; byte_of (48 + bval b / 100); byte_of (48 + bval b / 10 mod 10);
     byte_of (48 + bval b mod 10)]
  else [b].

(** [escapeByte] is the three-digit decimal escape, and never panics. *)
Lemma escapeByte_ddd E b :
  unprintable b = true ->
  @escapeByte E b =
    Ok [ch_bslash; byte_of (48 + bval b / 100); byte_of (48 + bval b / 10 mod 10);
        byte_of (48 + bval b mod 10)].
Proof. destruct b; intros H; first [discriminate H | reflexivity]. Qed.

(** The decimal escape reads back. *)
Lemma ddd_roundtrip b r :
  let d1 := byte_of (48 + bval b / 100) in
  let d2 := byte_of (48 + bval b / 10 mod 10) in
  let d3 := byte_of (48 + bval b mod 10) in
  isDDD (d1 :: d2 :: d3 :: r) = true /\ dddToByte (d1 :: d2 :: d3 :: r) = Ok b.
Proof. destruct b; split; reflexivity. Qed.

Lemma special_not_digit b : isDomainNameLabelSpecial b = true -> isDigit b = false.
Proof. by destruct b. Qed.

Lemma printable_plain b :
  isDomainNameLabelSpecial b = false -> (b =b ch_bslash) = false /\ (b =b ch_dot) = false.
Proof. by destruct b. Qed.
