(* ===== verification/Names.v ===== *)
(** * Domain names on the wire (msg.go, defaults.go)

    [compressionMap], [packDomainName], [PackDomainName], [isRootLabel],
    [UnpackDomainName], [domainNameLen], [escapedNameLen],
    [compressionLenSearch] and [IsDomainName]. *)

From S2P Require Import Prelude Go Utf8 Labels Escape.

Definition maxCompressionOffset : Z := 16384.
Definition maxDomainNameWireOctets : Z := 255.
Definition maxCompressionPointers : Z := (maxDomainNameWireOctets + 1) / 2 - 2.
Definition maxDomainNamePresentationLength : Z :=
  61*4 + 1 + 63*4 + 1 + 63*4 + 1 + 63*4 + 1.

(** The two maps of [compressionMap]; [None] is a nil map. *)
Record compressionMap := { ext : option (gmap bytes Z); int_ : option (gmap bytes Z) }.

Definition nil_map : compressionMap := {| ext := None; int_ := None |}.

Definition valid (m : compressionMap) : bool :=
  match int_ m, ext m with None, None => false | _, _ => true end.

(** [m.insert(s, pos)]; storing in a nil map panics. *)
Definition insert {E} (m : compressionMap) (s : bytes) (pos : Z) : res E compressionMap :=
  match ext m, int_ m with
  | Some e, i => Ok {| ext := Some (<[s := pos]> e); int_ := i |}
  | None, Some i => Ok {| ext := None; int_ := Some (<[s := pos mod 65536]> i) |}
  | None, None => Panic
  end.

Definition find (m : compressionMap) (s : bytes) : option Z :=
  match ext m with
  | Some e => e !! s
  | None => match int_ m with Some i => i !! s | None => None end
  end.

(** [binary.BigEndian.PutUint16(msg[off:], v)]. *)
Definition PutUint16 {E} (msg : bytes) (off v : Z) : res E bytes :=
  w ← index (slice msg off (off + 2));
  let _ := w : bytes in
  Ok (blit msg off [byte_of (v / 256); byte_of v]).

(** [isRootLabel(s, bs, off, end)]. *)
Definition isRootLabel {E} (s : bytes) (obs : option bytes) (off end_ : Z) : res E bool :=
  match obs with
  | None => w ← index (slice s off end_); Ok (bool_decide (w = [ch_dot]))
  | Some b =>
      if end_ - off =? 1 then c ← index (zget b off); Ok (c =b ch_dot) else Ok false
  end.

(** [copy(b[i:j], b[k:])]. *)
Definition copy_within {E} (b : bytes) (i j k : Z) : res E bytes :=
  dst ← index (slice b i j);
  src ← index (slice b k (zlen b));
  Ok (blit b i (ztake (zlen dst) src)).

(** The variables of the loop of [packDomainName]. *)
Record pack_state := {
  ps_i : Z; ps_ls : Z; ps_begin : Z; ps_compBegin : Z; ps_compOff : Z;
  ps_bs : option bytes; ps_wasDot : bool;
  ps_off : Z; ps_msg : bytes; ps_cm : compressionMap }.

(** [case '\\']: remove the escape from [bs]. *)
Definition pack_escape (s : bytes) (st : pack_state) : wire pack_state :=
  let lenmsg := zlen (ps_msg st) in
  if lenmsg <? ps_off st + 1 then fail lenmsg ErrBuf else
  let b := default s (ps_bs st) in
  let i := ps_i st in
  rest ← index (slice b (i + 1) (zlen b));
  if isDDD rest then
    c ← on_err (fun e => (0, e)) (dddToByte rest);
    let b := zset b i c in
    b ← copy_within b (i + 1) (ps_ls st - 3) (i + 4);
    Ok {| ps_i := i + 1; ps_ls := ps_ls st - 3; ps_begin := ps_begin st;
          ps_compBegin := ps_compBegin st; ps_compOff := ps_compOff st + 3;
          ps_bs := Some b; ps_wasDot := false;
          ps_off := ps_off st; ps_msg := ps_msg st; ps_cm := ps_cm st |}
  else
    b ← copy_within b i (ps_ls st - 1) (i + 1);
    Ok {| ps_i := i + 1; ps_ls := ps_ls st - 1; ps_begin := ps_begin st;
          ps_compBegin := ps_compBegin st; ps_compOff := ps_compOff st + 1;
          ps_bs := Some b; ps_wasDot := false;
          ps_off := ps_off st; ps_msg := ps_msg st; ps_cm := ps_cm st |}.

(** [case '.']: write the label, or [break loop] with a pointer. *)
Definition pack_dot (s : bytes) (compress : bool) (st : pack_state)
    : wire (pack_state + pack_state * Z) :=
  let lenmsg := zlen (ps_msg st) in
  let i := ps_i st in
  let off := ps_off st in
  if (i =? 0) && (1 <? zlen s) then fail lenmsg ErrRdata else
  if ps_wasDot st then fail lenmsg ErrRdata else
  let labelLen := i - ps_begin st in
  if 64 <=? labelLen then fail lenmsg ErrRdata else
  if lenmsg <? off + 1 + labelLen then fail lenmsg ErrBuf else
  root ← isRootLabel s (ps_bs st) (ps_begin st) (ps_ls st);
  hit ← (if valid (ps_cm st) && negb root then
           key ← index (from s (ps_compBegin st));
           match find (ps_cm st) key with
           | Some p => if compress then Ok (inr p) else Ok (inl (ps_cm st))
           | None =>
               if off <? maxCompressionOffset
               then cm ← insert (ps_cm st) key off; Ok (inl cm)
               else Ok (inl (ps_cm st))
           end
         else Ok (inl (ps_cm st)));
  match hit with
  | inr p => Ok (inr (st, p))
  | inl cm =>
      lab ← index (slice (default s (ps_bs st)) (ps_begin st) i);
      let msg := blit (ps_msg st) off (byte_of labelLen :: lab) in
      Ok (inl {| ps_i := i + 1; ps_ls := ps_ls st; ps_begin := i + 1;
                 ps_compBegin := i + 1 + ps_compOff st; ps_compOff := ps_compOff st;
                 ps_bs := ps_bs st; ps_wasDot := true;
                 ps_off := off + 1 + labelLen; ps_msg := msg; ps_cm := cm |})
  end.

(** One iteration of the loop; it ends with the state and the pointer found
    in the compression map, if any. *)
Definition pack_step (s : bytes) (compress : bool) (st : pack_state)
    : wire (pack_state + pack_state * option Z) :=
  if negb (ps_i st <? ps_ls st) then Ok (inr (st, None)) else
  c ← index (zget (default s (ps_bs st)) (ps_i st));
  if c =b ch_bslash then st ← pack_escape s st; Ok (inl st)
  else if c =b ch_dot then
    r ← pack_dot s compress st;
    match r with
    | inl st => Ok (inl st)
    | inr (st, p) => Ok (inr (st, Some p))
    end
  else
    Ok (inl {| ps_i := ps_i st + 1; ps_ls := ps_ls st; ps_begin := ps_begin st;
               ps_compBegin := ps_compBegin st; ps_compOff := ps_compOff st;
               ps_bs := ps_bs st; ps_wasDot := false;
               ps_off := ps_off st; ps_msg := ps_msg st; ps_cm := ps_cm st |}).

Definition pack_init (s msg : bytes) (off : Z) (cm : compressionMap) : pack_state :=
  {| ps_i := 0; ps_ls := zlen s; ps_begin := 0; ps_compBegin := 0; ps_compOff := 0;
     ps_bs := None; ps_wasDot := false; ps_off := off; ps_msg := msg; ps_cm := cm |}.

(** After the loop: root label, pointer, or trailing zero. *)
Definition pack_finish (s : bytes) (r : pack_state * option Z)
    : wire (bytes * Z * compressionMap) :=
  let '(st, pointer) := r in
  let msg := ps_msg st in let off := ps_off st in
  root ← isRootLabel s (ps_bs st) 0 (ps_ls st);
  if root : bool then Ok (msg, off, ps_cm st) else
  match pointer with
  | Some p =>
      msg ← PutUint16 msg off (Z.lxor p 0xC000 mod 65536);
      Ok (msg, off + 2, ps_cm st)
  | None =>
      if off <? zlen msg
      then Ok (blit msg off [x00], off + 1, ps_cm st)
      else fail off ErrBuf
  end.

Definition packDomainName (s msg : bytes) (off : Z) (cm : compressionMap) (compress : bool)
    : wire (bytes * Z * compressionMap) :=
  match s with
  | [] => Ok (msg, off, cm)
  | _ =>
      if negb (IsFqdn s) then fail (zlen msg) ErrFqdn else
      r ← loop (S (length s)) (pack_step s compress) (pack_init s msg off cm);
      pack_finish s r
  end.

(** The exported entry point: the caller's map is [ext]. *)
Definition PackDomainName (s msg : bytes) (off : Z) (compression : option (gmap bytes Z))
    (compress : bool) : wire (bytes * Z * compressionMap) :=
  packDomainName s msg off {| ext := compression; int_ := None |} compress.

(** ** Unpacking *)

(** The label bytes, escaped. *)
Definition escape_label {E} (s : bytes) (label : bytes) : res E bytes :=
  foldM (fun s b =>
           if isDomainNameLabelSpecial b then Ok (s ++ [ch_bslash; b])
           else if unprintable b then e ← escapeByte b; Ok (s ++ e)
           else Ok (s ++ [b])) s label.

Record unpack_state := {
  us_s : bytes; us_off : Z; us_off1 : Z; us_budget : Z; us_ptr : Z }.

Definition unpack_step (msg : bytes) (st : unpack_state)
    : wire (unpack_state + unpack_state) :=
  let lenmsg := zlen msg in
  let off := us_off st in
  if lenmsg <=? off then fail lenmsg ErrBuf else
  b ← index (zget msg off);
  let c := bval b in
  let off := off + 1 in
  let class := Z.land c 0xC0 in
  if class =? 0x00 then
    if c =? 0 then
      Ok (inr {| us_s := us_s st; us_off := off; us_off1 := us_off1 st;
                 us_budget := us_budget st; us_ptr := us_ptr st |})
    else
    if lenmsg <? off + c then fail lenmsg ErrBuf else
    let budget := us_budget st - (c + 1) in
    if budget <=? 0 then fail lenmsg ErrLongDomain else
    label ← index (slice msg off (off + c));
    s ← escape_label (us_s st) label;
    Ok (inl {| us_s := s ++ [ch_dot]; us_off := off + c; us_off1 := us_off1 st;
               us_budget := budget; us_ptr := us_ptr st |})
  else if class =? 0xC0 then
    if lenmsg <=? off then fail lenmsg ErrBuf else
    b1 ← index (zget msg off);
    let off := off + 1 in
    let off1 := if us_ptr st =? 0 then off else us_off1 st in
    let ptr := us_ptr st + 1 in
    if maxCompressionPointers <? ptr
    then fail lenmsg (MkError "too many compression pointers") else
    Ok (inl {| us_s := us_s st; us_off := Z.lor (Z.shiftl (Z.lxor c 0xC0) 8) (bval b1);
               us_off1 := off1; us_budget := us_budget st; us_ptr := ptr |})
  else fail lenmsg ErrRdata.

(** Labels use up the budget of 255 octets and pointers are at most 126, so
    the loop runs fewer than 400 times ([UnpackDomainName_total]). *)
Definition unpack_fuel : nat := 400.

Definition UnpackDomainName (msg : bytes) (off : Z) : wire (bytes * Z) :=
  st ← loop unpack_fuel (unpack_step msg)
         {| us_s := []; us_off := off; us_off1 := 0;
            us_budget := maxDomainNameWireOctets; us_ptr := 0 |};
  let off1 := if us_ptr st =? 0 then us_off st else us_off1 st in
  if decide (us_s st = []) then Ok ([ch_dot], off1) else Ok (us_s st, off1).

(** ** Lengths *)

(** [compressionLenSearch]: the set of names seen so far is threaded. *)
Definition compressionLenSearch (c : gset bytes) (s : bytes) (msgOff : Z)
    : res error (gset bytes * (Z * bool)) :=
  loop (S (length s))
    (fun '(c, off, end_) =>
       if end_ : bool then Ok (inr (c, (0, false))) else
       key ← index (from s off);
       if decide (key ∈ c) then Ok (inr (c, (off, true))) else
       let c := if msgOff + off <? maxCompressionOffset then {[key]} ∪ c else c in
       '(off, end_) ← NextLabel s off;
       Ok (inl (c, off, end_)))
    (c, 0, false).

(** One iteration of [escapedNameLen], over [i] and [nameLen]. *)
Definition escapedNameLen_step (s : bytes) (st : Z * Z) : res error (Z * Z + Z) :=
  let '(i, nameLen) := st in
  if negb (i <? zlen s) then Ok (inr nameLen) else
  c ← index (zget s i);
  if negb (c =b ch_bslash) then Ok (inl (i + 1, nameLen)) else
  rest ← index (from s (i + 1));
  if isDDD rest then Ok (inl (i + 4, nameLen - 3))
  else Ok (inl (i + 2, nameLen - 1)).

Definition escapedNameLen (s : bytes) : res error Z :=
  loop (S (length s)) (escapedNameLen_step s) (0, zlen s).

(** [domainNameLen]: the compression set is [None] when nil. *)
Definition domainNameLen (s : bytes) (off : Z) (compression : option (gset bytes))
    (compress : bool) : res error (Z * option (gset bytes)) :=
  if decide (s = []) then Ok (1, compression) else
  if decide (s = [ch_dot]) then Ok (1, compression) else
  let escaped := bool_decide (ch_bslash ∈ s) in
  let whole (c : option (gset bytes)) :=
    if escaped then n ← escapedNameLen s; Ok (n + 1, c) else Ok (zlen s + 1, c) in
  match compression with
  | Some c =>
      if compress || (off <? maxCompressionOffset) then
        '(c, (l, ok)) ← compressionLenSearch c s off;
        if ok && compress then
          if escaped then
            p ← index (slice s 0 l);
            n ← escapedNameLen p; Ok (n + 2, Some c)
          else Ok (l + 2, Some c)
        else whole (Some c)
      else whole (Some c)
  | None => whole None
  end.

(** ** [IsDomainName] *)

Record isname_state := {
  is_i : Z; is_off : Z; is_begin : Z; is_labels : Z; is_wasDot : bool; is_escape : bool }.

Definition isname_step (s : bytes) (st : isname_state)
    : res error (isname_state + Z * bool) :=
  let lenmsg := 256 in
  let i := is_i st in
  if negb (i <? zlen s) then
    Ok (inr (if is_escape st then (is_labels st, false) else (is_labels st, true))) else
  c ← index (zget s i);
  if c =b ch_bslash then
    if lenmsg <? is_off st + 1 then Ok (inr (is_labels st, false)) else
    rest ← index (from s (i + 1));
    let k := if isDDD rest then 3 else 1 in
    Ok (inl {| is_i := i + k + 1; is_off := is_off st; is_begin := is_begin st + k;
               is_labels := is_labels st; is_wasDot := false; is_escape := negb (is_escape st) |})
  else if c =b ch_dot then
    if (i =? 0) && (1 <? zlen s) then Ok (inr (is_labels st, false)) else
    if is_wasDot st then Ok (inr (is_labels st, false)) else
    let labelLen := i - is_begin st in
    if 64 <=? labelLen then Ok (inr (is_labels st, false)) else
    let off := is_off st + (1 + labelLen) in
    if lenmsg <? off then Ok (inr (is_labels st, false)) else
    Ok (inl {| is_i := i + 1; is_off := off; is_begin := i + 1;
               is_labels := is_labels st + 1; is_wasDot := true; is_escape := false |})
  else
    Ok (inl {| is_i := i + 1; is_off := is_off st; is_begin := is_begin st;
               is_labels := is_labels st; is_wasDot := false; is_escape := false |}).

Definition IsDomainName (s : bytes) : res error (Z * bool) :=
  if decide (s = []) then Ok (0, false) else
  let s := Fqdn s in
  loop (S (length s)) (isname_step s)
    {| is_i := 0; is_off := 0; is_begin := 0; is_labels := 0;
       is_wasDot := false; is_escape := false |}.
