(* ===== verification/NameDecode.v ===== *)
(** * [UnpackDomainName]: termination, safety and correctness

    The specification is the relation [name_at]: at an offset of a message
    stand labels, possibly reached through compression pointers. *)

From S2P Require Import Prelude Go Utf8 Labels Escape Names.

(** [name_at msg off ls e n]: the labels [ls] are encoded at [off], the
    encoding in place ends before [e], and [n] pointers are followed. *)
Inductive name_at (msg : bytes) : Z -> list bytes -> Z -> Z -> Prop :=
| na_end off :
    zget msg off = Some x00 ->
    name_at msg off [] (off + 1) 0
| na_label off c l ls e n :
    zget msg off = Some c -> 1 <= bval c < 64 ->
    slice msg (off + 1) (off + 1 + bval c) = Some l ->
    name_at msg (off + 1 + bval c) ls e n ->
    name_at msg off (l :: ls) e n
| na_ptr off c c1 ls e n :
    zget msg off = Some c -> 192 <= bval c ->
    zget msg (off + 1) = Some c1 ->
    name_at msg ((bval c - 192) * 256 + bval c1) ls e n ->
    name_at msg off ls (off + 2) (n + 1).

#[export] Hint Constructors name_at : dns.

(** Octets of the labels with their length bytes, without the root label. *)
Fixpoint wire_len (ls : list bytes) : Z :=
  match ls with
  | [] => 0
  | l :: ls => zlen l + 1 + wire_len ls
  end.

Lemma wire_len_nonneg ls : 0 <= wire_len ls.
Proof. induction ls as [|l ls IH]; simpl; [lia|]. zlia. Qed.

Lemma wire_len_app l1 l2 : wire_len (l1 ++ l2) = wire_len l1 + wire_len l2.
Proof. induction l1; simpl; lia. Qed.

Lemma wire_len_length ls : zlen ls <= wire_len ls.
Proof. induction ls as [|l ls IH]; simpl; autorewrite with zlen; [lia|]. zlia. Qed.

(** The canonical presentation of labels: escaped, each followed by a dot. *)
Definition show_label (l : bytes) : bytes := concat (map escape_byte l).
Definition show_labels (ls : list bytes) : bytes :=
  concat (map (fun l => show_label l ++ [ch_dot]) ls).
Definition show_name (ls : list bytes) : bytes :=
  match ls with [] => [ch_dot] | _ => show_labels ls end.

Lemma show_labels_app l1 l2 : show_labels (l1 ++ l2) = show_labels l1 ++ show_labels l2.
Proof. unfold show_labels. by rewrite map_app, concat_app. Qed.

Lemma show_labels_nil ls : show_labels ls = [] -> ls = [].
Proof. destruct ls as [|l ls]; [done|]. unfold show_labels. simpl. by destruct (show_label l). Qed.

Lemma escape_label_show {E} s l : @escape_label E s l = Ok (s ++ show_label l).
Proof.
  unfold escape_label, show_label. revert s.
  induction l as [|b l IH]; intros s; simpl; [by rewrite app_nil_r|].
  unfold escape_byte at 1.
  destruct (isDomainNameLabelSpecial b); simpl; [rewrite IH; by rewrite <- app_assoc|].
  destruct (unprintable b) eqn:Eu; simpl.
  - rewrite escapeByte_ddd by done. simpl. rewrite IH. by rewrite <- app_assoc.
  - rewrite IH. by rewrite <- app_assoc.
Qed.

(** [c & 0xC0] classifies a length byte; computed over the 256 values. *)
Lemma class_spec c :
  (Z.land (bval c) 192 = 0 /\ bval c < 64) \/
  (Z.land (bval c) 192 = 192 /\ 192 <= bval c) \/
  (Z.land (bval c) 192 <> 0 /\ Z.land (bval c) 192 <> 192).
Proof. destruct c; vm_compute; intuition congruence. Qed.

Lemma pointer_value c c1 :
  192 <= bval c ->
  Z.lor (Z.shiftl (Z.lxor (bval c) 192) 8) (bval c1) = (bval c - 192) * 256 + bval c1.
Proof.
  intros Hc.
  assert (Z.lxor (bval c) 192 = bval c - 192) as ->
    by (destruct c; vm_compute in Hc |- *; congruence).
  rewrite Z.shiftl_mul_pow2 by lia. apply (lor_small_shiftl _ _ 8); [lia|apply bval_range].
Qed.

Lemma slice_exists {A} (l : list A) i j : 0 <= i -> i <= j -> j <= zlen l ->
  exists m, slice l i j = Some m /\ zlen m = j - i.
Proof.
  intros. rewrite slice_Some by done. eexists. split; [done|].
  rewrite zlen_ztake; [lia|]. rewrite zlen_zdrop; lia.
Qed.

(** ** What one run of the loop establishes *)

Section Unpack.
Context (msg : bytes) (off0 : Z) (Hoff0 : 0 <= off0).

(** The labels read so far, and what is left to read. *)
Record unpack_inv (st : unpack_state) : Prop := {
  ui_off : 0 <= us_off st;
  ui_budget : 0 < us_budget st <= 255;
  ui_ptr : 0 <= us_ptr st <= maxCompressionPointers;
  ui_read : exists ls0,
    us_s st = show_labels ls0 /\ us_budget st = 255 - wire_len ls0 /\
    forall ls e n, name_at msg (us_off st) ls e n ->
      name_at msg off0 (ls0 ++ ls) (if us_ptr st =? 0 then e else us_off1 st) (us_ptr st + n);
}.

Definition unpack_measure (st : unpack_state) : nat :=
  Z.to_nat (us_budget st + (maxCompressionPointers - us_ptr st)).

(** A returned name is the one encoded at [off0]. *)
Definition unpack_post (st : unpack_state) : Prop :=
  exists ls e n,
    name_at msg off0 ls e n /\ us_s st = show_labels ls /\
    wire_len ls < 255 /\ n <= maxCompressionPointers /\
    e = (if us_ptr st =? 0 then us_off st else us_off1 st).

Definition unpack_error (e : Z * error) : Prop := e.1 = zlen msg.

Lemma unpack_step_ensures st :
  unpack_inv st ->
  ensures (unpack_step msg st)
    (fun r => match r with
              | inl st' => unpack_inv st' /\ (unpack_measure st' < unpack_measure st)%nat
              | inr st' => unpack_post st' end) unpack_error.
Proof.
  intros [Ho Hb Hp (ls0 & Hs & Hbud & Hread)]. unfold unpack_step.
  destruct (Z.leb_spec (zlen msg) (us_off st)); [done|].
  destruct (zget_Some msg (us_off st)) as [c Hc]; [lia|]. rewrite Hc. gosimp.
  pose proof (bval_range c) as Hcr.
  destruct (class_spec c) as [[-> Hlt]|[[-> Hge]|[H0 H1]]]; simpl.
  - destruct (Z.eqb_spec (bval c) 0) as [Hz|Hz].
    { assert (c = x00) as -> by (apply (inj bval); done).
      exists ls0, (if us_ptr st =? 0 then us_off st + 1 else us_off1 st), (us_ptr st).
      cbn. split_and!; [|done|lia|lia|done].
      pose proof (Hread _ _ _ (na_end _ _ Hc)) as H'.
      by rewrite app_nil_r, Z.add_0_r in H'. }
    destruct (Z.ltb_spec (zlen msg) (us_off st + 1 + bval c)); [done|].
    destruct (Z.leb_spec (us_budget st - (bval c + 1)) 0); [done|].
    destruct (slice_exists msg (us_off st + 1) (us_off st + 1 + bval c)) as (l & Hl & Hlen);
      [lia..|].
    rewrite Hl. gosimp. rewrite escape_label_show. gosimp. simpl. split.
    2: { unfold unpack_measure. cbn. lia. }
    split; cbn; [lia|lia|done|].
    exists (ls0 ++ [l]). rewrite show_labels_app, wire_len_app, Hs, Hbud. split_and!.
    + unfold show_labels at 3. simpl. by rewrite app_nil_r, app_assoc.
    + simpl. lia.
    + intros ls e n Hn. rewrite <- app_assoc. apply Hread. econstructor; [done|lia|done|done].
  - destruct (Z.leb_spec (zlen msg) (us_off st + 1)); [done|].
    destruct (zget_Some msg (us_off st + 1)) as [c1 Hc1]; [lia|]. rewrite Hc1. gosimp.
    destruct (Z.ltb_spec maxCompressionPointers (us_ptr st + 1)); [done|].
    rewrite pointer_value by done. pose proof (bval_range c1). simpl. split.
    2: { unfold unpack_measure. cbn. lia. }
    split; cbn; [lia|lia|lia|].
    exists ls0. split_and!; [done|done|].
    intros ls e n Hn. decide_ifs.
    pose proof (na_ptr _ _ _ _ _ _ _ Hc Hge Hc1 Hn) as Hn'. apply Hread in Hn'.
    replace (us_ptr st + 1 + n) with (us_ptr st + (n + 1)) by lia.
    replace (us_off st + 1 + 1) with (us_off st + 2) by lia.
    by destruct (us_ptr st =? 0).
  - destruct (Z.eqb_spec (Z.land (bval c) 192) 0); [done|].
    by destruct (Z.eqb_spec (Z.land (bval c) 192) 192).
Qed.

Lemma unpack_loop_ensures :
  ensures (loop unpack_fuel (unpack_step msg)
             {| us_s := []; us_off := off0; us_off1 := 0;
                us_budget := maxDomainNameWireOctets; us_ptr := 0 |})
    unpack_post unpack_error.
Proof.
  eapply (loop_ensures unpack_inv unpack_measure).
  - apply unpack_step_ensures.
  - split; cbn; [lia|unfold maxDomainNameWireOctets; lia|by vm_compute|].
    exists []. split_and!; [done|done|]. intros ls e n Hn. by rewrite Z.add_0_l.
  - vm_compute. lia.
Qed.
End Unpack.

Lemma name_at_ptrs msg off ls e n : name_at msg off ls e n -> 0 <= n.
Proof. induction 1; lia. Qed.

(** The decoder is complete: a name that is there is read. *)
Lemma unpack_loop_complete msg off ls e n :
  name_at msg off ls e n ->
  forall fuel st,
    us_off st = off -> 0 <= off -> 0 <= us_ptr st -> us_ptr st + n <= maxCompressionPointers ->
    wire_len ls < us_budget st -> zlen ls + n < Z.of_nat fuel ->
    exists st',
      loop fuel (unpack_step msg) st = Ok st' /\
      us_s st' = us_s st ++ show_labels ls /\
      (if us_ptr st' =? 0 then us_off st' else us_off1 st') =
      (if us_ptr st =? 0 then e else us_off1 st).
Proof.
  induction 1 as [off Hz|off c l ls e n Hc Hr Hl Hn IH|off c c1 ls e n Hc Hge Hc1 Hn IH];
    intros fuel st Hoff Ho Hp Hpn Hw Hf; try (apply name_at_ptrs in Hn as Hn0);
    (destruct fuel as [|fuel]; [zlia|]);
    cbn [loop]; unfold unpack_step; rewrite Hoff.
  - apply zget_range in Hz as Hb. decide_ifs. rewrite Hz. gosimp. simpl.
    eexists. split; [done|]. cbn. split; [by rewrite app_nil_r|]. done.
  - apply zget_range in Hc as Hb. decide_ifs. rewrite Hc. gosimp.
    destruct (class_spec c) as [[-> Hlt]|[[-> Hge]|[Hne0 Hne1]]]; [|lia|].
    2: { exfalso. clear - Hne0 Hr. destruct c; vm_compute in Hne0, Hr; intuition congruence. }
    simpl. apply slice_inv in Hl as Hsl. destruct Hsl as (Hs1 & Hs2 & Hs3 & _).
    simpl in Hw. pose proof (wire_len_nonneg ls).
    decide_ifs. rewrite Hl. gosimp. rewrite escape_label_show. gosimp.
    edestruct IH as (st' & Hst & Hs & He); [..|exists st'; split; [exact Hst|split]]; cbn;
      [done|lia|done|lia|lia|zlia|rewrite Hs; cbn|exact He].
    unfold show_labels. simpl. by rewrite <- !app_assoc.
  - apply zget_range in Hc as Hb. apply zget_range in Hc1 as Hb1.
    decide_ifs. rewrite Hc. gosimp. pose proof (bval_range c). pose proof (bval_range c1).
    destruct (class_spec c) as [[-> Hlt]|[[-> _]|[Hne0 Hne1]]]; [lia| |].
    2: { exfalso. clear - Hne1 Hge. destruct c; vm_compute in Hne1, Hge; intuition congruence. }
    simpl. decide_ifs. rewrite Hc1. gosimp. decide_ifs.
    rewrite pointer_value by done.
    edestruct IH as (st' & Hst & Hs & He); [..|exists st'; split; [exact Hst|split]]; cbn;
      [done|lia|lia|lia|done|lia|exact Hs|rewrite He; cbn].
    decide_ifs. replace (off + 1 + 1) with (off + 2) by lia. done.
Qed.

Lemma name_at_end msg off ls e n : name_at msg off ls e n -> off < e <= zlen msg.
Proof.
  induction 1 as [off Hz|off c l ls e n Hc Hr Hl Hn IH|off c c1 ls e n Hc Hge Hc1 Hn IH].
  - apply zget_range in Hz. lia.
  - lia.
  - apply zget_range in Hc1. lia.
Qed.

Lemma name_at_labels msg off ls e n :
  name_at msg off ls e n -> Forall (fun l => 1 <= zlen l < 64) ls.
Proof.
  induction 1 as [|off c l ls e n Hc Hr Hl Hn IH|]; [constructor| |done].
  constructor; [|done]. apply slice_inv in Hl. lia.
Qed.

Lemma UnpackDomainName_spec msg off :
  0 <= off ->
  ensures (UnpackDomainName msg off)
    (fun '(s, off1) => exists ls n,
       name_at msg off ls off1 n /\ wire_len ls < 255 /\ n <= maxCompressionPointers /\
       s = show_name ls)
    (fun '(o, _) => o = zlen msg).
Proof.
  intros Ho. unfold UnpackDomainName. apply ensures_bind.
  eapply ensures_mono; [by apply unpack_loop_ensures| |by intros []].
  intros st (ls & e & n & Hn & Hs & Hw & Hp & ->). rewrite Hs.
  destruct (decide (show_labels ls = [])) as [E|E]; simpl.
  - apply show_labels_nil in E as ->. by exists [], n.
  - exists ls, n. split_and!; [done..|]. by destruct ls.
Qed.

Lemma show_label_length l : zlen (show_label l) <= 4 * zlen l.
Proof.
  unfold show_label. induction l as [|b l IH]; cbn [map concat]; [zlia|].
  unfold escape_byte at 1. repeat case_match; zlia.
Qed.

Lemma show_labels_length ls :
  zlen (show_labels ls) <= 4 * wire_len ls - 3 * zlen ls.
Proof.
  induction ls as [|l ls IH]; [done|].
  change (show_labels (l :: ls)) with ((show_label l ++ [ch_dot]) ++ show_labels ls).
  pose proof (show_label_length l). simpl wire_len. zlia.
Qed.

Lemma wire_len_bound ls :
  Forall (fun l => 1 <= zlen l < 64) ls -> wire_len ls <= 64 * zlen ls.
Proof. induction 1; simpl; autorewrite with zlen; lia. Qed.

Lemma UnpackDomainName_iff msg off s off1 :
  0 <= off ->
  (UnpackDomainName msg off = Ok (s, off1) <->
   exists ls n, name_at msg off ls off1 n /\ wire_len ls < 255 /\
                n <= maxCompressionPointers /\ s = show_name ls).
Proof.
  intros Ho. split.
  - intros H. by apply (ensures_Ok_inv _ _ _ _ (UnpackDomainName_spec msg off Ho) H).
  - intros (ls & n & Hn & Hw & Hp & ->). unfold UnpackDomainName.
    pose proof (wire_len_length ls). change maxCompressionPointers with 126 in *.
    assert (zlen ls + n < Z.of_nat unpack_fuel) as Hfuel by (unfold unpack_fuel; lia).
    edestruct (unpack_loop_complete _ _ _ _ _ Hn unpack_fuel) as (st' & -> & Hs & He);
      [..|exact Hfuel|gosimp]; [done|lia|done|done|done|].
    cbn in Hs, He. rewrite He, Hs.
    case_decide as E; [apply show_labels_nil in E as ->; done|]. by destruct ls.
Qed.

(** ** Theorems *)

(** C36: for every message and every offset at or after its start,
    [UnpackDomainName] returns: it does not panic and its loop ends.  A
    returned offset lies after the start offset and within the message, an
    error comes with [len(msg)], and a returned name fits the buffer of
    [maxDomainNamePresentationLength] bytes the code allocates for it. *)
Theorem UnpackDomainName_total msg off :
  0 <= off ->
  ensures (UnpackDomainName msg off)
    (fun '(s, off1) => off < off1 <= zlen msg /\ zlen s <= maxDomainNamePresentationLength)
    (fun '(o, _) => o = zlen msg).
Proof.
  intros Ho. eapply ensures_mono; [by apply UnpackDomainName_spec| |done].
  intros [s off1] (ls & n & Hn & Hw & _ & ->).
  split; [by eapply name_at_end|].
  apply name_at_labels, wire_len_bound in Hn. pose proof (show_labels_length ls) as Hl.
  unfold maxDomainNamePresentationLength.
  assert (zlen (show_name ls) <= Z.max 1 (zlen (show_labels ls))) by (destruct ls; simpl; zlia).
  lia.
Qed.
Lemma UnpackDomainName_total_witness :
  ensures (UnpackDomainName [xc0; x00] 0)
    (fun '(s, off1) => 0 < off1 <= 2 /\ zlen s <= maxDomainNamePresentationLength)
    (fun '(o, _) => o = 2).
Proof. apply (UnpackDomainName_total [xc0; x00] 0). lia. Defined.

(** C4: [UnpackDomainName] is exactly the decoder of [name_at]: it returns a
    name and an end offset if and only if labels of at most 254 octets
    (length bytes included) stand at the offset behind at most 126 pointers,
    the name is their canonical presentation, and the end offset is the end
    of the encoding in place. *)
Theorem UnpackDomainName_correct msg off s off1 :
  0 <= off ->
  (UnpackDomainName msg off = Ok (s, off1) <->
   exists ls n, name_at msg off ls off1 n /\ wire_len ls < 255 /\
                n <= maxCompressionPointers /\ s = show_name ls).
Proof. apply UnpackDomainName_iff. Qed.

Lemma UnpackDomainName_correct_witness :
  exists ls n, name_at [x01; x61; x00; xc0; x00] 3 ls 5 n /\ wire_len ls < 255 /\
    n <= maxCompressionPointers /\ bs "a." = show_name ls.
Proof.
  exact (proj1 (UnpackDomainName_correct [x01; x61; x00; xc0; x00] 3 (bs "a.") 5 ltac:(lia))
           eq_refl).
Defined.
