(* ===== verification/NameEncode.v ===== *)
(** * [packDomainName]: safety, correctness, and soundness of compression

    The specification: a presentation-format name parses, left to right, into
    labels ([parse_from]); its wire form is [wire_name]; a compression map is
    sound for the bytes written so far when its entries point at encodings of
    their names ([cm_ok]). *)

From S2P Require Import Prelude Go Utf8 Labels Escape Names NameDecode.

(** The byte an escape stands for, and what follows it. *)
Definition read_escape (r : bytes) : option (byte * bytes) :=
  match r with
  | d1 :: r2 =>
      match r2 with
      | d2 :: (d3 :: r4) =>
          if isDDD r
          then Some (byte_of ((bval d1 - 48) * 100 + (bval d2 - 48) * 10 + (bval d3 - 48)), r4)
          else Some (d1, r2)
      | _ => Some (d1, r2)
      end
  | [] => None
  end.

(** The labels of the rest [r] of a name, [cur] being read. *)
Fixpoint parse_from (cur r : bytes) : option (list bytes) :=
  match r with
  | [] => if decide (cur = []) then Some [] else None
  | c :: r1 =>
      if c =b ch_bslash then
        match r1 with
        | [] => None
        | d1 :: r2 =>
            match r2 with
            | d2 :: (d3 :: r4) =>
                if isDDD r1
                then parse_from (cur ++ [byte_of ((bval d1 - 48) * 100 + (bval d2 - 48) * 10
                                                  + (bval d3 - 48))]) r4
                else parse_from (cur ++ [d1]) r2
            | _ => parse_from (cur ++ [d1]) r2
            end
        end
      else if c =b ch_dot then
        if decide (cur = []) then None else cons cur <$> parse_from [] r1
      else parse_from (cur ++ [c]) r1
  end.

(** A fully qualified name: the root, or nonempty labels each ended by a dot. *)
Definition parse_name (s : bytes) : option (list bytes) :=
  if decide (s = [ch_dot]) then Some [] else
  if decide (s = []) then None else parse_from [] s.

Definition wire_labels (ls : list bytes) : bytes :=
  concat (map (fun l => byte_of (zlen l) :: l) ls).
Definition wire_name (ls : list bytes) : bytes := wire_labels ls ++ [x00].

(** The entries of a compression map are sound for the bytes [pre] already
    written: each points, by a 14-bit offset, at an encoding of its name that
    follows fewer pointers than the name has labels. *)
Definition cm_ok (pre : bytes) (cm : compressionMap) : Prop :=
  forall k p, find cm k = Some p ->
    0 <= p < maxCompressionOffset /\
    forall ls, parse_from [] k = Some ls ->
      ls <> [] /\ exists e n, name_at pre p ls e n /\ n < zlen ls.

(** ** Lemmas on the specification *)

Lemma parse_escape cur r :
  parse_from cur (ch_bslash :: r) =
  match read_escape r with
  | Some (b, r') => parse_from (cur ++ [b]) r'
  | None => None
  end.
Proof. cbn [parse_from]. rewrite beq_refl. destruct r as [|d1 [|d2 [|d3 r]]]; cbn; try done.
  by destruct (isDigit d1 && isDigit d2 && isDigit d3). Qed.

Lemma read_escape_inv r b r' :
  read_escape r = Some (b, r') ->
  (isDDD r = true /\ exists d1 d2 d3, r = [d1; d2; d3] ++ r' /\
     dddToByte r = Ok b) \/
  (isDDD r = false /\ r = b :: r').
Proof.
  destruct r as [|d1 [|d2 [|d3 r]]]; cbn [read_escape]; try (intros [= <- <-]; right; done).
  destruct (isDDD (d1 :: d2 :: d3 :: r)) eqn:E; intros [= <- <-]; [left|by right].
  split; [done|]. by exists d1, d2, d3.
Qed.

Lemma wire_labels_app l1 l2 : wire_labels (l1 ++ l2) = wire_labels l1 ++ wire_labels l2.
Proof. unfold wire_labels. by rewrite map_app, concat_app. Qed.

Lemma zlen_wire_labels ls : zlen (wire_labels ls) = wire_len ls.
Proof.
  unfold wire_labels. induction ls as [|l ls IH]; [done|].
  cbn [map concat wire_len]. autorewrite with zlen. rewrite IH. lia.
Qed.

Lemma name_at_mono m x off ls e n : name_at m off ls e n -> name_at (m ++ x) off ls e n.
Proof.
  assert (forall i c, zget m i = Some c -> zget (m ++ x) i = Some c) as Hg.
  { intros i c H. rewrite zget_app_l; [done|]. apply zget_range in H. lia. }
  induction 1 as [off Hz|off c l ls e n Hc Hr Hl Hn IH|off c c1 ls e n Hc Hge Hc1 Hn IH];
    [by constructor; auto| |by eapply na_ptr; eauto].
  eapply na_label; eauto.
  apply slice_inv in Hl as Hl'. destruct Hl' as (H1 & H2 & H3 & H4).
  rewrite H4, <- !app_assoc. apply slice_mid; [rewrite zlen_ztake; lia|].
  rewrite zlen_ztake; lia.
Qed.

(** Labels written in place extend the name that follows them. *)
Lemma name_at_wire pre ls suf rest e n :
  Forall (fun l => 1 <= zlen l < 64) ls ->
  name_at (pre ++ wire_labels ls ++ suf) (zlen pre + wire_len ls) rest e n ->
  name_at (pre ++ wire_labels ls ++ suf) (zlen pre) (ls ++ rest) e n.
Proof.
  intros Hls. revert pre. induction Hls as [|l ls Hl Hls IH]; intros pre H.
  { by rewrite Z.add_0_r in H. }
  change (wire_labels (l :: ls)) with ((byte_of (zlen l) :: l) ++ wire_labels ls) in *.
  cbn [wire_len] in H.
  specialize (IH (pre ++ byte_of (zlen l) :: l)).
  rewrite <- !app_assoc in *. cbn [app] in *. rewrite zlen_app, zlen_cons in IH.
  apply (na_label _ _ (byte_of (zlen l)) l).
  - apply zget_mid.
  - rewrite byte_of_small; lia.
  - rewrite byte_of_small by lia.
    pose proof (slice_mid (pre ++ [byte_of (zlen l)]) l (wire_labels ls ++ suf)
                  (zlen pre + 1) (zlen pre + 1 + zlen l)) as Hs.
    rewrite <- !app_assoc in Hs. apply Hs; zlia.
  - rewrite byte_of_small by lia. replace (zlen pre + 1 + zlen l) with (zlen pre + (1 + zlen l)) by lia.
    apply IH. replace (zlen pre + (1 + zlen l) + wire_len ls)
      with (zlen pre + (zlen l + 1 + wire_len ls)) by lia. done.
Qed.

Lemma name_at_wire_name pre ls :
  Forall (fun l => 1 <= zlen l < 64) ls ->
  name_at (pre ++ wire_name ls) (zlen pre) ls (zlen pre + wire_len ls + 1) 0.
Proof.
  intros Hls. pose proof (name_at_wire pre ls [x00] [] (zlen pre + wire_len ls + 1) 0 Hls) as H.
  rewrite app_nil_r in H. apply H. constructor.
  rewrite app_assoc. replace (zlen pre + wire_len ls) with (zlen (pre ++ wire_labels ls))
    by (rewrite zlen_app, zlen_wire_labels; lia).
  apply zget_mid.
Qed.

(** ** The compression map *)

Lemma find_insert cm k p :
  valid cm = true -> 0 <= p < 65536 ->
  exists cm', (forall E, @insert E cm k p = Ok cm') /\ valid cm' = true /\
    forall k', find cm' k' = if decide (k' = k) then Some p else find cm k'.
Proof.
  intros Hv Hp. destruct cm as [[e|] [i|]]; try done; eexists; (split; [intros; reflexivity|]);
    (split; [done|]); intros k'; cbn; case_decide; subst;
    rewrite ?lookup_insert_eq, ?Z.mod_small by done; try done;
    by rewrite lookup_insert_ne by done.
Qed.

(** ** Byte-level lemmas *)

Lemma PutUint16_spec {E} pre a b suf v :
  @PutUint16 E (pre ++ [a; b] ++ suf) (zlen pre) v =
  Ok (pre ++ [byte_of (v / 256); byte_of v] ++ suf).
Proof.
  unfold PutUint16. rewrite (slice_mid pre [a; b] suf) by (zlia || done). gosimp.
  f_equal. by apply blit_eq.
Qed.

Lemma pointer_bytes p :
  0 <= p < maxCompressionOffset ->
  let v := Z.lxor p 0xC000 mod 65536 in
  192 <= bval (byte_of (v / 256)) /\
  (bval (byte_of (v / 256)) - 192) * 256 + bval (byte_of v) = p.
Proof.
  intros Hp v. unfold maxCompressionOffset in Hp.
  assert (v = p + 49152) as ->.
  { unfold v. change 0xC000 with (3 * 2 ^ 14). rewrite lxor_small_shiftl by lia.
    rewrite Z.mod_small; lia. }
  rewrite !bval_byte_of. Z.div_mod_to_equations. lia.
Qed.

(** A pointer written at [zlen pre]. *)
Lemma name_at_pointer pre p ls e n :
  0 <= p < maxCompressionOffset -> name_at pre p ls e n ->
  let v := Z.lxor p 0xC000 mod 65536 in
  name_at (pre ++ [byte_of (v / 256); byte_of v]) (zlen pre) ls (zlen pre + 2) (n + 1).
Proof.
  intros Hp Hn v. destruct (pointer_bytes p Hp) as [H1 H2]. fold v in H1, H2.
  eapply na_ptr; [apply zget_mid|done| |].
  - change ([?a; ?b]) with ([a] ++ [b]). rewrite app_assoc.
    replace (zlen pre + 1) with (zlen (pre ++ [byte_of (v / 256)])) by zlia. apply zget_mid.
  - rewrite H2. by apply name_at_mono.
Qed.

Lemma isDDD_app r g : last r = Some ch_dot -> isDDD (r ++ g) = isDDD r.
Proof.
  intros Hl. destruct r as [|d1 [|d2 [|d3 r]]]; cbn in *; try done; injection Hl as ->;
    destruct g as [|? [|? ?]]; try done; cbn; rewrite ?andb_false_r; done.
Qed.

(** [copy(b[i:j], b[k:])] moves the [n] bytes at [k] down to [i]. *)
Lemma copy_within_spec {E} a x r g i j k :
  i = zlen a -> k = zlen a + zlen x -> j = i + zlen r ->
  exists g', @copy_within E (a ++ x ++ r ++ g) i j k = Ok (a ++ r ++ g') /\
             zlen g' = zlen x + zlen g.
Proof.
  intros -> -> ->. unfold copy_within.
  destruct (slice_exists (a ++ x ++ r ++ g) (zlen a) (zlen a + zlen r)) as (d & Hd & Hdl);
    [zlia..|].
  rewrite Hd. gosimp.
  rewrite (app_assoc a x (r ++ g)).
  pose proof (slice_mid (a ++ x) (r ++ g) [] (zlen a + zlen x) (zlen ((a ++ x) ++ r ++ g))) as Hs.
  rewrite app_nil_r in Hs. rewrite Hs by zlia. gosimp.
  replace (ztake (zlen d) (r ++ g)) with r.
  2: { unfold ztake. replace (Z.to_nat (zlen d)) with (length r) by (unfold zlen in *; lia).
       by rewrite take_app_length. }
  destruct (split_window (x ++ r ++ g) 0 (zlen r)) as (e & mid & rest & Hsp & He & Hm);
    [zlia..|].
  assert (e = []) as -> by (destruct e; [done|zlia]). cbn [app] in Hsp.
  exists rest. split.
  - f_equal. rewrite <- app_assoc, Hsp. by apply blit_eq.
  - apply (f_equal zlen) in Hsp. zlia.
Qed.

(** Overwriting the start of what is left of the buffer. *)
Lemma blit_tail (pre msg : bytes) off src :
  zlen pre = off -> off + zlen src <= zlen msg ->
  blit (pre ++ zdrop off msg) off src = pre ++ src ++ zdrop (off + zlen src) msg.
Proof.
  intros <- Hle. pose proof (zlen_nonneg pre).
  destruct (split_window (zdrop (zlen pre) msg) 0 (zlen src))
    as (a & mid & rest & Hsp & Ha & Hm); [lia|zlia|rewrite zlen_zdrop; zlia|].
  destruct a; [cbn in Hsp|zlia].
  rewrite Hsp, blit_eq by done. do 2 f_equal.
  transitivity (zdrop (zlen mid) (mid ++ rest)).
  - unfold zdrop, zlen. by rewrite Nat2Z.id, drop_app_length.
  - rewrite <- Hsp, <- Hm. unfold zdrop. rewrite drop_drop. f_equal. zlia.
Qed.

Lemma PutUint16_tail {E} pre msg off v :
  zlen pre = off -> off + 2 <= zlen msg ->
  @PutUint16 E (pre ++ zdrop off msg) off v =
  Ok (pre ++ [byte_of (v / 256); byte_of v] ++ zdrop (off + 2) msg).
Proof.
  intros <- Hle. unfold PutUint16. pose proof (zlen_nonneg pre).
  destruct (slice_exists (pre ++ zdrop (zlen pre) msg) (zlen pre) (zlen pre + 2))
    as (m & -> & _); [lia|lia|rewrite zlen_app, zlen_zdrop; lia|].
  gosimp. f_equal. by rewrite blit_tail.
Qed.

(** ** The loop invariant *)

Section Pack.
Context (s msg : bytes) (off0 : Z) (cm0 : compressionMap) (compress : bool).
Context (Hs : s <> [ch_dot]) (Hoff : 0 <= off0 <= zlen msg).

(** The ghost view of a state: the raw characters read and left, the
    unescaped bytes, the labels written and the label being read (unescaped and
    raw), and the names looked up in the compression map with their offsets. *)
Record ghost := {
  g_rawd : bytes; g_r : bytes; g_junk : bytes; g_dpre : bytes; g_cur : bytes;
  g_done : list bytes; g_rawb : bytes; g_rs : bytes; g_rawc : bytes; g_keys : list (bytes * Z) }.

(** The map after looking up [keys]: those at offsets a pointer can hold are in
    it; with compression none of them was there before. *)
Definition mapped (cm : compressionMap) (keys : list (bytes * Z)) : Prop :=
  (forall k, is_Some (find cm k) <->
     is_Some (find cm0 k) \/ exists o, (k, o) ∈ keys /\ o < maxCompressionOffset) /\
  (compress = true -> Forall (fun ko => find cm0 ko.1 = None) keys).

(** An entry added by this call: it stands at the start of a label already
    written, and its name is that label, what follows it, and the rest. *)
Definition pending (g : ghost) (k : bytes) (p : Z) : Prop :=
  exists d1 d2, g_done g = d1 ++ d2 /\ d2 <> [] /\ p = off0 + wire_len d1 /\
    p < maxCompressionOffset /\
    parse_from [] k = app d2 <$> parse_from (g_cur g) (g_r g).

Record pack_inv (st : pack_state) (g : ghost) : Prop := {
  pi_raw : s = g_rawd g ++ g_r g;
  pi_view : default s (ps_bs st) = (g_dpre g ++ g_cur g) ++ g_r g ++ g_junk g;
  pi_i : ps_i st = zlen (g_dpre g ++ g_cur g);
  pi_ls : ps_ls st = ps_i st + zlen (g_r g);
  pi_compOff : ps_compOff st = zlen (g_rawd g) - ps_i st;
  pi_begin : ps_begin st = zlen (g_dpre g);
  pi_comp : s = g_rawb g ++ g_rs g /\ ps_compBegin st = zlen (g_rawb g) /\
            parse_from [] (g_rs g) = parse_from (g_cur g) (g_r g);
  pi_wasDot : ps_wasDot st = bool_decide (g_cur g = [] /\ g_dpre g <> []);
  pi_parse : parse_from [] s = app (g_done g) <$> parse_from (g_cur g) (g_r g);
  pi_tail : g_r g = [] \/ last (g_r g) = Some ch_dot;
  pi_done : Forall (fun l => 1 <= zlen l < 64) (g_done g);
  pi_dpre : zlen (g_dpre g) = wire_len (g_done g);
  pi_off : ps_off st = off0 + wire_len (g_done g) /\ ps_off st <= zlen msg;
  pi_msg : ps_msg st = ztake off0 msg ++ wire_labels (g_done g) ++ zdrop (ps_off st) msg;
  pi_valid : valid (ps_cm st) = valid cm0;
  pi_cm : forall k p, find (ps_cm st) k = Some p -> find cm0 k = Some p \/ pending g k p;
  pi_rawc : g_rs g = g_rawc g ++ g_r g /\ undotted false (g_rawc g) = true;
  pi_short : wire_len (g_done g) <= zlen (g_rawb g) /\ zlen (g_cur g) <= zlen (g_rawc g) /\
             (g_cur g = [] -> g_rawc g = []);
  pi_keys : suffixes s = map fst (g_keys g) ++ suffixes (g_rs g) /\
            length (g_keys g) = length (g_done g);
  pi_koff : Forall (fun ko => off0 <= ko.2 <= off0 + (zlen s - zlen ko.1) /\ ko.2 < ps_off st /\
                              zlen (g_rs g) < zlen ko.1) (g_keys g);
  pi_map : valid cm0 = true -> mapped (ps_cm st) (g_keys g) }.

Definition inv (st : pack_state) : Prop := exists g, pack_inv st g.
Definition pack_measure (st : pack_state) : nat := Z.to_nat (ps_ls st - ps_i st).

(** Errors carry [len(msg)], and only come when the name does not parse, a
    label is too long, or the uncompressed name does not fit. *)
Definition pack_error (e : Z * error) : Prop :=
  e.1 = zlen msg /\
  forall ls, parse_from [] s = Some ls -> Forall (fun l => zlen l < 64) ls ->
    zlen msg < off0 + wire_len ls + 1.

(** The loop ends with everything read, or at a label whose name is in the map. *)
Definition loop_post (r : pack_state * option Z) : Prop :=
  exists g, pack_inv r.1 g /\
    match r.2 with
    | None => g_r g = []
    | Some p => compress = true /\ g_cur g <> [] /\ (exists r1, g_r g = ch_dot :: r1) /\
                find (ps_cm r.1) (g_rs g) = Some p /\ ps_off r.1 + 2 <= zlen msg
    end.

Lemma zlen_msg st g : pack_inv st g -> zlen (ps_msg st) = zlen msg.
Proof.
  intros H. pose proof (pi_off _ _ H). pose proof (wire_len_nonneg (g_done g)).
  rewrite (pi_msg _ _ H), !zlen_app, zlen_wire_labels, zlen_ztake, zlen_zdrop by lia. lia.
Qed.

(** The rest of the name still needs room for its labels. *)
Lemma no_room st g n :
  pack_inv st g -> zlen msg < ps_off st + n + 1 ->
  (forall rest, parse_from (g_cur g) (g_r g) = Some rest -> n <= wire_len rest) ->
  pack_error (zlen msg, ErrBuf).
Proof.
  intros H Hn Hrest. split; [done|]. intros ls Hp _.
  rewrite (pi_parse _ _ H) in Hp. apply fmap_Some in Hp as (rest & Hr & ->).
  rewrite wire_len_app. apply Hrest in Hr. pose proof (pi_off _ _ H). lia.
Qed.

Lemma bad_name st g e :
  pack_inv st g -> parse_from (g_cur g) (g_r g) = None -> pack_error (zlen msg, e).
Proof.
  intros H Hp. split; [done|]. intros ls Hls. rewrite (pi_parse _ _ H), Hp in Hls. done.
Qed.

(** Reading one more unescaped byte [b]. *)
Lemma undotted_ddd d1 d2 d3 r : isDDD ([d1; d2; d3] ++ r) = true -> undotted false [ch_bslash; d1; d2; d3] = true.
Proof.
  cbn. intros [[H1 H2]%andb_prop H3]%andb_prop.
  assert (forall d, isDigit d = true -> (d =b ch_dot) = false /\ (d =b ch_bslash) = false) as Hd.
  { intros d Hd. split; apply beq_ne; by intros ->. }
  destruct (Hd _ H1), (Hd _ H2) as [-> E2], (Hd _ H3) as [-> E3]. unfold esc_step. by rewrite E2, E3.
Qed.

Lemma inv_read st g st' r' junk' b raw :
  pack_inv st g ->
  g_r g = raw ++ r' ->
  parse_from (g_cur g) (g_r g) = parse_from (g_cur g ++ [b]) r' ->
  undotted false raw = true -> 1 <= zlen raw ->
  default s (ps_bs st') = (g_dpre g ++ g_cur g ++ [b]) ++ r' ++ junk' ->
  (r' = [] \/ last r' = Some ch_dot) ->
  ps_i st' = ps_i st + 1 -> ps_ls st' = ps_ls st - zlen raw + 1 ->
  ps_compOff st' = ps_compOff st + zlen raw - 1 ->
  ps_begin st' = ps_begin st -> ps_compBegin st' = ps_compBegin st ->
  ps_wasDot st' = false -> ps_off st' = ps_off st -> ps_msg st' = ps_msg st ->
  ps_cm st' = ps_cm st ->
  inv st' /\ (0 < zlen raw -> (pack_measure st' < pack_measure st)%nat).
Proof.
  intros H Hr Hp Hun H1raw Hv Ht Hi Hls Hco Hb Hcb Hwd Ho Hm Hcm. split.
  2: { intros. pose proof (pi_ls _ _ H). unfold pack_measure. rewrite Hi, Hls.
       rewrite Hr in *. zlia. }
  exists {| g_rawd := g_rawd g ++ raw; g_r := r'; g_junk := junk'; g_dpre := g_dpre g;
            g_cur := g_cur g ++ [b]; g_done := g_done g; g_rawb := g_rawb g; g_rs := g_rs g;
            g_rawc := g_rawc g ++ raw; g_keys := g_keys g |}.
  destruct H as [H1 H2 H3 H4 H5 H6 (H7a & H7b & H7c) H8 H9 H10 H11 Hdp H12 H13 H14 H15 H16 H17 H18 H19 H20].
  split; cbn [g_rawd g_r g_junk g_dpre g_cur g_done g_rawb g_rs g_rawc g_keys].
  - rewrite <- app_assoc, <- Hr. done.
  - by rewrite Hv.
  - rewrite Hi, H3. zlia.
  - rewrite Hls, Hi, H4, Hr. zlia.
  - rewrite Hco, Hi, H5. zlia.
  - congruence.
  - split_and!; [done|congruence|]. by rewrite H7c, Hp.
  - rewrite Hwd. symmetry. apply bool_decide_false. intros [? _]. by destruct (g_cur g).
  - by rewrite H9, Hp.
  - done.
  - done.
  - done.
  - by rewrite Ho.
  - by rewrite Hm, Ho, H13.
  - by rewrite Hcm.
  - intros k p Hk. rewrite Hcm in Hk. apply H15 in Hk as [?|(d1 & d2 & ? & ? & ? & ? & Hk)];
      [by left|right]. exists d1, d2. split_and!; try done. cbn. by rewrite Hk, Hp.
  - destruct H16 as [-> Hu]. rewrite Hr, <- app_assoc. split; [done|by apply undotted_app].
  - destruct H17 as (? & ? & _). split; [done|]. split; [zlia|]. intros E. by destruct (g_cur g).
  - done.
  - by rewrite Ho.
  - by rewrite Hcm.
Qed.

Lemma pack_escape_ensures st g r1 :
  pack_inv st g -> g_r g = ch_bslash :: r1 ->
  ensures (pack_escape s st)
    (fun st' => inv st' /\ (pack_measure st' < pack_measure st)%nat) pack_error.
Proof.
  intros H Hr. unfold pack_escape. pose proof (zlen_msg _ _ H) as Hml. rewrite Hml.
  destruct (Z.ltb_spec (zlen msg) (ps_off st + 1)).
  { apply (no_room st g 0 H); [lia|]. intros; apply wire_len_nonneg. }
  pose proof (pi_i _ _ H) as Hi. pose proof (pi_view _ _ H) as Hv. rewrite Hr in Hv.
  set (dn := g_dpre g ++ g_cur g) in *. rewrite Hv.
  assert (last r1 = Some ch_dot) as Hlast.
  { destruct (pi_tail _ _ H) as [E|E]; rewrite Hr in E; [done|].
    by destruct r1. }
  pose proof (slice_mid (dn ++ [ch_bslash]) (r1 ++ g_junk g) [] (ps_i st + 1)
                (zlen (dn ++ ch_bslash :: r1 ++ g_junk g))) as Hsl.
  rewrite app_nil_r, <- app_assoc in Hsl. cbn [app] in *. rewrite Hsl by zlia. gosimp.
  rewrite isDDD_app by done.
  destruct (read_escape r1) as [[b r']|] eqn:Er; [|by destruct r1 as [|? [|? [|? ?]]]; cbn in Er; try case_match].
  pose proof (parse_escape (g_cur g) r1) as Hp. rewrite Er, <- Hr in Hp.
  pose proof (pi_ls _ _ H) as Hls. rewrite Hr in Hls.
  apply read_escape_inv in Er as [(Hddd & d1 & d2 & d3 & -> & Hb)|(-> & ->)].
  - rewrite Hddd. assert (dddToByte (([d1; d2; d3] ++ r') ++ g_junk g) = Ok b) as -> by (cbn in *; done).
    gosimp.
    assert (zset (dn ++ ch_bslash :: ([d1; d2; d3] ++ r') ++ g_junk g) (ps_i st) b =
            (dn ++ [b]) ++ [d1; d2; d3] ++ r' ++ g_junk g) as ->.
    { unfold zset. rewrite Hi. unfold zlen. rewrite Nat2Z.id.
      rewrite insert_app_r_alt by lia. rewrite Nat.sub_diag. cbn. by rewrite <- app_assoc. }
    destruct (copy_within_spec (E := Z * error) (dn ++ [b]) [d1; d2; d3] r' (g_junk g)
                (ps_i st + 1) (ps_ls st - 3) (ps_i st + 4)) as (g' & Hcp & _);
      [zlia..|].
    rewrite Hcp. gosimp.
    edestruct (inv_read st g) with (r' := r') (b := b) (junk' := g') (raw := [ch_bslash; d1; d2; d3]);
      [done|done|done|..| |split; [eassumption|]]; cbn -[undotted]; try done; try zlia.
    all: unfold dn; first [by rewrite <- !app_assoc|by apply undotted_ddd with r'|by destruct r'; [left|right]].
  - destruct (copy_within_spec (E := Z * error) dn [ch_bslash] (b :: r') (g_junk g)
                (ps_i st) (ps_ls st - 1) (ps_i st + 1)) as (g' & Hcp & _); [zlia..|].
    cbn [app] in Hcp |- *. rewrite Hcp. gosimp.
    edestruct (inv_read st g) with (r' := r') (b := b) (junk' := g') (raw := [ch_bslash; b]);
      [done|done|done|..| |split; [eassumption|]]; cbn; try done; try zlia.
    all: unfold dn; first [by rewrite <- !app_assoc|by destruct r'; [left|right]].
Qed.

(** The root test of a label that is not empty. *)
Lemma isRootLabel_false {E} st g :
  pack_inv st g -> g_cur g <> [] -> g_r g <> [] ->
  @isRootLabel E s (ps_bs st) (ps_begin st) (ps_ls st) = Ok false.
Proof.
  intros H Hc Hr. pose proof (pi_i _ _ H) as Hi. pose proof (pi_ls _ _ H) as Hls.
  pose proof (pi_begin _ _ H) as Hb. pose proof (pi_view _ _ H) as Hv.
  destruct (g_cur g) as [|c cur] eqn:Ec; [done|]. destruct (g_r g) as [|x r] eqn:Er; [done|].
  unfold isRootLabel. destruct (ps_bs st) as [b|]; cbn [default] in Hv.
  - decide_ifs. done.
  - rewrite Hv at 1. rewrite <- app_assoc.
    pose proof (slice_mid (g_dpre g) ((c :: cur) ++ x :: r) (g_junk g)
                  (ps_begin st) (ps_ls st)) as Hsl.
    rewrite <- app_assoc in Hsl. rewrite Hsl by zlia. gosimp. f_equal.
    apply bool_decide_false. by destruct cur.
Qed.

(** The map after the lookup of the name that starts at the current label. *)
Lemma pack_lookup st g r1 :
  pack_inv st g -> g_cur g <> [] -> g_r g = ch_dot :: r1 ->
  exists cm', valid cm' = valid cm0 /\
    (forall k p, find cm' k = Some p ->
       find (ps_cm st) k = Some p \/
       (k = g_rs g /\ p = ps_off st /\ p < maxCompressionOffset)) /\
    (valid cm0 = true -> forall k, is_Some (find cm' k) <->
       is_Some (find (ps_cm st) k) \/ (k = g_rs g /\ ps_off st < maxCompressionOffset)) /\
    (if valid (ps_cm st) && negb false then
       key ← index (from s (ps_compBegin st));
       match find (ps_cm st) key with
       | Some p => if compress then Ok (inr p) else Ok (inl (ps_cm st))
       | None =>
           if ps_off st <? maxCompressionOffset
           then cm ← insert (ps_cm st) key (ps_off st); Ok (inl cm)
           else Ok (inl (ps_cm st))
       end
     else Ok (inl (ps_cm st)) : wire (compressionMap + Z)) =
    match find (ps_cm st) (g_rs g) with
    | Some p => if valid (ps_cm st) && compress then Ok (inr p) else Ok (inl cm')
    | None => Ok (inl cm')
    end.
Proof.
  intros H Hc Hr. destruct (pi_comp _ _ H) as (Hs1 & Hcb & _).
  pose proof (pi_valid _ _ H) as Hv.
  pose proof (pi_off _ _ H) as [Hoff1 _]. pose proof (wire_len_nonneg (g_done g)).
  assert (from s (ps_compBegin st) = Some (g_rs g)) as Hfrom.
  { unfold from. rewrite Hs1. pose proof (slice_mid (g_rawb g) (g_rs g) []) as Hsl.
    rewrite app_nil_r in Hsl. apply Hsl; zlia. }
  rewrite Hfrom. gosimp. rewrite andb_true_r.
  destruct (valid (ps_cm st)) eqn:Ev; cbn [andb].
  2: { exists (ps_cm st). split_and!; [congruence|by left|congruence|]. by destruct (find _ _). }
  destruct (find (ps_cm st) (g_rs g)) as [p|] eqn:Ef.
  { exists (ps_cm st). split_and!; [congruence|by left| |by destruct compress].
    intros _ k. split; [by left|]. intros [?|[-> _]]; [done|by eexists]. }
  destruct (Z.ltb_spec (ps_off st) maxCompressionOffset) as [Hlt|Hge].
  2: { exists (ps_cm st). split_and!; [congruence|by left| |done].
       intros _ k. split; [by left|]. intros [?|[_ ?]]; [done|lia]. }
  destruct (find_insert (ps_cm st) (g_rs g) (ps_off st)) as (cm' & Hins & Hv' & Hf);
    [done|unfold maxCompressionOffset in *; lia|].
  exists cm'. split_and!; [congruence| | |by rewrite Hins].
  - intros k p Hk. rewrite Hf in Hk. case_decide as Ek; [|by left].
    injection Hk as <-. by right.
  - intros _ k. rewrite Hf. case_decide as Ek; [|naive_solver]. subst k.
    split; [by right|by eexists].
Qed.

(** A label [cur] is written and the next one begins. *)
Lemma inv_dot st g r1 cm' :
  pack_inv st g -> g_r g = ch_dot :: r1 -> g_cur g <> [] -> zlen (g_cur g) < 64 ->
  ps_off st + 1 + zlen (g_cur g) <= zlen msg ->
  valid cm' = valid cm0 ->
  (forall k p, find cm' k = Some p ->
     find (ps_cm st) k = Some p \/ (k = g_rs g /\ p = ps_off st /\ p < maxCompressionOffset)) ->
  (valid cm0 = true -> forall k, is_Some (find cm' k) <->
     is_Some (find (ps_cm st) k) \/ (k = g_rs g /\ ps_off st < maxCompressionOffset)) ->
  (valid cm0 = true -> compress = true -> find (ps_cm st) (g_rs g) = None) ->
  inv {| ps_i := ps_i st + 1; ps_ls := ps_ls st; ps_begin := ps_i st + 1;
         ps_compBegin := ps_i st + 1 + ps_compOff st; ps_compOff := ps_compOff st;
         ps_bs := ps_bs st; ps_wasDot := true;
         ps_off := ps_off st + 1 + zlen (g_cur g);
         ps_msg := blit (ps_msg st) (ps_off st) (byte_of (zlen (g_cur g)) :: g_cur g);
         ps_cm := cm' |}.
Proof.
  intros H Hr Hcur H64 Hroom Hv' Hcm' Hmap' Hmiss.
  pose proof (pi_i _ _ H) as Hi. pose proof (pi_off _ _ H) as [Ho _].
  pose proof (wire_len_nonneg (g_done g)) as Hw.
  assert (0 < zlen (g_cur g)) as Hpos by (destruct (g_cur g); [done|zlia]).
  assert (parse_from (g_cur g) (g_r g) = cons (g_cur g) <$> parse_from [] r1) as Hp.
  { rewrite Hr. cbn. by rewrite decide_False by done. }
  exists {| g_rawd := g_rawd g ++ [ch_dot]; g_r := r1; g_junk := g_junk g;
            g_dpre := g_dpre g ++ g_cur g ++ [ch_dot]; g_cur := [];
            g_done := g_done g ++ [g_cur g]; g_rawb := g_rawd g ++ [ch_dot]; g_rs := r1;
            g_rawc := []; g_keys := g_keys g ++ [(g_rs g, ps_off st)] |}.
  destruct H as [H1 H2 H3 H4 H5 H6 (H7a & H7b & H7c) H8 H9 H10 H11 Hdp H12 H13 H14 H15
                 (H16 & H16u) (H17 & H17c & _) (H18 & H18l) H19 H20].
  assert (g_rawd g = g_rawb g ++ g_rawc g) as Hrawd.
  { apply (app_inv_tail (g_r g)). by rewrite <- H1, <- app_assoc, <- H16. }
  rewrite Hr in H16.
  split; cbn [g_rawd g_r g_junk g_dpre g_cur g_done g_rawb g_rs g_rawc g_keys ps_i ps_ls ps_begin
              ps_compBegin ps_compOff ps_bs ps_wasDot ps_off ps_msg ps_cm].
  - rewrite <- app_assoc. cbn. by rewrite <- Hr.
  - rewrite H2, Hr, app_nil_r, <- !app_assoc. done.
  - rewrite Hi. zlia.
  - rewrite H4, Hr. zlia.
  - rewrite H5. zlia.
  - rewrite Hi. zlia.
  - split_and!; [rewrite <- app_assoc; cbn; by rewrite <- Hr|rewrite H5; zlia|done].
  - symmetry. apply bool_decide_true. split; [done|]. by destruct (g_dpre g), (g_cur g).
  - rewrite H9, Hp. destruct (parse_from [] r1); cbn; [|done]. by rewrite <- app_assoc.
  - destruct H10 as [E|E]; rewrite Hr in E; [done|]. destruct r1; [by left|by right].
  - apply Forall_app. split; [done|]. constructor; [lia|constructor].
  - rewrite wire_len_app. cbn. zlia.
  - rewrite wire_len_app. cbn. lia.
  - rewrite H13, wire_labels_app, <- !app_assoc.
    rewrite (app_assoc (ztake off0 msg)), blit_tail;
      [|rewrite zlen_app, zlen_wire_labels, zlen_ztake; lia|zlia].
    rewrite zlen_cons. replace (ps_off st + (1 + zlen (g_cur g)))
      with (ps_off st + 1 + zlen (g_cur g)) by lia.
    unfold wire_labels at 3. cbn. by rewrite app_nil_r, <- !app_assoc.
  - done.
  - intros k p Hk. apply Hcm' in Hk as [Hk|(-> & -> & Hlt)].
    + apply H15 in Hk as [?|(d1 & d2 & Hd & ? & ? & ? & Hk)]; [by left|right].
      exists d1, (d2 ++ [g_cur g]). cbn. split_and!; [by rewrite Hd, app_assoc|by destruct d2|done..|].
      rewrite Hk, Hp. destruct (parse_from [] r1); cbn; [|done]. by rewrite <- app_assoc.
    + right. exists (g_done g), [g_cur g]. cbn. split_and!; [done..|].
      by rewrite H7c, Hp.
  - done.
  - rewrite wire_len_app. cbn. rewrite Hrawd. split; [zlia|done].
  - rewrite map_app, !length_app, H18, H18l, <- app_assoc. split; [|done]. f_equal.
    rewrite H16. by apply suffixes_label.
  - apply Forall_app. split; [|constructor; [|constructor]]; cbn [fst snd].
    + eapply Forall_impl; [exact H19|]. intros [k o]. cbn. rewrite H16. zlia.
    + rewrite H7a, H16. zlia.
  - intros Hv. destruct (H20 Hv) as [H20a H20b]. split.
    + intros k. rewrite (Hmap' Hv), H20a. setoid_rewrite elem_of_app. setoid_rewrite list_elem_of_singleton.
      split; [|naive_solver]. intros [[?|(o & ? & ?)]|[-> ?]]; [by left|right; by exists o; auto|right; eauto].
    + intros Hc. apply Forall_app. split; [by apply H20b|]. constructor; [|constructor]. cbn.
      destruct (find cm0 (g_rs g)) eqn:E; [|done]. exfalso.
      destruct (proj2 (H20a (g_rs g))) as [p Hp']; [left; by eexists|]. rewrite Hmiss in Hp'; done.
Qed.

Lemma pack_dot_ensures st g r1 :
  pack_inv st g -> g_r g = ch_dot :: r1 ->
  ensures (pack_dot s compress st)
    (fun r => match r with
              | inl st' => inv st' /\ (pack_measure st' < pack_measure st)%nat
              | inr (st', p) => loop_post (st', Some p) end) pack_error.
Proof.
  intros H Hr. unfold pack_dot. rewrite (zlen_msg _ _ H).
  pose proof (pi_i _ _ H) as Hi. pose proof (pi_begin _ _ H) as Hb.
  pose proof (pi_raw _ _ H) as Hraw. rewrite Hr in Hraw.
  assert (g_cur g = [] -> parse_from (g_cur g) (g_r g) = None) as Hempty.
  { intros ->. rewrite Hr. done. }
  destruct ((ps_i st =? 0) && (1 <? zlen s)) eqn:Hlead.
  { apply (bad_name st g ErrRdata H). apply Hempty.
    apply andb_true_iff in Hlead as [E%Z.eqb_eq _]. rewrite E in Hi.
    destruct (g_cur g); [done|zlia]. }
  rewrite (pi_wasDot _ _ H). case_bool_decide as Hwd.
  { apply (bad_name st g ErrRdata H). by apply Hempty, Hwd. }
  assert (g_cur g <> []) as Hcur.
  { intros Hc. rewrite Hc, app_nil_r in Hi. destruct (g_dpre g); [|naive_solver].
    rewrite Hi in Hlead. cbn in Hlead. apply Z.ltb_ge in Hlead.
    rewrite Hraw in Hlead. destruct (g_rawd g); [|zlia].
    destruct r1; [|zlia]. by apply Hs. }
  assert (ps_i st - ps_begin st = zlen (g_cur g)) as Hlen by (rewrite Hi, Hb; zlia).
  rewrite Hlen.
  assert (forall rest, parse_from (g_cur g) (g_r g) = Some rest ->
            exists rest', rest = g_cur g :: rest') as Hrest.
  { intros rest. rewrite Hr. cbn. rewrite decide_False by done.
    intros (rest' & _ & ->)%fmap_Some. eauto. }
  destruct (Z.leb_spec 64 (zlen (g_cur g))) as [H64|H64].
  { split; [done|]. intros ls Hp Hall. rewrite (pi_parse _ _ H) in Hp.
    apply fmap_Some in Hp as (rest & Hp & ->). apply Hrest in Hp as (rest' & ->).
    apply Forall_app in Hall as [_ Hall]. inversion Hall. lia. }
  destruct (Z.ltb_spec (zlen msg) (ps_off st + 1 + zlen (g_cur g))) as [Hroom|Hroom].
  { apply (no_room st g (zlen (g_cur g)) H); [lia|].
    intros rest Hp. apply Hrest in Hp as (rest' & ->). cbn.
    pose proof (wire_len_nonneg rest'). lia. }
  rewrite (isRootLabel_false st g H) by (rewrite ?Hr; done).
  cbn [mbind res_bind].
  assert (0 < zlen (g_cur g)) as Hpos by (destruct (g_cur g); [done|zlia]).
  destruct (pack_lookup st g r1 H Hcur Hr) as (cm' & Hv' & Hcm' & Hmap' & ->).
  destruct (find (ps_cm st) (g_rs g)) as [p|] eqn:Ef;
    [destruct (valid (ps_cm st) && compress) eqn:Evc|]; cbn [mbind res_bind].
  { apply andb_true_iff in Evc as [_ Ec]. simpl. exists g. cbn [fst snd].
    split_and!; try done; [eauto|lia]. }
  all: pose proof (pi_view _ _ H) as Hview; rewrite Hview, <- !app_assoc;
    rewrite (slice_mid (g_dpre g) (g_cur g)) by (rewrite ?Hi, ?Hb; zlia); gosimp;
    (split; [|pose proof (pi_ls _ _ H) as Hls; rewrite Hr in Hls;
              unfold pack_measure; cbn; zlia]);
    apply (inv_dot st g r1 cm'); try done.
  intros Hv0 Hc. rewrite (pi_valid _ _ H), Hv0, Hc in Evc. done.
Qed.

Lemma pack_step_ensures st :
  inv st ->
  ensures (pack_step s compress st)
    (fun r => match r with
              | inl st' => inv st' /\ (pack_measure st' < pack_measure st)%nat
              | inr r => loop_post r end) pack_error.
Proof.
  intros [g H]. unfold pack_step.
  pose proof (pi_i _ _ H) as Hi. pose proof (pi_ls _ _ H) as Hls.
  pose proof (pi_view _ _ H) as Hv.
  destruct (g_r g) as [|c r1] eqn:Er.
  { rewrite Hls. decide_ifs. simpl. by exists g. }
  decide_ifs. rewrite Hv. cbn [app]. rewrite Hi, zget_mid. gosimp.
  destruct (beq_spec c ch_bslash) as [->|Hb].
  { apply ensures_bind. eapply ensures_mono; [by eapply pack_escape_ensures|done|done]. }
  destruct (beq_spec c ch_dot) as [->|Hd].
  { apply ensures_bind. eapply ensures_mono; [by eapply pack_dot_ensures| |done].
    by intros [st'|[st' p]]. }
  simpl. edestruct (inv_read st g) with (r' := r1) (b := c) (junk' := g_junk g) (raw := [c]);
    [done|done|..| |split; [eassumption|]]; cbn; try done; try zlia.
  - rewrite Er. cbn. by rewrite !beq_ne by done.
  - by rewrite !beq_ne by done.
  - rewrite Hv. by rewrite <- !app_assoc.
  - destruct (pi_tail _ _ H) as [E|E]; rewrite Er in E; [done|]. destruct r1; [by left|by right].
Qed.

Lemma pack_loop_ensures :
  (s = [] \/ last s = Some ch_dot) ->
  ensures (loop (S (length s)) (pack_step s compress) (pack_init s msg off0 cm0))
    loop_post pack_error.
Proof.
  intros Ht. eapply (loop_ensures inv pack_measure).
  - apply pack_step_ensures.
  - exists {| g_rawd := []; g_r := s; g_junk := []; g_dpre := []; g_cur := [];
              g_done := []; g_rawb := []; g_rs := s; g_rawc := []; g_keys := [] |}.
    unfold pack_init.
    split; cbn [g_rawd g_r g_junk g_dpre g_cur g_done g_rawb g_rs g_rawc g_keys ps_i ps_ls ps_begin
              ps_compBegin ps_compOff ps_bs ps_wasDot ps_off ps_msg ps_cm default app];
      try done; try zlia.
    + by rewrite app_nil_r.
    + by destruct (parse_from [] s).
    + cbn. lia.
    + cbn. unfold ztake, zdrop. by rewrite take_drop.
    + by left.
    + intros _. split; [|constructor]. intros k. split; [by left|].
      intros [?|(o & Ho & _)]; [done|by apply elem_of_nil in Ho].
  - unfold pack_measure, pack_init, zlen. cbn. lia.
Qed.

Lemma root_finish {E} st g :
  pack_inv st g ->
  exists b, @isRootLabel E s (ps_bs st) 0 (ps_ls st) = Ok b /\
    (b = true -> zlen (g_dpre g ++ g_cur g) + zlen (g_r g) = 1).
Proof.
  intros H. pose proof (pi_i _ _ H) as Hi. pose proof (pi_ls _ _ H) as Hls.
  pose proof (pi_view _ _ H) as Hv. unfold isRootLabel.
  set (dn := g_dpre g ++ g_cur g) in *.
  destruct (ps_bs st) as [b|]; simpl in Hv.
  - destruct (Z.eqb_spec (ps_ls st - 0) 1); [|eexists; split; [done|done]].
    destruct (zget_Some b 0) as [c Hc]; [rewrite Hv; zlia|]. rewrite Hc. gosimp.
    eexists. split; [done|]. intros _. lia.
  - pose proof (slice_mid [] (dn ++ g_r g) (g_junk g) 0 (ps_ls st)) as Hsl.
    cbn [app] in Hsl. rewrite <- app_assoc, <- Hv in Hsl. rewrite Hsl by zlia. gosimp.
    eexists. split; [done|]. intros Hd. apply bool_decide_eq_true in Hd.
    apply (f_equal zlen) in Hd. zlia.
Qed.

(** What a successful call wrote. *)
Definition pack_result (ls : list bytes) (msg' : bytes) (off' : Z) (cm' : compressionMap) : Prop :=
  exists w,
    msg' = ztake off0 msg ++ w ++ zdrop off' msg /\ off' = off0 + zlen w /\
    (compress = false -> w = wire_name ls) /\ zlen w <= zlen (wire_name ls) /\
    (cm_ok (ztake off0 msg) cm0 ->
     (exists n, name_at (ztake off0 msg ++ w) off0 ls off' n /\ n <= zlen ls) /\
     cm_ok (ztake off0 msg ++ w) cm').

(** Every entry of the new map is sound once the rest of the name is
    encoded after the labels written. *)
Lemma cm_ok_finish st g rest tail e n :
  pack_inv st g -> cm_ok (ztake off0 msg) cm0 ->
  parse_from (g_cur g) (g_r g) = Some rest ->
  name_at (ztake off0 msg ++ wire_labels (g_done g) ++ tail)
    (off0 + wire_len (g_done g)) rest e n ->
  n <= zlen rest ->
  cm_ok (ztake off0 msg ++ wire_labels (g_done g) ++ tail) (ps_cm st).
Proof.
  intros H Hok Hp Hn Hle k p Hk.
  apply (pi_cm _ _ H) in Hk as [Hk|(d1 & d2 & Hd & Hd2 & -> & Hlt & Hk)].
  - apply Hok in Hk as [? Hk]. split; [done|]. intros ls Hls.
    destruct (Hk ls Hls) as (? & e' & n' & Hn' & ?). split; [done|].
    exists e', n'. split; [by apply name_at_mono|done].
  - pose proof (wire_len_nonneg d1). split; [lia|]. intros ls Hls.
    rewrite Hk, Hp in Hls. injection Hls as <-.
    split; [by destruct d2|].
    pose proof (pi_done _ _ H) as Hall. rewrite Hd in Hall, Hn |- *.
    apply Forall_app in Hall as [_ Hall].
    rewrite wire_labels_app, wire_len_app, <- !app_assoc in *.
    exists e, n. split.
    + pose proof (name_at_wire (ztake off0 msg ++ wire_labels d1) d2 tail rest e n Hall) as Hw.
      rewrite zlen_app, zlen_wire_labels, zlen_ztake, <- !app_assoc in Hw by lia.
      apply Hw. by replace (off0 + wire_len d1 + wire_len d2)
        with (off0 + (wire_len d1 + wire_len d2)) by lia.
    + destruct d2; [done|zlia].
Qed.

Lemma pack_result_finish st g rest tail off' :
  pack_inv st g -> parse_from (g_cur g) (g_r g) = Some rest ->
  off' = ps_off st + zlen tail -> off' <= zlen msg ->
  (compress = false -> wire_labels (g_done g) ++ tail = wire_name (g_done g ++ rest)) ->
  zlen tail <= wire_len rest + 1 ->
  (cm_ok (ztake off0 msg) cm0 -> exists n,
   n <= zlen rest /\
   name_at (ztake off0 msg ++ wire_labels (g_done g) ++ tail)
     (off0 + wire_len (g_done g)) rest off' n) ->
  pack_result (g_done g ++ rest)
    (ztake off0 msg ++ wire_labels (g_done g) ++ tail ++ zdrop off' msg) off' (ps_cm st).
Proof.
  intros H Hp -> Hle Hc Htl Hn. pose proof (pi_off _ _ H) as [Ho _].
  exists (wire_labels (g_done g) ++ tail). split_and!.
  - by rewrite <- !app_assoc.
  - rewrite zlen_app, zlen_wire_labels. lia.
  - done.
  - unfold wire_name. rewrite !zlen_app, !zlen_wire_labels, wire_len_app.
    change (zlen [x00]) with 1. lia.
  - intros Hok. destruct (Hn Hok) as (n & Hle' & Hname). split.
    2: by eapply cm_ok_finish.
    exists n. split; [|zlia].
    pose proof (name_at_wire (ztake off0 msg) (g_done g) tail rest) as Hw.
    rewrite zlen_ztake in Hw by lia. apply Hw; [apply (pi_done _ _ H)|done].
Qed.

Lemma pack_finish_ensures r :
  loop_post r ->
  ensures (pack_finish s r)
    (fun '(msg', off', cm') =>
       zlen msg' = zlen msg /\ off0 <= off' <= zlen msg /\
       forall ls, parse_from [] s = Some ls -> pack_result ls msg' off' cm') pack_error.
Proof.
  destruct r as [st ptr]. intros (g & H & Hptr). cbn [fst snd] in *.
  unfold pack_finish. destruct (root_finish (E := Z * error) st g H) as (b & -> & Hroot).
  pose proof (zlen_msg _ _ H) as Hml. pose proof (pi_off _ _ H) as [Ho Hole].
  pose proof (wire_len_nonneg (g_done g)) as Hw.
  assert (zlen (ztake off0 msg ++ wire_labels (g_done g)) = ps_off st) as Hpre
    by (rewrite zlen_app, zlen_wire_labels, zlen_ztake; lia).
  gosimp. destruct b.
  { specialize (Hroot eq_refl). simpl. split_and!; [done|lia|lia|]. intros ls Hls. exfalso.
    rewrite (pi_parse _ _ H) in Hls. apply fmap_Some in Hls as (rest & Hp & _).
    destruct ptr as [p|].
    - destruct Hptr as (_ & Hcur & (r1 & Hr) & _). rewrite Hr in Hroot.
      destruct (g_cur g); [done|zlia].
    - rewrite Hptr in *. cbn in Hp. case_decide as Hc; [|done]. rewrite Hc in *.
      rewrite app_nil_r, (pi_dpre _ _ H) in Hroot.
      pose proof (pi_done _ _ H) as Hall. destruct Hall as [|l ls' Hl Hall]; cbn in Hroot; [done|].
      pose proof (wire_len_nonneg ls'). change (zlen (@nil byte)) with 0 in Hroot. lia. }
  destruct ptr as [p|].
  - destruct Hptr as (Hc & Hcur & Hr & Hf & Hroom).
    rewrite (pi_msg _ _ H), app_assoc, PutUint16_tail by done. gosimp. simpl.
    split_and!; [|lia|lia|].
    { rewrite zlen_app, Hpre. autorewrite with zlen. rewrite zlen_zdrop by lia. lia. }
    intros ls Hls. rewrite (pi_parse _ _ H) in Hls. apply fmap_Some in Hls as (rest & Hp & ->).
    rewrite <- app_assoc.
    destruct (pi_comp _ _ H) as (_ & _ & Hrs).
    apply (pack_result_finish st g rest [_; _] (ps_off st + 2));
      [done|done|cbn; zlia|lia|congruence| |].
    { destruct Hr as (r1 & Hr). rewrite Hr in Hp. cbn in Hp.
      rewrite decide_False in Hp by done. apply fmap_Some in Hp as (rest' & _ & ->).
      cbn [wire_len]. pose proof (wire_len_nonneg rest'). destruct (g_cur g); [done|zlia]. }
    intros Hok. destruct (pi_cm _ _ H _ _ Hf) as [Hf0|(d1 & d2 & _ & Hd2 & _ & _ & Hk)].
    + apply Hok in Hf0 as [Hlt Hf0]. destruct (Hf0 rest) as (_ & e & n & Hn & Hle); [congruence|].
      exists (n + 1). split; [lia|]. rewrite app_assoc, <- Ho, <- Hpre.
      eapply name_at_pointer; [done|]. by apply name_at_mono.
    + exfalso. rewrite Hrs, Hp in Hk. injection Hk as Hk.
      apply (f_equal length) in Hk. rewrite length_app in Hk. destruct d2; [done|simpl in Hk; lia].
  - destruct (Z.ltb_spec (ps_off st) (zlen (ps_msg st))) as [Hlt|Hge]; rewrite Hml in *.
    + rewrite (pi_msg _ _ H), app_assoc, blit_tail by (done || zlia). simpl.
      rewrite Hptr in *. split_and!; [|lia|lia|].
      { rewrite zlen_app, Hpre. autorewrite with zlen. rewrite zlen_zdrop by zlia. zlia. }
      intros ls Hls. rewrite (pi_parse _ _ H), Hptr in Hls. apply fmap_Some in Hls as (rest & Hp & ->).
      rewrite <- app_assoc.
      assert (rest = []) as -> by (cbn in Hp; case_decide; naive_solver).
      apply (pack_result_finish st g [] [x00] (ps_off st + 1));
        [done|by rewrite Hptr|cbn; zlia|lia| |done|].
      * intros _. by rewrite app_nil_r.
      * intros _. exists 0. split; [zlia|]. rewrite <- Ho. constructor.
        rewrite app_assoc, <- Hpre. apply zget_mid.
    + simpl. replace (ps_off st) with (zlen msg) by lia.
      apply (no_room st g 0 H); [lia|]. intros; apply wire_len_nonneg.
Qed.
End Pack.

(** ** [packDomainName] *)

Lemma IsFqdn_last s : IsFqdn s = true -> last s = Some ch_dot.
Proof.
  unfold IsFqdn. destruct (last s) as [c|]; [|done].
  destruct (beq_spec c ch_dot) as [->|]; done.
Qed.

Lemma cm_ok_app pre x cm : cm_ok pre cm -> cm_ok (pre ++ x) cm.
Proof.
  intros H k p Hk. destruct (H k p Hk) as [Hp Hn]. split; [done|]. intros ls Hls.
  destruct (Hn ls Hls) as (Hne & e & n & Hna & Hlt). split; [done|].
  exists e, n. split; [by apply name_at_mono|done].
Qed.

(** The root name is one zero octet. *)
Lemma pack_root msg off cm compress :
  0 <= off <= zlen msg ->
  packDomainName [ch_dot] msg off cm compress =
  if zlen msg <? off + 1 then fail (zlen msg) ErrBuf
  else Ok (ztake off msg ++ [x00] ++ zdrop (off + 1) msg, off + 1, cm).
Proof.
  intros Hoff. unfold packDomainName. change (IsFqdn [ch_dot]) with true.
  set (st' := {| ps_i := 1; ps_ls := 1; ps_begin := 1; ps_compBegin := 1; ps_compOff := 0;
                 ps_bs := None; ps_wasDot := true; ps_off := off + 1;
                 ps_msg := ztake off msg ++ [x00] ++ zdrop (off + 1) msg; ps_cm := cm |}).
  assert (pack_step [ch_dot] compress (pack_init [ch_dot] msg off cm) =
          if zlen msg <? off + 1 then fail (zlen msg) ErrBuf else Ok (inl st')) as E.
  { unfold st', pack_step, pack_dot, isRootLabel.
    cbn [pack_init ps_i ps_ls ps_begin ps_compBegin ps_compOff ps_bs ps_wasDot ps_off ps_msg
         ps_cm default].
    change (zget [ch_dot] 0) with (Some ch_dot). change (zlen [ch_dot]) with 1.
    change (slice [ch_dot] 0 1) with (Some [ch_dot]).
    change (slice [ch_dot] 0 0) with (Some (@nil byte)).
    gosimp. change (0 - 0) with 0. rewrite Z.add_0_r, bool_decide_eq_true_2 by done.
    by destruct (zlen msg <? off + 1), (valid cm). }
  cbn [negb length loop]. rewrite E. by destruct (zlen msg <? off + 1).
Qed.

Lemma pack_result_root msg off cm compress :
  0 <= off < zlen msg ->
  pack_result msg off cm compress [] (ztake off msg ++ [x00] ++ zdrop (off + 1) msg) (off + 1) cm.
Proof.
  intros Hoff. exists [x00]. split_and!; [done|zlia|done|done|]. intros Hok. split.
  - exists 0. split; [|done]. constructor.
    rewrite <- (zlen_ztake off msg) at 2 by lia. apply zget_mid.
  - by apply cm_ok_app.
Qed.

(** What [packDomainName] promises: no panic; the bytes before [off] and past
    the end are kept; a name that parses is encoded; errors are at [len(msg)]
    and have a cause. *)
Lemma packDomainName_ensures s msg off cm compress :
  0 <= off <= zlen msg ->
  ensures (packDomainName s msg off cm compress)
    (fun '(msg', off', cm') =>
       zlen msg' = zlen msg /\ off <= off' <= zlen msg /\
       forall ls, parse_name s = Some ls -> pack_result msg off cm compress ls msg' off' cm')
    (fun e => e.1 = zlen msg /\
       ((e.2 = ErrFqdn /\ IsFqdn s = false) \/
        forall ls, parse_name s = Some ls -> Forall (fun l => zlen l < 64) ls ->
          zlen msg < off + wire_len ls + 1)).
Proof.
  intros Hoff. destruct (decide (s = [ch_dot])) as [->|Hs].
  { rewrite pack_root by done. destruct (Z.ltb_spec (zlen msg) (off + 1)).
    - split; [done|]. right. intros ls [= <-] _. cbn. lia.
    - split_and!; [|lia|lia|intros ls [= <-]; apply pack_result_root; lia].
      autorewrite with zlen. rewrite zlen_ztake, zlen_zdrop by lia. lia. }
  destruct s as [|c s']; [split_and!; done || lia|].
  set (s := c :: s') in *. unfold packDomainName; fold s.
  destruct (IsFqdn s) eqn:Hf; [|split; [done|left; done]]. cbn [negb].
  assert (forall ls, parse_name s = Some ls -> parse_from [] s = Some ls) as Hpn.
  { intros ls. unfold parse_name. by rewrite !decide_False by done. }
  apply ensures_bind. eapply ensures_mono.
  - apply pack_loop_ensures; [done|done|right; by apply IsFqdn_last].
  - intros r Hr. eapply ensures_mono; [by eapply pack_finish_ensures| |].
    + intros [[msg' off'] cm'] (? & ? & H). split_and!; [done|lia|lia|]. intros ls Hls. by apply H, Hpn.
    + intros e [He H]. split; [done|]. right. intros ls Hls. by apply H, Hpn.
  - intros e [He H]. split; [done|]. right. intros ls Hls. by apply H, Hpn.
Qed.

(** ** The presentation round trip *)

Lemma parse_escape_byte cur b r : parse_from cur (escape_byte b ++ r) = parse_from (cur ++ [b]) r.
Proof.
  unfold escape_byte.
  destruct (isDomainNameLabelSpecial b) eqn:Hsp.
  - cbn [app]. rewrite parse_escape. cbn [read_escape].
    destruct r as [|d2 [|d3 r]]; [done..|]. cbn [isDDD].
    by rewrite (special_not_digit b Hsp).
  - destruct (unprintable b) eqn:Hu.
    + cbn [app]. rewrite parse_escape. destruct (ddd_roundtrip b r) as [H1 H2].
      cbn [read_escape]. rewrite H1. cbn [dddToByte] in H2. by injection H2 as ->.
    + cbn [app parse_from]. destruct (printable_plain b Hsp) as [-> ->]. done.
Qed.

Lemma parse_show_label l cur r : parse_from cur (show_label l ++ r) = parse_from (cur ++ l) r.
Proof.
  unfold show_label. revert cur. induction l as [|b l IH]; intros cur; cbn [map concat].
  { by rewrite app_nil_r. }
  by rewrite <- app_assoc, parse_escape_byte, IH, <- app_assoc.
Qed.

Lemma parse_show_labels ls :
  Forall (fun l => l <> []) ls -> parse_from [] (show_labels ls) = Some ls.
Proof.
  unfold show_labels. induction 1 as [|l ls Hl Hls IH]; [done|]. cbn [map concat].
  rewrite <- app_assoc, parse_show_label. cbn [app parse_from].
  rewrite beq_ne, beq_refl, decide_False, IH by done. done.
Qed.

Lemma parse_show_name ls :
  Forall (fun l => l <> []) ls -> parse_name (show_name ls) = Some ls.
Proof.
  intros H. destruct ls as [|l ls]; [done|]. unfold parse_name.
  change (show_name (l :: ls)) with (show_labels (l :: ls)).
  rewrite <- (parse_show_labels (l :: ls) H).
  rewrite !decide_False; [done| |].
  - intros E. by apply show_labels_nil in E.
  - intros E. pose proof (parse_show_labels (l :: ls) H) as P. by rewrite E in P.
Qed.

Lemma escape_byte_ascii b : is_ascii (escape_byte b) /\ fold_left esc_step (escape_byte b) false = false.
Proof. split; [|by destruct b]. unfold is_ascii. destruct b; repeat constructor. Qed.

Lemma show_label_ascii l : is_ascii (show_label l) /\ esc_after (show_label l) = false.
Proof.
  unfold show_label, esc_after. induction l as [|b l [IH1 IH2]]; [by split; constructor|]. cbn [map concat].
  destruct (escape_byte_ascii b) as [H1 H2]. split; [by apply is_ascii_app|].
  by rewrite fold_left_app, H2.
Qed.

Lemma show_labels_ascii ls : is_ascii (show_labels ls).
Proof.
  unfold show_labels. induction ls as [|l ls IH]; [by constructor|]. cbn [map concat].
  rewrite !is_ascii_app. split_and!; [apply show_label_ascii|repeat constructor|done].
Qed.

Lemma show_labels_esc ls : esc_after (show_labels ls) = false.
Proof.
  unfold show_labels. induction ls as [|l ls IH]; [done|]. cbn [map concat].
  destruct (show_label_ascii l) as [_ H]. unfold esc_after in *.
  by rewrite !fold_left_app, H.
Qed.

Lemma IsFqdn_show_name ls : IsFqdn (show_name ls) = true.
Proof.
  destruct ls as [|l0 ls0]; [done|].
  destruct (exists_last (l := l0 :: ls0)) as (ls & l & E); [done|].
  change (show_name (l0 :: ls0)) with (show_labels (l0 :: ls0)). rewrite E.
  apply IsFqdn_iff; [apply show_labels_ascii|].
  rewrite show_labels_app. exists (show_labels ls ++ show_label l). split.
  - rewrite <- app_assoc. unfold show_labels at 2. cbn. by rewrite app_nil_r.
  - unfold esc_after. rewrite fold_left_app. fold (esc_after (show_labels ls)).
    rewrite show_labels_esc. apply show_label_ascii.
Qed.

(** ** Without a map nothing is compressed and nothing is recorded *)

Definition unmapped (st : pack_state) : Prop := ps_cm st = nil_map.

Lemma pack_dot_unmapped s compress st :
  unmapped st -> pack_dot s compress st = pack_dot s false st.
Proof.
  intros H. unfold pack_dot. rewrite H.
  by repeat (case_match; try done).
Qed.

Lemma pack_dot_keeps s st r :
  unmapped st -> pack_dot s false st = Ok r ->
  match r with inl st' => unmapped st' | inr (st', _) => unmapped st' end.
Proof.
  intros H. unfold pack_dot. rewrite H.
  destruct ((ps_i st =? 0) && _); [done|]. destruct (ps_wasDot st); [done|].
  destruct (64 <=? _); [done|]. destruct (zlen (ps_msg st) <? _); [done|].
  destruct (isRootLabel _ _ _ _); try done. gosimp.
  cbn [valid nil_map int_ ext andb]. gosimp. destruct (slice _ _ _); gosimp; [|done].
  by intros [= <-].
Qed.

Lemma pack_step_unmapped s compress st :
  unmapped st -> pack_step s compress st = pack_step s false st.
Proof. intros H. unfold pack_step. by rewrite (pack_dot_unmapped s compress). Qed.

Lemma pack_step_keeps s st r :
  unmapped st -> pack_step s false st = Ok r ->
  match r with inl st' => unmapped st' | inr (st', _) => unmapped st' end.
Proof.
  intros H. unfold pack_step. case_match; [by intros [= <-]|].
  destruct (zget _ _) as [c|]; gosimp; [|done].
  case_match.
  { intros E. inv_bind E. injection E as <-. unfold pack_escape in Ha.
    destruct (zlen (ps_msg st) <? _); [done|]. inv_bind Ha. destruct (isDDD _).
    - inv_bind Ha. inv_bind Ha. by injection Ha as <-.
    - inv_bind Ha. by injection Ha as <-. }
  case_match; [|by intros [= <-]].
  intros E. inv_bind E. apply pack_dot_keeps in Ha; [|done].
  destruct a as [st'|[st' p]]; by injection E as <-.
Qed.

Lemma pack_nil_map s msg off compress :
  packDomainName s msg off nil_map compress = packDomainName s msg off nil_map false.
Proof.
  unfold packDomainName. destruct s as [|c s]; [done|]. case_match; [done|].
  f_equal. apply (loop_ext unmapped); [apply pack_step_unmapped| |done].
  intros st st' Hu. rewrite pack_step_unmapped by done. intros E. by apply pack_step_keeps in E.
Qed.

Lemma pack_cm_nil s msg off msg' off' cm' :
  packDomainName s msg off nil_map false = Ok (msg', off', cm') -> cm' = nil_map.
Proof.
  unfold packDomainName. destruct s as [|c s]; [by intros [= _ _ <-]|]. case_match; [done|].
  intros E. inv_bind E.
  eapply (loop_Ok_inv unmapped (fun r => unmapped r.1)) in Ha; [| | |done].
  - destruct a as [st p]. unfold pack_finish in E. cbn in Ha. inv_bind E. rewrite Ha in E.
    destruct a; [by injection E as _ _ <-|]. destruct p as [p|].
    + inv_bind E. by injection E as _ _ <-.
    + case_match; [|done]. by injection E as _ _ <-.
  - intros st st' H' E'. by apply pack_step_keeps in E'.
  - intros st [st' p] H' E'. by apply pack_step_keeps in E'.
Qed.
