(* ===== verification/NameLen.v ===== *)
(** * Lengths and validity of names, against the parser

    [escapedNameLen], [domainNameLen] without compression and [IsDomainName]
    are related to [parse_name]; the round trips of names, the soundness of
    compression, and the places where the functions disagree. *)

From S2P Require Import Prelude Go Utf8 Labels Escape Names NameDecode NameEncode.

(** The parser as a relation, for induction. *)
Inductive parses : bytes -> bytes -> list bytes -> Prop :=
| pa_end : parses [] [] []
| pa_ddd cur d1 d2 d3 b r ls :
    isDDD (d1 :: d2 :: d3 :: r) = true -> dddToByte (d1 :: d2 :: d3 :: r) = Ok b ->
    parses (cur ++ [b]) r ls -> parses cur (ch_bslash :: d1 :: d2 :: d3 :: r) ls
| pa_esc cur b r ls :
    isDDD (b :: r) = false -> parses (cur ++ [b]) r ls -> parses cur (ch_bslash :: b :: r) ls
| pa_dot cur r ls : cur <> [] -> parses [] r ls -> parses cur (ch_dot :: r) (cur :: ls)
| pa_plain cur c r ls :
    c <> ch_bslash -> c <> ch_dot -> parses (cur ++ [c]) r ls -> parses cur (c :: r) ls.

Lemma parse_from_parses cur r ls : parse_from cur r = Some ls -> parses cur r ls.
Proof.
  remember (length r) as n eqn:Hn. revert cur r ls Hn.
  induction (lt_wf n) as [n _ IH]; intros cur r ls -> H.
  destruct r as [|c r]; cbn [parse_from] in H.
  { case_decide; [|done]. injection H as <-. subst. constructor. }
  destruct (beq_spec c ch_bslash) as [->|Hb].
  { change (parse_from cur (ch_bslash :: r) = Some ls) in H. rewrite parse_escape in H.
    destruct (read_escape r) as [[b r']|] eqn:Er; [|done].
    apply read_escape_inv in Er as [(Hd & d1 & d2 & d3 & -> & Hv)|(Hd & ->)].
    - apply (pa_ddd cur d1 d2 d3 b r' ls Hd Hv). eapply IH; [|done|done]. simpl. lia.
    - apply pa_esc; [done|]. eapply IH; [|done|done]. simpl. lia. }
  destruct (beq_spec c ch_dot) as [->|Hc].
  { case_decide; [done|]. apply fmap_Some in H as (ls' & H & ->).
    constructor; [done|]. eapply IH; [|done|done]. simpl. lia. }
  apply pa_plain; [done|done|]. eapply IH; [|done|done]. simpl. lia.
Qed.

Lemma from_mid a c r : from (a ++ c :: r) (zlen a + 1) = Some r.
Proof.
  unfold from. pose proof (slice_mid (a ++ [c]) r [] (zlen a + 1) (zlen (a ++ c :: r))) as H.
  rewrite app_nil_r, <- app_assoc in H. apply H; zlia.
Qed.

Lemma zlt_mid (a : bytes) c r : (zlen a <? zlen (a ++ c :: r)) = true.
Proof. apply Z.ltb_lt. zlia. Qed.

(** The loop of [escapedNameLen] takes off the characters escapes add. *)
Lemma escapedNameLen_loop s cur r ls :
  parses cur r ls ->
  forall fuel a n, s = a ++ r -> (length r < fuel)%nat ->
  loop fuel (escapedNameLen_step s)
    (zlen a, n) = Ok (n - zlen r + wire_len ls - zlen cur).
Proof.
  induction 1 as [|cur d1 d2 d3 b r ls Hd Hv H IH|cur b r ls Hd H IH|cur r ls Hc H IH
                 |cur c r ls Hb Hd H IH];
    (intros [|fuel] a n Hs Hf; [lia|]); cbn [length] in Hf.
  { rewrite app_nil_r in Hs. subst. rewrite (loop_done _ _ _ n); [f_equal; cbn [wire_len]; zlia|].
    cbn. by rewrite Z.ltb_irrefl. }
  all: subst s; cbn [wire_len].
  - erewrite loop_next, (IH fuel (a ++ [ch_bslash; d1; d2; d3]) (n - 3));
      [f_equal; zlia|by rewrite <- app_assoc|lia|].
    unfold escapedNameLen_step. rewrite zlt_mid, zget_mid. gosimp.
    rewrite beq_refl, from_mid. cbn [negb]. gosimp. rewrite Hd. repeat f_equal. zlia.
  - erewrite loop_next, (IH fuel (a ++ [ch_bslash; b]) (n - 1));
      [f_equal; zlia|by rewrite <- app_assoc|lia|].
    unfold escapedNameLen_step. rewrite zlt_mid, zget_mid. gosimp.
    rewrite beq_refl, from_mid. cbn [negb]. gosimp. rewrite Hd. repeat f_equal. zlia.
  - erewrite loop_next, (IH fuel (a ++ [ch_dot]) n); [f_equal; zlia|by rewrite <- app_assoc|lia|].
    unfold escapedNameLen_step. rewrite zlt_mid, zget_mid. gosimp.
    cbn. repeat f_equal. zlia.
  - erewrite loop_next, (IH fuel (a ++ [c]) n); [f_equal; zlia|by rewrite <- app_assoc|lia|].
    unfold escapedNameLen_step. rewrite zlt_mid, zget_mid. gosimp.
    rewrite beq_ne by done. cbn. repeat f_equal. zlia.
Qed.

Lemma escapedNameLen_parses s ls : parses [] s ls -> escapedNameLen s = Ok (wire_len ls).
Proof.
  intros H. etransitivity.
  - apply (escapedNameLen_loop s [] s ls H (S (length s)) [] (zlen s)); [done|lia].
  - f_equal. zlia.
Qed.

(** Without a backslash every character is on the wire. *)
Lemma plain_wire_len cur r ls :
  parses cur r ls -> ch_bslash ∉ r -> wire_len ls = zlen cur + zlen r.
Proof.
  induction 1 as [| | |cur r ls Hc H IH|cur c r ls Hb Hd H IH]; intros Hn.
  - done.
  - exfalso. apply Hn. left.
  - exfalso. apply Hn. left.
  - cbn [wire_len]. rewrite IH; [zlia|]. intros ?. apply Hn. by right.
  - rewrite IH; [zlia|]. intros ?. apply Hn. by right.
Qed.

Lemma domainNameLen_parse s ls off compress :
  parse_name s = Some ls ->
  domainNameLen s off None compress = Ok (zlen (wire_name ls), None).
Proof.
  unfold parse_name, domainNameLen. intros H.
  assert (zlen (wire_name ls) = wire_len ls + 1) as ->
    by (unfold wire_name; rewrite zlen_app, zlen_wire_labels; done).
  destruct (decide (s = [ch_dot])) as [->|Hs]; [by injection H as <-|].
  destruct (decide (s = [])) as [->|Hn]; [done|].
  apply parse_from_parses in H. case_bool_decide as Hb.
  - rewrite (escapedNameLen_parses s ls H). done.
  - rewrite (plain_wire_len [] s ls H Hb). repeat f_equal.
Qed.

(** ** [IsDomainName] *)

(** The verdict at a state where [cur] has been read and [ls] is to come. *)
Definition verdict (labels off : Z) (ls : list bytes) (r : res error (Z * bool)) : Prop :=
  exists n ok, r = Ok (n, ok) /\
    (ok = true <-> Forall (fun l => zlen l < 64) ls /\ off + wire_len ls <= 256) /\
    (ok = true -> n = labels + zlen ls).

Lemma verdict_no labels off ls n :
  ~ (Forall (fun l => zlen l < 64) ls /\ off + wire_len ls <= 256) ->
  verdict labels off ls (Ok (n, false)).
Proof. intros H. exists n, false. split_and!; [done| |done]. by split. Qed.

Lemma parses_pos cur r ls : parses cur r ls -> cur <> [] -> zlen cur < wire_len ls.
Proof.
  induction 1 as [|cur d1 d2 d3 b r ls Hd Hv H IH|cur b r ls Hd H IH|cur r ls Hc H IH
                 |cur c r ls Hb Hd H IH]; intros Hn; [done|..].
  3: { cbn [wire_len]. pose proof (wire_len_nonneg ls). lia. }
  all: pose proof (IH ltac:(by destruct cur)); zlia.
Qed.

Lemma verdict_label labels off cur ls r :
  zlen cur < 64 ->
  verdict (labels + 1) (off + (1 + zlen cur)) ls r -> verdict labels off (cur :: ls) r.
Proof.
  intros Hc (n & ok & -> & Hok & Hn). exists n, ok. split_and!; [done| |].
  - rewrite Hok, Forall_cons. cbn [wire_len]. intuition lia.
  - intros E. rewrite Hn by done. zlia.
Qed.

Lemma isname_loop s cur r ls :
  parses cur r ls -> (1 < zlen s \/ cur <> []) ->
  forall fuel a st, s = a ++ r -> (length r < fuel)%nat ->
  is_i st = zlen a -> is_i st - is_begin st = zlen cur -> 0 <= is_begin st ->
  is_off st <= 256 -> (is_wasDot st = true -> cur = []) -> (cur = [] -> is_escape st = false) ->
  verdict (is_labels st) (is_off st) ls (loop fuel (isname_step s) st).
Proof.
  induction 1 as [|cur d1 d2 d3 b r ls Hd Hv H IH|cur b r ls Hd H IH|cur r ls Hc H IH
                 |cur c r ls Hb Hd H IH];
    (intros Hl [|fuel] a st Hs Hf Hi Hbeg H0 Ho Hwd Hesc; [lia|]); cbn [length] in Hf.
  { rewrite app_nil_r in Hs. subst s. rewrite (loop_done _ _ _ (is_labels st, true)).
    - exists (is_labels st), true. split_and!; [done| |intros _; zlia].
      split; [|done]. intros _. split; [constructor|]. cbn. lia.
    - unfold isname_step. rewrite Hi, Z.ltb_irrefl, Hesc by done. done. }
  all: assert (isname_step s st = isname_step s st) as Hst by done; revert Hst;
    unfold isname_step at 2; rewrite Hi, Hs, zlt_mid, zget_mid; gosimp; cbn [negb];
    rewrite ?beq_refl, <- ?Hs.
  - assert (cur ++ [b] <> []) as Hne by (by destruct cur).
    pose proof (parses_pos _ _ _ H Hne).
    assert (from s (zlen a + 1) = Some _) as -> by (rewrite Hs; apply from_mid).
    destruct (Z.ltb_spec 256 (is_off st + 1)) as [Hov|_]; gosimp; intros Hst.
    { rewrite (loop_done _ _ _ _ Hst). apply verdict_no. zlia. }
    rewrite Hd in Hst. rewrite (loop_next _ _ _ _ Hst).
    lazymatch goal with |- verdict _ _ _ (loop _ _ ?st') =>
      apply (IH ltac:(by right) fuel (a ++ [ch_bslash; d1; d2; d3]) st') end;
      cbn [is_i is_begin is_off is_wasDot is_escape is_labels]; try done; try lia; try zlia. by rewrite <- app_assoc.
  - assert (cur ++ [b] <> []) as Hne by (by destruct cur).
    pose proof (parses_pos _ _ _ H Hne).
    assert (from s (zlen a + 1) = Some _) as -> by (rewrite Hs; apply from_mid).
    destruct (Z.ltb_spec 256 (is_off st + 1)) as [Hov|_]; gosimp; intros Hst.
    { rewrite (loop_done _ _ _ _ Hst). apply verdict_no. zlia. }
    rewrite Hd in Hst. rewrite (loop_next _ _ _ _ Hst).
    lazymatch goal with |- verdict _ _ _ (loop _ _ ?st') =>
      apply (IH ltac:(by right) fuel (a ++ [ch_bslash; b]) st') end;
      cbn [is_i is_begin is_off is_wasDot is_escape is_labels]; try done; try lia; try zlia. by rewrite <- app_assoc.
  - change (ch_dot =b ch_bslash) with false. cbn iota.
    assert (0 < zlen cur) by (destruct cur; [done|zlia]).
    rewrite (proj2 (Z.eqb_neq (zlen a) 0)) by lia. cbn [andb].
    destruct (is_wasDot st); [by specialize (Hwd eq_refl)|].
    replace (zlen a - is_begin st) with (zlen cur) by lia.
    destruct (Z.leb_spec 64 (zlen cur)).
    { intros Hst. rewrite (loop_done _ _ _ _ Hst). apply verdict_no.
      rewrite Forall_cons. lia. }
    pose proof (wire_len_nonneg ls).
    destruct (Z.ltb_spec 256 (is_off st + (1 + zlen cur))); intros Hst.
    { rewrite (loop_done _ _ _ _ Hst). apply verdict_no. cbn [wire_len]. lia. }
    rewrite (loop_next _ _ _ _ Hst). apply verdict_label; [done|].
    lazymatch goal with |- verdict _ _ _ (loop _ _ ?st') =>
      apply (IH ltac:(left; subst s; zlia) fuel (a ++ [ch_dot]) st') end;
      cbn [is_i is_begin is_off is_wasDot is_escape is_labels]; try done; try lia; try zlia.
    by rewrite <- app_assoc.
  - rewrite !beq_ne by done. intros Hst. rewrite (loop_next _ _ _ _ Hst).
    lazymatch goal with |- verdict _ _ _ (loop _ _ ?st') =>
      apply (IH ltac:(right; by destruct cur) fuel (a ++ [c]) st') end;
      cbn [is_i is_begin is_off is_wasDot is_escape is_labels]; try done; try lia; try zlia.
    by rewrite <- app_assoc.
Qed.

Lemma IsDomainName_verdict s ls :
  s <> [] -> parse_name (Fqdn s) = Some ls -> ls <> [] -> verdict 0 0 ls (IsDomainName s).
Proof.
  intros Hs Hp Hne. unfold IsDomainName. rewrite decide_False by done.
  unfold parse_name in Hp. destruct (decide (Fqdn s = [ch_dot])); [by injection Hp as <-|].
  destruct (decide (Fqdn s = [])); [done|]. apply parse_from_parses in Hp.
  apply (isname_loop (Fqdn s) [] (Fqdn s) ls Hp) with (a := []); cbn; try done; try lia.
  left. destruct (Fqdn s) as [|c [|c' r]] eqn:E; [done| |zlia].
  unfold Fqdn in E. destruct (IsFqdn s) eqn:Ef.
  - apply IsFqdn_last in Ef. rewrite E in Ef. cbn in Ef. congruence.
  - destruct s as [|x [|y s]]; done.
Qed.

(** ** Theorems *)

(** What [packDomainName] and [UnpackDomainName] make of a name together. *)
Lemma pack_result_unpack msg off cm compress ls msg' off' cm' :
  0 <= off <= zlen msg -> cm_ok (ztake off msg) cm -> wire_len ls < 255 ->
  zlen ls <= maxCompressionPointers ->
  pack_result msg off cm compress ls msg' off' cm' ->
  UnpackDomainName msg' off = Ok (show_name ls, off') /\ cm_ok (ztake off' msg') cm'.
Proof.
  intros Hoff Hok Hw Hn (w & -> & -> & _ & _ & H).
  destruct (H Hok) as [(n & Hna & Hle) Hok']. split.
  - apply UnpackDomainName_iff; [lia|]. exists ls, n. split_and!; [|done|lia|done].
    rewrite app_assoc. by apply name_at_mono.
  - replace (ztake _ _) with (ztake off msg ++ w); [done|].
    rewrite app_assoc. unfold ztake at 2.
    replace (Z.to_nat (off + zlen w)) with (length (ztake off msg ++ w)).
    + by rewrite take_app_length.
    + pose proof (zlen_ztake off msg Hoff). unfold zlen in *. rewrite length_app. lia.
Qed.

(** C3: packing a domain name never panics.  A call that succeeds keeps the
    length of the buffer, the bytes before the offset and the bytes after the
    encoding; a name that parses is encoded: literally when compression is
    off, never in more octets, and as a name a decoder reads back through at most as many
    pointers as there are labels, provided the compression map is sound, and
    then the new map is sound for the longer message.  An error is reported at
    [len(msg)] and only when the name is not fully qualified, does not parse,
    has a label of 64 octets or more, or does not fit uncompressed. *)
Theorem packDomainName_correct s msg off cm compress :
  0 <= off <= zlen msg ->
  ensures (packDomainName s msg off cm compress)
    (fun '(msg', off', cm') =>
       zlen msg' = zlen msg /\ off <= off' <= zlen msg /\
       forall ls, parse_name s = Some ls ->
         exists w,
           msg' = ztake off msg ++ w ++ zdrop off' msg /\ off' = off + zlen w /\
           (compress = false -> w = wire_name ls) /\ zlen w <= zlen (wire_name ls) /\
           (cm_ok (ztake off msg) cm ->
            (exists n, name_at (ztake off msg ++ w) off ls off' n /\ n <= zlen ls) /\
            cm_ok (ztake off msg ++ w) cm'))
    (fun e => e.1 = zlen msg /\
       ((e.2 = ErrFqdn /\ IsFqdn s = false) \/
        forall ls, parse_name s = Some ls -> Forall (fun l => zlen l < 64) ls ->
          zlen msg < off + wire_len ls + 1)).
Proof. apply packDomainName_ensures. Qed.

Lemma packDomainName_correct_witness :
  match packDomainName (bs "a\.b.nl.") (replicate 20 x00) 3 nil_map false with
  | Ok (msg', off', cm') => zlen msg' = 20 /\ 3 <= off' <= 20
  | _ => False
  end.
Proof.
  pose proof (packDomainName_correct (bs "a\.b.nl.") (replicate 20 x00) 3 nil_map false
                ltac:(vm_compute; split; discriminate)) as H.
  destruct (packDomainName (bs "a\.b.nl.") (replicate 20 x00) 3 nil_map false)
    as [[[msg' off'] cm']|?| |] eqn:E; [|vm_compute in E; discriminate E..].
  destruct H as (H1 & H2 & _). exact (conj H1 H2).
Defined.

(** C5: a name packed after a message, with or without compression, is
    unpacked in canonical form, ending where packing ended, when its wire form
    fits in 255 octets and it has at most [maxCompressionPointers] labels; the
    compression map stays sound. *)
Theorem pack_unpack_name s msg off cm compress ls msg' off' cm' :
  0 <= off <= zlen msg -> cm_ok (ztake off msg) cm ->
  parse_name s = Some ls -> wire_len ls < 255 -> zlen ls <= maxCompressionPointers ->
  packDomainName s msg off cm compress = Ok (msg', off', cm') ->
  UnpackDomainName msg' off = Ok (show_name ls, off') /\ cm_ok (ztake off' msg') cm'.
Proof.
  intros Hoff Hok Hp Hw Hn Hpack.
  pose proof (packDomainName_ensures s msg off cm compress Hoff) as H.
  rewrite Hpack in H. destruct H as (_ & _ & H). by eapply pack_result_unpack, H.
Qed.

Lemma pack_unpack_name_witness :
  match packDomainName (bs "x.a\046b.nl.") (replicate 20 x00) 0 nil_map true with
  | Ok (msg', off', cm') =>
      UnpackDomainName msg' 0 = Ok (bs "x.a\.b.nl.", off') /\ cm_ok (ztake off' msg') cm'
  | _ => False
  end.
Proof.
  destruct (packDomainName (bs "x.a\046b.nl.") (replicate 20 x00) 0 nil_map true)
    as [[[msg' off'] cm']|?| |] eqn:E; [|vm_compute in E; discriminate E..].
  refine (pack_unpack_name (bs "x.a\046b.nl.") (replicate 20 x00) 0 nil_map true
           [bs "x"; bs "a.b"; bs "nl"] msg' off' cm' _ _ _ _ _ E).
  - vm_compute; split; discriminate.
  - intros k p Hk. discriminate Hk.
  - vm_compute. reflexivity.
  - vm_compute. reflexivity.
  - vm_compute. discriminate.
Defined.

(** Every sequence of labels the wire can carry survives packing in its
    presentation form and unpacking: [UnpackDomainName] after
    [packDomainName] is the identity on canonical names, and the encoding takes
    the length of the labels, one length octet each, and the final zero. *)
Theorem name_roundtrip ls msg off compress :
  Forall (fun l => 1 <= zlen l < 64) ls -> wire_len ls < 255 ->
  0 <= off -> off + wire_len ls + 1 <= zlen msg ->
  exists msg',
    packDomainName (show_name ls) msg off nil_map compress =
      Ok (msg', off + wire_len ls + 1, nil_map) /\
    UnpackDomainName msg' off = Ok (show_name ls, off + wire_len ls + 1).
Proof.
  intros Hls Hw Hoff Hroom. pose proof (wire_len_nonneg ls).
  assert (parse_name (show_name ls) = Some ls) as Hp.
  { apply parse_show_name. eapply Forall_impl; [done|]. intros [|] ?; [zlia|done]. }
  pose proof (packDomainName_ensures (show_name ls) msg off nil_map false ltac:(lia)) as H0.
  rewrite (pack_nil_map _ _ _ compress).
  destruct (packDomainName (show_name ls) msg off nil_map false)
    as [[[msg' off'] cm']|[o e]| |] eqn:E; [|exfalso| |]; cbn in H0; [|
    destruct H0 as [_ [[_ Hf]|H0]]; [by rewrite IsFqdn_show_name in Hf|];
    specialize (H0 ls Hp); lapply H0; [lia|]; eapply Forall_impl; [exact Hls|];
    cbn; intros; lia|done..].
  destruct H0 as (_ & _ & H0). destruct (H0 ls Hp) as (w & Hm & Ho & Hc & _ & Hok).
  specialize (Hc eq_refl). subst w.
  assert (off' = off + wire_len ls + 1) as ->
    by (rewrite Ho; unfold wire_name; rewrite zlen_app, zlen_wire_labels;
        change (zlen [x00]) with 1; lia).
  exists msg'. split.
  - apply pack_cm_nil in E as ->. done.
  - apply UnpackDomainName_iff; [lia|]. exists ls, 0. split_and!; [|lia|done|done].
    rewrite Hm, app_assoc. apply name_at_mono.
    pose proof (name_at_wire_name (ztake off msg) ls Hls) as Hn.
    rewrite zlen_ztake in Hn by lia. done.
Qed.

Lemma name_roundtrip_witness :
  exists msg',
    packDomainName (show_name [bs "a b"; [x00]]) (replicate 10 xff) 2 nil_map true =
      Ok (msg', 9, nil_map) /\
    UnpackDomainName msg' 2 = Ok (show_name [bs "a b"; [x00]], 9).
Proof.
  refine (name_roundtrip [bs "a b"; [x00]] (replicate 10 xff) 2 true _ _ _ _).
  - repeat constructor; vm_compute; congruence.
  - vm_compute. reflexivity.
  - vm_compute. discriminate.
  - vm_compute. discriminate.
Defined.

(** Without compression [domainNameLen] is the number of octets
    [packDomainName] writes for a name that parses. *)
Theorem domainNameLen_packs s msg off coff compress ls msg' off' cm' :
  0 <= off <= zlen msg -> parse_name s = Some ls ->
  packDomainName s msg off nil_map compress = Ok (msg', off', cm') ->
  domainNameLen s coff None compress = Ok (off' - off, None).
Proof.
  intros Hoff Hp Hpack. rewrite (domainNameLen_parse s ls coff compress Hp).
  rewrite pack_nil_map in Hpack.
  pose proof (packDomainName_ensures s msg off nil_map false Hoff) as H.
  rewrite Hpack in H. destruct H as (_ & _ & H).
  destruct (H ls Hp) as (w & _ & -> & Hw & _). rewrite (Hw eq_refl). repeat f_equal. lia.
Qed.

Lemma domainNameLen_packs_witness :
  match packDomainName (bs "a\046b.nl.") (replicate 20 x00) 3 nil_map false with
  | Ok (_, off', _) => domainNameLen (bs "a\046b.nl.") 100 None true = Ok (off' - 3, None)
  | _ => False
  end.
Proof.
  destruct (packDomainName (bs "a\046b.nl.") (replicate 20 x00) 3 nil_map false)
    as [[[msg' off'] cm']|?| |] eqn:E; [|vm_compute in E; discriminate E..].
  apply (domainNameLen_packs (bs "a\046b.nl.") (replicate 20 x00) 3 100 true
           [bs "a.b"; bs "nl"] msg' off' cm').
  - vm_compute; split; discriminate.
  - vm_compute. reflexivity.
  - rewrite pack_nil_map. exact E.
Defined.

(** C40: on a name that parses, [IsDomainName] succeeds exactly when every
    label is shorter than 64 octets and the labels with their length octets
    take at most 256 octets, which is 257 on the wire with the root's octet, where
    its comment in defaults.go promises the limit of 255; it then returns the
    number of labels. *)
Theorem IsDomainName_iff s ls :
  s <> [] -> parse_name (Fqdn s) = Some ls -> ls <> [] ->
  exists n ok, IsDomainName s = Ok (n, ok) /\
    (ok = true <-> Forall (fun l => zlen l < 64) ls /\ wire_len ls <= 256) /\
    (ok = true -> n = zlen ls).
Proof. apply IsDomainName_verdict. Qed.

Lemma IsDomainName_iff_witness :
  exists n ok, IsDomainName (bs "www.a\.b") = Ok (n, ok) /\
    (ok = true <-> Forall (fun l => zlen l < 64) [bs "www"; bs "a.b"] /\
                   wire_len [bs "www"; bs "a.b"] <= 256) /\
    (ok = true -> n = 2).
Proof.
  refine (IsDomainName_iff (bs "www.a\.b") [bs "www"; bs "a.b"] _ _ _).
  - discriminate.
  - vm_compute. reflexivity.
  - discriminate.
Defined.

(** ** Where the functions disagree *)

(** A name of labels of 63, 63, 63 and 60 octets and one of 2: 257 octets on
    the wire. *)
Definition long_labels : list bytes :=
  [replicate 63 x61; replicate 63 x62; replicate 63 x63; replicate 60 x64; replicate 2 x65].

(** [IsDomainName] accepts a name whose wire form takes 257 octets, past
    the 255-octet limit its documentation states; [packDomainName] packs the
    name and [UnpackDomainName] then refuses it. *)
Theorem IsDomainName_over_limit :
  IsDomainName (show_name long_labels) = Ok (5, true) /\
  zlen (wire_name long_labels) = 257 /\
  match packDomainName (show_name long_labels) (replicate 300 x00) 0 nil_map false with
  | Ok (msg', off', _) => off' = 257 /\ UnpackDomainName msg' 0 = Err (300, ErrLongDomain)
  | _ => False
  end.
Proof. vm_compute. split_and!; reflexivity. Qed.

(** A name with an even run of escapes that ends in a dangling backslash
    is accepted by [IsDomainName], and [packDomainName] rejects the fully
    qualified form [Fqdn] makes of it. *)
Theorem IsDomainName_dangling_escape :
  IsDomainName (bs "\a\") = Ok (0, true) /\
  packDomainName (Fqdn (bs "\a\")) (replicate 20 x00) 0 nil_map false = Err (20, ErrFqdn).
Proof. vm_compute. split; reflexivity. Qed.

(** A name whose last dot is escaped, after a two-byte character, is taken
    as fully qualified and packed without error as the root name. *)
Theorem pack_multibyte_as_root :
  packDomainName [xc3; xa9; ch_bslash; ch_dot] (replicate 4 xff) 0 nil_map false =
    Ok ([x00; xff; xff; xff], 1, nil_map).
Proof. vm_compute. reflexivity. Qed.

(** The names a., a.a., ..., with [n] labels at most. *)
Fixpoint a_names (n : nat) : list bytes :=
  match n with
  | O => []
  | S n => a_names n ++ [concat (replicate (S n) (bs "a."))]
  end.

(** Packing a list of names one after the other with compression. *)
Definition pack_names (names : list bytes) (st : bytes * Z * compressionMap)
    : wire (bytes * Z * compressionMap) :=
  foldM (fun '(msg, off, cm) s => packDomainName s msg off cm true) st names.

(** The compression of [packDomainName] can need more pointers than
    [UnpackDomainName] follows: after the names a., a.a., ... of up to 127
    labels, the 127-label name (255 octets) packed again is a chain of 127
    pointers and is refused. *)
Theorem compression_pointer_limit :
  match pack_names (a_names 127) (replicate 1000 x00, 0, {| ext := None; int_ := Some ∅ |}) with
  | Ok (msg, off, cm) =>
      match packDomainName (concat (replicate 127 (bs "a."))) msg off cm true with
      | Ok (msg', off', _) =>
          UnpackDomainName msg' off =
            Err (1000, MkError "too many compression pointers")
      | _ => False
      end
  | _ => False
  end.
Proof. vm_compute. reflexivity. Qed.
