(* ===== verification/Wire.v ===== *)
(** * Fixed-width fields and strings (msg_helpers.go, msg.go)

    The [pack...] and [unpack...] helpers of integers, addresses, octets and
    character strings, and what they write ([writes]). *)

From S2P Require Import Prelude Go Utf8 Labels Escape Names.

(** Big-endian bytes ([encoding/binary]). *)
Fixpoint be (n : nat) (v : Z) : bytes :=
  match n with
  | O => []
  | S n => byte_of (v / 256 ^ Z.of_nat n) :: be n v
  end.
Definition unbe (l : bytes) : Z := fold_left (fun a b => a * 256 + bval b) l 0.

(** [copy(msg[off:off+len(w)], w)]. *)
Definition put_at {E} (msg : bytes) (off : Z) (w : bytes) : res E bytes :=
  d ← index (slice msg off (off + zlen w));
  let _ := d : bytes in Ok (blit msg off w).

Definition unpackUint8 (msg : bytes) (off : Z) : wire (Z * Z) :=
  if zlen msg <? off + 1 then fail (zlen msg) (MkError "overflow unpacking uint8") else
  b ← index (zget msg off);
  Ok (bval b, off + 1).

Definition packUint8 (i : Z) (msg : bytes) (off : Z) : wire (bytes * Z) :=
  if zlen msg <? off + 1 then fail (zlen msg) (MkError "overflow packing uint8") else
  msg ← put_at msg off (be 1 i);
  Ok (msg, off + 1).

Definition unpackUint16 (msg : bytes) (off : Z) : wire (Z * Z) :=
  if zlen msg <? off + 2 then fail (zlen msg) (MkError "overflow unpacking uint16") else
  w ← index (slice msg off (off + 2));
  Ok (unbe w, off + 2).

Definition packUint16 (i : Z) (msg : bytes) (off : Z) : wire (bytes * Z) :=
  if zlen msg <? off + 2 then fail (zlen msg) (MkError "overflow packing uint16") else
  msg ← put_at msg off (be 2 i);
  Ok (msg, off + 2).

Definition unpackUint32 (msg : bytes) (off : Z) : wire (Z * Z) :=
  if zlen msg <? off + 4 then fail (zlen msg) (MkError "overflow unpacking uint32") else
  w ← index (slice msg off (off + 4));
  Ok (unbe w, off + 4).

Definition packUint32 (i : Z) (msg : bytes) (off : Z) : wire (bytes * Z) :=
  if zlen msg <? off + 4 then fail (zlen msg) (MkError "overflow packing uint32") else
  msg ← put_at msg off (be 4 i);
  Ok (msg, off + 4).

Definition unpackUint48 (msg : bytes) (off : Z) : wire (Z * Z) :=
  if zlen msg <? off + 6 then fail (zlen msg) (MkError "overflow unpacking uint64 as uint48") else
  b0 ← index (zget msg off);
  b1 ← index (zget msg (off + 1));
  b2 ← index (zget msg (off + 2));
  b3 ← index (zget msg (off + 3));
  b4 ← index (zget msg (off + 4));
  b5 ← index (zget msg (off + 5));
  Ok (Z.lor (Z.lor (Z.lor (Z.lor (Z.lor (Z.shiftl (bval b0) 40) (Z.shiftl (bval b1) 32))
        (Z.shiftl (bval b2) 24)) (Z.shiftl (bval b3) 16)) (Z.shiftl (bval b4) 8)) (bval b5),
      off + 6).

Definition packUint48 (i : Z) (msg : bytes) (off : Z) : wire (bytes * Z) :=
  if zlen msg <? off + 6 then fail (zlen msg) (MkError "overflow packing uint64 as uint48") else
  msg ← put_at msg off
    [byte_of (Z.shiftr i 40); byte_of (Z.shiftr i 32); byte_of (Z.shiftr i 24);
     byte_of (Z.shiftr i 16); byte_of (Z.shiftr i 8); byte_of i];
  Ok (msg, off + 6).

Definition unpackUint64 (msg : bytes) (off : Z) : wire (Z * Z) :=
  if zlen msg <? off + 8 then fail (zlen msg) (MkError "overflow unpacking uint64") else
  w ← index (slice msg off (off + 8));
  Ok (unbe w, off + 8).

Definition packUint64 (i : Z) (msg : bytes) (off : Z) : wire (bytes * Z) :=
  if zlen msg <? off + 8 then fail (zlen msg) (MkError "overflow packing uint64") else
  msg ← put_at msg off (be 8 i);
  Ok (msg, off + 8).

(** [net.IP]: nil is the empty slice; an IPv4 address may have the 16-byte
    form ::ffff:a.b.c.d. *)
Definition v4InV6Prefix : bytes := replicate 10 x00 ++ [xff; xff].
Definition To4 (ip : bytes) : bytes :=
  if zlen ip =? 4 then ip
  else if (zlen ip =? 16) && bool_decide (ztake 12 ip = v4InV6Prefix) then zdrop 12 ip
  else [].

Definition unpackDataA (msg : bytes) (off : Z) : wire (bytes * Z) :=
  if zlen msg <? off + 4 then fail (zlen msg) (MkError "overflow unpacking a") else
  w ← index (slice msg off (off + 4));
  Ok (w, off + 4).

(** [copy(msg[off:], a.To4())] copies nothing when [To4] is nil, that is for a
    16-byte address that is not IPv4-mapped; the offset still advances. *)
Definition packDataA (a msg : bytes) (off : Z) : wire (bytes * Z) :=
  if (zlen a =? 4) || (zlen a =? 16) then
    if zlen msg <? off + 4 then fail (zlen msg) (MkError "overflow packing a") else
    msg ← put_at msg off (To4 a);
    Ok (msg, off + 4)
  else if zlen a =? 0 then Ok (msg, off)
  else fail (zlen msg) (MkError "overflow packing a").

Definition unpackDataAAAA (msg : bytes) (off : Z) : wire (bytes * Z) :=
  if zlen msg <? off + 16 then fail (zlen msg) (MkError "overflow unpacking aaaa") else
  w ← index (slice msg off (off + 16));
  Ok (w, off + 16).

Definition packDataAAAA (aaaa msg : bytes) (off : Z) : wire (bytes * Z) :=
  if zlen aaaa =? 16 then
    if zlen msg <? off + 16 then fail (zlen msg) (MkError "overflow packing aaaa") else
    msg ← put_at msg off aaaa;
    Ok (msg, off + 16)
  else if zlen aaaa =? 0 then Ok (msg, off)
  else fail (zlen msg) (MkError "overflow packing aaaa").

(** The loop of [unpackString] over [w = msg[off : off+l]]: [r] is what is left
    at index [i]; the result is the builder and [consumed]. *)
Fixpoint unpackString_loop (w r : bytes) (i consumed : Z) (s : bytes) : wire (bytes * Z) :=
  match r with
  | [] => Ok (s, consumed)
  | b :: r =>
      if (b =b ch_quote) || (b =b ch_bslash) then
        seg ← index (slice w consumed i);
        unpackString_loop w r (i + 1) (i + 1) (s ++ seg ++ [ch_bslash; b])
      else if unprintable b then
        seg ← index (slice w consumed i);
        e ← escapeByte b;
        unpackString_loop w r (i + 1) (i + 1) (s ++ seg ++ e)
      else unpackString_loop w r (i + 1) consumed s
  end.

Definition unpackString (msg : bytes) (off : Z) : wire (bytes * Z) :=
  if zlen msg <? off + 1 then fail off (MkError "overflow unpacking txt") else
  lb ← index (zget msg off);
  let l := bval lb in
  let off := off + 1 in
  if zlen msg <? off + l then fail off (MkError "overflow unpacking txt") else
  w ← index (slice msg off (off + l));
  '(s, consumed) ← unpackString_loop w w 0 0 [];
  if consumed =? 0 then Ok (w, off + l) else
  rest ← index (slice w consumed l);
  Ok (s ++ rest, off + l).

(** The loop shared by [packTxtString] and [packOctetString], over the
    characters left, the buffer and the offset; [break] on a final backslash. *)
Fixpoint pack_chars (s msg : bytes) (offset : Z) : wire (bytes * Z) :=
  match s with
  | [] => Ok (msg, offset)
  | c :: r =>
      if zlen msg <=? offset then fail offset ErrBuf else
      if c =b ch_bslash then
        match r with
        | [] => Ok (msg, offset)
        | d1 :: r1 =>
            match r1 with
            | d2 :: d3 :: r3 =>
                if isDDD r then
                  pack_chars r3 (zset msg offset
                    (byte_of ((bval d1 - 48) * 100 + (bval d2 - 48) * 10 + (bval d3 - 48))))
                    (offset + 1)
                else pack_chars r1 (zset msg offset d1) (offset + 1)
            | _ => pack_chars r1 (zset msg offset d1) (offset + 1)
            end
        end
      else pack_chars r (zset msg offset c) (offset + 1)
  end.

Definition packTxtString (s msg : bytes) (offset : Z) : wire (bytes * Z) :=
  if (zlen msg <=? offset) || (256 * 4 + 1 <? zlen s) then fail offset ErrBuf else
  '(msg, off) ← pack_chars s msg (offset + 1);
  let l := off - offset - 1 in
  if 255 <? l then fail off (MkError "string exceeded 255 bytes in txt") else
  Ok (zset msg offset (byte_of l), off).

Definition packOctetString (s msg : bytes) (offset : Z) : wire (bytes * Z) :=
  if (zlen msg <=? offset) || (256 * 4 + 1 <? zlen s) then fail offset ErrBuf else
  pack_chars s msg offset.

(** Callers that replace the offset of an error by [len(msg)]. *)
Definition at_len {A} (msg : bytes) (r : wire A) : wire A :=
  on_err (fun e => (zlen msg, e.2)) r.

Definition packString (s msg : bytes) (off : Z) : wire (bytes * Z) :=
  at_len msg (packTxtString s msg off).

Definition packTxt (txt : list bytes) (msg : bytes) (offset : Z) : wire (bytes * Z) :=
  match txt with
  | [] => if zlen msg <=? offset then fail offset ErrBuf
          else Ok (zset msg offset x00, offset)
  | _ => foldM (fun '(msg, offset) s => packTxtString s msg offset) (msg, offset) txt
  end.

(** [for off < end { x, off = up(msg, off); xs = append(xs, x) }]. *)
Definition unpack_until {A} (end_ : Z) (up : bytes -> Z -> wire (A * Z)) (msg : bytes) (off : Z)
    : wire (list A * Z) :=
  loop (S (length msg))
    (fun '(xs, off) =>
       if negb (off <? end_) then Ok (inr (xs, off)) else
       '(x, off) ← up msg off;
       Ok (inl (xs ++ [x], off)))
    ([], off).

Definition unpackTxt (msg : bytes) (off0 : Z) : wire (list bytes * Z) :=
  unpack_until (zlen msg) unpackString msg off0.

Definition unpackStringTxt (msg : bytes) (off : Z) : wire (list bytes * Z) :=
  at_len msg (unpackTxt msg off).
Definition packStringTxt (s : list bytes) (msg : bytes) (off : Z) : wire (bytes * Z) :=
  at_len msg (packTxt s msg off).

Definition unpackStringOctet (msg : bytes) (off : Z) : wire (bytes * Z) :=
  s ← index (from msg off); Ok (s, zlen msg).
Definition packStringOctet (s msg : bytes) (off : Z) : wire (bytes * Z) :=
  at_len msg (packOctetString s msg off).

Definition unpackStringAny (msg : bytes) (off end_ : Z) : wire (bytes * Z) :=
  if zlen msg <? end_ then fail (zlen msg) (MkError "overflow unpacking anything") else
  s ← index (slice msg off end_); Ok (s, end_).
Definition packStringAny (s msg : bytes) (off : Z) : wire (bytes * Z) :=
  if zlen msg <? off + zlen s then fail (zlen msg) (MkError "overflow packing anything") else
  msg ← put_at msg off s; Ok (msg, off + zlen s).

Definition unpackDataDomainNames (msg : bytes) (off end_ : Z) : wire (list bytes * Z) :=
  if zlen msg <? end_ then fail (zlen msg) (MkError "overflow unpacking domain names") else
  unpack_until end_ (fun msg off => at_len msg (UnpackDomainName msg off)) msg off.

Definition packDataDomainNames (names : list bytes) (msg : bytes) (off : Z)
    (cm : compressionMap) (compress : bool) : wire (bytes * Z * compressionMap) :=
  foldM (fun '(msg, off, cm) name =>
           on_err (fun e => (zlen msg, e.2)) (packDomainName name msg off cm compress))
        (msg, off, cm) names.

(** ** What the packers write *)

(** [w] stands at [off], ends at [off'], and the rest is as before. *)
Definition writes (msg : bytes) (off : Z) (w msg' : bytes) (off' : Z) : Prop :=
  0 <= off /\ off' = off + zlen w /\ off' <= zlen msg /\
  msg' = ztake off msg ++ w ++ zdrop off' msg.

Lemma writes_len msg off w msg' off' : writes msg off w msg' off' -> zlen msg' = zlen msg.
Proof.
  intros (H0 & -> & Hle & ->). pose proof (zlen_nonneg w).
  rewrite !zlen_app, zlen_ztake, zlen_zdrop by lia. lia.
Qed.

Lemma ztake_app_eq {A} (a b : list A) n : n = zlen a -> ztake n (a ++ b) = a.
Proof. intros ->. unfold ztake, zlen. rewrite Nat2Z.id. apply take_app_length. Qed.

Lemma zdrop_app_eq {A} (a b : list A) n : n = zlen a -> zdrop n (a ++ b) = b.
Proof. intros ->. unfold zdrop, zlen. rewrite Nat2Z.id. apply drop_app_length. Qed.

Lemma writes_take msg off w msg' off' :
  writes msg off w msg' off' -> ztake off' msg' = ztake off msg ++ w.
Proof.
  intros (H0 & -> & Hle & ->). pose proof (zlen_nonneg w). rewrite app_assoc.
  apply ztake_app_eq. rewrite zlen_app, zlen_ztake by lia. lia.
Qed.

Lemma writes_drop msg off w msg' off' :
  writes msg off w msg' off' -> zdrop off' msg' = zdrop off' msg.
Proof.
  intros (H0 & -> & Hle & ->). pose proof (zlen_nonneg w). rewrite app_assoc.
  apply zdrop_app_eq. rewrite zlen_app, zlen_ztake by lia. lia.
Qed.

Lemma zdrop_zdrop {A} (l : list A) n m : 0 <= n -> 0 <= m -> zdrop n (zdrop m l) = zdrop (m + n) l.
Proof. intros. unfold zdrop. rewrite drop_drop. f_equal. lia. Qed.

Lemma writes_trans msg off w1 m1 o1 w2 m2 o2 :
  writes msg off w1 m1 o1 -> writes m1 o1 w2 m2 o2 -> writes msg off (w1 ++ w2) m2 o2.
Proof.
  intros H1 H2. pose proof (writes_take _ _ _ _ _ H1) as Ht.
  pose proof (writes_drop _ _ _ _ _ H1) as Hd. pose proof (writes_len _ _ _ _ _ H1) as Hl.
  destruct H1 as (? & -> & ? & _), H2 as (? & -> & ? & ->).
  pose proof (zlen_nonneg w1). pose proof (zlen_nonneg w2).
  split_and!; [done|zlia|lia|]. rewrite Ht, <- !app_assoc. do 3 f_equal.
  rewrite <- (zdrop_zdrop m1 (zlen w2) (off + zlen w1)) by lia.
  by rewrite Hd, zdrop_zdrop by lia.
Qed.

Lemma writes_nil msg off : 0 <= off <= zlen msg -> writes msg off [] msg off.
Proof.
  intros. split_and!; [lia|zlia|lia|]. cbn. unfold ztake, zdrop. by rewrite take_drop.
Qed.

Lemma blit_writes msg off w off' :
  0 <= off -> off' = off + zlen w -> off' <= zlen msg -> writes msg off w (blit msg off w) off'.
Proof. intros ? -> ?. by split_and!. Qed.

Lemma writes_off msg off w msg' off' : writes msg off w msg' off' -> 0 <= off <= off' /\ off' <= zlen msg.
Proof. intros (? & -> & ? & _). pose proof (zlen_nonneg w). lia. Qed.

Lemma put_at_writes {E} msg off w :
  0 <= off -> off + zlen w <= zlen msg ->
  exists msg', @put_at E msg off w = Ok msg' /\ writes msg off w msg' (off + zlen w).
Proof.
  intros. pose proof (zlen_nonneg w). unfold put_at.
  rewrite slice_Some by lia. gosimp. eexists. split; [done|]. by split_and!.
Qed.

Lemma be_length n v : zlen (be n v) = Z.of_nat n.
Proof. induction n as [|n IH]; [done|]. cbn [be]. rewrite zlen_cons, IH. lia. Qed.

Lemma fold_unbe a l : fold_left (fun a b => a * 256 + bval b) l a = a * 256 ^ zlen l + unbe l.
Proof.
  unfold unbe. revert a. induction l as [|b l IH]; intros a; cbn [fold_left].
  { change (zlen (@nil byte)) with 0. lia. }
  rewrite (IH (a * 256 + bval b)), (IH (0 * 256 + bval b)), zlen_cons, Z.pow_add_r by zlia. lia.
Qed.

Lemma unbe_cons b l : unbe (b :: l) = bval b * 256 ^ zlen l + unbe l.
Proof. unfold unbe at 1. cbn [fold_left]. rewrite fold_unbe. lia. Qed.

Lemma unbe_range l : 0 <= unbe l < 256 ^ zlen l.
Proof.
  induction l as [|b l IH]; [done|]. rewrite unbe_cons, zlen_cons, Z.pow_add_r by zlia.
  pose proof (bval_range b). nia.
Qed.

Lemma unbe_be n v : 0 <= v < 256 ^ Z.of_nat n -> unbe (be n v) = v.
Proof.
  intros Hv.
  assert (unbe (be n v) = v mod 256 ^ Z.of_nat n) as ->; [|by apply Z.mod_small].
  clear Hv. induction n as [|n IH]; [by rewrite Z.mod_1_r|].
  cbn [be]. rewrite unbe_cons, be_length, IH, bval_byte_of.
  replace (Z.of_nat (S n)) with (Z.of_nat n + 1) by lia. rewrite Z.pow_add_r by lia.
  assert (0 < 256 ^ Z.of_nat n) by (apply Z.pow_pos_nonneg; lia).
  change (256 ^ 1) with 256. rewrite Z.rem_mul_r by lia. lia.
Qed.

Lemma be_unbe l : be (length l) (unbe l) = l.
Proof.
  enough (forall k, be (length l) (k * 256 ^ zlen l + unbe l) = l) as H
    by (specialize (H 0); by rewrite Z.mul_0_l in H).
  induction l as [|b l IH]; intros k; [done|]. cbn [be length].
  rewrite unbe_cons, zlen_cons. fold (zlen l). rewrite Z.pow_add_r by zlia.
  pose proof (unbe_range l). f_equal.
  - rewrite <- (byte_of_bval b) at 2. unfold byte_of. do 3 f_equal.
    replace (k * (256 ^ 1 * 256 ^ zlen l) + (bval b * 256 ^ zlen l + unbe l))
      with ((k * 256 + bval b) * 256 ^ zlen l + unbe l) by lia.
    assert (0 < 256 ^ zlen l) by (apply Z.pow_pos_nonneg; zlia).
    rewrite Z.div_add_l by lia. rewrite (Z.div_small (unbe l)) by lia.
    pose proof (bval_range b). rewrite Z.add_0_r, Z.add_comm, Z.mod_add by lia. done.
  - replace (k * (256 ^ 1 * 256 ^ zlen l) + (bval b * 256 ^ zlen l + unbe l))
      with ((k * 256 + bval b) * 256 ^ zlen l + unbe l) by lia. apply IH.
Qed.

(** ** Ranges of the integer types *)

Definition u8 (x : Z) : Prop := 0 <= x < 256.
Definition u16 (x : Z) : Prop := 0 <= x < 65536.
Definition u32 (x : Z) : Prop := 0 <= x < 2 ^ 32.
Definition u48 (x : Z) : Prop := 0 <= x < 2 ^ 48.
Definition u64 (x : Z) : Prop := 0 <= x < 2 ^ 64.

Lemma unpackUint16_Ok msg off v o :
  unpackUint16 msg off = Ok (v, o) -> o = off + 2 /\ u16 v.
Proof.
  unfold unpackUint16. case_match; [done|]. intros HU. inv_bind HU. injection HU as <- <-.
  apply slice_inv in Ha as (_ & _ & Hl & _). pose proof (unbe_range a) as Hr. rewrite Hl in Hr.
  replace (off + 2 - off) with 2 in Hr by lia. done.
Qed.

Lemma unpackUint8_Ok msg off v o : unpackUint8 msg off = Ok (v, o) -> o = off + 1 /\ u8 v.
Proof.
  unfold unpackUint8. case_match; [done|]. intros HU. inv_bind HU. injection HU as <- <-.
  split; [done|]. apply bval_range.
Qed.
