(* ===== verification/Codec.v ===== *)
(** * The contract of a packer and its unpacker

    [carries]: what a packer writes depends on the offset, the compression map
    and the length of the buffer only; the unpacker reads the value back in any
    message that keeps those bytes; the map stays sound.  The client files
    (RR.v, Msg.v) prove their theorems against this contract; the packers of
    names, integers and strings discharge it here. *)

From S2P Require Import Prelude Go Utf8 Labels Escape Names NameDecode NameEncode NameLen Wire.

Abbreviation packer := (bytes -> Z -> compressionMap -> wire (bytes * Z * compressionMap)).
Abbreviation unpacker A := (bytes -> Z -> wire (A * Z)).

(** A packer that uses no compression map. *)
Definition plain (pk : bytes -> Z -> wire (bytes * Z)) : packer := fun msg off cm =>
  '(msg, off) ← pk msg off; Ok (msg, off, cm).

(** The packer wrote [w] at [off]; what follows the end is not specified. *)
Definition puts (pk : packer) (off : Z) (cm : compressionMap) (L : Z) (w : bytes)
    (cm' : compressionMap) : Prop :=
  forall msg, zlen msg = L ->
    exists msg', pk msg off cm = Ok (msg', off + zlen w, cm') /\
      zlen msg' = L /\ ztake (off + zlen w) msg' = ztake off msg ++ w.

(** [carries tail n pk up v]: packing [v] fails only when fewer than [n] octets
    are left, takes at most [n] octets, and unpacks to [v]; [tail] is for the
    fields that extend to the end of the message. *)
Definition carries {A} (tail : bool) (n : Z) (pk : packer) (up : unpacker A) (v : A) : Prop :=
  forall off cm L, 0 <= off <= L ->
    (L < off + n /\ forall msg, zlen msg = L -> exists e, pk msg off cm = Err e) \/
    (exists w cm', zlen w <= n /\ off + zlen w <= L /\ puts pk off cm L w cm' /\
       (valid cm = false -> cm' = cm) /\
       forall pre, zlen pre = off -> cm_ok pre cm ->
         cm_ok (pre ++ w) cm' /\
         forall suf, (tail = true -> suf = []) -> up (pre ++ w ++ suf) off = Ok (v, off + zlen w)).

Lemma puts_writes pk off cm L w cm' :
  0 <= off -> off + zlen w <= L ->
  (forall msg, zlen msg = L -> exists msg',
     pk msg off cm = Ok (msg', off + zlen w, cm') /\ writes msg off w msg' (off + zlen w)) ->
  puts pk off cm L w cm'.
Proof.
  intros H0 Hle H msg Hm. destruct (H msg Hm) as (msg' & E & Hw). exists msg'. split; [done|].
  split; [by rewrite (writes_len _ _ _ _ _ Hw)|]. by apply writes_take in Hw.
Qed.

(** A packer that writes the same bytes everywhere: room decides. *)
Lemma carries_fixed {A} tail n pk (up : unpacker A) v w :
  zlen w <= n ->
  (forall msg off, 0 <= off -> off + n <= zlen msg ->
     exists msg', pk msg off = Ok (msg', off + zlen w) /\
        zlen msg' = zlen msg /\ ztake (off + zlen w) msg' = ztake off msg ++ w) ->
  (forall msg off, 0 <= off -> zlen msg < off + n -> exists e, pk msg off = Err e) ->
  (forall pre suf, (tail = true -> suf = []) ->
     up (pre ++ w ++ suf) (zlen pre) = Ok (v, zlen pre + zlen w)) ->
  carries tail n (plain pk) up v.
Proof.
  intros Hn Hok Herr Hup off cm L Hoff. pose proof (zlen_nonneg w).
  destruct (Z.lt_ge_cases L (off + n)) as [Hlt|Hge].
  - left. split; [done|]. intros msg Hm. destruct (Herr msg off) as [e He]; [lia|lia|].
    exists e. unfold plain. by rewrite He.
  - right. exists w, cm. split_and!; [done|lia| |done|].
    + intros msg Hm. destruct (Hok msg off) as (msg' & E & H1 & H2); [lia|lia|].
      exists msg'. unfold plain. rewrite E. split_and!; [done|lia|done].
    + intros pre Hp Hcm. split; [by apply cm_ok_app|]. intros suf Hs.
      rewrite <- Hp. by apply Hup.
Qed.

(** ** Packers that write fixed bytes *)

(** [pk] writes [w] when there is room and fails otherwise. *)
Definition fixed (pk : bytes -> Z -> wire (bytes * Z)) (w : bytes) : Prop :=
  forall msg off, 0 <= off ->
    (zlen msg < off + zlen w /\ exists e, pk msg off = Err e) \/
    (exists msg', pk msg off = Ok (msg', off + zlen w) /\ writes msg off w msg' (off + zlen w)).

Lemma fixed_put pk w e :
  (forall msg off, pk msg off =
     if zlen msg <? off + zlen w then fail (zlen msg) e
     else msg ← put_at msg off w; Ok (msg, off + zlen w)) -> fixed pk w.
Proof.
  intros Hpk msg off H0. rewrite Hpk. destruct (Z.ltb_spec (zlen msg) (off + zlen w)).
  - left. split; [done|]. by eexists.
  - right. destruct (put_at_writes (E := Z * error) msg off w) as (m & -> & W); [done|done|].
    by exists m.
Qed.

Lemma fixed_uint8 v : fixed (packUint8 v) (be 1 v).
Proof. by eapply fixed_put. Qed.
Lemma fixed_uint16 v : fixed (packUint16 v) (be 2 v).
Proof. by eapply fixed_put. Qed.
Lemma fixed_uint32 v : fixed (packUint32 v) (be 4 v).
Proof. by eapply fixed_put. Qed.

Lemma fixed_on_err f pk w : fixed pk w -> fixed (fun msg off => on_err (f msg) (pk msg off)) w.
Proof.
  intros H msg off H0. destruct (H msg off H0) as [[Hlt [e ->]]|(m & -> & W)]; [left|right; by exists m].
  split; [done|]. by eexists.
Qed.

Lemma fixed_seq p1 p2 w1 w2 :
  fixed p1 w1 -> fixed p2 w2 ->
  fixed (fun msg off => '(msg, off) ← p1 msg off; p2 msg off) (w1 ++ w2).
Proof.
  intros H1 H2 msg off H0. rewrite zlen_app. pose proof (zlen_nonneg w1). pose proof (zlen_nonneg w2).
  destruct (H1 msg off H0) as [[Hlt [e ->]]|(m1 & -> & W1)].
  { left. split; [lia|]. by eexists. }
  pose proof (writes_len _ _ _ _ _ W1) as L1. gosimp.
  destruct (H2 m1 (off + zlen w1)) as [[Hlt [e ->]]|(m2 & -> & W2)]; [lia|left|right].
  - split; [lia|]. by eexists.
  - exists m2. rewrite Z.add_assoc. split; [done|]. by eapply writes_trans.
Qed.

Lemma fixed_ext pk pk' w : (forall msg off, pk' msg off = pk msg off) -> fixed pk w -> fixed pk' w.
Proof. intros He H msg off H0. rewrite He. by apply H. Qed.

Lemma fixed_carries {A} tail pk (up : unpacker A) v w :
  fixed pk w ->
  (forall pre suf, (tail = true -> suf = []) ->
     up (pre ++ w ++ suf) (zlen pre) = Ok (v, zlen pre + zlen w)) ->
  carries tail (zlen w) (plain pk) up v.
Proof.
  intros Hpk Hup. apply (carries_fixed _ _ _ _ _ w); [lia| | |done].
  - intros msg off H0 Hle. destruct (Hpk msg off H0) as [[Hlt _]|(m & E & W)]; [lia|].
    exists m. split; [done|]. split; [by eapply writes_len|by apply writes_take in W].
  - intros msg off H0 Hlt. destruct (Hpk msg off H0) as [[_ H]|(m & E & W)]; [done|].
    apply writes_off in W. lia.
Qed.

(** Nothing written, nothing read. *)
Lemma carries_nothing {A} n (pk : packer) (up : unpacker A) v :
  0 <= n ->
  (forall msg off cm, pk msg off cm = Ok (msg, off, cm)) ->
  (forall pre, up pre (zlen pre) = Ok (v, zlen pre)) ->
  carries true n pk up v.
Proof.
  intros Hn Hpk Hup off cm L Hoff. right. exists [], cm.
  change (zlen (@nil byte)) with 0. rewrite Z.add_0_r. split_and!; [done|lia| |done|].
  - intros msg Hm. exists msg. rewrite app_nil_r. change (zlen (@nil byte)) with 0.
    by rewrite Hpk, Z.add_0_r.
  - intros pre Hpre Hok. rewrite app_nil_r. split; [done|]. intros suf ->; [|done].
    rewrite !app_nil_r, <- Hpre. apply Hup.
Qed.

(** ** Fixed-width integers *)

Lemma put_be_fixed {A} tail pk (up : unpacker A) v w e :
  (forall msg off, pk msg off =
     if zlen msg <? off + zlen w then fail (zlen msg) e
     else msg ← put_at msg off w; Ok (msg, off + zlen w)) ->
  (forall pre suf, up (pre ++ w ++ suf) (zlen pre) = Ok (v, zlen pre + zlen w)) ->
  carries tail (zlen w) (plain pk) up v.
Proof.
  intros Hpk Hup. apply (carries_fixed _ _ _ _ _ w); [lia| | |by intros; apply Hup].
  - intros msg off H0 Hle. rewrite Hpk. decide_ifs.
    destruct (put_at_writes (E := Z * error) msg off w H0 Hle) as (msg' & E & Hw).
    rewrite E. exists msg'. split; [done|].
    split; [by apply writes_len in Hw|by apply writes_take in Hw].
  - intros msg off H0 Hlt. rewrite Hpk. decide_ifs. by eexists.
Qed.

Lemma room_mid (pre w suf : bytes) n : n = zlen w -> (zlen (pre ++ w ++ suf) <? zlen pre + n) = false.
Proof. intros ->. apply Z.ltb_ge. zlia. Qed.

Lemma carries_uint8 v : 0 <= v < 256 -> carries false 1 (plain (packUint8 v)) unpackUint8 v.
Proof.
  intros Hv. apply (put_be_fixed _ _ _ _ (be 1 v) (MkError "overflow packing uint8")); [done|].
  intros pre suf. unfold unpackUint8. rewrite room_mid by done. cbn [be app].
  rewrite zget_mid. gosimp. rewrite bval_byte_of, Z.div_1_r, Z.mod_small by lia. done.
Qed.

(** The wide integers read a slice. *)
Lemma unpack_slice n v (pre suf : bytes) :
  0 <= v < 256 ^ Z.of_nat n ->
  slice (pre ++ be n v ++ suf) (zlen pre) (zlen pre + Z.of_nat n) = Some (be n v).
Proof. intros. apply slice_mid; [done|]. by rewrite be_length. Qed.

Lemma carries_uint16 v : 0 <= v < 65536 -> carries false 2 (plain (packUint16 v)) unpackUint16 v.
Proof.
  intros Hv. apply (put_be_fixed _ _ _ _ (be 2 v) (MkError "overflow packing uint16")); [done|].
  intros pre suf. unfold unpackUint16. rewrite room_mid by done.
  rewrite (unpack_slice 2) by done. gosimp. by rewrite unbe_be.
Qed.

Lemma carries_uint32 v : 0 <= v < 2 ^ 32 -> carries false 4 (plain (packUint32 v)) unpackUint32 v.
Proof.
  intros Hv. apply (put_be_fixed _ _ _ _ (be 4 v) (MkError "overflow packing uint32")); [done|].
  intros pre suf. unfold unpackUint32. rewrite room_mid by done.
  rewrite (unpack_slice 4) by done. gosimp. by rewrite unbe_be.
Qed.

Lemma carries_uint64 v : 0 <= v < 2 ^ 64 -> carries false 8 (plain (packUint64 v)) unpackUint64 v.
Proof.
  intros Hv. apply (put_be_fixed _ _ _ _ (be 8 v) (MkError "overflow packing uint64")); [done|].
  intros pre suf. unfold unpackUint64. rewrite room_mid by done.
  rewrite (unpack_slice 8) by done. gosimp. by rewrite unbe_be.
Qed.

Lemma zget_from {A} (pre l : list A) i : 0 <= i -> zget (pre ++ l) (zlen pre + i) = zget l i.
Proof. intros. rewrite zget_app_r by lia. f_equal. lia. Qed.

(** Or-ing in the next eight bits. *)
Lemma lor_byte x c k b : 0 <= k -> x = c * 2 ^ (k + 8) -> Z.lor x (Z.shiftl (bval b) k) = x + bval b * 2 ^ k.
Proof.
  intros Hk ->. rewrite Z.shiftl_mul_pow2 by done. pose proof (bval_range b).
  apply lor_small_shiftl; [lia|]. rewrite Z.pow_add_r by lia.
  assert (0 < 2 ^ k) by (apply Z.pow_pos_nonneg; lia). change (2 ^ 8) with 256. nia.
Qed.

Lemma uint48_lor b0 b1 b2 b3 b4 b5 :
  Z.lor (Z.lor (Z.lor (Z.lor (Z.lor (Z.shiftl (bval b0) 40) (Z.shiftl (bval b1) 32))
    (Z.shiftl (bval b2) 24)) (Z.shiftl (bval b3) 16)) (Z.shiftl (bval b4) 8)) (bval b5)
  = unbe [b0; b1; b2; b3; b4; b5].
Proof.
  rewrite (Z.shiftl_mul_pow2 (bval b0)) by lia.
  rewrite (lor_byte _ (bval b0) 32) by (lia || done).
  rewrite (lor_byte _ (bval b0 * 2 ^ 8 + bval b1) 24) by lia.
  rewrite (lor_byte _ (bval b0 * 2 ^ 16 + bval b1 * 2 ^ 8 + bval b2) 16) by lia.
  rewrite (lor_byte _ (bval b0 * 2 ^ 24 + bval b1 * 2 ^ 16 + bval b2 * 2 ^ 8 + bval b3) 8) by lia.
  rewrite <- (Z.shiftl_0_r (bval b5)).
  rewrite (lor_byte _ (bval b0 * 2 ^ 32 + bval b1 * 2 ^ 24 + bval b2 * 2 ^ 16
                       + bval b3 * 2 ^ 8 + bval b4) 0) by lia.
  unfold unbe. cbn [fold_left]. lia.
Qed.

Lemma be_six v :
  [byte_of (Z.shiftr v 40); byte_of (Z.shiftr v 32); byte_of (Z.shiftr v 24);
   byte_of (Z.shiftr v 16); byte_of (Z.shiftr v 8); byte_of v] = be 6 v.
Proof. rewrite !Z.shiftr_div_pow2 by lia. cbn [be Z.of_nat]. by rewrite Z.div_1_r. Qed.

Lemma carries_uint48 v : 0 <= v < 2 ^ 48 -> carries false 6 (plain (packUint48 v)) unpackUint48 v.
Proof.
  intros Hv.
  apply (put_be_fixed _ _ _ _ (be 6 v) (MkError "overflow packing uint64 as uint48")).
  - intros msg off. unfold packUint48. by rewrite be_six.
  - intros pre suf. unfold unpackUint48. rewrite room_mid by done.
    destruct (be 6 v) as [|b0 [|b1 [|b2 [|b3 [|b4 [|b5 [|]]]]]]] eqn:E; try discriminate E.
    cbn [app]. rewrite zget_mid, !zget_from by lia.
    set (l := b0 :: b1 :: b2 :: b3 :: b4 :: b5 :: suf).
    change (zget l 1) with (Some b1). change (zget l 2) with (Some b2).
    change (zget l 3) with (Some b3). change (zget l 4) with (Some b4).
    change (zget l 5) with (Some b5). gosimp.
    rewrite uint48_lor, <- E, unbe_be by done. done.
Qed.

(** ** Addresses *)

Lemma carries_a a : zlen a = 4 -> carries false 4 (plain (packDataA a)) unpackDataA a.
Proof.
  intros Ha. rewrite <- Ha. apply (put_be_fixed _ _ _ _ a (MkError "overflow packing a")).
  - intros msg off. unfold packDataA, To4. by rewrite !Ha.
  - intros pre suf. unfold unpackDataA. rewrite room_mid by done.
    rewrite slice_mid by (done || lia). by rewrite Ha.
Qed.

(** The 16-byte form of an IPv4 address comes back as its 4 bytes. *)
Lemma carries_a_mapped a : zlen a = 4 ->
  carries false 4 (plain (packDataA (v4InV6Prefix ++ a))) unpackDataA a.
Proof.
  intros Ha. rewrite <- Ha. apply (put_be_fixed _ _ _ _ a (MkError "overflow packing a")).
  - intros msg off. unfold packDataA, To4.
    assert (zlen (v4InV6Prefix ++ a) = 16) as -> by (rewrite zlen_app, Ha; done).
    rewrite (ztake_app_eq v4InV6Prefix a 12), (zdrop_app_eq v4InV6Prefix a 12) by done.
    cbn [Z.eqb Z.compare Pos.eqb andb orb]. rewrite bool_decide_eq_true_2 by done. by rewrite Ha.
  - intros pre suf. unfold unpackDataA. rewrite room_mid by done.
    rewrite slice_mid by (done || lia). by rewrite Ha.
Qed.

Lemma carries_aaaa a : zlen a = 16 -> carries false 16 (plain (packDataAAAA a)) unpackDataAAAA a.
Proof.
  intros Ha. rewrite <- Ha. apply (put_be_fixed _ _ _ _ a (MkError "overflow packing aaaa")).
  - intros msg off. unfold packDataAAAA. by rewrite !Ha.
  - intros pre suf. unfold unpackDataAAAA. rewrite room_mid by done.
    rewrite slice_mid by (done || lia). by rewrite Ha.
Qed.

Lemma carries_any s :
  carries true (zlen s) (plain (packStringAny s))
    (fun msg off => unpackStringAny msg off (zlen msg)) s.
Proof.
  apply (carries_fixed true (zlen s) _ _ _ s); [lia| | |].
  - intros msg o H0 Hle. unfold packStringAny. decide_ifs.
    destruct (put_at_writes (E := Z * error) msg o s H0 Hle) as (msg' & E & Hw).
    rewrite E. exists msg'. split; [done|].
    split; [by apply writes_len in Hw|by apply writes_take in Hw].
  - intros msg o H0 Hlt. unfold packStringAny. decide_ifs. by eexists.
  - intros pre suf ->; [|done]. unfold unpackStringAny. rewrite Z.ltb_irrefl.
    rewrite slice_mid by (done || zlia). gosimp. do 2 f_equal. zlia.
Qed.

(** ** Combining contracts *)

Lemma carries_ext {A} tail n pk pk' (up up' : unpacker A) v :
  (forall msg off cm, 0 <= off <= zlen msg -> pk' msg off cm = pk msg off cm) ->
  (forall msg off, 0 <= off -> up' msg off = up msg off) ->
  carries tail n pk up v -> carries tail n pk' up' v.
Proof.
  intros Hp Hu H off cm L Hoff. destruct (H off cm L Hoff) as [[Hlt He]|(w & cm' & H1 & H2 & H3 & H4 & H5)].
  - left. split; [done|]. intros msg Hm. rewrite Hp by lia. by apply He.
  - right. exists w, cm'. split_and!; [done|done| |done|].
    + intros msg Hm. rewrite Hp by lia. by apply H3.
    + intros pre Hpre Hok. destruct (H5 pre Hpre Hok) as [H6 H7]. split; [done|].
      intros suf Hs. rewrite Hu by lia. by apply H7.
Qed.

(** Callers that rewrite the errors. *)
Lemma carries_on_err {A} tail n (pk : packer) (up : unpacker A) v f g :
  carries tail n pk up v ->
  carries tail n (fun msg off cm => on_err (f msg) (pk msg off cm))
    (fun msg off => on_err (g msg) (up msg off)) v.
Proof.
  intros H off cm L Hoff. destruct (H off cm L Hoff) as [[Hlt He]|(w & cm' & H1 & H2 & H3 & H4 & H5)].
  - left. split; [done|]. intros msg Hm. destruct (He msg Hm) as [e ->]. by eexists.
  - right. exists w, cm'. split_and!; [done|done| |done|].
    + intros msg Hm. destruct (H3 msg Hm) as (m & -> & Hm1). by exists m.
    + intros pre Hpre Hok. destruct (H5 pre Hpre Hok) as [H6 H7]. split; [done|].
      intros suf Hs. by rewrite H7.
Qed.

Lemma carries_tail {A} n pk (up : unpacker A) v tail : carries false n pk up v -> carries tail n pk up v.
Proof.
  intros H off cm L Hoff. destruct (H off cm L Hoff) as [He|(w & cm' & H1 & H2 & H3 & H4 & H5)];
    [by left|right].
  exists w, cm'. split_and!; try done. intros pre Hpre Hok. destruct (H5 pre Hpre Hok) as [H6 H7].
  split; [done|]. intros suf _. by apply H7.
Qed.

Lemma carries_more {A} tail n m pk (up : unpacker A) v :
  n <= m -> carries tail n pk up v -> carries tail m pk up v.
Proof.
  intros Hle H off cm L Hoff. destruct (H off cm L Hoff) as [[Hlt He]|(w & cm' & H1 & H2)].
  - left. split; [lia|done].
  - right. exists w, cm'. split; [lia|done].
Qed.

(** Two packers in a row. *)
Lemma puts_seq pk1 pk2 off cm L w1 w2 cm1 cm2 :
  puts pk1 off cm L w1 cm1 -> puts pk2 (off + zlen w1) cm1 L w2 cm2 ->
  puts (fun msg off cm => '(msg, off, cm) ← pk1 msg off cm; pk2 msg off cm) off cm L (w1 ++ w2) cm2.
Proof.
  intros H1 H2 msg Hm. destruct (H1 msg Hm) as (m1 & E1 & L1 & T1).
  destruct (H2 m1 L1) as (m2 & E2 & L2 & T2). exists m2. rewrite E1. gosimp.
  rewrite E2, zlen_app, Z.add_assoc. split_and!; [done|done|].
  by rewrite T2, T1, <- app_assoc.
Qed.

(** A list packed item by item and unpacked up to the end of the message. *)
Definition pack_each {A} (pk : A -> packer) (l : list A) : packer := fun msg off cm =>
  foldM (fun '(msg, off, cm) x => pk x msg off cm) (msg, off, cm) l.

Fixpoint sum_with {A} (f : A -> Z) (l : list A) : Z :=
  match l with [] => 0 | x :: l => f x + sum_with f l end.

Section Lists.
Context {A B : Type} (pk : A -> packer) (up : unpacker B) (val : A -> B) (n : A -> Z).
Context (Hprog : forall msg off x off', 0 <= off -> up msg off = Ok (x, off') -> off < off').

Lemma carries_each l :
  Forall (fun x => carries false (n x) (pk x) up (val x)) l ->
  Forall (fun x => 0 <= n x) l ->
  forall off cm L, 0 <= off <= L ->
  (L < off + sum_with n l /\ forall msg, zlen msg = L -> exists e, pack_each pk l msg off cm = Err e) \/
  (exists w cm', zlen w <= sum_with n l /\ off + zlen w <= L /\ puts (pack_each pk l) off cm L w cm' /\
     (valid cm = false -> cm' = cm) /\
     forall pre, zlen pre = off -> cm_ok pre cm ->
       cm_ok (pre ++ w) cm' /\
       forall xs fuel, (length w < fuel)%nat ->
         loop fuel (fun '(xs, off) =>
           if negb (off <? zlen (pre ++ w)) then Ok (inr (xs, off)) else
           '(x, off) ← up (pre ++ w) off; Ok (inl (xs ++ [x], off))) (xs, off) =
         Ok (xs ++ map val l, off + zlen w)).
Proof.
  induction 1 as [|x l Hx Hl IH]; intros Hn off cm L Hoff.
  { right. exists [], cm. change (zlen (@nil byte)) with 0. rewrite Z.add_0_r.
    split_and!; [done|lia| |done|].
    - intros msg Hm. exists msg. rewrite app_nil_r. by rewrite Z.add_0_r.
    - intros pre Hpre Hok. rewrite app_nil_r. split; [done|]. intros xs [|fuel] Hf; [simpl in Hf; lia|].
      rewrite (loop_done _ _ _ (xs, off)); [by rewrite app_nil_r|].
      by rewrite Hpre, Z.ltb_irrefl. }
  apply Forall_cons in Hn as [Hnx Hn]. cbn [sum_with].
  assert (0 <= sum_with n l) as Hsum by (clear -Hn; induction Hn; simpl; lia).
  destruct (Hx off cm L Hoff) as [[Hlt He]|(w & cm1 & H1 & H2 & H3 & H4 & H5)].
  { left. split; [lia|]. intros msg Hm. destruct (He msg Hm) as [e E]. exists e.
    unfold pack_each. cbn [foldM]. by rewrite E. }
  destruct (IH Hn (off + zlen w) cm1 L) as [[Hlt He]|(w' & cm2 & I1 & I2 & I3 & I4 & I5)]; [zlia|left|right].
  { split; [lia|]. intros msg Hm. destruct (H3 msg Hm) as (m1 & E1 & L1 & _).
    destruct (He m1 L1) as [e E]. exists e. unfold pack_each. cbn [foldM]. by rewrite E1. }
  exists (w ++ w'), cm2. split_and!; [zlia|zlia| | |].
  - intros msg Hm. destruct (puts_seq _ _ _ _ _ _ _ _ _ H3 I3 msg Hm) as (m & E & ?).
    exists m. split; [|done]. rewrite <- E. unfold pack_each. cbn [foldM].
    by destruct (pk x msg off cm) as [[[? ?] ?]|?| |].
  - intros Hv. rewrite I4, H4; [done|done|]. by rewrite H4.
  - intros pre Hpre Hok. destruct (H5 pre Hpre Hok) as [H6 H7].
    destruct (I5 (pre ++ w)) as [I6 I7]; [zlia|done|].
    rewrite <- app_assoc in I6, I7. split; [done|]. intros xs fuel Hf.
    specialize (H7 w' ltac:(done)). pose proof (Hprog _ off _ _ (proj1 Hoff) H7) as Hpos.
    destruct fuel as [|fuel]; [lia|].
    rewrite (loop_next _ _ _ (xs ++ [val x], off + zlen w)).
    + rewrite I7; [|rewrite length_app in Hf; unfold zlen in Hpos; lia].
      rewrite <- app_assoc. cbn [app map]. f_equal. f_equal. zlia.
    + rewrite (proj2 (Z.ltb_lt _ _)) by zlia. cbn [negb]. by rewrite H7.
Qed.

Lemma carries_until l :
  Forall (fun x => carries false (n x) (pk x) up (val x)) l ->
  Forall (fun x => 0 <= n x) l ->
  carries true (sum_with n l) (pack_each pk l)
    (fun msg off => unpack_until (zlen msg) up msg off) (map val l).
Proof.
  intros Hl Hn off cm L Hoff.
  destruct (carries_each l Hl Hn off cm L Hoff) as [He|(w & cm' & H1 & H2 & H3 & H4 & H5)];
    [by left|right].
  exists w, cm'. split_and!; try done. intros pre Hpre Hok. destruct (H5 pre Hpre Hok) as [H6 H7].
  split; [done|]. intros suf ->; [|done]. rewrite app_nil_r. unfold unpack_until.
  rewrite H7; [done|]. rewrite length_app. lia.
Qed.
End Lists.

Lemma foldM_plain {A} (pk : A -> bytes -> Z -> wire (bytes * Z)) l msg off cm :
  plain (fun msg off => foldM (fun '(m, o) x => pk x m o) (msg, off) l) msg off cm =
  pack_each (fun x => plain (pk x)) l msg off cm.
Proof.
  unfold plain, pack_each. revert msg off. induction l as [|x l IH]; intros msg off; [done|].
  cbn [foldM]. destruct (pk x msg off) as [[m o]|e| |]; gosimp; [|done..]. by rewrite <- IH.
Qed.
