(* ===== verification/NameCarry.v ===== *)
(** * Domain names satisfy the packer contract

    [packDomainName] writes the same bytes whatever the buffer holds, so that
    with [packDomainName_ensures] it satisfies [carries]. *)

From S2P Require Import Prelude Go Utf8 Labels Escape Names NameDecode NameEncode NameLen Wire Codec.

Section Independence.
Context (s : bytes) (compress : bool) (msg1 msg2 : bytes) (off0 : Z).
Context (Hlen : zlen msg1 = zlen msg2).

(** The same run on two buffers: [w] has been written so far. *)
Definition twin (st st' : pack_state) : Prop :=
  exists w m,
    writes msg1 off0 w (ps_msg st) (ps_off st) /\ writes msg2 off0 w m (ps_off st) /\
    st' = {| ps_i := ps_i st; ps_ls := ps_ls st; ps_begin := ps_begin st;
             ps_compBegin := ps_compBegin st; ps_compOff := ps_compOff st; ps_bs := ps_bs st;
             ps_wasDot := ps_wasDot st; ps_off := ps_off st; ps_msg := m; ps_cm := ps_cm st |}.

Lemma writes_same_len w m m' o : writes msg1 off0 w m o -> writes msg2 off0 w m' o -> zlen m' = zlen m.
Proof. intros H1 H2. apply writes_len in H1, H2. lia. Qed.

Lemma twin_escape st st' :
  twin st st' -> res_rel twin (pack_escape s st) (pack_escape s st').
Proof.
  intros (w & m & H1 & H2 & ->). unfold pack_escape. cbn.
  rewrite (writes_same_len _ _ _ _ H1 H2). case_match; [done|].
  destruct (slice _ _ _) as [rest|]; gosimp; [|done]. case_match.
  - destruct (dddToByte rest) as [c|e| |]; gosimp; try done.
    destruct (copy_within _ _ _ _) as [b|e| |]; gosimp; try done. by exists w, m.
  - destruct (copy_within _ _ _ _) as [b|e| |]; gosimp; try done. by exists w, m.
Qed.

Lemma twin_dot st st' :
  twin st st' ->
  res_rel (sum_rel twin (fun a b => twin a.1 b.1 /\ a.2 = b.2))
    (pack_dot s compress st) (pack_dot s compress st').
Proof.
  intros (w & m & H1 & H2 & ->). unfold pack_dot. cbn -[blit].
  rewrite (writes_same_len _ _ _ _ H1 H2). do 3 (case_match; [done|]).
  destruct (Z.ltb_spec (zlen (ps_msg st)) (ps_off st + 1 + (ps_i st - ps_begin st)));
    [done|].
  destruct (isRootLabel _ _ _ _) as [root|e| |]; gosimp; try done.
  match goal with |- context [if ?b then _ else Ok (inl (ps_cm st))] =>
    match goal with |- res_rel _ (?X ≫= _) _ => generalize X end end.
  intros [[cm|p]|e| |]; gosimp; try done.
  - destruct (slice _ _ _) as [lab|] eqn:Hlab; gosimp; [|done].
    apply slice_inv in Hlab as (_ & _ & Hll & _).
    assert (zlen (byte_of (ps_i st - ps_begin st) :: lab) = 1 + (ps_i st - ps_begin st)) as Hl
      by zlia.
    pose proof (writes_len _ _ _ _ _ H1) as L1. pose proof (writes_len _ _ _ _ _ H2) as L2.
    pose proof (writes_off _ _ _ _ _ H1) as L3.
    exists (w ++ byte_of (ps_i st - ps_begin st) :: lab),
      (blit m (ps_off st) (byte_of (ps_i st - ps_begin st) :: lab)).
    cbn [ps_off ps_msg ps_i ps_ls ps_begin ps_compBegin ps_compOff ps_bs ps_wasDot ps_cm].
    split_and!; [eapply writes_trans; [exact H1|]|eapply writes_trans; [exact H2|]|done];
      apply blit_writes; lia.
  - split; [|done]. cbn. exists w, m. split_and!; [done..|]. by rewrite <- H0.
Qed.

Lemma twin_step st st' :
  twin st st' ->
  res_rel (sum_rel twin (fun a b => twin a.1 b.1 /\ a.2 = b.2))
    (pack_step s compress st) (pack_step s compress st').
Proof.
  intros H. pose proof H as (w & m & H1 & H2 & E). unfold pack_step.
  assert (ps_i st' = ps_i st /\ ps_ls st' = ps_ls st /\ ps_bs st' = ps_bs st) as (-> & -> & ->)
    by (by subst st').
  case_match; [done|]. destruct (zget _ _) as [c|]; gosimp; [|done].
  case_match; [|case_match].
  - eapply res_rel_bind; [by apply twin_escape|]. by intros.
  - eapply res_rel_bind; [by apply twin_dot|].
    intros [a|[a p]] [b|[b q]]; cbn; try done. intros [? ->]. done.
  - cbn. exists w, m. subst st'. done.
Qed.

Lemma twin_finish r r' :
  twin r.1 r'.1 -> r.2 = r'.2 ->
  res_rel (fun x y => exists w, writes msg1 off0 w x.1.1 x.1.2 /\ writes msg2 off0 w y.1.1 y.1.2 /\
                                x.1.2 = y.1.2 /\ x.2 = y.2)
    (pack_finish s r) (pack_finish s r').
Proof.
  destruct r as [st p], r' as [st' p']. cbn [fst snd]. intros (w & m & H1 & H2 & ->) <-.
  unfold pack_finish. cbn [ps_off ps_msg ps_ls ps_bs ps_cm].
  destruct (isRootLabel _ _ _ _) as [root|e| |]; gosimp; try done.
  destruct root; [by exists w|].
  pose proof (writes_len _ _ _ _ _ H1) as L1. pose proof (writes_len _ _ _ _ _ H2) as L2.
  pose proof (writes_off _ _ _ _ _ H1) as L3.
  destruct p as [p|].
  - unfold PutUint16.
    destruct (Z.le_gt_cases (ps_off st + 2) (zlen msg1)).
    + rewrite !slice_Some by lia. gosimp. cbn.
      exists (w ++ [byte_of (Z.lxor p 49152 mod 65536 / 256); byte_of (Z.lxor p 49152 mod 65536)]).
      split_and!; [eapply writes_trans; [exact H1|]|eapply writes_trans; [exact H2|]|done|done];
        by apply blit_writes; [lia|zlia|lia].
    + unfold slice. rewrite !(proj2 (Z.leb_gt (ps_off st + 2) _)) by lia.
      by rewrite !andb_false_r.
  - rewrite (writes_same_len _ _ _ _ H1 H2). case_match; [|done].
    apply Z.ltb_lt in H. cbn. exists (w ++ [x00]).
    split_and!; [eapply writes_trans; [exact H1|]|eapply writes_trans; [exact H2|]|done|done];
        by apply blit_writes; [lia|zlia|lia].
Qed.

Lemma packDomainName_independent cm :
  0 <= off0 <= zlen msg1 ->
  res_rel (fun x y => exists w, writes msg1 off0 w x.1.1 x.1.2 /\ writes msg2 off0 w y.1.1 y.1.2 /\
                                x.1.2 = y.1.2 /\ x.2 = y.2)
    (packDomainName s msg1 off0 cm compress) (packDomainName s msg2 off0 cm compress).
Proof.
  intros Hoff. unfold packDomainName. rewrite <- Hlen. destruct s as [|c s'] eqn:Es.
  { exists []. cbn. split_and!; [apply writes_nil; lia..|done|done]. }
  rewrite <- Es. case_match; [done|].
  eapply (res_rel_bind (fun a b => twin a.1 b.1 /\ a.2 = b.2)); [|intros a b []; by apply twin_finish].
  eapply loop_rel; [apply twin_step|].
  exists [], msg2. split_and!; [apply writes_nil; cbn; lia..|done].
Qed.
End Independence.

(** The canonical presentation of a name that fits the wire. *)
Definition good_labels (ls : list bytes) : Prop :=
  Forall (fun l => 1 <= zlen l < 64) ls /\ wire_len ls < 255 /\ zlen ls <= maxCompressionPointers.

Lemma writes_inj msg off w1 w2 m o : writes msg off w1 m o -> writes msg off w2 m o -> w1 = w2.
Proof.
  intros H1%writes_take H2%writes_take. rewrite H1 in H2. by apply app_inv_head in H2.
Qed.

Lemma pack_result_writes msg off cm compress ls m o cm' :
  0 <= off -> o <= zlen msg -> pack_result msg off cm compress ls m o cm' ->
  exists w, writes msg off w m o /\ zlen w <= wire_len ls + 1 /\
    (cm_ok (ztake off msg) cm ->
     (exists n, name_at (ztake off msg ++ w) off ls o n /\ n <= zlen ls) /\
     cm_ok (ztake off msg ++ w) cm').
Proof.
  intros H0 Hle (w & -> & -> & _ & Hw & H). exists w. split; [by split_and!|].
  unfold wire_name in Hw. rewrite zlen_app, zlen_wire_labels in Hw. by split.
Qed.

Lemma valid_false cm : valid cm = false -> cm = nil_map.
Proof. by destruct cm as [[|] [|]]. Qed.

Lemma carries_name ls compress :
  good_labels ls ->
  carries false (wire_len ls + 1)
    (fun msg off cm => packDomainName (show_name ls) msg off cm compress)
    UnpackDomainName (show_name ls).
Proof.
  intros (Hls & Hw & Hn) off cm L Hoff.
  assert (parse_name (show_name ls) = Some ls) as Hp.
  { apply parse_show_name. eapply Forall_impl; [exact Hls|]. intros [|]; [zlia|done]. }
  set (ref := replicate (Z.to_nat L) x00).
  assert (zlen ref = L) as Href by (unfold ref, zlen; rewrite length_replicate; lia).
  assert (forall msg, zlen msg = L -> _) as Hind
    by (intros msg Hm; apply (packDomainName_independent (show_name ls) compress ref msg off
          ltac:(lia) cm ltac:(lia))).
  pose proof (packDomainName_ensures (show_name ls) ref off cm compress ltac:(lia)) as H0.
  destruct (packDomainName (show_name ls) ref off cm compress)
    as [[[m o] cm']|[eo e]| |] eqn:E; cbn in H0; [|left|done..].
  2: { destruct H0 as [_ [[_ Hf]|H0]]; [by rewrite IsFqdn_show_name in Hf|]. split.
       - rewrite <- Href. specialize (H0 ls Hp). lapply H0; [lia|].
         eapply Forall_impl; [exact Hls|]. cbn. lia.
       - intros msg Hm. specialize (Hind msg Hm). cbn in Hind.
         destruct (packDomainName (show_name ls) msg off cm compress); try done. by eexists. }
  right. destruct H0 as (Hml & Ho & H0). specialize (H0 ls Hp).
  apply pack_result_writes in H0 as (w & Hwr & Hwl & _); [|lia|lia].
  assert (o = off + zlen w) as -> by (by destruct Hwr as (_ & -> & _)).
  exists w, cm'.
  assert (forall msg, zlen msg = L -> exists msg',
    packDomainName (show_name ls) msg off cm compress = Ok (msg', off + zlen w, cm') /\
    writes msg off w msg' (off + zlen w)) as Hall.
  { intros msg Hm. specialize (Hind msg Hm). cbn in Hind.
    destruct (packDomainName (show_name ls) msg off cm compress) as [[[m2 o2] cm2]|?| |];
      try done.
    destruct Hind as (w' & H1 & H2 & Ho2 & Hc2). cbn in *. subst o2 cm2.
    rewrite <- (writes_inj _ _ _ _ _ _ Hwr H1) in H2. by exists m2. }
  split_and!; [done|lia|by apply puts_writes; [lia|lia|]| |].
  - intros Hv. apply valid_false in Hv as ->. rewrite pack_nil_map in E. by apply pack_cm_nil in E.
  - intros pre Hpre Hok.
    set (msg := pre ++ replicate (Z.to_nat (L - off)) x00).
    assert (zlen msg = L) as Hm
      by (unfold msg; rewrite zlen_app; unfold zlen at 2; rewrite length_replicate; lia).
    assert (ztake off msg = pre) as Ht by (by apply ztake_app_eq).
    destruct (Hall msg Hm) as (msg' & E' & Hw').
    pose proof (packDomainName_ensures (show_name ls) msg off cm compress ltac:(lia)) as H1.
    rewrite E' in H1. destruct H1 as (_ & _ & H1). specialize (H1 ls Hp).
    apply pack_result_writes in H1 as (w2 & Hw2 & _ & H1); [|lia|lia].
    rewrite (writes_inj _ _ _ _ _ _ Hw2 Hw') in H1. rewrite Ht in H1.
    destruct (H1 Hok) as [(n & Hna & Hnl) Hok']. split; [done|].
    intros suf _. apply UnpackDomainName_iff; [lia|]. exists ls, n. split_and!; [|done|lia|done].
    rewrite app_assoc. by apply name_at_mono.
Qed.

Lemma UnpackDomainName_progress msg off s off' :
  0 <= off -> UnpackDomainName msg off = Ok (s, off') -> off < off'.
Proof.
  intros H0 E. apply UnpackDomainName_iff in E as (ls & n & Hn & _); [|done].
  apply name_at_end in Hn. lia.
Qed.

Lemma carries_names lss :
  Forall good_labels lss ->
  carries true (sum_with (fun ls => wire_len ls + 1) lss)
    (fun msg off cm => packDataDomainNames (map show_name lss) msg off cm false)
    (fun msg off => unpackDataDomainNames msg off (zlen msg)) (map show_name lss).
Proof.
  intros Hls. eapply carries_ext; [| |apply (carries_until
    (fun ls msg off cm => on_err (fun e => (zlen msg, e.2)) (packDomainName (show_name ls) msg off cm false))
    (fun msg off => at_len msg (UnpackDomainName msg off)) show_name (fun ls => wire_len ls + 1))].
  - intros msg off cm _. unfold packDataDomainNames, pack_each.
    generalize (msg, off, cm). induction lss as [|ls lss IH]; intros [[m o] c]; [done|].
    apply Forall_cons in Hls as [_ Hls]. cbn [map foldM].
    destruct (packDomainName (show_name ls) m o c false); cbn; [by apply IH|done..].
  - intros msg off _. unfold unpackDataDomainNames. by rewrite Z.ltb_irrefl.
  - intros msg off x off' H0 E. apply on_err_Ok in E. by eapply UnpackDomainName_progress.
  - eapply Forall_impl; [exact Hls|]. intros ls H.
    apply (carries_on_err false _ _ _ _ (fun msg e => (zlen msg, e.2)) (fun msg e => (zlen msg, e.2))).
    by apply carries_name.
  - apply Forall_forall. intros. pose proof (wire_len_nonneg x). lia.
Qed.
