(* ===== verification/Text.v ===== *)
(** * Character strings: [packTxtString], [packOctetString], [unpackString]

    The canonical escaped form of a string ([show_txt]), the two loops against
    it, and the packer contract for strings, octets and lists of strings. *)

From S2P Require Import Prelude Go Utf8 Labels Escape Names NameDecode NameEncode NameLen Wire Codec.

Definition txt_byte (b : byte) : bytes :=
  if (b =b ch_quote) || (b =b ch_bslash) then [ch_bslash; b] else
  if unprintable b then
    [ch_bslash; byte_of (48 + bval b / 100); byte_of (48 + bval b / 10 mod 10);
     byte_of (48 + bval b mod 10)]
  else [b].
Definition show_txt (l : bytes) : bytes := concat (map txt_byte l).

Lemma show_txt_app l1 l2 : show_txt (l1 ++ l2) = show_txt l1 ++ show_txt l2.
Proof. unfold show_txt. by rewrite map_app, concat_app. Qed.

Lemma show_txt_one b : show_txt [b] = txt_byte b.
Proof. unfold show_txt. cbn. by rewrite app_nil_r. Qed.

Lemma show_txt_length l : zlen l <= zlen (show_txt l) <= 4 * zlen l.
Proof.
  induction l as [|b l IH]; [done|]. change (b :: l) with ([b] ++ l).
  rewrite show_txt_app, show_txt_one, !zlen_app. unfold txt_byte.
  repeat case_match; zlia.
Qed.

(** ** [unpackString] *)

Lemma slice_end {A} (a b : list A) : slice (a ++ b) (zlen a) (zlen (a ++ b)) = Some b.
Proof.
  pose proof (slice_mid a b [] (zlen a) (zlen (a ++ b))) as H. rewrite app_nil_r in H.
  apply H; [done|zlia].
Qed.

(** [a] is what has been copied to the builder, [b] what has been read since. *)
Lemma unpackString_loop_ok r : forall a b s,
  s = show_txt a -> show_txt b = b -> (a = [] -> s = []) ->
  exists a' b', unpackString_loop (a ++ b ++ r) r (zlen (a ++ b)) (zlen a) s =
                  Ok (show_txt a', zlen a') /\
    a ++ b ++ r = a' ++ b' /\ show_txt b' = b'.
Proof.
  induction r as [|c r IH]; intros a b s -> Hb Ha; cbn [unpackString_loop].
  { exists a, b. by rewrite app_nil_r. }
  assert (slice (a ++ b ++ c :: r) (zlen a) (zlen (a ++ b)) = Some b) as Hsl
    by (apply slice_mid; [done|zlia]).
  destruct ((c =b ch_quote) || (c =b ch_bslash)) eqn:Eq; [|destruct (unprintable c) eqn:Eu].
  - rewrite Hsl. gosimp.
    specialize (IH (a ++ b ++ [c]) [] (show_txt (a ++ b ++ [c])) eq_refl eq_refl).
    destruct IH as (a' & b' & E & E' & Hb'); [by destruct a, b|].
    cbn [app] in *. rewrite <- !app_assoc in *. cbn [app] in *. rewrite ?app_nil_r in E.
    exists a', b'. split_and!; [|done|done]. rewrite <- E. f_equal; [zlia|zlia|].
    rewrite !show_txt_app, show_txt_one, Hb. unfold txt_byte. by rewrite Eq.
  - rewrite Hsl. gosimp. rewrite (escapeByte_ddd _ c Eu). gosimp.
    specialize (IH (a ++ b ++ [c]) [] (show_txt (a ++ b ++ [c])) eq_refl eq_refl).
    destruct IH as (a' & b' & E & E' & Hb'); [by destruct a, b|].
    cbn [app] in *. rewrite <- !app_assoc in *. cbn [app] in *. rewrite ?app_nil_r in E.
    exists a', b'. split_and!; [|done|done]. rewrite <- E. f_equal; [zlia|zlia|].
    rewrite !show_txt_app, show_txt_one, Hb. unfold txt_byte. by rewrite Eq, Eu.
  - destruct (IH a (b ++ [c]) (show_txt a) eq_refl) as (a' & b' & E & E' & Hb'); [|done|].
    { rewrite show_txt_app, show_txt_one, Hb. unfold txt_byte. by rewrite Eq, Eu. }
    rewrite <- !app_assoc in *. cbn [app] in *. exists a', b'. split_and!; [|done|done].
    rewrite <- E. f_equal. zlia.
Qed.

Lemma unpackString_spec pre w suf :
  zlen w <= 255 ->
  unpackString (pre ++ (byte_of (zlen w) :: w) ++ suf) (zlen pre) =
  Ok (show_txt w, zlen pre + zlen (byte_of (zlen w) :: w)).
Proof.
  intros Hw. unfold unpackString. cbn [app]. rewrite zget_mid.
  assert (bval (byte_of (zlen w)) = zlen w) as Hb by (apply byte_of_small; zlia).
  decide_ifs. gosimp. rewrite Hb. decide_ifs.
  pose proof (slice_mid (pre ++ [byte_of (zlen w)]) w suf (zlen pre + 1) (zlen pre + 1 + zlen w)) as Hs.
  rewrite <- !app_assoc in Hs. cbn [app] in Hs. rewrite Hs by zlia. gosimp.
  destruct (unpackString_loop_ok w [] [] []) as (a & b & E & Eab & Hb'); [done..|].
  cbn [app] in E, Eab. change (zlen (@nil byte)) with 0 in E. rewrite E. gosimp.
  destruct (Z.eqb_spec (zlen a) 0) as [Ea|_].
  - assert (a = []) as -> by (destruct a; [done|zlia]). cbn in Eab. subst b. rewrite Hb'.
    do 2 f_equal. zlia.
  - rewrite Eab at 1 2. rewrite slice_end. gosimp.
    rewrite <- Hb' at 1. rewrite <- show_txt_app, <- Eab. do 2 f_equal. zlia.
Qed.

(** ** [packTxtString] and [packOctetString] *)

Lemma zset_writes msg off b : 0 <= off < zlen msg -> writes msg off [b] (zset msg off b) (off + 1).
Proof.
  intros H. destruct (split_window msg off 1) as (a & m & r & -> & Ha & Hm); [lia..|].
  destruct m as [|c [|]]; [zlia| |zlia]. cbn [app] in *.
  split_and!; [lia|done|zlia|]. subst off.
  rewrite (ztake_app_eq a) by done.
  unfold zset, zlen. rewrite Nat2Z.id. rewrite insert_app_r_alt, Nat.sub_diag by lia. cbn.
  change (c :: r) with ([c] ++ r). rewrite (app_assoc a [c] r), zdrop_app_eq; [done|].
  unfold zlen. rewrite length_app. cbn. lia.
Qed.

Lemma pack_chars_byte b r msg off :
  pack_chars (txt_byte b ++ r) msg off =
  if zlen msg <=? off then fail off ErrBuf else pack_chars r (zset msg off b) (off + 1).
Proof.
  unfold txt_byte. destruct ((b =b ch_quote) || (b =b ch_bslash)) eqn:Eq.
  - cbn [app pack_chars]. rewrite beq_refl. case_match; [done|].
    assert (isDigit b = false) as Hd.
    { destruct (beq_spec b ch_quote) as [->|]; [done|]. by destruct (beq_spec b ch_bslash) as [->|]. }
    destruct r as [|d2 [|d3 r]]; [done..|]. cbn [isDDD]. by rewrite Hd.
  - apply orb_false_iff in Eq as [_ Hb]. destruct (unprintable b) eqn:Eu.
    + cbn [app pack_chars]. rewrite beq_refl. case_match; [done|].
      destruct (ddd_roundtrip b r) as [H1 H2]. rewrite H1. cbn [dddToByte] in H2.
      by injection H2 as ->.
    + cbn [app pack_chars]. by rewrite Hb.
Qed.

Lemma pack_chars_show l : forall msg off, 0 <= off <= zlen msg ->
  (off + zlen l <= zlen msg ->
   exists msg', pack_chars (show_txt l) msg off = Ok (msg', off + zlen l) /\
     writes msg off l msg' (off + zlen l)) /\
  (zlen msg < off + zlen l -> exists e, pack_chars (show_txt l) msg off = Err e).
Proof.
  induction l as [|b l IH]; intros msg off H0.
  { change (zlen (@nil byte)) with 0. rewrite Z.add_0_r. split; intros H; [|lia].
    exists msg. split; [done|]. by apply writes_nil. }
  change (show_txt (b :: l)) with (txt_byte b ++ show_txt l). rewrite pack_chars_byte, zlen_cons.
  destruct (Z.leb_spec (zlen msg) off); [split; intros; [zlia|by eexists]|].
  assert (writes msg off [b] (zset msg off b) (off + 1)) as Hw by (apply zset_writes; lia).
  destruct (IH (zset msg off b) (off + 1)) as [IH1 IH2]; [rewrite zlen_zset; lia|].
  rewrite zlen_zset in *. replace (off + (1 + zlen l)) with (off + 1 + zlen l) by lia. split.
  - intros Hle. destruct (IH1 Hle) as (msg' & E & Hm). exists msg'. split; [done|].
    exact (writes_trans _ _ _ _ _ _ _ _ Hw Hm).
  - done.
Qed.

(** The octets of a character string on the wire. *)
Definition wire_txt (l : bytes) : bytes := byte_of (zlen l) :: l.

Lemma packTxtString_show l msg off :
  zlen l <= 255 -> 0 <= off ->
  (off + zlen (wire_txt l) <= zlen msg ->
   exists msg', packTxtString (show_txt l) msg off = Ok (msg', off + zlen (wire_txt l)) /\
     writes msg off (wire_txt l) msg' (off + zlen (wire_txt l))) /\
  (zlen msg < off + zlen (wire_txt l) -> exists e, packTxtString (show_txt l) msg off = Err e).
Proof.
  intros Hl H0. unfold packTxtString, wire_txt. rewrite zlen_cons.
  pose proof (show_txt_length l). rewrite (proj2 (Z.ltb_ge (256 * 4 + 1) _)) by lia.
  rewrite orb_false_r. destruct (Z.leb_spec (zlen msg) off); [split; intros; [zlia|by eexists]|].
  destruct (pack_chars_show l msg (off + 1)) as [P1 P2]; [lia|].
  replace (off + (1 + zlen l)) with (off + 1 + zlen l) by lia. split.
  - intros Hle. destruct (P1 Hle) as (m & E & Hm). rewrite E. gosimp.
    replace (off + 1 + zlen l - off - 1) with (zlen l) by lia.
    rewrite (proj2 (Z.ltb_ge _ _)) by lia. eexists. split; [done|].
    pose proof (zset_writes m off (byte_of (zlen l))) as Hz.
    rewrite (writes_len _ _ _ _ _ Hm) in Hz. specialize (Hz ltac:(lia)).
    destruct Hm as (_ & _ & Hmle & ->).
    destruct Hz as (_ & _ & Hzle & ->). split_and!; [lia|rewrite zlen_cons; lia|lia|].
    assert (zlen (ztake (off + 1) msg) = off + 1) as Ht by (apply zlen_ztake; lia).
    assert (ztake off (ztake (off + 1) msg ++ l ++ zdrop (off + 1 + zlen l) msg) = ztake off msg) as ->.
    { unfold ztake. rewrite take_app_le.
      - rewrite take_take. f_equal. lia.
      - unfold ztake, zlen in Ht. lia. }
    by rewrite zdrop_app_eq.
  - intros Hlt. destruct (P2 ltac:(lia)) as (e & E). rewrite E. by eexists.
Qed.

Lemma writes_puts msg off w msg' off' :
  writes msg off w msg' off' -> zlen msg' = zlen msg /\ ztake (off + zlen w) msg' = ztake off msg ++ w.
Proof.
  intros H. split; [by apply writes_len in H|]. pose proof H as (_ & <- & _). by apply writes_take.
Qed.

Lemma carries_string l :
  zlen l <= 255 ->
  carries false (zlen (wire_txt l)) (plain (packString (show_txt l))) unpackString (show_txt l).
Proof.
  intros Hl. apply (carries_fixed _ _ _ _ _ (wire_txt l)); [lia| | |].
  - intros msg off H0 Hle. destruct (packTxtString_show l msg off Hl H0) as [H _].
    destruct (H Hle) as (msg' & E & Hw). exists msg'. unfold packString. rewrite E.
    split; [done|]. by apply writes_puts in Hw.
  - intros msg off H0 Hlt. destruct (packTxtString_show l msg off Hl H0) as [_ H].
    destruct (H Hlt) as (e & E). unfold packString. rewrite E. by eexists.
  - intros pre suf _. by apply unpackString_spec.
Qed.

(** A string without a backslash is copied. *)
Lemma pack_chars_plain l : forall msg off, ch_bslash ∉ l -> 0 <= off <= zlen msg ->
  (off + zlen l <= zlen msg ->
   exists msg', pack_chars l msg off = Ok (msg', off + zlen l) /\
     writes msg off l msg' (off + zlen l)) /\
  (zlen msg < off + zlen l -> exists e, pack_chars l msg off = Err e).
Proof.
  induction l as [|b l IH]; intros msg off Hn H0.
  { change (zlen (@nil byte)) with 0. rewrite Z.add_0_r. split; intros H; [|lia].
    exists msg. split; [done|]. by apply writes_nil. }
  apply not_elem_of_cons in Hn as [Hb Hn]. cbn [pack_chars]. rewrite zlen_cons, beq_ne by done.
  destruct (Z.leb_spec (zlen msg) off); [split; intros; [zlia|by eexists]|].
  assert (writes msg off [b] (zset msg off b) (off + 1)) as Hw by (apply zset_writes; lia).
  destruct (IH (zset msg off b) (off + 1) Hn) as [IH1 IH2]; [rewrite zlen_zset; lia|].
  rewrite zlen_zset in *. replace (off + (1 + zlen l)) with (off + 1 + zlen l) by lia. split.
  - intros Hle. destruct (IH1 Hle) as (msg' & E & Hm). exists msg'. split; [done|].
    exact (writes_trans _ _ _ _ _ _ _ _ Hw Hm).
  - done.
Qed.

Lemma carries_octet l :
  ch_bslash ∉ l -> zlen l <= 1025 ->
  carries true (Z.max 1 (zlen l)) (plain (packStringOctet l)) unpackStringOctet l.
Proof.
  intros Hn Hl off cm L Hoff. pose proof (zlen_nonneg l).
  assert (forall msg o, 0 <= o < zlen msg -> packOctetString l msg o = pack_chars l msg o) as Hp.
  { intros msg o Ho. unfold packOctetString.
    by rewrite (proj2 (Z.leb_gt _ _)), (proj2 (Z.ltb_ge _ _)) by lia. }
  destruct (decide (off < L /\ off + zlen l <= L)) as [[Hlt Hle]|Hno].
  - right. exists l, cm. split_and!; [lia|lia| |done|].
    + intros msg Hm. destruct (pack_chars_plain l msg off Hn) as [P _]; [lia|].
      destruct P as (msg' & E & Hw); [lia|]. exists msg'. unfold plain, packStringOctet.
      rewrite Hp, E by lia. split; [done|]. rewrite <- Hm. by eapply writes_puts.
    + intros pre Hpre Hok. split; [by apply cm_ok_app|]. intros suf ->; [|done].
      unfold unpackStringOctet, from. rewrite app_nil_r, <- Hpre, slice_end. gosimp.
      do 2 f_equal. zlia.
  - left. split; [lia|]. intros msg Hm. unfold plain, packStringOctet.
    destruct (Z.eq_dec off L) as [->|].
    { unfold packOctetString. rewrite (proj2 (Z.leb_le _ _)) by lia. by eexists. }
    destruct (pack_chars_plain l msg off Hn) as [_ P]; [lia|].
    destruct P as (e & E); [lia|]. rewrite Hp, E by lia. by eexists.
Qed.

(** ** Lists of strings *)

Lemma unpackString_progress msg off s off' : unpackString msg off = Ok (s, off') -> off < off'.
Proof.
  unfold unpackString. case_match; [done|]. intros E. inv_bind E. case_match; [done|].
  inv_bind E. inv_bind E. destruct a1 as [s' c]. pose proof (bval_range a).
  case_match; [injection E as _ <-; lia|]. inv_bind E. injection E as _ <-. lia.
Qed.

Lemma carries_packTxtString l :
  zlen l <= 255 ->
  carries false (zlen (wire_txt l)) (plain (packTxtString (show_txt l))) unpackString (show_txt l).
Proof.
  intros Hl. apply (carries_fixed _ _ _ _ _ (wire_txt l)); [lia| | |].
  - intros msg off H0 Hle. destruct (packTxtString_show l msg off Hl H0) as [H _].
    destruct (H Hle) as (msg' & E & Hw). exists msg'. rewrite E.
    split; [done|]. by apply writes_puts in Hw.
  - intros msg off H0 Hlt. by apply (packTxtString_show l msg off Hl H0).
  - intros pre suf _. by apply unpackString_spec.
Qed.

Lemma carries_txt ls :
  ls <> [] -> Forall (fun l => zlen l <= 255) ls ->
  carries true (sum_with (fun l => zlen (wire_txt l)) ls)
    (plain (packStringTxt (map show_txt ls))) unpackStringTxt (map show_txt ls).
Proof.
  intros Hne Hls.
  eapply carries_ext;
    [| |apply (carries_on_err true _
          (pack_each (fun l => plain (packTxtString (show_txt l))) ls)
          (fun msg off => unpack_until (zlen msg) unpackString msg off) (map show_txt ls)
          (fun msg e => (zlen msg, e.2)) (fun msg e => (zlen msg, e.2)))].
  - intros msg off cm _. cbv beta. rewrite <- (foldM_plain (fun x => packTxtString (show_txt x))). unfold plain, packStringTxt, packTxt, at_len.
    destruct ls as [|l ls]; [done|]. cbn [map].
    change (show_txt l :: map show_txt ls) with (map show_txt (l :: ls)).
    assert (forall xs st, foldM (fun '(m, o) x => packTxtString x m o) st (map show_txt xs) =
              foldM (fun '(m, o) x => packTxtString (show_txt x) m o) st xs) as ->.
    { induction xs as [|x xs IH]; intros [m o]; [done|]. cbn [map foldM].
      destruct (packTxtString (show_txt x) m o); [|done..]. apply IH. }
    by destruct (foldM _ _ _) as [[m o]|?| |].
  - done.
  - apply (carries_until _ unpackString).
    + intros. by eapply unpackString_progress.
    + eapply Forall_impl; [exact Hls|]. cbn. intros. by apply carries_packTxtString.
    + apply Forall_forall. intros. apply zlen_nonneg.
Qed.
