(* ===== verification/Nsec.v ===== *)
(** * Type bitmaps of NSEC, NSEC3, CSYNC (msg_helpers.go)

    [packDataNsec], [unpackDataNsec] and [typeBitMapLen]: the blocks of a
    bitmap, the packer contract on increasing types, and what the decoder
    accepts. *)

From S2P Require Import Prelude Go Utf8 Labels Escape Names NameDecode NameEncode NameLen Wire Codec.

(** The types of the byte [b] at index [j] of a block, one [if] per bit. *)
Definition nsec_bits (window j : Z) (b : byte) : list Z :=
  let bit m k := if Z.land (bval b) m =? m then [(window * 256 + j * 8 + k) mod 65536] else [] in
  bit 0x80 0 ++ bit 0x40 1 ++ bit 0x20 2 ++ bit 0x10 3 ++
  bit 0x8 4 ++ bit 0x4 5 ++ bit 0x2 6 ++ bit 0x1 7.

(** [for j, b := range msg[off : off+length]]. *)
Fixpoint nsec_block (window j : Z) (w : bytes) : list Z :=
  match w with
  | [] => []
  | b :: w => nsec_bits window j b ++ nsec_block window (j + 1) w
  end.

(** One block: [nsec], [off] and [lastwindow]. *)
Definition unpack_nsec_step (msg : bytes) (st : list Z * Z * Z)
    : wire (list Z * Z * Z + list Z * Z) :=
  let '(nsec, off, lastwindow) := st in
  if negb (off <? zlen msg) then Ok (inr (nsec, off)) else
  if zlen msg <? off + 2
  then fail (zlen msg) (MkError "overflow unpacking NSEC(3)") else
  b0 ← index (zget msg off);
  b1 ← index (zget msg (off + 1));
  let window := bval b0 in
  let length := bval b1 in
  let off := off + 2 in
  if window <=? lastwindow
  then fail (zlen msg) (MkError "out of order NSEC(3) block in type bitmap") else
  if length =? 0
  then fail (zlen msg) (MkError "empty NSEC(3) block in type bitmap") else
  if 32 <? length
  then fail (zlen msg) (MkError "NSEC(3) block too long in type bitmap") else
  if zlen msg <? off + length
  then fail (zlen msg) (MkError "overflowing NSEC(3) block in type bitmap") else
  w ← index (slice msg off (off + length));
  Ok (inl (nsec ++ nsec_block window 0 w, off + length, window)).

Definition unpackDataNsec (msg : bytes) (off : Z) : wire (list Z * Z) :=
  loop (S (length msg)) (unpack_nsec_step msg) ([], off, -1).

(** One type of [typeBitMapLen]: [l], [lastwindow], [lastlength]. *)
Definition bitmap_len_step (st : Z * Z * Z) (t : Z) : Z * Z * Z :=
  let '(l, lastwindow, lastlength) := st in
  let window := t / 256 in
  let length := (t - window * 256) / 8 + 1 in
  let '(l, lastlength) :=
    if (lastwindow <? window) && negb (lastlength =? 0) then (l + lastlength + 2, 0)
    else (l, lastlength) in
  if (window <? lastwindow) || (length <? lastlength) then (l, lastwindow, lastlength)
  else (l, window, length).

Definition typeBitMapLen (bitmap : list Z) : Z :=
  let '(l, _, lastlength) := fold_left bitmap_len_step bitmap (0, 0, 0) in
  l + lastlength + 2.

(** The three writes of [packDataNsec] for the type [t]. *)
Definition set_type (msg : bytes) (off t : Z) : wire bytes :=
  let window := t / 256 in
  let length := (t - window * 256) / 8 + 1 in
  let msg := zset msg off (byte_of window) in
  let msg := zset msg (off + 1) (byte_of length) in
  b ← index (zget msg (off + 1 + length));
  Ok (zset msg (off + 1 + length) (byte_of (Z.lor (bval b) (Z.shiftl 1 (7 - t mod 8) mod 256)))).

(** One type of [packDataNsec]: the buffer, [off], [lastwindow], [lastlength]. *)
Definition pack_nsec_step (st : bytes * Z * Z * Z) (t : Z) : wire (bytes * Z * Z * Z) :=
  let '(msg, off, lastwindow, lastlength) := st in
  let window := t / 256 in
  let length := (t - window * 256) / 8 + 1 in
  let '(off, lastlength) :=
    if (lastwindow <? window) && negb (lastlength =? 0) then (off + lastlength + 2, 0)
    else (off, lastlength) in
  if (window <? lastwindow) || (length <? lastlength)
  then fail (zlen msg) (MkError "nsec bits out of order") else
  if zlen msg <? off + 2 + length
  then fail (zlen msg) (MkError "overflow packing nsec") else
  msg ← set_type msg off t;
  Ok (msg, off, window, length).

Definition packDataNsec (bitmap : list Z) (msg : bytes) (off : Z) : wire (bytes * Z) :=
  if decide (bitmap = []) then Ok (msg, off) else
  if zlen msg <? off then fail off (MkError "overflow packing nsec") else
  let maxLen := typeBitMapLen bitmap in
  let n := Z.min maxLen (zlen msg - off) in
  msg ← put_at msg off (replicate (Z.to_nat n) x00);
  '(msg, off, _, lastlength) ← foldM pack_nsec_step (msg, off, 0, 0) bitmap;
  Ok (msg, off + lastlength + 2).

(** ** Blocks *)

(** A block: its window and its bytes. *)
Definition block : Type := Z * bytes.
Definition enc_block (k : block) : bytes := byte_of k.1 :: byte_of (zlen k.2) :: k.2.
Definition enc_blocks (ks : list block) : bytes := concat (map enc_block ks).
Definition block_types (k : block) : list Z := nsec_block k.1 0 k.2.
Definition blocks_types (ks : list block) : list Z := concat (map block_types ks).

Definition block_ok (k : block) : Prop := 0 <= k.1 < 256 /\ 1 <= zlen k.2 <= 32.
(** Windows above [w], in increasing order. *)
Fixpoint windows_from (w : Z) (ks : list block) : Prop :=
  match ks with [] => True | k :: ks => w < k.1 /\ block_ok k /\ windows_from k.1 ks end.

Lemma zlen_enc_block k : zlen (enc_block k) = zlen k.2 + 2.
Proof. unfold enc_block. zlia. Qed.

Lemma unpackNsec_loop ks : forall pre acc last fuel,
  windows_from last ks -> (length (enc_blocks ks) < fuel)%nat ->
  loop fuel (unpack_nsec_step (pre ++ enc_blocks ks)) (acc, zlen pre, last) =
    Ok (acc ++ blocks_types ks, zlen pre + zlen (enc_blocks ks)).
Proof.
  induction ks as [|k ks IH]; intros pre acc last [|fuel] Hw Hf; try (simpl in Hf; lia).
  { rewrite (loop_done _ _ _ (acc, zlen pre)).
    - cbn. by rewrite app_nil_r, Z.add_0_r.
    - unfold unpack_nsec_step. cbn. by rewrite app_nil_r, Z.ltb_irrefl. }
  destruct Hw as (Hlast & [Hk Hk2] & Hw). destruct k as [w bs]. cbn [fst snd] in *.
  change (enc_blocks ((w, bs) :: ks)) with (enc_block (w, bs) ++ enc_blocks ks) in *.
  rewrite length_app in Hf. pose proof (zlen_enc_block (w, bs)) as Hl. cbn [snd] in Hl.
  rewrite (loop_next _ _ _ (acc ++ block_types (w, bs), zlen (pre ++ enc_block (w, bs)), w)).
  - rewrite app_assoc, IH; [|done|unfold zlen in Hl; lia].
    change (blocks_types ((w, bs) :: ks)) with (block_types (w, bs) ++ blocks_types ks).
    rewrite <- app_assoc. f_equal. f_equal. zlia.
  - unfold unpack_nsec_step, enc_block. cbn [fst snd app].
    decide_ifs. rewrite zget_mid, zget_from by lia.
    change (zget (byte_of w :: byte_of (zlen bs) :: bs ++ enc_blocks ks) 1)
      with (Some (byte_of (zlen bs))). gosimp.
    rewrite !byte_of_small by lia. decide_ifs.
    pose proof (slice_mid (pre ++ [byte_of w; byte_of (zlen bs)]) bs (enc_blocks ks)
                  (zlen pre + 2) (zlen pre + 2 + zlen bs)) as Hs.
    rewrite <- !app_assoc in Hs. cbn [app] in Hs. rewrite Hs by zlia. gosimp.
    do 4 f_equal. zlia.
Qed.

(** ** Packing one type *)

(** The bit of [t] added to the last byte. *)
Definition add_bit (b : byte) (k : Z) : byte :=
  byte_of (Z.lor (bval b) (Z.shiftl 1 (7 - k) mod 256)).

(** Adding a bit below those already set appends its type. *)
Lemma add_bit_types w j b k :
  0 <= k < 8 -> bval b mod 2 ^ (8 - k) = 0 ->
  nsec_bits w j (add_bit b k) = nsec_bits w j b ++ [(w * 256 + j * 8 + k) mod 65536] /\
  bval (add_bit b k) mod 2 ^ (7 - k) = 0.
Proof.
  intros Hk.
  assert (k = 0 \/ k = 1 \/ k = 2 \/ k = 3 \/ k = 4 \/ k = 5 \/ k = 6 \/ k = 7) as Hc by lia.
  destruct Hc as [->|[->|[->|[->|[->|[->|[->| ->]]]]]]];
    destruct b; intros H; first [discriminate H | split; reflexivity].
Qed.

Lemma nsec_block_app w j l1 l2 :
  nsec_block w j (l1 ++ l2) = nsec_block w j l1 ++ nsec_block w (j + zlen l1) l2.
Proof.
  revert j. induction l1 as [|b l1 IH]; intros j; cbn [nsec_block app].
  { cbn. by rewrite Z.add_0_r. }
  rewrite IH, <- app_assoc. do 3 f_equal. zlia.
Qed.

Lemma nsec_block_zeros w j n : nsec_block w j (replicate n x00) = [].
Proof. revert j. induction n as [|n IH]; intros j; [done|]. cbn [replicate nsec_block]. by rewrite IH. Qed.

Lemma zset_mid {A} (l1 : list A) x l2 v i : i = zlen l1 -> zset (l1 ++ x :: l2) i v = l1 ++ v :: l2.
Proof.
  intros ->. unfold zset, zlen. rewrite Nat2Z.id.
  rewrite insert_app_r_alt, Nat.sub_diag by lia. done.
Qed.

Lemma set_type_ok A h1 h2 q b rest t :
  zlen q = (t - t / 256 * 256) / 8 ->
  set_type (A ++ h1 :: h2 :: q ++ b :: rest) (zlen A) t =
  Ok (A ++ enc_block (t / 256, q ++ [add_bit b (t mod 8)]) ++ rest).
Proof.
  intros Hq. unfold set_type. rewrite zset_mid by done.
  set (w := byte_of (t / 256)). set (len := (t - t / 256 * 256) / 8 + 1) in *.
  change (A ++ w :: h2 :: q ++ b :: rest) with (A ++ [w] ++ h2 :: q ++ b :: rest).
  rewrite (app_assoc A [w]), zset_mid by zlia.
  change ((A ++ [w]) ++ byte_of len :: q ++ b :: rest)
    with ((A ++ [w]) ++ [byte_of len] ++ q ++ b :: rest).
  rewrite (app_assoc _ [byte_of len]), (app_assoc _ q).
  replace (zlen A + 1 + len) with (zlen (((A ++ [w]) ++ [byte_of len]) ++ q)) by zlia.
  rewrite zget_mid. gosimp. rewrite zset_mid by done. f_equal.
  unfold enc_block, add_bit. cbn [fst snd]. rewrite <- !app_assoc. cbn [app].
  do 3 f_equal; [|by rewrite <- app_assoc]. f_equal. unfold len. zlia.
Qed.

(** The last byte of a block holds no bit past that of its last type [t]. *)
Definition last_ok (t : Z) (bs : bytes) : Prop :=
  exists q b, bs = q ++ [b] /\ zlen q = (t - t / 256 * 256) / 8 /\ bval b mod 2 ^ (7 - t mod 8) = 0.

Lemma type_value t :
  0 <= t < 65536 -> (t / 256 * 256 + (t - t / 256 * 256) / 8 * 8 + t mod 8) mod 65536 = t.
Proof. intros. rewrite Z.mod_small; Z.div_mod_to_equations; lia. Qed.

(** [q] and [b] hold the types [ts], below [t] in the last byte. *)
Lemma set_type_types q b t ts :
  0 <= t < 65536 -> zlen q = (t - t / 256 * 256) / 8 ->
  nsec_block (t / 256) 0 (q ++ [b]) = ts -> bval b mod 2 ^ (8 - t mod 8) = 0 ->
  block_types (t / 256, q ++ [add_bit b (t mod 8)]) = ts ++ [t] /\
  last_ok t (q ++ [add_bit b (t mod 8)]) /\
  block_ok (t / 256, q ++ [add_bit b (t mod 8)]).
Proof.
  intros Ht Hq Hts Hb. pose proof (Z.mod_pos_bound t 8 ltac:(lia)) as Hk.
  destruct (add_bit_types (t / 256) (zlen q) b (t mod 8) Hk Hb) as [H1 H2].
  split_and!.
  - unfold block_types. cbn [fst snd]. rewrite <- Hts, !nsec_block_app. cbn [nsec_block].
    rewrite !app_nil_r, Z.add_0_l, H1, Hq, type_value by done. by rewrite app_assoc.
  - by exists q, (add_bit b (t mod 8)).
  - unfold block_ok. cbn [fst snd]. rewrite zlen_app, Hq. change (zlen [_]) with 1.
    Z.div_mod_to_equations. lia.
Qed.

Lemma replicate_add {A} n m (x : A) : replicate (n + m) x = replicate n x ++ replicate m x.
Proof. induction n as [|n IH]; [done|]. cbn. by rewrite IH. Qed.

Lemma zlen_replicate {A} n (x : A) : zlen (replicate n x) = Z.of_nat n.
Proof. unfold zlen. by rewrite length_replicate. Qed.

(** The bytes of a block once the type [t] is added: padded, then its bit. *)
Definition ext_bytes (bs : bytes) (t : Z) : bytes :=
  let j := (t - t / 256 * 256) / 8 in
  let p := bs ++ replicate (Z.to_nat (j + 1 - zlen bs)) x00 in
  ztake j p ++ [add_bit (default x00 (zget p j)) (t mod 8)].

Lemma ext_bytes_mid bs t q b :
  zlen q = (t - t / 256 * 256) / 8 ->
  bs ++ replicate (Z.to_nat ((t - t / 256 * 256) / 8 + 1 - zlen bs)) x00 = q ++ [b] ->
  ext_bytes bs t = q ++ [add_bit b (t mod 8)].
Proof.
  intros Hq E. unfold ext_bytes. rewrite E, <- Hq, zget_mid. by rewrite ztake_app_eq.
Qed.

(** The first type of a block, in a zeroed part of the buffer. *)
Lemma set_type_fresh A z rest t :
  0 <= t < 65536 -> 2 + ((t - t / 256 * 256) / 8 + 1) <= Z.of_nat z ->
  exists z', let bs := ext_bytes [] t in
    set_type (A ++ replicate z x00 ++ rest) (zlen A) t =
      Ok (A ++ enc_block (t / 256, bs) ++ replicate z' x00 ++ rest) /\
    zlen bs = (t - t / 256 * 256) / 8 + 1 /\ Z.of_nat z' = Z.of_nat z - 2 - zlen bs /\
    block_types (t / 256, bs) = [t] /\ last_ok t bs /\ block_ok (t / 256, bs).
Proof.
  intros Ht Hz. set (j := (t - t / 256 * 256) / 8) in *.
  assert (0 <= j) by (unfold j; Z.div_mod_to_equations; lia).
  set (q := replicate (Z.to_nat j) x00).
  assert (zlen q = j) as Hq by (unfold q; rewrite zlen_replicate; lia).
  exists (z - 3 - Z.to_nat j)%nat.
  rewrite (ext_bytes_mid [] t q x00); [|done|].
  2: { fold j. rewrite Z.sub_0_r. replace (Z.to_nat (j + 1)) with (Z.to_nat j + 1)%nat by lia.
       cbn [app]. by rewrite replicate_add. }
  cbn zeta.
  assert (replicate z x00 = x00 :: x00 :: q ++ x00 :: replicate (z - 3 - Z.to_nat j) x00) as ->.
  { replace z with (2 + (Z.to_nat j + (1 + (z - 3 - Z.to_nat j))))%nat at 1 by lia.
    by rewrite !replicate_add. }
  destruct (set_type_types q x00 t [] Ht Hq) as (H1 & H2 & H3).
  { unfold q. change [x00] with (replicate 1 x00). rewrite <- replicate_add. apply nsec_block_zeros. }
  { by rewrite Z.mod_0_l by (apply Z.pow_nonzero; pose proof (Z.mod_pos_bound t 8); lia). }
  cbn [app]. rewrite <- app_assoc. cbn [app].
  rewrite set_type_ok by done. split_and!; try done; zlia.
Qed.

(** A later type of a block. *)
Lemma set_type_extend A h1 h2 bs z rest t0 t :
  0 <= t0 < t -> t < 65536 -> t0 / 256 = t / 256 -> last_ok t0 bs ->
  (t - t / 256 * 256) / 8 + 1 <= zlen bs + Z.of_nat z ->
  exists z', let bs' := ext_bytes bs t in
    set_type (A ++ h1 :: h2 :: bs ++ replicate z x00 ++ rest) (zlen A) t =
      Ok (A ++ enc_block (t / 256, bs') ++ replicate z' x00 ++ rest) /\
    zlen bs' = (t - t / 256 * 256) / 8 + 1 /\ Z.of_nat z' = Z.of_nat z - (zlen bs' - zlen bs) /\
    block_types (t / 256, bs') = block_types (t / 256, bs) ++ [t] /\ last_ok t bs' /\
    block_ok (t / 256, bs').
Proof.
  intros H0 Ht Hw (q0 & b0 & -> & Hq0 & Hb0) Hz. rewrite Hw in Hq0.
  set (j := (t - t / 256 * 256) / 8) in *. set (j0 := (t0 - t / 256 * 256) / 8) in *.
  assert (0 <= j0 <= j) as Hj by (unfold j, j0; Z.div_mod_to_equations; lia).
  destruct (Z.eq_dec j0 j) as [Ej|Ej].
  - assert (zlen q0 = j) as Hq by lia.
    destruct (set_type_types q0 b0 t _ ltac:(lia) Hq eq_refl) as (H1 & H2 & H3).
    { assert (t0 mod 8 < t mod 8) by (unfold j, j0 in Ej; Z.div_mod_to_equations; lia).
      pose proof (Z.mod_pos_bound t 8 ltac:(lia)). pose proof (Z.mod_pos_bound t0 8 ltac:(lia)).
      apply Z.mod_divide in Hb0; [|apply Z.pow_nonzero; lia].
      apply Z.mod_divide; [apply Z.pow_nonzero; lia|]. etransitivity; [|exact Hb0].
      exists (2 ^ (7 - t0 mod 8 - (8 - t mod 8))). rewrite <- Z.pow_add_r by lia. f_equal. lia. }
    exists z. rewrite (ext_bytes_mid (q0 ++ [b0]) t q0 b0); [|done|].
    2: { fold j. rewrite zlen_app, Hq. change (zlen [b0]) with 1.
         replace (j + 1 - (j + 1)) with 0 by lia. cbn. by rewrite app_nil_r. }
    cbn zeta. rewrite <- app_assoc. cbn [app].
    rewrite set_type_ok by done. split_and!; try done; zlia.
  - set (q := (q0 ++ [b0]) ++ replicate (Z.to_nat (j - j0 - 1)) x00).
    assert (zlen q = j) as Hq by (unfold q; rewrite !zlen_app, zlen_replicate; zlia).
    destruct (set_type_types q x00 t (block_types (t / 256, q0 ++ [b0])) ltac:(lia) Hq)
      as (H1 & H2 & H3).
    { unfold q. rewrite <- app_assoc. change [x00] with (replicate 1 x00).
      rewrite <- replicate_add, nsec_block_app, nsec_block_zeros, app_nil_r. done. }
    { by rewrite Z.mod_0_l by (apply Z.pow_nonzero; pose proof (Z.mod_pos_bound t 8); lia). }
    exists (z - 1 - Z.to_nat (j - j0 - 1))%nat.
    rewrite (ext_bytes_mid (q0 ++ [b0]) t q x00); [|done|].
    2: { fold j. unfold q. rewrite zlen_app, Hq0, <- (app_assoc (q0 ++ [b0])).
         change (zlen [b0]) with 1.
         f_equal. change [x00] with (replicate 1 x00). rewrite <- replicate_add. f_equal.
         fold j0. lia. }
    cbn zeta.
    assert ((q0 ++ [b0]) ++ replicate z x00 ++ rest =
            q ++ x00 :: replicate (z - 1 - Z.to_nat (j - j0 - 1)) x00 ++ rest) as ->.
    { unfold q. replace z with (Z.to_nat (j - j0 - 1) + (1 + (z - 1 - Z.to_nat (j - j0 - 1))))%nat
        at 1 by (rewrite zlen_app in Hz; change (zlen [b0]) with 1 in Hz; lia).
      rewrite !replicate_add, <- !app_assoc. done. }
    rewrite set_type_ok by done. rewrite zlen_app in Hz. change (zlen [b0]) with 1 in Hz.
    split_and!; try done; zlia.
Qed.

(** ** Packing an increasing list of types *)

Lemma bitmap_len_step_mono st t :
  0 <= t -> 0 <= st.1.1 -> 0 <= st.2 ->
  let st' := bitmap_len_step st t in
  st.1.1 + st.2 <= st'.1.1 + st'.2 /\ 0 <= st'.1.1 /\ 0 <= st'.2.
Proof.
  destruct st as [[l lw] ll]. cbn [fst snd]. intros Ht Hl Hll. unfold bitmap_len_step.
  assert (0 <= (t - t / 256 * 256) / 8) by (Z.div_mod_to_equations; lia).
  destruct ((lw <? t / 256) && negb (ll =? 0)).
  - destruct ((t / 256 <? lw) || ((t - t / 256 * 256) / 8 + 1 <? 0)); cbn; lia.
  - destruct ((t / 256 <? lw) || ((t - t / 256 * 256) / 8 + 1 <? ll)) eqn:E; cbn; [lia|].
    apply orb_false_iff in E as [_ E%Z.ltb_ge]. lia.
Qed.

Lemma bitmap_len_mono ts : forall st,
  0 <= st.1.1 -> 0 <= st.2 -> Forall (fun t => 0 <= t) ts ->
  let st' := fold_left bitmap_len_step ts st in st.1.1 + st.2 <= st'.1.1 + st'.2.
Proof.
  induction ts as [|t ts IH]; intros st Hl Hll Hts; [cbn; lia|].
  apply Forall_cons in Hts as [Ht Hts]. cbn [fold_left].
  destruct (bitmap_len_step_mono st t Ht Hl Hll) as (H1 & H2 & H3).
  specialize (IH _ H2 H3 Hts). cbn zeta in *. lia.
Qed.

(** Increasing types above [t0]. *)
Fixpoint types_from (t0 : Z) (ts : list Z) : Prop :=
  match ts with [] => True | t :: ts => t0 < t < 65536 /\ types_from t ts end.

(** The blocks of a list of types: those complete, the current window and its
    bytes. *)
Definition add_type (st : list block * Z * bytes) (t : Z) : list block * Z * bytes :=
  let '(ks, w, bs) := st in
  if (w <? t / 256) && negb (zlen bs =? 0) then (ks ++ [(w, bs)], t / 256, ext_bytes [] t)
  else (ks, t / 256, ext_bytes bs t).

Definition blocks_of (ts : list Z) : list block :=
  let '(ks, w, bs) := fold_left add_type ts ([], 0, []) in ks ++ [(w, bs)].

Section PackNsec.
Context (pre : bytes) (L N : Z).
Let off0 : Z := zlen pre.

(** The types [p] have been packed, [t0] last: blocks [ks], then the current
    block, then the zeroed rest of the room. *)
Record nsec_inv (p : list Z) (t0 : Z) (st : bytes * Z * Z * Z) (ks : list block)
    (bs : bytes) (z : nat) (rest : bytes) : Prop := {
  ni_add : fold_left add_type p ([], 0, []) = (ks, t0 / 256, bs);
  ni_len : fold_left bitmap_len_step p (0, 0, 0) = (zlen (enc_blocks ks), t0 / 256, zlen bs);
  ni_st : st = (pre ++ enc_blocks ks ++ enc_block (t0 / 256, bs) ++ replicate z x00 ++ rest,
                off0 + zlen (enc_blocks ks), t0 / 256, zlen bs);
  ni_msg : zlen st.1.1.1 = L;
  ni_room : Z.of_nat z = Z.min N (L - off0) - (zlen (enc_blocks ks) + 2 + zlen bs);
  ni_blocks : windows_from (-1) (ks ++ [(t0 / 256, bs)]);
  ni_types : blocks_types ks ++ block_types (t0 / 256, bs) = p;
  ni_last : last_ok t0 bs;
  ni_range : 0 <= t0 < 65536 }.

Lemma windows_from_app w ks k :
  windows_from w (ks ++ [k]) <-> windows_from w ks /\ (if decide (ks = []) then w else
    (List.last ks (0, [])).1) < k.1 /\ block_ok k.
Proof.
  revert w. induction ks as [|k0 ks IH]; intros w; cbn [windows_from app].
  - rewrite decide_True by done. intuition.
  - rewrite IH, (decide_False (P := k0 :: ks = [])) by done.
    destruct ks as [|k1 ks]; [rewrite decide_True by done|rewrite decide_False by done]; cbn;
      intuition.
Qed.

Lemma enc_blocks_snoc ks k : enc_blocks (ks ++ [k]) = enc_blocks ks ++ enc_block k.
Proof. unfold enc_blocks. rewrite map_app, concat_app. cbn. by rewrite app_nil_r. Qed.

Lemma blocks_types_snoc ks k : blocks_types (ks ++ [k]) = blocks_types ks ++ block_types k.
Proof. unfold blocks_types. rewrite map_app, concat_app. cbn. by rewrite app_nil_r. Qed.

(** One more type: it fits, or the call fails. *)
Lemma nsec_step p t0 st ks bs z rest t ts :
  nsec_inv p t0 st ks bs z rest -> t0 < t < 65536 ->
  Forall (fun t => 0 <= t) ts -> typeBitMapLen (p ++ t :: ts) = N ->
  (exists e, pack_nsec_step st t = Err e /\ L < off0 + N) \/
  exists st' ks' bs' z', pack_nsec_step st t = Ok st' /\ nsec_inv (p ++ [t]) t st' ks' bs' z' rest.
Proof.
  intros [H0 H1 -> H3 H4 H5 H6 H7 H8] Ht Hts HN. cbn [fst snd] in H3.
  set (len := (t - t / 256 * 256) / 8 + 1).
  assert (0 < len <= 32) as Hlen by (unfold len; Z.div_mod_to_equations; lia).
  assert (t0 / 256 <= t / 256) as Hwin by (apply Z.div_le_mono; lia).
  pose proof (zlen_nonneg bs) as Hbs.
  assert (0 < zlen bs) as Hbs0 by (destruct H7 as (q & b & -> & _); zlia).
  (* the room the whole bitmap needs *)
  assert (let st' := bitmap_len_step (zlen (enc_blocks ks), t0 / 256, zlen bs) t in
          st'.1.1 + st'.2 + 2 <= N) as HNle.
  { rewrite <- HN. unfold typeBitMapLen. rewrite fold_left_app, H1. cbn [fold_left].
    destruct (bitmap_len_step_mono (zlen (enc_blocks ks), t0 / 256, zlen bs) t) as (_ & M2 & M3);
      [lia|cbn [fst snd]; zlia|cbn [fst snd]; zlia|].
    pose proof (bitmap_len_mono ts _ M2 M3 Hts) as M. cbn zeta in *.
    destruct (fold_left _ ts _) as [[a b] c]. cbn [fst snd] in *. lia. }
  assert (fold_left bitmap_len_step (p ++ [t]) (0, 0, 0) =
          bitmap_len_step (zlen (enc_blocks ks), t0 / 256, zlen bs) t) as Hfold
    by (rewrite fold_left_app, H1; done).
  remember (bitmap_len_step (zlen (enc_blocks ks), t0 / 256, zlen bs) t) as r eqn:Hr.
  revert Hr HNle. unfold bitmap_len_step, pack_nsec_step. fold len.
  rewrite H3. pose proof (zlen_enc_block (t0 / 256, bs)) as Heb. cbn [snd] in Heb.
  destruct (Z.ltb_spec (t0 / 256) (t / 256)) as [Hnew|Hsame].
  - (* a new block *)
    rewrite (proj2 (Z.eqb_neq (zlen bs) 0)) by lia. cbn [andb negb fst snd].
    rewrite (proj2 (Z.ltb_ge (t / 256) _)), (proj2 (Z.ltb_ge len 0)) by lia. cbn [orb].
    intros -> HNle. cbn [fst snd] in HNle |- *.
    destruct (Z.ltb_spec L (off0 + zlen (enc_blocks ks) + zlen bs + 2 + 2 + len)) as [Hov|Hfit].
    { left. eexists. split; [done|]. lia. }
    right. destruct (set_type_fresh (pre ++ enc_blocks (ks ++ [(t0 / 256, bs)])) z rest t)
      as (z' & E & E1 & E2 & E3 & E4 & E5); [lia|fold len; lia|].
    set (bs' := ext_bytes [] t) in *.
    rewrite enc_blocks_snoc, <- !app_assoc in E.
    replace (zlen (pre ++ enc_blocks ks ++ enc_block (t0 / 256, bs)))
      with (off0 + zlen (enc_blocks ks) + zlen bs + 2) in E by (unfold off0; zlia).
    fold len in E1. rewrite E. gosimp.
    eexists _, (ks ++ [(t0 / 256, bs)]), bs', z'. split; [reflexivity|].
    assert (zlen (enc_blocks (ks ++ [(t0 / 256, bs)])) = zlen (enc_blocks ks) + zlen bs + 2) as Hz
      by (rewrite enc_blocks_snoc, zlen_app; lia).
    split.
    + rewrite fold_left_app, H0. cbn [fold_left add_type].
      rewrite (proj2 (Z.ltb_lt _ _)), (proj2 (Z.eqb_neq (zlen bs) 0)) by lia. done.
    + by rewrite Hfold, Hz, E1.
    + rewrite Hz, enc_blocks_snoc, E1, <- !app_assoc. by rewrite !Z.add_assoc.
    + cbn [fst snd]. rewrite <- H3. pose proof (zlen_enc_block (t / 256, bs')) as Hb'.
      cbn [snd] in Hb'. rewrite !zlen_app, !zlen_replicate. lia.
    + rewrite Hz. lia.
    + apply windows_from_app. split; [done|].
      rewrite decide_False by (by destruct ks). rewrite last_last. by split.
    + by rewrite blocks_types_snoc, E3, H6.
    + done.
    + lia.
  - (* the same block *)
    assert (t0 / 256 = t / 256) as Hw by lia. cbn [andb fst snd].
    assert (zlen bs <= len) as Hll.
    { destruct H7 as (q & b & -> & Hq & _). rewrite zlen_app, Hq. unfold len.
      change (zlen [b]) with 1. Z.div_mod_to_equations. lia. }
    rewrite (proj2 (Z.ltb_ge (t / 256) _)), (proj2 (Z.ltb_ge len _)) by lia. cbn [orb fst snd].
    intros -> HNle. cbn [fst snd] in HNle.
    destruct (Z.ltb_spec L (off0 + zlen (enc_blocks ks) + 2 + len)) as [Hov|Hfit].
    { left. eexists. split; [done|]. lia. }
    right. destruct (set_type_extend (pre ++ enc_blocks ks) (byte_of (t0 / 256))
                       (byte_of (zlen bs)) bs z rest t0 t)
      as (z' & E & E1 & E2 & E3 & E4 & E5); [lia|lia|done|done|fold len; lia|].
    set (bs' := ext_bytes bs t) in *.
    rewrite <- !app_assoc in E. fold len in E1.
    replace (zlen (pre ++ enc_blocks ks)) with (off0 + zlen (enc_blocks ks)) in E
      by (unfold off0; zlia).
    unfold enc_block at 1. cbn [fst snd app] in E |- *. rewrite E. gosimp.
    eexists _, ks, bs', z'. split; [reflexivity|]. split.
    + rewrite fold_left_app, H0. cbn [fold_left add_type].
      rewrite (proj2 (Z.ltb_ge _ _)) by lia. done.
    + by rewrite Hfold, E1.
    + by rewrite E1.
    + cbn [fst snd]. rewrite <- H3. pose proof (zlen_enc_block (t / 256, bs')) as Hb'.
      cbn [snd] in Hb'. rewrite !zlen_app, !zlen_replicate. lia.
    + lia.
    + apply windows_from_app. apply windows_from_app in H5 as (W1 & W2 & W3).
      cbn [fst] in *. rewrite <- Hw at 1. by split_and!.
    + rewrite E3, app_assoc, <- Hw, H6. done.
    + done.
    + lia.
Qed.

Lemma nsec_fold ts : forall p t0 st ks bs z rest,
  nsec_inv p t0 st ks bs z rest -> types_from t0 ts -> typeBitMapLen (p ++ ts) = N ->
  (exists e, foldM pack_nsec_step st ts = Err e /\ L < off0 + N) \/
  exists st' t' ks' bs' z', foldM pack_nsec_step st ts = Ok st' /\
    nsec_inv (p ++ ts) t' st' ks' bs' z' rest.
Proof.
  induction ts as [|t ts IH]; intros p t0 st ks bs z rest H Hts HN.
  { right. exists st, t0, ks, bs, z. by rewrite app_nil_r. }
  destruct Hts as [Ht Hts].
  assert (Forall (fun t => 0 <= t) ts) as Hpos.
  { assert (0 <= t) as H0 by (pose proof (ni_range _ _ _ _ _ _ _ H); lia).
    clear -Hts H0. revert t H0 Hts. induction ts as [|t' ts IH]; intros t H0 Hts; [constructor|].
    destruct Hts as [? Hts]. constructor; [lia|]. by apply (IH t'); [lia|]. }
  cbn [foldM].
  destruct (nsec_step p t0 st ks bs z rest t ts H Ht Hpos HN)
    as [(e & -> & HL)|(st' & ks' & bs' & z' & -> & H')]; [left; by exists e|]. gosimp.
  specialize (IH (p ++ [t]) t st' ks' bs' z' rest H' Hts).
  rewrite <- app_assoc in IH. by apply IH.
Qed.
End PackNsec.

Lemma types_from_pos t0 ts : -1 <= t0 -> types_from t0 ts -> Forall (fun t => 0 <= t) ts.
Proof.
  revert t0. induction ts as [|t' ts IH]; intros t H0 Hts; [constructor|].
  destruct Hts as [? Hts]. constructor; [lia|]. by apply (IH t'); [lia|].
Qed.

(** The zeroed buffer [packDataNsec] starts from. *)
Lemma zeroed msg off n :
  0 <= off -> 0 <= n -> off + n <= zlen msg ->
  exists rest, @put_at (Z * error) msg off (replicate (Z.to_nat n) x00) =
    Ok (ztake off msg ++ replicate (Z.to_nat n) x00 ++ rest) /\
    zlen (ztake off msg ++ replicate (Z.to_nat n) x00 ++ rest) = zlen msg.
Proof.
  intros H0 Hn Hle.
  assert (zlen (replicate (Z.to_nat n) x00) = n) as Hz by (rewrite zlen_replicate; lia).
  destruct (put_at_writes (E := Z * error) msg off (replicate (Z.to_nat n) x00))
    as (m & E & Hw); [done|lia|].
  exists (zdrop (off + n) msg). rewrite E. pose proof (writes_len _ _ _ _ _ Hw) as Hl.
  destruct Hw as (_ & _ & _ & ->). rewrite Hz in *. done.
Qed.

(** The first type. *)
Lemma nsec_first pre L N z rest t ts :
  0 <= t < 65536 -> Forall (fun t => 0 <= t) ts -> typeBitMapLen (t :: ts) = N ->
  Z.of_nat z = Z.min N (L - zlen pre) ->
  zlen (pre ++ replicate z x00 ++ rest) = L ->
  (exists e, pack_nsec_step (pre ++ replicate z x00 ++ rest, zlen pre, 0, 0) t = Err e /\
     L < zlen pre + N) \/
  exists st' ks' bs' z', pack_nsec_step (pre ++ replicate z x00 ++ rest, zlen pre, 0, 0) t = Ok st' /\
    nsec_inv pre L N [t] t st' ks' bs' z' rest.
Proof.
  intros Ht Hts HN Hz HL. set (len := (t - t / 256 * 256) / 8 + 1).
  assert (0 < len <= 32) as Hlen by (unfold len; Z.div_mod_to_equations; lia).
  assert (0 <= t / 256 < 256) as Hw by (Z.div_mod_to_equations; lia).
  assert (bitmap_len_step (0, 0, 0) t = (0, t / 256, len)) as Hstep.
  { unfold bitmap_len_step. fold len. rewrite andb_false_r.
    by rewrite !(proj2 (Z.ltb_ge _ _)) by lia. }
  assert (2 + len <= N) as HNle.
  { rewrite <- HN. unfold typeBitMapLen. cbn [fold_left]. rewrite Hstep.
    pose proof (bitmap_len_mono ts (0, t / 256, len)) as M. cbn [fst snd] in M.
    specialize (M ltac:(lia) ltac:(lia) Hts). cbn zeta in M.
    destruct (fold_left _ ts _) as [[a b] c]. cbn [fst snd] in *. lia. }
  unfold pack_nsec_step. fold len. rewrite andb_false_r, HL.
  rewrite (proj2 (Z.ltb_ge (t / 256) _)), (proj2 (Z.ltb_ge len _)) by lia. cbn [orb].
  destruct (Z.ltb_spec L (zlen pre + 2 + len)) as [Hov|Hfit].
  { left. eexists. split; [done|]. lia. }
  right. destruct (set_type_fresh pre z rest t Ht) as (z' & E & E1 & E2 & E3 & E4 & E5);
    [fold len; lia|].
  rewrite E. gosimp. fold len in E1.
  eexists _, [], (ext_bytes [] t), z'. split; [reflexivity|]. rewrite <- E1 in *. split.
  - cbn [fold_left add_type]. by rewrite andb_false_r.
  - cbn [fold_left]. by rewrite Hstep.
  - cbn [enc_blocks map concat app]. change (zlen (@nil byte)) with 0. by rewrite Z.add_0_r.
  - cbn [fst snd]. pose proof (zlen_enc_block (t / 256, ext_bytes [] t)) as Hb.
    cbn [snd] in Hb. revert HL. rewrite !zlen_app, !zlen_replicate. lia.
  - change (zlen (enc_blocks [])) with 0. lia.
  - cbn [app windows_from fst]. split; [lia|]. by split.
  - done.
  - done.
  - lia.
Qed.

Lemma packDataNsec_spec ts msg off :
  ts <> [] -> types_from (-1) ts -> 0 <= off <= zlen msg ->
  (exists e, packDataNsec ts msg off = Err e /\ zlen msg < off + typeBitMapLen ts) \/
  (exists msg', packDataNsec ts msg off = Ok (msg', off + typeBitMapLen ts) /\
     zlen msg' = zlen msg /\ off + typeBitMapLen ts <= zlen msg /\
     ztake (off + typeBitMapLen ts) msg' = ztake off msg ++ enc_blocks (blocks_of ts)) /\
  zlen (enc_blocks (blocks_of ts)) = typeBitMapLen ts /\ windows_from (-1) (blocks_of ts) /\
  blocks_types (blocks_of ts) = ts.
Proof.
  intros Hne Hts Hoff. unfold packDataNsec. rewrite decide_False by done.
  destruct ts as [|t ts]; [done|]. destruct Hts as [Ht Hts].
  assert (Forall (fun t => 0 <= t) ts) as Hpos by (eapply types_from_pos; [|done]; lia).
  remember (typeBitMapLen (t :: ts)) as N eqn:HN. symmetry in HN.
  assert (0 <= N).
  { rewrite <- HN. unfold typeBitMapLen. cbn [fold_left].
    destruct (bitmap_len_step_mono (0, 0, 0) t) as (_ & M2 & M3); [lia|done|done|].
    pose proof (bitmap_len_mono ts _ M2 M3 Hpos) as M. cbn zeta in *.
    destruct (fold_left _ ts _) as [[a b] c]. cbn [fst snd] in *. lia. }
  rewrite (proj2 (Z.ltb_ge _ _)) by lia.
  destruct (zeroed msg off (Z.min N (zlen msg - off))) as (rest & -> & Hlen); [lia..|]. gosimp.
  set (z := Z.to_nat (Z.min N (zlen msg - off))) in *.
  assert (zlen (ztake off msg) = off) as Hpre by (by apply zlen_ztake).
  cbn [foldM].
  pose proof (nsec_first (ztake off msg) (zlen msg) N z rest t ts) as Hf. rewrite Hpre in Hf.
  destruct Hf as [(e & E & HL)|(st & ks & bs & z' & E & H')];
    [lia|done|done|unfold z; lia|done| |].
  { left. exists e. rewrite E. split; [done|lia]. }
  rewrite E. gosimp.
  destruct (nsec_fold (ztake off msg) (zlen msg) N ts [t] t st ks bs z' rest H' Hts HN)
    as [(e & E2 & HL)|(st2 & t2 & ks2 & bs2 & z2 & E2 & Hinv)].
  { left. exists e. rewrite E2. split; [done|lia]. }
  right. rewrite E2. gosimp. destruct Hinv as [A1 A2 -> A4 A5 A6 A7 A8 A9]. cbn [fst snd] in A4.
  assert (blocks_of (t :: ts) = ks2 ++ [(t2 / 256, bs2)]) as Hb
    by (unfold blocks_of; cbn [app] in A1; by rewrite A1).
  assert (zlen (enc_blocks ks2) + zlen bs2 + 2 = N) as HNeq
    by (rewrite <- HN; unfold typeBitMapLen; cbn [app] in A2; by rewrite A2).
  assert (zlen (enc_blocks (blocks_of (t :: ts))) = N) as Hzl.
  { rewrite Hb, enc_blocks_snoc, zlen_app, zlen_enc_block. cbn [snd]. lia. }
  split; [|split_and!; [done|by rewrite Hb|by rewrite Hb, blocks_types_snoc]].
  assert (zlen (ztake off msg) + zlen (enc_blocks ks2) + zlen bs2 + 2 = off + N) as -> by lia.
  eexists. split; [done|].
  split_and!; [done| |].
  - rewrite !zlen_app, zlen_replicate, Hpre, zlen_enc_block in A4. cbn [snd] in A4.
    pose proof (zlen_nonneg rest). lia.
  - rewrite Hb, enc_blocks_snoc, (app_assoc (enc_blocks ks2)), (app_assoc (ztake off msg)).
    apply ztake_app_eq. rewrite !zlen_app, Hpre, zlen_enc_block. cbn [snd]. lia.
Qed.

(** The packer contract: increasing types survive. *)
Lemma carries_nsec ts :
  types_from (-1) ts ->
  carries true (if decide (ts = []) then 0 else typeBitMapLen ts)
    (plain (packDataNsec ts)) unpackDataNsec ts.
Proof.
  intros Hts. destruct (decide (ts = [])) as [->|Hne].
  { apply carries_nothing; [done|done|]. intros pre. unfold unpackDataNsec.
    rewrite (loop_done _ _ _ ([], zlen pre)); [done|].
    unfold unpack_nsec_step. by rewrite Z.ltb_irrefl. }
  intros off cm L Hoff. set (n := typeBitMapLen ts).
  set (ref := replicate (Z.to_nat L) x00).
  assert (zlen ref = L) as Href by (unfold ref; rewrite zlen_replicate; lia).
  destruct (packDataNsec_spec ts ref off Hne Hts ltac:(lia)) as [(e & E & HL)|(H1 & H2 & H3 & H4)].
  - left. rewrite Href in HL. split; [done|]. intros msg Hm.
    destruct (packDataNsec_spec ts msg off Hne Hts ltac:(lia)) as [(e' & E' & _)|((m & _ & _ & Hle & _) & _)].
    + exists e'. unfold plain. by rewrite E'.
    + rewrite Hm in Hle. lia.
  - right. destruct H1 as (m & E & _ & Hle & _). rewrite Href in Hle.
    exists (enc_blocks (blocks_of ts)), cm. rewrite H2. split_and!; [done|done| |done|].
    + intros msg Hm.
      destruct (packDataNsec_spec ts msg off Hne Hts ltac:(lia)) as [(e' & E' & HL)|((m' & E' & ? & _ & Ht) & _)];
        [lia|].
      exists m'. unfold plain. rewrite E', H2. split_and!; [done|lia|done].
    + intros pre Hpre Hok. split; [by apply cm_ok_app|]. intros suf ->; [|done].
      unfold unpackDataNsec. rewrite app_nil_r, <- Hpre, unpackNsec_loop.
      * by rewrite H4, H2.
      * done.
      * rewrite length_app. lia.
Qed.

(** ** What the decoder accepts *)

Lemma types_from_mono t t' l : t' <= t -> types_from t l -> types_from t' l.
Proof. destruct l as [|x l]; [done|]. intros ? [? ?]. split; [lia|done]. Qed.

Lemma types_from_last t0 l1 l2 :
  types_from t0 l1 -> (forall t, t0 <= t -> Forall (fun x => x <= t) l1 -> types_from t l2) ->
  types_from t0 (l1 ++ l2).
Proof.
  revert t0. induction l1 as [|x l1 IH]; intros t0 H1 H2; [by apply H2; [lia|constructor]|].
  destruct H1 as [Hx H1]. split; [done|]. apply IH; [done|]. intros t Ht Hall.
  apply H2; [lia|]. by constructor.
Qed.

(** The bits of a byte are increasing, in the eight types of the byte. *)
Lemma nsec_bits_sorted w j b r :
  0 <= w < 256 -> 0 <= j < 32 ->
  types_from (w * 256 + j * 8 + 7) r -> types_from (w * 256 + j * 8 - 1) (nsec_bits w j b ++ r).
Proof.
  intros Hw Hj Hr. unfold nsec_bits. rewrite <- !app_assoc.
  assert (forall m k r, 0 <= k < 8 -> types_from (w * 256 + j * 8 + k) r ->
    types_from (w * 256 + j * 8 + k - 1)
      ((if Z.land (bval b) m =? m then [(w * 256 + j * 8 + k) mod 65536] else []) ++ r)) as Hbit.
  { intros m k r' Hk Hr'. case_match; cbn [app].
    - rewrite Z.mod_small by lia. split; [lia|done].
    - eapply types_from_mono; [|done]. lia. }
  apply (types_from_mono (w * 256 + j * 8 + 0 - 1)); [lia|]. apply Hbit; [lia|].
  do 7 (match goal with |- types_from (?x + ?k) (_ ++ _) =>
    apply (types_from_mono (x + (k + 1) - 1)); [lia|]; apply Hbit; [lia|] end).
  done.
Qed.

Lemma nsec_block_sorted w r : 0 <= w < 256 -> forall bs j,
  0 <= j -> j + zlen bs <= 32 ->
  types_from (w * 256 + (j + zlen bs) * 8 - 1) r ->
  types_from (w * 256 + j * 8 - 1) (nsec_block w j bs ++ r).
Proof.
  intros Hw. induction bs as [|b bs IH]; intros j Hj Hl Hr.
  - change (zlen (@nil byte)) with 0 in Hr. by rewrite Z.add_0_r in Hr.
  - cbn [nsec_block]. rewrite <- app_assoc, zlen_cons in *.
    apply nsec_bits_sorted; [done|zlia|].
    replace (w * 256 + j * 8 + 7) with (w * 256 + (j + 1) * 8 - 1) by lia.
    apply IH; [lia|lia|]. by replace (j + 1 + zlen bs) with (j + (1 + zlen bs)) by lia.
Qed.

Lemma types_from_snoc_bound t0 l : types_from t0 l -> 
  forall r t, Forall (fun x => x <= t) l -> t0 <= t -> types_from t r -> types_from t0 (l ++ r).
Proof.
  revert t0. induction l as [|x l IH]; intros t0 H r t Hall Ht Hr; cbn [app].
  - by eapply types_from_mono.
  - destruct H as [Hx H]. apply Forall_cons in Hall as [? ?]. split; [done|]. by eapply IH.
Qed.

Lemma nsec_block_bound w bs : 0 <= w < 256 -> forall j, 0 <= j -> j + zlen bs <= 32 ->
  Forall (fun x => x <= w * 256 + 255) (nsec_block w j bs).
Proof.
  intros Hw. induction bs as [|b bs IH]; intros j Hj Hl; [constructor|].
  rewrite zlen_cons in Hl. pose proof (zlen_nonneg bs). cbn [nsec_block]. apply Forall_app. split; [|by apply IH; lia].
  unfold nsec_bits. repeat (apply Forall_app; split); case_match; constructor; try constructor;
    rewrite Z.mod_small; lia.
Qed.

Lemma unpackDataNsec_ensures msg off :
  0 <= off <= zlen msg ->
  ensures (unpackDataNsec msg off)
    (fun '(ts, off') => off' = zlen msg /\ types_from (-1) ts)
    (fun '(o, _) => o = zlen msg).
Proof.
  intros Hoff. unfold unpackDataNsec.
  eapply (loop_ensures
    (fun '(ts, o, lw) => off <= o <= zlen msg /\ -1 <= lw < 256 /\ types_from (-1) ts /\
                         Forall (fun x => x <= lw * 256 + 255) ts)
    (fun '(ts, o, lw) => Z.to_nat (zlen msg - o))).
  - intros [[ts o] lw] (Ho & Hlw & Hts & Hb). unfold unpack_nsec_step.
    destruct (Z.ltb_spec o (zlen msg)); cbn [negb]; [|simpl; split; [lia|done]].
    destruct (Z.ltb_spec (zlen msg) (o + 2)); [done|].
    destruct (zget_Some msg o) as [b0 ->]; [lia|].
    destruct (zget_Some msg (o + 1)) as [b1 ->]; [lia|]. gosimp.
    pose proof (bval_range b0). pose proof (bval_range b1).
    destruct (Z.leb_spec (bval b0) lw); [done|].
    destruct (Z.eqb_spec (bval b1) 0); [done|]. destruct (Z.ltb_spec 32 (bval b1)); [done|].
    destruct (Z.ltb_spec (zlen msg) (o + 2 + bval b1)); [done|].
    destruct (slice_exists msg (o + 2) (o + 2 + bval b1)) as (w & -> & Hw); [lia..|]. gosimp.
    split; [|lia]. split_and!; [lia|lia|lia|lia| |].
    + eapply types_from_snoc_bound; [done|exact Hb|lia|].
      pose proof (nsec_block_sorted (bval b0) [] ltac:(lia) w 0 ltac:(lia) ltac:(lia) I) as Hs.
      rewrite app_nil_r in Hs. eapply types_from_mono; [|exact Hs]. lia.
    + apply Forall_app. split; [eapply Forall_impl; [exact Hb|]; cbn; lia|].
      apply nsec_block_bound; lia.
  - split_and!; [lia|lia|lia|lia|done|constructor].
  - unfold zlen. lia.
Qed.

(** The decoder of type bitmaps terminates without panic on every message;
    what it accepts ends at the end of the message and is a strictly
    increasing list of 16-bit types, so canonical; errors are at [len(msg)]. *)
Theorem unpackDataNsec_sorted msg off :
  0 <= off <= zlen msg ->
  ensures (unpackDataNsec msg off)
    (fun '(ts, off') => off' = zlen msg /\ types_from (-1) ts)
    (fun '(o, _) => o = zlen msg).
Proof. apply unpackDataNsec_ensures. Qed.

Lemma unpackDataNsec_sorted_witness :
  ensures (unpackDataNsec [x00; x01; x40; x01; x01; x40] 0)
    (fun '(ts, off') => off' = 6 /\ types_from (-1) ts) (fun '(o, _) => o = 6).
Proof.
  exact (unpackDataNsec_sorted [x00; x01; x40; x01; x01; x40] 0
           ltac:(vm_compute; split; discriminate)).
Defined.

(** C25: a strictly increasing list of types survives packing and unpacking,
    and [typeBitMapLen] is the number of octets it takes. *)
Theorem nsec_roundtrip ts msg off :
  ts <> [] -> types_from (-1) ts -> 0 <= off -> off + typeBitMapLen ts <= zlen msg ->
  exists msg',
    packDataNsec ts msg off = Ok (msg', off + typeBitMapLen ts) /\
    unpackDataNsec (ztake (off + typeBitMapLen ts) msg') off = Ok (ts, off + typeBitMapLen ts).
Proof.
  intros Hne Hts H0 Hle.
  assert (0 <= off <= zlen msg) as Hoff.
  { pose proof (zlen_nonneg (enc_blocks (blocks_of ts))).
    destruct (packDataNsec_spec ts (replicate (Z.to_nat (typeBitMapLen ts)) x00) 0 Hne Hts)
      as [(e & _ & Hlt)|(_ & Hz & _)]; rewrite ?zlen_replicate in *; lia. }
  destruct (packDataNsec_spec ts msg off Hne Hts Hoff) as [(e & _ & Hlt)|((m & E & _ & _ & Ht) & Hz & Hw & Hb)];
    [lia|].
  exists m. split; [done|]. rewrite Ht. unfold unpackDataNsec.
  replace (@nil Z, off, -1) with (@nil Z, zlen (ztake off msg), -1) by (by rewrite zlen_ztake).
  rewrite unpackNsec_loop.
  - rewrite Hb, Hz, zlen_ztake by done. done.
  - done.
  - rewrite length_app. lia.
Qed.

Lemma nsec_roundtrip_witness :
  exists msg',
    packDataNsec [1; 2; 15; 257; 1234] (replicate 50 xff) 3 =
      Ok (msg', 3 + typeBitMapLen [1; 2; 15; 257; 1234]) /\
    unpackDataNsec (ztake (3 + typeBitMapLen [1; 2; 15; 257; 1234]) msg') 3 =
      Ok ([1; 2; 15; 257; 1234], 3 + typeBitMapLen [1; 2; 15; 257; 1234]).
Proof.
  refine (nsec_roundtrip [1; 2; 15; 257; 1234] (replicate 50 xff) 3 _ _ _ _).
  - discriminate.
  - cbn. lia.
  - lia.
  - vm_compute. discriminate.
Defined.
