(* ===== verification/Encodings.v ===== *)
(** * Hex, base32 and base64 text fields (msg_helpers.go)

    [encoding/hex], [base64.StdEncoding] and [base32.HexEncoding] without
    padding, on byte sequences; [packString...] and [unpackString...] of these
    fields; their round trips. The texts of the errors of those packages are
    abbreviated. *)

From S2P Require Import Prelude Go Utf8 Labels Escape Names NameDecode NameEncode NameLen Wire Codec.

(** ** Digits *)

(** The [n] digits of [v] in base [2^k], the most significant first. *)
Fixpoint digits (k : Z) (n : nat) (v : Z) : list Z :=
  match n with
  | O => []
  | S n => (v / 2 ^ (k * Z.of_nat n)) mod 2 ^ k :: digits k n v
  end.
Definition undigits (k : Z) (l : list Z) : Z := fold_left (fun a d => a * 2 ^ k + d) l 0.

(** ** Hex *)

Definition hex_char (v : Z) : byte := byte_of (if v <? 10 then 48 + v else 87 + v).
Definition hex_val (c : byte) : option Z :=
  let b := bval c in
  if (48 <=? b) && (b <=? 57) then Some (b - 48)
  else if (97 <=? b) && (b <=? 102) then Some (b - 87)
  else if (65 <=? b) && (b <=? 70) then Some (b - 55) else None.

Definition hex_EncodeToString (l : bytes) : bytes :=
  concat (map (fun b => [hex_char (bval b / 16); hex_char (bval b mod 16)]) l).

Fixpoint hex_DecodeString (s : bytes) : res error bytes :=
  match s with
  | [] => Ok []
  | a :: (b :: r) =>
      match hex_val a, hex_val b with
      | Some x, Some y => l ← hex_DecodeString r; Ok (byte_of (x * 16 + y) :: l)
      | _, _ => Err (MkError "encoding/hex: invalid byte")
      end
  | [a] =>
      match hex_val a with
      | Some _ => Err (MkError "encoding/hex: odd length hex string")
      | None => Err (MkError "encoding/hex: invalid byte")
      end
  end.

(** ** Base64, standard alphabet with padding *)

Definition b64_char (v : Z) : byte :=
  byte_of (if v <? 26 then 65 + v else if v <? 52 then 71 + v
           else if v <? 62 then v - 4 else if v =? 62 then 43 else 47).
Definition b64_val (c : byte) : option Z :=
  let b := bval c in
  if (65 <=? b) && (b <=? 90) then Some (b - 65)
  else if (97 <=? b) && (b <=? 122) then Some (b - 71)
  else if (48 <=? b) && (b <=? 57) then Some (b + 4)
  else if b =? 43 then Some 62 else if b =? 47 then Some 63 else None.
Definition ch_eq : byte := x3d.

Fixpoint base64_EncodeToString (l : bytes) : bytes :=
  match l with
  | [] => []
  | [b0] =>
      let v := bval b0 * 65536 in
      map b64_char (take 2 (digits 6 4 v)) ++ [ch_eq; ch_eq]
  | [b0; b1] =>
      let v := bval b0 * 65536 + bval b1 * 256 in
      map b64_char (take 3 (digits 6 4 v)) ++ [ch_eq]
  | b0 :: b1 :: b2 :: r =>
      let v := bval b0 * 65536 + bval b1 * 256 + bval b2 in
      map b64_char (digits 6 4 v) ++ base64_EncodeToString r
  end.

Definition b64_corrupt {A} : res error A := Err (MkError "illegal base64 data").

(** The quanta of an input without line breaks. *)
Fixpoint b64_quanta (s : bytes) : res error bytes :=
  match s with
  | [] => Ok []
  | c0 :: c1 :: c2 :: c3 :: r =>
      match b64_val c0, b64_val c1 with
      | Some v0, Some v1 =>
          if c2 =b ch_eq then
            if (c3 =b ch_eq) && bool_decide (r = [])
            then Ok (take 1 (be 3 (undigits 6 [v0; v1; 0; 0]))) else b64_corrupt
          else
            match b64_val c2 with
            | Some v2 =>
                if c3 =b ch_eq then
                  if bool_decide (r = [])
                  then Ok (take 2 (be 3 (undigits 6 [v0; v1; v2; 0]))) else b64_corrupt
                else
                  match b64_val c3 with
                  | Some v3 =>
                      l ← b64_quanta r; Ok (be 3 (undigits 6 [v0; v1; v2; v3]) ++ l)
                  | None => b64_corrupt
                  end
            | None => b64_corrupt
            end
      | _, _ => b64_corrupt
      end
  | _ => b64_corrupt
  end.

(** Line breaks are skipped. *)
Definition not_newline (c : byte) : bool := negb ((c =b x0a) || (c =b x0d)).

Definition fromBase64 (s : bytes) : res error bytes := b64_quanta (filter not_newline s).
Definition toBase64 (b : bytes) : bytes := base64_EncodeToString b.

(** ** Base32, extended hex alphabet without padding *)

Definition b32_char (v : Z) : byte := byte_of (if v <? 10 then 48 + v else 55 + v).
Definition b32_val (c : byte) : option Z :=
  let b := bval c in
  if (48 <=? b) && (b <=? 57) then Some (b - 48)
  else if (65 <=? b) && (b <=? 86) then Some (b - 55) else None.

(** How many octets a last quantum of [n] characters gives: one of 1, 3 or 6
    characters gives none. *)
Definition b32_octets (n : nat) : nat :=
  (match n with 2 => 1 | 4 => 2 | 5 => 3 | 7 => 4 | 8 => 5 | _ => 0 end)%nat.
(** How many characters [n] octets take. *)
Definition b32_chars (n : nat) : nat :=
  (match n with 1 => 2 | 2 => 4 | 3 => 5 | 4 => 7 | 5 => 8 | _ => 0 end)%nat.

(** One quantum each way. *)
Definition b32_enc (l : bytes) : bytes :=
  map b32_char (take (b32_chars (length l))
    (digits 5 8 (unbe (l ++ replicate (5 - length l) x00)))).
Definition b32_dec (vs : list Z) : bytes :=
  take (b32_octets (length vs)) (be 5 (undigits 5 (vs ++ replicate (8 - length vs) 0))).

Fixpoint b32_encode (fuel : nat) (l : bytes) : bytes :=
  match fuel, l with
  | S fuel, _ :: _ => b32_enc (take 5 l) ++ b32_encode fuel (drop 5 l)
  | _, _ => []
  end.
Definition toBase32 (b : bytes) : bytes := b32_encode (length b) b.

Fixpoint b32_decode (fuel : nat) (s : bytes) : res error bytes :=
  match fuel, s with
  | S fuel, _ :: _ =>
      match mapM b32_val (take 8 s) with
      | Some vs => l ← b32_decode fuel (drop 8 s); Ok (b32_dec vs ++ l)
      | None => Err (MkError "illegal base32 data")
      end
  | _, _ => Ok []
  end.

(** [s[i] = b - 32] for the lower-case letters. *)
Definition to_upper (b : byte) : byte :=
  if (97 <=? bval b) && (bval b <=? 122) then byte_of (bval b - 32) else b.
Definition fromBase32 (s : bytes) : res error bytes :=
  let s := filter not_newline (map to_upper s) in b32_decode (length s) s.

(** ** The fields *)

Definition pack_decoded (ctx : String.string) (decode : bytes -> res error bytes)
    (s msg : bytes) (off : Z) : wire (bytes * Z) :=
  h ← on_err (fun e => (zlen msg, e)) (decode s);
  if zlen msg <? off + zlen h then fail (zlen msg) (MkError ctx) else
  msg ← put_at msg off h;
  Ok (msg, off + zlen h).

Definition unpack_encoded (ctx : String.string) (encode : bytes -> bytes)
    (msg : bytes) (off end_ : Z) : wire (bytes * Z) :=
  if zlen msg <? end_ then fail (zlen msg) (MkError ctx) else
  w ← index (slice msg off end_);
  Ok (encode w, end_).

Arguments pack_decoded ctx%_string_scope.
Arguments unpack_encoded ctx%_string_scope.

Definition packStringHex := pack_decoded "overflow packing hex" hex_DecodeString.
Definition unpackStringHex := unpack_encoded "overflow unpacking hex" hex_EncodeToString.
Definition packStringBase64 := pack_decoded "overflow packing base64" fromBase64.
Definition unpackStringBase64 := unpack_encoded "overflow unpacking base64" toBase64.
Definition packStringBase32 := pack_decoded "overflow packing base32" fromBase32.
Definition unpackStringBase32 := unpack_encoded "overflow unpacking base32" toBase32.

Example toBase64_ex : toBase64 (bs "any carnal pleas") = bs "YW55IGNhcm5hbCBwbGVhcw==".
Proof. vm_compute. reflexivity. Qed.
Example fromBase64_ex : fromBase64 (bs "YW55IGNhcm5hbCBwbGVhcw==") = Ok (bs "any carnal pleas").
Proof. vm_compute. reflexivity. Qed.
Example toBase32_ex : toBase32 (bs "foobar") = bs "CPNMUOJ1E8".
Proof. vm_compute. reflexivity. Qed.
Example fromBase32_ex : fromBase32 (bs "cpnmuoj1e8") = Ok (bs "foobar").
Proof. vm_compute. reflexivity. Qed.

(** ** Round trips *)

Lemma digits_length k n v : length (digits k n v) = n.
Proof. induction n as [|n IH]; [done|]. cbn. by rewrite IH. Qed.

Lemma digits_range k n v : 0 <= k -> Forall (fun d => 0 <= d < 2 ^ k) (digits k n v).
Proof.
  intros Hk. induction n as [|n IH]; constructor; [|done].
  apply Z.mod_pos_bound. by apply Z.pow_pos_nonneg.
Qed.

Lemma fold_undigits k a l :
  0 <= k -> fold_left (fun a d => a * 2 ^ k + d) l a = a * 2 ^ (k * zlen l) + undigits k l.
Proof.
  intros Hk. unfold undigits. revert a. induction l as [|d l IH]; intros a; cbn [fold_left].
  { change (zlen (@nil Z)) with 0. rewrite Z.mul_0_r. lia. }
  rewrite (IH (a * 2 ^ k + d)), (IH (0 * 2 ^ k + d)), zlen_cons.
  rewrite (Z.mul_add_distr_l k 1), Z.pow_add_r by (pose proof (zlen_nonneg l); lia).
  rewrite Z.mul_1_r. ring.
Qed.

Lemma undigits_digits k n v :
  0 < k -> 0 <= v < 2 ^ (k * Z.of_nat n) -> undigits k (digits k n v) = v.
Proof.
  intros Hk Hv.
  assert (undigits k (digits k n v) = v mod 2 ^ (k * Z.of_nat n)) as ->; [|by apply Z.mod_small].
  clear Hv. induction n as [|n IH]; [cbn; by rewrite Z.mul_0_r, Z.mod_1_r|].
  cbn [digits]. unfold undigits. cbn [fold_left]. rewrite fold_undigits by lia.
  unfold zlen. rewrite digits_length, IH.
  replace (k * Z.of_nat (S n)) with (k * Z.of_nat n + k) by lia. rewrite Z.pow_add_r by lia.
  assert (0 < 2 ^ (k * Z.of_nat n)) by (apply Z.pow_pos_nonneg; lia).
  assert (0 < 2 ^ k) by (apply Z.pow_pos_nonneg; lia).
  rewrite Z.rem_mul_r by lia. ring.
Qed.

Lemma digits_zero k m v : 0 < k -> v mod 2 ^ (k * Z.of_nat m) = 0 -> digits k m v = replicate m 0.
Proof.
  intros Hk. induction m as [|m IH]; intros Hv; [done|]. cbn [digits replicate].
  assert (0 < 2 ^ (k * Z.of_nat m)) by (apply Z.pow_pos_nonneg; lia).
  assert (0 < 2 ^ k) by (apply Z.pow_pos_nonneg; lia).
  replace (k * Z.of_nat (S m)) with (k * Z.of_nat m + k) in Hv by lia.
  rewrite Z.pow_add_r in Hv by lia. rewrite Z.rem_mul_r in Hv by lia.
  pose proof (Z.mod_pos_bound v (2 ^ (k * Z.of_nat m)) ltac:(lia)).
  pose proof (Z.mod_pos_bound (v / 2 ^ (k * Z.of_nat m)) (2 ^ k) ltac:(lia)).
  f_equal; [nia|]. apply IH. nia.
Qed.

Lemma digits_split k n m v :
  (m <= n)%nat -> take (n - m) (digits k n v) ++ digits k m v = digits k n v.
Proof.
  induction n as [|n IH]; intros Hm; [by replace m with 0%nat by lia|].
  destruct (decide (m = S n)) as [->|]; [by rewrite Nat.sub_diag|].
  replace (S n - m)%nat with (S (n - m)) by lia. cbn [digits take app]. f_equal.
  apply IH. lia.
Qed.

Lemma b64_val_char v : 0 <= v < 64 -> b64_val (b64_char v) = Some v.
Proof.
  intros Hv. unfold b64_char, b64_val. rewrite byte_of_small by (repeat case_match; lia).
  repeat case_match; repeat (rewrite ?andb_true_iff, ?andb_false_iff, ?Z.leb_le, ?Z.leb_gt,
    ?Z.ltb_lt, ?Z.ltb_ge, ?Z.eqb_eq, ?Z.eqb_neq in *); try (f_equal; lia); exfalso; lia.
Qed.

Lemma b64_char_plain v :
  0 <= v < 64 -> (b64_char v =b ch_eq) = false /\ not_newline (b64_char v) = true.
Proof.
  intros Hv. pose proof (b64_val_char v Hv) as H. split.
  - apply beq_ne. intros E. by rewrite E in H.
  - unfold not_newline. rewrite !beq_ne; [done|intros E; by rewrite E in H..].
Qed.

Lemma b32_val_char v : 0 <= v < 32 -> b32_val (b32_char v) = Some v.
Proof.
  intros Hv. unfold b32_char, b32_val. rewrite byte_of_small by (case_match; lia).
  repeat case_match; repeat (rewrite ?andb_true_iff, ?andb_false_iff, ?Z.leb_le, ?Z.leb_gt,
    ?Z.ltb_lt, ?Z.ltb_ge in *); try (f_equal; lia); exfalso; lia.
Qed.

Lemma b32_char_plain v :
  0 <= v < 32 -> to_upper (b32_char v) = b32_char v /\ not_newline (b32_char v) = true.
Proof.
  intros Hv. pose proof (b32_val_char v Hv) as H. split.
  - unfold to_upper, b32_char. rewrite byte_of_small by (case_match; lia).
    repeat case_match; repeat (rewrite ?andb_true_iff, ?Z.leb_le, ?Z.ltb_lt, ?Z.ltb_ge in *);
      (done || exfalso; lia).
  - unfold not_newline. rewrite !beq_ne; [done|intros E; by rewrite E in H..].
Qed.

Lemma hex_roundtrip l : hex_DecodeString (hex_EncodeToString l) = Ok l.
Proof.
  induction l as [|b l IH]; [done|]. unfold hex_EncodeToString in *. cbn [map concat app].
  cbn [hex_DecodeString].
  assert (hex_val (hex_char (bval b / 16)) = Some (bval b / 16) /\
          hex_val (hex_char (bval b mod 16)) = Some (bval b mod 16)) as [-> ->] by (by destruct b).
  rewrite IH. gosimp. do 2 f_equal.
  rewrite Z.mul_comm, <- Z.div_mod by lia. apply byte_of_bval.
Qed.

(** The four digits of three octets. *)
Lemma b64_quantum b0 b1 b2 :
  exists d0 d1 d2 d3, digits 6 4 (bval b0 * 65536 + bval b1 * 256 + bval b2) = [d0; d1; d2; d3] /\
    0 <= d0 < 64 /\ 0 <= d1 < 64 /\ 0 <= d2 < 64 /\ 0 <= d3 < 64 /\
    be 3 (undigits 6 [d0; d1; d2; d3]) = [b0; b1; b2] /\
    (bval b2 = 0 -> d3 = 0) /\ (bval b2 = 0 -> bval b1 = 0 -> d2 = 0).
Proof.
  set (v := bval b0 * 65536 + bval b1 * 256 + bval b2).
  pose proof (digits_range 6 4 v ltac:(lia)) as Hr.
  pose proof (bval_range b0). pose proof (bval_range b1). pose proof (bval_range b2).
  pose proof (undigits_digits 6 4 v ltac:(lia) ltac:(cbn; lia)) as Hu.
  pose proof (digits_length 6 4 v) as Hlen.
  destruct (digits 6 4 v) as [|d0 [|d1 [|d2 [|d3 [|]]]]] eqn:E; try discriminate Hlen.
  exists d0, d1, d2, d3. split; [done|].
  apply Forall_cons in Hr as [? Hr]. apply Forall_cons in Hr as [? Hr].
  apply Forall_cons in Hr as [? Hr]. apply Forall_cons in Hr as [? Hr].
  change (2 ^ 6) with 64 in *. split_and!; try lia.
  - rewrite Hu. pose proof (be_unbe [b0; b1; b2]) as Hb. cbn [length] in Hb.
    rewrite <- Hb. f_equal. unfold unbe. cbn [fold_left]. lia.
  - intros Z2. cbn [digits] in E. injection E as _ _ _ <-. unfold v. rewrite Z2.
    change (2 ^ (6 * Z.of_nat 0)) with 1. change (2 ^ 6) with 64. Z.div_mod_to_equations. lia.
  - intros Z2 Z1. cbn [digits] in E. injection E as _ _ <- _. unfold v. rewrite Z2, Z1.
    change (2 ^ (6 * Z.of_nat 1)) with 64. change (2 ^ 6) with 64. Z.div_mod_to_equations. lia.
Qed.

Lemma filter_all (f : byte -> bool) s : Forall (fun c => f c = true) s -> filter f s = s.
Proof. induction 1 as [|c s Hc Hs IH]; [done|]. rewrite filter_cons_True by (by rewrite Hc). by rewrite IH. Qed.

Lemma list_ind3 {A} (P : list A -> Prop) :
  P [] -> (forall a, P [a]) -> (forall a b, P [a; b]) ->
  (forall a b c l, P l -> P (a :: b :: c :: l)) -> forall l, P l.
Proof.
  intros P0 P1 P2 P3 l.
  assert (P l /\ (forall a, P (a :: l)) /\ (forall a b, P (a :: b :: l))) as [? _]; [|done].
  induction l as [|x l (IH1 & IH2 & IH3)]; [by split_and!|]. split_and!; [done|done|].
  intros. by apply P3.
Qed.

Lemma base64_encode_plain l :
  Forall (fun c => not_newline c = true) (base64_EncodeToString l).
Proof.
  induction l as [|a|a b|a b c l IH] using list_ind3; [constructor|..].
  1: pose proof (digits_range 6 4 (bval a * 65536) ltac:(lia)) as Hr.
  2: pose proof (digits_range 6 4 (bval a * 65536 + bval b * 256) ltac:(lia)) as Hr.
  3: pose proof (digits_range 6 4 (bval a * 65536 + bval b * 256 + bval c) ltac:(lia)) as Hr.
  all: cbn [base64_EncodeToString]; apply Forall_app; split;
    [|first [exact IH|repeat constructor]]; apply Forall_map.
  1,2: apply Forall_take.
  all: eapply Forall_impl; [exact Hr|]; intros d Hd; by apply b64_char_plain.
Qed.

Lemma base64_roundtrip l : fromBase64 (toBase64 l) = Ok l.
Proof.
  unfold fromBase64, toBase64. rewrite filter_all by apply base64_encode_plain.
  induction l as [|a|a b|a b c l IH] using list_ind3; [done|..].
  - destruct (b64_quantum a x00 x00) as (d0 & d1 & d2 & d3 & E & ? & ? & ? & ? & Hb & H3 & H2).
    cbn [base64_EncodeToString]. change (bval x00) with 0 in *.
    rewrite Z.mul_0_l, !Z.add_0_r in E. rewrite E. cbn [take map app b64_quanta].
    rewrite !b64_val_char by done. rewrite beq_refl, bool_decide_eq_true_2 by done. cbn [andb].
    rewrite (H3 eq_refl), (H2 eq_refl eq_refl) in Hb. by rewrite Hb.
  - destruct (b64_quantum a b x00) as (d0 & d1 & d2 & d3 & E & ? & ? & ? & ? & Hb & H3 & _).
    cbn [base64_EncodeToString]. change (bval x00) with 0 in *.
    rewrite Z.add_0_r in E. rewrite E. cbn [take map app b64_quanta].
    rewrite !b64_val_char by done. rewrite (proj1 (b64_char_plain d2 ltac:(done))).
    rewrite beq_refl, bool_decide_eq_true_2 by done.
    rewrite (H3 eq_refl) in Hb. by rewrite Hb.
  - destruct (b64_quantum a b c) as (d0 & d1 & d2 & d3 & E & ? & ? & ? & ? & Hb & _).
    cbn [base64_EncodeToString]. rewrite E. cbn [map app b64_quanta].
    rewrite !b64_val_char by done. rewrite (proj1 (b64_char_plain d2 ltac:(done))).
    rewrite (proj1 (b64_char_plain d3 ltac:(done))), IH. gosimp. by rewrite Hb.
Qed.

(** ** Base32 *)

Lemma mapM_b32 vs : Forall (fun d => 0 <= d < 32) vs -> mapM b32_val (map b32_char vs) = Some vs.
Proof. induction 1 as [|v vs Hv Hvs IH]; [done|]. cbn. by rewrite b32_val_char, IH by done. Qed.

Lemma b32_quantum l :
  (1 <= length l <= 5)%nat ->
  exists vs, b32_enc l = map b32_char vs /\ length vs = b32_chars (length l) /\
    Forall (fun d => 0 <= d < 32) vs /\ b32_dec vs = l.
Proof.
  intros Hl. set (n := b32_chars (length l)). set (v := unbe (l ++ replicate (5 - length l) x00)).
  exists (take n (digits 5 8 v)). split; [done|].
  assert (n <= 8)%nat as Hn.
  { unfold n. destruct (length l) as [|[|[|[|[|[|]]]]]]; cbn; lia. }
  assert (length (take n (digits 5 8 v)) = n) as Hlen by (rewrite length_take, digits_length; lia).
  split; [done|]. split; [apply Forall_take, (digits_range 5); lia|].
  unfold b32_dec. rewrite Hlen.
  assert (v mod 2 ^ (5 * Z.of_nat (8 - n)) = 0) as Hz.
  { unfold v, unbe. rewrite fold_left_app, fold_unbe.
    assert (unbe (replicate (5 - length l) x00) = 0) as ->.
    { generalize (5 - length l)%nat. intros m. induction m as [|m IH]; [done|].
      cbn [replicate]. rewrite unbe_cons, IH. done. }
    unfold zlen. rewrite length_replicate, Z.add_0_r.
    generalize (fold_left (fun a b => a * 256 + bval b) l 0). intros x. unfold n.
    assert (forall p q, 0 <= q <= p -> (x * 2 ^ p) mod 2 ^ q = 0) as Hdiv.
    { intros p q Hpq. replace p with (p - q + q) by lia. rewrite Z.pow_add_r by lia.
      rewrite Z.mul_assoc. apply Z.mod_mul. apply Z.pow_nonzero; lia. }
    change 256 with (2 ^ 8). rewrite <- Z.pow_mul_r by lia. apply Hdiv.
    destruct (length l) as [|[|[|[|[|[|]]]]]]; cbn; lia. }
  apply digits_zero in Hz; [|lia].
  pose proof (digits_split 5 8 (8 - n) v ltac:(lia)) as Hs.
  replace (8 - (8 - n))%nat with n in Hs by lia. rewrite Hz in Hs. rewrite Hs.
  pose proof (unbe_range (l ++ replicate (5 - length l) x00)) as Hr. fold v in Hr.
  assert (length (l ++ replicate (5 - length l) x00) = 5%nat) as Hl5
    by (rewrite length_app, length_replicate; lia).
  unfold zlen in Hr. rewrite Hl5 in Hr.
  rewrite undigits_digits by (cbn in *; lia).
  pose proof (be_unbe (l ++ replicate (5 - length l) x00)) as Hb. rewrite Hl5 in Hb. fold v in Hb.
  rewrite Hb. replace (b32_octets n) with (length l); [apply take_app_length|].
  unfold n. clear -Hl. revert Hl. destruct (length l) as [|[|[|[|[|[|]]]]]]; intros; (done || lia).
Qed.

Lemma b32_loop l : forall f1 f2, (length l <= f1)%nat -> (length (b32_encode f1 l) <= f2)%nat ->
  Forall (fun c => to_upper c = c /\ not_newline c = true) (b32_encode f1 l) /\
  b32_decode f2 (b32_encode f1 l) = Ok l.
Proof.
  remember (length l) as n eqn:Hn. revert l Hn. induction (lt_wf n) as [n _ IH].
  intros l -> [|f1] f2 H1 H2.
  { destruct l; [|simpl in H1; lia]. split; [constructor|]. by destruct f2. }
  destruct l as [|c l]; [split; [constructor|]; by destruct f2|].
  set (x := c :: l) in *. assert (1 <= length x)%nat as Hx by (unfold x; cbn; lia).
  change (b32_encode (S f1) x) with (b32_enc (take 5 x) ++ b32_encode f1 (drop 5 x)) in *.
  destruct (b32_quantum (take 5 x)) as (vs & E & Hl & Hvs & Hd);
    [rewrite length_take; lia|].
  rewrite E in *. rewrite length_app, length_map in H2.
  assert (0 < length vs <= 8)%nat as Hvl.
  { rewrite Hl, length_take. clear -Hx. destruct (length x) as [|[|[|[|[|]]]]]; cbn; lia. }
  destruct f2 as [|f2]; [lia|].
  destruct (IH (length (drop 5 x)) ltac:(rewrite length_drop; lia) (drop 5 x) eq_refl f1 f2)
    as [IH1 IH2]; [rewrite length_drop; lia|lia|]. split.
  - apply Forall_app. split; [|done]. apply Forall_map. eapply Forall_impl; [exact Hvs|].
    intros d Hd'. by apply b32_char_plain.
  - (* a short quantum is the last one *)
    destruct (decide (length x < 5)%nat) as [Hshort|Hlong].
    + assert (drop 5 x = []) as Hdrop by (apply drop_ge; lia). rewrite Hdrop in *.
      assert (b32_encode f1 [] = []) as Hnil by (by destruct f1). rewrite Hnil, app_nil_r in *.
      assert (b32_decode (S f2) (map b32_char vs) =
              (l ← b32_decode f2 (drop 8 (map b32_char vs)); Ok (b32_dec vs ++ l))) as ->.
      { destruct vs as [|v vs]; [simpl in Hvl; lia|].
        cbn [b32_decode map]. change (b32_char v :: map b32_char vs) with (map b32_char (v :: vs)).
        rewrite take_ge by (rewrite length_map; simpl in *; lia).
        rewrite mapM_b32 by done. done. }
      rewrite drop_ge by (rewrite length_map; lia). rewrite IH2. gosimp.
      rewrite Hd, take_ge by lia. by rewrite app_nil_r.
    + assert (length vs = 8%nat) as H8 by (rewrite Hl, length_take_le by lia; done).
      assert (b32_decode (S f2) (map b32_char vs ++ b32_encode f1 (drop 5 x)) =
              (l ← b32_decode f2 (b32_encode f1 (drop 5 x)); Ok (b32_dec vs ++ l))) as ->.
      { destruct vs as [|v vs]; [done|]. cbn [b32_decode map app].
        change (b32_char v :: map b32_char vs ++ b32_encode f1 (drop 5 x))
          with (map b32_char (v :: vs) ++ b32_encode f1 (drop 5 x)).
        rewrite take_app_length', drop_app_length' by (rewrite length_map; done).
        rewrite mapM_b32 by done. done. }
      rewrite IH2. gosimp. by rewrite Hd, take_drop.
Qed.

Lemma base32_roundtrip l : fromBase32 (toBase32 l) = Ok l.
Proof.
  unfold fromBase32, toBase32.
  assert (forall s, Forall (fun c => to_upper c = c /\ not_newline c = true) s ->
    filter not_newline (map to_upper s) = s) as Hid.
  { induction 1 as [|c s [Hu Hn] Hs IH]; [done|]. cbn [map]. rewrite Hu.
    rewrite filter_cons_True by (by rewrite Hn). by rewrite IH. }
  destruct (b32_loop l (length l) (length (b32_encode (length l) l))) as [H1 H2]; [done|done|].
  rewrite Hid by done. exact H2.
Qed.

(** ** The packer contract *)

Section Encoded.
Context (pctx uctx : String.string) (decode : bytes -> res error bytes) (encode : bytes -> bytes).
Context (l : bytes) (Hrt : decode (encode l) = Ok l).

Lemma pack_decoded_fixed {A} tail (up : unpacker A) v :
  (forall pre suf, (tail = true -> suf = []) ->
     up (pre ++ l ++ suf) (zlen pre) = Ok (v, zlen pre + zlen l)) ->
  carries tail (zlen l) (plain (pack_decoded pctx decode (encode l))) up v.
Proof.
  intros Hup. apply (carries_fixed _ _ _ _ _ l); [lia| | |done].
  - intros msg off H0 Hle. unfold pack_decoded. rewrite Hrt. gosimp. decide_ifs.
    destruct (put_at_writes (E := Z * error) msg off l H0 Hle) as (msg' & E & Hw).
    rewrite E. exists msg'. split; [done|].
    split; [by apply writes_len in Hw|by apply writes_take in Hw].
  - intros msg off H0 Hlt. unfold pack_decoded. rewrite Hrt. gosimp. decide_ifs. by eexists.
Qed.

(** A field of known size. *)
Lemma carries_sized :
  carries false (zlen l) (plain (pack_decoded pctx decode (encode l)))
    (fun msg off => unpack_encoded uctx encode msg off (off + zlen l)) (encode l).
Proof.
  apply pack_decoded_fixed. intros pre suf _. unfold unpack_encoded.
  rewrite room_mid, slice_mid by done. done.
Qed.

(** A field up to the end of the message. *)
Lemma carries_rest :
  carries true (zlen l) (plain (pack_decoded pctx decode (encode l)))
    (fun msg off => unpack_encoded uctx encode msg off (zlen msg)) (encode l).
Proof.
  apply pack_decoded_fixed. intros pre suf ->; [|done]. unfold unpack_encoded.
  rewrite Z.ltb_irrefl, slice_mid by (done || zlia). gosimp. do 2 f_equal. zlia.
Qed.
End Encoded.

(** ** Theorems *)

(** The three text encodings of octet fields are lossless: decoding the
    encoding of any octets, as the pack helpers do, gives the octets back. *)
Theorem encodings_roundtrip l :
  hex_DecodeString (hex_EncodeToString l) = Ok l /\
  fromBase64 (toBase64 l) = Ok l /\
  fromBase32 (toBase32 l) = Ok l.
Proof. split_and!; [apply hex_roundtrip|apply base64_roundtrip|apply base32_roundtrip]. Qed.
