(* ===== verification/Apl.v ===== *)
(** * Address prefixes: [net.IPNet] and the APL field (msg_helpers.go)

    The parts of package net the library uses ([CIDRMask], [IPMask.Size],
    [IP.Mask], [IP.To16]), [packDataAplPrefix], [packDataApl],
    [unpackDataAplPrefix], [unpackDataApl] and their packer contract. *)

From S2P Require Import Prelude Go Utf8 Labels Escape Names NameDecode NameEncode NameLen Wire Codec.

(** ** Package net *)

(** One byte of [CIDRMask]: [n] ones are left. *)
Definition mask_byte (n : Z) : byte :=
  if 8 <=? n then xff else byte_of (255 - Z.shiftr 255 n).

Fixpoint mask_bytes (len : nat) (ones : Z) : bytes :=
  match len with
  | O => []
  | S len => mask_byte ones :: mask_bytes len (if 8 <=? ones then ones - 8 else 0)
  end.

(** [CIDRMask(ones, bits)]; nil when out of range. *)
Definition CIDRMask (ones bits : Z) : bytes :=
  if ((bits =? 32) || (bits =? 128)) && (0 <=? ones) && (ones <=? bits)
  then mask_bytes (Z.to_nat (bits / 8)) ones else [].

(** The ones of a byte that is ones followed by zeros. *)
Definition byte_ones (b : byte) : option Z :=
  match bval b with
  | 0 => Some 0 | 128 => Some 1 | 192 => Some 2 | 224 => Some 3 | 240 => Some 4
  | 248 => Some 5 | 252 => Some 6 | 254 => Some 7 | _ => None
  end.

(** [simpleMaskLength]: -1 when the mask is not ones followed by zeros. *)
Fixpoint simpleMaskLength (mask : bytes) (n : Z) : Z :=
  match mask with
  | [] => n
  | b :: mask =>
      if bval b =? 255 then simpleMaskLength mask (n + 8)
      else match byte_ones b with
           | Some k => if forallb (fun b => bval b =? 0) mask then n + k else -1
           | None => -1
           end
  end.

(** [mask.Size()]: only the ones are used. *)
Definition mask_Size (mask : bytes) : Z :=
  let n := simpleMaskLength mask 0 in if n =? -1 then 0 else n.

Definition byte_and (a b : byte) : byte := byte_of (Z.land (bval a) (bval b)).

(** [ip.Mask(mask)]; nil when the lengths do not fit. *)
Definition IP_Mask (ip mask : bytes) : bytes :=
  let mask := if (zlen mask =? 16) && (zlen ip =? 4)
                 && forallb (fun b => bval b =? 255) (ztake 12 mask) then zdrop 12 mask else mask in
  let ip := if (zlen mask =? 4) && (zlen ip =? 16) && bool_decide (ztake 12 ip = v4InV6Prefix)
            then zdrop 12 ip else ip in
  if zlen ip =? zlen mask then zip_with byte_and ip mask else [].

Definition To16 (ip : bytes) : bytes :=
  if zlen ip =? 4 then v4InV6Prefix ++ ip else if zlen ip =? 16 then ip else [].

(** ** APL *)

Record APLPrefix := { Negation : bool; Network_IP : bytes; Network_Mask : bytes }.

#[export] Instance APLPrefix_eq_dec : EqDecision APLPrefix.
Proof. unfold EqDecision, Decision. decide equality; try apply list_eq_dec; decide equality. Defined.

(** [for ; i >= 0 && addr[i] == 0; i-- {}; addr[:i+1]]. *)
Fixpoint trim_zeros (addr : bytes) : bytes :=
  match addr with
  | [] => []
  | b :: addr =>
      match trim_zeros addr with
      | [] => if bval b =? 0 then [] else [b]
      | r => b :: r
      end
  end.

Definition packDataAplPrefix (p : APLPrefix) (msg : bytes) (off : Z) : wire (bytes * Z) :=
  let lenmsg := zlen msg in
  let at_end := on_err (fun e : Z * error => (lenmsg, e.2)) in
  if negb (zlen (Network_IP p) =? zlen (Network_Mask p))
  then fail lenmsg (MkError "address and mask lengths don't match") else
  let prefix := mask_Size (Network_Mask p) in
  addr ← index (slice (IP_Mask (Network_IP p) (Network_Mask p)) 0 ((prefix + 7) / 8));
  '(msg, off) ← at_end
    (if zlen (Network_IP p) =? 4 then packUint16 1 msg off
     else if zlen (Network_IP p) =? 16 then packUint16 2 msg off
     else fail off (MkError "unrecognized address family"));
  '(msg, off) ← at_end (packUint8 (prefix mod 256) msg off);
  let n := if Negation p then 0x80 else 0 in
  let addr := trim_zeros addr in
  let adflen := Z.land (zlen addr mod 256) 0x7f in
  '(msg, off) ← at_end (packUint8 (Z.lor n adflen) msg off);
  if lenmsg <? off + zlen addr then fail lenmsg (MkError "overflow packing APL prefix") else
  msg ← put_at msg off addr;
  Ok (msg, off + zlen addr).

Definition packDataApl (data : list APLPrefix) (msg : bytes) (off : Z) : wire (bytes * Z) :=
  foldM (fun '(msg, off) p => at_len msg (packDataAplPrefix p msg off)) (msg, off) data.

Definition unpackDataAplPrefix (msg : bytes) (off : Z) : wire (APLPrefix * Z) :=
  let lenmsg := zlen msg in
  let overflow := on_err (fun _ : Z * error => (lenmsg, MkError "overflow unpacking APL prefix")) in
  '(family, off) ← overflow (unpackUint16 msg off);
  '(prefix, off) ← overflow (unpackUint8 msg off);
  '(nlen, off) ← overflow (unpackUint8 msg off);
  size ← (if family =? 1 then Ok 4 else if family =? 2 then Ok 16
          else fail lenmsg (MkError "unrecognized APL address family"));
  if 8 * size <? prefix then fail lenmsg (MkError "APL prefix too long") else
  let afdlen := Z.land nlen 0x7f in
  if size <? afdlen then fail lenmsg (MkError "APL length too long") else
  if lenmsg <? off + afdlen then fail lenmsg (MkError "overflow unpacking APL address") else
  a ← index (slice msg off (off + afdlen));
  let ip := a ++ replicate (Z.to_nat (size - afdlen)) x00 in
  bad ← (if 0 <? afdlen then b ← index (zget ip (afdlen - 1)); Ok (bval b =? 0) else Ok false);
  if bad : bool then fail lenmsg (MkError "extra APL address bits") else
  Ok ({| Negation := negb (Z.land nlen 0x80 =? 0);
         Network_IP := ip; Network_Mask := CIDRMask prefix (8 * size) |}, off + afdlen).

Definition unpackDataApl (msg : bytes) (off : Z) : wire (list APLPrefix * Z) :=
  unpack_until (zlen msg) (fun msg off => at_len msg (unpackDataAplPrefix msg off)) msg off.

(** ** Masks *)

Lemma mask_bytes_length n : forall ones, length (mask_bytes n ones) = n.
Proof. induction n; intros; cbn; auto. Qed.

Lemma mask_bytes_zero n : forall k ones, 0 <= ones -> (ones + 7) / 8 <= Z.of_nat k ->
  drop k (mask_bytes n ones) = replicate (n - k) x00.
Proof.
  induction n as [|n IH]; intros [|k] ones H0 Hk; cbn [mask_bytes drop replicate Nat.sub]; try done.
  - assert (ones = 0) as -> by dlia. cbn [Z.leb Z.compare]. f_equal.
    specialize (IH O 0). rewrite drop_0, Nat.sub_0_r in IH. by apply IH.
  - apply IH; destruct (Z.leb_spec 8 ones); dlia.
Qed.

Lemma byte_and_0 b : byte_and b x00 = x00.
Proof. unfold byte_and. change (bval x00) with 0. by rewrite Z.land_0_r. Qed.

(** The masked bytes that are not sent are zero. *)
Lemma masked_padding (ip : bytes) ones n :
  length ip = n -> 0 <= ones <= 8 * Z.of_nat n ->
  let m := zip_with byte_and ip (mask_bytes n ones) in
  let k := Z.to_nat ((ones + 7) / 8) in
  length m = n /\ take n (take k m) ++ replicate (n - length (take n (take k m))) x00 = m.
Proof.
  intros Hip Ho m k. assert (length m = n) as Hm
    by (unfold m; rewrite length_zip_with, mask_bytes_length; lia).
  split; [done|]. assert (k <= n)%nat by (unfold k; dlia).
  rewrite (take_ge (take k m) n) by (rewrite length_take; lia).
  rewrite length_take_le by lia. rewrite <- (take_drop k m) at 2. f_equal.
  unfold m. rewrite zip_with_drop, mask_bytes_zero by (unfold k; dlia).
  assert (length (drop k ip) = n - k)%nat as Hd by (rewrite length_drop; lia).
  clear -Hd. revert Hd. generalize (n - k)%nat. induction (drop k ip) as [|b l IH]; intros [|j] Hj;
    cbn [replicate zip_with length] in *; try done.
  f_equal; [by rewrite byte_and_0|]. apply IH. lia.
Qed.

Lemma IP_Mask_same ip m : zlen ip = zlen m -> IP_Mask ip m = zip_with byte_and ip m.
Proof.
  intros H. unfold IP_Mask. rewrite <- H.
  destruct (Z.eqb_spec (zlen ip) 16) as [E|]; cbn [andb].
  - rewrite E. cbn [Z.eqb Pos.eqb andb]. rewrite <- H, E. cbn [Z.eqb Pos.eqb andb]. by rewrite E.
  - rewrite andb_false_r. cbn [andb]. by rewrite H, Z.eqb_refl.
Qed.

(** ** The packer contract *)

Definition apl_ok (p : APLPrefix) : Prop :=
  exists n, (zlen (Network_IP p) = 4 \/ zlen (Network_IP p) = 16) /\
    0 <= n <= 8 * zlen (Network_IP p) /\ Network_Mask p = CIDRMask n (8 * zlen (Network_IP p)).

(** What a reader gets: the address masked. *)
Definition apl_read (p : APLPrefix) : APLPrefix :=
  {| Negation := Negation p; Network_IP := IP_Mask (Network_IP p) (Network_Mask p);
     Network_Mask := Network_Mask p |}.

(** [(a *APLPrefix) len]. *)
Definition apl_len (p : APLPrefix) : Z := 4 + (mask_Size (Network_Mask p) + 7) / 8.

(** Facts about the 33 and 129 masks, by computation. *)
Lemma seqZ_all (f : Z -> bool) m :
  forallb f (seqZ 0 m) = true -> forall n, 0 <= n < m -> f n = true.
Proof.
  intros H n Hn. apply Is_true_true, forallb_True in H. rewrite Forall_forall in H.
  apply Is_true_true, H, elem_of_seqZ. lia.
Qed.

Lemma CIDRMask_size n size :
  (size = 4 \/ size = 16) -> 0 <= n <= 8 * size ->
  zlen (CIDRMask n (8 * size)) = size /\ mask_Size (CIDRMask n (8 * size)) = n /\
  CIDRMask n (8 * size) = mask_bytes (Z.to_nat size) n.
Proof.
  intros Hs Hn.
  assert (forall s, s = 4 \/ s = 16 -> forallb (fun n => mask_Size (mask_bytes (Z.to_nat s) n) =? n)
    (seqZ 0 (8 * s + 1)) = true) as Hall by (intros s [->| ->]; by vm_compute).
  assert (CIDRMask n (8 * size) = mask_bytes (Z.to_nat size) n) as ->.
  { unfold CIDRMask. replace (8 * size / 8) with size by dlia. destruct Hs as [->| ->]; by decide_ifs. }
  split_and!; [unfold zlen; rewrite mask_bytes_length; lia| |done].
  apply Z.eqb_eq. apply (seqZ_all _ _ (Hall size Hs)). lia.
Qed.

Lemma trim_zeros_spec l :
  l = trim_zeros l ++ replicate (length l - length (trim_zeros l)) x00 /\
  (length (trim_zeros l) <= length l)%nat /\
  forall b, last (trim_zeros l) = Some b -> bval b <> 0.
Proof.
  induction l as [|b l (IH1 & IH2 & IH3)]; [done|]. cbn [trim_zeros].
  destruct (trim_zeros l) as [|c t] eqn:E.
  - destruct (Z.eqb_spec (bval b) 0) as [Hb|Hb]; cbn [app length Nat.sub replicate].
    + split_and!; [|lia|done]. rewrite Nat.sub_0_r in IH1. cbn [app] in IH1.
      f_equal; [by apply (inj bval)|exact IH1].
    + split_and!; [|lia|by intros ? [= <-]]. f_equal. rewrite Nat.sub_0_r in *. exact IH1.
  - cbn [length app Nat.sub] in *. split_and!; [by f_equal|lia|]. intros x Hx. apply IH3. by rewrite last_cons_cons in Hx.
Qed.

(** The length octet of a prefix: negation bit and address length. *)
Lemma apl_nlen neg k : 0 <= k <= 16 ->
  let n := Z.lor (if neg : bool then 0x80 else 0) (Z.land (k mod 256) 0x7f) in
  0 <= n < 256 /\ Z.land n 0x7f = k /\ negb (Z.land n 0x80 =? 0) = neg.
Proof.
  intros Hk n. unfold n.
  pose (f := fun k => let n := Z.lor (if neg then 0x80 else 0) (Z.land (k mod 256) 0x7f) in
    (0 <=? n) && (n <? 256) && (Z.land n 0x7f =? k) && Bool.eqb (negb (Z.land n 0x80 =? 0)) neg).
  assert (f k = true) as Hf by (apply (seqZ_all f 17); [by destruct neg; vm_compute|lia]).
  unfold f in Hf. rewrite !andb_true_iff, Z.leb_le, Z.ltb_lt, Z.eqb_eq, eqb_true_iff in Hf. tauto.
Qed.

Lemma zlen_IP_Mask ip m : zlen ip = zlen m -> zlen (IP_Mask ip m) = zlen m.
Proof. intros H. rewrite IP_Mask_same by done. unfold zlen in *. rewrite length_zip_with. lia. Qed.

Definition apl_family (ip : bytes) : Z := if zlen ip =? 4 then 1 else 2.

(** The octets of a prefix. *)
Definition apl_wire (p : APLPrefix) : bytes :=
  let prefix := mask_Size (Network_Mask p) in
  let addr := trim_zeros (ztake ((prefix + 7) / 8) (IP_Mask (Network_IP p) (Network_Mask p))) in
  be 2 (apl_family (Network_IP p)) ++ be 1 (prefix mod 256) ++
  be 1 (Z.lor (if Negation p then 0x80 else 0) (Z.land (zlen addr mod 256) 0x7f)) ++ addr.

Lemma packDataAplPrefix_fixed p : apl_ok p -> fixed (packDataAplPrefix p) (apl_wire p).
Proof.
  intros (n & Hip & Hn & Hm) msg off H0.
  destruct (CIDRMask_size n _ Hip Hn) as (Hl & Hsz & _). rewrite <- Hm in *.
  unfold packDataAplPrefix, apl_wire. rewrite Hl, Z.eqb_refl, Hsz. cbn [negb].
  rewrite slice_Some; [|lia|dlia|rewrite zlen_IP_Mask by lia; dlia].
  gosimp. rewrite Z.sub_0_r. change (zdrop 0 ?l) with l.
  set (addr := trim_zeros (ztake ((n + 7) / 8) (IP_Mask (Network_IP p) (Network_Mask p)))).
  set (nlen := Z.lor (if Negation p then 0x80 else 0) (Z.land (zlen addr mod 256) 0x7f)).
  pose proof (zlen_nonneg addr).
  rewrite !zlen_app, !be_length. change (Z.of_nat 2) with 2. change (Z.of_nat 1) with 1.
  assert ((if zlen (Network_IP p) =? 4 then packUint16 1 msg off
           else if zlen (Network_IP p) =? 16 then packUint16 2 msg off
           else fail off (MkError "unrecognized address family"))
          = packUint16 (apl_family (Network_IP p)) msg off) as ->.
  { unfold apl_family. by destruct Hip as [->| ->]. }
  destruct (fixed_uint16 (apl_family (Network_IP p)) msg off H0) as [[Hlt [e ->]]|(m1 & -> & W1)];
    rewrite be_length in *; change (Z.of_nat 2) with 2 in *.
  { left. split; [lia|]. by eexists. }
  pose proof (writes_len _ _ _ _ _ W1) as L1. gosimp.
  destruct (fixed_uint8 (n mod 256) m1 (off + 2) ltac:(lia)) as [[Hlt [e ->]]|(m2 & -> & W2)];
    rewrite be_length in *; change (Z.of_nat 1) with 1 in *.
  { left. split; [lia|]. by eexists. }
  pose proof (writes_len _ _ _ _ _ W2) as L2. gosimp.
  destruct (fixed_uint8 nlen m2 (off + 2 + 1) ltac:(lia)) as [[Hlt [e ->]]|(m3 & -> & W3)];
    rewrite be_length in *; change (Z.of_nat 1) with 1 in *.
  { left. split; [lia|]. by eexists. }
  pose proof (writes_len _ _ _ _ _ W3) as L3. gosimp.
  replace (off + (2 + (1 + (1 + zlen addr)))) with (off + 2 + 1 + 1 + zlen addr) by lia.
  destruct (Z.ltb_spec (zlen msg) (off + 2 + 1 + 1 + zlen addr)).
  { left. split; [lia|]. by eexists. }
  right. destruct (put_at_writes (E := Z * error) m3 (off + 2 + 1 + 1) addr) as (m4 & -> & W4); [lia|lia|].
  exists m4. split; [done|]. repeat (eapply writes_trans; [eassumption|]). exact W4.
Qed.

(** The address octets of a masked address, trimmed, give it back. *)
Lemma trimmed_address ip n size :
  zlen ip = Z.of_nat size -> 0 <= n <= 8 * Z.of_nat size ->
  let m := zip_with byte_and ip (mask_bytes size n) in
  let addr := trim_zeros (ztake ((n + 7) / 8) m) in
  zlen addr <= Z.of_nat size /\ zlen addr <= (n + 7) / 8 /\
  addr ++ replicate (Z.to_nat (Z.of_nat size - zlen addr)) x00 = m /\
  forall b, last addr = Some b -> bval b <> 0.
Proof.
  intros Hip Hn m addr. assert (length ip = size) as Hl by (unfold zlen in Hip; lia).
  destruct (masked_padding ip n size Hl Hn) as [Hm Hp]. fold m in Hm, Hp.
  set (k := Z.to_nat ((n + 7) / 8)) in *. assert (k <= size)%nat by (unfold k; dlia).
  rewrite (take_ge (take k m) size) in Hp by (rewrite length_take; lia).
  assert (length (take k m) = k) as Hk by (rewrite length_take; lia). rewrite Hk in Hp.
  destruct (trim_zeros_spec (take k m)) as (H1 & H2 & H3). rewrite Hk in H1, H2.
  assert (addr = trim_zeros (take k m)) as -> by done.
  split_and!; [unfold zlen; lia|unfold zlen, k in *; dlia| |done].
  transitivity (take k m ++ replicate (size - k) x00); [|exact Hp].
  assert (forall R, take k m ++ R =
    trim_zeros (take k m) ++ replicate (k - length (trim_zeros (take k m))) x00 ++ R) as ->
    by (intros R; by rewrite app_assoc, <- H1).
  f_equal.
  assert (forall a b : nat, replicate a x00 ++ replicate b x00 = replicate (a + b) x00) as ->
    by (intros; by rewrite replicate_add).
  f_equal. unfold zlen. lia.
Qed.

Lemma unpackUint16_mid pre v suf : u16 v ->
  unpackUint16 (pre ++ be 2 v ++ suf) (zlen pre) = Ok (v, zlen pre + 2).
Proof.
  intros Hv. unfold unpackUint16. rewrite (room_mid pre (be 2 v) suf 2) by done.
  rewrite (slice_mid pre (be 2 v)) by done. gosimp. by rewrite (unbe_be 2).
Qed.

Lemma unpackUint8_mid pre v suf : u8 v ->
  unpackUint8 (pre ++ be 1 v ++ suf) (zlen pre) = Ok (v, zlen pre + 1).
Proof.
  intros Hv. unfold unpackUint8. rewrite (room_mid pre (be 1 v) suf 1) by done. cbn [be app].
  rewrite zget_mid. gosimp. rewrite bval_byte_of, Z.div_1_r, Z.mod_small by exact Hv. done.
Qed.

Lemma unpack_apl_wire p pre suf :
  apl_ok p ->
  unpackDataAplPrefix (pre ++ apl_wire p ++ suf) (zlen pre) = Ok (apl_read p, zlen pre + zlen (apl_wire p)).
Proof.
  intros (n & Hip & Hn & Hm). destruct (CIDRMask_size n _ Hip Hn) as (Hl & Hsz & Hmb). rewrite <- Hm in *.
  set (size := Z.to_nat (zlen (Network_IP p))) in *.
  assert (Z.of_nat size = zlen (Network_IP p)) as Hsize by (unfold size; lia).
  assert (IP_Mask (Network_IP p) (Network_Mask p) = zip_with byte_and (Network_IP p) (mask_bytes size n)) as Hi.
  { rewrite IP_Mask_same by lia. by rewrite Hmb. }
  unfold apl_wire. rewrite Hsz, Hi.
  destruct (trimmed_address (Network_IP p) n size) as (A1 & A2 & A3 & A4); [lia|lia|].
  set (addr := trim_zeros _) in *. pose proof (zlen_nonneg addr).
  assert (u16 (apl_family (Network_IP p))) as Hfam by (unfold apl_family, u16; destruct Hip as [->| ->]; cbn; lia).
  destruct (apl_nlen (Negation p) (zlen addr)) as (N1 & N2 & N3); [lia|]. cbv zeta in N1, N2, N3.
  set (nlen := Z.lor _ _) in *.
  assert (zlen (be 2 (apl_family (Network_IP p)) ++ be 1 (n mod 256) ++ be 1 nlen ++ addr) = 4 + zlen addr) as ->
    by (rewrite !zlen_app, !be_length; lia).
  unfold unpackDataAplPrefix. rewrite <- !app_assoc.
  rewrite unpackUint16_mid by done. gosimp.
  set (msg := pre ++ _).
  assert (msg = (pre ++ be 2 (apl_family (Network_IP p))) ++ be 1 (n mod 256) ++ be 1 nlen ++ addr ++ suf) as E1
    by (unfold msg; by rewrite <- !app_assoc).
  assert (msg = (pre ++ be 2 (apl_family (Network_IP p)) ++ be 1 (n mod 256)) ++ be 1 nlen ++ addr ++ suf) as E2
    by (unfold msg; by rewrite <- !app_assoc).
  assert (msg = (pre ++ be 2 (apl_family (Network_IP p)) ++ be 1 (n mod 256) ++ be 1 nlen) ++ addr ++ suf) as E3
    by (unfold msg; by rewrite <- !app_assoc).
  assert (unpackUint8 msg (zlen pre + 2) = Ok (n, zlen pre + 2 + 1)) as ->.
  { rewrite E1. pose proof (unpackUint8_mid (pre ++ be 2 (apl_family (Network_IP p))) (n mod 256) (be 1 nlen ++ addr ++ suf)) as H8.
    rewrite zlen_app, be_length in H8. change (Z.of_nat 2) with 2 in H8. rewrite H8 by (unfold u8; dlia). rewrite Z.mod_small by lia. done. }
  gosimp.
  assert (unpackUint8 msg (zlen pre + 2 + 1) = Ok (nlen, zlen pre + 2 + 1 + 1)) as ->.
  { rewrite E2. pose proof (unpackUint8_mid (pre ++ be 2 (apl_family (Network_IP p)) ++ be 1 (n mod 256)) nlen (addr ++ suf)) as H8.
    rewrite !zlen_app, !be_length in H8. rewrite Z.add_assoc in H8.
    change (Z.of_nat 2) with 2 in H8. change (Z.of_nat 1) with 1 in H8. by rewrite H8. }
  gosimp.
  assert ((if apl_family (Network_IP p) =? 1 then Ok 4 else if apl_family (Network_IP p) =? 2 then Ok 16
           else fail (zlen msg) (MkError "unrecognized APL address family")) = @Ok (Z * error) Z (Z.of_nat size)) as ->.
  { rewrite Hsize. unfold apl_family. by destruct Hip as [->| ->]. }
  gosimp. rewrite Hsize in *. rewrite (proj2 (Z.ltb_ge _ n)) by lia. rewrite N2.
  rewrite (proj2 (Z.ltb_ge _ (zlen addr))) by lia.
  assert (zlen msg = zlen pre + 2 + 1 + 1 + zlen addr + zlen suf) as HL
    by (rewrite E3, !zlen_app, !be_length; lia).
  rewrite HL, (proj2 (Z.ltb_ge _ _)) by zlia.
  rewrite E3 at 1. rewrite slice_mid by (rewrite ?zlen_app, ?be_length; lia). gosimp.
  rewrite A3.
  assert (forall k : bool -> wire (APLPrefix * Z),
    (bad ← (if 0 <? zlen addr
            then b ← index (zget (zip_with byte_and (Network_IP p) (mask_bytes size n)) (zlen addr - 1)); Ok (bval b =? 0)
            else Ok false); k bad) = k false) as ->.
  { intros k. destruct (Z.ltb_spec 0 (zlen addr)); [|done]. rewrite <- A3, zget_app_l by lia.
    destruct (last addr) as [b|] eqn:El.
    - assert (zget addr (zlen addr - 1) = Some b) as ->.
      { rewrite last_lookup in El. unfold zget, zlen in *. rewrite (proj2 (Z.leb_le _ _)) by lia.
        rewrite <- El. f_equal. lia. }
      gosimp. by rewrite (proj2 (Z.eqb_neq _ _) (A4 b eq_refl)).
    - apply last_None in El. rewrite El in *. change (zlen []) with 0 in *. lia. }
  cbv beta. rewrite N3. unfold apl_read. rewrite Hi, Hm. do 2 f_equal. lia.
Qed.

Lemma carries_apl_prefix p :
  apl_ok p -> carries false (apl_len p) (plain (packDataAplPrefix p)) unpackDataAplPrefix (apl_read p).
Proof.
  intros Hok. eapply (carries_more _ (zlen (apl_wire p))).
  - destruct Hok as (n & Hip & Hn & Hm). destruct (CIDRMask_size n _ Hip Hn) as (Hl & Hsz & Hmb).
    unfold apl_wire, apl_len. rewrite !zlen_app, !be_length. rewrite Hm, Hsz, IP_Mask_same by lia. rewrite Hmb.
    destruct (trimmed_address (Network_IP p) n (Z.to_nat (zlen (Network_IP p)))) as (_ & A2 & _); [lia|lia|]. lia.
  - apply fixed_carries; [by apply packDataAplPrefix_fixed|]. intros. by apply unpack_apl_wire.
Qed.

Lemma unpackDataAplPrefix_progress msg off x off' :
  unpackDataAplPrefix msg off = Ok (x, off') -> off < off'.
Proof.
  unfold unpackDataAplPrefix. intros HU. inv_bind HU. destruct a as [f o1].
  inv_bind HU. destruct a as [pr o2]. inv_bind HU. destruct a as [nl o3].
  apply unpackUint16_Ok in Ha as [-> _].
  apply unpackUint8_Ok in Ha0 as [-> _]. apply unpackUint8_Ok in Ha1 as [-> Hnl].
  inv_bind HU. case_match; [done|]. case_match; [done|]. case_match; [done|].
  inv_bind HU. inv_bind HU. case_match; [done|]. injection HU as _ <-.
  assert (0 <= Z.land nl 0x7f) by (apply Z.land_nonneg; lia). unfold u8 in Hnl. lia.
Qed.

Lemma carries_apl l :
  Forall apl_ok l ->
  carries true (sum_with apl_len l) (plain (packDataApl l)) unpackDataApl (map apl_read l).
Proof.
  intros Hl. eapply carries_ext; [| |apply (carries_until
    (fun p => plain (fun msg off => at_len msg (packDataAplPrefix p msg off)))
    (fun msg off => at_len msg (unpackDataAplPrefix msg off)) apl_read apl_len)].
  - intros msg off cm _. symmetry. by rewrite <- foldM_plain.
  - done.
  - intros msg off x off' _ E. apply on_err_Ok in E. by eapply unpackDataAplPrefix_progress.
  - eapply Forall_impl; [exact Hl|]. intros p Hp.
    eapply carries_ext; [| |exact (carries_on_err false (apl_len p) _ _ _
      (fun msg e => (zlen msg, e.2)) (fun msg e => (zlen msg, e.2)) (carries_apl_prefix p Hp))].
    + intros msg off cm _. unfold plain, at_len. by destruct (packDataAplPrefix p msg off) as [[? ?]|?| |].
    + done.
  - eapply Forall_impl; [exact Hl|]. intros p (n & Hip & Hn & Hm).
    destruct (CIDRMask_size n _ Hip Hn) as (_ & Hsz & _). cbv beta. unfold apl_len. rewrite Hm, Hsz. dlia.
Qed.
