(* ===== verification/Edns.v ===== *)
(** * EDNS0 options (edns.go) and the OPT field (msg_helpers.go)

    The option types with their [pack] and [unpack], [makeDataOpt],
    [packDataOpt] and [unpackDataOpt]. A Go [error] made by [errors.New] or
    [fmt.Errorf] is [MkError] of its text. *)

From S2P Require Import Prelude Go Utf8 Labels Escape Names NameDecode NameEncode NameLen Wire Codec NameCarry Text Encodings Apl.

Definition EDNS0LLQ : Z := 1.
Definition EDNS0UL : Z := 2.
Definition EDNS0NSID : Z := 3.
Definition EDNS0ESU : Z := 4.
Definition EDNS0DAU : Z := 5.
Definition EDNS0DHU : Z := 6.
Definition EDNS0N3U : Z := 7.
Definition EDNS0SUBNET : Z := 8.
Definition EDNS0EXPIRE : Z := 9.
Definition EDNS0COOKIE : Z := 10.
Definition EDNS0TCPKEEPALIVE : Z := 11.
Definition EDNS0PADDING : Z := 12.
Definition EDNS0EDE : Z := 15.
Definition EDNS0REPORTING : Z := 18.
Definition EDNS0ZONEVERSION : Z := 19.

(** The structs that implement the interface [EDNS0]. *)
Inductive EDNS0 :=
| EDNS0_NSID (Code : Z) (Nsid : bytes)
| EDNS0_SUBNET (Code Family SourceNetmask SourceScope : Z) (Address : bytes)
| EDNS0_COOKIE (Code : Z) (Cookie : bytes)
| EDNS0_UL (Code Lease KeyLease : Z)
| EDNS0_LLQ (Code Version Opcode Error Id LeaseLife : Z)
| EDNS0_DAU (Code : Z) (AlgCode : bytes)
| EDNS0_DHU (Code : Z) (AlgCode : bytes)
| EDNS0_N3U (Code : Z) (AlgCode : bytes)
| EDNS0_EXPIRE (Code Expire : Z) (Empty : bool)
| EDNS0_LOCAL (Code : Z) (Data : bytes)
| EDNS0_TCP_KEEPALIVE (Code Timeout Length : Z)
| EDNS0_PADDING (Padding : bytes)
| EDNS0_EDE (InfoCode : Z) (ExtraText : bytes)
| EDNS0_ESU (Code : Z) (Uri : bytes)
| EDNS0_REPORTING (Code : Z) (AgentDomain : bytes)
| EDNS0_ZONEVERSION (Code LabelCount Type_ : Z) (Version : bytes).

(** [Option()]. *)
Definition Option (e : EDNS0) : Z :=
  match e with
  | EDNS0_NSID _ _ => EDNS0NSID
  | EDNS0_SUBNET _ _ _ _ _ => EDNS0SUBNET
  | EDNS0_COOKIE _ _ => EDNS0COOKIE
  | EDNS0_UL _ _ _ => EDNS0UL
  | EDNS0_LLQ _ _ _ _ _ _ => EDNS0LLQ
  | EDNS0_DAU _ _ => EDNS0DAU
  | EDNS0_DHU _ _ => EDNS0DHU
  | EDNS0_N3U _ _ => EDNS0N3U
  | EDNS0_EXPIRE _ _ _ => EDNS0EXPIRE
  | EDNS0_LOCAL Code _ => Code
  | EDNS0_TCP_KEEPALIVE _ _ _ => EDNS0TCPKEEPALIVE
  | EDNS0_PADDING _ => EDNS0PADDING
  | EDNS0_EDE _ _ => EDNS0EDE
  | EDNS0_ESU _ _ => EDNS0ESU
  | EDNS0_REPORTING _ _ => EDNS0REPORTING
  | EDNS0_ZONEVERSION _ _ _ _ => EDNS0ZONEVERSION
  end.

(** [makeDataOpt]: a zero value of the struct of the code. *)
Definition makeDataOpt (code : Z) : EDNS0 :=
  if code =? EDNS0LLQ then EDNS0_LLQ 0 0 0 0 0 0
  else if code =? EDNS0UL then EDNS0_UL 0 0 0
  else if code =? EDNS0NSID then EDNS0_NSID 0 []
  else if code =? EDNS0DAU then EDNS0_DAU 0 []
  else if code =? EDNS0DHU then EDNS0_DHU 0 []
  else if code =? EDNS0N3U then EDNS0_N3U 0 []
  else if code =? EDNS0SUBNET then EDNS0_SUBNET 0 0 0 0 []
  else if code =? EDNS0EXPIRE then EDNS0_EXPIRE 0 0 false
  else if code =? EDNS0COOKIE then EDNS0_COOKIE 0 []
  else if code =? EDNS0TCPKEEPALIVE then EDNS0_TCP_KEEPALIVE 0 0 0
  else if code =? EDNS0PADDING then EDNS0_PADDING []
  else if code =? EDNS0EDE then EDNS0_EDE 0 []
  else if code =? EDNS0ESU then EDNS0_ESU 0 []
  else if code =? EDNS0REPORTING then EDNS0_REPORTING 0 []
  else if code =? EDNS0ZONEVERSION then EDNS0_ZONEVERSION 0 0 0 []
  else EDNS0_LOCAL code [].

(** ** [pack] and [unpack] of the options with code of their own *)

(** [(e *EDNS0_SUBNET) pack]. *)
Definition subnet_pack (Family SourceNetmask SourceScope : Z) (Address : bytes) : res error bytes :=
  let masked size ip :=
    let needLength := (SourceNetmask + 8 - 1) mod 256 / 8 in
    let hd := be 2 Family ++ [byte_of SourceNetmask; byte_of SourceScope] in
    if 0 <? needLength then
      w ← index (slice (IP_Mask ip (CIDRMask SourceNetmask (size * 8))) 0 needLength);
      Ok (hd ++ w)
    else Ok hd in
  if Family =? 0 then
    if negb (SourceNetmask =? 0) then Err (MkError "bad address family")
    else Ok [x00; x00; x00; byte_of SourceScope]
  else if Family =? 1 then
    if 32 <? SourceNetmask then Err (MkError "bad netmask") else
    let ip4 := To4 Address in
    if negb (zlen ip4 =? 4) then Err (MkError "bad address") else masked 4 ip4
  else if Family =? 2 then
    if 128 <? SourceNetmask then Err (MkError "bad netmask") else
    if negb (zlen Address =? 16) then Err (MkError "bad address") else masked 16 Address
  else Err (MkError "bad address family").

(** [copy(addr, b[4:])] into a zeroed address. *)
Definition copy_addr (size : nat) (b : bytes) : bytes :=
  let s := take size (drop 4 b) in s ++ replicate (size - length s) x00.

Definition subnet_unpack (Code : Z) (b : bytes) : res error EDNS0 :=
  match b with
  | b0 :: b1 :: b2 :: b3 :: _ =>
      let Family := unbe [b0; b1] in
      let mk := EDNS0_SUBNET Code Family (bval b2) (bval b3) in
      if Family =? 0 then
        if negb (bval b2 =? 0) then Err (MkError "bad address family")
        else Ok (mk (v4InV6Prefix ++ replicate 4 x00))
      else if Family =? 1 then
        if (32 <? bval b2) || (32 <? bval b3) then Err (MkError "bad netmask")
        else Ok (mk (To16 (copy_addr 4 b)))
      else if Family =? 2 then
        if (128 <? bval b2) || (128 <? bval b3) then Err (MkError "bad netmask")
        else Ok (mk (copy_addr 16 b))
      else Err (MkError "bad address family")
  | _ => Err ErrBuf
  end.

Definition ul_pack (Lease KeyLease : Z) : bytes :=
  be 4 Lease ++ (if KeyLease =? 0 then [] else be 4 KeyLease).
Definition ul_unpack (Code : Z) (b : bytes) : res error EDNS0 :=
  if zlen b =? 4 then Ok (EDNS0_UL Code (unbe (take 4 b)) 0)
  else if zlen b =? 8 then Ok (EDNS0_UL Code (unbe (take 4 b)) (unbe (drop 4 b)))
  else Err ErrBuf.

Definition llq_pack (Version Opcode Error Id LeaseLife : Z) : bytes :=
  be 2 Version ++ be 2 Opcode ++ be 2 Error ++ be 8 Id ++ be 4 LeaseLife.
Definition llq_unpack (Code : Z) (b : bytes) : res error EDNS0 :=
  if zlen b <? 18 then Err ErrBuf else
  Ok (EDNS0_LLQ Code (unbe (take 2 b)) (unbe (take 2 (drop 2 b))) (unbe (take 2 (drop 4 b)))
        (unbe (take 8 (drop 6 b))) (unbe (take 4 (drop 14 b)))).

Definition expire_unpack (Code Expire : Z) (b : bytes) : res error EDNS0 :=
  if zlen b =? 0 then Ok (EDNS0_EXPIRE Code Expire true) else
  if zlen b <? 4 then Err ErrBuf else Ok (EDNS0_EXPIRE Code (unbe (take 4 b)) false).

Definition keepalive_unpack (Code Timeout Length : Z) (b : bytes) : res error EDNS0 :=
  if zlen b =? 0 then Ok (EDNS0_TCP_KEEPALIVE Code Timeout Length)
  else if zlen b =? 2 then Ok (EDNS0_TCP_KEEPALIVE Code (unbe b) Length)
  else Err (MkError "length mismatch, want 0/2").

Definition reporting_pack (AgentDomain : bytes) : res error bytes :=
  '(b, off1, _) ← on_err (fun e => Errorf "bad agent domain" e.2)
                   (PackDomainName (Fqdn AgentDomain) (replicate 255 x00) 0 None false);
  index (slice b 0 off1).
Definition reporting_unpack (Code : Z) (b : bytes) : res error EDNS0 :=
  '(domain, _) ← on_err (fun e => Errorf "bad agent domain" e.2) (UnpackDomainName b 0);
  Ok (EDNS0_REPORTING Code domain).

Definition zoneversion_unpack (Code : Z) (b : bytes) : res error EDNS0 :=
  match b with
  | b0 :: b1 :: Version => Ok (EDNS0_ZONEVERSION Code (bval b0) (bval b1) Version)
  | _ => Err ErrBuf
  end.

(** [pack()] of the interface. *)
Definition opt_pack (e : EDNS0) : res error bytes :=
  match e with
  | EDNS0_NSID _ Nsid => hex_DecodeString Nsid
  | EDNS0_SUBNET _ Family SourceNetmask SourceScope Address =>
      subnet_pack Family SourceNetmask SourceScope Address
  | EDNS0_COOKIE _ Cookie => hex_DecodeString Cookie
  | EDNS0_UL _ Lease KeyLease => Ok (ul_pack Lease KeyLease)
  | EDNS0_LLQ _ Version Opcode Error_ Id LeaseLife =>
      Ok (llq_pack Version Opcode Error_ Id LeaseLife)
  | EDNS0_DAU _ AlgCode | EDNS0_DHU _ AlgCode | EDNS0_N3U _ AlgCode => Ok AlgCode
  | EDNS0_EXPIRE _ Expire Empty => Ok (if Empty then [] else be 4 Expire)
  | EDNS0_LOCAL _ Data => Ok Data
  | EDNS0_TCP_KEEPALIVE _ Timeout _ => Ok (if 0 <? Timeout then be 2 Timeout else [])
  | EDNS0_PADDING Padding => Ok Padding
  | EDNS0_EDE InfoCode ExtraText => Ok (be 2 InfoCode ++ ExtraText)
  | EDNS0_ESU _ Uri => Ok Uri
  | EDNS0_REPORTING _ AgentDomain => reporting_pack AgentDomain
  | EDNS0_ZONEVERSION _ LabelCount Type_ Version =>
      Ok (byte_of LabelCount :: byte_of Type_ :: Version)
  end.

(** [unpack(b)] of the interface: the option with its fields set. *)
Definition opt_unpack (e : EDNS0) (b : bytes) : res error EDNS0 :=
  match e with
  | EDNS0_NSID Code _ => Ok (EDNS0_NSID Code (hex_EncodeToString b))
  | EDNS0_SUBNET Code _ _ _ _ => subnet_unpack Code b
  | EDNS0_COOKIE Code _ => Ok (EDNS0_COOKIE Code (hex_EncodeToString b))
  | EDNS0_UL Code _ _ => ul_unpack Code b
  | EDNS0_LLQ Code _ _ _ _ _ => llq_unpack Code b
  | EDNS0_DAU Code _ => Ok (EDNS0_DAU Code b)
  | EDNS0_DHU Code _ => Ok (EDNS0_DHU Code b)
  | EDNS0_N3U Code _ => Ok (EDNS0_N3U Code b)
  | EDNS0_EXPIRE Code Expire _ => expire_unpack Code Expire b
  | EDNS0_LOCAL Code _ => Ok (EDNS0_LOCAL Code b)
  | EDNS0_TCP_KEEPALIVE Code Timeout Length => keepalive_unpack Code Timeout Length b
  | EDNS0_PADDING _ => Ok (EDNS0_PADDING b)
  | EDNS0_EDE _ _ =>
      if zlen b <? 2 then Err ErrBuf else Ok (EDNS0_EDE (unbe (take 2 b)) (drop 2 b))
  | EDNS0_ESU Code _ => Ok (EDNS0_ESU Code b)
  | EDNS0_REPORTING Code _ => reporting_unpack Code b
  | EDNS0_ZONEVERSION Code _ _ _ => zoneversion_unpack Code b
  end.

(** ** The field *)

(** One option of [packDataOpt]. *)
Definition pack_opt (el : EDNS0) (msg : bytes) (off : Z) : wire (bytes * Z) :=
  b ← on_err (fun _ : error => (zlen msg, MkError "overflow packing opt")) (opt_pack el);
  if zlen msg <? off + 4 then fail (zlen msg) (MkError "overflow packing opt") else
  msg ← put_at msg off (be 2 (Option el));
  msg ← put_at msg (off + 2) (be 2 (zlen b));
  let off := off + 4 in
  if zlen msg <? off + zlen b then fail (zlen msg) (MkError "overflow packing opt") else
  msg ← put_at msg off b;
  Ok (msg, off + zlen b).

Definition packDataOpt (options : list EDNS0) (msg : bytes) (off : Z) : wire (bytes * Z) :=
  foldM (fun '(msg, off) el => pack_opt el msg off) (msg, off) options.

(** One option of [unpackDataOpt]. *)
Definition unpack_opt (msg : bytes) (off : Z) : wire (EDNS0 * Z) :=
  if zlen msg <? off + 4 then fail (zlen msg) (MkError "overflow unpacking opt") else
  w ← index (slice msg off (off + 2));
  let code := unbe w in
  let off := off + 2 in
  w ← index (slice msg off (off + 2));
  let optlen := unbe w in
  let off := off + 2 in
  if zlen msg <? off + optlen then fail (zlen msg) (MkError "overflow unpacking opt") else
  data ← index (slice msg off (off + optlen));
  opt ← on_err (fun e => (zlen msg, e)) (opt_unpack (makeDataOpt code) data);
  Ok (opt, off + optlen).

Definition unpackDataOpt (msg : bytes) (off : Z) : wire (list EDNS0 * Z) :=
  unpack_until (zlen msg) unpack_opt msg off.

(** ** The TTL of an OPT record as bit fields *)

Definition DO_ : Z := 2 ^ 15.
Definition CO_ : Z := 2 ^ 14.

Definition Version (Ttl : Z) : Z := Z.shiftr (Z.land Ttl 0x00FF0000) 16 mod 256.
Definition SetVersion (v Ttl : Z) : Z := Z.lor (Z.land Ttl 0xFF00FFFF) (Z.shiftl v 16).
Definition ExtendedRcode (Ttl : Z) : Z := Z.shiftl (Z.shiftr (Z.land Ttl 0xFF000000) 24) 4.
Definition SetExtendedRcode (v Ttl : Z) : Z :=
  Z.lor (Z.land Ttl 0x00FFFFFF) (Z.shiftl (Z.shiftr v 4) 24 mod 2 ^ 32).
Definition Do (Ttl : Z) : bool := Z.land Ttl DO_ =? DO_.
Definition Co (Ttl : Z) : bool := Z.land Ttl CO_ =? CO_.

(** The arguments are a Go variadic: only a single [false] clears the bit. *)
Definition SetDo (do : list bool) (Ttl : Z) : Z :=
  match do with [false] => Z.ldiff Ttl DO_ | _ => Z.lor Ttl DO_ end.
Definition SetCo (co : list bool) (Ttl : Z) : Z :=
  match co with [false] => Z.ldiff Ttl CO_ | _ => Z.lor Ttl CO_ end.
Definition OPT_Z (Ttl : Z) : Z := Z.land Ttl 0x3FFF mod 65536.
Definition SetZ (z Ttl : Z) : Z := Z.lor (Z.ldiff Ttl 0x3FFF) (Z.land z 0x3FFF).


Lemma Version_field t : Version t = field t 16 8.
Proof.
  unfold Version. change 0x00FF0000 with (Z.shiftl (Z.ones 8) 16).
  rewrite land_field by lia. by apply Z.mod_small, field_range.
Qed.
Lemma ExtendedRcode_field t : ExtendedRcode t = field t 24 8 * 16.
Proof.
  unfold ExtendedRcode. change 0xFF000000 with (Z.shiftl (Z.ones 8) 24).
  rewrite land_field by lia. by rewrite Z.shiftl_mul_pow2 by lia.
Qed.
Lemma Do_field t : Do t = (field t 15 1 =? 1).
Proof. by apply bit_field. Qed.
Lemma Co_field t : Co t = (field t 14 1 =? 1).
Proof. by apply bit_field. Qed.
Lemma OPT_Z_field t : OPT_Z t = field t 0 14.
Proof.
  unfold OPT_Z. rewrite <- land_field by lia. change (Z.shiftl (Z.ones 14) 0) with 0x3FFF.
  rewrite Z.shiftr_0_r. apply Z.mod_small. change 0x3FFF with (Z.ones 14).
  rewrite Z.land_ones by lia. pose proof (Z.mod_pos_bound t (2 ^ 14) ltac:(lia)). lia.
Qed.
Lemma SetVersion_field v t : u32 t -> SetVersion v t = set_field t 16 8 v.
Proof.
  intros. unfold SetVersion, set_field.
  change 0xFF00FFFF with (Z.ldiff (Z.ones 32) (Z.shiftl (Z.ones 8) 16)). by rewrite land_mask.
Qed.
Lemma SetExtendedRcode_field v t : u32 t -> 0 <= v < 65536 ->
  SetExtendedRcode v t = set_field t 24 8 (v / 16 mod 256).
Proof.
  intros. unfold SetExtendedRcode, set_field.
  change 0x00FFFFFF with (Z.ldiff (Z.ones 32) (Z.shiftl (Z.ones 8) 24)). rewrite land_mask by done.
  f_equal. rewrite Z.shiftr_div_pow2, !Z.shiftl_mul_pow2 by lia. change (2 ^ 4) with 16.
  change (2 ^ 32) with (256 * 2 ^ 24). apply Z.mul_mod_distr_r; lia.
Qed.
Lemma SetDo_field do t : SetDo do t = set_field t 15 1 (if decide (do = [false]) then 0 else 1).
Proof.
  unfold SetDo, DO_. case_decide as H; [subst; by apply clear_bit|].
  destruct do as [|[|] [|]]; try (by apply set_bit); done.
Qed.
Lemma SetCo_field co t : SetCo co t = set_field t 14 1 (if decide (co = [false]) then 0 else 1).
Proof.
  unfold SetCo, CO_. case_decide as H; [subst; by apply clear_bit|].
  destruct co as [|[|] [|]]; try (by apply set_bit); done.
Qed.
Lemma SetZ_field z t : SetZ z t = set_field t 0 14 (z mod 2 ^ 14).
Proof.
  unfold SetZ, set_field. change (Z.shiftl (Z.ones 14) 0) with 0x3FFF. f_equal.
  rewrite Z.shiftl_0_r. change 0x3FFF with (Z.ones 14). by apply Z.land_ones.
Qed.

(** The five fields an OPT record keeps in its TTL are independent: each
    setter stores its argument (the extended rcode its eight high bits, Z its
    low fourteen), no setter touches another field. *)
Theorem opt_ttl_fields t v r z (do co : list bool) :
  u32 t -> 0 <= v < 256 -> 0 <= r < 65536 ->
  let all x := (Version x, ExtendedRcode x, Do x, Co x, OPT_Z x) in
  all (SetVersion v t) = (v, ExtendedRcode t, Do t, Co t, OPT_Z t) /\
  all (SetExtendedRcode r t) = (Version t, r / 16 mod 256 * 16, Do t, Co t, OPT_Z t) /\
  all (SetDo do t) = (Version t, ExtendedRcode t, bool_decide (do <> [false]), Co t, OPT_Z t) /\
  all (SetCo co t) = (Version t, ExtendedRcode t, Do t, bool_decide (co <> [false]), OPT_Z t) /\
  all (SetZ z t) = (Version t, ExtendedRcode t, Do t, Co t, z mod 2 ^ 14).
Proof.
  intros Ht Hv Hr all. unfold all.
  assert (forall (P : Prop) `{Decision P}, 0 <= (if decide P then 0 else 1) < 2 ^ 1) as Hb
    by (intros; case_decide; lia).
  assert (forall l : list bool, ((if decide (l = [false]) then 0 else 1) =? 1) = bool_decide (l <> [false])) as Hd
    by (intros; case_decide; symmetry; [apply bool_decide_eq_false|apply bool_decide_eq_true]; tauto).
  rewrite SetVersion_field, SetExtendedRcode_field, SetDo_field, SetCo_field, SetZ_field by done.
  pose proof (Z.mod_pos_bound (r / 16) 256 ltac:(lia)). pose proof (Z.mod_pos_bound z (2 ^ 14) ltac:(lia)).
  rewrite !Version_field, !ExtendedRcode_field, !Do_field, !Co_field, !OPT_Z_field.
  split_and!; repeat match goal with
  | |- context [field (set_field ?x ?k ?n ?v) ?k ?n] => rewrite (field_set x k n v) by (lia || apply Hb)
  | |- context [field (set_field ?x ?k ?n ?v) ?k' ?n'] =>
      rewrite (field_set_other x k n v k' n') by (lia || apply Hb)
  end; by rewrite ?Hd.
Qed.

Lemma opt_ttl_fields_witness :
  u32 0x00008000 /\ Version (SetVersion 3 0x00008000) = 3 /\ Do (SetVersion 3 0x00008000) = true.
Proof.
  assert (u32 0x00008000) as Hu by (unfold u32; lia).
  destruct (opt_ttl_fields 0x00008000 3 0 0 [] [] Hu) as [E _]; [lia|lia|].
  cbv zeta in E. split; [exact Hu|]. split; [exact (f_equal (fun x => x.1.1.1.1) E)|].
  exact (f_equal (fun x => x.1.1.2) E).
Defined.

(** ** What a reader gets back *)

(** The address a SUBNET option is read with: the masked one. *)
Definition subnet_address (Family SourceNetmask : Z) (Address : bytes) : bytes :=
  if Family =? 0 then v4InV6Prefix ++ replicate 4 x00
  else if Family =? 1 then To16 (IP_Mask (To4 Address) (CIDRMask SourceNetmask 32))
  else IP_Mask Address (CIDRMask SourceNetmask 128).

(** [Code] is not filled by [unpackDataOpt], an empty EXPIRE has no value,
    [Length] is not sent. *)
Definition opt_read (e : EDNS0) : EDNS0 :=
  match e with
  | EDNS0_NSID _ Nsid => EDNS0_NSID 0 Nsid
  | EDNS0_SUBNET _ f n s a => EDNS0_SUBNET 0 f n s (subnet_address f n a)
  | EDNS0_COOKIE _ c => EDNS0_COOKIE 0 c
  | EDNS0_UL _ l k => EDNS0_UL 0 l k
  | EDNS0_LLQ _ v o e i l => EDNS0_LLQ 0 v o e i l
  | EDNS0_DAU _ a => EDNS0_DAU 0 a
  | EDNS0_DHU _ a => EDNS0_DHU 0 a
  | EDNS0_N3U _ a => EDNS0_N3U 0 a
  | EDNS0_EXPIRE _ e emp => EDNS0_EXPIRE 0 (if emp then 0 else e) emp
  | EDNS0_LOCAL c d => EDNS0_LOCAL c d
  | EDNS0_TCP_KEEPALIVE _ t _ => EDNS0_TCP_KEEPALIVE 0 t 0
  | EDNS0_PADDING p => EDNS0_PADDING p
  | EDNS0_EDE i t => EDNS0_EDE i t
  | EDNS0_ESU _ u => EDNS0_ESU 0 u
  | EDNS0_REPORTING _ a => EDNS0_REPORTING 0 a
  | EDNS0_ZONEVERSION _ l t v => EDNS0_ZONEVERSION 0 l t v
  end.


(** The fields fit their Go types and the option can be packed. *)
Definition opt_ok (e : EDNS0) : Prop :=
  match e with
  | EDNS0_NSID _ s | EDNS0_COOKIE _ s => exists l, s = hex_EncodeToString l
  | EDNS0_SUBNET _ f n s a =>
      u8 n /\ u8 s /\
      ((f = 0 /\ n = 0) \/ (f = 1 /\ n <= 32 /\ s <= 32 /\ zlen (To4 a) = 4) \/
       (f = 2 /\ n <= 128 /\ s <= 128 /\ zlen a = 16))
  | EDNS0_UL _ l k => u32 l /\ u32 k
  | EDNS0_LLQ _ v o e i l => u16 v /\ u16 o /\ u16 e /\ u64 i /\ u32 l
  | EDNS0_EXPIRE _ e _ => u32 e
  | EDNS0_LOCAL c _ => u16 c /\ makeDataOpt c = EDNS0_LOCAL c []
  | EDNS0_TCP_KEEPALIVE _ t _ => u16 t
  | EDNS0_EDE i _ => u16 i
  | EDNS0_REPORTING _ a => exists ls, good_labels ls /\ a = show_name ls
  | EDNS0_ZONEVERSION _ l t _ => u8 l /\ u8 t
  | EDNS0_DAU _ _ | EDNS0_DHU _ _ | EDNS0_N3U _ _ | EDNS0_PADDING _ | EDNS0_ESU _ _ => True
  end.

Lemma subnet_rest size (ip : bytes) n :
  length ip = size -> 0 <= n <= 8 * Z.of_nat size -> n <= 128 ->
  let m := zip_with byte_and ip (mask_bytes size n) in
  let need := (n + 8 - 1) mod 256 / 8 in
  exists w, length m = size /\ zlen w <= Z.of_nat size /\
    (forall hd, (if 0 <? need then w ← index (slice m 0 need); Ok (hd ++ w) else Ok hd)
                = @Ok error bytes (hd ++ w)) /\
    (forall h0 h1 h2 h3, copy_addr size (h0 :: h1 :: h2 :: h3 :: w) = m).
Proof.
  intros Hip Hn Hn' m need. destruct (masked_padding ip n size Hip Hn) as [Hm Hp]. fold m in Hm, Hp.
  assert (need = (n + 7) / 8) as Hneed by (unfold need; rewrite Z.mod_small by lia; f_equal; lia).
  assert (0 <= need <= Z.of_nat size) by (rewrite Hneed; dlia).
  exists (take (Z.to_nat ((n + 7) / 8)) m). rewrite <- Hneed in *. split_and!.
  - done.
  - unfold zlen. rewrite length_take. lia.
  - intros hd. destruct (Z.ltb_spec 0 need).
    + rewrite slice_Some by (unfold zlen; lia). gosimp. unfold ztake, zdrop. by rewrite Z.sub_0_r.
    + replace need with 0 by lia. by rewrite app_nil_r.
  - intros. unfold copy_addr. cbn [app drop]. exact Hp.
Qed.

Lemma To4_cases a : To4 a = [] \/ zlen (To4 a) = 4.
Proof.
  unfold To4. destruct (Z.eqb_spec (zlen a) 4); [auto|].
  destruct (Z.eqb_spec (zlen a) 16); cbn [andb]; [|auto]. case_bool_decide; [|auto].
  right. rewrite zlen_zdrop; lia.
Qed.

Lemma be2_bytes v : exists b0 b1, be 2 v = [b0; b1].
Proof. eauto. Qed.

Lemma bval_small x : u8 x -> bval (byte_of x) = x.
Proof. apply byte_of_small. Qed.

Lemma subnet_roundtrip c f n s a :
  opt_ok (EDNS0_SUBNET c f n s a) ->
  exists b, subnet_pack f n s a = Ok b /\
    subnet_unpack 0 b = Ok (EDNS0_SUBNET 0 f n s (subnet_address f n a)) /\ zlen b <= 20.
Proof.
  intros (Hn & Hs & [[-> ->]|[(-> & Hn' & Hs' & Ha)|(-> & Hn' & Hs' & Ha)]]).
  - exists [x00; x00; x00; byte_of s]. split_and!; [done| |unfold zlen; cbn; lia].
    unfold subnet_unpack. by rewrite bval_small.
  - assert (length (To4 a) = 4)%nat as Hl by (unfold zlen in Ha; lia).
    unfold u8 in *.
    destruct (subnet_rest 4 (To4 a) n) as (w & Hm & Hw & Hpk & Hc); [done|lia|lia|].
    assert (CIDRMask n 32 = mask_bytes 4 n) as Hcm.
    { unfold CIDRMask. by decide_ifs. }
    assert (IP_Mask (To4 a) (CIDRMask n 32) = zip_with byte_and (To4 a) (mask_bytes 4 n)) as Hi.
    { rewrite Hcm. apply IP_Mask_same. unfold zlen. rewrite mask_bytes_length. lia. }
    exists ((be 2 1 ++ [byte_of n; byte_of s]) ++ w). split_and!.
    + unfold subnet_pack. cbn [Z.eqb Pos.eqb]. rewrite (proj2 (Z.ltb_ge 32 n)) by lia.
      rewrite (proj2 (Z.eqb_eq _ _) Ha). cbn [negb]. change (4 * 8) with 32. rewrite Hi. apply Hpk.
    + cbn [be app subnet_unpack]. rewrite !bval_small by (unfold u8; lia).
      change (unbe _) with 1. cbn [Z.eqb Pos.eqb].
      rewrite (proj2 (Z.ltb_ge 32 n)), (proj2 (Z.ltb_ge 32 s)) by lia. cbn [orb].
      rewrite Hc. unfold subnet_address. cbn [Z.eqb Pos.eqb]. by rewrite Hi.
    + cbn [be app]. zlia.
  - assert (length a = 16)%nat as Hl by (unfold zlen in Ha; lia).
    unfold u8 in *.
    destruct (subnet_rest 16 a n) as (w & Hm & Hw & Hpk & Hc); [done|lia|lia|].
    assert (CIDRMask n 128 = mask_bytes 16 n) as Hcm.
    { unfold CIDRMask. by decide_ifs. }
    assert (IP_Mask a (CIDRMask n 128) = zip_with byte_and a (mask_bytes 16 n)) as Hi.
    { rewrite Hcm. apply IP_Mask_same. unfold zlen. rewrite mask_bytes_length. lia. }
    exists ((be 2 2 ++ [byte_of n; byte_of s]) ++ w). split_and!.
    + unfold subnet_pack. cbn [Z.eqb Pos.eqb]. rewrite (proj2 (Z.ltb_ge 128 n)) by lia.
      rewrite (proj2 (Z.eqb_eq _ _) Ha). cbn [negb]. change (16 * 8) with 128. rewrite Hi. apply Hpk.
    + cbn [be app subnet_unpack]. rewrite !bval_small by (unfold u8; lia).
      change (unbe _) with 2. cbn [Z.eqb Pos.eqb].
      rewrite (proj2 (Z.ltb_ge 128 n)), (proj2 (Z.ltb_ge 128 s)) by lia. cbn [orb].
      rewrite Hc. unfold subnet_address. cbn [Z.eqb Pos.eqb]. by rewrite Hi.
    + cbn [be app]. zlia.
Qed.

Lemma reporting_roundtrip ls :
  good_labels ls ->
  exists b, reporting_pack (show_name ls) = Ok b /\
    reporting_unpack 0 b = Ok (EDNS0_REPORTING 0 (show_name ls)) /\ zlen b <= 255.
Proof.
  intros Hls. pose proof Hls as (_ & Hw & _).
  destruct (carries_name ls false Hls 0 nil_map 255 ltac:(lia))
    as [[Hlt _]|(w & cm' & H1 & H2 & H3 & _ & H5)]; [lia|].
  exists w. unfold reporting_pack, Fqdn. rewrite IsFqdn_show_name.
  destruct (H3 (replicate 255 x00)) as (msg & E & Hm & Ht); [done|].
  unfold PackDomainName. change {| ext := None; int_ := None |} with nil_map. rewrite E. gosimp.
  cbn [app ztake] in Ht. change (take (Z.to_nat 0) _) with (@nil byte) in Ht. cbn [app] in Ht.
  rewrite slice_Some by zlia. gosimp.
  unfold zdrop. change (drop (Z.to_nat 0) msg) with msg. rewrite Z.sub_0_r.
  change (0 + zlen w) with (zlen w) in *. rewrite Ht. split_and!; [done| |lia].
  destruct (H5 [] eq_refl) as [_ H6].
  { by split. }
  specialize (H6 [] ltac:(done)). cbn [app] in H6. rewrite app_nil_r in H6.
  unfold reporting_unpack. by rewrite H6.
Qed.

Lemma be2_unbe v (l : bytes) : u16 v -> unbe (take 2 (be 2 v ++ l)) = v.
Proof. intros. rewrite take_app_length' by done. by apply unbe_be. Qed.

Lemma llq_roundtrip v o e i l :
  u16 v -> u16 o -> u16 e -> u64 i -> u32 l ->
  llq_unpack 0 (llq_pack v o e i l) = Ok (EDNS0_LLQ 0 v o e i l).
Proof.
  intros. unfold llq_unpack, llq_pack. rewrite !zlen_app, !be_length. cbn [Z.of_nat Z.ltb Z.add].
  change (2 + (2 + (2 + (8 + 4))) <? 18) with false. cbn match.
  rewrite be2_unbe by done.
  assert (forall n m x (r : bytes), drop (n + m) (be n x ++ r) = drop m r) as Hd.
  { intros. rewrite <- drop_drop, drop_app_length'; [done|]. pose proof (be_length n x). unfold zlen in *. lia. }
  rewrite (Hd 2%nat 0%nat), (Hd 2%nat 2%nat), (Hd 2%nat 0%nat), (Hd 2%nat 4%nat), (Hd 2%nat 2%nat),
    (Hd 2%nat 0%nat), (Hd 2%nat 12%nat), (Hd 2%nat 10%nat), (Hd 2%nat 8%nat), (Hd 8%nat 0%nat), !drop_0.
  rewrite !be2_unbe by done.
  rewrite take_app_length', take_ge by done.
  rewrite (unbe_be 8), (unbe_be 4) by done. done.
Qed.

Lemma opt_roundtrip e :
  opt_ok e ->
  exists b, opt_pack e = Ok b /\ opt_unpack (makeDataOpt (Option e)) b = Ok (opt_read e).
Proof.
  destruct e; intros H; cbn [opt_pack Option opt_read].
  - destruct H as [l ->]. exists l. by rewrite hex_roundtrip.
  - destruct (subnet_roundtrip _ _ _ _ _ H) as (b & E1 & E2 & _). by exists b.
  - destruct H as [l ->]. exists l. by rewrite hex_roundtrip.
  - destruct H as [Hl Hk]. eexists. split; [done|]. unfold ul_pack.
    change (makeDataOpt EDNS0UL) with (EDNS0_UL 0 0 0). cbn [opt_unpack]. unfold ul_unpack.
    rewrite zlen_app, !be_length. destruct (Z.eqb_spec KeyLease 0) as [->|].
    + change (Z.of_nat 4 + zlen [] =? 4) with true. cbn match.
      rewrite app_nil_r, take_ge, (unbe_be 4) by done. done.
    + rewrite be_length. cbn [Z.of_nat Z.add Z.eqb Pos.eqb].
      change (Z.of_nat 4 + Z.of_nat 4 =? 4) with false. change (Z.of_nat 4 + Z.of_nat 4 =? 8) with true.
      cbn match. rewrite take_app_length', drop_app_length', !(unbe_be 4) by done. done.
  - destruct H as (?&?&?&?&?). eexists. split; [done|]. by apply llq_roundtrip.
  - by eexists.
  - by eexists.
  - by eexists.
  - eexists. split; [done|]. destruct Empty; [done|].
    change (makeDataOpt EDNS0EXPIRE) with (EDNS0_EXPIRE 0 0 false). cbn [opt_unpack]. unfold expire_unpack.
    rewrite be_length. change (Z.of_nat 4 =? 0) with false. change (Z.of_nat 4 <? 4) with false. cbn match.
    rewrite take_ge, (unbe_be 4) by done. done.
  - destruct H as [_ H]. eexists. split; [done|]. by rewrite H.
  - eexists. split; [done|].
    change (makeDataOpt EDNS0TCPKEEPALIVE) with (EDNS0_TCP_KEEPALIVE 0 0 0). cbn [opt_unpack].
    unfold keepalive_unpack. unfold opt_ok, u16 in H. destruct (Z.ltb_spec 0 Timeout).
    + rewrite be_length. cbn [Z.of_nat Z.eqb Pos.eqb]. change (Z.of_nat 2 =? 0) with false.
      change (Z.of_nat 2 =? 2) with true. cbn match. by rewrite (unbe_be 2).
    + by replace Timeout with 0 by lia.
  - by eexists.
  - eexists. split; [done|]. change (makeDataOpt EDNS0EDE) with (EDNS0_EDE 0 []). cbn [opt_unpack].
    rewrite zlen_app, be_length. pose proof (zlen_nonneg ExtraText). rewrite (proj2 (Z.ltb_ge _ _)) by lia.
    rewrite be2_unbe, drop_app_length' by done. done.
  - by eexists.
  - destruct H as (ls & Hls & ->). destruct (reporting_roundtrip ls Hls) as (b & E1 & E2 & _). by exists b.
  - destruct H. eexists. split; [done|].
    change (makeDataOpt EDNS0ZONEVERSION) with (EDNS0_ZONEVERSION 0 0 0 []). cbn [opt_unpack zoneversion_unpack].
    by rewrite !bval_small.
Qed.

(** The data of an option fits 16 bits of length. *)
Definition opt_fits (e : EDNS0) : Prop :=
  forall b, opt_pack e = Ok b -> zlen b < 65536.



(** ** The packer contract *)

(** [OPT.len] counts these octets for an option. *)
Definition opt_len (e : EDNS0) : Z :=
  4 + match opt_pack e with Ok b => zlen b | _ => 0 end.

Lemma Option_u16 e : opt_ok e -> u16 (Option e).
Proof. destruct e; intros H; try (unfold u16; cbn; lia); by destruct H. Qed.

Lemma pack_opt_writes e b msg off :
  opt_pack e = Ok b -> 0 <= off -> off + opt_len e <= zlen msg ->
  exists msg', pack_opt e msg off = Ok (msg', off + opt_len e) /\
    writes msg off (be 2 (Option e) ++ be 2 (zlen b) ++ b) msg' (off + opt_len e).
Proof.
  intros Hb H0 Hle. unfold opt_len in *. rewrite Hb in *. unfold pack_opt. rewrite Hb. gosimp.
  pose proof (zlen_nonneg b). rewrite (proj2 (Z.ltb_ge _ _)) by lia.
  destruct (put_at_writes (E := Z * error) msg off (be 2 (Option e))) as (m1 & -> & W1); [done|rewrite be_length; lia|].
  gosimp. pose proof (writes_len _ _ _ _ _ W1) as L1. rewrite be_length in W1.
  destruct (put_at_writes (E := Z * error) m1 (off + 2) (be 2 (zlen b))) as (m2 & -> & W2);
    [lia|rewrite be_length; lia|].
  gosimp. pose proof (writes_len _ _ _ _ _ W2) as L2. rewrite be_length in W2.
  rewrite (proj2 (Z.ltb_ge _ _)) by lia.
  destruct (put_at_writes (E := Z * error) m2 (off + 4) b) as (m3 & -> & W3); [lia|lia|].
  gosimp. exists m3. rewrite Z.add_assoc. split; [done|].
  eapply writes_trans; [exact W1|]. eapply writes_trans; [exact W2|].
  replace (off + 2 + Z.of_nat 2) with (off + 4) by lia. exact W3.
Qed.

Lemma carries_opt e :
  opt_ok e -> opt_fits e -> carries false (opt_len e) (plain (pack_opt e)) unpack_opt (opt_read e).
Proof.
  intros Hok Hfit. destruct (opt_roundtrip e Hok) as (b & E1 & E2). specialize (Hfit b E1).
  set (w := be 2 (Option e) ++ be 2 (zlen b) ++ b).
  assert (opt_len e = zlen w) as Hlen by (unfold opt_len, w; rewrite E1, !zlen_app, !be_length; lia).
  apply (carries_fixed _ _ _ _ _ w); [lia| | |].
  - intros msg off H0 Hle. destruct (pack_opt_writes e b msg off E1 H0 Hle) as (m & E & Hw).
    exists m. rewrite <- Hlen. split; [done|]. split; [by eapply writes_len|by apply writes_take in Hw].
  - intros msg off H0 Hlt. unfold opt_len in Hlt. rewrite E1 in Hlt. unfold pack_opt. rewrite E1. gosimp.
    destruct (Z.ltb_spec (zlen msg) (off + 4)); [by eexists|].
    destruct (put_at_writes (E := Z * error) msg off (be 2 (Option e))) as (m1 & -> & W1); [done|rewrite be_length; lia|].
    gosimp. pose proof (writes_len _ _ _ _ _ W1) as L1.
    destruct (put_at_writes (E := Z * error) m1 (off + 2) (be 2 (zlen b))) as (m2 & -> & W2);
      [lia|rewrite be_length; lia|].
    gosimp. pose proof (writes_len _ _ _ _ _ W2) as L2.
    rewrite (proj2 (Z.ltb_lt _ _)) by lia. by eexists.
  - intros pre suf _. unfold unpack_opt, w. rewrite <- !app_assoc.
    assert (zlen (pre ++ be 2 (Option e) ++ be 2 (zlen b) ++ b ++ suf) = zlen pre + 4 + zlen b + zlen suf) as HL
      by (rewrite !zlen_app, !be_length; lia).
    pose proof (zlen_nonneg b). pose proof (zlen_nonneg suf). rewrite HL.
    rewrite (proj2 (Z.ltb_ge _ _)) by lia.
    rewrite (slice_mid pre (be 2 (Option e)) _ (zlen pre)) by (rewrite ?be_length; lia). gosimp.
    rewrite (app_assoc pre). rewrite (slice_mid _ (be 2 (zlen b)))
      by (rewrite ?zlen_app, ?be_length; lia). gosimp.
    rewrite !(unbe_be 2) by (by apply Option_u16 || lia).
    rewrite (proj2 (Z.ltb_ge _ _)) by lia.
    rewrite (app_assoc (pre ++ _)). rewrite (slice_mid _ b)
      by (rewrite ?zlen_app, ?be_length; lia). gosimp.
    rewrite E2. gosimp. do 2 f_equal. rewrite !zlen_app, !be_length. lia.
Qed.

Lemma unpack_opt_progress msg off x off' : unpack_opt msg off = Ok (x, off') -> off < off'.
Proof.
  unfold unpack_opt. case_match; [done|]. intros HU.
  inv_bind HU. inv_bind HU. case_match; [done|]. inv_bind HU. inv_bind HU. injection HU as _ <-.
  pose proof (unbe_range a0). lia.
Qed.

Lemma carries_opts l :
  Forall (fun e => opt_ok e /\ opt_fits e) l ->
  carries true (sum_with opt_len l) (plain (packDataOpt l)) unpackDataOpt (map opt_read l).
Proof.
  intros Hl. eapply carries_ext; [| |apply (carries_until (fun e => plain (pack_opt e)) unpack_opt opt_read opt_len)].
  - intros msg off cm _. symmetry. by rewrite <- foldM_plain.
  - done.
  - intros msg off x off' _. apply unpack_opt_progress.
  - eapply Forall_impl; [exact Hl|]. intros e []. by apply carries_opt.
  - apply Forall_forall. intros e _. unfold opt_len. destruct (opt_pack e); [pose proof (zlen_nonneg a)|..]; lia.
Qed.
