(* ===== verification/Svcb.v ===== *)
(** * Service parameters (svcb.go) and the SVCB field (msg_helpers.go)

    The [SVCBKeyValue] structs with their keys, [pack], [unpack] and [len],
    [makeSVCBKeyValue], [packDataSVCB] and [unpackDataSVCB], and the
    presentation form of parameter values. *)

From stdpp Require Import sorting.
From S2P Require Import Prelude Go Utf8 Labels Escape Names NameDecode NameEncode NameLen Wire Codec NameCarry Text Encodings Apl Edns.
#[local] Open Scope Z_scope.

Definition SVCB_MANDATORY : Z := 0.
Definition SVCB_ALPN : Z := 1.
Definition SVCB_NO_DEFAULT_ALPN : Z := 2.
Definition SVCB_PORT : Z := 3.
Definition SVCB_IPV4HINT : Z := 4.
Definition SVCB_ECHCONFIG : Z := 5.
Definition SVCB_IPV6HINT : Z := 6.
Definition SVCB_DOHPATH : Z := 7.
Definition SVCB_OHTTP : Z := 8.
Definition svcb_RESERVED : Z := 65535.

(** The structs that implement the interface [SVCBKeyValue]. *)
Inductive SVCBKeyValue :=
| SVCBMandatory (Code : list Z)
| SVCBAlpn (Alpn : list bytes)
| SVCBNoDefaultAlpn
| SVCBPort (Port : Z)
| SVCBIPv4Hint (Hint : list bytes)
| SVCBECHConfig (ECH : bytes)
| SVCBIPv6Hint (Hint : list bytes)
| SVCBDoHPath (Template : bytes)
| SVCBOhttp
| SVCBLocal (KeyCode : Z) (Data : bytes).

(** [Key()]. *)
Definition Key (s : SVCBKeyValue) : Z :=
  match s with
  | SVCBMandatory _ => SVCB_MANDATORY
  | SVCBAlpn _ => SVCB_ALPN
  | SVCBNoDefaultAlpn => SVCB_NO_DEFAULT_ALPN
  | SVCBPort _ => SVCB_PORT
  | SVCBIPv4Hint _ => SVCB_IPV4HINT
  | SVCBECHConfig _ => SVCB_ECHCONFIG
  | SVCBIPv6Hint _ => SVCB_IPV6HINT
  | SVCBDoHPath _ => SVCB_DOHPATH
  | SVCBOhttp => SVCB_OHTTP
  | SVCBLocal k _ => k
  end.

(** [makeSVCBKeyValue]: nil ([None]) for the reserved key. *)
Definition makeSVCBKeyValue (key : Z) : option SVCBKeyValue :=
  if key =? SVCB_MANDATORY then Some (SVCBMandatory [])
  else if key =? SVCB_ALPN then Some (SVCBAlpn [])
  else if key =? SVCB_NO_DEFAULT_ALPN then Some SVCBNoDefaultAlpn
  else if key =? SVCB_PORT then Some (SVCBPort 0)
  else if key =? SVCB_IPV4HINT then Some (SVCBIPv4Hint [])
  else if key =? SVCB_ECHCONFIG then Some (SVCBECHConfig [])
  else if key =? SVCB_IPV6HINT then Some (SVCBIPv6Hint [])
  else if key =? SVCB_DOHPATH then Some (SVCBDoHPath [])
  else if key =? SVCB_OHTTP then Some SVCBOhttp
  else if key =? svcb_RESERVED then None
  else Some (SVCBLocal key []).

(** ** Values *)

(** [sort.Slice]: keys that compare equal keep their order here, in Go they
    may not. *)
Definition by_key {A} (key : A -> Z) (x y : A) : Prop := key x <= key y.
#[export] Instance by_key_dec {A} (key : A -> Z) : RelDecision (by_key key).
Proof. intros x y. unfold by_key. apply _. Defined.
Definition sort_Slice {A} (key : A -> Z) (l : list A) : list A := merge_sort (by_key key) l.

Definition mandatory_pack (Code : list Z) : bytes :=
  concat (map (be 2) (sort_Slice (fun c => c) Code)).

(** [for i := 0; i < len(b); i += n]: slices of [n] bytes. *)
Fixpoint chunks (fuel n : nat) (b : bytes) : list bytes :=
  match fuel, b with
  | S f, _ :: _ => take n b :: chunks f n (drop n b)
  | _, _ => []
  end.

Definition mandatory_unpack (b : bytes) : res error SVCBKeyValue :=
  if negb (zlen b mod 2 =? 0)
  then Err (MkError "bad svcbmandatory: value length is not a multiple of 2")
  else Ok (SVCBMandatory (map unbe (chunks (length b) 2 b))).

Definition alpn_pack (Alpn : list bytes) : res error bytes :=
  foldM (fun b e =>
    if zlen e =? 0 then Err (MkError "bad svcbalpn: empty alpn-id")
    else if 255 <? zlen e then Err (MkError "bad svcbalpn: alpn-id too long")
    else Ok (b ++ byte_of (zlen e) :: e)) [] Alpn.

Fixpoint alpn_unpack_loop (fuel : nat) (b : bytes) (alpn : list bytes) : res error (list bytes) :=
  match fuel, b with
  | _, [] => Ok alpn
  | O, _ => Diverge
  | S f, n :: b =>
      if zlen b <? bval n then Err (MkError "bad svcbalpn: alpn array overflowing")
      else alpn_unpack_loop f (zdrop (bval n) b) (alpn ++ [ztake (bval n) b])
  end.

Definition alpn_unpack (b : bytes) : res error SVCBKeyValue :=
  alpn ← alpn_unpack_loop (length b) b []; Ok (SVCBAlpn alpn).

Definition ipv4hint_pack (Hint : list bytes) : res error bytes :=
  foldM (fun b e =>
    match To4 e with
    | [] => Err (MkError "bad svcbipv4hint: expected ipv4, hint is ipv6")
    | x => Ok (b ++ x)
    end) [] Hint.

Definition ipv4hint_unpack (b : bytes) : res error SVCBKeyValue :=
  if (zlen b =? 0) || negb (zlen b mod 4 =? 0)
  then Err (MkError "bad svcbipv4hint: ipv4 address byte array length is not a multiple of 4")
  else Ok (SVCBIPv4Hint (chunks (length b) 4 b)).

Definition is_nil (l : bytes) : bool := match l with [] => true | _ => false end.

Definition ipv6hint_pack (Hint : list bytes) : res error bytes :=
  foldM (fun b e =>
    if negb (zlen e =? 16) || negb (is_nil (To4 e))
    then Err (MkError "bad svcbipv6hint: expected ipv6, hint is ipv4")
    else Ok (b ++ e)) [] Hint.

Definition ipv6hint_unpack (b : bytes) : res error SVCBKeyValue :=
  if (zlen b =? 0) || negb (zlen b mod 16 =? 0)
  then Err (MkError "bas svcbipv6hint: ipv6 address byte array length not a multiple of 16")
  else
    x ← foldM (fun x ip => if negb (is_nil (To4 ip))
                           then Err (MkError "bad svcbipv6hint: expected ipv6, got ipv4")
                           else Ok (x ++ [ip])) [] (chunks (length b) 16 b);
    Ok (SVCBIPv6Hint x).

(** [pack()] of the interface. *)
Definition svcb_pack (s : SVCBKeyValue) : res error bytes :=
  match s with
  | SVCBMandatory Code => Ok (mandatory_pack Code)
  | SVCBAlpn Alpn => alpn_pack Alpn
  | SVCBNoDefaultAlpn | SVCBOhttp => Ok []
  | SVCBPort Port => Ok (be 2 Port)
  | SVCBIPv4Hint Hint => ipv4hint_pack Hint
  | SVCBECHConfig ECH => Ok ECH
  | SVCBIPv6Hint Hint => ipv6hint_pack Hint
  | SVCBDoHPath Template => Ok Template
  | SVCBLocal _ Data => Ok Data
  end.

(** [unpack(b)] of the interface. *)
Definition svcb_unpack (s : SVCBKeyValue) (b : bytes) : res error SVCBKeyValue :=
  match s with
  | SVCBMandatory _ => mandatory_unpack b
  | SVCBAlpn _ => alpn_unpack b
  | SVCBNoDefaultAlpn =>
      if negb (zlen b =? 0)
      then Err (MkError "bad svcbnodefaultalpn: no-default-alpn must have no value")
      else Ok SVCBNoDefaultAlpn
  | SVCBPort _ =>
      if negb (zlen b =? 2) then Err (MkError "bad svcbport: port length is not exactly 2 octets")
      else Ok (SVCBPort (unbe b))
  | SVCBIPv4Hint _ => ipv4hint_unpack b
  | SVCBECHConfig _ => Ok (SVCBECHConfig b)
  | SVCBIPv6Hint _ => ipv6hint_unpack b
  | SVCBDoHPath _ => Ok (SVCBDoHPath b)
  | SVCBOhttp =>
      if negb (zlen b =? 0) then Err (MkError "bad svcbotthp: svcbotthp must have no value")
      else Ok SVCBOhttp
  | SVCBLocal k _ => Ok (SVCBLocal k b)
  end.

(** [len()] of the interface. *)
Definition svcb_len (s : SVCBKeyValue) : Z :=
  match s with
  | SVCBMandatory Code => 2 * zlen Code
  | SVCBAlpn Alpn => fold_left (fun l e => l + (1 + zlen e)) Alpn 0
  | SVCBNoDefaultAlpn | SVCBOhttp => 0
  | SVCBPort _ => 2
  | SVCBIPv4Hint Hint => 4 * zlen Hint
  | SVCBECHConfig ECH => zlen ECH
  | SVCBIPv6Hint Hint => 16 * zlen Hint
  | SVCBDoHPath Template => zlen Template
  | SVCBLocal _ Data => zlen Data
  end.

(** ** The field *)

(** One pair of [packDataSVCB], after the check for repeated keys. *)
Definition pack_pair (el : SVCBKeyValue) (msg : bytes) (off : Z) : wire (bytes * Z) :=
  let overflow := MkError "overflow packing SVCB" in
  packed ← on_err (fun e => (zlen msg, e)) (svcb_pack el);
  '(msg, off) ← on_err (fun _ => (zlen msg, overflow)) (packUint16 (Key el mod 65536) msg off);
  '(msg, off) ← on_err (fun _ => (zlen msg, overflow)) (packUint16 (zlen packed mod 65536) msg off);
  if zlen msg <? off + zlen packed then fail (zlen msg) overflow else
  msg ← put_at msg off packed;
  Ok (msg, off + zlen packed).

Definition pack_svcb_step (st : bytes * Z * Z) (el : SVCBKeyValue) : wire (bytes * Z * Z) :=
  let '(msg, off, prev) := st in
  if Key el =? prev then fail (zlen msg) (MkError "repeated SVCB keys are not allowed") else
  '(msg, off) ← pack_pair el msg off;
  Ok (msg, off, Key el).

Definition packDataSVCB (pairs : list SVCBKeyValue) (msg : bytes) (off : Z) : wire (bytes * Z) :=
  '(msg, off, _) ← foldM pack_svcb_step (msg, off, svcb_RESERVED) (sort_Slice Key pairs);
  Ok (msg, off).

(** One pair of [unpackDataSVCB], before the check of the order. *)
Definition unpack_pair (msg : bytes) (off : Z) : wire (SVCBKeyValue * Z) :=
  let overflow := (zlen msg, MkError "overflow unpacking SVCB") in
  '(code, off) ← on_err (fun _ => overflow) (unpackUint16 msg off);
  '(length, off) ← on_err (fun _ => overflow) (unpackUint16 msg off);
  if zlen msg <? off + length then Err overflow else
  match makeSVCBKeyValue code with
  | None => fail (zlen msg) (MkError "bad SVCB key")
  | Some e =>
      b ← index (slice msg off (off + length));
      e ← on_err (fun e => (zlen msg, e)) (svcb_unpack e b);
      Ok (e, off + length)
  end.

(** [len(xs) > 0 && e.Key() <= xs[len(xs)-1].Key()]. *)
Definition out_of_order (xs : list SVCBKeyValue) (e : SVCBKeyValue) : bool :=
  match last xs with Some x => Key e <=? Key x | None => false end.

Definition unpackDataSVCB (msg : bytes) (off : Z) : wire (list SVCBKeyValue * Z) :=
  loop (S (length msg)) (fun '(xs, off) =>
    if negb (off <? zlen msg) then Ok (inr (xs, off)) else
    '(e, off) ← unpack_pair msg off;
    if out_of_order xs e
    then fail (zlen msg) (MkError "SVCB keys not in strictly increasing order")
    else Ok (inl (xs ++ [e], off))) ([], off).

(** [areSVCBPairArraysEqual], for arrays of equal length. *)
Fixpoint pairs_equal (a b : list SVCBKeyValue) : res error bool :=
  match a, b with
  | [], _ => Ok true
  | _ :: _, [] => Panic
  | e :: a, e' :: b =>
      if negb (Key e =? Key e') then Ok false else
      match svcb_pack e, svcb_pack e' with
      | Ok b1, Ok b2 => if bool_decide (b1 = b2) then pairs_equal a b else Ok false
      | Panic, _ | _, Panic => Panic
      | Diverge, _ | _, Diverge => Diverge
      | _, _ => Ok false
      end
  end.
Definition areSVCBPairArraysEqual (a b : list SVCBKeyValue) : res error bool :=
  pairs_equal (sort_Slice Key a) (sort_Slice Key b).

(** ** Presentation form of values *)

Definition svcbParamToStr {E} (s : bytes) : res E bytes :=
  foldM (fun str e =>
    if (bval ch_space <=? bval e) && (bval e <=? bval ch_tilde) then
      if (e =b ch_quote) || (e =b x3b) || (e =b ch_space) || (e =b ch_bslash)
      then Ok (str ++ [ch_bslash; e]) else Ok (str ++ [e])
    else esc ← escapeByte e; Ok (str ++ esc)) [] s.

Fixpoint parse_param (fuel : nat) (b data : bytes) : res error bytes :=
  match fuel, b with
  | _, [] => Ok data
  | O, _ => Diverge
  | S f, c :: r =>
      if negb (c =b ch_bslash) then parse_param f r (data ++ [c]) else
      match r with
      | [] => Err (MkError "escape unterminated")
      | d1 :: r1 =>
          if isDigit d1 then
            match r1 with
            | d2 :: d3 :: r3 =>
                if isDigit d2 && isDigit d3 then
                  let a := (bval d1 - 48) * 100 + (bval d2 - 48) * 10 + (bval d3 - 48) in
                  if a <? 256 then parse_param f r3 (data ++ [byte_of a])
                  else Err (MkError "bad escaped octet")
                else Err (MkError "bad escaped octet")
            | _ => Err (MkError "bad escaped octet")
            end
          else parse_param f r1 (data ++ [d1])
      end
  end.
Definition svcbParseParam (b : bytes) : res error bytes := parse_param (length b) b [].

(** ** Round trip of the values *)

Definition kv_ok (s : SVCBKeyValue) : Prop :=
  match s with
  | SVCBMandatory Code => Forall u16 Code
  | SVCBAlpn Alpn => Forall (fun e => 1 <= zlen e <= 255) Alpn
  | SVCBPort p => u16 p
  | SVCBIPv4Hint h => h <> [] /\ Forall (fun e => zlen (To4 e) = 4) h
  | SVCBIPv6Hint h => h <> [] /\ Forall (fun e => zlen e = 16 /\ To4 e = []) h
  | SVCBLocal k _ => u16 k /\ makeSVCBKeyValue k = Some (SVCBLocal k [])
  | _ => True
  end.

(** What a reader gets: sorted mandatory keys, 4-byte addresses. *)
Definition kv_read (s : SVCBKeyValue) : SVCBKeyValue :=
  match s with
  | SVCBMandatory Code => SVCBMandatory (sort_Slice (fun c => c) Code)
  | SVCBIPv4Hint h => SVCBIPv4Hint (map To4 h)
  | s => s
  end.

Lemma Key_read s : Key (kv_read s) = Key s.
Proof. by destruct s. Qed.

Lemma chunks_concat n ls : (0 < n)%nat -> Forall (fun l : bytes => length l = n) ls ->
  forall fuel, (length (concat ls) <= fuel)%nat -> chunks fuel n (concat ls) = ls.
Proof.
  intros Hn. induction 1 as [|l ls Hl Hls IH]; intros fuel Hf; [by destruct fuel|].
  cbn [concat] in *. rewrite length_app in Hf. destruct fuel as [|fuel]; [lia|].
  destruct l as [|c l]; [simpl in Hl; lia|]. cbn [app chunks].
  change (c :: l ++ concat ls) with ((c :: l) ++ concat ls).
  rewrite take_app_length', drop_app_length' by done. by rewrite IH by lia.
Qed.

Lemma zlen_concat_fixed n ls : Forall (fun l : bytes => zlen l = n) ls -> zlen (concat ls) = n * zlen ls.
Proof. induction 1 as [|l ls Hl Hls IH]; [zlia|]. cbn [concat]. rewrite zlen_app, zlen_cons. lia. Qed.

Lemma foldM_concat (f : bytes -> bytes -> res error bytes) (g : bytes -> bytes) ls :
  Forall (fun e => forall b, f b e = Ok (b ++ g e)) ls ->
  forall b, foldM f b ls = Ok (b ++ concat (map g ls)).
Proof.
  induction 1 as [|e ls He Hls IH]; intros b; cbn [foldM map concat]; [by rewrite app_nil_r|].
  rewrite He. gosimp. by rewrite IH, <- app_assoc.
Qed.

Lemma sort_perm {A} (key : A -> Z) l : sort_Slice key l ≡ₚ l.
Proof. apply merge_sort_Permutation. Qed.

Lemma mandatory_roundtrip Code :
  Forall u16 Code ->
  mandatory_unpack (mandatory_pack Code) = Ok (SVCBMandatory (sort_Slice (fun c => c) Code)) /\
  zlen (mandatory_pack Code) = 2 * zlen Code.
Proof.
  intros HC. unfold mandatory_pack, mandatory_unpack.
  set (cs := sort_Slice (fun c => c) Code).
  assert (Forall u16 cs) as Hcs by (unfold cs; by rewrite (sort_perm _ Code)).
  assert (zlen cs = zlen Code) as Hl by (unfold zlen, cs; by rewrite (Permutation_length (sort_perm _ Code))).
  assert (zlen (concat (map (be 2) cs)) = 2 * zlen cs) as Hz.
  { rewrite (zlen_concat_fixed 2); [unfold zlen; by rewrite length_map|].
    apply Forall_map, Forall_true. intros. apply be_length. }
  rewrite Hz. split; [|by rewrite Hl].
  rewrite (Z.mul_comm 2), Z.mod_mul by done. cbn [Z.eqb negb].
  rewrite chunks_concat; [|lia|apply Forall_map, Forall_true; done|done].
  do 2 f_equal. rewrite map_map. clear -Hcs. induction Hcs as [|c cs Hc Hcs IH]; [done|].
  cbn [map]. by rewrite IH, (unbe_be 2).
Qed.

Lemma alpn_unpack_ok Alpn : Forall (fun e => 1 <= zlen e <= 255) Alpn ->
  forall fuel acc, (length (concat (map (fun e => byte_of (zlen e) :: e) Alpn)) <= fuel)%nat ->
  alpn_unpack_loop fuel (concat (map (fun e => byte_of (zlen e) :: e) Alpn)) acc = Ok (acc ++ Alpn).
Proof.
  induction 1 as [|e A He HA IH]; intros fuel acc Hf; cbn [map concat] in *.
  { rewrite app_nil_r. by destruct fuel. }
  cbn [app length] in Hf. destruct fuel as [|fuel]; [lia|]. cbn [app alpn_unpack_loop].
  rewrite byte_of_small by lia. rewrite (proj2 (Z.ltb_ge _ _)) by zlia.
  rewrite ztake_app_eq, zdrop_app_eq by done. rewrite length_app in Hf.
  rewrite IH by lia. by rewrite <- app_assoc.
Qed.

Lemma alpn_pack_ok Alpn : Forall (fun e => 1 <= zlen e <= 255) Alpn ->
  alpn_pack Alpn = Ok (concat (map (fun e => byte_of (zlen e) :: e) Alpn)).
Proof.
  intros H. unfold alpn_pack. rewrite (foldM_concat _ (fun e => byte_of (zlen e) :: e)); [done|].
  eapply Forall_impl; [exact H|]. intros e He b. cbv beta in *. by decide_ifs.
Qed.

Lemma alpn_len Alpn : forall a,
  fold_left (fun l e => l + (1 + zlen e)) Alpn a =
  a + zlen (concat (map (fun e => byte_of (zlen e) :: e) Alpn)).
Proof.
  induction Alpn as [|e A IH]; intros a; cbn [fold_left map concat]; [zlia|].
  rewrite IH, zlen_app, zlen_cons. lia.
Qed.

Lemma ipv4hint_roundtrip h :
  h <> [] -> Forall (fun e => zlen (To4 e) = 4) h ->
  ipv4hint_pack h = Ok (concat (map To4 h)) /\
  ipv4hint_unpack (concat (map To4 h)) = Ok (SVCBIPv4Hint (map To4 h)) /\
  zlen (concat (map To4 h)) = 4 * zlen h.
Proof.
  intros Hne H. assert (zlen (concat (map To4 h)) = 4 * zlen h) as Hz.
  { rewrite (zlen_concat_fixed 4); [unfold zlen; by rewrite length_map|by apply Forall_map]. }
  split_and!; [| |done].
  - unfold ipv4hint_pack. rewrite (foldM_concat _ To4); [done|].
    eapply Forall_impl; [exact H|]. intros e He b. cbv beta in *. by destruct (To4 e).
  - unfold ipv4hint_unpack. rewrite Hz.
    destruct h as [|e h]; [done|]. rewrite zlen_cons. rewrite (proj2 (Z.eqb_neq _ 0)) by zlia.
    rewrite (Z.mul_comm 4), Z.mod_mul by done. cbn [Z.eqb negb orb].
    rewrite chunks_concat; [done|lia| |done].
    apply Forall_map. eapply Forall_impl; [exact H|]. unfold zlen. intros x Hx. cbv beta in *. lia.
Qed.

Lemma ipv6hint_roundtrip h :
  h <> [] -> Forall (fun e => zlen e = 16 /\ To4 e = []) h ->
  ipv6hint_pack h = Ok (concat h) /\ ipv6hint_unpack (concat h) = Ok (SVCBIPv6Hint h) /\
  zlen (concat h) = 16 * zlen h.
Proof.
  intros Hne H. assert (zlen (concat h) = 16 * zlen h) as Hz.
  { apply zlen_concat_fixed. eapply Forall_impl; [exact H|]. by intros ? []. }
  split_and!; [| |done].
  - unfold ipv6hint_pack. rewrite (foldM_concat _ (fun e => e)); [by rewrite map_id|].
    eapply Forall_impl; [exact H|]. intros e [-> ->] b. done.
  - unfold ipv6hint_unpack. rewrite Hz.
    destruct h as [|e h]; [done|]. rewrite zlen_cons. rewrite (proj2 (Z.eqb_neq _ 0)) by zlia.
    rewrite (Z.mul_comm 16), Z.mod_mul by done. cbn [Z.eqb negb orb].
    rewrite chunks_concat; [|lia| |done].
    + assert (forall acc l, Forall (fun e => zlen e = 16 /\ To4 e = []) l ->
        foldM (fun x ip => if negb (is_nil (To4 ip))
                           then Err (MkError "bad svcbipv6hint: expected ipv6, got ipv4")
                           else Ok (x ++ [ip])) acc l = Ok (acc ++ l)) as Hf.
      { intros acc l Hl. revert acc. induction Hl as [|x l [_ Hx] Hl IH]; intros acc; cbn [foldM].
        - by rewrite app_nil_r.
        - rewrite Hx. cbn [is_nil negb]. gosimp. by rewrite IH, <- app_assoc. }
      rewrite Hf by done. done.
    + eapply Forall_impl; [exact H|]. unfold zlen. intros x [Hx _]. lia.
Qed.

Lemma kv_roundtrip s :
  kv_ok s ->
  exists b z, svcb_pack s = Ok b /\ makeSVCBKeyValue (Key s) = Some z /\
    svcb_unpack z b = Ok (kv_read s) /\ svcb_len s = zlen b.
Proof.
  destruct s; intros H; cbn [svcb_pack svcb_unpack kv_read svcb_len Key].
  - destruct (mandatory_roundtrip _ H) as [E1 E2]. by eexists _, _.
  - eexists _, _. split_and!; [by apply alpn_pack_ok|done| |].
    + cbn [svcb_unpack]. unfold alpn_unpack. by rewrite alpn_unpack_ok.
    + by rewrite alpn_len.
  - by eexists _, _.
  - eexists _, _. split_and!; [done|done| |by rewrite be_length].
    cbn [svcb_unpack]. rewrite be_length. cbn [Z.of_nat Z.eqb negb].
    change (Z.of_nat 2 =? 2) with true. cbn [negb]. by rewrite (unbe_be 2).
  - destruct H as [H1 H2]. destruct (ipv4hint_roundtrip _ H1 H2) as (E1 & E2 & E3). by eexists _, _.
  - by eexists _, _.
  - destruct H as [H1 H2]. destruct (ipv6hint_roundtrip _ H1 H2) as (E1 & E2 & E3). by eexists _, _.
  - by eexists _, _.
  - by eexists _, _.
  - destruct H as [H1 H2]. by eexists _, _.
Qed.

(** ** The packer contract *)

Definition kv_fits (s : SVCBKeyValue) : Prop := svcb_len s < 65536.

Lemma Key_u16 s : kv_ok s -> u16 (Key s) /\ Key s <> svcb_RESERVED.
Proof.
  destruct s; cbn [Key]; intros H; [by vm_compute..|].
  destruct H as [H1 H2]. split; [done|]. intros ->. discriminate H2.
Qed.

Lemma put_uint16_ok v msg off : 0 <= off -> off + 2 <= zlen msg ->
  exists msg', packUint16 v msg off = Ok (msg', off + 2) /\ writes msg off (be 2 v) msg' (off + 2).
Proof.
  intros H0 Hle. unfold packUint16. rewrite (proj2 (Z.ltb_ge _ _)) by lia.
  destruct (put_at_writes (E := Z * error) msg off (be 2 v)) as (m & -> & W); [done|rewrite be_length; lia|].
  exists m. by rewrite be_length in W.
Qed.

Lemma put_uint16_short v msg off : zlen msg < off + 2 ->
  packUint16 v msg off = fail (zlen msg) (MkError "overflow packing uint16").
Proof. intros. unfold packUint16. by rewrite (proj2 (Z.ltb_lt _ _)). Qed.

Lemma pack_pair_cases s b msg off :
  svcb_pack s = Ok b -> zlen b < 65536 -> u16 (Key s) -> 0 <= off <= zlen msg ->
  (zlen msg < off + (4 + zlen b) /\ exists e, pack_pair s msg off = Err e) \/
  (exists msg', pack_pair s msg off = Ok (msg', off + (4 + zlen b)) /\
     writes msg off (be 2 (Key s) ++ be 2 (zlen b) ++ b) msg' (off + (4 + zlen b))).
Proof.
  intros Hb Hfit Hk Hoff. pose proof (zlen_nonneg b). unfold pack_pair. rewrite Hb. gosimp.
  rewrite (Z.mod_small (Key s)) by apply Hk. rewrite (Z.mod_small (zlen b)) by lia.
  destruct (Z.lt_ge_cases (zlen msg) (off + 2)).
  { left. split; [lia|]. rewrite put_uint16_short by lia. by eexists. }
  destruct (put_uint16_ok (Key s) msg off) as (m1 & -> & W1); [lia|lia|]. gosimp.
  pose proof (writes_len _ _ _ _ _ W1) as L1.
  destruct (Z.lt_ge_cases (zlen msg) (off + 4)).
  { left. split; [lia|]. rewrite put_uint16_short by lia. by eexists. }
  destruct (put_uint16_ok (zlen b) m1 (off + 2)) as (m2 & -> & W2); [lia|lia|]. gosimp.
  pose proof (writes_len _ _ _ _ _ W2) as L2. replace (off + 2 + 2) with (off + 4) in * by lia.
  destruct (Z.lt_ge_cases (zlen msg) (off + 4 + zlen b)).
  { left. split; [lia|]. rewrite (proj2 (Z.ltb_lt _ _)) by lia. by eexists. }
  right. rewrite (proj2 (Z.ltb_ge _ _)) by lia.
  destruct (put_at_writes (E := Z * error) m2 (off + 4) b) as (m3 & -> & W3); [lia|lia|].
  gosimp. exists m3. rewrite Z.add_assoc. split; [done|].
  eapply writes_trans; [exact W1|]. by eapply writes_trans.
Qed.

(** The slices of a header of two 16-bit integers and its data. *)
Lemma header_slices (pre a c b suf : bytes) :
  zlen a = 2 -> zlen c = 2 ->
  let msg := pre ++ a ++ c ++ b ++ suf in let o := zlen pre in
  zlen msg = o + 4 + zlen b + zlen suf /\ slice msg o (o + 2) = Some a /\ slice msg (o + 2) (o + 2 + 2) = Some c /\ slice msg (o + 2 + 2) (o + 2 + 2 + zlen b) = Some b.
Proof.
  intros Ha Hc msg o. unfold msg, o. split_and!.
  - rewrite !zlen_app. lia.
  - apply slice_mid; lia.
  - rewrite app_assoc. apply slice_mid; rewrite zlen_app; lia.
  - rewrite (app_assoc pre), (app_assoc (pre ++ a)). apply slice_mid; rewrite !zlen_app; lia.
Qed.

Lemma carries_pair s :
  kv_ok s -> kv_fits s ->
  carries false (4 + svcb_len s) (plain (pack_pair s)) unpack_pair (kv_read s).
Proof.
  intros Hok Hfit. destruct (kv_roundtrip s Hok) as (b & z & E1 & E2 & E3 & E4).
  unfold kv_fits in Hfit. rewrite E4 in *. destruct (Key_u16 s Hok) as [Hk _].
  set (w := be 2 (Key s) ++ be 2 (zlen b) ++ b). pose proof (zlen_nonneg b).
  assert (4 + zlen b = zlen w) as Hlen by (unfold w; rewrite !zlen_app, !be_length; lia).
  apply (carries_fixed _ _ _ _ _ w); [lia| | |].
  - intros msg off H0 Hle.
    destruct (pack_pair_cases s b msg off E1 Hfit Hk) as [[? _]|(m & E & Hw)]; [lia|lia|].
    exists m. rewrite <- Hlen. split; [done|]. split; [by eapply writes_len|by apply writes_take in Hw].
  - intros msg off H0 Hlt. destruct (Z.lt_ge_cases (zlen msg) (off + 0)).
    + unfold pack_pair. rewrite E1. gosimp. rewrite put_uint16_short by lia. by eexists.
    + destruct (pack_pair_cases s b msg off E1 Hfit Hk) as [[_ He]|(m & E & Hw)]; [lia|done|].
      apply writes_off in Hw. lia.
  - intros pre suf _. destruct (header_slices pre (be 2 (Key s)) (be 2 (zlen b)) b suf)
      as (HL & S1 & S2 & S3); [done|done|].
    unfold unpack_pair, unpackUint16, w. rewrite <- !app_assoc.
    pose proof (zlen_nonneg suf). rewrite !HL, (proj2 (Z.ltb_ge _ _)) by lia.
    rewrite S1. gosimp. rewrite (proj2 (Z.ltb_ge _ _)) by lia. rewrite S2. gosimp.
    rewrite !(unbe_be 2), (proj2 (Z.ltb_ge _ _)) by (done || lia). rewrite E2, S3. gosimp.
    rewrite E3. gosimp. do 2 f_equal. rewrite !zlen_app, !be_length. lia.
Qed.

Lemma unpack_pair_progress msg off x off' : unpack_pair msg off = Ok (x, off') -> off < off'.
Proof.
  unfold unpack_pair. cbv zeta. intros HU. inv_bind HU. destruct a as [code o1].
  inv_bind HU. destruct a as [len o2].
  apply unpackUint16_Ok in Ha as [-> _]. apply unpackUint16_Ok in Ha0 as [-> Hl].
  case_match; [done|]. case_match; [|done]. inv_bind HU. inv_bind HU. injection HU as _ <-.
  unfold u16 in Hl. lia.
Qed.

(** Keys in strictly increasing order, as RFC 9460 demands. *)
Fixpoint keys_from (k : Z) (l : list SVCBKeyValue) : Prop :=
  match l with [] => True | x :: l => k < Key x /\ keys_from (Key x) l end.

Lemma keys_from_app k l1 l2 : keys_from k (l1 ++ l2) <->
  keys_from k l1 /\ keys_from (default k (Key <$> last l1)) l2.
Proof.
  revert k. induction l1 as [|x l1 IH]; intros k; cbn [app keys_from]; [cbn; tauto|].
  rewrite IH. rewrite last_cons. destruct (last l1); cbn; tauto.
Qed.

Lemma sorted_keys l : NoDup (map Key l) -> Forall (fun s => 0 <= Key s) l -> keys_from (-1) (sort_Slice Key l).
Proof.
  intros Hnd Hpos.
  assert (StronglySorted (by_key Key) (sort_Slice Key l)) as Hs.
  { apply StronglySorted_merge_sort; [intros x y z; unfold by_key; lia|intros x y; unfold by_key; lia]. }
  rewrite <- (sort_perm Key l) in Hnd. rewrite <- (sort_perm Key l) in Hpos.
  revert Hnd Hpos. induction Hs as [|x r Hr IH Hx]; intros Hnd Hpos; [done|].
  cbn [map] in Hnd. apply NoDup_cons in Hnd as [Hni Hnd]. apply Forall_cons in Hpos as [Hp Hpos].
  split; [lia|]. specialize (IH Hnd Hpos). destruct r as [|y r]; [done|].
  destruct IH as [_ IH]. split; [|done]. apply Forall_cons in Hx as [Hx _]. unfold by_key in Hx.
  assert (Key x <> Key y) by (intros E; apply Hni; rewrite E; left). lia.
Qed.

(** The check for repeated keys passes on increasing keys. *)
Lemma pack_svcb_each l : forall prev msg off cm,
  keys_from (-1) l -> Forall (fun s => Key s <> prev) (take 1 l) ->
  (r ← foldM pack_svcb_step (msg, off, prev) l; Ok (r.1.1, r.1.2, cm)) =
  pack_each (fun s => plain (pack_pair s)) l msg off cm.
Proof.
  unfold pack_each, plain. induction l as [|s l IH]; intros prev msg off cm Hk Hp; [done|].
  cbn [foldM pack_svcb_step]. apply Forall_cons in Hp as [Hp _].
  rewrite (proj2 (Z.eqb_neq _ _) Hp). destruct (pack_pair s msg off) as [[m o]|?| |]; gosimp; [|done..].
  destruct Hk as [H0 Hk]. apply IH.
  - destruct l as [|y l]; [done|]. destruct Hk. split; [lia|done].
  - destruct l as [|y l]; [by constructor|]. destruct Hk. cbn [take]. constructor; [lia|constructor].
Qed.

(** A guard that holds on what is read does not change a reading loop. *)
Lemma loop_guarded {A} (guard : list A -> A -> bool) (up : unpacker A) err (msg : bytes) :
  forall n xs off ys off',
  loop n (fun '(xs, off) =>
    if negb (off <? zlen msg) then Ok (inr (xs, off)) else
    '(x, off) ← up msg off; Ok (inl (xs ++ [x], off))) (xs, off) = Ok (xs ++ ys, off') ->
  (forall y1 y y2, ys = y1 ++ y :: y2 -> guard (xs ++ y1) y = false) ->
  loop n (fun '(xs, off) =>
    if negb (off <? zlen msg) then Ok (inr (xs, off)) else
    '(x, off) ← up msg off;
    if guard xs x then Err err else Ok (inl (xs ++ [x], off))) (xs, off) = Ok (xs ++ ys, off').
Proof.
  induction n as [|n IH]; intros xs off ys off' H Hg; [done|]. cbn [loop] in *.
  destruct (off <? zlen msg); cbn [negb] in *; [|exact H].
  destruct (up msg off) as [[x o]|?| |]; cbn [mbind res_bind] in *; [|done..].
  assert (exists ys', ys = x :: ys') as [ys' ->].
  { apply (loop_Ok_inv (fun st => exists l, st.1 = xs ++ x :: l) (fun r => exists l, r.1 = xs ++ x :: l))
      in H; [| | |by exists []].
    - destruct H as [l E]. cbn in E. apply app_inv_head in E. by exists l.
    - intros [a b] [c d] [l El] E. cbn in El. subst a. case_match; [done|]. inv_bind E.
      destruct a as [y ?]. injection E as <- _. exists (l ++ [y]). cbn. by rewrite <- app_assoc.
    - intros [a b] [c d] [l El] E. cbn in El. subst a. case_match; [|by inv_bind E; destruct a].
      injection E as <- _. by exists l. }
  specialize (Hg [] x ys' eq_refl) as Hx. rewrite app_nil_r in Hx. rewrite Hx.
  replace (xs ++ x :: ys') with ((xs ++ [x]) ++ ys') in * by (by rewrite <- app_assoc).
  apply IH; [exact H|].
  intros y1 y y2 ->. rewrite <- app_assoc. by apply (Hg (x :: y1) y y2).
Qed.

Lemma carries_svcb l :
  NoDup (map Key l) -> Forall (fun s => kv_ok s /\ kv_fits s) l ->
  carries true (sum_with (fun s => 4 + svcb_len s) (sort_Slice Key l)) (plain (packDataSVCB l))
    unpackDataSVCB (map kv_read (sort_Slice Key l)).
Proof.
  intros Hnd Hl.
  assert (Forall (fun s => 0 <= Key s) l) as Hpos.
  { eapply Forall_impl; [exact Hl|]. intros s [Hs _]. destruct (Key_u16 s Hs) as [[] _]. done. }
  pose proof (sorted_keys l Hnd Hpos) as Hk.
  rewrite <- (sort_perm Key l) in Hl. set (sl := sort_Slice Key l) in *.
  assert (Forall (fun s => 0 <= 4 + svcb_len s) sl) as Hn.
  { eapply Forall_impl; [exact Hl|]. intros s [Hs _].
    destruct (kv_roundtrip s Hs) as (b & ? & _ & _ & _ & ->). pose proof (zlen_nonneg b). lia. }
  intros off cm L Hoff.
  destruct (carries_each (fun s => plain (pack_pair s)) unpack_pair kv_read (fun s => 4 + svcb_len s)
    (fun msg off x off' _ => unpack_pair_progress msg off x off') sl) with (off := off) (cm := cm) (L := L)
    as [[Hlt He]|(w & cm' & H1 & H2 & H3 & H4 & H5)]; [|done|done|left|right].
  { eapply Forall_impl; [exact Hl|]. intros s []. by apply carries_pair. }
  - split; [done|]. intros msg Hm. destruct (He msg Hm) as [e E]. exists e.
    rewrite <- E, <- (pack_svcb_each sl svcb_RESERVED); [|done|].
    + unfold plain, packDataSVCB. fold sl. by destruct (foldM _ _ sl) as [[[? ?] ?]|?| |].
    + destruct sl as [|s ?]; [by constructor|]. constructor; [|constructor].
      apply Forall_cons in Hl as [[Hs _] _]. by apply Key_u16.
  - exists w, cm'. split_and!; try done.
    + intros msg Hm. destruct (H3 msg Hm) as (m & E & Hw). exists m. split; [|done].
      rewrite <- E, <- (pack_svcb_each sl svcb_RESERVED); [|done|].
      * unfold plain, packDataSVCB. fold sl. by destruct (foldM _ _ sl) as [[[? ?] ?]|?| |].
      * destruct sl as [|s ?]; [by constructor|]. constructor; [|constructor].
        apply Forall_cons in Hl as [[Hs _] _]. by apply Key_u16.
    + intros pre Hpre Hok. destruct (H5 pre Hpre Hok) as [H6 H7]. split; [done|].
      intros suf ->; [|done]. rewrite app_nil_r. unfold unpackDataSVCB.
      pose proof (H7 [] (S (length (pre ++ w)))) as E. cbn [app] in E.
      apply (loop_guarded out_of_order unpack_pair
        (zlen (pre ++ w), MkError "SVCB keys not in strictly increasing order") (pre ++ w) _ []);
        [apply E; rewrite length_app; lia|].
      intros y1 y y2 Hy. change (map kv_read sl = y1 ++ y :: y2) in Hy. cbn [app]. unfold out_of_order.
      assert (keys_from (-1) (map kv_read sl)) as Hks.
      { clear -Hk. revert Hk. generalize (-1). induction sl as [|s r IH]; intros k; [done|].
        cbn [map keys_from]. rewrite Key_read. intros []. by split; [|apply IH]. }
      rewrite Hy in Hks. apply keys_from_app in Hks as [_ [Hks _]].
      destruct (last y1); cbn in *; [|done]. apply Z.leb_gt. lia.
Qed.

(** ** Properties *)

Lemma svcb_unpack_returns s b :
  ensures (svcb_unpack s b) (fun s' => Key s' = Key s) (fun _ => True).
Proof.
  destruct s; cbn [svcb_unpack]; unfold mandatory_unpack, ipv4hint_unpack; try done; try (by case_match).
  - unfold alpn_unpack. apply ensures_bind.
    assert (forall n (b acc : bytes) l, (length b <= n)%nat ->
      ensures (alpn_unpack_loop n b l) (fun _ => True) (fun _ => True)) as H.
    { induction n as [|n IH]; intros [|c r] acc l Hl; cbn [alpn_unpack_loop length] in *; try done; [lia|].
      case_match; [done|]. apply IH; [exact acc|]. unfold zdrop. rewrite length_drop. lia. }
    eapply ensures_mono; [apply (H (length b) b []); lia|done|done].
  - unfold ipv6hint_unpack. case_match; [done|]. apply ensures_bind.
    eapply ensures_mono; [apply (foldM_ensures (fun _ => True) _ (fun _ => True))| |]; try done.
    intros. by case_match.
Qed.

Lemma makeSVCBKeyValue_Key k s : makeSVCBKeyValue k = Some s -> Key s = k.
Proof.
  unfold makeSVCBKeyValue.
  repeat (case_match; [intros [= <-]; by symmetry; apply Z.eqb_eq|]).
  by intros [= <-].
Qed.

Lemma unpackUint16_ensures msg off :
  0 <= off ->
  ensures (unpackUint16 msg off) (fun '(v, o) => o = off + 2 /\ u16 v /\ o <= zlen msg)
    (fun '(o, _) => o = zlen msg).
Proof.
  intros H0. destruct (unpackUint16 msg off) as [[v o]|[o e]| |] eqn:E; cbn.
  - pose proof E as E2. apply unpackUint16_Ok in E as [-> Hv]. split_and!; [done|done|].
    unfold unpackUint16 in E2. case_match eqn:Hl; [done|]. lia.
  - unfold unpackUint16 in E. case_match; [by injection E|]. by destruct (slice _ _ _).
  - unfold unpackUint16 in E. case_match; [done|]. rewrite slice_Some in E by lia. done.
  - unfold unpackUint16 in E. case_match; [done|]. by destruct (slice _ _ _).
Qed.

Lemma unpack_pair_ensures msg off :
  0 <= off ->
  ensures (unpack_pair msg off) (fun '(e, o) => off < o <= zlen msg /\ u16 (Key e))
    (fun '(o, _) => o = zlen msg).
Proof.
  intros H0. unfold unpack_pair. cbv zeta.
  eapply ensures_bind_via; [apply ensures_on_err; eapply ensures_mono; [by apply unpackUint16_ensures|intros ? HQ; exact HQ|done]|].
  intros [code o1] (-> & Hc & Hl1). cbn [snd fst].
  eapply ensures_bind_via;
    [apply ensures_on_err; eapply ensures_mono; [apply unpackUint16_ensures; lia|intros ? HQ; exact HQ|done]|].
  intros [len o2] (-> & Hlen & Hl2). cbv beta in *.
  destruct (Z.ltb_spec (zlen msg) (off + 2 + 2 + len)); [done|].
  destruct (makeSVCBKeyValue code) as [s|] eqn:E; [|done]. apply makeSVCBKeyValue_Key in E.
  unfold u16 in *. rewrite slice_Some by lia. gosimp. apply ensures_bind, ensures_on_err.
  eapply ensures_mono; [apply svcb_unpack_returns| |done]. intros s' Hs'. cbn in *. lia.
Qed.

Lemma unpackDataSVCB_ensures msg off :
  0 <= off <= zlen msg ->
  ensures (unpackDataSVCB msg off)
    (fun '(xs, off') => off' = zlen msg /\ keys_from (-1) xs /\ Forall (fun s => u16 (Key s)) xs)
    (fun '(o, _) => o = zlen msg).
Proof.
  intros Hoff. unfold unpackDataSVCB.
  apply (loop_ensures
    (fun '(xs, o) => 0 <= o <= zlen msg /\ keys_from (-1) xs /\ Forall (fun s => u16 (Key s)) xs)
    (fun '(xs, o) => Z.to_nat (zlen msg - o))).
  - intros [xs o] (Ho & Hk & Hu). destruct (Z.ltb_spec o (zlen msg)); cbn [negb].
    2: { cbn. split_and!; [lia|done|done]. }
    eapply ensures_bind_via; [apply unpack_pair_ensures; lia|]. intros [e o'] [Ho' He].
    destruct (out_of_order xs e) eqn:Eo; [done|]. cbn. split; [split_and!; [lia|lia| |]|lia].
    + apply keys_from_app. split; [done|]. cbn. split; [|done]. unfold out_of_order in Eo.
      destruct (last xs); cbn; [by apply Z.leb_gt|]. unfold u16 in He. lia.
    + apply Forall_app. split; [done|]. by constructor.
  - by split_and!; [lia|lia| |].
  - unfold zlen. lia.
Qed.

(** On every message the decoder of service parameters terminates without
    panic; it consumes the message to its end, and the keys it returns are
    16-bit and strictly increasing. *)
Theorem unpackDataSVCB_sorted msg off :
  0 <= off <= zlen msg ->
  ensures (unpackDataSVCB msg off)
    (fun '(xs, off') => off' = zlen msg /\ keys_from (-1) xs /\ Forall (fun s => u16 (Key s)) xs)
    (fun '(o, _) => o = zlen msg).
Proof. apply unpackDataSVCB_ensures. Qed.

Lemma unpackDataSVCB_sorted_witness :
  ensures (unpackDataSVCB [x00; x03; x00; x02; x01; xbb; x00; x05; x00; x01; xaa] 0)
    (fun '(xs, off') => off' = 11 /\ keys_from (-1) xs /\ Forall (fun s => u16 (Key s)) xs)
    (fun '(o, _) => o = 11).
Proof.
  exact (unpackDataSVCB_sorted [x00; x03; x00; x02; x01; xbb; x00; x05; x00; x01; xaa] 0
           ltac:(vm_compute; split; discriminate)).
Defined.

(** The octets [len] counts for the parameters of a record. *)
Definition pairs_len (l : list SVCBKeyValue) : Z := sum_with (fun s => 4 + svcb_len s) l.

Lemma sum_with_perm {A} (f : A -> Z) l l' : l ≡ₚ l' -> sum_with f l = sum_with f l'.
Proof. induction 1; cbn; lia. Qed.

(** C27: service parameters with distinct keys, in any order, survive packing
    and unpacking: they come back sorted by key (mandatory keys sorted too,
    IPv4 hints in 4 bytes), in at most the octets [len] counts. *)
Theorem svcb_roundtrip l msg off :
  NoDup (map Key l) -> Forall (fun s => kv_ok s /\ kv_fits s) l ->
  0 <= off -> off + pairs_len l <= zlen msg ->
  exists msg' off',
    packDataSVCB l msg off = Ok (msg', off') /\ off' <= off + pairs_len l /\
    ztake off msg' = ztake off msg /\
    unpackDataSVCB (ztake off' msg') off = Ok (map kv_read (sort_Slice Key l), off').
Proof.
  intros Hnd Hl H0 Hle. unfold pairs_len in *. rewrite <- (sum_with_perm _ _ _ (sort_perm Key l)) in *.
  assert (0 <= sum_with (fun s => 4 + svcb_len s) (sort_Slice Key l)) as Hpos.
  { rewrite <- (sort_perm Key l) in Hl. clear -Hl. induction Hl as [|s r [Hs _] Hr IH]; cbn; [lia|].
    destruct (kv_roundtrip s Hs) as (b & ? & _ & _ & _ & ->). pose proof (zlen_nonneg b). lia. }
  destruct (carries_svcb l Hnd Hl off nil_map (zlen msg)) as [[Hlt _]|(w & cm & H1 & H2 & H3 & _ & H5)];
    [lia|lia|].
  destruct (H3 msg eq_refl) as (m & E & Hm & Ht). exists m, (off + zlen w).
  unfold plain in E. destruct (packDataSVCB l msg off) as [[m' o']|?| |]; try discriminate E.
  cbn in E. injection E as -> -> _. pose proof (zlen_nonneg w).
  split_and!; [done|lia| |].
  - transitivity (ztake off (ztake (off + zlen w) m)).
    + unfold ztake. rewrite take_take. f_equal. lia.
    + rewrite Ht. apply ztake_app_eq. rewrite zlen_ztake; lia.
  - destruct (H5 (ztake off msg)) as [_ H6]; [by rewrite zlen_ztake; lia|by split|].
    rewrite Ht. specialize (H6 [] ltac:(done)). by rewrite app_nil_r in H6.
Qed.

Lemma svcb_roundtrip_witness :
  let l := [SVCBPort 443; SVCBAlpn [bs "h2"; bs "h3"]; SVCBMandatory [3; 1]] in
  exists msg' off',
    packDataSVCB l (replicate 40 xff) 2 = Ok (msg', off') /\ off' <= 2 + pairs_len l /\
    ztake 2 msg' = ztake 2 (replicate 40 xff) /\
    unpackDataSVCB (ztake off' msg') 2 =
      Ok ([SVCBMandatory [1; 3]; SVCBAlpn [bs "h2"; bs "h3"]; SVCBPort 443], off').
Proof.
  refine (svcb_roundtrip [SVCBPort 443; SVCBAlpn [bs "h2"; bs "h3"]; SVCBMandatory [3; 1]]
            (replicate 40 xff) 2 _ _ _ _).
  - apply (bool_decide_unpack _). by vm_compute.
  - repeat (apply Forall_cons; split); try apply Forall_nil; split; try (by vm_compute);
      cbn [kv_ok]; repeat (apply Forall_cons; split); try apply Forall_nil; by vm_compute.
  - lia.
  - vm_compute. discriminate.
Defined.

Lemma svcbParamToStr_spec E s : exists str, @svcbParamToStr E s = Ok str /\
  forall n data, (length str <= n)%nat -> parse_param n str data = Ok (data ++ s).
Proof.
  unfold svcbParamToStr.
  assert (forall b : byte, exists o : bytes, o <> [] /\
    (forall acc : bytes, (if (bval ch_space <=? bval b) && (bval b <=? bval ch_tilde) then
      if (b =b ch_quote) || (b =b x3b) || (b =b ch_space) || (b =b ch_bslash)
      then Ok (acc ++ [ch_bslash; b]) else Ok (acc ++ [b])
    else esc ← escapeByte b; Ok (acc ++ esc)) = @Ok E bytes (acc ++ o)) /\
    forall n r data, parse_param (S n) (o ++ r) data = parse_param n r (data ++ [b])) as Hb.
  { intros b. destruct b; (eexists; split; [|split; [intros acc; reflexivity|]]; [discriminate|reflexivity]). }
  assert (forall s acc, exists str,
    foldM (fun str e => if (bval ch_space <=? bval e) && (bval e <=? bval ch_tilde) then
      if (e =b ch_quote) || (e =b x3b) || (e =b ch_space) || (e =b ch_bslash)
      then Ok (str ++ [ch_bslash; e]) else Ok (str ++ [e])
    else esc ← escapeByte e; Ok (str ++ esc)) acc s = @Ok E bytes (acc ++ str) /\
    forall n data, (length str <= n)%nat -> parse_param n str data = Ok (data ++ s)) as Hs.
  { clear s. induction s as [|b s IH]; intros acc; cbn [foldM].
    - exists []. rewrite app_nil_r. split; [done|]. intros [|n] data _; by rewrite app_nil_r.
    - destruct (Hb b) as (o & Ho & Hf & Hp). rewrite Hf. gosimp.
      destruct (IH (acc ++ o)) as (str & E1 & Hr). exists (o ++ str). rewrite app_assoc. split; [done|].
      intros n data Hn. rewrite length_app in Hn. destruct o as [|c o]; [done|]. cbn [length] in Hn.
      destruct n as [|n]; [lia|]. rewrite Hp, Hr by lia. by rewrite <- app_assoc. }
  apply (Hs s []).
Qed.

(** The presentation form of any parameter value parses back to the same
    octets. *)
Theorem svcb_param_roundtrip s :
  exists str, @svcbParamToStr error s = Ok str /\ svcbParseParam str = Ok s.
Proof.
  destruct (svcbParamToStr_spec error s) as (str & E & H). exists str. split; [done|].
  unfold svcbParseParam. by rewrite H.
Qed.
