(* ===== verification/RData.v ===== *)
(** * Resource data: the RR structs and their generated methods

    types.go declares one struct per RR type; msg_generate.go and
    types_generate.go write its [pack], [unpack] and [len] from the struct tags
    (zmsg.go, ztypes.go).  Here a struct is its [schema], the list of its
    fields after [Hdr] with their tags, and the generators' output is the
    interpreter of schemas: [pack_fields], [unpack_fields] and [fields_len].
    The field [GatewayAddr] (tag [-]) of IPSECKEY and AMTRELAY is part of the
    value of the gateway field that packs it. *)

From S2P Require Import Prelude Go Utf8 Labels Escape Names NameDecode NameEncode NameLen Wire Codec NameCarry Text Nsec Encodings Apl Edns Svcb.

(** ** Fields *)

(** The tags, with the Go type of the field where the tag is empty. *)
Inductive ftag :=
| F_uint8 | F_uint16 | F_uint32 | F_uint64 | F_uint48
| F_string                          (* a string without tag *)
| F_cname | F_name                  (* cdomain-name, domain-name *)
| F_names                           (* domain-name of a slice *)
| F_a | F_aaaa
| F_txts                            (* txt of a slice *)
| F_octet | F_any | F_hex | F_base64
| F_size_hex (member : String.string) | F_size_base64 (member : String.string)
| F_size_base32 (member : String.string)
| F_salt (member : String.string)   (* size-hex:SaltLength *)
| F_opt | F_nsec | F_pairs | F_apl
| F_gateway (member : String.string).  (* ipsechost, amtrelayhost *)
Arguments F_size_hex member%_string_scope.
Arguments F_size_base64 member%_string_scope.
Arguments F_size_base32 member%_string_scope.
Arguments F_salt member%_string_scope.
Arguments F_gateway member%_string_scope.

Definition schema : Type := list (String.string * ftag).

(** The value of a field. *)
Inductive fval :=
| V_int (i : Z)
| V_str (s : bytes)
| V_strs (l : list bytes)
| V_types (l : list Z)
| V_opts (l : list EDNS0)
| V_pairs (l : list SVCBKeyValue)
| V_apl (l : list APLPrefix)
| V_gateway (addr host : bytes).

#[export] Instance EDNS0_eq_dec : EqDecision EDNS0.
Proof. solve_decision. Defined.
#[export] Instance SVCBKeyValue_eq_dec : EqDecision SVCBKeyValue.
Proof. solve_decision. Defined.
#[export] Instance fval_eq_dec : EqDecision fval.
Proof. solve_decision. Defined.
#[export] Instance string_eq_dec : EqDecision String.string.
Proof. exact String.string_dec. Defined.

(** Go's zero value of the field. *)
Definition zero (t : ftag) : fval :=
  match t with
  | F_uint8 | F_uint16 | F_uint32 | F_uint64 | F_uint48 => V_int 0
  | F_names | F_txts => V_strs []
  | F_opt => V_opts []
  | F_nsec => V_types []
  | F_pairs => V_pairs []
  | F_apl => V_apl []
  | F_gateway _ => V_gateway [] []
  | _ => V_str []
  end.

(** A struct under construction: the fields set so far, by name. *)
Abbreviation members := (list (String.string * fval)).

Fixpoint member (ms : members) (name : String.string) : option fval :=
  match ms with
  | [] => None
  | (n, v) :: ms => if decide (n = name) then Some v else member ms name
  end.

(** [int(rr.name)]. *)
Definition int_member (ms : members) (name : String.string) : Z :=
  match member ms name with Some (V_int i) => i | _ => 0 end.

(** ** The structs (types.go, edns.go, svcb.go, tsig.go) *)

Section Schemas.
#[local] Open Scope string_scope.

Definition ANY_fields : schema := [].
Definition NULL_fields : schema := [("Data", F_any)].
Definition NXNAME_fields : schema := [].
Definition CNAME_fields : schema := [("Target", F_cname)].
Definition HINFO_fields : schema := [("Cpu", F_string); ("Os", F_string)].
Definition MB_fields : schema := [("Mb", F_cname)].
Definition MG_fields : schema := [("Mg", F_cname)].
Definition MINFO_fields : schema := [("Rmail", F_cname); ("Email", F_cname)].
Definition MR_fields : schema := [("Mr", F_cname)].
Definition MF_fields : schema := [("Mf", F_cname)].
Definition MD_fields : schema := [("Md", F_cname)].
Definition MX_fields : schema := [("Preference", F_uint16); ("Mx", F_cname)].
Definition AFSDB_fields : schema := [("Subtype", F_uint16); ("Hostname", F_name)].
Definition X25_fields : schema := [("PSDNAddress", F_string)].
Definition ISDN_fields : schema := [("Address", F_string); ("SubAddress", F_string)].
Definition RT_fields : schema := [("Preference", F_uint16); ("Host", F_name)].
Definition NS_fields : schema := [("Ns", F_cname)].
Definition PTR_fields : schema := [("Ptr", F_cname)].
Definition RP_fields : schema := [("Mbox", F_name); ("Txt", F_name)].
Definition SOA_fields : schema :=
  [("Ns", F_cname); ("Mbox", F_cname); ("Serial", F_uint32); ("Refresh", F_uint32);
   ("Retry", F_uint32); ("Expire", F_uint32); ("Minttl", F_uint32)].
Definition TXT_fields : schema := [("Txt", F_txts)].
Definition SPF_fields : schema := [("Txt", F_txts)].
Definition AVC_fields : schema := [("Txt", F_txts)].
Definition SRV_fields : schema :=
  [("Priority", F_uint16); ("Weight", F_uint16); ("Port", F_uint16); ("Target", F_name)].
Definition NAPTR_fields : schema :=
  [("Order", F_uint16); ("Preference", F_uint16); ("Flags", F_string); ("Service", F_string);
   ("Regexp", F_string); ("Replacement", F_name)].
Definition CERT_fields : schema :=
  [("Type", F_uint16); ("KeyTag", F_uint16); ("Algorithm", F_uint8);
   ("Certificate", F_base64)].
Definition DNAME_fields : schema := [("Target", F_name)].
Definition A_fields : schema := [("A", F_a)].
Definition AAAA_fields : schema := [("AAAA", F_aaaa)].
Definition PX_fields : schema :=
  [("Preference", F_uint16); ("Map822", F_name); ("Mapx400", F_name)].
Definition GPOS_fields : schema :=
  [("Longitude", F_string); ("Latitude", F_string); ("Altitude", F_string)].
Definition LOC_fields : schema :=
  [("Version", F_uint8); ("Size", F_uint8); ("HorizPre", F_uint8); ("VertPre", F_uint8);
   ("Latitude", F_uint32); ("Longitude", F_uint32); ("Altitude", F_uint32)].
Definition RRSIG_fields : schema :=
  [("TypeCovered", F_uint16); ("Algorithm", F_uint8); ("Labels", F_uint8);
   ("OrigTtl", F_uint32); ("Expiration", F_uint32); ("Inception", F_uint32);
   ("KeyTag", F_uint16); ("SignerName", F_name); ("Signature", F_base64)].
Definition NSEC_fields : schema := [("NextDomain", F_name); ("TypeBitMap", F_nsec)].
Definition DS_fields : schema :=
  [("KeyTag", F_uint16); ("Algorithm", F_uint8); ("DigestType", F_uint8); ("Digest", F_hex)].
Definition KX_fields : schema := [("Preference", F_uint16); ("Exchanger", F_name)].
Definition TA_fields : schema :=
  [("KeyTag", F_uint16); ("Algorithm", F_uint8); ("DigestType", F_uint8); ("Digest", F_hex)].
Definition TALINK_fields : schema := [("PreviousName", F_name); ("NextName", F_name)].
Definition SSHFP_fields : schema :=
  [("Algorithm", F_uint8); ("Type", F_uint8); ("FingerPrint", F_hex)].
Definition DNSKEY_fields : schema :=
  [("Flags", F_uint16); ("Protocol", F_uint8); ("Algorithm", F_uint8);
   ("PublicKey", F_base64)].
Definition IPSECKEY_fields : schema :=
  [("Precedence", F_uint8); ("GatewayType", F_uint8); ("Algorithm", F_uint8);
   ("GatewayHost", F_gateway "GatewayType"); ("PublicKey", F_base64)].
Definition AMTRELAY_fields : schema :=
  [("Precedence", F_uint8); ("GatewayType", F_uint8);
   ("GatewayHost", F_gateway "GatewayType")].
Definition RKEY_fields : schema :=
  [("Flags", F_uint16); ("Protocol", F_uint8); ("Algorithm", F_uint8);
   ("PublicKey", F_base64)].
Definition NSAPPTR_fields : schema := [("Ptr", F_name)].
Definition NSEC3_fields : schema :=
  [("Hash", F_uint8); ("Flags", F_uint8); ("Iterations", F_uint16); ("SaltLength", F_uint8);
   ("Salt", F_salt "SaltLength"); ("HashLength", F_uint8);
   ("NextDomain", F_size_base32 "HashLength"); ("TypeBitMap", F_nsec)].
Definition NSEC3PARAM_fields : schema :=
  [("Hash", F_uint8); ("Flags", F_uint8); ("Iterations", F_uint16); ("SaltLength", F_uint8);
   ("Salt", F_salt "SaltLength")].
Definition TKEY_fields : schema :=
  [("Algorithm", F_name); ("Inception", F_uint32); ("Expiration", F_uint32);
   ("Mode", F_uint16); ("Error", F_uint16); ("KeySize", F_uint16);
   ("Key", F_size_hex "KeySize"); ("OtherLen", F_uint16);
   ("OtherData", F_size_hex "OtherLen")].
Definition RFC3597_fields : schema := [("Rdata", F_hex)].
Definition URI_fields : schema :=
  [("Priority", F_uint16); ("Weight", F_uint16); ("Target", F_octet)].
Definition DHCID_fields : schema := [("Digest", F_base64)].
Definition TLSA_fields : schema :=
  [("Usage", F_uint8); ("Selector", F_uint8); ("MatchingType", F_uint8);
   ("Certificate", F_hex)].
Definition SMIMEA_fields : schema :=
  [("Usage", F_uint8); ("Selector", F_uint8); ("MatchingType", F_uint8);
   ("Certificate", F_hex)].
Definition HIP_fields : schema :=
  [("HitLength", F_uint8); ("PublicKeyAlgorithm", F_uint8); ("PublicKeyLength", F_uint16);
   ("Hit", F_size_hex "HitLength"); ("PublicKey", F_size_base64 "PublicKeyLength");
   ("RendezvousServers", F_names)].
Definition NINFO_fields : schema := [("ZSData", F_txts)].
Definition NID_fields : schema := [("Preference", F_uint16); ("NodeID", F_uint64)].
Definition L32_fields : schema := [("Preference", F_uint16); ("Locator32", F_a)].
Definition L64_fields : schema := [("Preference", F_uint16); ("Locator64", F_uint64)].
Definition LP_fields : schema := [("Preference", F_uint16); ("Fqdn", F_name)].
Definition EUI48_fields : schema := [("Address", F_uint48)].
Definition EUI64_fields : schema := [("Address", F_uint64)].
Definition CAA_fields : schema := [("Flag", F_uint8); ("Tag", F_string); ("Value", F_octet)].
Definition UID_fields : schema := [("Uid", F_uint32)].
Definition GID_fields : schema := [("Gid", F_uint32)].
Definition UINFO_fields : schema := [("Uinfo", F_string)].
Definition EID_fields : schema := [("Endpoint", F_hex)].
Definition NIMLOC_fields : schema := [("Locator", F_hex)].
Definition OPENPGPKEY_fields : schema := [("PublicKey", F_base64)].
Definition CSYNC_fields : schema :=
  [("Serial", F_uint32); ("Flags", F_uint16); ("TypeBitMap", F_nsec)].
Definition ZONEMD_fields : schema :=
  [("Serial", F_uint32); ("Scheme", F_uint8); ("Hash", F_uint8); ("Digest", F_hex)].
Definition RESINFO_fields : schema := [("Txt", F_txts)].
Definition APL_fields : schema := [("Prefixes", F_apl)].
Definition OPT_fields : schema := [("Option", F_opt)].
Definition SVCB_fields : schema :=
  [("Priority", F_uint16); ("Target", F_name); ("Value", F_pairs)].
Definition TSIG_fields : schema :=
  [("Algorithm", F_name); ("TimeSigned", F_uint48); ("Fudge", F_uint16);
   ("MACSize", F_uint16); ("MAC", F_size_hex "MACSize"); ("OrigId", F_uint16);
   ("Error", F_uint16); ("OtherLen", F_uint16); ("OtherData", F_size_hex "OtherLen")].
Definition SIG_fields : schema := RRSIG_fields.
Definition NXT_fields : schema := NSEC_fields.
Definition DLV_fields : schema := DS_fields.
Definition CDS_fields : schema := DS_fields.
Definition KEY_fields : schema := DNSKEY_fields.
Definition CDNSKEY_fields : schema := DNSKEY_fields.
Definition HTTPS_fields : schema := SVCB_fields.
End Schemas.

(** ** Dispatch on the struct (ztypes.go) *)


Inductive rrstruct :=
| RR_A | RR_NS | RR_MD | RR_MF | RR_CNAME | RR_SOA | RR_MB | RR_MG | RR_MR | RR_NULL | RR_PTR
| RR_HINFO | RR_MINFO | RR_MX | RR_TXT | RR_RP | RR_AFSDB | RR_X25 | RR_ISDN | RR_RT |
RR_NSAPPTR | RR_SIG | RR_KEY | RR_PX | RR_GPOS | RR_AAAA | RR_LOC | RR_NXT | RR_EID |
RR_NIMLOC | RR_SRV | RR_NAPTR | RR_KX | RR_CERT | RR_DNAME | RR_OPT | RR_APL | RR_DS |
RR_SSHFP | RR_IPSECKEY | RR_RRSIG | RR_NSEC | RR_DNSKEY | RR_DHCID | RR_NSEC3 | RR_NSEC3PARAM
| RR_TLSA | RR_SMIMEA | RR_HIP | RR_NINFO | RR_RKEY | RR_TALINK | RR_CDS | RR_CDNSKEY |
RR_OPENPGPKEY | RR_CSYNC | RR_ZONEMD | RR_SVCB | RR_HTTPS | RR_SPF | RR_UINFO | RR_UID |
RR_GID | RR_NID | RR_L32 | RR_L64 | RR_LP | RR_EUI48 | RR_EUI64 | RR_NXNAME | RR_TKEY |
RR_TSIG | RR_ANY | RR_URI | RR_CAA | RR_AVC | RR_AMTRELAY | RR_RESINFO | RR_TA | RR_DLV |
RR_RFC3597.

Definition type_code (k : rrstruct) : option Z :=
  match k with
  | RR_A => Some 1
  | RR_NS => Some 2
  | RR_MD => Some 3
  | RR_MF => Some 4
  | RR_CNAME => Some 5
  | RR_SOA => Some 6
  | RR_MB => Some 7
  | RR_MG => Some 8
  | RR_MR => Some 9
  | RR_NULL => Some 10
  | RR_PTR => Some 12
  | RR_HINFO => Some 13
  | RR_MINFO => Some 14
  | RR_MX => Some 15
  | RR_TXT => Some 16
  | RR_RP => Some 17
  | RR_AFSDB => Some 18
  | RR_X25 => Some 19
  | RR_ISDN => Some 20
  | RR_RT => Some 21
  | RR_NSAPPTR => Some 23
  | RR_SIG => Some 24
  | RR_KEY => Some 25
  | RR_PX => Some 26
  | RR_GPOS => Some 27
  | RR_AAAA => Some 28
  | RR_LOC => Some 29
  | RR_NXT => Some 30
  | RR_EID => Some 31
  | RR_NIMLOC => Some 32
  | RR_SRV => Some 33
  | RR_NAPTR => Some 35
  | RR_KX => Some 36
  | RR_CERT => Some 37
  | RR_DNAME => Some 39
  | RR_OPT => Some 41
  | RR_APL => Some 42
  | RR_DS => Some 43
  | RR_SSHFP => Some 44
  | RR_IPSECKEY => Some 45
  | RR_RRSIG => Some 46
  | RR_NSEC => Some 47
  | RR_DNSKEY => Some 48
  | RR_DHCID => Some 49
  | RR_NSEC3 => Some 50
  | RR_NSEC3PARAM => Some 51
  | RR_TLSA => Some 52
  | RR_SMIMEA => Some 53
  | RR_HIP => Some 55
  | RR_NINFO => Some 56
  | RR_RKEY => Some 57
  | RR_TALINK => Some 58
  | RR_CDS => Some 59
  | RR_CDNSKEY => Some 60
  | RR_OPENPGPKEY => Some 61
  | RR_CSYNC => Some 62
  | RR_ZONEMD => Some 63
  | RR_SVCB => Some 64
  | RR_HTTPS => Some 65
  | RR_SPF => Some 99
  | RR_UINFO => Some 100
  | RR_UID => Some 101
  | RR_GID => Some 102
  | RR_NID => Some 104
  | RR_L32 => Some 105
  | RR_L64 => Some 106
  | RR_LP => Some 107
  | RR_EUI48 => Some 108
  | RR_EUI64 => Some 109
  | RR_NXNAME => Some 128
  | RR_TKEY => Some 249
  | RR_TSIG => Some 250
  | RR_ANY => Some 255
  | RR_URI => Some 256
  | RR_CAA => Some 257
  | RR_AVC => Some 258
  | RR_AMTRELAY => Some 260
  | RR_RESINFO => Some 261
  | RR_TA => Some 32768
  | RR_DLV => Some 32769
  | RR_RFC3597 => None
  end.

Definition fields (k : rrstruct) : schema :=
  match k with
  | RR_A => A_fields
  | RR_NS => NS_fields
  | RR_MD => MD_fields
  | RR_MF => MF_fields
  | RR_CNAME => CNAME_fields
  | RR_SOA => SOA_fields
  | RR_MB => MB_fields
  | RR_MG => MG_fields
  | RR_MR => MR_fields
  | RR_NULL => NULL_fields
  | RR_PTR => PTR_fields
  | RR_HINFO => HINFO_fields
  | RR_MINFO => MINFO_fields
  | RR_MX => MX_fields
  | RR_TXT => TXT_fields
  | RR_RP => RP_fields
  | RR_AFSDB => AFSDB_fields
  | RR_X25 => X25_fields
  | RR_ISDN => ISDN_fields
  | RR_RT => RT_fields
  | RR_NSAPPTR => NSAPPTR_fields
  | RR_SIG => SIG_fields
  | RR_KEY => KEY_fields
  | RR_PX => PX_fields
  | RR_GPOS => GPOS_fields
  | RR_AAAA => AAAA_fields
  | RR_LOC => LOC_fields
  | RR_NXT => NXT_fields
  | RR_EID => EID_fields
  | RR_NIMLOC => NIMLOC_fields
  | RR_SRV => SRV_fields
  | RR_NAPTR => NAPTR_fields
  | RR_KX => KX_fields
  | RR_CERT => CERT_fields
  | RR_DNAME => DNAME_fields
  | RR_OPT => OPT_fields
  | RR_APL => APL_fields
  | RR_DS => DS_fields
  | RR_SSHFP => SSHFP_fields
  | RR_IPSECKEY => IPSECKEY_fields
  | RR_RRSIG => RRSIG_fields
  | RR_NSEC => NSEC_fields
  | RR_DNSKEY => DNSKEY_fields
  | RR_DHCID => DHCID_fields
  | RR_NSEC3 => NSEC3_fields
  | RR_NSEC3PARAM => NSEC3PARAM_fields
  | RR_TLSA => TLSA_fields
  | RR_SMIMEA => SMIMEA_fields
  | RR_HIP => HIP_fields
  | RR_NINFO => NINFO_fields
  | RR_RKEY => RKEY_fields
  | RR_TALINK => TALINK_fields
  | RR_CDS => CDS_fields
  | RR_CDNSKEY => CDNSKEY_fields
  | RR_OPENPGPKEY => OPENPGPKEY_fields
  | RR_CSYNC => CSYNC_fields
  | RR_ZONEMD => ZONEMD_fields
  | RR_SVCB => SVCB_fields
  | RR_HTTPS => HTTPS_fields
  | RR_SPF => SPF_fields
  | RR_UINFO => UINFO_fields
  | RR_UID => UID_fields
  | RR_GID => GID_fields
  | RR_NID => NID_fields
  | RR_L32 => L32_fields
  | RR_L64 => L64_fields
  | RR_LP => LP_fields
  | RR_EUI48 => EUI48_fields
  | RR_EUI64 => EUI64_fields
  | RR_NXNAME => NXNAME_fields
  | RR_TKEY => TKEY_fields
  | RR_TSIG => TSIG_fields
  | RR_ANY => ANY_fields
  | RR_URI => URI_fields
  | RR_CAA => CAA_fields
  | RR_AVC => AVC_fields
  | RR_AMTRELAY => AMTRELAY_fields
  | RR_RESINFO => RESINFO_fields
  | RR_TA => TA_fields
  | RR_DLV => DLV_fields
  | RR_RFC3597 => RFC3597_fields
  end.

Definition all_structs : list rrstruct :=
  [RR_A; RR_NS; RR_MD; RR_MF; RR_CNAME; RR_SOA; RR_MB; RR_MG; RR_MR; RR_NULL; RR_PTR;
   RR_HINFO; RR_MINFO; RR_MX; RR_TXT; RR_RP; RR_AFSDB; RR_X25; RR_ISDN; RR_RT; RR_NSAPPTR;
   RR_SIG; RR_KEY; RR_PX; RR_GPOS; RR_AAAA; RR_LOC; RR_NXT; RR_EID; RR_NIMLOC; RR_SRV;
   RR_NAPTR; RR_KX; RR_CERT; RR_DNAME; RR_OPT; RR_APL; RR_DS; RR_SSHFP; RR_IPSECKEY; RR_RRSIG;
   RR_NSEC; RR_DNSKEY; RR_DHCID; RR_NSEC3; RR_NSEC3PARAM; RR_TLSA; RR_SMIMEA; RR_HIP;
   RR_NINFO; RR_RKEY; RR_TALINK; RR_CDS; RR_CDNSKEY; RR_OPENPGPKEY; RR_CSYNC; RR_ZONEMD;
   RR_SVCB; RR_HTTPS; RR_SPF; RR_UINFO; RR_UID; RR_GID; RR_NID; RR_L32; RR_L64; RR_LP;
   RR_EUI48; RR_EUI64; RR_NXNAME; RR_TKEY; RR_TSIG; RR_ANY; RR_URI; RR_CAA; RR_AVC;
   RR_AMTRELAY; RR_RESINFO; RR_TA; RR_DLV].

Section Struct_names.
#[local] Open Scope string_scope.
Definition struct_name (k : rrstruct) : String.string :=
  match k with
  | RR_A => "A"
  | RR_NS => "NS"
  | RR_MD => "MD"
  | RR_MF => "MF"
  | RR_CNAME => "CNAME"
  | RR_SOA => "SOA"
  | RR_MB => "MB"
  | RR_MG => "MG"
  | RR_MR => "MR"
  | RR_NULL => "NULL"
  | RR_PTR => "PTR"
  | RR_HINFO => "HINFO"
  | RR_MINFO => "MINFO"
  | RR_MX => "MX"
  | RR_TXT => "TXT"
  | RR_RP => "RP"
  | RR_AFSDB => "AFSDB"
  | RR_X25 => "X25"
  | RR_ISDN => "ISDN"
  | RR_RT => "RT"
  | RR_NSAPPTR => "NSAPPTR"
  | RR_SIG => "SIG"
  | RR_KEY => "KEY"
  | RR_PX => "PX"
  | RR_GPOS => "GPOS"
  | RR_AAAA => "AAAA"
  | RR_LOC => "LOC"
  | RR_NXT => "NXT"
  | RR_EID => "EID"
  | RR_NIMLOC => "NIMLOC"
  | RR_SRV => "SRV"
  | RR_NAPTR => "NAPTR"
  | RR_KX => "KX"
  | RR_CERT => "CERT"
  | RR_DNAME => "DNAME"
  | RR_OPT => "OPT"
  | RR_APL => "APL"
  | RR_DS => "DS"
  | RR_SSHFP => "SSHFP"
  | RR_IPSECKEY => "IPSECKEY"
  | RR_RRSIG => "RRSIG"
  | RR_NSEC => "NSEC"
  | RR_DNSKEY => "DNSKEY"
  | RR_DHCID => "DHCID"
  | RR_NSEC3 => "NSEC3"
  | RR_NSEC3PARAM => "NSEC3PARAM"
  | RR_TLSA => "TLSA"
  | RR_SMIMEA => "SMIMEA"
  | RR_HIP => "HIP"
  | RR_NINFO => "NINFO"
  | RR_RKEY => "RKEY"
  | RR_TALINK => "TALINK"
  | RR_CDS => "CDS"
  | RR_CDNSKEY => "CDNSKEY"
  | RR_OPENPGPKEY => "OPENPGPKEY"
  | RR_CSYNC => "CSYNC"
  | RR_ZONEMD => "ZONEMD"
  | RR_SVCB => "SVCB"
  | RR_HTTPS => "HTTPS"
  | RR_SPF => "SPF"
  | RR_UINFO => "UINFO"
  | RR_UID => "UID"
  | RR_GID => "GID"
  | RR_NID => "NID"
  | RR_L32 => "L32"
  | RR_L64 => "L64"
  | RR_LP => "LP"
  | RR_EUI48 => "EUI48"
  | RR_EUI64 => "EUI64"
  | RR_NXNAME => "NXNAME"
  | RR_TKEY => "TKEY"
  | RR_TSIG => "TSIG"
  | RR_ANY => "ANY"
  | RR_URI => "URI"
  | RR_CAA => "CAA"
  | RR_AVC => "AVC"
  | RR_AMTRELAY => "AMTRELAY"
  | RR_RESINFO => "RESINFO"
  | RR_TA => "TA"
  | RR_DLV => "DLV"
  | RR_RFC3597 => "RFC3597"
  end.
End Struct_names.

(** [TypeToRR]. *)
Definition TypeToRR (Rrtype : Z) : option rrstruct :=
  (fun x => x.2) <$> list_find (fun k => type_code k = Some Rrtype) all_structs.

(** ** [pack] *)

Definition IPSECGatewayIPv4 : Z := 1.
Definition IPSECGatewayIPv6 : Z := 2.
Definition IPSECGatewayHost : Z := 3.

Definition packIPSECGateway (gatewayAddr gatewayString : bytes) (gatewayType : Z) (compress : bool) : packer :=
  if gatewayType =? IPSECGatewayIPv4 then plain (packDataA gatewayAddr)
  else if gatewayType =? IPSECGatewayIPv6 then plain (packDataAAAA gatewayAddr)
  else if gatewayType =? IPSECGatewayHost
  then fun msg off cm => packDomainName gatewayString msg off cm compress
  else fun msg off cm => Ok (msg, off, cm).

Definition unpackIPSECGateway (gatewayType : Z) : unpacker (bytes * bytes) := fun msg off =>
  if gatewayType =? IPSECGatewayIPv4 then '(a, off) ← unpackDataA msg off; Ok ((a, []), off)
  else if gatewayType =? IPSECGatewayIPv6 then '(a, off) ← unpackDataAAAA msg off; Ok ((a, []), off)
  else if gatewayType =? IPSECGatewayHost then '(s, off) ← UnpackDomainName msg off; Ok (([], s), off)
  else Ok (([], []), off).

(** One field; a value of another type than the field's cannot be written in
    Go and is a panic here. *)
Definition pack_field (rr : members) (t : ftag) (v : fval) (compress : bool) : packer :=
  match t, v with
  | F_uint8, V_int i => plain (packUint8 i)
  | F_uint16, V_int i => plain (packUint16 i)
  | F_uint32, V_int i => plain (packUint32 i)
  | F_uint64, V_int i => plain (packUint64 i)
  | F_uint48, V_int i => plain (packUint48 i)
  | F_string, V_str s => plain (packString s)
  | F_cname, V_str s => fun msg off cm => packDomainName s msg off cm compress
  | F_name, V_str s => fun msg off cm => packDomainName s msg off cm false
  | F_names, V_strs l => fun msg off cm => packDataDomainNames l msg off cm false
  | F_a, V_str a => plain (packDataA a)
  | F_aaaa, V_str a => plain (packDataAAAA a)
  | F_txts, V_strs l => plain (packStringTxt l)
  | F_octet, V_str s => plain (packStringOctet s)
  | F_any, V_str s => plain (packStringAny s)
  | (F_hex | F_size_hex _), V_str s => plain (packStringHex s)
  | (F_base64 | F_size_base64 _), V_str s => plain (packStringBase64 s)
  | F_size_base32 _, V_str s => plain (packStringBase32 s)
  | F_salt _, V_str s =>
      if bool_decide (s = bs "-") then fun msg off cm => Ok (msg, off, cm)
      else plain (packStringHex s)
  | F_opt, V_opts l => plain (packDataOpt l)
  | F_nsec, V_types l => plain (packDataNsec l)
  | F_pairs, V_pairs l => plain (packDataSVCB l)
  | F_apl, V_apl l => plain (packDataApl l)
  | F_gateway m, V_gateway addr host => packIPSECGateway addr host (int_member rr m) false
  | _, _ => fun _ _ _ => Panic
  end.

(** The body of [(rr *T) pack]: [rr] is the whole struct. *)
Fixpoint pack_fields (rr : members) (fs : schema) (vs : list fval) (compress : bool) : packer :=
  fun msg off cm =>
  match fs, vs with
  | [], [] => Ok (msg, off, cm)
  | (_, t) :: fs, v :: vs =>
      '(msg, off, cm) ← pack_field rr t v compress msg off cm;
      pack_fields rr fs vs compress msg off cm
  | _, _ => Panic
  end.

(** ** [unpack] *)

(** One field; [end_] is [rdStart + int(rr.Hdr.Rdlength)]. *)
Definition unpack_field (rr : members) (t : ftag) (end_ : Z) : unpacker fval := fun msg off =>
  let int r := '(i, off) ← r; Ok (V_int i, off) : wire (fval * Z) in
  let str r := '(s, off) ← r; Ok (V_str s, off) : wire (fval * Z) in
  match t with
  | F_uint8 => int (unpackUint8 msg off)
  | F_uint16 => int (unpackUint16 msg off)
  | F_uint32 => int (unpackUint32 msg off)
  | F_uint64 => int (unpackUint64 msg off)
  | F_uint48 => int (unpackUint48 msg off)
  | F_string => str (unpackString msg off)
  | F_cname | F_name => str (UnpackDomainName msg off)
  | F_names => '(l, off) ← unpackDataDomainNames msg off end_; Ok (V_strs l, off)
  | F_a => str (unpackDataA msg off)
  | F_aaaa => str (unpackDataAAAA msg off)
  | F_txts => '(l, off) ← unpackStringTxt msg off; Ok (V_strs l, off)
  | F_octet => str (unpackStringOctet msg off)
  | F_any => str (unpackStringAny msg off end_)
  | F_hex => str (unpackStringHex msg off end_)
  | F_base64 => str (unpackStringBase64 msg off end_)
  | F_size_hex m | F_salt m => str (unpackStringHex msg off (off + int_member rr m))
  | F_size_base64 m => str (unpackStringBase64 msg off (off + int_member rr m))
  | F_size_base32 m => str (unpackStringBase32 msg off (off + int_member rr m))
  | F_opt => '(l, off) ← unpackDataOpt msg off; Ok (V_opts l, off)
  | F_nsec => '(l, off) ← unpackDataNsec msg off; Ok (V_types l, off)
  | F_pairs => '(l, off) ← unpackDataSVCB msg off; Ok (V_pairs l, off)
  | F_apl => '(l, off) ← unpackDataApl msg off; Ok (V_apl l, off)
  | F_gateway m => '((a, h), off) ← unpackIPSECGateway (int_member rr m) msg off; Ok (V_gateway a h, off)
  end.

(** The size-* fields and the slices [continue] in the generator: their errors
    are not wrapped ([sized]), and no end-of-message check follows them. *)
Definition sized (t : ftag) : bool :=
  match t with F_size_hex _ | F_size_base64 _ | F_size_base32 _ | F_salt _ => true | _ => false end.
Definition checks_end (t : ftag) : bool :=
  negb (sized t) &&
  match t with F_names | F_txts | F_opt | F_nsec | F_pairs | F_apl => false | _ => true end.

(** [fmt.Errorf("T.Field: %w", err)]. *)
Definition field_error (struct field : String.string) (t : ftag) (e : Z * error) : Z * error :=
  if sized t then e else
  (e.1, Errorf (if bool_decide (struct = field) then struct
                else String.append struct (String.append "." field)) e.2).

(** The body of [(rr *T) unpack]; the fields that are not reached keep their
    zero values. *)
Fixpoint unpack_fields (struct : String.string) (rr : members) (fs : schema) (end_ : Z) : unpacker (list fval) :=
  fun msg off =>
  match fs with
  | [] => Ok ([], off)
  | (name, t) :: fs =>
      '(v, off) ← on_err (field_error struct name t) (unpack_field rr t end_ msg off);
      if checks_end t && negb (bool_decide (fs = [])) && (off =? zlen msg)
      then Ok (v :: map (fun f => zero f.2) fs, off)
      else '(vs, off) ← unpack_fields struct (rr ++ [(name, v)]) fs end_ msg off; Ok (v :: vs, off)
  end.

(** ** [len] *)

(** [base64.StdEncoding.DecodedLen(n)]. *)
Definition base64_DecodedLen (n : Z) : Z := n / 4 * 3.

(** The octets of one field; [off] is [off+l] in the code. *)
Definition field_len (rr : members) (t : ftag) (v : fval) (off : Z) (c : option (gset bytes))
    : res error (Z * option (gset bytes)) :=
  match t, v with
  | F_uint8, _ => Ok (1, c)
  | F_uint16, _ => Ok (2, c)
  | F_uint32, _ => Ok (4, c)
  | F_uint64, _ => Ok (8, c)
  | F_uint48, _ => Ok (6, c)
  | F_string, V_str s => Ok (zlen s + 1, c)
  | F_cname, V_str s => domainNameLen s off c true
  | F_name, V_str s => domainNameLen s off c false
  | F_names, V_strs l =>
      foldM (fun '(n, c) x => '(k, c) ← domainNameLen x (off + n) c false; Ok (n + k, c)) (0, c) l
  | F_a, V_str a => Ok (if zlen a =? 0 then 0 else 4, c)
  | F_aaaa, V_str a => Ok (if zlen a =? 0 then 0 else 16, c)
  | F_txts, V_strs l => Ok (sum_with (fun x => zlen x + 1) l, c)
  | (F_octet | F_any), V_str s => Ok (zlen s, c)
  | (F_hex | F_size_hex _ | F_salt _), V_str s => Ok (zlen s / 2, c)
  | (F_base64 | F_size_base64 _), V_str s => Ok (base64_DecodedLen (zlen s), c)
  | F_size_base32 _, V_str s => Ok (zlen s + 2, c)  (* [(rr *NSEC3) len] *)
  | F_opt, V_opts l => Ok (sum_with opt_len l, c)
  | F_nsec, V_types l => Ok (typeBitMapLen l, c)
  | F_pairs, V_pairs l => Ok (sum_with (fun x => 4 + svcb_len x) l, c)
  | F_apl, V_apl l => Ok (sum_with apl_len l, c)
  | F_gateway m, V_gateway _ host =>
      let gatewayType := int_member rr m in
      Ok (if gatewayType =? IPSECGatewayIPv4 then 4 else if gatewayType =? IPSECGatewayIPv6 then 16
          else if gatewayType =? IPSECGatewayHost then zlen host + 1 else 0, c)
  | _, _ => Panic
  end.

Fixpoint fields_len (rr : members) (fs : schema) (vs : list fval) (off : Z) (c : option (gset bytes))
    : res error (Z * option (gset bytes)) :=
  match fs, vs with
  | [], [] => Ok (0, c)
  | (_, t) :: fs, v :: vs =>
      '(n, c) ← field_len rr t v off c;
      '(k, c) ← fields_len rr fs vs (off + n) c;
      Ok (n + k, c)
  | _, _ => Panic
  end.

(** The struct of a list of values. *)
Definition members_of (fs : schema) (vs : list fval) : members :=
  zip_with (fun f v => (f.1, v)) fs vs.
