(* ===== verification/RDataCarry.v ===== *)
(** * Resource data on the wire

    The contract of every field of every RR struct, and of whole resource
    data: [carries_rdata], which Message.v builds on. *)

From S2P Require Import Prelude Go Utf8 Labels Escape Names NameDecode NameEncode NameLen Wire Codec NameCarry Text Nsec Encodings Apl Edns Svcb RData.

(** ** Values that can travel *)

Definition good_name (s : bytes) : Prop := exists ls, good_labels ls /\ s = show_name ls.

(** The values a field can send; [rr] is the struct. *)
Definition field_ok (rr : members) (t : ftag) (v : fval) : Prop :=
  match t, v with
  | F_uint8, V_int i => u8 i
  | F_uint16, V_int i => u16 i
  | F_uint32, V_int i => u32 i
  | F_uint64, V_int i => u64 i
  | F_uint48, V_int i => u48 i
  | F_string, V_str s => exists l, (zlen l <= 255) /\ s = show_txt l
  | (F_cname | F_name), V_str s => good_name s
  | F_names, V_strs l => exists lss, Forall good_labels lss /\ l = map show_name lss
  | F_a, V_str a => zlen (To4 a) = 4
  | F_aaaa, V_str a => zlen a = 16
  | F_txts, V_strs l => exists ls, ls <> [] /\ Forall (fun l => zlen l <= 255) ls /\ l = map show_txt ls
  | F_octet, V_str s => s <> [] /\ (ch_bslash ∉ s) /\ zlen s <= 1025
  | F_any, V_str _ => True
  | F_hex, V_str s => exists l, s = hex_EncodeToString l
  | F_base64, V_str s => exists l, s = toBase64 l
  | F_size_hex m, V_str s => exists l, s = hex_EncodeToString l /\ int_member rr m = zlen l
  | F_size_base64 m, V_str s => exists l, s = toBase64 l /\ int_member rr m = zlen l
  | F_size_base32 m, V_str s => exists l, s = toBase32 l /\ int_member rr m = zlen l
  | F_salt m, V_str s =>
      (s = bs "-" /\ int_member rr m = 0) \/
      (exists l, s = hex_EncodeToString l /\ int_member rr m = zlen l)
  | F_opt, V_opts l => Forall (fun e => opt_ok e /\ opt_fits e) l
  | F_nsec, V_types l => types_from (-1) l
  | F_pairs, V_pairs l => NoDup (map Key l) /\ Forall (fun s => kv_ok s /\ kv_fits s) l
  | F_apl, V_apl l => Forall apl_ok l
  | F_gateway m, V_gateway a h =>
      let g := int_member rr m in
      (g = IPSECGatewayIPv4 /\ zlen (To4 a) = 4 /\ h = []) \/
      (g = IPSECGatewayIPv6 /\ zlen a = 16 /\ h = []) \/
      (g = IPSECGatewayHost /\ a = [] /\ good_name h) \/
      (g <> IPSECGatewayIPv4 /\ g <> IPSECGatewayIPv6 /\ g <> IPSECGatewayHost /\ a = [] /\ h = [])
  | _, _ => False
  end.

(** What a reader gets: the value, normalised. *)
Definition field_read (rr : members) (t : ftag) (v : fval) : fval :=
  match t, v with
  | F_a, V_str a => V_str (To4 a)
  | F_salt _, V_str s => V_str (if bool_decide (s = bs "-") then [] else s)
  | F_opt, V_opts l => V_opts (map opt_read l)
  | F_pairs, V_pairs l => V_pairs (map kv_read (sort_Slice Key l))
  | F_apl, V_apl l => V_apl (map apl_read l)
  | F_gateway m, V_gateway a h =>
      V_gateway (if int_member rr m =? IPSECGatewayIPv4 then To4 a else a) h
  | _, v => v
  end.

(** The fields that extend to the end of the message. *)
Definition is_last (t : ftag) : bool :=
  match t with
  | F_names | F_txts | F_octet | F_any | F_hex | F_base64 | F_opt | F_nsec | F_pairs | F_apl => true
  | _ => false
  end.

(** The member a field's length or form depends on. *)
Definition uses (t : ftag) : option String.string :=
  match t with
  | F_size_hex m | F_size_base64 m | F_size_base32 m | F_salt m | F_gateway m => Some m
  | _ => None
  end.

(** ** Contracts with another type of value *)

Lemma carries_map {A B} tail n pk (up : unpacker A) v (f : A -> B) :
  carries tail n pk up v ->
  carries tail n pk (fun msg off => '(x, off) ← up msg off; Ok (f x, off)) (f v).
Proof.
  intros H off cm L Hoff. destruct (H off cm L Hoff) as [He|(w & cm' & H1 & H2 & H3 & H4 & H5)];
    [by left|right].
  exists w, cm'. split_and!; try done. intros pre Hpre Hok. destruct (H5 pre Hpre Hok) as [H6 H7].
  split; [done|]. intros suf Hs. by rewrite (H7 suf Hs).
Qed.

Lemma carries_To4 a : zlen (To4 a) = 4 -> carries false 4 (plain (packDataA a)) unpackDataA (To4 a).
Proof.
  intros H. unfold To4 in *. destruct (Z.eqb_spec (zlen a) 4); [by apply carries_a|].
  destruct (Z.eqb_spec (zlen a) 16) as [H16|]; cbn [andb] in *; [|done].
  case_bool_decide as Hp; [|done].
  assert (a = v4InV6Prefix ++ zdrop 12 a) as E.
  { rewrite <- Hp. unfold ztake, zdrop. by rewrite take_drop. }
  rewrite E at 1. by apply carries_a_mapped.
Qed.

(** Nothing sent, for a field that may be followed by others. *)
Lemma carries_none {A} tail n (pk : packer) (up : unpacker A) v :
  0 <= n -> (forall msg off cm, pk msg off cm = Ok (msg, off, cm)) ->
  (forall msg off, 0 <= off <= zlen msg -> up msg off = Ok (v, off)) -> carries tail n pk up v.
Proof.
  intros Hn Hpk Hup off cm L Hoff. right. exists [], cm.
  change (zlen (@nil byte)) with 0. rewrite Z.add_0_r. split_and!; [done|lia| |done|].
  - intros msg Hm. exists msg. rewrite app_nil_r. change (zlen (@nil byte)) with 0.
    by rewrite Hpk, Z.add_0_r.
  - intros pre Hpre Hok. rewrite app_nil_r. split; [done|]. intros suf _.
    rewrite Hup; [done|]. cbn [app]. pose proof (zlen_nonneg suf). rewrite zlen_app. lia.
Qed.

(** ** Lengths of the text forms *)

Lemma hex_length l : zlen (hex_EncodeToString l) = 2 * zlen l.
Proof.
  unfold hex_EncodeToString. induction l as [|b l IH]; [done|]. cbn [map concat app].
  rewrite !zlen_cons, IH. lia.
Qed.

Lemma digits_zlen k n v (f : Z -> byte) : zlen (map f (digits k n v)) = Z.of_nat n.
Proof. unfold zlen. by rewrite length_map, digits_length. Qed.

Lemma base64_length l : zlen l <= base64_DecodedLen (zlen (toBase64 l)).
Proof.
  unfold base64_DecodedLen, toBase64. induction l as [|a|a b|a b c l IH] using list_ind3.
  - done.
  - assert (zlen (base64_EncodeToString [a]) = 4) as ->; [|by vm_compute].
    cbn [base64_EncodeToString]. unfold zlen. by rewrite length_app, length_map, length_take, digits_length.
  - assert (zlen (base64_EncodeToString [a; b]) = 4) as ->; [|by vm_compute].
    cbn [base64_EncodeToString]. unfold zlen. by rewrite length_app, length_map, length_take, digits_length.
  - cbn [base64_EncodeToString]. rewrite !zlen_cons, zlen_app, digits_zlen.
    set (m := zlen (base64_EncodeToString l)) in *. change (Z.of_nat 4) with 4. dlia.
Qed.

Lemma base32_length l : zlen l <= zlen (toBase32 l).
Proof.
  unfold toBase32. assert (forall n l, (length l <= n)%nat -> (length l <= length (b32_encode n l))%nat) as H.
  { induction n as [|n IH]; intros m Hm; [simpl in *; lia|]. destruct m as [|c m]; [done|].
    cbn [b32_encode]. rewrite length_app. set (x := c :: m) in *.
    specialize (IH (drop 5 x)). rewrite length_drop in IH.
    assert (1 <= length x)%nat by (unfold x; cbn; lia).
    assert (length (take 5 x) <= length (b32_enc (take 5 x)))%nat.
    { unfold b32_enc. rewrite length_map, !length_take, digits_length. destruct (length x) as [|[|[|[|[|]]]]]; cbn; lia. }
    rewrite length_take in *. lia. }
  unfold zlen. specialize (H (length l) l). lia.
Qed.

Lemma bitmap_len_nonneg ts : Forall (fun t => 0 <= t) ts -> 0 <= typeBitMapLen ts.
Proof.
  intros H. unfold typeBitMapLen.
  assert (forall ts l w n, Forall (fun t => 0 <= t) ts -> 0 <= l -> 0 <= n ->
    let '(l, _, n) := fold_left bitmap_len_step ts (l, w, n) in 0 <= l /\ 0 <= n) as Hg.
  { clear. induction ts as [|t ts IH]; intros l w n Hts Hl Hn; [done|]. cbn [fold_left bitmap_len_step].
    apply Forall_cons in Hts as [Ht Hts]. assert (0 <= (t - t / 256 * 256) / 8) by dlia.
    destruct ((w <? t / 256) && negb (n =? 0)); destruct (_ || _); apply IH; done || lia. }
  specialize (Hg ts 0 0 0 H ltac:(lia) ltac:(lia)).
  destruct (fold_left _ _ _) as [[l w] n]. lia.
Qed.

(** ** The contract of a field *)

(** The uncompressed length the code computes. *)
Definition field_size (rr : members) (t : ftag) (v : fval) : Z :=
  match field_len rr t v 0 None with Ok (n, _) => n | _ => 0 end.

Lemma domainNameLen_show ls off c :
  good_labels ls -> domainNameLen (show_name ls) off None c = Ok (wire_len ls + 1, None).
Proof.
  intros Hls. rewrite (domainNameLen_parse _ ls).
  - unfold wire_name. rewrite zlen_app, zlen_wire_labels. done.
  - apply parse_show_name. eapply Forall_impl; [exact (proj1 Hls)|]. intros [|]; [zlia|done].
Qed.

Lemma names_len lss off : Forall good_labels lss -> forall n0,
  foldM (fun '(n, c) x => '(k, c) ← domainNameLen x (off + n) c false; Ok (n + k, c)) (n0, None) (map show_name lss)
  = Ok (n0 + sum_with (fun ls => wire_len ls + 1) lss, None).
Proof.
  induction 1 as [|ls lss Hls Hl IH]; intros n0; cbn [map foldM sum_with]; [by rewrite Z.add_0_r|].
  rewrite domainNameLen_show by done. gosimp. rewrite IH. do 2 f_equal. lia.
Qed.

(** The contract of a field: [rr] is the struct packed, [rr'] what was read of
    it before this field. *)
Definition field_contract (rr rr' : members) (t : ftag) (v : fval) (compress : bool) : Prop :=
  (forall off, field_len rr t v off None = Ok (field_size rr t v, None)) /\ 0 <= field_size rr t v /\
  carries (is_last t) (field_size rr t v) (pack_field rr t v compress)
    (fun msg off => unpack_field rr' t (zlen msg) msg off) (field_read rr t v).

(** From the length the code computes and the contract of the packer. *)
Lemma field_contract_intro rr rr' t v compress n m :
  (forall off, field_len rr t v off None = Ok (m, None)) -> 0 <= n <= m ->
  carries (is_last t) n (pack_field rr t v compress)
    (fun msg off => unpack_field rr' t (zlen msg) msg off) (field_read rr t v) ->
  field_contract rr rr' t v compress.
Proof.
  intros Hl Hn Hc. assert (field_size rr t v = m) as Hs by (unfold field_size; by rewrite Hl).
  split; [by rewrite Hs|]. split; [lia|]. rewrite Hs. eapply carries_more; [|done]. lia.
Qed.

Lemma sum_with_nonneg {A} (f : A -> Z) l : Forall (fun x => 0 <= f x) l -> 0 <= sum_with f l.
Proof. induction 1; cbn; lia. Qed.

Lemma sum_with_map {A B} (f : B -> Z) (g : A -> B) l : sum_with f (map g l) = sum_with (fun x => f (g x)) l.
Proof. induction l as [|x l IH]; cbn; [done|by rewrite IH]. Qed.

Lemma sum_with_le {A} (f g : A -> Z) l : Forall (fun x => f x <= g x) l -> sum_with f l <= sum_with g l.
Proof. induction 1; cbn; lia. Qed.

Lemma show_name_length ls : good_labels ls -> wire_len ls <= zlen (show_name ls).
Proof.
  intros (Hls & _). assert (wire_len ls <= zlen (show_labels ls)) as H.
  { clear. induction ls as [|l ls IH]; [done|].
    change (show_labels (l :: ls)) with ((show_label l ++ [ch_dot]) ++ show_labels ls).
    assert (zlen l <= zlen (show_label l)) as Hl.
    { clear. unfold show_label. induction l as [|b l IH]; [done|]. cbn [map concat].
      rewrite zlen_app, zlen_cons. assert (1 <= zlen (escape_byte b)) by (by destruct b). lia. }
    cbn [wire_len]. rewrite !zlen_app. change (zlen [ch_dot]) with 1. lia. }
  destruct ls; [vm_compute; discriminate|exact H].
Qed.

Section Contracts.
Context (rr rr' : members) (compress : bool).

Ltac fixed_field f c :=
  eapply field_contract_intro; [done| |exact (carries_map _ _ _ _ _ f c)]; lia.

Lemma contract_int t i :
  field_ok rr t (V_int i) -> field_contract rr rr' t (V_int i) compress.
Proof.
  destruct t; intros H; try done; cbn in H.
  - fixed_field V_int (carries_uint8 i H).
  - fixed_field V_int (carries_uint16 i H).
  - fixed_field V_int (carries_uint32 i H).
  - fixed_field V_int (carries_uint64 i H).
  - fixed_field V_int (carries_uint48 i H).
Qed.

Lemma contract_name t s :
  t = F_name \/ t = F_cname -> field_ok rr t (V_str s) -> field_contract rr rr' t (V_str s) compress.
Proof.
  intros Ht H. assert (good_name s) as (ls & Hls & ->) by (by destruct Ht as [-> | ->]).
  pose proof (wire_len_nonneg ls).
  destruct Ht as [-> | ->]; (eapply (field_contract_intro _ _ _ _ _ (wire_len ls + 1));
    [intros; by apply domainNameLen_show|lia|exact (carries_map _ _ _ _ _ V_str (carries_name ls _ Hls))]).
Qed.

Lemma contract_str t s :
  field_ok rr t (V_str s) -> uses t = None -> field_contract rr rr' t (V_str s) compress.
Proof.
  destruct t; intros H Hu; try done; cbn in H.
  - destruct H as (l & Hl & ->). pose proof (show_txt_length l).
    eapply field_contract_intro; [done| |exact (carries_map _ _ _ _ _ V_str (carries_string l Hl))].
    unfold wire_txt. zlia.
  - by apply contract_name; [right|].
  - by apply contract_name; [left|].
  - assert (zlen s <> 0) as Hs by (unfold To4 in H; intros E; by rewrite E in H).
    eapply (field_contract_intro _ _ _ _ _ 4 4);
      [|lia|exact (carries_map _ _ _ _ _ V_str (carries_To4 s H))].
    intros. cbn. by rewrite (proj2 (Z.eqb_neq _ _) Hs).
  - eapply (field_contract_intro _ _ _ _ _ 16 16);
      [|lia|exact (carries_map _ _ _ _ _ V_str (carries_aaaa s H))].
    intros. cbn. by rewrite H.
  - destruct H as (Hne & Hb & Hl).
    eapply field_contract_intro; [done| |exact (carries_map _ _ _ _ _ V_str (carries_octet s Hb Hl))].
    destruct s; [done|zlia].
  - eapply field_contract_intro; [done| |exact (carries_map _ _ _ _ _ V_str (carries_any s))]. zlia.
  - destruct H as (l & ->).
    eapply field_contract_intro; [done| |exact (carries_map _ _ _ _ _ V_str
      (carries_rest _ _ _ _ l (hex_roundtrip l)))].
    rewrite hex_length. pose proof (zlen_nonneg l). dlia.
  - destruct H as (l & ->).
    eapply field_contract_intro; [done| |exact (carries_map _ _ _ _ _ V_str
      (carries_rest _ _ _ _ l (base64_roundtrip l)))].
    pose proof (base64_length l). zlia.
Qed.

Lemma contract_sized t s m :
  field_ok rr t (V_str s) -> uses t = Some m -> int_member rr' m = int_member rr m ->
  field_contract rr rr' t (V_str s) compress.
Proof.
  intros H Hu Huses.
  assert (forall up (s : bytes) r (l : bytes), r = zlen l ->
    carries false (zlen l) (pack_field rr t (V_str s) compress) (fun msg off => up msg off (off + zlen l)) s ->
    carries false (zlen l) (pack_field rr t (V_str s) compress)
      (fun msg off => '(x, off) ← up msg off (off + r); Ok (V_str x, off) : wire (fval * Z)) (V_str s)) as Hc.
  { intros up s' r l -> Hc. exact (carries_map _ _ _ _ _ V_str Hc). }
  destruct t; try done; cbn in H, Hu; injection Hu as ->.
  - destruct H as (l & -> & Hm). rewrite Hm in Huses.
    eapply field_contract_intro; [done| |].
    2: { cbn [unpack_field field_read is_last]. apply (Hc unpackStringHex _ _ l Huses).
         exact (carries_sized _ _ _ _ l (hex_roundtrip l)). }
    rewrite hex_length. pose proof (zlen_nonneg l). dlia.
  - destruct H as (l & -> & Hm). rewrite Hm in Huses.
    eapply field_contract_intro; [done| |].
    2: { cbn [unpack_field field_read is_last]. apply (Hc unpackStringBase64 _ _ l Huses).
         exact (carries_sized _ _ _ _ l (base64_roundtrip l)). }
    pose proof (base64_length l). zlia.
  - destruct H as (l & -> & Hm). rewrite Hm in Huses.
    eapply field_contract_intro; [done| |].
    2: { cbn [unpack_field field_read is_last]. apply (Hc unpackStringBase32 _ _ l Huses).
         exact (carries_sized _ _ _ _ l (base32_roundtrip l)). }
    pose proof (base32_length l). zlia.
  - destruct H as [[-> Hm]|(l & -> & Hm)]; rewrite Hm in Huses.
    + eapply (field_contract_intro _ _ _ _ _ 0); [done|by vm_compute|].
      apply carries_none; [done|done|]. intros msg off Ho. cbn. rewrite Huses, Z.add_0_r.
      unfold unpackStringHex, unpack_encoded. rewrite (proj2 (Z.ltb_ge _ _)) by lia.
      rewrite slice_Some by lia. gosimp. unfold ztake. by rewrite Z.sub_diag.
    + assert (bool_decide (hex_EncodeToString l = bs "-") = false) as Hd.
      { apply bool_decide_eq_false. intros E. pose proof (hex_length l) as E2. rewrite E in E2.
        change (zlen (bs "-")) with 1 in E2. lia. }
      eapply field_contract_intro; [done| |].
      2: { cbn [unpack_field field_read is_last]. rewrite Hd. apply (Hc unpackStringHex _ _ l Huses).
           cbn [pack_field]. rewrite Hd. exact (carries_sized _ _ _ _ l (hex_roundtrip l)). }
      rewrite hex_length. pose proof (zlen_nonneg l). dlia.
Qed.

Lemma contract_gateway m a h :
  field_ok rr (F_gateway m) (V_gateway a h) -> int_member rr' m = int_member rr m ->
  field_contract rr rr' (F_gateway m) (V_gateway a h) compress.
Proof.
  intros H Huses. cbn in H.
  unfold field_contract, field_size. cbn [field_len field_read pack_field unpack_field is_last].
  rewrite Huses. set (g := int_member rr m) in *. clearbody g. clear Huses.
  unfold packIPSECGateway, unpackIPSECGateway.
  destruct H as [(-> & Ha & ->)|[(-> & Ha & ->)|[(-> & -> & (ls & Hls & ->))|(H1 & H2 & H3 & -> & ->)]]];
    cbn [Z.eqb Pos.eqb IPSECGatewayIPv4 IPSECGatewayIPv6 IPSECGatewayHost].
  - split_and!; [done|done|]. eapply carries_ext; [done| |exact (carries_map _ _ _ _ _ (fun x => V_gateway x [])
      (carries_To4 a Ha))].
    intros msg off _. cbv beta. by destruct (unpackDataA msg off) as [[? ?]|?| |].
  - split_and!; [done|done|]. eapply carries_ext; [done| |exact (carries_map _ _ _ _ _ (fun x => V_gateway x [])
      (carries_aaaa a Ha))].
    intros msg off _. cbv beta. by destruct (unpackDataAAAA msg off) as [[? ?]|?| |].
  - pose proof (show_name_length ls Hls). pose proof (wire_len_nonneg ls). split_and!; [done|zlia|].
    eapply carries_more; [|eapply carries_ext; [done| |exact (carries_map _ _ _ _ _ (fun x => V_gateway [] x)
      (carries_name ls false Hls))]]; [lia|].
    intros msg off _. cbv beta. by destruct (UnpackDomainName msg off) as [[? ?]|?| |].
  - rewrite (proj2 (Z.eqb_neq g _) H1), (proj2 (Z.eqb_neq g _) H2), (proj2 (Z.eqb_neq g _) H3).
    split_and!; [done|done|]. by apply carries_none.
Qed.

Lemma field_contract_ok t v :
  field_ok rr t v -> (forall m, uses t = Some m -> int_member rr' m = int_member rr m) ->
  field_contract rr rr' t v compress.
Proof.
  intros H Huses. destruct v as [i|s|l|l|l|l|l|a h].
  - by apply contract_int.
  - destruct (uses t) as [m|] eqn:E; [by apply (contract_sized t s m); [..|apply Huses]|by apply contract_str].
  - destruct t; try done; cbn in H.
    + destruct H as (lss & Hl & ->).
      eapply field_contract_intro; [intros off; cbn; by rewrite names_len| |exact (carries_map _ _ _ _ _ V_strs (carries_names lss Hl))].
      assert (0 <= sum_with (fun ls => wire_len ls + 1) lss); [|lia].
      apply sum_with_nonneg, Forall_true. intros ls. pose proof (wire_len_nonneg ls). lia.
    + destruct H as (ls & Hne & Hl & ->).
      eapply field_contract_intro; [done| |exact (carries_map _ _ _ _ _ V_strs (carries_txt ls Hne Hl))].
      rewrite sum_with_map. split.
      * apply sum_with_nonneg, Forall_true. intros l. zlia.
      * apply sum_with_le, Forall_true. intros l. unfold wire_txt. pose proof (show_txt_length l). zlia.
  - destruct t; try done; cbn in H.
    eapply field_contract_intro; [done| |exact (carries_map _ _ _ _ _ V_types (carries_nsec l H))].
    assert (0 <= typeBitMapLen l); [|case_decide; lia].
    apply bitmap_len_nonneg. by apply (types_from_pos (-1)).
  - destruct t; try done; cbn in H.
    eapply field_contract_intro; [done| |exact (carries_map _ _ _ _ _ V_opts (carries_opts l H))].
    assert (0 <= sum_with opt_len l); [|lia].
    apply sum_with_nonneg, Forall_true. intros e. unfold opt_len.
    destruct (opt_pack e); [pose proof (zlen_nonneg a)|..]; lia.
  - destruct t; try done; cbn in H. destruct H as [Hnd H].
    eapply field_contract_intro; [done| |exact (carries_map _ _ _ _ _ V_pairs (carries_svcb l Hnd H))].
    rewrite (sum_with_perm _ _ _ (sort_perm Key l)).
    assert (0 <= sum_with (fun x => 4 + svcb_len x) l); [|lia].
    apply sum_with_nonneg. eapply Forall_impl; [exact H|]. intros x [Hx _].
    destruct (kv_roundtrip x Hx) as (b & ? & _ & _ & _ & ->). zlia.
  - destruct t; try done; cbn in H.
    eapply field_contract_intro; [done| |exact (carries_map _ _ _ _ _ V_apl (carries_apl l H))].
    assert (0 <= sum_with apl_len l); [|lia].
    apply sum_with_nonneg. eapply Forall_impl; [exact H|]. intros p (n & Hip & Hn & Hm).
    destruct (CIDRMask_size n _ Hip Hn) as (_ & Hsz & _). cbv beta. unfold apl_len. rewrite Hm, Hsz. dlia.
  - destruct t; try done. apply contract_gateway; [done|by apply Huses].
Qed.
End Contracts.

(** ** At the end of the message *)

Definition nonneg_members (ms : members) : Prop :=
  Forall (fun x => match x.2 with V_int i => 0 <= i | _ => True end) ms.

Lemma int_member_nonneg ms m : nonneg_members ms -> 0 <= int_member ms m.
Proof.
  unfold int_member. induction 1 as [|[n v] ms Hv Hms IH]; cbn [member]; [done|].
  case_decide; [|done]. cbn in Hv. by destruct v.
Qed.

Lemma unpack_until_end {A} (up : unpacker A) msg : unpack_until (zlen msg) up msg (zlen msg) = Ok ([], zlen msg).
Proof. unfold unpack_until. rewrite (loop_done _ _ _ ([], zlen msg)); [done|]. by rewrite Z.ltb_irrefl. Qed.

Lemma unpack_encoded_end ctx enc msg k s o :
  enc [] = [] -> 0 <= k -> unpack_encoded ctx enc msg (zlen msg) (zlen msg + k) = Ok (s, o) ->
  s = [] /\ o = zlen msg.
Proof.
  intros He Hk. unfold unpack_encoded. destruct (Z.ltb_spec (zlen msg) (zlen msg + k)); [done|].
  rewrite slice_Some by zlia. replace (zlen msg + k) with (zlen msg) by lia. gosimp.
  unfold ztake. rewrite Z.sub_diag. change (take (Z.to_nat 0) _) with (@nil byte). rewrite He. by intros [= <- <-].
Qed.

Lemma UnpackDomainName_end msg s o : UnpackDomainName msg (zlen msg) = Ok (s, o) -> False.
Proof.
  intros E. apply UnpackDomainName_iff in E as (ls & n & Hn & _); [|zlia].
  apply name_at_end in Hn. lia.
Qed.

(** A field read at the end of the message is empty, or an error. *)
Lemma unpack_field_end rr t msg v o :
  nonneg_members rr -> unpack_field rr t (zlen msg) msg (zlen msg) = Ok (v, o) ->
  v = zero t /\ o = zlen msg.
Proof.
  intros Hnn H.
  assert (forall k, 0 < k -> (zlen msg <? zlen msg + k) = true) as Hlt by (intros; apply Z.ltb_lt; lia).
  destruct t; cbn [unpack_field zero] in *;
    unfold unpackUint8, unpackUint16, unpackUint32, unpackUint64, unpackUint48, unpackString,
      unpackDataA, unpackDataAAAA in *; rewrite ?Hlt in H by lia; try discriminate H.
  - inv_bind H. destruct a as [s' o']. by apply UnpackDomainName_end in Ha.
  - inv_bind H. destruct a as [s' o']. by apply UnpackDomainName_end in Ha.
  - unfold unpackDataDomainNames in H. rewrite Z.ltb_irrefl, unpack_until_end in H. by injection H as <- <-.
  - unfold unpackStringTxt, unpackTxt in H. rewrite unpack_until_end in H. by injection H as <- <-.
  - unfold unpackStringOctet, from in H. rewrite slice_Some in H by zlia. injection H as <- <-.
    unfold ztake. by rewrite Z.sub_diag.
  - unfold unpackStringAny in H. rewrite Z.ltb_irrefl, slice_Some in H by zlia. injection H as <- <-.
    unfold ztake. by rewrite Z.sub_diag.
  - inv_bind H. destruct a as [s' o']. rewrite <- (Z.add_0_r (zlen msg)) in Ha at 2.
    apply unpack_encoded_end in Ha as [-> ->]; [by injection H as <- <-|done|done].
  - inv_bind H. destruct a as [s' o']. rewrite <- (Z.add_0_r (zlen msg)) in Ha at 2.
    apply unpack_encoded_end in Ha as [-> ->]; [by injection H as <- <-|done|done].
  - inv_bind H. destruct a as [s' o'].
    apply unpack_encoded_end in Ha as [-> ->]; [by injection H as <- <-|done|by apply int_member_nonneg].
  - inv_bind H. destruct a as [s' o'].
    apply unpack_encoded_end in Ha as [-> ->]; [by injection H as <- <-|done|by apply int_member_nonneg].
  - inv_bind H. destruct a as [s' o'].
    apply unpack_encoded_end in Ha as [-> ->]; [by injection H as <- <-|done|by apply int_member_nonneg].
  - inv_bind H. destruct a as [s' o'].
    apply unpack_encoded_end in Ha as [-> ->]; [by injection H as <- <-|done|by apply int_member_nonneg].
  - unfold unpackDataOpt in H. rewrite unpack_until_end in H. by injection H as <- <-.
  - unfold unpackDataNsec in H. rewrite (loop_done _ _ _ ([], zlen msg)) in H; [by injection H as <- <-|].
    unfold unpack_nsec_step. by rewrite Z.ltb_irrefl.
  - unfold unpackDataSVCB in H. rewrite (loop_done _ _ _ ([], zlen msg)) in H; [by injection H as <- <-|].
    by rewrite Z.ltb_irrefl.
  - unfold unpackDataApl in H. rewrite unpack_until_end in H. by injection H as <- <-.
  - unfold unpackIPSECGateway, unpackDataA, unpackDataAAAA in H. rewrite !Hlt in H by lia.
    destruct (_ =? _); [done|]. destruct (_ =? _); [done|]. destruct (_ =? _); [|by injection H as <- <-].
    inv_bind H. destruct a as [s' o']. inv_bind Ha. destruct a as [s'' o'']. by apply UnpackDomainName_end in Ha0.
Qed.

Lemma unpack_fields_end struct fs : forall rr msg vs o,
  nonneg_members rr -> unpack_fields struct rr fs (zlen msg) msg (zlen msg) = Ok (vs, o) ->
  vs = map (fun f => zero f.2) fs /\ o = zlen msg.
Proof.
  induction fs as [|[n t] fs IH]; intros rr msg vs o Hnn H; cbn [unpack_fields] in H.
  - by injection H as <- <-.
  - inv_bind H. destruct a as [v o']. apply unpack_field_end in Ha as [-> ->]; [|done].
    destruct (_ && _ && _); [by injection H as <- <-|].
    inv_bind H. destruct a as [vs' o']. apply IH in Ha as [-> ->]; [by injection H as <- <-|].
    apply Forall_app. split; [done|]. constructor; [|constructor]. by destruct t.
Qed.

(** ** Well-formed schemas *)

Definition is_int (t : ftag) : bool :=
  match t with F_uint8 | F_uint16 | F_uint32 | F_uint64 | F_uint48 => true | _ => false end.

(** [m] is an integer field of the prefix. *)
Fixpoint int_before (pre : schema) (m : String.string) : bool :=
  match pre with
  | [] => false
  | (n, t) :: pre => if decide (n = m) then is_int t else int_before pre m
  end.

(** The members a field refers to come before it; the fields that take the
    rest of the message come last. *)
Fixpoint schema_wf (pre fs : schema) : bool :=
  match fs with
  | [] => true
  | (n, t) :: fs' =>
      match uses t with Some m => int_before pre m | None => true end &&
      (bool_decide (fs' = []) || negb (is_last t)) && schema_wf (pre ++ [(n, t)]) fs'
  end.

Lemma fields_wf k : schema_wf [] (fields k) = true.
Proof. by destruct k; vm_compute. Qed.

Lemma member_app ms1 ms2 m :
  member (ms1 ++ ms2) m = match member ms1 m with Some v => Some v | None => member ms2 m end.
Proof. induction ms1 as [|[n v] ms1 IH]; cbn [member app]; [done|]. by case_decide. Qed.

Lemma member_None ms m : member ms m = None <-> (m ∉ map fst ms).
Proof.
  induction ms as [|[n v] ms IH]; cbn [member map fst]; [split; [intros _; by apply not_elem_of_nil|done]|].
  rewrite not_elem_of_cons. case_decide; [split; [done|naive_solver]|]. rewrite IH. naive_solver.
Qed.

Lemma int_before_app pre n t m : int_before (pre ++ [(n, t)]) m = true ->
  int_before pre m = true /\ m ∈ map fst pre \/ (m ∉ map fst pre) /\ n = m /\ is_int t = true.
Proof.
  induction pre as [|[n' t'] pre IH]; cbn [int_before app map fst].
  - case_decide; [|done]. intros H2. right. split; [by apply not_elem_of_nil|done].
  - case_decide as Hd; intros Hb.
    + left. split; [done|]. subst. left.
    + destruct (IH Hb) as [[H1 H2]|(H1 & H2 & H3)]; [left|right].
      * split; [done|by right].
      * split_and!; [|done|done]. by apply not_elem_of_cons.
Qed.

(** What was read of the integers agrees with the struct. *)
Definition read_agrees (rr : members) (pre : schema) (done : members) : Prop :=
  map fst done = map fst pre /\ nonneg_members done /\
  forall m, int_before pre m = true -> int_member done m = int_member rr m.

Lemma field_read_nonneg rr t v :
  field_ok rr t v -> match field_read rr t v with V_int i => 0 <= i | _ => True end.
Proof. destruct t, v; intros Hok; try done; cbn in Hok |- *; try (destruct Hok; lia); by case_match. Qed.

Lemma read_agrees_snoc rr rr1 rr2 pre done n t v :
  rr = rr1 ++ (n, v) :: rr2 -> map fst rr1 = map fst pre -> field_ok rr t v ->
  read_agrees rr pre done -> read_agrees rr (pre ++ [(n, t)]) (done ++ [(n, field_read rr t v)]).
Proof.
  intros Hrr H1 Hok (Hn & Hnn & Hi). split_and!.
  - by rewrite !map_app, Hn.
  - apply Forall_app. split; [done|]. constructor; [|constructor].
    by apply field_read_nonneg.
  - intros m [[Hb Hin]|(Hni & <- & Hint)]%int_before_app.
    + rewrite <- Hi by done. unfold int_member. rewrite member_app.
      destruct (member done m) eqn:E; [done|]. apply member_None in E. by rewrite Hn in E.
    + unfold int_member. rewrite member_app, Hrr, member_app.
      rewrite (proj2 (member_None done n)) by (by rewrite Hn).
      rewrite (proj2 (member_None rr1 n)) by (by rewrite H1).
      cbn [member]. rewrite !decide_True by done. by destruct t, v.
Qed.

(** ** Whole resource data *)

Definition reads (rr : members) (fs : schema) (vs : list fval) : list fval :=
  zip_with (fun f v => field_read rr f.2 v) fs vs.

Lemma carries_fields struct compress rr fs : forall vs rr1 pre done,
  rr = rr1 ++ members_of fs vs -> map fst rr1 = map fst pre ->
  schema_wf pre fs = true -> Forall2 (fun f v => field_ok rr f.2 v) fs vs ->
  read_agrees rr pre done ->
  exists n, (forall off, fields_len rr fs vs off None = Ok (n, None)) /\ 0 <= n /\
    carries true n (pack_fields rr fs vs compress)
      (fun msg off => unpack_fields struct done fs (zlen msg) msg off) (reads rr fs vs).
Proof.
  induction fs as [|[name t] fs IH]; intros vs rr1 pre done Hrr H1 Hwf Hok Hag.
  { inversion Hok; subst. exists 0. split_and!; [done|done|]. by apply carries_nothing. }
  apply Forall2_cons_inv_l in Hok as (v & vs' & Hv & Hok & ->). cbn [snd] in Hv.
  cbn [schema_wf] in Hwf. rewrite !andb_true_iff in Hwf. destruct Hwf as ((Hu & Hlast) & Hwf).
  pose proof Hag as (_ & Hnn & Hint).
  assert (field_contract rr done t v compress) as (Hsz & Hn1 & Hc).
  { apply field_contract_ok; [done|]. intros m E. rewrite E in Hu. by apply Hint. }
  destruct (IH vs' (rr1 ++ [(name, v)]) (pre ++ [(name, t)]) (done ++ [(name, field_read rr t v)]))
    as (n2 & Hlen & Hn2 & Hc2).
  { rewrite Hrr, <- app_assoc. done. }
  { by rewrite !map_app, H1. }
  { done. }
  { done. }
  { by eapply read_agrees_snoc. }
  exists (field_size rr t v + n2). split_and!; [|lia|].
  { intros off. cbn [fields_len]. rewrite Hsz. gosimp. by rewrite Hlen. }
  intros off cm L Hoff.
  destruct (Hc off cm L Hoff) as [[Hlt He]|(w1 & cm1 & A1 & A2 & A3 & A4 & A5)].
  { left. split; [lia|]. intros msg Hm. destruct (He msg Hm) as [e E]. exists e.
    cbn [pack_fields]. by rewrite E. }
  pose proof (zlen_nonneg w1).
  destruct (Hc2 (off + zlen w1) cm1 L) as [[Hlt He]|(w2 & cm2 & B1 & B2 & B3 & B4 & B5)]; [lia| |].
  { left. split; [lia|]. intros msg Hm. destruct (A3 msg Hm) as (m1 & E1 & L1 & _).
    destruct (He m1 L1) as [e E]. exists e. cbn [pack_fields]. by rewrite E1. }
  right. exists (w1 ++ w2), cm2. split_and!; [zlia|zlia| | |].
  { exact (puts_seq _ _ _ _ _ _ _ _ _ A3 B3). }
  { intros Hval. rewrite B4, A4; [done|done|]. by rewrite A4. }
  intros pre0 Hpre Hcm. destruct (A5 pre0 Hpre Hcm) as [C1 C2].
  destruct (B5 (pre0 ++ w1)) as [D1 D2]; [zlia|done|]. rewrite <- app_assoc in D1. split; [done|].
  assert (fs = [] -> w2 = []) as Hnil.
  { intros ->. inversion Hok; subst vs'. destruct (A3 (replicate (Z.to_nat L) x00)) as (m1 & _ & L1 & _).
    { unfold zlen. rewrite length_replicate. lia. }
    destruct (B3 m1 L1) as (m2 & E2 & _). cbn [pack_fields] in E2. injection E2 as _ E2.
    destruct w2; [done|zlia]. }
  intros suf Hs. rewrite (Hs eq_refl), app_nil_r. cbn [unpack_fields reads zip_with].
  specialize (D2 [] ltac:(done)). rewrite app_nil_r, <- app_assoc in D2.
  rewrite C2.
  2: { intros Hl. apply Hnil. rewrite Hl, orb_false_r in Hlast. by apply bool_decide_eq_true in Hlast. }
  gosimp. cbv beta iota zeta.
  destruct (checks_end t && negb (bool_decide (fs = [])) && (off + zlen w1 =? zlen (pre0 ++ w1 ++ w2))) eqn:E.
  - apply andb_true_iff in E as [_ E]. apply Z.eqb_eq in E. rewrite E in D2 at 1.
    apply unpack_fields_end in D2 as [D2 D3].
    + cbn [snd]. rewrite <- D2. do 2 f_equal. rewrite zlen_app. lia.
    + apply Forall_app. split; [done|]. constructor; [|constructor].
      by apply field_read_nonneg.
  - cbn [snd]. rewrite D2. gosimp. do 2 f_equal. rewrite zlen_app. lia.
Qed.

(** Resource data of a struct that can travel. *)
Definition rdata_ok (k : rrstruct) (vs : list fval) : Prop :=
  Forall2 (fun f v => field_ok (members_of (fields k) vs) f.2 v) (fields k) vs.

Definition rdata_read (k : rrstruct) (vs : list fval) : list fval :=
  reads (members_of (fields k) vs) (fields k) vs.

(** The uncompressed length the code computes for the resource data. *)
Definition rdata_len (k : rrstruct) (vs : list fval) : Z :=
  match fields_len (members_of (fields k) vs) (fields k) vs 0 None with Ok (n, _) => n | _ => 0 end.

Lemma carries_rdata k vs compress :
  rdata_ok k vs ->
  (forall off, fields_len (members_of (fields k) vs) (fields k) vs off None = Ok (rdata_len k vs, None)) /\
  0 <= rdata_len k vs /\
  carries true (rdata_len k vs) (pack_fields (members_of (fields k) vs) (fields k) vs compress)
    (fun msg off => unpack_fields (struct_name k) [] (fields k) (zlen msg) msg off) (rdata_read k vs).
Proof.
  intros Hok.
  destruct (carries_fields (struct_name k) compress (members_of (fields k) vs) (fields k) vs [] [] [])
    as (n & H1 & H2 & H3); [done|done|apply fields_wf|done|by split_and!; [|constructor|]|].
  assert (rdata_len k vs = n) as -> by (unfold rdata_len; by rewrite H1). done.
Qed.
