(* ===== verification/RR.v ===== *)
(** * Resource records

    dns.go [RR_Header], msg_helpers.go [packHeader], [unpackHeader] and
    [truncateMsgFromRdlength], msg.go [packRR], [PackRR], [UnpackRR],
    [UnpackRRWithHeader] and [unpackRRslice].  A record is a header, the RR
    struct it is stored in and the values of the struct's fields.  A nil [RR]
    is not modelled; the [RR] returned next to an error (a bare header or nil)
    is dropped, as [unpackRRslice] drops it. *)

From S2P Require Import Prelude Go Utf8 Labels Escape Names NameDecode NameEncode NameLen Wire Codec NameCarry Text Nsec Encodings Apl Edns Svcb RData RDataCarry.

Definition DefaultMsgSize : Z := 4096.

Record RR_Header := MkHeader {
  Name : bytes;
  Rrtype : Z;
  Class_ : Z;
  Ttl : Z;
  Rdlength : Z
}.

Record RR := MkRR {
  Hdr : RR_Header;
  struct : rrstruct;
  data : list fval
}.

#[export] Instance RR_Header_eq_dec : EqDecision RR_Header.
Proof. solve_decision. Defined.
#[export] Instance rrstruct_eq_dec : EqDecision rrstruct.
Proof. solve_decision. Defined.
#[export] Instance RR_eq_dec : EqDecision RR.
Proof. solve_decision. Defined.

(** [var hdr RR_Header]. *)
Definition zero_header : RR_Header := MkHeader [] 0 0 0 0.

(** Assignments to the fields of [*rr.Header()]. *)
Definition set_Rdlength (n : Z) (h : RR_Header) : RR_Header :=
  MkHeader (Name h) (Rrtype h) (Class_ h) (Ttl h) n.
Definition set_Ttl (t : Z) (h : RR_Header) : RR_Header :=
  MkHeader (Name h) (Rrtype h) (Class_ h) t (Rdlength h).
Definition set_Class (c : Z) (h : RR_Header) : RR_Header :=
  MkHeader (Name h) (Rrtype h) c (Ttl h) (Rdlength h).
Definition set_Name (n : bytes) (h : RR_Header) : RR_Header :=
  MkHeader n (Rrtype h) (Class_ h) (Ttl h) (Rdlength h).
Definition set_Hdr (f : RR_Header -> RR_Header) (rr : RR) : RR :=
  MkRR (f (Hdr rr)) (struct rr) (data rr).

(** [newFn()] with the header filled in. *)
Definition new_rr (h : RR_Header) (k : rrstruct) : RR :=
  MkRR h k (map (fun f => zero f.2) (fields k)).

(** ** Packing *)

Definition packHeader (hdr : RR_Header) (compress : bool) : packer := fun msg off cm =>
  if off =? zlen msg then Ok (msg, off, cm) else
  at_len msg (
    '(msg, off, cm) ← packDomainName (Name hdr) msg off cm compress;
    '(msg, off) ← packUint16 (Rrtype hdr) msg off;
    '(msg, off) ← packUint16 (Class_ hdr) msg off;
    '(msg, off) ← packUint32 (Ttl hdr) msg off;
    '(msg, off) ← packUint16 0 msg off;
    Ok (msg, off, cm)).

(** The [pack] method of the struct. *)
Definition rr_pack (rr : RR) (compress : bool) : packer :=
  pack_fields (members_of (fields (struct rr)) (data rr)) (fields (struct rr)) (data rr) compress.

(** [packRR]: the buffer, the end of the header, the end of the record. *)
Definition packRR (rr : RR) (msg : bytes) (off : Z) (cm : compressionMap) (compress : bool)
    : wire (bytes * Z * Z * compressionMap) :=
  '(msg, headerEnd, cm) ← packHeader (Hdr rr) compress msg off cm;
  '(msg, off1, cm) ← at_len msg (rr_pack rr compress msg headerEnd cm);
  let rdlength := off1 - headerEnd in
  if negb (rdlength mod 65536 =? rdlength) then fail (zlen msg) ErrRdata else
  msg ← PutUint16 msg (headerEnd - 2) (rdlength mod 65536);
  Ok (msg, headerEnd, off1, cm).

(** [_, off, err = packRR(...)]. *)
Definition rr_packer (rr : RR) (compress : bool) : packer := fun msg off cm =>
  '(msg, _, off, cm) ← packRR rr msg off cm compress; Ok (msg, off, cm).

(** [PackRR]: also stores the length in the record it was given. *)
Definition PackRR (rr : RR) (msg : bytes) (off : Z) (compression : option (gmap bytes Z)) (compress : bool)
    : wire (RR * bytes * Z * compressionMap) :=
  '(msg, headerEnd, off1, cm) ← packRR rr msg off {| ext := compression; int_ := None |} compress;
  Ok (set_Hdr (set_Rdlength ((off1 - headerEnd) mod 65536)) rr, msg, off1, cm).

(** ** Unpacking *)

Definition truncateMsgFromRdlength (msg : bytes) (off rdlength : Z) : res error bytes :=
  let lenrd := off + rdlength in
  if zlen msg <? lenrd then Err (MkError "overflowing header size")
  else index (slice msg 0 lenrd).

(** [unpackHeader]: the header, the offset after it, the message cut after
    the resource data. *)
Definition unpackHeader (msg : bytes) (off : Z) : wire (RR_Header * Z * bytes) :=
  if off =? zlen msg then Ok (zero_header, off, msg) else
  at_len msg (
    '(name, off) ← UnpackDomainName msg off;
    '(rrtype, off) ← unpackUint16 msg off;
    '(class, off) ← unpackUint16 msg off;
    '(ttl, off) ← unpackUint32 msg off;
    '(rdlength, off) ← unpackUint16 msg off;
    msg ← on_err (fun e => (off, e)) (truncateMsgFromRdlength msg off rdlength);
    Ok (MkHeader name rrtype class ttl rdlength, off, msg)).

Definition noRdata (h : RR_Header) : bool := Rdlength h =? 0.

(** The [unpack] method of the struct. *)
Definition rr_unpack (k : rrstruct) (end_ : Z) : unpacker (list fval) :=
  unpack_fields (struct_name k) [] (fields k) end_.

Definition UnpackRRWithHeader (h : RR_Header) (msg : bytes) (off : Z) : wire (RR * Z) :=
  let k := default RR_RFC3597 (TypeToRR (Rrtype h)) in
  if (off <? 0) || (zlen msg <? off) then fail off (MkError "bad off") else
  let end_ := off + Rdlength h in
  if (end_ <? off) || (zlen msg <? end_) then fail end_ (MkError "bad rdlength") else
  if noRdata h then Ok (new_rr h k, off) else
  '(data, off) ← on_err (fun e => (end_, e.2)) (rr_unpack k end_ msg off);
  if negb (off =? end_) then fail end_ (MkError "bad rdlength") else
  Ok (MkRR h k data, off).

Definition UnpackRR (msg : bytes) (off : Z) : wire (RR * Z) :=
  '(h, off, msg) ← unpackHeader msg off;
  UnpackRRWithHeader h msg off.

(** A call whose error is looked at, not returned. *)
Definition attempt {E F A} (r : res E A) : res F (A + E) :=
  match r with
  | Ok a => Ok (inl a)
  | Err e => Ok (inr e)
  | Panic => Panic
  | Diverge => Diverge
  end.

(** [unpackRRslice]: the records, the offset and the error, if any; with an
    error the records are nil. *)
Fixpoint unpackRRslice {F} (l : nat) (msg : bytes) (off : Z) (dst : list RR)
    : res F (list RR * Z * option error) :=
  match l with
  | O => Ok (dst, off, None)
  | S l =>
      r ← attempt (UnpackRR msg off);
      match r with
      | inr (_, e) => Ok ([], zlen msg, Some e)
      | inl (r, off') =>
          if off =? off' then Ok (dst, off', None)
          else unpackRRslice l msg off' (dst ++ [r])
      end
  end.

(** ** Length *)

(** The [len] method of the struct: the header's and the fields'. *)
Definition hdr_len (h : RR_Header) (off : Z) (c : option (gset bytes)) : res error (Z * option (gset bytes)) :=
  '(l, c) ← domainNameLen (Name h) off c true; Ok (l + 10, c).

Definition rr_len (rr : RR) (off : Z) (c : option (gset bytes)) : res error (Z * option (gset bytes)) :=
  '(l, c) ← hdr_len (Hdr rr) off c;
  '(n, c) ← fields_len (members_of (fields (struct rr)) (data rr)) (fields (struct rr)) (data rr) (off + l) c;
  Ok (l + n, c).
