(* ===== verification/RRCarry.v ===== *)
(** * Resource records on the wire

    The contract of whole records, [delivers]: with room for the uncompressed
    length and one octet more, packing succeeds, takes at most that length, and
    the record is read back from any message that keeps the bytes. *)

From S2P Require Import Prelude Go Utf8 Labels Escape Names NameDecode NameEncode NameLen Wire Codec NameCarry Text Nsec Encodings Apl Edns Svcb RData RDataCarry RR.

(** [delivers n pk up P]: [carries] for a packer that must not be called at
    the very end of the buffer, and whose reader gives a value satisfying [P]. *)
Definition delivers {A} (n : Z) (pk : packer) (up : unpacker A) (P : A -> Prop) : Prop :=
  forall off cm L, 0 <= off -> off + n < L ->
    exists w cm', zlen w <= n /\ puts pk off cm L w cm' /\ (valid cm = false -> cm' = cm) /\
      forall pre, zlen pre = off -> cm_ok pre cm ->
        0 < zlen w /\ cm_ok (pre ++ w) cm' /\
        forall suf, exists v, up (pre ++ w ++ suf) off = Ok (v, off + zlen w) /\ P v.

Lemma fixed_puts pk w off cm L :
  fixed pk w -> 0 <= off -> off + zlen w <= L -> puts (plain pk) off cm L w cm.
Proof.
  intros Hf H0 Hle. apply puts_writes; [done|done|]. intros msg Hm.
  destruct (Hf msg off H0) as [[Hlt _]|(m & E & W)]; [lia|]. exists m. unfold plain. by rewrite E.
Qed.

Lemma puts_ext pk pk' off cm L w cm' :
  (forall msg, zlen msg = L -> pk' msg off cm = pk msg off cm) ->
  puts pk off cm L w cm' -> puts pk' off cm L w cm'.
Proof. intros He H msg Hm. rewrite (He msg Hm). by apply H. Qed.

(** A name and then fixed bytes: the shape of a question and of a header. *)
Lemma name_then ls compress pk w2 off cm L :
  good_labels ls -> fixed pk w2 -> 0 <= off -> off + (wire_len ls + 1) + zlen w2 <= L ->
  exists w1 cm', zlen w1 <= wire_len ls + 1 /\ off + zlen w1 <= L /\
    puts (fun msg off cm =>
      '(msg, off, cm) ← packDomainName (show_name ls) msg off cm compress;
      plain pk msg off cm) off cm L (w1 ++ w2) cm' /\
    (valid cm = false -> cm' = cm) /\
    forall pre, zlen pre = off -> cm_ok pre cm ->
      0 < zlen w1 /\ cm_ok (pre ++ w1) cm' /\
      forall suf, UnpackDomainName (pre ++ w1 ++ suf) off = Ok (show_name ls, off + zlen w1).
Proof.
  intros Hls Hpk H0 Hroom. pose proof (zlen_nonneg w2) as Hw2. pose proof (wire_len_nonneg ls) as Hwl.
  destruct (carries_name ls compress Hls off cm L) as [[Hlt _]|(w1 & cm' & H1 & H2 & H3 & H4 & H5)];
    [lia|lia|].
  exists w1, cm'. split_and!; [done|done| |done|].
  - eapply (puts_seq _ (plain pk)); [exact H3|]. apply fixed_puts; [done|zlia|zlia].
  - intros pre Hpre Hok. destruct (H5 pre Hpre Hok) as [H6 H7].
    pose proof (H7 [] ltac:(done)) as H8. apply UnpackDomainName_progress in H8; [|lia].
    split_and!; [lia|done|]. intros suf. by apply H7.
Qed.

(** ** Questions and headers *)

(** The fixed part of a record's header. *)
Definition header_tail (h : RR_Header) (rdlength : Z) : bytes :=
  be 2 (Rrtype h) ++ be 2 (Class_ h) ++ be 4 (Ttl h) ++ be 2 rdlength.

Lemma header_tail_length h n : zlen (header_tail h n) = 10.
Proof. unfold header_tail. by rewrite !zlen_app, !be_length. Qed.

Lemma fixed_header_tail h : fixed (fun msg off =>
    '(msg, off) ← packUint16 (Rrtype h) msg off;
    '(msg, off) ← packUint16 (Class_ h) msg off;
    '(msg, off) ← packUint32 (Ttl h) msg off;
    packUint16 0 msg off) (header_tail h 0).
Proof.
  repeat first [apply fixed_uint16 | apply fixed_uint32 |
    apply (fixed_seq _ (fun msg off => _)); [apply fixed_uint16 || apply fixed_uint32|]].
Qed.

Lemma puts_at_len pk off cm L w cm' :
  puts pk off cm L w cm' -> puts (fun msg off cm => at_len msg (pk msg off cm)) off cm L w cm'.
Proof. intros H msg Hm. destruct (H msg Hm) as (m & -> & T). by exists m. Qed.

(** A header is a name and ten fixed octets, except at the end of the buffer. *)
Lemma packHeader_eq h compress msg off cm : off <> zlen msg ->
  packHeader h compress msg off cm = at_len msg (
    '(msg, off, cm) ← packDomainName (Name h) msg off cm compress;
    plain (fun msg off =>
      '(msg, off) ← packUint16 (Rrtype h) msg off;
      '(msg, off) ← packUint16 (Class_ h) msg off;
      '(msg, off) ← packUint32 (Ttl h) msg off;
      packUint16 0 msg off) msg off cm).
Proof.
  intros Hne. unfold packHeader. rewrite (proj2 (Z.eqb_neq _ _)) by done. f_equal.
  destruct (packDomainName _ _ _ _ _) as [[[m1 o1] c1]|?| |]; gosimp; [|done..].
  unfold plain.
  destruct (packUint16 (Rrtype h) _ _) as [[m2 o2]|?| |]; gosimp; [|done..].
  destruct (packUint16 (Class_ h) _ _) as [[m3 o3]|?| |]; gosimp; [|done..].
  by destruct (packUint32 (Ttl h) _ _) as [[m4 o4]|?| |]; gosimp.
Qed.

Lemma packHeader_puts h ls compress off cm L :
  good_labels ls -> Name h = show_name ls -> 0 <= off -> off + (wire_len ls + 11) <= L ->
  exists w1 cm', zlen w1 <= wire_len ls + 1 /\
    puts (packHeader h compress) off cm L (w1 ++ header_tail h 0) cm' /\
    (valid cm = false -> cm' = cm) /\
    forall pre, zlen pre = off -> cm_ok pre cm ->
      0 < zlen w1 /\ cm_ok (pre ++ w1) cm' /\
      forall suf, UnpackDomainName (pre ++ w1 ++ suf) off = Ok (show_name ls, off + zlen w1).
Proof.
  intros Hls Hname H0 Hroom. pose proof (wire_len_nonneg ls).
  destruct (name_then ls compress _ _ off cm L Hls (fixed_header_tail h) H0)
    as (w1 & cm' & H1 & H2 & H3 & H4); [rewrite header_tail_length; lia|].
  exists w1, cm'. split; [done|]. split; [|done].
  eapply puts_ext; [|apply puts_at_len, H3]. intros msg Hm. rewrite packHeader_eq by lia. by rewrite Hname.
Qed.

Lemma unpackUint32_mid pre v suf : u32 v ->
  unpackUint32 (pre ++ be 4 v ++ suf) (zlen pre) = Ok (v, zlen pre + 4).
Proof.
  intros Hv. unfold unpackUint32. rewrite (room_mid pre (be 4 v) suf 4) by done.
  rewrite (slice_mid pre (be 4 v)) by done. gosimp. by rewrite (unbe_be 4).
Qed.

(** The same, with the next offset ready for the next field. *)
Lemma next16 pre v suf : u16 v ->
  unpackUint16 (pre ++ be 2 v ++ suf) (zlen pre) = Ok (v, zlen (pre ++ be 2 v)).
Proof. intros. rewrite unpackUint16_mid by done. by rewrite zlen_app, be_length. Qed.
Lemma next32 pre v suf : u32 v ->
  unpackUint32 (pre ++ be 4 v ++ suf) (zlen pre) = Ok (v, zlen (pre ++ be 4 v)).
Proof. intros. rewrite unpackUint32_mid by done. by rewrite zlen_app, be_length. Qed.

Definition header_ok (h : RR_Header) : Prop :=
  good_name (Name h) /\ u16 (Rrtype h) /\ u16 (Class_ h) /\ u32 (Ttl h).

(** Reading the header back, with the data it announces and what follows. *)
Lemma unpackHeader_ok h ls pre w1 rd suf :
  header_ok h -> Name h = show_name ls -> zlen rd < 65536 -> 0 < zlen w1 ->
  (forall suf, UnpackDomainName (pre ++ w1 ++ suf) (zlen pre) = Ok (show_name ls, zlen pre + zlen w1)) ->
  let hdr := w1 ++ header_tail h (zlen rd) in
  unpackHeader (pre ++ hdr ++ rd ++ suf) (zlen pre) =
  Ok (set_Rdlength (zlen rd) h, zlen pre + zlen hdr, pre ++ hdr ++ rd).
Proof.
  intros (_ & Hty & Hcl & Httl) Hname Hrd Hw1 Hun hdr. unfold unpackHeader.
  assert (zlen hdr = zlen w1 + 10) as Hh by (unfold hdr; by rewrite zlen_app, header_tail_length).
  pose proof (zlen_nonneg rd) as Hrd0. pose proof (zlen_nonneg suf).
  rewrite (proj2 (Z.eqb_neq _ _)) by zlia.
  set (msg := pre ++ hdr ++ rd ++ suf).
  assert (msg = pre ++ w1 ++ header_tail h (zlen rd) ++ rd ++ suf) as -> by (unfold msg, hdr; by rewrite <- !app_assoc).
  rewrite Hun. gosimp. unfold header_tail. rewrite <- !app_assoc.
  rewrite (app_assoc pre), <- zlen_app, next16 by done. gosimp.
  rewrite (app_assoc _ (be 2 (Rrtype h))), next16 by done. gosimp.
  rewrite (app_assoc _ (be 2 (Class_ h))), next32 by done. gosimp.
  rewrite (app_assoc _ (be 4 (Ttl h))), next16 by (unfold u16; lia). gosimp.
  rewrite (app_assoc _ (be 2 (zlen rd))).
  set (front := _ ++ be 2 (zlen rd)).
  assert (front = pre ++ hdr) as -> by (unfold front, hdr, header_tail; by rewrite <- !app_assoc).
  unfold truncateMsgFromRdlength. rewrite (proj2 (Z.ltb_ge _ _)) by zlia.
  rewrite (app_assoc (pre ++ hdr)).
  assert (slice (((pre ++ hdr) ++ rd) ++ suf) 0 (zlen (pre ++ hdr) + zlen rd) = Some ((pre ++ hdr) ++ rd)) as ->
    by (apply (slice_mid [] ((pre ++ hdr) ++ rd) suf); [done|by rewrite !zlen_app]).
  gosimp. unfold at_len, set_Rdlength. cbn [on_err]. by rewrite Hname, zlen_app, <- app_assoc.
Qed.

(** ** Whole records *)

(** The struct a record of this type is read into. *)
Definition struct_read (rr : RR) : rrstruct := default RR_RFC3597 (TypeToRR (Rrtype (Hdr rr))).

(** A record that can travel: its struct is the one [TypeToRR] gives its type,
    or one without fields (an [ANY] with another type stands for a record
    without data in a dynamic update). *)
Definition rr_ok (rr : RR) : Prop :=
  header_ok (Hdr rr) /\ (fields (struct rr) = [] \/ struct_read rr = struct rr) /\
  rdata_ok (struct rr) (data rr) /\ rdata_len (struct rr) (data rr) < 65536.

(** The values the other side reads: those the wire can tell apart. *)
Definition data_read (rr : RR) : list fval :=
  if decide (fields (struct rr) = []) then map (fun f => zero f.2) (fields (struct_read rr))
  else rdata_read (struct rr) (data rr).

Definition rr_read (rr rr' : RR) : Prop :=
  exists n, u16 n /\ rr' = MkRR (set_Rdlength n (Hdr rr)) (struct_read rr) (data_read rr).

(** The length [rr_len] computes without compression, for good records. *)
Definition rr_size (rr : RR) : Z :=
  match rr_len rr 0 None with Ok (n, _) => n | _ => 0 end.

Lemma rr_len_ok rr ls off : rr_ok rr -> Name (Hdr rr) = show_name ls -> good_labels ls ->
  rr_len rr off None = Ok (wire_len ls + 11 + rdata_len (struct rr) (data rr), None).
Proof.
  intros (_ & _ & Hd & _) Hname Hls. unfold rr_len, hdr_len.
  rewrite Hname, domainNameLen_show by done. gosimp.
  destruct (carries_rdata (struct rr) (data rr) false Hd) as (Hlen & _ & _). rewrite Hlen. gosimp.
  do 2 f_equal. lia.
Qed.

(** Storing the length over the last two octets of the header. *)
Lemma patch_length (m pre w1 rd : bytes) h n :
  u16 n -> ztake (zlen pre + (zlen w1 + 10) + zlen rd) m = pre ++ (w1 ++ header_tail h 0) ++ rd ->
  zlen pre + (zlen w1 + 10) + zlen rd <= zlen m ->
  exists m', @PutUint16 (Z * error) m (zlen pre + (zlen w1 + 10) - 2) n = Ok m' /\ zlen m' = zlen m /\
    ztake (zlen pre + (zlen w1 + 10) + zlen rd) m' = pre ++ (w1 ++ header_tail h n) ++ rd.
Proof.
  intros Hn Ht Hle.
  set (k := zlen pre + (zlen w1 + 10) + zlen rd) in *.
  set (front := pre ++ w1 ++ be 2 (Rrtype h) ++ be 2 (Class_ h) ++ be 4 (Ttl h)).
  assert (forall v, pre ++ (w1 ++ header_tail h v) ++ rd = front ++ be 2 v ++ rd) as Hfront
    by (intros v; unfold front, header_tail; by rewrite <- !app_assoc).
  assert (zlen front = zlen pre + (zlen w1 + 10) - 2) as Hlf
    by (unfold front; rewrite !zlen_app, !be_length; lia).
  assert (m = front ++ be 2 0 ++ rd ++ zdrop k m) as Hm.
  { rewrite <- (take_drop (Z.to_nat k) m) at 1. fold (ztake k m) (zdrop k m).
    by rewrite Ht, Hfront, <- !app_assoc. }
  pose proof (zlen_nonneg rd). pose proof (zlen_nonneg front).
  assert (be 2 n = [byte_of (n / 256); byte_of n]) as Hb by (cbn [be]; by rewrite Z.div_1_r).
  exists (front ++ be 2 n ++ rd ++ zdrop k m). unfold PutUint16.
  rewrite <- Hlf, Hm at 1. rewrite slice_mid by (rewrite ?be_length; done || lia). gosimp.
  rewrite Hm at 1. rewrite blit_eq by done. rewrite <- Hb.
  split; [done|]. split.
  - rewrite Hm at 2. rewrite !zlen_app, !be_length. lia.
  - rewrite Hfront, (app_assoc (be 2 n)), (app_assoc front). apply ztake_app_eq.
    rewrite !zlen_app, be_length. unfold k. lia.
Qed.

(** Reading the data of a header that announces it. *)
Lemma UnpackRRWithHeader_ok h k vs front rd :
  default RR_RFC3597 (TypeToRR (Rrtype h)) = k -> Rdlength h = zlen rd ->
  unpack_fields (struct_name k) [] (fields k) (zlen (front ++ rd)) (front ++ rd) (zlen front) =
    Ok (vs, zlen front + zlen rd) ->
  UnpackRRWithHeader h (front ++ rd) (zlen front) = Ok (MkRR h k vs, zlen front + zlen rd).
Proof.
  intros Hk Hlen Hun. unfold UnpackRRWithHeader. rewrite Hk, Hlen.
  pose proof (zlen_nonneg rd). pose proof (zlen_nonneg front).
  rewrite zlen_app. decide_ifs. unfold noRdata. rewrite Hlen.
  destruct (Z.eqb_spec (zlen rd) 0) as [Hz|].
  - destruct rd as [|]; [|zlia]. change (zlen []) with 0 in *. rewrite !Z.add_0_r, app_nil_r in *.
    apply unpack_fields_end in Hun as [-> _]; [done|constructor].
  - unfold rr_unpack. rewrite <- zlen_app, Hun. gosimp. by rewrite zlen_app, Z.eqb_refl.
Qed.

(** What the reader of the data gives, for both kinds of records. *)
Lemma UnpackRRWithHeader_read rr front rd :
  (fields (struct rr) = [] \/ struct_read rr = struct rr) -> (fields (struct rr) = [] -> rd = []) ->
  unpack_fields (struct_name (struct rr)) [] (fields (struct rr)) (zlen (front ++ rd)) (front ++ rd) (zlen front) =
    Ok (rdata_read (struct rr) (data rr), zlen front + zlen rd) ->
  UnpackRRWithHeader (set_Rdlength (zlen rd) (Hdr rr)) (front ++ rd) (zlen front) =
    Ok (MkRR (set_Rdlength (zlen rd) (Hdr rr)) (struct_read rr) (data_read rr), zlen front + zlen rd).
Proof.
  intros Hk Hempty Hun. unfold data_read. case_decide as Hf.
  - rewrite (Hempty Hf), app_nil_r. change (zlen []) with 0. rewrite Z.add_0_r. unfold UnpackRRWithHeader.
    cbn [Rdlength set_Rdlength Rrtype]. pose proof (zlen_nonneg front). decide_ifs. done.
  - destruct Hk as [Hk|Hk]; [done|]. rewrite Hk.
    apply (UnpackRRWithHeader_ok (set_Rdlength (zlen rd) (Hdr rr)) (struct rr)); done.
Qed.

(** [packRR] from its parts: the header with length zero, the data, then the
    length patched in. *)
Lemma packRR_puts rr compress off cm L w1 cm1 rd cm2 :
  0 <= off <= L -> 0 <= off + zlen (w1 ++ header_tail (Hdr rr) 0) + zlen rd <= L -> zlen rd < 65536 ->
  puts (packHeader (Hdr rr) compress) off cm L (w1 ++ header_tail (Hdr rr) 0) cm1 ->
  puts (rr_pack rr compress) (off + zlen (w1 ++ header_tail (Hdr rr) 0)) cm1 L rd cm2 ->
  puts (rr_packer rr compress) off cm L ((w1 ++ header_tail (Hdr rr) (zlen rd)) ++ rd) cm2.
Proof.
  intros H0 Hroom Hrd Hp1 Hp2 msg Hm. set (whdr := w1 ++ header_tail (Hdr rr) 0) in *.
  assert (zlen whdr = zlen w1 + 10) as Hwh by (unfold whdr; by rewrite zlen_app, header_tail_length).
  set (w := (w1 ++ header_tail (Hdr rr) (zlen rd)) ++ rd).
  assert (zlen w = zlen whdr + zlen rd) as Hw by (unfold w; rewrite !zlen_app, header_tail_length; lia).
  pose proof (zlen_nonneg rd). pose proof (zlen_nonneg w1).
  destruct (Hp1 msg Hm) as (m1 & E1 & L1 & T1).
  destruct (Hp2 m1 L1) as (m2 & E2 & L2 & T2). rewrite T1, <- app_assoc in T2.
  assert (zlen (ztake off msg) = off) as Hpre by (apply zlen_ztake; lia).
  destruct (patch_length m2 (ztake off msg) w1 rd (Hdr rr) (zlen rd)) as (m3 & E3 & L3 & T3).
  { unfold u16; lia. } { rewrite Hpre, <- Hwh. exact T2. } { lia. }
  rewrite Hpre, <- Hwh in E3, T3. exists m3. unfold rr_packer, packRR.
  rewrite E1. gosimp. rewrite E2. unfold at_len. gosimp.
  replace (off + zlen whdr + zlen rd - (off + zlen whdr)) with (zlen rd) by lia.
  rewrite Z.mod_small, Z.eqb_refl by lia. cbn [negb]. rewrite E3. gosimp.
  rewrite Hw, Z.add_assoc. split_and!; [done|lia|]. by rewrite T3.
Qed.

Lemma delivers_rr rr compress :
  rr_ok rr -> delivers (rr_size rr) (rr_packer rr compress) UnpackRR (rr_read rr).
Proof.
  intros Hok off cm L H0 Hroom. pose proof Hok as (Hh & Hk & Hd & Hmax).
  pose proof Hh as ((ls & Hls & Hname) & _).
  unfold rr_size in *. rewrite (rr_len_ok rr ls) in * by done.
  destruct (carries_rdata (struct rr) (data rr) compress Hd) as (_ & Hd0 & Hcar).
  destruct (packHeader_puts (Hdr rr) ls compress off cm L) as (w1 & cm1 & Hw1 & Hp1 & Hv1 & Hr1); [done..|lia|].
  set (whdr := w1 ++ header_tail (Hdr rr) 0) in *.
  assert (zlen whdr = zlen w1 + 10) as Hwh by (unfold whdr; by rewrite zlen_app, header_tail_length).
  pose proof (zlen_nonneg w1).
  destruct (Hcar (off + zlen whdr) cm1 L) as [[Hlt _]|(rd & cm2 & Hrd & Hfit & Hp2 & Hv2 & Hr2)]; [lia|lia|].
  pose proof (zlen_nonneg rd).
  assert (fields (struct rr) = [] -> rd = []) as Hempty.
  { intros Hf. unfold rdata_len in Hrd. unfold rdata_ok in Hd. rewrite Hf in Hrd, Hd.
    apply Forall2_nil_inv_l in Hd. rewrite Hd in Hrd. cbn in Hrd. destruct rd; [done|]. zlia. }
  set (w := (w1 ++ header_tail (Hdr rr) (zlen rd)) ++ rd).
  assert (zlen w = zlen whdr + zlen rd) as Hw by (unfold w; rewrite !zlen_app, header_tail_length; lia).
  exists w, cm2. split_and!; [lia| |intros Hv; rewrite Hv2, Hv1; [done|done|by rewrite Hv1]|].
  - unfold w. eapply packRR_puts; [lia|fold whdr; lia|lia|exact Hp1|exact Hp2].
  - intros pre Hpre Hcm. subst off. destruct (Hr1 pre eq_refl Hcm) as (Hpos & Hok1 & Hun1).
    pose proof (zlen_nonneg pre).
    set (hdr := w1 ++ header_tail (Hdr rr) (zlen rd)) in *.
    assert (zlen hdr = zlen whdr) as Hhl by (unfold hdr; rewrite zlen_app, header_tail_length; lia).
    destruct (Hr2 (pre ++ hdr)) as [Hok2 Hun2].
    { rewrite zlen_app. lia. } { unfold hdr. rewrite app_assoc. by apply cm_ok_app. }
    split; [lia|]. split; [unfold w; by rewrite app_assoc|].
    intros suf. eexists. unfold w. rewrite <- (app_assoc hdr). unfold UnpackRR, hdr.
    rewrite (unpackHeader_ok (Hdr rr) ls pre w1 rd suf) by (done || lia). gosimp. fold hdr.
    specialize (Hun2 [] ltac:(done)). rewrite app_nil_r in Hun2. split.
    + rewrite <- Hhl, <- zlen_app in Hun2. rewrite (app_assoc pre), <- (zlen_app pre hdr).
      rewrite (UnpackRRWithHeader_read rr (pre ++ hdr) rd Hk Hempty Hun2).
      by rewrite !zlen_app, Z.add_assoc.
    + exists (zlen rd). split; [unfold u16; lia|done].
Qed.

(** ** Lists read by count *)

Section Counted.
Context {F A B : Type} (pk : A -> packer) (up : unpacker B) (P : A -> B -> Prop) (n : A -> Z).
Context (rd : nat -> bytes -> Z -> list B -> res F (list B * Z * option error)).
Context (rd_done : forall msg off dst, rd 0 msg off dst = Ok (dst, off, None)).
Context (rd_next : forall k msg off dst x off', up msg off = Ok (x, off') -> off <> off' ->
  rd (S k) msg off dst = rd k msg off' (dst ++ [x])).

Lemma delivers_each l :
  Forall (fun x => delivers (n x) (pk x) up (P x)) l -> Forall (fun x => 0 <= n x) l ->
  forall off cm L, 0 <= off -> off + sum_with n l < L ->
    exists w cm', zlen w <= sum_with n l /\ puts (pack_each pk l) off cm L w cm' /\
      (valid cm = false -> cm' = cm) /\
      forall pre, zlen pre = off -> cm_ok pre cm ->
        cm_ok (pre ++ w) cm' /\ (l <> [] -> 0 < zlen w) /\
        forall suf dst, exists l', Forall2 P l l' /\
          rd (length l) (pre ++ w ++ suf) off dst = Ok (dst ++ l', off + zlen w, None).
Proof.
  induction 1 as [|x l Hx Hl IH]; intros Hn off cm L H0 Hroom.
  - exists [], cm. split_and!; [done| |done|].
    + intros msg Hm. exists msg. change (zlen (@nil byte)) with 0. by rewrite app_nil_r, Z.add_0_r.
    + intros pre Hpre Hok. rewrite app_nil_r. split_and!; [done|done|]. intros suf dst. exists [].
      split; [constructor|]. cbn [length]. change (zlen (@nil byte)) with 0.
      by rewrite rd_done, app_nil_r, Z.add_0_r.
  - apply Forall_cons in Hn as [Hnx Hn]. cbn [sum_with] in *.
    assert (0 <= sum_with n l) as Hsum by (clear -Hn; induction Hn; simpl; lia).
    destruct (Hx off cm L H0) as (w & cm1 & H1 & H2 & H3 & H4); [lia|].
    pose proof (zlen_nonneg w).
    destruct (IH Hn (off + zlen w) cm1 L) as (w' & cm2 & I1 & I2 & I3 & I4); [lia|lia|].
    exists (w ++ w'), cm2. split_and!; [zlia| | |].
    + eapply puts_ext; [|exact (puts_seq _ _ _ _ _ _ _ _ _ H2 I2)]. intros msg _.
      unfold pack_each. cbn [foldM]. by destruct (pk x msg off cm) as [[[? ?] ?]|?| |].
    + intros Hv. rewrite I3, H3; [done|done|]. by rewrite H3.
    + intros pre Hpre Hok. destruct (H4 pre Hpre Hok) as (Hpos & Hok1 & Hread).
      destruct (I4 (pre ++ w)) as (Hok2 & _ & Hreads); [zlia|done|].
      rewrite <- app_assoc in Hok2. split_and!; [done|intros _; zlia|]. intros suf dst.
      destruct (Hread (w' ++ suf)) as (v & Ev & Pv).
      destruct (Hreads suf (dst ++ [v])) as (l' & Fl & El). exists (v :: l').
      split; [by constructor|]. rewrite <- app_assoc in *. cbn [length].
      rewrite (rd_next _ _ _ _ v (off + zlen w)) by (done || lia).
      rewrite El, <- app_assoc, zlen_app, Z.add_assoc. done.
Qed.
End Counted.

Lemma rr_size_nonneg rr : rr_ok rr -> 0 <= rr_size rr.
Proof.
  intros Hok. pose proof Hok as (((ls & Hls & Hname) & _) & _ & Hd & _).
  unfold rr_size. rewrite (rr_len_ok rr ls) by done. pose proof (wire_len_nonneg ls).
  destruct (carries_rdata (struct rr) (data rr) false Hd) as (_ & ? & _). lia.
Qed.

Lemma delivers_rrs {F} compress l : Forall rr_ok l ->
  forall off cm L, 0 <= off -> off + sum_with rr_size l < L ->
    exists w cm', zlen w <= sum_with rr_size l /\
      puts (pack_each (fun rr => rr_packer rr compress) l) off cm L w cm' /\
      (valid cm = false -> cm' = cm) /\
      forall pre, zlen pre = off -> cm_ok pre cm ->
        cm_ok (pre ++ w) cm' /\ (l <> [] -> 0 < zlen w) /\
        forall suf dst, exists l', Forall2 rr_read l l' /\
          @unpackRRslice F (length l) (pre ++ w ++ suf) off dst = Ok (dst ++ l', off + zlen w, None).
Proof.
  intros Hl. apply delivers_each with (up := UnpackRR); [done| | |].
  - intros k msg off dst x off' E Hne. cbn [unpackRRslice]. rewrite E. cbn [attempt].
    gosimp. by rewrite (proj2 (Z.eqb_neq _ _) Hne).
  - eapply Forall_impl; [exact Hl|]. intros rr. apply delivers_rr.
  - eapply Forall_impl; [exact Hl|]. intros rr. apply rr_size_nonneg.
Qed.

(** ** Theorems *)

Lemma blit_slice {A} (m : list A) off w : 0 <= off -> off + zlen w <= zlen m ->
  slice (blit m off w) off (off + zlen w) = Some w.
Proof.
  intros H0 Hl. pose proof (zlen_nonneg w).
  destruct (split_window m off (zlen w)) as (a & b & c & -> & Ha & Hb); [lia..|].
  rewrite blit_eq by done. apply slice_mid; lia.
Qed.

(** C38: whatever record and buffer [packRR] is given, when it succeeds the
    resource data takes fewer than 65536 octets and the last two octets of the
    header it left in the buffer are that length. *)
Theorem packRR_length rr msg off cm compress msg' headerEnd off1 cm' :
  packRR rr msg off cm compress = Ok (msg', headerEnd, off1, cm') ->
  u16 (off1 - headerEnd) /\ slice msg' (headerEnd - 2) headerEnd = Some (be 2 (off1 - headerEnd)).
Proof.
  unfold packRR. intros H. inv_bind H. destruct a as [[m1 he] c1]. inv_bind H. destruct a as [[m2 o1] c2].
  case_match eqn:Hlen; [done|]. inv_bind H. injection H as <- <- <- <-.
  apply negb_false_iff, Z.eqb_eq in Hlen. rewrite Hlen in Ha1.
  pose proof (Z.mod_pos_bound (o1 - he) 65536 ltac:(lia)). split; [unfold u16; lia|].
  unfold PutUint16 in Ha1. inv_bind Ha1. injection Ha1 as <-. apply slice_inv in Ha2 as (H1 & H2 & _ & _).
  assert (be 2 (o1 - he) = [byte_of ((o1 - he) / 256); byte_of (o1 - he)]) as -> by (cbn [be]; by rewrite Z.div_1_r).
  set (w := [_; _]). pose proof (blit_slice m2 (he - 2) w ltac:(lia)) as Hs. change (zlen w) with 2 in Hs.
  replace (he - 2 + 2) with he in * by lia. apply Hs. lia.
Qed.

Lemma packRR_length_witness : exists msg',
  packRR (MkRR (MkHeader (bs ".") 1 1 7 0) RR_A [V_str (map byte_of [192; 0; 2; 1])]) (replicate 20 x00) 0 nil_map false
    = Ok (msg', 11, 15, nil_map) /\ slice msg' 9 11 = Some [x00; x04].
Proof.
  eexists. assert (packRR (MkRR (MkHeader (bs ".") 1 1 7 0) RR_A [V_str (map byte_of [192; 0; 2; 1])]) (replicate 20 x00) 0 nil_map false
    = Ok (map byte_of [0; 0;1; 0;1; 0;0;0;7; 0;4; 192;0;2;1; 0;0;0;0;0], 11, 15, nil_map)) as E by (vm_compute; reflexivity).
  split; [exact E|]. exact (proj2 (packRR_length _ _ _ _ _ _ _ _ _ E)).
Defined.

(** At the very end of the buffer [packHeader] writes nothing and reports no
    error, so [packRR] of a record without data succeeds with the offset
    unchanged, after overwriting the last two octets of what was packed before;
    with fewer than two octets in the buffer it panics. *)
Theorem packRR_end_of_buffer rr msg cm compress :
  fields (struct rr) = [] -> data rr = [] ->
  packRR rr msg (zlen msg) cm compress =
    if zlen msg <? 2 then Panic
    else Ok (ztake (zlen msg - 2) msg ++ [x00; x00], zlen msg, zlen msg, cm).
Proof.
  intros Hf Hd. unfold packRR, packHeader, rr_pack. rewrite Z.eqb_refl, Hf, Hd. gosimp. cbn [pack_fields at_len on_err].
  gosimp. rewrite Z.sub_diag. cbn [negb Z.eqb Z.modulo Z.div_eucl]. unfold PutUint16. pose proof (zlen_nonneg msg).
  destruct (Z.ltb_spec (zlen msg) 2).
  - destruct (slice msg _ _) eqn:E; [|done]. apply slice_inv in E as (? & _). exfalso. lia.
  - destruct (slice_exists msg (zlen msg - 2) (zlen msg - 2 + 2)) as (w & E & _); [lia..|]. rewrite E. gosimp.
    do 4 f_equal. unfold blit. change [byte_of (_ / 256); _] with [x00; x00].
    change (zlen [x00; x00]) with 2. replace (zlen msg - 2 + 2) with (zlen msg) by lia.
    assert (zdrop (zlen msg) msg = []) as -> by (apply drop_ge; unfold zlen; lia). done.
Qed.

Lemma packRR_end_of_buffer_witness :
  packRR (MkRR zero_header RR_ANY []) [x01; x02; x03; x04] 4 nil_map false = Ok ([x01; x02; x00; x00], 4, 4, nil_map) /\
  packRR (MkRR zero_header RR_ANY []) [] 0 nil_map false = Panic.
Proof.
  split.
  - exact (packRR_end_of_buffer (MkRR zero_header RR_ANY []) [x01; x02; x03; x04] nil_map false eq_refl eq_refl).
  - exact (packRR_end_of_buffer (MkRR zero_header RR_ANY []) [] nil_map false eq_refl eq_refl).
Defined.

(** The wire form of an AMTRELAY record at the root, precedence 10, with the
    given discovery bit and type octet, and an IPv4 relay. *)
Definition amtrelay_wire (t : Z) : bytes := map byte_of [0; 1;4; 0;1; 0;0;0;0; 0;6; 10; t; 192;0;2;1].

(** The gateway switches look at the whole octet of an AMTRELAY record: with
    the discovery bit 0x80 of RFC 8777 set a relay address is not read and the
    record is rejected, and a record built that way is packed without its
    relay; without the bit both directions work. *)
Theorem AMTRELAY_discovery_bit :
  UnpackRR (amtrelay_wire 0x81) 0 = Err (17, MkError "bad rdlength") /\
  UnpackRR (amtrelay_wire 0x01) 0 =
    Ok (MkRR (MkHeader (bs ".") 260 1 0 6) RR_AMTRELAY
         [V_int 10; V_int 1; V_gateway (map byte_of [192; 0; 2; 1]) []], 17) /\
  rr_pack (MkRR (MkHeader (bs ".") 260 1 0 0) RR_AMTRELAY
             [V_int 10; V_int 0x81; V_gateway (map byte_of [192; 0; 2; 1]) []])
    false (replicate 6 xff) 0 nil_map = Ok ([x0a; x81; xff; xff; xff; xff], 2, nil_map).
Proof. vm_compute. split_and!; reflexivity. Qed.
