(* ===== verification/Msg.v ===== *)
(** * Messages

    types.go [Header] and [Question], msg.go [MsgHdr], [Msg] and the methods
    that pack, unpack and measure a message, defaults.go [IsEdns0].  A method
    with a pointer receiver returns the receiver it leaves behind, also next to
    an error. *)

From S2P Require Import Prelude Go Utf8 Labels Escape Names NameDecode NameEncode NameLen Wire Codec NameCarry Text Nsec Encodings Apl Edns Svcb RData RDataCarry RR RRCarry.

(** ** Data *)

Record Question := MkQuestion { q_Name : bytes; Qtype : Z; Qclass : Z }.

(** The wire header. *)
Record Header := MkWireHeader {
  dh_Id : Z; Bits : Z; Qdcount : Z; Ancount : Z; Nscount : Z; Arcount : Z }.

Record MsgHdr := MkMsgHdr {
  Id : Z;
  Response : bool;
  Opcode : Z;
  Authoritative : bool;
  Truncated : bool;
  RecursionDesired : bool;
  RecursionAvailable : bool;
  Zero : bool;
  AuthenticatedData : bool;
  CheckingDisabled : bool;
  Rcode : Z
}.

Record Msg := MkMsg {
  hdr : MsgHdr;
  Compress : bool;
  Question_ : list Question;
  Answer : list RR;
  Ns : list RR;
  Extra : list RR
}.

#[export] Instance Question_eq_dec : EqDecision Question.
Proof. solve_decision. Defined.
#[export] Instance MsgHdr_eq_dec : EqDecision MsgHdr.
Proof. solve_decision. Defined.
#[export] Instance Msg_eq_dec : EqDecision Msg.
Proof. solve_decision. Defined.

Definition set_hdr (h : MsgHdr) (m : Msg) : Msg :=
  MkMsg h (Compress m) (Question_ m) (Answer m) (Ns m) (Extra m).
Definition set_Rcode (r : Z) (h : MsgHdr) : MsgHdr :=
  MkMsgHdr (Id h) (Response h) (Opcode h) (Authoritative h) (Truncated h) (RecursionDesired h)
    (RecursionAvailable h) (Zero h) (AuthenticatedData h) (CheckingDisabled h) r.
Definition set_Question (l : list Question) (m : Msg) : Msg :=
  MkMsg (hdr m) (Compress m) l (Answer m) (Ns m) (Extra m).
Definition set_Answer (l : list RR) (m : Msg) : Msg :=
  MkMsg (hdr m) (Compress m) (Question_ m) l (Ns m) (Extra m).
Definition set_Ns (l : list RR) (m : Msg) : Msg :=
  MkMsg (hdr m) (Compress m) (Question_ m) (Answer m) l (Extra m).
Definition set_Extra (l : list RR) (m : Msg) : Msg :=
  MkMsg (hdr m) (Compress m) (Question_ m) (Answer m) (Ns m) l.

(** ** Header bits *)

Definition QR_ : Z := Z.shiftl 1 15.
Definition AA_ : Z := Z.shiftl 1 10.
Definition TC_ : Z := Z.shiftl 1 9.
Definition RD_ : Z := Z.shiftl 1 8.
Definition RA_ : Z := Z.shiftl 1 7.
Definition Z_ : Z := Z.shiftl 1 6.
Definition AD_ : Z := Z.shiftl 1 5.
Definition CD_ : Z := Z.shiftl 1 4.
Definition headerSize : Z := 12.

(** [dh.Bits] of [packBufferWithCompressionMap]: 16-bit arithmetic. *)
Definition msg_bits (h : MsgHdr) : Z :=
  let bit (b : bool) (m x : Z) := if b then Z.lor x m else x in
  let x := Z.lor (Z.shiftl (Opcode h mod 65536) 11 mod 65536) (Z.land (Rcode h) 0xF) in
  let x := bit (Response h) QR_ x in
  let x := bit (Authoritative h) AA_ x in
  let x := bit (Truncated h) TC_ x in
  let x := bit (RecursionDesired h) RD_ x in
  let x := bit (RecursionAvailable h) RA_ x in
  let x := bit (Zero h) Z_ x in
  let x := bit (AuthenticatedData h) AD_ x in
  bit (CheckingDisabled h) CD_ x.

Definition setHdr (dh : Header) : MsgHdr :=
  let has (m : Z) := negb (Z.land (Bits dh) m =? 0) in
  {| Id := dh_Id dh;
     Response := has QR_;
     Opcode := Z.land (Z.shiftr (Bits dh) 11) 0xF;
     Authoritative := has AA_;
     Truncated := has TC_;
     RecursionDesired := has RD_;
     RecursionAvailable := has RA_;
     Zero := has Z_;
     AuthenticatedData := has AD_;
     CheckingDisabled := has CD_;
     Rcode := Z.land (Bits dh) 0xF |}.

(** ** EDNS0 *)

Definition TypeOPT : Z := 41.

(** The record of the last position in [Extra] whose type is OPT; the type
    assertion panics when another struct carries that type. *)
Fixpoint last_of_type (t : Z) (l : list RR) : option RR :=
  match l with
  | [] => None
  | r :: l =>
      match last_of_type t l with
      | Some r => Some r
      | None => if Rrtype (Hdr r) =? t then Some r else None
      end
  end.

Definition IsEdns0 {E} (m : Msg) : res E (option RR) :=
  match last_of_type TypeOPT (Extra m) with
  | None => Ok None
  | Some r => if decide (struct r = RR_OPT) then Ok (Some r) else Panic
  end.

(** [opt.SetExtendedRcode(v)] through the pointer [IsEdns0] returned. *)
Fixpoint update_last (t : Z) (f : RR -> RR) (l : list RR) : list RR :=
  match l with
  | [] => []
  | r :: l =>
      match last_of_type t l with
      | Some _ => r :: update_last t f l
      | None => if Rrtype (Hdr r) =? t then f r :: l else r :: l
      end
  end.

Definition set_opt_rcode (v : Z) (r : RR) : RR :=
  set_Hdr (fun h => set_Ttl (SetExtendedRcode v (Ttl h)) h) r.

(** ** Packing *)

Definition Question_pack (q : Question) (compress : bool) : packer := fun msg off cm =>
  '(msg, off, cm) ← packDomainName (q_Name q) msg off cm compress;
  '(msg, off) ← packUint16 (Qtype q) msg off;
  '(msg, off) ← packUint16 (Qclass q) msg off;
  Ok (msg, off, cm).

Definition Header_pack (dh : Header) (msg : bytes) (off : Z) : wire (bytes * Z) :=
  '(msg, off) ← packUint16 (dh_Id dh) msg off;
  '(msg, off) ← packUint16 (Bits dh) msg off;
  '(msg, off) ← packUint16 (Qdcount dh) msg off;
  '(msg, off) ← packUint16 (Ancount dh) msg off;
  '(msg, off) ← packUint16 (Nscount dh) msg off;
  packUint16 (Arcount dh) msg off.

Definition Question_len (q : Question) (off : Z) (c : option (gset bytes))
    : res error (Z * option (gset bytes)) :=
  '(l, c) ← domainNameLen (q_Name q) off c true; Ok (l + 4, c).

Definition msgLenWithCompressionMap (dns : Msg) (compression : option (gset bytes)) : res error (Z * option (gset bytes)) :=
  let add {A} (len : A -> Z -> option (gset bytes) -> res error (Z * option (gset bytes))) :=
    foldM (fun '(l, c) r => '(n, c) ← len r l c; Ok (l + n, c)) in
  lc ← add Question_len (headerSize, compression) (Question_ dns);
  lc ← add rr_len lc (Answer dns);
  lc ← add rr_len lc (Ns dns);
  add rr_len lc (Extra dns).

Definition isCompressible (dns : Msg) : bool :=
  (1 <? zlen (Question_ dns)) || (0 <? zlen (Answer dns)) || (0 <? zlen (Ns dns)) || (0 <? zlen (Extra dns)).

Definition Len (dns : Msg) : res error Z :=
  let compression := if Compress dns && isCompressible dns then Some ∅ else None in
  '(l, _) ← msgLenWithCompressionMap dns compression; Ok l.

(** The wire header of the message: the counts are cut to 16 bits. *)
Definition wire_header (dns : Msg) : Header :=
  {| dh_Id := Id (hdr dns);
     Bits := msg_bits (hdr dns);
     Qdcount := zlen (Question_ dns) mod 65536;
     Ancount := zlen (Answer dns) mod 65536;
     Nscount := zlen (Ns dns) mod 65536;
     Arcount := zlen (Extra dns) mod 65536 |}.

(** The pieces, one after the other. *)
Definition pack_pieces (dns : Msg) (compress : bool) : packer := fun msg off cm =>
  '(msg, off, cm) ← plain (Header_pack (wire_header dns)) msg off cm;
  '(msg, off, cm) ← pack_each (fun q => Question_pack q compress) (Question_ dns) msg off cm;
  '(msg, off, cm) ← pack_each (fun r => rr_packer r compress) (Answer dns) msg off cm;
  '(msg, off, cm) ← pack_each (fun r => rr_packer r compress) (Ns dns) msg off cm;
  pack_each (fun r => rr_packer r compress) (Extra dns) msg off cm.

(** From the length on: a fresh buffer when the given one is too small. *)
Definition pack_body (dns : Msg) (buf : bytes) (cm : compressionMap) (compress : bool) : res error bytes :=
  '(uncompressedLen, _) ← msgLenWithCompressionMap dns None;
  let packLen := uncompressedLen + 1 in
  let msg := if zlen buf <? packLen then replicate (Z.to_nat packLen) x00 else buf in
  '(msg, off, _) ← on_err snd (pack_pieces dns compress msg 0 cm);
  index (slice msg 0 off).

Definition packBufferWithCompressionMap (dns : Msg) (buf : bytes) (cm : compressionMap) (compress : bool)
    : Msg * res error bytes :=
  let rcode := Rcode (hdr dns) in
  if (rcode <? 0) || (0xFFF <? rcode) then (dns, Err ErrRcode) else
  match IsEdns0 (E := error) dns with
  | Ok (Some _) =>
      let dns := set_Extra (update_last TypeOPT (set_opt_rcode (rcode mod 65536)) (Extra dns)) dns in
      (dns, pack_body dns buf cm compress)
  | Ok None =>
      if 0xF <? rcode then (dns, Err ErrExtendedRcode)
      else (dns, pack_body dns buf cm compress)
  | Err e => (dns, Err e)
  | Panic => (dns, Panic)
  | Diverge => (dns, Diverge)
  end.

Definition PackBuffer (dns : Msg) (buf : bytes) : Msg * res error bytes :=
  if Compress dns && isCompressible dns
  then packBufferWithCompressionMap dns buf {| ext := None; int_ := Some ∅ |} true
  else packBufferWithCompressionMap dns buf nil_map false.

Definition Pack (dns : Msg) : Msg * res error bytes := PackBuffer dns [].

(** ** Unpacking *)

(** [fmt.Errorf("ctx: %w", err)], with the offset of the error. *)
Definition in_context (ctx : String.string) (e : Z * error) : Z * error := (e.1, Errorf ctx e.2).
Arguments in_context ctx%_string_scope e.

Definition unpackQuestion (msg : bytes) (off : Z) : wire (Question * Z) :=
  '(name, off) ← on_err (in_context "bad question name") (UnpackDomainName msg off);
  if off =? zlen msg then Ok (MkQuestion name 0 0, off) else
  '(qtype, off) ← on_err (in_context "bad question qtype") (unpackUint16 msg off);
  if off =? zlen msg then Ok (MkQuestion name qtype 0, off) else
  '(qclass, off) ← on_err (in_context "bad question qclass") (unpackUint16 msg off);
  Ok (MkQuestion name qtype qclass, off).

Definition unpackMsgHdr (msg : bytes) (off : Z) : wire (Header * Z) :=
  '(id, off) ← on_err (in_context "bad header id") (unpackUint16 msg off);
  '(bits, off) ← on_err (in_context "bad header bits") (unpackUint16 msg off);
  '(qd, off) ← on_err (in_context "bad header question count") (unpackUint16 msg off);
  '(an, off) ← on_err (in_context "bad header answer count") (unpackUint16 msg off);
  '(ns, off) ← on_err (in_context "bad header ns count") (unpackUint16 msg off);
  '(ar, off) ← on_err (in_context "bad header extra count") (unpackUint16 msg off);
  Ok (MkWireHeader id bits qd an ns ar, off).

(** The question loop of [unpack]: an error keeps the questions read. *)
Fixpoint unpack_questions {F} (l : nat) (msg : bytes) (off : Z) (qs : list Question)
    : res F (list Question * Z * option error) :=
  match l with
  | O => Ok (qs, off, None)
  | S l =>
      r ← attempt (unpackQuestion msg off);
      match r with
      | inr (o, e) => Ok (qs, o, Some e)
      | inl (q, off') =>
          if off =? off' then Ok (qs, off', None)
          else unpack_questions l msg off' (qs ++ [q])
      end
  end.

(** [if err == nil { dst, off, err = unpackRRslice(...) }]: otherwise the
    section keeps what it held. *)
Definition next_section {F} (l : Z) (msg : bytes) (st : list RR * Z * option error) (old : list RR)
    : res F (list RR * Z * option error) :=
  match st with
  | (_, off, None) => unpackRRslice (Z.to_nat l) msg off []
  | (_, off, Some e) => Ok (old, off, Some e)
  end.

Definition set_extended_rcode {F} (dns : Msg) : res F Msg :=
  opt ← IsEdns0 dns;
  match opt with
  | Some o => Ok (set_hdr (set_Rcode (Z.lor (Rcode (hdr dns)) (ExtendedRcode (Ttl (Hdr o)))) (hdr dns)) dns)
  | None => Ok dns
  end.

Definition unpack {F} (dns : Msg) (dh : Header) (msg : bytes) (off : Z) : res F (Msg * option error) :=
  if off =? zlen msg then Ok (MkMsg (hdr dns) (Compress dns) [] [] [] [], None) else
  '(qs, off, err) ← unpack_questions (Z.to_nat (Qdcount dh)) msg off [];
  let dns := set_Question qs dns in
  match err with
  | Some e => Ok (dns, Some e)
  | None =>
      an ← unpackRRslice (Z.to_nat (Ancount dh)) msg off [];
      ns ← next_section (Nscount dh) msg an (Ns dns);
      ar ← next_section (Arcount dh) msg ns (Extra dns);
      let dns := MkMsg (hdr dns) (Compress dns) qs an.1.1 ns.1.1 ar.1.1 in
      dns ← set_extended_rcode dns;
      Ok (dns, ar.2)
  end.

Definition Unpack {F} (dns : Msg) (msg : bytes) : res F (Msg * option error) :=
  r ← attempt (unpackMsgHdr msg 0);
  match r with
  | inr (_, e) => Ok (dns, Some e)
  | inl (dh, off) => unpack (set_hdr (setHdr dh) dns) dh msg off
  end.
