(* ===== verification/MsgCarry.v ===== *)
(** * Messages on the wire

    The header bits as a bijection, and packing and unpacking of whole
    messages, proved against the contracts of questions and records. *)

From S2P Require Import Prelude Go Utf8 Labels Escape Names NameDecode NameEncode NameLen Wire Codec NameCarry Text Nsec Encodings Apl Edns Svcb RData RDataCarry RR RRCarry Msg.

(** ** The header bits *)

(** The header of an opcode, an rcode and the eight flags, as a number. *)
Definition hdr_of (op rc flags : Z) : MsgHdr :=
  let b i := Z.testbit flags i in
  MkMsgHdr 0 (b 0) op (b 1) (b 2) (b 3) (b 4) (b 5) (b 6) (b 7) rc.

(** The rcode is the low part of the word, the rest is checked by computation. *)
Lemma bit_lor (b : bool) m x r : (if b then Z.lor (Z.lor x r) m else Z.lor x r) = Z.lor (if b then Z.lor x m else x) r.
Proof. destruct b; [|done]. by rewrite <- !Z.lor_assoc, (Z.lor_comm r). Qed.

Lemma msg_bits_rcode h rc : 0 <= rc < 16 -> msg_bits (set_Rcode rc h) = Z.lor (msg_bits (set_Rcode 0 h)) rc.
Proof.
  intros Hrc. destruct h as [id b1 op b2 b3 b4 b5 b6 b7 b8 rc0]. unfold msg_bits.
  cbn [Rcode set_Rcode Opcode Response Authoritative Truncated RecursionDesired RecursionAvailable Zero AuthenticatedData CheckingDisabled].
  change 0xF with (Z.ones 4). rewrite Z.land_0_l, Z.lor_0_r, (Z.land_ones rc), (Z.mod_small rc) by lia.
  by rewrite !bit_lor.
Qed.

Lemma land_low rc k : 0 <= rc < 16 -> 4 <= k -> Z.land rc (Z.shiftl 1 k) = 0.
Proof.
  intros Hrc Hk. rewrite Z.shiftl_mul_pow2 by lia. apply land_small_shiftl; [lia|].
  pose proof (Z.pow_le_mono_r 2 4 k). change (2 ^ 4) with 16 in *. lia.
Qed.

Lemma setHdr_rcode x rc : Z.land x 0xF = 0 -> 0 <= rc < 16 ->
  setHdr (MkWireHeader 0 (Z.lor x rc) 0 0 0 0) = set_Rcode rc (setHdr (MkWireHeader 0 x 0 0 0 0)).
Proof.
  intros Hx Hrc. unfold setHdr, set_Rcode, QR_, AA_, TC_, RD_, RA_, Z_, AD_, CD_.
  cbn [Bits dh_Id Rcode Opcode Response Authoritative Truncated RecursionDesired RecursionAvailable Zero AuthenticatedData CheckingDisabled Id].
  rewrite !Z.land_lor_distr_l, !(land_low rc) by lia. rewrite !Z.lor_0_r, Hx, Z.lor_0_l.
  rewrite Z.shiftr_lor, (Z.shiftr_div_pow2 rc), (Z.div_small rc) by (change (2 ^ 11) with 2048; lia).
  rewrite Z.lor_0_r. change 0xF with (Z.ones 4). by rewrite (Z.land_ones rc), (Z.mod_small rc) by lia.
Qed.

Definition bits_check (op flags : Z) : bool :=
  let h := hdr_of op 0 flags in
  let x := msg_bits h in
  (0 <=? x) && (x <? 65536) && (Z.land x 0xF =? 0) && bool_decide (setHdr (MkWireHeader 0 x 0 0 0 0) = h).

Lemma bits_checked :
  forallb (fun op => forallb (bits_check op) (seqZ 0 256)) (seqZ 0 16) = true.
Proof. vm_compute. reflexivity. Qed.

Lemma forallb_seqZ f n x : forallb f (seqZ 0 n) = true -> 0 <= x < n -> f x = true.
Proof.
  intros H Hx. rewrite forallb_forall in H. apply H. apply list_elem_of_In, elem_of_seqZ. lia.
Qed.

Definition flags_of (h : MsgHdr) : Z :=
  let b (x : bool) (n : Z) := if x then n else 0 in
  b (Response h) 1 + b (Authoritative h) 2 + b (Truncated h) 4 + b (RecursionDesired h) 8 +
  b (RecursionAvailable h) 16 + b (Zero h) 32 + b (AuthenticatedData h) 64 + b (CheckingDisabled h) 128.

Lemma hdr_of_flags h : 0 <= flags_of h < 256 /\
  hdr_of (Opcode h) (Rcode h) (flags_of h) =
  MkMsgHdr 0 (Response h) (Opcode h) (Authoritative h) (Truncated h) (RecursionDesired h)
    (RecursionAvailable h) (Zero h) (AuthenticatedData h) (CheckingDisabled h) (Rcode h).
Proof.
  destruct h as [id b1 op b2 b3 b4 b5 b6 b7 b8 rc].
  split; [|cbn -[Z.testbit]]; by destruct b1, b2, b3, b4, b5, b6, b7, b8.
Qed.

(** Neither the identifier nor the high part of the rcode is in the bits. *)
Definition same_bits (h : MsgHdr) : MsgHdr :=
  MkMsgHdr 0 (Response h) (Opcode h) (Authoritative h) (Truncated h) (RecursionDesired h)
    (RecursionAvailable h) (Zero h) (AuthenticatedData h) (CheckingDisabled h) (Z.land (Rcode h) 0xF).

Lemma msg_bits_same h : msg_bits (same_bits h) = msg_bits h.
Proof.
  destruct h as [id b1 op b2 b3 b4 b5 b6 b7 b8 rc]. unfold same_bits, msg_bits.
  cbn [Rcode Opcode Response Authoritative Truncated RecursionDesired RecursionAvailable Zero AuthenticatedData CheckingDisabled].
  by rewrite <- Z.land_assoc.
Qed.

Lemma land_15 x : 0 <= Z.land x 0xF < 16.
Proof. change 0xF with (Z.ones 4). rewrite Z.land_ones by lia. apply Z.mod_pos_bound. lia. Qed.

Lemma bits_check_ok op rc flags : 0 <= op < 16 -> 0 <= rc < 16 -> 0 <= flags < 256 ->
  u16 (msg_bits (hdr_of op rc flags)) /\
  setHdr (MkWireHeader 0 (msg_bits (hdr_of op rc flags)) 0 0 0 0) = hdr_of op rc flags.
Proof.
  intros Hop Hrc Hf.
  assert (bits_check op flags = true) as H.
  { pose proof (forallb_seqZ _ _ _ bits_checked Hop) as H1. exact (forallb_seqZ _ _ _ H1 Hf). }
  unfold bits_check in H. apply andb_prop in H as [[[H3 H4]%andb_prop H5]%andb_prop H6].
  apply Z.leb_le in H3. apply Z.ltb_lt in H4. apply Z.eqb_eq in H5. apply bool_decide_eq_true in H6.
  change (hdr_of op rc flags) with (set_Rcode rc (hdr_of op 0 flags)).
  rewrite msg_bits_rcode by done. change (set_Rcode 0 (hdr_of op 0 flags)) with (hdr_of op 0 flags).
  rewrite setHdr_rcode, H6 by done. split; [|done]. split; [apply Z.lor_nonneg; lia|].
  destruct (Z.eq_dec (Z.lor (msg_bits (hdr_of op 0 flags)) rc) 0) as [->|Hne]; [lia|].
  apply Z.log2_lt_cancel. rewrite Z.log2_lor by lia. change (Z.log2 65536) with 16.
  pose proof (Z.log2_le_mono (msg_bits (hdr_of op 0 flags)) 65535 ltac:(lia)) as L1.
  pose proof (Z.log2_le_mono rc 65535 ltac:(lia)) as L2. change (Z.log2 65535) with 15 in *. lia.
Qed.

(** The bits of a header whose opcode fits four bits: everything but the high
    part of the rcode is read back. *)
Lemma setHdr_bits dh h :
  0 <= Opcode h < 16 -> Bits dh = msg_bits h -> dh_Id dh = Id h ->
  u16 (msg_bits h) /\ setHdr dh = set_Rcode (Z.land (Rcode h) 0xF) h.
Proof.
  intros Hop Hb Hid. destruct (hdr_of_flags (same_bits h)) as [Hf E].
  destruct (bits_check_ok (Opcode (same_bits h)) (Rcode (same_bits h)) (flags_of (same_bits h)))
    as [H1 H2]; [done|apply land_15|done|].
  assert (hdr_of (Opcode (same_bits h)) (Rcode (same_bits h)) (flags_of (same_bits h)) = same_bits h) as E'.
  { rewrite E. by destruct h. }
  rewrite E', msg_bits_same in H1, H2. split; [done|].
  revert H2. unfold setHdr. rewrite Hb, Hid. generalize (msg_bits h). intros x.
  destruct h as [id b1 op b2 b3 b4 b5 b6 b7 b8 rc]. unfold same_bits, set_Rcode.
  cbn [Bits dh_Id Rcode Opcode Response Authoritative Truncated RecursionDesired RecursionAvailable Zero AuthenticatedData CheckingDisabled Id].
  intros [= -> -> -> -> -> -> -> -> -> ->]. done.
Qed.

Definition bits_back (x : Z) : bool := msg_bits (setHdr (MkWireHeader 0 x 0 0 0 0)) =? x.

Lemma setHdr_checked : forallb (fun hi => bits_back (hi * 16)) (seqZ 0 4096) = true.
Proof. vm_compute. reflexivity. Qed.

Lemma bits_setHdr dh : u16 (Bits dh) -> msg_bits (setHdr dh) = Bits dh.
Proof.
  intros Hb. unfold u16 in Hb. set (x := Bits dh / 16 * 16). set (r := Bits dh mod 16).
  assert (0 <= r < 16) as Hr by (apply Z.mod_pos_bound; lia).
  pose proof (forallb_seqZ _ _ (Bits dh / 16) setHdr_checked ltac:(dlia)) as H1. cbv beta in H1.
  apply Z.eqb_eq in H1. fold x in H1.
  assert (Z.land x 0xF = 0) as Hx.
  { change 0xF with (Z.ones 4). rewrite Z.land_ones by lia. apply Z.mod_mul. lia. }
  assert (Bits dh = Z.lor x r) as E.
  { unfold x. change 16 with (2 ^ 4) at 2. rewrite (lor_small_shiftl r _ 4) by lia. change (2 ^ 4) with 16. unfold r. dlia. }
  transitivity (msg_bits (setHdr (MkWireHeader 0 (Bits dh) 0 0 0 0))); [done|]. rewrite E.
  rewrite setHdr_rcode, msg_bits_rcode by done. f_equal. rewrite <- H1 at 2. f_equal.
  unfold setHdr, set_Rcode. cbn [Bits dh_Id Rcode Opcode Response Authoritative Truncated RecursionDesired RecursionAvailable Zero AuthenticatedData CheckingDisabled Id].
  by rewrite Hx.
Qed.

(** ** Questions *)

Definition question_ok (q : Question) : Prop :=
  good_name (q_Name q) /\ u16 (Qtype q) /\ u16 (Qclass q).

Definition question_size (q : Question) : Z :=
  match Question_len q 0 None with Ok (n, _) => n | _ => 0 end.

Lemma Question_len_ok q ls off : q_Name q = show_name ls -> good_labels ls ->
  Question_len q off None = Ok (wire_len ls + 5, None).
Proof. intros Hn Hls. unfold Question_len. rewrite Hn, domainNameLen_show by done. gosimp. do 2 f_equal. lia. Qed.

Lemma delivers_question q compress :
  question_ok q -> delivers (question_size q) (Question_pack q compress) unpackQuestion (eq q).
Proof.
  intros ((ls & Hls & Hname) & Hty & Hcl) off cm L H0 Hroom.
  unfold question_size in *. rewrite (Question_len_ok q ls) in * by done.
  set (tail := be 2 (Qtype q) ++ be 2 (Qclass q)).
  assert (zlen tail = 4) as Ht by (unfold tail; by rewrite zlen_app, !be_length).
  destruct (name_then ls compress (fun msg off => '(msg, off) ← packUint16 (Qtype q) msg off; packUint16 (Qclass q) msg off) tail off cm L)
    as (w1 & cm' & H1 & H2 & H3 & H4 & H5); [done|by apply fixed_seq; apply fixed_uint16|done|lia|].
  exists (w1 ++ tail), cm'. split_and!; [zlia| |done|].
  - eapply puts_ext; [|exact H3]. intros msg _. unfold Question_pack. rewrite Hname.
    destruct (packDomainName _ _ _ _ _) as [[[m1 o1] c1]|?| |]; gosimp; [|done..].
    unfold plain. by destruct (packUint16 (Qtype q) _ _) as [[m2 o2]|?| |]; gosimp.
  - intros pre Hpre Hok. destruct (H5 pre Hpre Hok) as (H6 & H7 & H8).
    split; [zlia|]. split; [rewrite app_assoc; by apply cm_ok_app|]. intros suf. exists q. split; [|done].
    unfold unpackQuestion. rewrite <- app_assoc, H8. gosimp. pose proof (zlen_nonneg suf).
    rewrite (proj2 (Z.eqb_neq _ _)) by zlia. unfold tail. rewrite <- app_assoc.
    rewrite (app_assoc pre). subst off. rewrite <- zlen_app, next16 by done. gosimp.
    rewrite (app_assoc _ (be 2 (Qtype q))).
    rewrite (proj2 (Z.eqb_neq _ _)) by (rewrite !zlen_app, !be_length; lia).
    rewrite next16 by done. gosimp. rewrite <- Hname. destruct q. f_equal. f_equal. zlia.
Qed.

(** ** Messages *)

(** In the additional section a record of type OPT is in the struct [OPT]. *)
Definition extra_ok (rr : RR) : Prop := rr_ok rr /\ (Rrtype (Hdr rr) = TypeOPT -> struct rr = RR_OPT).

Lemma extra_ok_rr l : Forall extra_ok l -> Forall rr_ok l.
Proof. intros H. eapply Forall_impl; [exact H|]. by intros r []. Qed.

(** A message that can travel. *)
Definition msg_ok (m : Msg) : Prop :=
  u16 (Id (hdr m)) /\ 0 <= Opcode (hdr m) < 16 /\ 0 <= Rcode (hdr m) <= 0xFFF /\
  Forall question_ok (Question_ m) /\ Forall rr_ok (Answer m) /\ Forall rr_ok (Ns m) /\ Forall extra_ok (Extra m) /\
  zlen (Question_ m) < 65536 /\ zlen (Answer m) < 65536 /\ zlen (Ns m) < 65536 /\ zlen (Extra m) < 65536.

Definition msg_size (m : Msg) : Z :=
  headerSize + sum_with question_size (Question_ m) + sum_with rr_size (Answer m) +
  sum_with rr_size (Ns m) + sum_with rr_size (Extra m).

Lemma foldM_len {A} (len : A -> Z -> option (gset bytes) -> res error (Z * option (gset bytes))) n l :
  Forall (fun x => forall off, len x off None = Ok (n x, None)) l ->
  forall off, foldM (fun '(l, c) r => '(n, c) ← len r l c; Ok (l + n, c)) (off, None) l =
              Ok (off + sum_with n l, None).
Proof.
  induction 1 as [|x l Hx _ IH]; intros off; cbn [foldM sum_with]; [by rewrite Z.add_0_r|].
  rewrite Hx. gosimp. rewrite IH, Z.add_assoc. done.
Qed.

Lemma question_len_size q off : question_ok q -> Question_len q off None = Ok (question_size q, None).
Proof.
  intros ((ls & Hls & Hname) & _). unfold question_size. by rewrite !(Question_len_ok q ls).
Qed.

Lemma rr_len_size rr off : rr_ok rr -> rr_len rr off None = Ok (rr_size rr, None).
Proof.
  intros Hok. pose proof Hok as (((ls & Hls & Hname) & _) & _). unfold rr_size.
  by rewrite !(rr_len_ok rr ls).
Qed.

Lemma msg_len_ok m : msg_ok m -> msgLenWithCompressionMap m None = Ok (msg_size m, None).
Proof.
  intros (_ & _ & _ & Hq & Ha & Hn & He%extra_ok_rr & _). unfold msgLenWithCompressionMap.
  assert (forall l, Forall rr_ok l -> Forall (fun x => forall off, rr_len x off None = Ok (rr_size x, None)) l)
    as Hrr by (intros l Hl; eapply Forall_impl; [exact Hl|]; intros x Hx off; by apply rr_len_size).
  rewrite (foldM_len Question_len question_size); [gosimp|].
  { do 3 (rewrite (foldM_len rr_len rr_size) by auto; gosimp). done. }
  eapply Forall_impl; [exact Hq|]. intros q Hq' off. by apply question_len_size.
Qed.

Lemma question_size_nonneg q : question_ok q -> 0 <= question_size q.
Proof.
  intros ((ls & Hls & Hname) & _). unfold question_size. rewrite (Question_len_ok q ls) by done.
  pose proof (wire_len_nonneg ls). lia.
Qed.

(** The header's twelve octets. *)
Definition header_wire (dh : Header) : bytes :=
  be 2 (dh_Id dh) ++ be 2 (Bits dh) ++ be 2 (Qdcount dh) ++ be 2 (Ancount dh) ++ be 2 (Nscount dh) ++ be 2 (Arcount dh).

Lemma fixed_header dh : fixed (Header_pack dh) (header_wire dh).
Proof.
  unfold Header_pack, header_wire.
  repeat first [apply fixed_uint16 | apply (fixed_seq _ (fun msg off => _)); [apply fixed_uint16|]].
Qed.

Definition header_u16 (dh : Header) : Prop :=
  u16 (dh_Id dh) /\ u16 (Bits dh) /\ u16 (Qdcount dh) /\ u16 (Ancount dh) /\ u16 (Nscount dh) /\ u16 (Arcount dh).

Lemma header_wire_length dh : zlen (header_wire dh) = 12.
Proof. unfold header_wire. by rewrite !zlen_app, !be_length. Qed.

Lemma unpackMsgHdr_ok dh suf : header_u16 dh -> unpackMsgHdr (header_wire dh ++ suf) 0 = Ok (dh, 12).
Proof.
  intros (H1 & H2 & H3 & H4 & H5 & H6). unfold unpackMsgHdr, header_wire. rewrite <- !app_assoc.
  pose proof (next16 [] (dh_Id dh)) as H0. cbn [app zlen length] in H0. change (zlen []) with 0 in H0.
  rewrite H0 by done. gosimp. rewrite next16 by done. gosimp.
  rewrite (app_assoc _ (be 2 (Bits dh))), next16 by done. gosimp.
  rewrite (app_assoc _ (be 2 (Qdcount dh))), next16 by done. gosimp.
  rewrite (app_assoc _ (be 2 (Ancount dh))), next16 by done. gosimp.
  rewrite (app_assoc _ (be 2 (Nscount dh))), next16 by done. gosimp.
  rewrite !zlen_app, !be_length. by destruct dh.
Qed.

Lemma wire_header_ok m : msg_ok m -> header_u16 (wire_header m) /\
  setHdr (wire_header m) = set_Rcode (Z.land (Rcode (hdr m)) 0xF) (hdr m).
Proof.
  intros (Hid & Hop & _). destruct (setHdr_bits (wire_header m) (hdr m)) as [H1 H2]; [done..|].
  split; [|done]. unfold header_u16, wire_header. cbn [dh_Id Bits Qdcount Ancount Nscount Arcount].
  unfold u16 in *. split_and!; try done; try (apply Z.mod_pos_bound; lia); lia.
Qed.

(** The TTL of the OPT record, if there is one, holds the high part of the
    rcode: what [packBufferWithCompressionMap] establishes. *)
Definition rcode_carried (m : Msg) : Prop :=
  match last_of_type TypeOPT (Extra m) with
  | Some o => ExtendedRcode (Ttl (Hdr o)) = Z.shiftl (Z.shiftr (Rcode (hdr m)) 4) 4
  | None => Rcode (hdr m) <= 0xF
  end.

(** What is read back from a message. *)
Definition msg_read (m m' : Msg) : Prop :=
  hdr m' = hdr m /\ Question_ m' = Question_ m /\ Forall2 rr_read (Answer m) (Answer m') /\
  Forall2 rr_read (Ns m) (Ns m') /\ Forall2 rr_read (Extra m) (Extra m').

Lemma last_of_type_read t l l' : Forall2 rr_read l l' ->
  match last_of_type t l, last_of_type t l' with
  | Some r, Some r' => rr_read r r' /\ In r l /\ Rrtype (Hdr r) = t
  | None, None => True
  | _, _ => False
  end.
Proof.
  induction 1 as [|r r' l l' Hr _ IH]; [done|]. cbn [last_of_type].
  destruct (last_of_type t l), (last_of_type t l'); try done.
  - destruct IH as (? & ? & ?). split_and!; [done|by right|done].
  - destruct Hr as (n & Hn & ->). cbn [Hdr Rrtype set_Rdlength].
    destruct (Z.eqb_spec (Rrtype (Hdr r)) t); [|done]. split_and!; [by exists n|by left|done].
Qed.

Lemma TypeToRR_OPT : TypeToRR TypeOPT = Some RR_OPT.
Proof. reflexivity. Qed.

Lemma rcode_split x : 0 <= x -> Z.lor (Z.land x 0xF) (Z.shiftl (Z.shiftr x 4) 4) = x.
Proof.
  intros Hx. change 0xF with (Z.ones 4). apply Z.bits_inj'. intros i Hi.
  rewrite Z.lor_spec, Z.land_spec, Z.testbit_ones by lia.
  rewrite (proj2 (Z.leb_le 0 i)) by lia. cbn [andb]. destruct (Z.ltb_spec i 4).
  - rewrite Z.shiftl_spec_low, orb_false_r, andb_true_r by lia. done.
  - rewrite Z.shiftl_spec, Z.shiftr_spec, andb_false_r by lia. cbn [orb]. f_equal. lia.
Qed.

Lemma set_extended_rcode_read {F} m m' :
  msg_ok m -> rcode_carried m -> Forall2 rr_read (Extra m) (Extra m') ->
  hdr m' = set_Rcode (Z.land (Rcode (hdr m)) 0xF) (hdr m) ->
  @set_extended_rcode F m' = Ok (set_hdr (hdr m) m').
Proof.
  intros (_ & _ & Hrc & _) Hc Hf Hh. unfold set_extended_rcode, IsEdns0, rcode_carried in *.
  pose proof (last_of_type_read TypeOPT _ _ Hf) as Hl.
  destruct (last_of_type TypeOPT (Extra m)) as [o|], (last_of_type TypeOPT (Extra m')) as [o'|]; try done.
  - destruct Hl as ((n & Hn & ->) & Hin & Hty). cbn [struct Hdr Ttl set_Rdlength].
    unfold struct_read. rewrite Hty, TypeToRR_OPT. cbn [default].
    destruct (decide _); [|done]. gosimp. cbn [Hdr Ttl set_Rdlength]. rewrite Hc, Hh. cbn [Rcode set_Rcode].
    rewrite rcode_split by lia. unfold set_hdr, set_Rcode. cbn. by destruct (hdr m).
  - gosimp. rewrite (Z.land_ones _ 4) in Hh by lia. rewrite Z.mod_small in Hh by lia.
    unfold set_Rcode in Hh. destruct m' as [h' ? ? ? ? ?]. unfold set_hdr. cbn in *. subst h'. by destruct (hdr m).
Qed.

Lemma delivers_questions {F} compress l : Forall question_ok l ->
  forall off cm L, 0 <= off -> off + sum_with question_size l < L ->
    exists w cm', zlen w <= sum_with question_size l /\
      puts (pack_each (fun q => Question_pack q compress) l) off cm L w cm' /\
      (valid cm = false -> cm' = cm) /\
      forall pre, zlen pre = off -> cm_ok pre cm ->
        cm_ok (pre ++ w) cm' /\ (l <> [] -> 0 < zlen w) /\
        forall suf dst, exists l', Forall2 eq l l' /\
          @unpack_questions F (length l) (pre ++ w ++ suf) off dst = Ok (dst ++ l', off + zlen w, None).
Proof.
  intros Hl. apply delivers_each with (up := unpackQuestion); [done| | |].
  - intros k msg off dst x off' E Hne. cbn [unpack_questions]. rewrite E. cbn [attempt].
    gosimp. by rewrite (proj2 (Z.eqb_neq _ _) Hne).
  - eapply Forall_impl; [exact Hl|]. intros q. apply delivers_question.
  - eapply Forall_impl; [exact Hl|]. intros q. apply question_size_nonneg.
Qed.

Lemma questions_nonneg l : Forall question_ok l -> 0 <= sum_with question_size l.
Proof. intros Hl. apply sum_with_nonneg. eapply Forall_impl; [exact Hl|apply question_size_nonneg]. Qed.

Lemma rrs_nonneg l : Forall rr_ok l -> 0 <= sum_with rr_size l.
Proof. intros Hl. apply sum_with_nonneg. eapply Forall_impl; [exact Hl|apply rr_size_nonneg]. Qed.

(** Forgetting that what follows a section is not constrained. *)
Definition section_reads {F A B} (P : A -> B -> Prop) (l : list A)
    (rd : nat -> bytes -> Z -> list B -> res F (list B * Z * option error)) (pre w : bytes) : Prop :=
  (l <> [] -> 0 < zlen w) /\
  forall suf, exists l', Forall2 P l l' /\
    rd (length l) (pre ++ w ++ suf) (zlen pre) [] = Ok (l', zlen (pre ++ w), None).

(** The sections, each readable where it stands, behind the header octets [hw]. *)
Definition laid_out {F} (m : Msg) (hw wq wa wn we : bytes) : Prop :=
  section_reads eq (Question_ m) (@unpack_questions F) hw wq /\
  section_reads rr_read (Answer m) (@unpackRRslice F) (hw ++ wq) wa /\
  section_reads rr_read (Ns m) (@unpackRRslice F) ((hw ++ wq) ++ wa) wn /\
  section_reads rr_read (Extra m) (@unpackRRslice F) (((hw ++ wq) ++ wa) ++ wn) we.

(** The layout of a packed message, and how each section reads, whatever the
    header holds. *)
Lemma pieces_layout {F} m compress cm L :
  msg_ok m -> msg_size m < L -> cm_ok [] cm ->
  exists wq wa wn we cm', let w := header_wire (wire_header m) ++ wq ++ wa ++ wn ++ we in
    zlen w <= msg_size m /\ puts (pack_pieces m compress) 0 cm L w cm' /\
    forall hw, zlen hw = 12 -> @laid_out F m hw wq wa wn we.
Proof.
  intros (_ & _ & _ & Hq & Ha & Hn & He%extra_ok_rr & _) HL Hcm. unfold msg_size, headerSize in *.
  pose proof (questions_nonneg _ Hq). pose proof (rrs_nonneg _ Ha).
  pose proof (rrs_nonneg _ Hn). pose proof (rrs_nonneg _ He).
  set (hw := header_wire (wire_header m)).
  assert (zlen hw = 12) as Hhw by apply header_wire_length.
  pose proof (fixed_puts _ hw 0 cm L (fixed_header (wire_header m))) as Ph. rewrite Z.add_0_l in Ph.
  specialize (Ph ltac:(lia) ltac:(lia)).
  destruct (@delivers_questions F compress _ Hq (zlen hw) cm L) as (wq & c1 & Q1 & Q2 & Q3 & Q4); [lia|lia|].
  pose proof (zlen_nonneg wq).
  destruct (@delivers_rrs F compress _ Ha (zlen hw + zlen wq) c1 L) as (wa & c2 & A1 & A2 & A3 & A4); [lia|lia|].
  pose proof (zlen_nonneg wa).
  destruct (@delivers_rrs F compress _ Hn (zlen hw + zlen wq + zlen wa) c2 L) as (wn & c3 & N1 & N2 & N3 & N4); [lia|lia|].
  pose proof (zlen_nonneg wn).
  destruct (@delivers_rrs F compress _ He (zlen hw + zlen wq + zlen wa + zlen wn) c3 L) as (we & c4 & E1 & E2 & E3 & E4); [lia|lia|].
  exists wq, wa, wn, we, c4. cbn zeta. split; [|split].
  - destruct (Q4 hw eq_refl ltac:(by apply (cm_ok_app [] hw))) as (Hc1 & Qp & Qr). zlia.
  - unfold pack_pieces.
    eapply (puts_seq _ (fun msg off cm => _)); [exact Ph|]. rewrite Z.add_0_l.
    eapply (puts_seq _ (fun msg off cm => _)); [exact Q2|].
    eapply (puts_seq _ (fun msg off cm => _)); [exact A2|].
    eapply (puts_seq _ (fun msg off cm => _)); [exact N2|exact E2].
  - clear Ph. intros hw' Hhw'. rewrite Hhw in *.
    destruct (Q4 hw' ltac:(done) ltac:(by apply (cm_ok_app [] hw'))) as (Hc1 & Qp & Qr).
    destruct (A4 (hw' ++ wq) ltac:(zlia) Hc1) as (Hc2 & Ap & Ar).
    destruct (N4 ((hw' ++ wq) ++ wa) ltac:(zlia) Hc2) as (Hc3 & Np & Nr).
    destruct (E4 (((hw' ++ wq) ++ wa) ++ wn) ltac:(zlia) Hc3) as (Hc4 & Ep & Er).
    split_and!; split; try done; intros suf.
    + destruct (Qr suf []) as (l' & Hl & El). exists l'. split; [done|]. by rewrite Hhw', El, zlen_app, Hhw'.
    + destruct (Ar suf []) as (l' & Hl & El). exists l'. split; [done|]. by rewrite !zlen_app, Hhw', El.
    + destruct (Nr suf []) as (l' & Hl & El). exists l'. split; [done|]. by rewrite !zlen_app, Hhw', El.
    + destruct (Er suf []) as (l' & Hl & El). exists l'. split; [done|]. by rewrite !zlen_app, Hhw', El.
Qed.

Lemma counts m : msg_ok m -> let dh := wire_header m in
  Z.to_nat (Qdcount dh) = length (Question_ m) /\ Z.to_nat (Ancount dh) = length (Answer m) /\
  Z.to_nat (Nscount dh) = length (Ns m) /\ Z.to_nat (Arcount dh) = length (Extra m).
Proof.
  intros (_ & _ & _ & _ & _ & _ & _ & H1 & H2 & H3 & H4). unfold wire_header.
  cbn [Qdcount Ancount Nscount Arcount].
  rewrite !Z.mod_small by (split; [apply zlen_nonneg|done]). unfold zlen. by rewrite !Nat2Z.id.
Qed.

(** A message laid out that way, with anything after it, is read back. *)
Lemma Unpack_layout {F} m m0 wq wa wn we suf :
  let hw := header_wire (wire_header m) in
  msg_ok m -> rcode_carried m ->
  laid_out (F := F) m hw wq wa wn we ->
  exists m', @Unpack F m0 ((hw ++ wq ++ wa ++ wn ++ we) ++ suf) = Ok (m', None) /\
    msg_read m m' /\ Compress m' = Compress m0.
Proof.
  intros hw Hok Hrc ([Pq Rq] & [Pa Ra] & [Pn Rn] & [Pe Re]).
  destruct (wire_header_ok m Hok) as [Hdh Hset]. destruct (counts m Hok) as (Cq & Ca & Cn & Ce).
  assert (zlen hw = 12) as Hhw by apply header_wire_length.
  unfold Unpack. rewrite <- (app_assoc hw).
  pose proof (fun suf => unpackMsgHdr_ok (wire_header m) suf Hdh) as Hp. fold hw in Hp.
  rewrite Hp. cbn [attempt]. gosimp.
  unfold unpack. rewrite Hset, Cq, Ca, <- Hhw. cbn [hdr Compress set_hdr].
  set (msg := hw ++ (wq ++ wa ++ wn ++ we) ++ suf).
  destruct (Rq (wa ++ wn ++ we ++ suf)) as (lq & Fq & Eq).
  destruct (Ra (wn ++ we ++ suf)) as (la & Fa & Ea).
  destruct (Rn (we ++ suf)) as (ln & Fn & En). destruct (Re suf) as (le & Fe & Ee).
  assert (msg = hw ++ wq ++ wa ++ wn ++ we ++ suf) as Hmsg by (unfold msg; by rewrite <- !app_assoc).
  repeat rewrite <- app_assoc in Ea. repeat rewrite <- app_assoc in En. repeat rewrite <- app_assoc in Ee.
  rewrite <- Hmsg in Eq, Ea, En, Ee.
  apply list_eq_Forall2 in Fq as <-.
  assert (exists m', @set_extended_rcode F (MkMsg (set_Rcode (Z.land (Rcode (hdr m)) 15) (hdr m)) (Compress m0) (Question_ m) la ln le)
    = Ok m' /\ msg_read m m' /\ Compress m' = Compress m0) as (m' & E & Hread).
  { rewrite (set_extended_rcode_read m) by done. eexists. by split. }
  destruct (Z.eqb_spec (zlen hw) (zlen msg)) as [Hz|_].
  - (* nothing after the header: all sections are empty *)
    rewrite Hmsg in Hz. rewrite !zlen_app in Hz. pose_lengths.
    assert (Question_ m = []) as Hq0 by (destruct (Question_ m); [done|]; specialize (Pq ltac:(done)); lia).
    assert (Answer m = []) as Ha0 by (destruct (Answer m); [done|]; specialize (Pa ltac:(done)); lia).
    assert (Ns m = []) as Hn0 by (destruct (Ns m); [done|]; specialize (Pn ltac:(done)); lia).
    assert (Extra m = []) as He0 by (destruct (Extra m); [done|]; specialize (Pe ltac:(done)); lia).
    rewrite Ha0 in Fa. rewrite Hn0 in Fn. rewrite He0 in Fe.
    apply Forall2_nil_inv_l in Fa as ->. apply Forall2_nil_inv_l in Fn as ->. apply Forall2_nil_inv_l in Fe as ->.
    rewrite Hq0 in E. exists m'. split; [|done]. unfold set_extended_rcode, IsEdns0 in E. cbn in E.
    by injection E as <-.
  - rewrite Eq. gosimp. rewrite Ea. gosimp. unfold next_section. rewrite Cn, En. gosimp. rewrite Ce, Ee. gosimp.
    cbn [fst snd hdr Compress Question_ set_Question set_hdr]. rewrite E. gosimp. exists m'. done.
Qed.

(** ** Packing succeeds *)

(** The receiver after packing: the OPT record carries the high part of the rcode. *)
Definition packed_msg (m : Msg) : Msg :=
  match last_of_type TypeOPT (Extra m) with
  | Some _ => set_Extra (update_last TypeOPT (set_opt_rcode (Rcode (hdr m) mod 65536)) (Extra m)) m
  | None => m
  end.

Lemma last_of_type_In t l r : last_of_type t l = Some r -> r ∈ l /\ Rrtype (Hdr r) = t.
Proof.
  revert r. induction l as [|x l IH]; intros r; [done|]. cbn [last_of_type].
  destruct (last_of_type t l) as [r'|].
  - intros [= <-]. destruct (IH r' eq_refl). split; [by right|done].
  - destruct (Z.eqb_spec (Rrtype (Hdr x)) t); intros [= <-]. split; [by left|done].
Qed.

Section Update.
Context (t : Z) (f : RR -> RR) (Hf : forall r, Rrtype (Hdr (f r)) = Rrtype (Hdr r)).

Lemma last_of_type_update l : last_of_type t (update_last t f l) = f <$> last_of_type t l.
Proof.
  induction l as [|x l IH]; [done|]. cbn [update_last last_of_type].
  destruct (last_of_type t l) as [r|] eqn:E; cbn [last_of_type].
  - by rewrite IH.
  - destruct (Rrtype (Hdr x) =? t) eqn:Ex; cbn [last_of_type]; by rewrite E, ?Hf, ?Ex.
Qed.

Lemma length_update_last l : length (update_last t f l) = length l.
Proof.
  induction l as [|x l IH]; [done|]. cbn [update_last]. destruct (last_of_type t l); cbn; [by rewrite IH|].
  by destruct (_ =? _).
Qed.

Lemma Forall_update_last (P : RR -> Prop) l : (forall r, P r -> P (f r)) -> Forall P l -> Forall P (update_last t f l).
Proof.
  intros HP. induction 1 as [|x l Hx Hl IH]; [constructor|]. cbn [update_last].
  destruct (last_of_type t l); [by constructor|]. destruct (_ =? _); constructor; auto.
Qed.

Lemma sum_update_last (n : RR -> Z) l : (forall r, n (f r) = n r) -> sum_with n (update_last t f l) = sum_with n l.
Proof.
  intros Hn. induction l as [|x l IH]; [done|]. cbn [update_last]. destruct (last_of_type t l); cbn; [by rewrite IH|].
  destruct (_ =? _); cbn; by rewrite ?Hn.
Qed.
End Update.

Lemma set_opt_rcode_ok v r : u16 v -> rr_ok r -> rr_ok (set_opt_rcode v r).
Proof.
  intros Hv ((Hn & Ht & Hc & Httl) & Hk & Hd & Hl). unfold set_opt_rcode, set_Hdr. split_and!; try done.
  split_and!; try done. cbn [Ttl set_Ttl Hdr]. rewrite SetExtendedRcode_field by done.
  unfold u32. apply set_field_range; try lia; [|done]. change (2 ^ 8) with 256. apply Z.mod_pos_bound. lia.
Qed.

Lemma packed_msg_ok m : msg_ok m -> msg_ok (packed_msg m).
Proof.
  intros Hok. unfold packed_msg. destruct (last_of_type TypeOPT (Extra m)); [|done].
  destruct Hok as (Hid & Hop & Hrc & Hq & Ha & Hn & He & Lq & La & Ln & Le).
  do 6 (split; [done|]). cbn [Extra set_Extra]. split_and!; try done.
  - apply Forall_update_last; [|done]. intros x [Hx Ho]. split; [|exact Ho]. apply set_opt_rcode_ok; [|done]. apply Z.mod_pos_bound. lia.
  - unfold zlen in *. by rewrite length_update_last.
Qed.

Lemma packed_msg_size m : msg_size (packed_msg m) = msg_size m.
Proof.
  unfold packed_msg. destruct (last_of_type TypeOPT (Extra m)); [|done].
  unfold msg_size. cbn [Question_ Answer Ns Extra set_Extra]. f_equal. by apply sum_update_last.
Qed.

(** An rcode above 15 needs an OPT record. *)
Definition rcode_fits (m : Msg) : Prop :=
  0xF < Rcode (hdr m) -> exists o, last_of_type TypeOPT (Extra m) = Some o.

Lemma packed_msg_rcode m : msg_ok m -> rcode_fits m -> rcode_carried (packed_msg m).
Proof.
  intros (_ & _ & Hrc & _ & _ & _ & He & _) Hfit. unfold rcode_carried, packed_msg.
  destruct (last_of_type TypeOPT (Extra m)) as [o|] eqn:E.
  - cbn [Extra set_Extra hdr]. rewrite last_of_type_update, E by done. cbn [fmap option_fmap option_map].
    apply last_of_type_In in E as [Hin _]. rewrite Forall_forall in He.
    destruct (He o Hin) as (((_ & _ & _ & Httl) & _) & _). cbn [Ttl Hdr set_opt_rcode set_Hdr set_Ttl].
    rewrite Z.mod_small by lia. rewrite SetExtendedRcode_field by (done || lia).
    rewrite ExtendedRcode_field, field_set by (try lia; change (2 ^ 8) with 256; apply Z.mod_pos_bound; lia).
    rewrite Z.shiftl_mul_pow2, Z.shiftr_div_pow2 by lia. change (2 ^ 4) with 16.
    rewrite (Z.mod_small (_ / 16)) by dlia. done.
  - rewrite E. destruct (Z.le_gt_cases (Rcode (hdr m)) 0xF); [done|].
    destruct (Hfit ltac:(lia)) as [o Ho]. congruence.
Qed.


(** Packing the pieces into the buffer the code allocates. *)
Lemma pack_body_layout {F} m buf cm compress :
  msg_ok m -> (forall k, find cm k = None) ->
  exists wq wa wn we, let b := header_wire (wire_header m) ++ wq ++ wa ++ wn ++ we in
    pack_body m buf cm compress = Ok b /\ zlen b <= msg_size m /\
    forall hw, zlen hw = 12 -> @laid_out F m hw wq wa wn we.
Proof.
  intros Hok Hcm. unfold pack_body. rewrite msg_len_ok by done. gosimp.
  set (msg := if zlen buf <? msg_size m + 1 then _ else buf).
  assert (msg_size m < zlen msg) as HL.
  { unfold msg. destruct (Z.ltb_spec (zlen buf) (msg_size m + 1)); [|lia].
    unfold zlen at 1. rewrite length_replicate. lia. }
  destruct (@pieces_layout F m compress cm (zlen msg) Hok HL) as (wq & wa & wn & we & cm' & H).
  { intros k p Hk. by rewrite Hcm in Hk. }
  cbn zeta in H. destruct H as (Hsz & Hp & Hl). exists wq, wa, wn, we. cbn zeta.
  set (w := header_wire (wire_header m) ++ wq ++ wa ++ wn ++ we) in *.
  destruct (Hp msg eq_refl) as (msg' & -> & Hlen & Ht). cbn [on_err]. gosimp. rewrite !Z.add_0_l in *.
  pose proof (zlen_nonneg w). rewrite slice_Some by lia. gosimp. split_and!; [|done|done].
  rewrite Z.sub_0_r. change (zdrop 0 msg') with msg'. by rewrite Ht.
Qed.

(** [PackBuffer] packs the message with the rcode carried by its OPT record. *)
Definition packed_as (m : Msg) (buf : bytes) (r : res error bytes) : Prop :=
  if Compress m && isCompressible m
  then pack_body (packed_msg m) buf {| ext := None; int_ := Some ∅ |} true = r
  else pack_body (packed_msg m) buf nil_map false = r.

Lemma PackBuffer_layout {F} m buf : msg_ok m -> rcode_fits m ->
  exists wq wa wn we, let b := header_wire (wire_header (packed_msg m)) ++ wq ++ wa ++ wn ++ we in
    PackBuffer m buf = (packed_msg m, Ok b) /\ zlen b <= msg_size m /\ packed_as m buf (Ok b) /\
    forall hw, zlen hw = 12 -> @laid_out F (packed_msg m) hw wq wa wn we.
Proof.
  intros Hok Hfit. pose proof (packed_msg_ok m Hok) as Hok'.
  assert (forall cm compress b, pack_body (packed_msg m) buf cm compress = Ok b ->
    packBufferWithCompressionMap m buf cm compress = (packed_msg m, Ok b)) as Hpack.
  { intros cm compress b Eb. unfold packBufferWithCompressionMap, IsEdns0, packed_msg in *.
    destruct Hok as (_ & _ & Hr & _ & _ & _ & He & _).
    rewrite (proj2 (Z.ltb_ge _ 0)), (proj2 (Z.ltb_ge 0xFFF _)) by lia. cbn [orb].
    destruct (last_of_type TypeOPT (Extra m)) as [o|] eqn:E.
    - apply last_of_type_In in E as [Hin Hty]. rewrite Forall_forall in He. destruct (He o Hin) as (_ & Hk).
      rewrite (decide_True _ _ (Hk Hty)). by rewrite Eb.
    - destruct (Z.ltb_spec 0xF (Rcode (hdr m))); [|by rewrite Eb].
      destruct (Hfit ltac:(lia)) as [o Ho]. congruence. }
  unfold PackBuffer, packed_as. destruct (Compress m && isCompressible m).
  - destruct (@pack_body_layout F (packed_msg m) buf {| ext := None; int_ := Some ∅ |} true Hok') as (wq & wa & wn & we & E & Hsz & Hl).
    { intros k. cbn. apply lookup_empty. }
    rewrite packed_msg_size in Hsz. exists wq, wa, wn, we. split; [by apply Hpack|done].
  - destruct (@pack_body_layout F (packed_msg m) buf nil_map false Hok') as (wq & wa & wn & we & E & Hsz & Hl); [done|].
    rewrite packed_msg_size in Hsz. exists wq, wa, wn, we. split; [by apply Hpack|done].
Qed.

(** The whole of [PackBuffer]. *)
Lemma PackBuffer_ok {F} m buf : msg_ok m -> rcode_fits m ->
  exists b, PackBuffer m buf = (packed_msg m, Ok b) /\ zlen b <= msg_size m /\ packed_as m buf (Ok b) /\
    forall m0 suf, exists m', @Unpack F m0 (b ++ suf) = Ok (m', None) /\
      msg_read (packed_msg m) m' /\ Compress m' = Compress m0.
Proof.
  intros Hok Hfit. destruct (@PackBuffer_layout F m buf Hok Hfit) as (wq & wa & wn & we & E & Hsz & Hb & Hl).
  eexists. split; [exact E|]. split; [done|]. split; [done|]. intros m0 suf.
  apply Unpack_layout; [by apply packed_msg_ok|by apply packed_msg_rcode|]. apply Hl, header_wire_length.
Qed.

(** ** Theorems *)

(** C37: the header bits: the word packed for a header whose opcode has four
    bits fits 16 bits and is read back as the same flags, opcode and low rcode;
    conversely every 16-bit word is the word of the header read from it. *)
Theorem header_bits_bijective h dh :
  0 <= Opcode h < 16 -> u16 (Bits dh) ->
  u16 (msg_bits h) /\
  setHdr (MkWireHeader (Id h) (msg_bits h) 0 0 0 0) = set_Rcode (Z.land (Rcode h) 0xF) h /\
  msg_bits (setHdr dh) = Bits dh.
Proof.
  intros Hop Hb. destruct (setHdr_bits (MkWireHeader (Id h) (msg_bits h) 0 0 0 0) h) as [H1 H2]; [done..|].
  split; [done|]. split; [done|by apply bits_setHdr].
Qed.

Lemma header_bits_bijective_witness : exists h, Opcode h = 5 /\ Response h = true /\ msg_bits h = 0xA803 /\
  setHdr (MkWireHeader (Id h) (msg_bits h) 0 0 0 0) = h.
Proof.
  set (h := MkMsgHdr 9 true 5 false false false false false false false 3).
  exists h. split_and!; [done..|].
  destruct (header_bits_bijective h (MkWireHeader 0 0 0 0 0 0)) as (_ & -> & _); done.
Defined.

(** C1: packing a well-formed message always succeeds, whatever buffer it is
    given: compressed or not, the result is at most the length [Len] computes
    without compression, and [Unpack] of it, also with other bytes after it and
    whatever the receiver held, gives the message back: the same header with
    the full twelve-bit rcode, questions and records.  The records have their
    length field set; fields the wire does not carry are zero.  The receiver of
    [PackBuffer] only changes in the extended rcode of its OPT record. *)
Theorem Pack_Unpack {F} m buf :
  msg_ok m -> rcode_fits m ->
  exists b n c, PackBuffer m buf = (packed_msg m, Ok b) /\
    msgLenWithCompressionMap m None = Ok (n, c) /\ zlen b <= n /\
    forall m0 suf, exists m', @Unpack F m0 (b ++ suf) = Ok (m', None) /\
      msg_read (packed_msg m) m' /\ Compress m' = Compress m0.
Proof.
  intros Hok Hfit. destruct (@PackBuffer_ok F m buf Hok Hfit) as (b & E & Hsz & _ & Hun).
  exists b, (msg_size m), None. by rewrite msg_len_ok.
Qed.

Definition example_msg : Msg :=
  MkMsg (MkMsgHdr 4660 true 0 true false true true false false false 16) true
    [MkQuestion (bs "a.b.") 1 1]
    [MkRR (MkHeader (bs "a.b.") 1 1 300 0) RR_A [V_str (map byte_of [192; 0; 2; 1])];
     MkRR (MkHeader (bs "a.b.") 15 1 300 0) RR_MX [V_int 10; V_str (bs "m.b.")]]
    []
    [MkRR (MkHeader (bs ".") 41 1232 0 0) RR_OPT [V_opts []]].

Lemma example_msg_ok : msg_ok example_msg.
Proof.
  assert (good_name (bs "a.b.")) as Hab.
  { exists [bs "a"; bs "b"]. split; [|done]. split; [by repeat apply Forall_cons_2|done]. }
  assert (good_name (bs "m.b.")) as Hmb.
  { exists [bs "m"; bs "b"]. split; [|done]. split; [by repeat apply Forall_cons_2|done]. }
  assert (good_name (bs ".")) as Hroot.
  { exists []. split; [|done]. split; [constructor|]. done. }
  do 3 (split; [done|]). split; [|split; [|split; [constructor|split; [|done]]]].
  - repeat constructor; done.
  - repeat apply Forall_cons_2; [| |constructor].
    + split; [by split|]. split; [by right|]. split; [repeat (constructor; try done)|by vm_compute].
    + split; [by split|]. split; [by right|]. split; [repeat (constructor; try done)|by vm_compute].
  - apply Forall_cons_2; [|constructor]. split; [|done]. split; [by split|]. split; [by right|]. split; [repeat (constructor; try done)|by vm_compute].
Qed.

Lemma example_msg_len : msgLenWithCompressionMap example_msg None = Ok (73, None).
Proof. vm_compute. reflexivity. Qed.

Lemma Pack_Unpack_witness : exists b, PackBuffer example_msg [] = (packed_msg example_msg, Ok b) /\ zlen b <= 73.
Proof.
  destruct (@Pack_Unpack error example_msg [] example_msg_ok) as (b & n & c & H1 & H2 & H3 & _).
  { intros _. by eexists. }
  exists b. split; [exact H1|]. rewrite example_msg_len in H2. assert (n = 73) as -> by congruence. exact H3.
Defined.
