(* ===== verification/Safety.v ===== *)
(** * Unpacking is safe on every input

    The decoders never panic and always return: field by field, for whole
    resource data, records and messages. *)

From S2P Require Import Prelude Go Utf8 Labels Escape Names NameDecode NameEncode NameLen Wire Codec NameCarry Text Nsec Encodings Apl Edns Svcb RData RDataCarry RR RRCarry Msg MsgCarry.

(** An unpacker called inside the message returns, with an offset between the
    one it was given and the end, and a value satisfying [P]. *)
Definition safe {A} (P : A -> Prop) (up : unpacker A) : Prop :=
  forall msg off, 0 <= off <= zlen msg ->
    ensures (up msg off) (fun '(v, o) => off <= o <= zlen msg /\ P v) (fun _ => True).

(** The same, and the offset advances. *)
Definition advances {A} (P : A -> Prop) (up : unpacker A) : Prop :=
  forall msg off, 0 <= off <= zlen msg ->
    ensures (up msg off) (fun '(v, o) => off < o <= zlen msg /\ P v) (fun _ => True).

Lemma advances_safe {A} (P : A -> Prop) up : advances P up -> safe P up.
Proof. intros H msg off Ho. eapply ensures_mono; [by apply H| |done]. intros [v o] [? ?]. split; [lia|done]. Qed.

Lemma advances_at_len {A} (P : A -> Prop) up : advances P up -> advances P (fun msg off => at_len msg (up msg off)).
Proof. intros H msg off Ho. apply ensures_on_err. by apply H. Qed.

Lemma safe_at_len {A} (P : A -> Prop) up : safe P up -> safe P (fun msg off => at_len msg (up msg off)).
Proof. intros H msg off Ho. apply ensures_on_err. by apply H. Qed.

Definition always {A} (_ : A) : Prop := True.
Definition nonneg (v : Z) : Prop := 0 <= v.

Lemma unbe_nonneg l : 0 <= unbe l.
Proof. pose proof (unbe_range l). lia. Qed.

(** The fixed-width readers: a length check and one slice. *)
Lemma read_slice {A} (P : A -> Prop) n (f : bytes -> A) e msg off :
  0 <= off -> 0 < n -> (forall w, P (f w)) ->
  ensures (if zlen msg <? off + n then fail (zlen msg) e
           else w ← index (slice msg off (off + n)); Ok (f w, off + n))
    (fun '(v, o) => off < o <= zlen msg /\ P v) (fun _ => True).
Proof.
  intros H0 Hn Hf. destruct (Z.ltb_spec (zlen msg) (off + n)); [done|].
  rewrite slice_Some by lia. gosimp. cbn. split; [lia|done].
Qed.

Lemma unpackUint8_safe : advances nonneg unpackUint8.
Proof.
  intros msg off H0. unfold unpackUint8. destruct (Z.ltb_spec (zlen msg) (off + 1)); [done|].
  destruct (zget_Some msg off) as [b ->]; [lia|]. cbn. pose proof (bval_range b). unfold nonneg. lia.
Qed.
Lemma unpackUint16_safe : advances nonneg unpackUint16.
Proof. intros msg off H0. apply (read_slice nonneg 2 unbe); [lia..|apply unbe_nonneg]. Qed.
Lemma unpackUint32_safe : advances nonneg unpackUint32.
Proof. intros msg off H0. apply (read_slice nonneg 4 unbe); [lia..|apply unbe_nonneg]. Qed.
Lemma unpackUint64_safe : advances nonneg unpackUint64.
Proof. intros msg off H0. apply (read_slice nonneg 8 unbe); [lia..|apply unbe_nonneg]. Qed.
Lemma unpackUint48_safe : advances nonneg unpackUint48.
Proof.
  intros msg off H0. unfold unpackUint48. destruct (Z.ltb_spec (zlen msg) (off + 6)); [done|].
  destruct (zget_Some msg off) as [b0 ->]; [lia|]. destruct (zget_Some msg (off + 1)) as [b1 ->]; [lia|].
  destruct (zget_Some msg (off + 2)) as [b2 ->]; [lia|]. destruct (zget_Some msg (off + 3)) as [b3 ->]; [lia|].
  destruct (zget_Some msg (off + 4)) as [b4 ->]; [lia|]. destruct (zget_Some msg (off + 5)) as [b5 ->]; [lia|].
  gosimp. cbn [ensures]. split; [lia|]. unfold nonneg.
  rewrite !Z.lor_nonneg, !Z.shiftl_nonneg. pose_lengths. lia.
Qed.
Lemma unpackDataA_safe : advances always unpackDataA.
Proof. intros msg off H0. apply (read_slice always 4 id); done || lia. Qed.
Lemma unpackDataAAAA_safe : advances always unpackDataAAAA.
Proof. intros msg off H0. apply (read_slice always 16 id); done || lia. Qed.

Lemma unpackString_safe : advances always unpackString.
Proof.
  intros msg off H0. destruct (Z.ltb_spec (zlen msg) (off + 1)) as [Hl|Hl].
  { unfold unpackString. by rewrite (proj2 (Z.ltb_lt _ _) Hl). }
  destruct (split_window msg off 1) as (pre & [|c [|]] & r & -> & Hp & H1); [lia..|zlia| |zlia]. subst off. clear H1.
  pose proof (bval_range c).
  destruct (Z.ltb_spec (zlen r) (bval c)) as [Hr|Hr].
  { unfold unpackString. cbn [app]. rewrite zget_mid. gosimp.
    rewrite (proj2 (Z.ltb_ge _ _)), (proj2 (Z.ltb_lt _ _)) by zlia. done. }
  destruct (split_window r 0 (bval c)) as (z & w & s & -> & Hz & Hw); [lia..|].
  destruct z; [|zlia]. cbn [app]. pose proof (unpackString_spec pre w s ltac:(lia)) as Hs.
  rewrite Hw, byte_of_bval in Hs. change (pre ++ c :: w ++ s) with (pre ++ (c :: w) ++ s). rewrite Hs.
  cbn [ensures]. split; [zlia|done].
Qed.

Lemma UnpackDomainName_safe : advances always UnpackDomainName.
Proof.
  intros msg off H0. eapply ensures_mono; [apply UnpackDomainName_spec; lia| |done].
  intros [s o] (ls & n & Hn & _ & _ & _). apply name_at_end in Hn. split; [lia|done].
Qed.

(** A list read up to an end inside the message. *)
Lemma unpack_until_safe {A} (up : unpacker A) P msg off end_ :
  advances P up -> 0 <= off <= zlen msg -> end_ <= zlen msg ->
  ensures (unpack_until end_ up msg off) (fun '(_, o) => off <= o <= zlen msg) (fun _ => True).
Proof.
  intros Hup Hoff Hend. unfold unpack_until.
  apply (loop_ensures (fun '(_, o) => off <= o <= zlen msg) (fun '(_, o) => Z.to_nat (zlen msg - o))).
  - intros [xs o] Ho. destruct (Z.ltb_spec o end_); cbn [negb]; [|done].
    eapply ensures_bind_via; [apply (Hup msg o); lia|]. intros [x o'] [Ho' _]. cbn. lia.
  - lia.
  - unfold zlen. lia.
Qed.

(** The rest of a field that ends at [end_]: the offset must not be past it. *)
Lemma unpack_encoded_safe ctx enc msg off end_ : 0 <= off -> off <= end_ ->
  ensures (unpack_encoded ctx enc msg off end_) (fun '(_, o) => off <= o <= zlen msg) (fun _ => True).
Proof.
  intros H0 Hend. unfold unpack_encoded. destruct (Z.ltb_spec (zlen msg) end_); [done|].
  rewrite slice_Some by lia. cbn. lia.
Qed.

Lemma unpackStringAny_safe msg off end_ : 0 <= off -> off <= end_ ->
  ensures (unpackStringAny msg off end_) (fun '(_, o) => off <= o <= zlen msg) (fun _ => True).
Proof.
  intros H0 Hend. unfold unpackStringAny. destruct (Z.ltb_spec (zlen msg) end_); [done|].
  rewrite slice_Some by lia. cbn. lia.
Qed.

Lemma opt_unpack_returns e b : returns (opt_unpack e b).
Proof.
  unfold returns.
  destruct e; cbn [opt_unpack]; unfold subnet_unpack, ul_unpack, llq_unpack, expire_unpack, keepalive_unpack,
    zoneversion_unpack; try exact I; try (repeat (case_match; try exact I)).
  unfold reporting_unpack. apply (ensures_bind_via _ _ (fun _ => True)); [|by intros []].
  apply ensures_on_err. eapply ensures_mono; [apply UnpackDomainName_spec; lia|by intros []|done].
Qed.

Lemma unpack_opt_safe : advances always unpack_opt.
Proof.
  intros msg off H0. unfold unpack_opt. destruct (Z.ltb_spec (zlen msg) (off + 4)); [done|].
  cbv zeta. rewrite (slice_Some msg off) by lia. gosimp. rewrite (slice_Some msg (off + 2)) by lia. gosimp.
  set (n := unbe _). pose proof (unbe_nonneg (ztake (off + 2 + 2 - (off + 2)) (zdrop (off + 2) msg))) as Hn. fold n in Hn.
  destruct (Z.ltb_spec (zlen msg) (off + 2 + 2 + n)); [done|]. rewrite slice_Some by lia. gosimp.
  apply ensures_bind, ensures_on_err. eapply ensures_mono; [apply opt_unpack_returns| |done].
  intros e _. cbn. split; [lia|done].
Qed.

Lemma unpackDataAplPrefix_safe : advances always unpackDataAplPrefix.
Proof.
  intros msg off H0. unfold unpackDataAplPrefix. cbv zeta.
  eapply ensures_bind_via; [apply ensures_on_err; eapply ensures_mono; [by apply unpackUint16_safe|intros ? HQ; exact HQ|done]|].
  intros [fam o1] [H1 _]. cbv beta in H1.
  eapply ensures_bind_via; [apply ensures_on_err; eapply ensures_mono; [apply unpackUint8_safe; lia|intros ? HQ; exact HQ|done]|].
  intros [pfx o2] [H2 _]. cbv beta in H2.
  eapply ensures_bind_via; [apply ensures_on_err; eapply ensures_mono; [apply unpackUint8_safe; lia|intros ? HQ; exact HQ|done]|].
  intros [nlen o3] [H3 Hnl]. cbv beta in H3, Hnl.
  eapply (ensures_bind_via _ _ (fun size => size = 4 \/ size = 16)).
  { destruct (_ =? 1); [by left|]. destruct (_ =? 2); [by right|done]. }
  intros size Hsize. destruct (8 * size <? pfx); [done|].
  assert (0 <= Z.land nlen 127) as Hafd by (apply Z.land_nonneg; lia). set (afd := Z.land nlen 127) in *.
  destruct (Z.ltb_spec size afd); [done|]. destruct (Z.ltb_spec (zlen msg) (o3 + afd)); [done|].
  destruct (slice_exists msg o3 (o3 + afd)) as (a & -> & Ha); [lia..|]. gosimp.
  eapply (ensures_bind_via _ _ (fun _ => True)).
  { destruct (Z.ltb_spec 0 afd); [|done].
    destruct (zget_Some (a ++ replicate (Z.to_nat (size - afd)) x00) (afd - 1)) as [b ->]; [|done].
    rewrite zlen_app. pose_lengths. lia. }
  intros [|] _; [done|]. cbn. split; [lia|done].
Qed.

(** ** Resource data *)

Definition nonneg_val (v : fval) : Prop := match v with V_int i => 0 <= i | _ => True end.

(** Wrapping the value a reader returns. *)
Lemma ensures_wrap {A} (f : A -> fval) (r : wire (A * Z)) off L (P : A -> Prop) :
  ensures r (fun '(a, o) => off <= o <= L /\ P a) (fun _ => True) -> (forall a, P a -> nonneg_val (f a)) ->
  ensures ('(a, o) ← r; Ok (f a, o) : wire (fval * Z)) (fun '(v, o) => off <= o <= L /\ nonneg_val v) (fun _ => True).
Proof.
  intros H Hf. eapply ensures_bind_via; [exact H|]. intros [a o] [Ho Ha]. cbn. split; [done|by apply Hf].
Qed.

Lemma ensures_any {A} (r : wire (A * Z)) off L :
  ensures r (fun '(_, o) => off <= o <= L) (fun _ => True) ->
  ensures r (fun '(a, o) => off <= o <= L /\ always a) (fun _ => True).
Proof. intros H. eapply ensures_mono; [exact H| |done]. by intros [a o]. Qed.

Lemma unpackIPSECGateway_safe t : safe always (unpackIPSECGateway t).
Proof.
  intros msg off H0. unfold unpackIPSECGateway.
  destruct (t =? _); [|destruct (t =? _); [|destruct (t =? _); [|cbn; split; [lia|done]]]].
  1: pose proof (unpackDataA_safe msg off H0) as H. 2: pose proof (unpackDataAAAA_safe msg off H0) as H.
  3: pose proof (UnpackDomainName_safe msg off H0) as H.
  all: eapply ensures_bind_via; [exact H|]; intros [a o] [Ho _]; cbn; split; [lia|done].
Qed.

Lemma unpack_field_safe rr t msg off :
  nonneg_members rr -> 0 <= off <= zlen msg ->
  ensures (unpack_field rr t (zlen msg) msg off) (fun '(v, o) => off <= o <= zlen msg /\ nonneg_val v) (fun _ => True).
Proof.
  intros Hrr H0. assert (forall m, 0 <= int_member rr m) as Hm by (intros m; by apply int_member_nonneg).
  assert (forall A (up : unpacker A) P (f : A -> fval), advances P up -> (forall a, P a -> nonneg_val (f a)) ->
    ensures ('(a, o) ← up msg off; Ok (f a, o) : wire (fval * Z))
      (fun '(v, o) => off <= o <= zlen msg /\ nonneg_val v) (fun _ => True)) as Hadv.
  { intros A up P f Hup Hf. eapply ensures_wrap; [|exact Hf]. by apply advances_safe. }
  assert (forall A (r : wire (A * Z)) (f : A -> fval), ensures r (fun '(_, o) => off <= o <= zlen msg) (fun _ => True) ->
    (forall a, nonneg_val (f a)) ->
    ensures ('(a, o) ← r; Ok (f a, o) : wire (fval * Z))
      (fun '(v, o) => off <= o <= zlen msg /\ nonneg_val v) (fun _ => True)) as Hany.
  { intros A r f Hr Hf. eapply ensures_wrap; [by apply ensures_any|done]. }
  destruct t; cbn [unpack_field].
  all: try (eapply Hadv; [|intros a Ha; exact Ha];
    first [apply unpackUint8_safe|apply unpackUint16_safe|apply unpackUint32_safe|apply unpackUint64_safe|apply unpackUint48_safe]).
  all: try (eapply Hadv; [|done];
    first [apply unpackString_safe|apply UnpackDomainName_safe|apply unpackDataA_safe|apply unpackDataAAAA_safe]).
  all: try (apply Hany; [|done]).
  all: try (apply unpack_encoded_safe; try specialize (Hm member); lia).
  - unfold unpackDataDomainNames. rewrite Z.ltb_irrefl.
    by apply (unpack_until_safe _ always); [apply advances_at_len, UnpackDomainName_safe| |].
  - apply ensures_on_err, (unpack_until_safe _ always); [apply unpackString_safe|done|done].
  - unfold unpackStringOctet, from. rewrite slice_Some by lia. cbn. lia.
  - apply (unpack_until_safe _ always); [apply unpack_opt_safe|done|done].
  - eapply ensures_mono; [by apply unpackDataNsec_ensures| |done]. intros [ts o] [-> _]. lia.
  - eapply ensures_mono; [by apply unpackDataSVCB_ensures| |done]. intros [ts o] [-> _]. lia.
  - apply (unpack_until_safe _ always); [apply advances_at_len, unpackDataAplPrefix_safe|done|done].
  - eapply ensures_bind_via; [by apply unpackIPSECGateway_safe|]. intros [[a h] o] [Ho _]. by cbn.
Qed.

Lemma unpack_fields_safe name fs : forall rr msg off,
  nonneg_members rr -> 0 <= off <= zlen msg ->
  ensures (unpack_fields name rr fs (zlen msg) msg off) (fun '(_, o) => off <= o <= zlen msg) (fun _ => True).
Proof.
  induction fs as [|[n t] fs IH]; intros rr msg off Hrr H0; cbn [unpack_fields]; [cbn; lia|].
  eapply ensures_bind_via; [apply ensures_on_err; by apply unpack_field_safe|]. intros [v o] [Ho Hv]. cbv beta.
  destruct (_ && _ && _); [cbn; lia|].
  eapply ensures_bind_via; [apply IH; [|lia]|intros [vs o'] Ho'; cbn; lia].
  apply Forall_app. split; [done|]. constructor; [exact Hv|constructor].
Qed.

(** ** Records and messages *)

Lemma unpackHeader_safe msg off : 0 <= off <= zlen msg ->
  ensures (unpackHeader msg off)
    (fun '(h, o, msg') => off <= o <= zlen msg' /\ zlen msg' <= zlen msg /\ 0 <= Rdlength h /\
       (off = zlen msg -> Rdlength h = 0) /\ (off < zlen msg -> off < o /\ zlen msg' = o + Rdlength h))
    (fun _ => True).
Proof.
  intros H0. unfold unpackHeader. destruct (Z.eqb_spec off (zlen msg)) as [->|].
  { cbn. split_and!; lia. }
  apply ensures_on_err.
  eapply ensures_bind_via; [by apply UnpackDomainName_safe|]. intros [name o1] [H1 _].
  eapply ensures_bind_via; [apply unpackUint16_safe; lia|]. intros [ty o2] [H2 _].
  eapply ensures_bind_via; [apply unpackUint16_safe; lia|]. intros [cl o3] [H3 _].
  eapply ensures_bind_via; [apply unpackUint32_safe; lia|]. intros [ttl o4] [H4 _].
  eapply ensures_bind_via; [apply unpackUint16_safe; lia|]. intros [len o5] [H5 Hn]. unfold nonneg in Hn.
  unfold truncateMsgFromRdlength. destruct (Z.ltb_spec (zlen msg) (o5 + len)); [done|].
  rewrite slice_Some by lia. gosimp. cbn [ensures Rdlength]. change (zdrop 0 msg) with msg.
  rewrite zlen_ztake by lia. split_and!; lia.
Qed.

Lemma UnpackRR_safe msg off : 0 <= off <= zlen msg ->
  ensures (UnpackRR msg off) (fun '(_, o) => off <= o <= zlen msg) (fun _ => True).
Proof.
  intros H0. unfold UnpackRR. eapply ensures_bind_via; [by apply unpackHeader_safe|].
  intros [[h o] msg'] (Ho & Hl & Hn & Hz0 & Hend). unfold UnpackRRWithHeader.
  destruct (Z.ltb_spec o 0); [done|]. destruct (Z.ltb_spec (zlen msg') o); [done|].
  destruct (Z.ltb_spec (o + Rdlength h) o); [done|].
  destruct (Z.ltb_spec (zlen msg') (o + Rdlength h)); [done|]. cbn [orb].
  unfold noRdata. destruct (Z.eqb_spec (Rdlength h) 0); [cbn; lia|].
  assert (zlen msg' = o + Rdlength h) as Hz by lia. rewrite <- Hz.
  eapply ensures_bind_via; [apply ensures_on_err; eapply ensures_mono;
    [apply unpack_fields_safe; [constructor|lia]|intros ? HQ; exact HQ|done]|].
  intros [vs o'] Ho'. cbv beta in Ho'. destruct (o' =? zlen msg'); cbn; lia || done.
Qed.

(** ** Types *)

(** The values of the Go type of a field. *)
Definition has_type (t : ftag) (v : fval) : Prop :=
  match t, v with
  | F_uint8, V_int i => u8 i
  | F_uint16, V_int i => u16 i
  | F_uint32, V_int i => u32 i
  | F_uint64, V_int i => u64 i
  | F_uint48, V_int i => u48 i
  | (F_string | F_cname | F_name | F_a | F_aaaa | F_octet | F_any | F_hex | F_base64 | F_size_hex _ | F_salt _
     | F_size_base64 _ | F_size_base32 _), V_str _ => True
  | (F_names | F_txts), V_strs _ => True
  | F_opt, V_opts _ => True
  | F_nsec, V_types _ => True
  | F_pairs, V_pairs _ => True
  | F_apl, V_apl _ => True
  | F_gateway _, V_gateway _ _ => True
  | _, _ => False
  end.

Definition typed_header (h : RR_Header) : Prop :=
  u16 (Rrtype h) /\ u16 (Class_ h) /\ u32 (Ttl h) /\ u16 (Rdlength h).

(** A record is stored in the struct of its type, with values of its fields' types. *)
Definition typed_rr (rr : RR) : Prop :=
  typed_header (Hdr rr) /\ struct rr = default RR_RFC3597 (TypeToRR (Rrtype (Hdr rr))) /\
  Forall2 (fun f v => has_type f.2 v) (fields (struct rr)) (data rr).

Definition typed_question (q : Question) : Prop := u16 (Qtype q) /\ u16 (Qclass q).

Definition typed_msg (m : Msg) : Prop :=
  Forall typed_question (Question_ m) /\ Forall typed_rr (Answer m) /\ Forall typed_rr (Ns m) /\
  Forall typed_rr (Extra m).

Lemma slice_unbe msg off n w : 0 <= n -> slice msg off (off + n) = Some w -> 0 <= unbe w < 256 ^ n.
Proof.
  intros Hn H. apply slice_inv in H as (_ & _ & Hl & _). pose proof (unbe_range w) as Hr.
  replace (zlen w) with n in Hr by lia. exact Hr.
Qed.

Lemma zero_typed t : has_type t (zero t).
Proof. destruct t; cbn; unfold u8, u16, u32, u48, u64; done || lia. Qed.

Lemma read_range n e msg off v o : 0 <= n ->
  (if zlen msg <? off + n then fail (zlen msg) e
   else w ← index (slice msg off (off + n)); Ok (unbe w, off + n)) = Ok (v, o) -> 0 <= v < 256 ^ n.
Proof. intros Hn H. case_match; [done|]. inv_bind H. injection H as <- _. by eapply slice_unbe. Qed.

Lemma unpackUint8_range msg off v o : unpackUint8 msg off = Ok (v, o) -> u8 v.
Proof. unfold unpackUint8. intros H. case_match; [done|]. inv_bind H. injection H as <- _. apply bval_range. Qed.

Lemma unpackUint48_range msg off v o : unpackUint48 msg off = Ok (v, o) -> u48 v.
Proof.
  unfold unpackUint48. intros H. case_match; [done|]. do 6 inv_bind H. injection H as <- _.
  rewrite uint48_lor. exact (unbe_range [a; a0; a1; a2; a3; a4]).
Qed.

Lemma unpack_field_typed rr t end_ msg off v o : unpack_field rr t end_ msg off = Ok (v, o) -> has_type t v.
Proof.
  destruct t; cbn [unpack_field]; intros H; inv_bind H; destruct a as [a o']; try (destruct a as [? ?]);
    injection H as <- <-; try exact I; cbn [has_type].
  - by eapply unpackUint8_range.
  - by apply (read_range 2) in Ha.
  - by apply (read_range 4) in Ha.
  - by apply (read_range 8) in Ha.
  - by eapply unpackUint48_range.
Qed.

Lemma zeros_typed fs : Forall2 (fun f v => has_type f.2 v) fs (map (fun f : String.string * ftag => zero f.2) fs).
Proof. induction fs; constructor; [apply zero_typed|done]. Qed.

Lemma unpack_fields_typed name fs : forall rr end_ msg off vs o,
  unpack_fields name rr fs end_ msg off = Ok (vs, o) -> Forall2 (fun f v => has_type f.2 v) fs vs.
Proof.
  induction fs as [|[n t] fs IH]; intros rr end_ msg off vs o H; cbn [unpack_fields] in H.
  - injection H as <- _. constructor.
  - inv_bind H. destruct a as [v o']. apply unpack_field_typed in Ha.
    destruct (_ && _ && _); [injection H as <- _; constructor; [done|apply zeros_typed]|].
    inv_bind H. destruct a as [vs' o'']. injection H as <- _. constructor; [done|by eapply IH].
Qed.

Lemma unpackHeader_typed msg off h o msg' : unpackHeader msg off = Ok (h, o, msg') -> typed_header h.
Proof.
  unfold unpackHeader, at_len. intros H. case_match.
  { injection H as <- _ _. done. }
  apply on_err_Ok in H. inv_bind H. destruct a as [name o1]. inv_bind H. destruct a as [ty o2].
  inv_bind H. destruct a as [cl o3]. inv_bind H. destruct a as [ttl o4]. inv_bind H. destruct a as [n o5].
  inv_bind H. injection H as <- _ _.
  apply (read_range 2) in Ha0, Ha1, Ha3; [|done..]. by apply (read_range 4) in Ha2.
Qed.

Lemma UnpackRRWithHeader_typed h msg off rr o :
  typed_header h -> UnpackRRWithHeader h msg off = Ok (rr, o) -> typed_rr rr.
Proof.
  intros Hh. unfold UnpackRRWithHeader. intros H. case_match; [done|]. case_match; [done|].
  destruct (noRdata h).
  - injection H as <- _. split_and!; [done|done|apply zeros_typed].
  - inv_bind H. destruct a as [vs o']. case_match; [done|]. injection H as <- _.
    split_and!; [done|done|by eapply unpack_fields_typed].
Qed.

Lemma UnpackRR_typed msg off rr o : UnpackRR msg off = Ok (rr, o) -> typed_rr rr.
Proof.
  unfold UnpackRR. intros H. inv_bind H. destruct a as [[h o'] msg'].
  apply unpackHeader_typed in Ha. by eapply UnpackRRWithHeader_typed.
Qed.

Lemma unpackQuestion_safe : safe typed_question unpackQuestion.
Proof.
  intros msg off H0. unfold unpackQuestion.
  eapply ensures_bind_via; [apply ensures_on_err; by apply UnpackDomainName_safe|]. intros [name o1] [H1 _]. cbv beta.
  destruct (o1 =? zlen msg); [cbn; split; [lia|done]|].
  eapply ensures_bind_via; [apply ensures_on_err; eapply ensures_mono; [apply unpackUint16_ensures; lia|intros ? HQ; exact HQ|done]|].
  intros [ty o2] (H2 & Hty & Hl2). cbv beta.
  destruct (o2 =? zlen msg); [cbn; split; [lia|by split]|].
  eapply ensures_bind_via; [apply ensures_on_err; eapply ensures_mono; [apply unpackUint16_ensures; lia|intros ? HQ; exact HQ|done]|].
  intros [cl o3] (H3 & Hcl & Hl3). cbv beta. cbn. split; [lia|by split].
Qed.

Lemma UnpackRR_ok : safe typed_rr UnpackRR.
Proof.
  intros msg off H0. pose proof (UnpackRR_safe msg off H0) as Hs. pose proof (UnpackRR_typed msg off) as Ht.
  destruct (UnpackRR msg off) as [[rr o]|?| |]; cbn in *; try done. split; [done|by eapply Ht].
Qed.

(** The two counted loops return records and questions of the right types. *)
Lemma unpackRRslice_ok {F} l : forall msg off dst, 0 <= off <= zlen msg -> Forall typed_rr dst ->
  exists dst' o e, @unpackRRslice F l msg off dst = Ok (dst', o, e) /\ Forall typed_rr dst' /\ 0 <= o <= zlen msg.
Proof.
  induction l as [|l IH]; intros msg off dst H0 Hd; cbn [unpackRRslice]; [by exists dst, off, None|].
  pose proof (UnpackRR_ok msg off H0) as Hs. destruct (UnpackRR msg off) as [[rr o]|[o e]| |]; cbn in Hs; try done; cbn [attempt]; gosimp.
  - destruct Hs as [Ho Hrr]. destruct (Z.eqb_spec off o); [exists dst, o, None; split_and!; [done|done|lia|lia]|].
    apply IH; [lia|]. apply Forall_app. split; [done|by constructor].
  - exists [], (zlen msg), (Some e). split_and!; [done|constructor|lia|lia].
Qed.

Lemma unpack_questions_ok {F} l : forall msg off qs, 0 <= off <= zlen msg -> Forall typed_question qs ->
  exists qs' o e, @unpack_questions F l msg off qs = Ok (qs', o, e) /\ Forall typed_question qs' /\
    (e = None -> 0 <= o <= zlen msg).
Proof.
  induction l as [|l IH]; intros msg off qs H0 Hd; cbn [unpack_questions]; [by exists qs, off, None|].
  pose proof (unpackQuestion_safe msg off H0) as Hs.
  destruct (unpackQuestion msg off) as [[q o]|[o e]| |]; cbn in Hs; try done; cbn [attempt]; gosimp.
  - destruct Hs as [Ho Hrr]. destruct (Z.eqb_spec off o); [exists qs, o, None; split_and!; [done|done|lia]|].
    apply IH; [lia|]. apply Forall_app. split; [done|by constructor].
  - exists qs, o, (Some e). done.
Qed.

Lemma next_section_ok {F} l msg st old :
  (let '(_, o, _) := st in 0 <= o <= zlen msg) -> Forall typed_rr old ->
  exists st', @next_section F l msg st old = Ok st' /\ Forall typed_rr st'.1.1 /\ 0 <= st'.1.2 <= zlen msg.
Proof.
  destruct st as [[dst o] [e|]]; intros Ho Hold; cbn [next_section].
  - by eexists.
  - destruct (@unpackRRslice_ok F (Z.to_nat l) msg o []) as (dst' & o' & e & -> & ?); [done|constructor|]. by eexists.
Qed.

Lemma IsEdns0_typed {E} m : Forall typed_rr (Extra m) -> exists o, @IsEdns0 E m = Ok o.
Proof.
  intros He. unfold IsEdns0. destruct (last_of_type TypeOPT (Extra m)) as [r|] eqn:E'; [|by eexists].
  apply last_of_type_In in E' as [Hin Hty]. rewrite Forall_forall in He. destruct (He r Hin) as (_ & Hk & _).
  rewrite Hty, TypeToRR_OPT in Hk. cbn in Hk. rewrite decide_True by done. by eexists.
Qed.

Lemma set_extended_rcode_ok {F} m : Forall typed_rr (Extra m) ->
  exists h, @set_extended_rcode F m = Ok (set_hdr h m).
Proof.
  intros He. unfold set_extended_rcode. destruct (@IsEdns0_typed F m He) as [[o|] ->]; gosimp; [by eexists|].
  exists (hdr m). by destruct m.
Qed.

Lemma unpack_ok {F} m dh msg off : typed_msg m -> 0 <= off <= zlen msg ->
  exists m' e, @unpack F m dh msg off = Ok (m', e) /\ typed_msg m'.
Proof.
  intros (Hq & Ha & Hn & He) H0. unfold unpack. destruct (off =? zlen msg).
  { by eexists _, _. }
  destruct (@unpack_questions_ok F (Z.to_nat (Qdcount dh)) msg off []) as (qs & o & e & -> & Hqs & Ho); [done|constructor|].
  gosimp. destruct e as [e|]; [by eexists _, _|]. specialize (Ho eq_refl).
  destruct (@unpackRRslice_ok F (Z.to_nat (Ancount dh)) msg o []) as (an & o1 & e1 & -> & Han & Ho1); [done|constructor|]. gosimp.
  destruct (@next_section_ok F (Nscount dh) msg (an, o1, e1) (Ns m)) as (ns & E2 & Hns & Ho2); [done|done|].
  cbn [Ns set_Question]. rewrite E2. gosimp.
  destruct (@next_section_ok F (Arcount dh) msg ns (Extra m)) as (ar & E3 & Har & Ho3); [by destruct ns as [[? ?] ?]|done|].
  cbn [Extra set_Question]. rewrite E3. gosimp. cbn [fst].
  destruct (@set_extended_rcode_ok F (MkMsg (hdr (set_Question qs m)) (Compress (set_Question qs m)) qs an ns.1.1 ar.1.1)) as [h ->]; [done|].
  gosimp. by eexists _, _.
Qed.

Lemma unpackMsgHdr_safe msg :
  ensures (unpackMsgHdr msg 0) (fun '(dh, o) => o = 12 /\ 12 <= zlen msg /\ header_u16 dh) (fun _ => zlen msg < 12).
Proof.
  assert (forall off ctx, 0 <= off <= 10 -> ensures (on_err (in_context ctx) (unpackUint16 msg off))
    (fun '(v, o) => o = off + 2 /\ u16 v /\ o <= zlen msg) (fun _ => zlen msg < 12)) as H.
  { intros off ctx H0. apply ensures_on_err. unfold unpackUint16. destruct (Z.ltb_spec (zlen msg) (off + 2)); [cbn; lia|].
    rewrite slice_Some by lia. gosimp. cbn [ensures]. split; [done|]. split; [|lia]. unfold u16.
    pose proof (unbe_range (ztake (off + 2 - off) (zdrop off msg))) as Hr.
    rewrite zlen_ztake in Hr by (rewrite zlen_zdrop; lia). replace (off + 2 - off) with 2 in * by lia. exact Hr. }
  unfold unpackMsgHdr.
  do 6 (eapply ensures_bind_via; [apply H; lia|]; intros [? ?] (-> & ? & ?); cbv beta). cbn. by split_and!.
Qed.

Lemma Unpack_ok {F} m0 msg : typed_msg m0 -> exists m e, @Unpack F m0 msg = Ok (m, e) /\ typed_msg m.
Proof.
  intros Hm. unfold Unpack.
  pose proof (unpackMsgHdr_safe msg) as Hh.
  destruct (unpackMsgHdr msg 0) as [[dh o]|[o e]| |]; cbn in Hh; try done; cbn [attempt]; gosimp.
  - apply unpack_ok; [done|lia].
  - by eexists _, _.
Qed.

(** ** Theorems *)

(** C2: [Unpack] is total: for every sequence of bytes and every receiver it
    returns, without panic, a message and possibly an error; every record of
    the message is stored in the struct [TypeToRR] gives its type, and every
    field holds a value of its Go type. *)
Theorem Unpack_total {F} m0 msg :
  typed_msg m0 -> exists m e, @Unpack F m0 msg = Ok (m, e) /\ typed_msg m.
Proof. apply Unpack_ok. Qed.

Definition empty_msg : Msg := MkMsg (MkMsgHdr 0 false 0 false false false false false false false 0) false [] [] [] [].

Lemma Unpack_total_witness : typed_msg empty_msg /\
  exists m, @Unpack error empty_msg (map byte_of [0;1; 0;0; 0;1; 0;0; 0;0; 0;0; 192]) = Ok (m, Some (Errorf "bad question name" ErrBuf)).
Proof.
  assert (typed_msg empty_msg) as H by (by split_and!). split; [exact H|].
  destruct (@Unpack_total error empty_msg (map byte_of [0;1; 0;0; 0;1; 0;0; 0;0; 0;0; 192]) H) as (m & e & E & _).
  exists m. rewrite E. vm_compute in E. by injection E as _ <-.
Defined.

(** The exported [UnpackRRWithHeader] relies on its caller having cut the
    message: a DS record announced with one octet of data, in a longer message,
    makes it slice [msg[4:1]] and panic. *)
Theorem UnpackRRWithHeader_panics :
  UnpackRRWithHeader (MkHeader (bs ".") 43 1 0 1) (replicate 8 x00) 0 = Panic.
Proof. vm_compute. reflexivity. Qed.
