(* ===== verification/Mux.v ===== *)
(** * serve_mux.go: the request multiplexer

    A [ServeMux] is a nil or allocated map from canonical names to handlers;
    each method runs under the mutex and is one step here.  The specification is
    the history of registrations: [ServeMux] refines a table where the last
    registration of a name counts, looked up at the closest enclosing zone. *)

From S2P Require Import Prelude Go Utf8 Labels.

Definition TypeDS : Z := 43.

Section ServeMux.
Context {Handler : Type}.

Record ServeMux := MkServeMux { z : option (gmap bytes Handler) }.

Definition NewServeMux : ServeMux := MkServeMux None.

(** The loop of [match] over the labels of [q]: a handler that is returned at
    once, or the last one seen. *)
Definition match_loop (m : gmap bytes Handler) (q : bytes) (t : Z) : res error (Handler + option Handler) :=
  loop (S (length q)) (fun '(off, handler) =>
    key ← index (from q off);
    match m !! key, negb (t =? TypeDS) with
    | Some h, true => Ok (inr (inl h))
    | found, _ =>
        let handler := match found with Some h => Some h | None => handler end in
        '(off, end_) ← NextLabel q off;
        if end_ : bool then Ok (inr (inr handler)) else Ok (inl (off, handler))
    end) (0, None).

Definition match_ (mux : ServeMux) (q : bytes) (t : Z) : res error (option Handler) :=
  match z mux with
  | None => Ok None
  | Some m =>
      r ← match_loop m (CanonicalName q) t;
      match r with
      | inl h => Ok (Some h)
      | inr handler =>
          match m !! [ch_dot] with
          | Some h => Ok (Some h)
          | None => Ok handler
          end
      end
  end.

Definition Handle (pattern : bytes) (handler : Handler) (mux : ServeMux) : res error ServeMux :=
  if decide (pattern = []) then Panic else
  let m := default ∅ (z mux) in
  Ok (MkServeMux (Some (<[CanonicalName pattern := handler]> m))).

Definition HandleRemove (pattern : bytes) (mux : ServeMux) : res error ServeMux :=
  if decide (pattern = []) then Panic else
  Ok (MkServeMux (delete (CanonicalName pattern) <$> z mux)).

(** ** Specification *)

(** What was called on the multiplexer, the last call first. *)
Inductive registration :=
| Add (pattern : bytes) (handler : Handler)
| Remove (pattern : bytes).

Definition pattern_of (r : registration) : bytes :=
  match r with Add p _ | Remove p => p end.

Definition apply_registration (r : registration) (mux : ServeMux) : res error ServeMux :=
  match r with Add p h => Handle p h mux | Remove p => HandleRemove p mux end.

Definition run (ops : list registration) : res error ServeMux :=
  foldr (fun op mux => mux ← mux; apply_registration op mux) (Ok NewServeMux) ops.

(** The handler of a canonical name: the last call about that name counts. *)
Fixpoint registered (ops : list registration) (n : bytes) : option Handler :=
  match ops with
  | [] => None
  | op :: ops =>
      if decide (CanonicalName (pattern_of op) = n)
      then match op with Add _ h => Some h | Remove _ => None end
      else registered ops n
  end.

(** The choice among them: the closest, and the root as a last resort; for DS
    the root when it is registered, otherwise the farthest. *)
Definition dispatch (reg : bytes -> option Handler) (q : bytes) (t : Z) : option Handler :=
  let found := omap reg (enclosing (segs false (CanonicalName q))) in
  if t =? TypeDS then match reg [ch_dot] with Some h => Some h | None => last found end
  else match head found with Some h => Some h | None => reg [ch_dot] end.

(** ** The loop *)

(** What the loop does with the names, in order. *)
Fixpoint scan (m : gmap bytes Handler) (t : Z) (names : list bytes) (handler : option Handler)
    : Handler + option Handler :=
  match names with
  | [] => inr handler
  | n :: names =>
      match m !! n with
      | Some h => if t =? TypeDS then scan m t names (Some h) else inl h
      | None => scan m t names handler
      end
  end.

Lemma match_loop_scan m q t : forall starts off handler names fuel,
  q <> [] -> 0 <= off < zlen q -> starts = starts_from q off (Z.to_nat (zlen q - 1 - off)) ->
  map (from q) (off :: starts) = map Some names -> (length starts < fuel)%nat ->
  loop fuel (fun '(off, handler) =>
    key ← index (from q off);
    match m !! key, negb (t =? TypeDS) with
    | Some h, true => Ok (inr (inl h))
    | found, _ =>
        let handler := match found with Some h => Some h | None => handler end in
        '(off, end_) ← NextLabel q off;
        if end_ : bool then Ok (inr (inr handler)) else Ok (inl (off, handler))
    end) (off, handler) = @Ok error _ (scan m t names handler).
Proof.
  induction starts as [|o starts IH]; intros off handler names fuel Hq Hoff Hst Hn Hf;
    (destruct fuel as [|fuel]; [cbn in Hf; lia|]); cbn [map] in Hn;
    (destruct names as [|n names]; [done|]); injection Hn as Hkey Hn; cbn [loop scan]; rewrite Hkey; gosimp;
    rewrite NextLabel_starts, <- Hst by done.
  - destruct names; [|done].
    destruct (m !! n) as [h|], (t =? TypeDS); cbn [negb scan]; done.
  - destruct (starts_from_step q off o starts) as [Ho Hr]; [done..|].
    destruct (m !! n) as [h|], (t =? TypeDS); cbn [negb]; gosimp; try done;
      apply IH; (done || lia || (cbn in Hf; lia)).
Qed.

Lemma scan_spec m t names handler : scan m t names handler =
  if t =? TypeDS then inr (match last (omap (m !!.) names) with Some h => Some h | None => handler end)
  else match head (omap (m !!.) names) with Some h => inl h | None => inr handler end.
Proof.
  revert handler. induction names as [|n names IH]; intros handler; cbn [scan omap list_omap]; [by destruct (t =? TypeDS)|].
  destruct (m !! n) as [h|]; [|apply IH]. rewrite IH. destruct (t =? TypeDS); [|done]. f_equal.
  change (omap (m !!.) names) with (list_omap _ _ (m !!.) names).
  destruct (list_omap _ _ (m !!.) names) as [|h' l] eqn:E; [done|]. cbn [last].
  destruct (last (h' :: l)) eqn:El; [done|]. by apply last_None in El.
Qed.

Lemma match_loop_spec m q t : match_loop m q t = Ok (scan m t (enclosing (segs false q)) None).
Proof.
  unfold match_loop. destruct (decide (q = [])) as [->|Hq].
  { cbn [length loop segs enclosing concat scan app]. change (from [] 0) with (Some (@nil byte)). gosimp.
    by destruct (m !! []), (t =? TypeDS). }
  apply match_loop_scan with (starts := starts_from q 0 (Z.to_nat (zlen q - 1 - 0))); [done| |done| |].
  - destruct q; [done|]. zlia.
  - rewrite <- label_names. unfold label_starts. unfold zlen. do 3 f_equal. lia.
  - by apply starts_from_fuel.
Qed.

(** [match] on a map is the choice of the specification. *)
Lemma match_dispatch mux q t m : z mux = Some m -> match_ mux q t = Ok (dispatch (m !!.) q t).
Proof.
  intros Hz. unfold match_, dispatch. rewrite Hz, match_loop_spec, scan_spec. gosimp.
  destruct (t =? TypeDS).
  - destruct (m !! [ch_dot]); [done|]. by destruct (last _).
  - destruct (head _); [done|]. by destruct (m !! [ch_dot]).
Qed.

Lemma dispatch_ext f g q t : (forall n, f n = g n) -> dispatch f q t = dispatch g q t.
Proof.
  intros H. unfold dispatch. rewrite H.
  assert (omap f (enclosing (segs false (CanonicalName q))) = omap g (enclosing (segs false (CanonicalName q)))) as ->; [|done].
  generalize (enclosing (segs false (CanonicalName q))). intros l. induction l as [|n l IH]; [done|].
  change (match f n with Some y => y :: omap f l | None => omap f l end = match g n with Some y => y :: omap g l | None => omap g l end).
  by rewrite IH, H.
Qed.

Lemma dispatch_none f q t : (forall n, f n = None) -> dispatch f q t = None.
Proof.
  intros H. unfold dispatch. rewrite H.
  assert (omap f (enclosing (segs false (CanonicalName q))) = []) as ->; [|by destruct (t =? TypeDS)].
  generalize (enclosing (segs false (CanonicalName q))). intros l. induction l as [|n l IH]; [done|].
  change (match f n with Some y => y :: omap f l | None => omap f l end = []). by rewrite H.
Qed.

(** The multiplexer after a history holds the registered handlers. *)
Lemma run_registered ops : Forall (fun o => pattern_of o <> []) ops ->
  exists mux, run ops = Ok mux /\ forall n, default ∅ (z mux) !! n = registered ops n.
Proof.
  induction 1 as [|op ops Hp _ (mux & E & IH)]; cbn [run foldr registered].
  { exists NewServeMux. split; [done|]. intros n. apply lookup_empty. }
  fold (run ops). rewrite E. gosimp. destruct op as [p h|p]; cbn [apply_registration pattern_of] in *.
  - unfold Handle. rewrite decide_False by done. eexists. split; [done|]. intros n. cbn [z from_option id].
    case_decide as Hn; [subst n; apply lookup_insert_eq|]. rewrite lookup_insert_ne by done. apply IH.
  - unfold HandleRemove. rewrite decide_False by done. eexists. split; [done|]. intros n. cbn [z].
    case_decide as Hn.
    + subst n. destruct (z mux); cbn; [apply lookup_delete_eq|apply lookup_empty].
    + rewrite <- IH. destruct (z mux) as [m|]; cbn; [by apply lookup_delete_ne|done].
Qed.

(** ** Theorems *)

(** C33: the multiplexer refines the history of its registrations: after any
    calls of [Handle] and [HandleRemove] with non-empty patterns, [match]
    returns for every name and type, without panic, the handler registered
    last for the closest enclosing zone (names compared in canonical form, label
    by label), the root's as a last resort; for DS the root's if there is one,
    otherwise the farthest enclosing zone's, where the comment of [ServeMux]
    promises the parent zone's; nil when no zone is registered. *)
Theorem ServeMux_refines ops : Forall (fun o => pattern_of o <> []) ops ->
  exists mux, run ops = Ok mux /\ forall q t, match_ mux q t = Ok (dispatch (registered ops) q t).
Proof.
  intros Hops. destruct (run_registered ops Hops) as (mux & E & Hreg). exists mux. split; [done|].
  intros q t. destruct (z mux) as [m|] eqn:Ez.
  - rewrite (match_dispatch mux q t m Ez). f_equal. by apply dispatch_ext.
  - unfold match_. rewrite Ez. f_equal. symmetry. apply dispatch_none. intros n. rewrite <- Hreg. apply lookup_empty.
Qed.
End ServeMux.

Lemma ServeMux_refines_witness : exists mux : ServeMux,
  run [Add (bs "B.c") 2%nat; Add (bs "c.") 1%nat] = Ok mux /\
  match_ mux (bs "a.b.C.") 1 = Ok (Some 2%nat) /\ match_ mux (bs "x.") 1 = Ok None.
Proof.
  destruct (ServeMux_refines [Add (bs "B.c") 2%nat; Add (bs "c.") 1%nat]) as (mux & E & H).
  { repeat constructor; discriminate. }
  exists mux. split; [exact E|]. rewrite !H. split; vm_compute; reflexivity.
Defined.

(** Queries for DS do not go to the parent zone when zones further up are
    registered too: with a.b.c., b.c. and c. registered the query for
    a.b.c. goes to c., and with the root registered to the root. *)
Theorem ServeMux_DS_grandparent :
  let zones := [Add (bs "a.b.c.") 3%nat; Add (bs "b.c.") 2%nat; Add (bs "c.") 1%nat] in
  (mux ← run zones; match_ mux (bs "a.b.c.") TypeDS) = Ok (Some 1%nat) /\
  (mux ← run (Add (bs ".") 0%nat :: zones); match_ mux (bs "a.b.c.") TypeDS) = Ok (Some 0%nat).
Proof. vm_compute. split; reflexivity. Qed.
