(* ===== verification/Build.v ===== *)
(** * Building messages: defaults.go and update.go

    The methods with which a user fills in a message.  Records are shared: the
    sections of a Go message are slices of pointers, and the update methods
    write through the pointers they are given.  So a message here ([PMsg]) has
    locations in its sections, the records are in a store, and [deref] is the
    message [Pack] sees.  [Id()], a random number, is an argument. *)

From S2P Require Import Prelude Go Utf8 Labels Escape Names NameDecode NameEncode NameLen Wire Codec NameCarry Text Nsec Encodings Apl Edns Svcb RData RDataCarry RR RRCarry Msg MsgCarry.

(** ** Data *)

Abbreviation loc := positive.
Abbreviation store := (gmap loc RR).

Record PMsg := MkPMsg {
  p_hdr : MsgHdr;
  p_Compress : bool;
  p_Question : list Question;
  p_Answer : list loc;
  p_Ns : list loc;
  p_Extra : list loc
}.

(** [new(Msg)]. *)
Definition zero_hdr : MsgHdr := MkMsgHdr 0 false 0 false false false false false false false 0.
Definition new_msg : PMsg := MkPMsg zero_hdr false [] [] [] [].

Definition set_p_hdr (f : MsgHdr -> MsgHdr) (m : PMsg) : PMsg :=
  MkPMsg (f (p_hdr m)) (p_Compress m) (p_Question m) (p_Answer m) (p_Ns m) (p_Extra m).
Definition set_p_Compress (c : bool) (m : PMsg) : PMsg :=
  MkPMsg (p_hdr m) c (p_Question m) (p_Answer m) (p_Ns m) (p_Extra m).
Definition set_p_Question (q : list Question) (m : PMsg) : PMsg :=
  MkPMsg (p_hdr m) (p_Compress m) q (p_Answer m) (p_Ns m) (p_Extra m).
Definition set_p_Answer (l : list loc) (m : PMsg) : PMsg :=
  MkPMsg (p_hdr m) (p_Compress m) (p_Question m) l (p_Ns m) (p_Extra m).
Definition set_p_Ns (l : list loc) (m : PMsg) : PMsg :=
  MkPMsg (p_hdr m) (p_Compress m) (p_Question m) (p_Answer m) l (p_Extra m).
Definition set_p_Extra (l : list loc) (m : PMsg) : PMsg :=
  MkPMsg (p_hdr m) (p_Compress m) (p_Question m) (p_Answer m) (p_Ns m) l.

(** The message behind the pointers. *)
Definition deref (st : store) (m : PMsg) : option Msg :=
  a ← mapM (st !!.) (p_Answer m);
  n ← mapM (st !!.) (p_Ns m);
  e ← mapM (st !!.) (p_Extra m);
  Some (MkMsg (p_hdr m) (p_Compress m) (p_Question m) a n e).

Definition OpcodeQuery : Z := 0.
Definition OpcodeNotify : Z := 4.
Definition OpcodeUpdate : Z := 5.
Definition RcodeSuccess : Z := 0.
Definition RcodeFormatError : Z := 1.
Definition ClassINET : Z := 1.
Definition ClassNONE : Z := 254.
Definition ClassANY : Z := 255.
Definition TypeSOA : Z := 6.
Definition TypeTSIG : Z := 250.
Definition TypeIXFR : Z := 251.
Definition TypeAXFR : Z := 252.
Definition TypeANY : Z := 255.
Definition defaultTtl : Z := 3600.

(** A message and the store of its records. *)
Definition msg_state : Type := store * PMsg.

(** ** Packing through the pointers *)

(** The OPT record [IsEdns0] points to. *)
Fixpoint opt_loc (st : store) (l : list loc) : option loc :=
  match l with
  | [] => None
  | p :: l =>
      match opt_loc st l with
      | Some q => Some q
      | None => r ← st !! p; if Rrtype (Hdr r) =? TypeOPT then Some p else None
      end
  end.

(** [opt.SetExtendedRcode(uint16(dns.Rcode))] in every place that shares the record. *)
Definition write_rcode (m : PMsg) (st : store) : store :=
  match opt_loc st (p_Extra m) with
  | Some p => alter (set_opt_rcode (Rcode (p_hdr m) mod 65536)) p st
  | None => st
  end.

(** [PackBuffer] with [packBufferWithCompressionMap] inside. *)
Definition Msg_PackBuffer (buf : bytes) (s : msg_state) : msg_state * res error bytes :=
  let '(st, m) := s in
  match deref st m with
  | None => (s, Panic)
  | Some dns =>
      let compress := Compress dns && isCompressible dns in
      let cm := if compress then {| ext := None; int_ := Some ∅ |} else nil_map in
      let rcode := Rcode (hdr dns) in
      if (rcode <? 0) || (0xFFF <? rcode) then (s, Err ErrRcode) else
      match IsEdns0 (E := error) dns with
      | Ok (Some _) =>
          let st := write_rcode m st in
          ((st, m), match deref st m with Some dns => pack_body dns buf cm compress | None => Panic end)
      | Ok None => (s, if 0xF <? rcode then Err ErrExtendedRcode else pack_body dns buf cm compress)
      | Err e => (s, Err e)
      | Panic => (s, Panic)
      | Diverge => (s, Diverge)
      end
  end.

(** ** Headers *)

(** The header part of [SetReply] and of [SetRcodeFormatError]. *)
Definition reply_hdr (request dns : MsgHdr) : MsgHdr :=
  let query := Opcode request =? OpcodeQuery in
  MkMsgHdr (Id request) true (Opcode request) (Authoritative dns) (Truncated dns)
    (if query then RecursionDesired request else RecursionDesired dns)
    (RecursionAvailable dns) (Zero dns) (AuthenticatedData dns)
    (if query then CheckingDisabled request else CheckingDisabled dns) RcodeSuccess.

Definition format_error_hdr (request dns : MsgHdr) : MsgHdr :=
  MkMsgHdr (Id request) true OpcodeQuery false (Truncated dns) (RecursionDesired dns)
    (RecursionAvailable dns) (Zero dns) (AuthenticatedData dns) (CheckingDisabled dns) RcodeFormatError.

Definition set_Id (id : Z) (h : MsgHdr) : MsgHdr :=
  MkMsgHdr id (Response h) (Opcode h) (Authoritative h) (Truncated h) (RecursionDesired h)
    (RecursionAvailable h) (Zero h) (AuthenticatedData h) (CheckingDisabled h) (Rcode h).

(** ** defaults.go *)

Definition SetReply (request dns : PMsg) : PMsg :=
  let dns := set_p_hdr (reply_hdr (p_hdr request)) dns in
  match p_Question request with
  | [] => dns
  | q :: _ => set_p_Question [q] dns
  end.

Definition SetQuestion (id : Z) (z : bytes) (t : Z) (dns : PMsg) : PMsg :=
  let rd h := MkMsgHdr id (Response h) (Opcode h) (Authoritative h) (Truncated h) true
    (RecursionAvailable h) (Zero h) (AuthenticatedData h) (CheckingDisabled h) (Rcode h) in
  set_p_Question [MkQuestion z t ClassINET] (set_p_hdr rd dns).

Definition SetNotify (id : Z) (z : bytes) (dns : PMsg) : PMsg :=
  let aa h := MkMsgHdr id (Response h) OpcodeNotify true (Truncated h) (RecursionDesired h)
    (RecursionAvailable h) (Zero h) (AuthenticatedData h) (CheckingDisabled h) (Rcode h) in
  set_p_Question [MkQuestion z TypeSOA ClassINET] (set_p_hdr aa dns).

Definition SetRcode (request : PMsg) (rcode : Z) (dns : PMsg) : PMsg :=
  set_p_hdr (set_Rcode rcode) (SetReply request dns).

Definition SetRcodeFormatError (request dns : PMsg) : PMsg :=
  set_p_hdr (format_error_hdr (p_hdr request)) dns.

Definition SetUpdate (id : Z) (z : bytes) (dns : PMsg) : PMsg :=
  let upd h := MkMsgHdr id false OpcodeUpdate (Authoritative h) (Truncated h) (RecursionDesired h)
    (RecursionAvailable h) (Zero h) (AuthenticatedData h) (CheckingDisabled h) (Rcode h) in
  set_p_Question [MkQuestion z TypeSOA ClassINET] (set_p_Compress false (set_p_hdr upd dns)).

Definition SetAxfr (id : Z) (z : bytes) (dns : PMsg) : PMsg :=
  set_p_Question [MkQuestion z TypeAXFR ClassINET] (set_p_hdr (set_Id id) dns).

(** [new(T)]. *)
Definition alloc (r : RR) (st : store) : loc * store :=
  let p := fresh (dom st) in (p, <[p := r]> st).

Definition SetIxfr (id : Z) (z : bytes) (serial : Z) (ns mbox : bytes) (s : msg_state) : msg_state :=
  let '(st, dns) := s in
  let soa := MkRR (MkHeader z TypeSOA ClassINET defaultTtl 0) RR_SOA
    [V_str ns; V_str mbox; V_int serial; V_int 0; V_int 0; V_int 0; V_int 0] in
  let '(p, st) := alloc soa st in
  (st, set_p_Ns [p] (set_p_Question [MkQuestion z TypeIXFR ClassINET] (set_p_hdr (set_Id id) dns))).

Definition SetTsig (z algo : bytes) (fudge timesigned : Z) (s : msg_state) : msg_state :=
  let '(st, dns) := s in
  let tsig := MkRR (MkHeader z TypeTSIG ClassANY 0 0) RR_TSIG
    [V_str algo; V_int (timesigned mod 2 ^ 64); V_int fudge; V_int 0; V_str []; V_int (Id (p_hdr dns));
     V_int 0; V_int 0; V_str []] in
  let '(p, st) := alloc tsig st in
  (st, set_p_Extra (p_Extra dns ++ [p]) dns).

Definition SetEdns0 (udpsize : Z) (do_ : bool) (s : msg_state) : msg_state :=
  let '(st, dns) := s in
  let e := MkRR (MkHeader [ch_dot] TypeOPT udpsize (if do_ then SetDo [] 0 else 0) 0) RR_OPT [V_opts []] in
  let '(p, st) := alloc e st in
  (st, set_p_Extra (p_Extra dns ++ [p]) dns).

(** [r.Header()]; a nil pointer panics. *)
Definition header_at (st : store) (p : loc) : res error RR_Header := index (Hdr <$> st !! p).

(** A pointer with the type assertion [rr.( *T)] when the header has type [t]. *)
Definition typed_at (st : store) (t : Z) (k : rrstruct) (p : loc) : res error bool :=
  h ← header_at st p;
  if Rrtype h =? t
  then (if decide (struct <$> st !! p = Some k) then Ok true else Panic)
  else Ok false.

Definition IsTsig (s : msg_state) : res error (option loc) :=
  match last (p_Extra s.2) with
  | None => Ok None
  | Some p => found ← typed_at s.1 TypeTSIG RR_TSIG p; Ok (if found : bool then Some p else None)
  end.

(** The loop of [popEdns0], from the end; the records after the one found. *)
Fixpoint pop_loop (st : store) (rev_extra after : list loc) : res error (option (loc * list loc)) :=
  match rev_extra with
  | [] => Ok None
  | p :: rest =>
      found ← typed_at st TypeOPT RR_OPT p;
      if found : bool then Ok (Some (p, reverse rest ++ after)) else pop_loop st rest (p :: after)
  end.

Definition popEdns0 (s : msg_state) : res error (option loc * PMsg) :=
  r ← pop_loop s.1 (reverse (p_Extra s.2)) [];
  Ok (match r with
      | Some (p, extra) => (Some p, set_p_Extra extra s.2)
      | None => (None, s.2)
      end).

Definition IsMsg (buf : bytes) : option error :=
  if zlen buf <? headerSize then Some (MkError "dns: bad message header") else None.

Definition IsRRset (rrset : list RR) : bool :=
  match rrset with
  | [] => false
  | r0 :: rest =>
      let base := Hdr r0 in
      forallb (fun rr => let cur := Hdr rr in
        negb (negb (Rrtype cur =? Rrtype base) || negb (Class_ cur =? Class_ base) ||
              negb (bool_decide (Name cur = Name base)))) rest
  end.

(** ** update.go *)

(** [append(l, &ANY{Hdr: ...})] for each record. *)
Definition append_any (h : RR_Header -> RR_Header) (sl : store * list loc) (r : loc) : res error (store * list loc) :=
  let '(st, l) := sl in
  hdr ← header_at st r;
  let '(p, st) := alloc (MkRR (h hdr) RR_ANY []) st in
  Ok (st, l ++ [p]).

(** The assignments through [r.Header()], then [append(l, r)]. *)
Definition append_rr (h : RR_Header -> RR_Header) (sl : store * list loc) (r : loc) : res error (store * list loc) :=
  let '(st, l) := sl in
  hdr ← header_at st r;
  Ok (alter (set_Hdr h) r st, l ++ [r]).

Definition no_rdata (rrtype class : Z) (h : RR_Header) : RR_Header := MkHeader (Name h) rrtype class 0 0.

Definition to_Answer (s : msg_state) (add : store * list loc -> res error (store * list loc)) : res error msg_state :=
  '(st, l) ← add (s.1, p_Answer s.2); Ok (st, set_p_Answer l s.2).
Definition to_Ns (s : msg_state) (add : store * list loc -> res error (store * list loc)) : res error msg_state :=
  '(st, l) ← add (s.1, p_Ns s.2); Ok (st, set_p_Ns l s.2).

Definition NameUsed (rr : list loc) (s : msg_state) : res error msg_state :=
  to_Answer s (fun sl => foldM (append_any (fun h => no_rdata TypeANY ClassANY h)) sl rr).

Definition NameNotUsed (rr : list loc) (s : msg_state) : res error msg_state :=
  to_Answer s (fun sl => foldM (append_any (fun h => no_rdata TypeANY ClassNONE h)) sl rr).

Definition Used (rr : list loc) (s : msg_state) : res error msg_state :=
  match p_Question s.2 with
  | [] => Panic
  | q :: _ => to_Answer s (fun sl => foldM (append_rr (fun h => set_Ttl 0 (set_Class (Qclass q) h))) sl rr)
  end.

Definition RRsetUsed (rr : list loc) (s : msg_state) : res error msg_state :=
  to_Answer s (fun sl => foldM (append_any (fun h => no_rdata (Rrtype h) ClassANY h)) sl rr).

Definition RRsetNotUsed (rr : list loc) (s : msg_state) : res error msg_state :=
  to_Answer s (fun sl => foldM (append_any (fun h => no_rdata (Rrtype h) ClassNONE h)) sl rr).

Definition Insert (rr : list loc) (s : msg_state) : res error msg_state :=
  match p_Question s.2 with
  | [] => Panic
  | q :: _ => to_Ns s (fun sl => foldM (append_rr (fun h => set_Class (Qclass q) h)) sl rr)
  end.

Definition RemoveRRset (rr : list loc) (s : msg_state) : res error msg_state :=
  to_Ns s (fun sl => foldM (append_any (fun h => no_rdata (Rrtype h) ClassANY h)) sl rr).

Definition RemoveName (rr : list loc) (s : msg_state) : res error msg_state :=
  to_Ns s (fun sl => foldM (append_any (fun h => no_rdata TypeANY ClassANY h)) sl rr).

Definition Remove (rr : list loc) (s : msg_state) : res error msg_state :=
  to_Ns s (fun sl => foldM (append_rr (fun h => set_Ttl 0 (set_Class ClassNONE h))) sl rr).

(** ** Specification *)

(** RFC 2136, sections 2.4 and 2.5: the record each method stands for. *)
Inductive update_op :=
| Op_NameUsed | Op_NameNotUsed | Op_Used | Op_RRsetUsed | Op_RRsetNotUsed
| Op_Insert | Op_RemoveRRset | Op_RemoveName | Op_Remove.

Definition update (op : update_op) : list loc -> msg_state -> res error msg_state :=
  match op with
  | Op_NameUsed => NameUsed | Op_NameNotUsed => NameNotUsed | Op_Used => Used
  | Op_RRsetUsed => RRsetUsed | Op_RRsetNotUsed => RRsetNotUsed | Op_Insert => Insert
  | Op_RemoveRRset => RemoveRRset | Op_RemoveName => RemoveName | Op_Remove => Remove
  end.

Definition rfc2136 (op : update_op) (zclass : Z) (r : RR) : RR :=
  let h := Hdr r in
  match op with
  | Op_NameUsed | Op_RemoveName => MkRR (MkHeader (Name h) 255 255 0 0) RR_ANY []
  | Op_NameNotUsed => MkRR (MkHeader (Name h) 255 254 0 0) RR_ANY []
  | Op_RRsetUsed | Op_RemoveRRset => MkRR (MkHeader (Name h) (Rrtype h) 255 0 0) RR_ANY []
  | Op_RRsetNotUsed => MkRR (MkHeader (Name h) (Rrtype h) 254 0 0) RR_ANY []
  | Op_Used => MkRR (MkHeader (Name h) (Rrtype h) zclass 0 (Rdlength h)) (struct r) (data r)
  | Op_Insert => MkRR (MkHeader (Name h) (Rrtype h) zclass (Ttl h) (Rdlength h)) (struct r) (data r)
  | Op_Remove => MkRR (MkHeader (Name h) (Rrtype h) 254 0 (Rdlength h)) (struct r) (data r)
  end.

(** Prerequisites go to the answer section, updates to the authority section. *)
Definition prerequisite (op : update_op) : bool :=
  match op with Op_NameUsed | Op_NameNotUsed | Op_Used | Op_RRsetUsed | Op_RRsetNotUsed => true | _ => false end.
(** The methods that write through the pointers they are given. *)
Definition in_place (op : update_op) : bool :=
  match op with Op_Used | Op_Insert | Op_Remove => true | _ => false end.
Definition needs_zone (op : update_op) : bool :=
  match op with Op_Used | Op_Insert => true | _ => false end.

Definition zone_class (m : PMsg) : Z := match p_Question m with [] => 0 | q :: _ => Qclass q end.

Definition add_locs (op : update_op) (ps : list loc) (m : PMsg) : PMsg :=
  if prerequisite op then set_p_Answer (p_Answer m ++ ps) m else set_p_Ns (p_Ns m ++ ps) m.
Definition add_rrs (op : update_op) (rs : list RR) (m : Msg) : Msg :=
  if prerequisite op then set_Answer (Answer m ++ rs) m else set_Ns (Ns m ++ rs) m.

(** The pointers [ps] lead to the records [rs]. *)
Definition points (st : store) : list loc -> list RR -> Prop := Forall2 (fun p r => st !! p = Some r).

(** ** The update methods *)

Lemma points_weaken st st' ps rs : points st ps rs ->
  (forall p r, st !! p = Some r -> p ∈ ps -> st' !! p = Some r) -> points st' ps rs.
Proof.
  induction 1 as [|p r ps rs Hp _ IH]; intros Hst; [constructor|].
  constructor; [apply Hst; [done|left]|]. apply IH. intros q x Hq Hin. apply Hst; [done|by right].
Qed.

Lemma points_mono st st' ps rs : st ⊆ st' -> points st ps rs -> points st' ps rs.
Proof. intros Hs H. eapply points_weaken; [exact H|]. intros p r Hp _. by eapply lookup_weaken. Qed.

Lemma points_In st ps rs p : points st ps rs -> p ∈ ps -> is_Some (st !! p).
Proof. induction 1 as [|q r ps rs Hq _ IH]; intros Hin; [by apply elem_of_nil in Hin|]. apply elem_of_cons in Hin as [->|Hin]; eauto. Qed.

Lemma header_at_Some st p r : st !! p = Some r -> header_at st p = Ok (Hdr r).
Proof. intros Hp. unfold header_at. by rewrite Hp. Qed.

Lemma alloc_spec r st : let '(p, st') := alloc r st in st !! p = None /\ st' = <[p := r]> st.
Proof. split; [|done]. apply not_elem_of_dom, is_fresh. Qed.

Lemma append_any_all h rr : forall st l rs, points st rr rs ->
  exists st' ps, foldM (append_any h) (st, l) rr = Ok (st', l ++ ps) /\ st ⊆ st' /\
    points st' ps (map (fun r => MkRR (h (Hdr r)) RR_ANY []) rs) /\
    (forall p r', st' !! p = Some r' -> st !! p = None -> exists r, r ∈ rs /\ r' = MkRR (h (Hdr r)) RR_ANY []).
Proof.
  induction rr as [|p rr IH]; intros st l rs H; apply Forall2_cons_inv_l in H || apply Forall2_nil_inv_l in H.
  - subst rs. exists st, []. split; [by rewrite app_nil_r|]. split; [done|]. split; [constructor|]. intros p r' H H'. congruence.
  - destruct H as (r & rs' & Hp & Hr & ->). cbn [foldM append_any]. rewrite (header_at_Some _ _ _ Hp). gosimp.
    pose proof (alloc_spec (MkRR (h (Hdr r)) RR_ANY []) st) as Ha. destruct (alloc _ st) as [q st1].
    destruct Ha as [Hq ->]. gosimp.
    set (st1 := <[q := MkRR (h (Hdr r)) RR_ANY []]> st).
    assert (st ⊆ st1) as Hs by by apply insert_subseteq.
    destruct (IH st1 (l ++ [q]) rs') as (st' & ps & E & Hs' & Hps & Hnew); [by eapply points_mono|].
    exists st', (q :: ps). rewrite E, <- app_assoc. split; [done|]. split; [by transitivity st1|].
    split; [constructor; [eapply lookup_weaken; [apply lookup_insert_eq|done]|done]|].
    intros x r' Hx Hx0. destruct (decide (q = x)) as [<-|Hne].
    + exists r. split; [left|]. pose proof (lookup_weaken _ _ _ _ (lookup_insert_eq st q (MkRR (h (Hdr r)) RR_ANY [])) Hs'). congruence.
    + destruct (Hnew x r' Hx) as (r0 & Hin & ->); [unfold st1; by rewrite lookup_insert_ne|]. exists r0. split; [by right|done].
Qed.

Lemma append_rr_all h rr : (forall x, h (h x) = h x) -> forall st l rs, points st rr rs ->
  exists st', foldM (append_rr h) (st, l) rr = Ok (st', l ++ rr) /\
    forall p, st' !! p = (if decide (p ∈ rr) then set_Hdr h <$> st !! p else st !! p).
Proof.
  intros Hh. assert (forall r, set_Hdr h (set_Hdr h r) = set_Hdr h r) as Hi by (intros []; unfold set_Hdr; cbn; by rewrite Hh).
  induction rr as [|q rr IH]; intros st l rs H.
  - exists st. cbn [foldM]. rewrite app_nil_r. split; [done|]. intros p. by rewrite decide_False by apply not_elem_of_nil.
  - apply Forall2_cons_inv_l in H as (r & rs' & Hq & Hr & ->).
    cbn [foldM append_rr]. rewrite (header_at_Some _ _ _ Hq). gosimp.
    assert (exists rs1, points (alter (set_Hdr h) q st) rr rs1) as (rs1 & Hr1).
    { clear -Hr. induction Hr as [|p x rr rs' Hp _ [rs1 IH]]; [by exists []; constructor|].
      destruct (decide (q = p)) as [<-|Hn].
      - exists (set_Hdr h x :: rs1). constructor; [by rewrite lookup_alter_eq, Hp|done].
      - exists (x :: rs1). constructor; [by rewrite lookup_alter_ne|done]. }
    destruct (IH _ (l ++ [q]) rs1 Hr1) as (st' & E & Hl). exists st'. rewrite E, <- app_assoc. split; [done|].
    intros p. rewrite Hl. destruct (decide (q = p)) as [<-|Hn].
    + rewrite lookup_alter_eq, (decide_True (P := q ∈ q :: rr)) by by left. case_decide; [|done].
      rewrite Hq. cbn. by rewrite Hi.
    + rewrite lookup_alter_ne by done. destruct (decide (p ∈ rr)).
      * by rewrite decide_True by by right.
      * rewrite decide_False; [done|]. by intros [->|?]%elem_of_cons.
Qed.

(** All nine methods at once. *)
Lemma update_ok op rr st m rs : points st rr rs -> (needs_zone op = true -> p_Question m <> []) ->
  exists st' ps, update op rr (st, m) = Ok (st', add_locs op ps m) /\
    (in_place op = true -> ps = rr) /\
    points st' ps (map (rfc2136 op (zone_class m)) rs) /\
    (forall p r, st !! p = Some r ->
       st' !! p = Some (if decide (in_place op = true /\ p ∈ rr) then rfc2136 op (zone_class m) r else r)) /\
    (forall p r', st' !! p = Some r' -> st !! p = None -> exists r, r ∈ rs /\ r' = rfc2136 op (zone_class m) r).
Proof.
  intros Hrs Hz.
  (* the three methods that write in place, the six that allocate *)
  assert (forall h l, (forall x, h (h x) = h x) -> (forall r, set_Hdr h r = rfc2136 op (zone_class m) r) -> in_place op = true ->
    exists st', foldM (append_rr h) (st, l) rr = Ok (st', l ++ rr) /\
      points st' rr (map (rfc2136 op (zone_class m)) rs) /\
      (forall p r, st !! p = Some r ->
        st' !! p = Some (if decide (in_place op = true /\ p ∈ rr) then rfc2136 op (zone_class m) r else r)) /\
      forall p r', st' !! p = Some r' -> st !! p = None -> exists r, r ∈ rs /\ r' = rfc2136 op (zone_class m) r) as Hin.
  { intros h l Hh Hspec Hop. destruct (append_rr_all h rr Hh st l rs Hrs) as (st' & E & Hl). exists st'. split; [done|].
    assert (forall p r, st !! p = Some r ->
        st' !! p = Some (if decide (in_place op = true /\ p ∈ rr) then rfc2136 op (zone_class m) r else r)) as Hp.
    { intros p r Hp. rewrite Hl, Hp. destruct (decide (p ∈ rr)); [rewrite decide_True by done; cbn; by rewrite Hspec|].
      rewrite decide_False; [done|]. by intros [_ ?]. }
    assert (forall p r', st' !! p = Some r' -> st !! p = None -> exists r, r ∈ rs /\ r' = rfc2136 op (zone_class m) r) as Hnew.
    { intros p r' Hr' Hn. rewrite Hl, Hn in Hr'. by case_decide. }
    split; [|done]. clear E Hl Hnew.
    assert (forall p r, st !! p = Some r -> p ∈ rr -> st' !! p = Some (rfc2136 op (zone_class m) r)) as Hp'.
    { intros p r H H'. rewrite (Hp p r H). by rewrite decide_True. }
    clear Hp. induction Hrs as [|p r rr rs Hpr _ IH]; [constructor|]. constructor; [apply Hp'; [done|left]|].
    apply IH. intros q x Hq Hin'. apply Hp'; [done|by right]. }
  assert (forall h l, (forall r, MkRR (h (Hdr r)) RR_ANY [] = rfc2136 op (zone_class m) r) -> in_place op = false ->
    exists st' ps, foldM (append_any h) (st, l) rr = Ok (st', l ++ ps) /\
      points st' ps (map (rfc2136 op (zone_class m)) rs) /\
      (forall p r, st !! p = Some r ->
        st' !! p = Some (if decide (in_place op = true /\ p ∈ rr) then rfc2136 op (zone_class m) r else r)) /\
      forall p r', st' !! p = Some r' -> st !! p = None -> exists r, r ∈ rs /\ r' = rfc2136 op (zone_class m) r) as Hany.
  { intros h l Hspec Hop. destruct (append_any_all h rr st l rs Hrs) as (st' & ps & E & Hs & Hps & Hnew).
    exists st', ps. split; [done|]. split_and!.
    - erewrite map_ext; [exact Hps|]. intros r. by rewrite <- Hspec.
    - intros p r Hp. rewrite decide_False by (rewrite Hop; by intros [? _]). by eapply lookup_weaken.
    - intros p r' H1 H2. destruct (Hnew p r' H1 H2) as (r & Hr & ->). exists r. by rewrite Hspec. }
  assert (p_Question m = [] \/ exists q l, p_Question m = q :: l) as Hq by (destruct (p_Question m); eauto).
  destruct op; unfold update, NameUsed, NameNotUsed, Used, RRsetUsed, RRsetNotUsed, Insert, RemoveRRset, RemoveName, Remove, to_Answer, to_Ns;
    cbn [fst snd needs_zone in_place] in *;
    try (destruct Hq as [Hq|(q & l & Hq)]; [by destruct (Hz eq_refl Hq)|rewrite Hq in *]);
    match goal with
    | |- context [append_any ?h] =>
        edestruct (Hany h) as (st' & ps & E & H1 & H2 & H3); [done|done|rewrite E; exists st', ps; by split_and!]
    | |- context [append_rr ?h] =>
        edestruct (Hin h) as (st' & E & H1 & H2 & H3); [done|unfold zone_class; rewrite ?Hq; done|done|rewrite E; exists st', rr; by split_and!]
    end.
Qed.

(** ** Well-formed messages under construction *)

(** In the additional section OPT records are in the struct [OPT]. *)
Definition extra_loc (st : store) (p : loc) : Prop := exists r, st !! p = Some r /\ extra_ok r.

Definition hdr_ok (h : MsgHdr) : Prop := u16 (Id h) /\ 0 <= Opcode h < 16 /\ 0 <= Rcode h <= 0xFFF.

(** [msg_ok] but for the number of records, and a well-formed store. *)
Definition state_ok (s : msg_state) : Prop :=
  let '(st, m) := s in
  (forall p r, st !! p = Some r -> rr_ok r) /\
  hdr_ok (p_hdr m) /\
  Forall question_ok (p_Question m) /\
  Forall (fun p => is_Some (st !! p)) (p_Answer m) /\ Forall (fun p => is_Some (st !! p)) (p_Ns m) /\
  Forall (extra_loc st) (p_Extra m).

(** The steps of a program that builds a message: its own records and header,
    and the methods with well-formed arguments. *)
Inductive builds : msg_state -> msg_state -> Prop :=
| build_record st m p r : st !! p = None -> rr_ok r -> builds (st, m) (<[p := r]> st, m)
| build_header st m h : hdr_ok h ->
    builds (st, m) (st, set_p_hdr (fun _ => h) m)
| build_Compress st m c : builds (st, m) (st, set_p_Compress c m)
| build_Answer st m p r : st !! p = Some r -> builds (st, m) (st, set_p_Answer (p_Answer m ++ [p]) m)
| build_Extra st m p r : st !! p = Some r -> extra_ok r -> builds (st, m) (st, set_p_Extra (p_Extra m ++ [p]) m)
| build_SetReply st m req : hdr_ok (p_hdr req) -> Forall question_ok (p_Question req) ->
    builds (st, m) (st, SetReply req m)
| build_SetRcode st m req rcode : hdr_ok (p_hdr req) -> Forall question_ok (p_Question req) ->
    0 <= rcode <= 0xFFF -> builds (st, m) (st, SetRcode req rcode m)
| build_SetRcodeFormatError st m req : hdr_ok (p_hdr req) -> builds (st, m) (st, SetRcodeFormatError req m)
| build_SetQuestion st m id z t : u16 id -> good_name z -> u16 t -> builds (st, m) (st, SetQuestion id z t m)
| build_SetNotify st m id z : u16 id -> good_name z -> builds (st, m) (st, SetNotify id z m)
| build_SetUpdate st m id z : u16 id -> good_name z -> builds (st, m) (st, SetUpdate id z m)
| build_SetAxfr st m id z : u16 id -> good_name z -> builds (st, m) (st, SetAxfr id z m)
| build_SetIxfr s id z serial ns mbox : u16 id -> good_name z -> u32 serial -> good_name ns -> good_name mbox ->
    builds s (SetIxfr id z serial ns mbox s)
| build_SetTsig s z algo fudge time : good_name z -> good_name algo -> u16 fudge -> 0 <= time < 2 ^ 48 ->
    builds s (SetTsig z algo fudge time s)
| build_SetEdns0 s size do_ : u16 size -> builds s (SetEdns0 size do_ s)
| build_popEdns0 st m opt m' : popEdns0 (st, m) = Ok (opt, m') -> builds (st, m) (st, m')
| build_update op rr st m s' : Forall (fun p => is_Some (st !! p)) rr -> update op rr (st, m) = Ok s' -> builds (st, m) s'.

Lemma points_is_Some st ps : Forall (fun p => is_Some (st !! p)) ps -> exists rs, points st ps rs.
Proof.
  induction 1 as [|p ps [r Hr] _ [rs IH]]; [exists []; constructor|]. exists (r :: rs). by constructor.
Qed.

Lemma is_Some_points st ps rs : points st ps rs -> Forall (fun p => is_Some (st !! p)) ps.
Proof. induction 1; constructor; eauto. Qed.

Lemma Ok_inj {E A} (a b : A) : @Ok E A a = Ok b -> a = b.
Proof. congruence. Qed.

(** Questions with the class IN. *)
Lemma question_IN z t : good_name z -> u16 t -> Forall question_ok [MkQuestion z t ClassINET].
Proof. intros Hz Ht. constructor; [by split_and!|constructor]. Qed.

Lemma rr_ok_no_fields h : header_ok h -> rr_ok (MkRR h RR_ANY []).
Proof. intros Hh. split; [done|]. split; [by left|]. split; [constructor|done]. Qed.

(** What the update methods make of a record travels when the record does. *)
Lemma rfc2136_ok op zc r : rr_ok r -> u16 zc -> rr_ok (rfc2136 op zc r).
Proof.
  intros ((Hn & Ht & Hc & Httl) & Hk & Hd & Hl) Hzc.
  destruct op; unfold rfc2136; (apply rr_ok_no_fields; by split_and!) || by (split_and!; try done; split_and!).
Qed.

Lemma rfc2136_extra op zc r : in_place op = true -> u16 zc -> extra_ok r -> extra_ok (rfc2136 op zc r).
Proof. intros Hop Hzc [Hr Ho]. split; [by apply rfc2136_ok|]. by destruct op. Qed.

Lemma good_root : good_name [ch_dot].
Proof. exists []. split; [|done]. split; [constructor|done]. Qed.

Lemma good_name_len s off : good_name s -> exists n, domainNameLen s off None true = Ok (n, None) /\
  domainNameLen s off None false = Ok (n, None) /\ 0 <= n <= 256.
Proof.
  intros (ls & Hls & ->). exists (wire_len ls + 1). rewrite !domainNameLen_show by done.
  pose proof (wire_len_nonneg ls). destruct Hls as (_ & Hl & _). split_and!; (done || lia).
Qed.

Lemma soa_ok z serial ns mbox : good_name z -> u32 serial -> good_name ns -> good_name mbox ->
  rr_ok (MkRR (MkHeader z TypeSOA ClassINET defaultTtl 0) RR_SOA
    [V_str ns; V_str mbox; V_int serial; V_int 0; V_int 0; V_int 0; V_int 0]).
Proof.
  intros Hz Hs Hns Hmb. split; [by split|]. split; [by right|].
  split; [repeat (constructor; [done|]); constructor|].
  unfold rdata_len. cbn -[domainNameLen].
  destruct (good_name_len ns 0 Hns) as (n & E & _ & Hn). rewrite E. gosimp.
  destruct (good_name_len mbox (0 + n) Hmb) as (k & E' & _ & Hk). rewrite E'. gosimp. lia.
Qed.

Lemma tsig_ok z algo fudge time id : good_name z -> good_name algo -> u16 fudge -> 0 <= time < 2 ^ 48 -> u16 id ->
  rr_ok (MkRR (MkHeader z TypeTSIG ClassANY 0 0) RR_TSIG
    [V_str algo; V_int (time mod 2 ^ 64); V_int fudge; V_int 0; V_str []; V_int id; V_int 0; V_int 0; V_str []]).
Proof.
  intros Hz Ha Hf Ht Hid. rewrite Z.mod_small by lia. split; [by split|]. split; [by right|].
  split.
  - repeat (constructor; [first [done|by exists []]|]). constructor.
  - unfold rdata_len. cbn -[domainNameLen].
    destruct (good_name_len algo 0 Ha) as (n & _ & E & Hn). rewrite E. gosimp. change (zlen [] / 2) with 0. lia.
Qed.

Lemma opt_rr_ok size (do_ : bool) : u16 size ->
  extra_ok (MkRR (MkHeader [ch_dot] TypeOPT size (if do_ then SetDo [] 0 else 0) 0) RR_OPT [V_opts []]).
Proof.
  intros Hs. split; [|done]. split.
  - split_and!; [apply good_root|done|done|]. by destruct do_.
  - split; [by right|]. split; [|done]. repeat constructor.
Qed.

Lemma extra_loc_mono st st' p : st ⊆ st' -> extra_loc st p -> extra_loc st' p.
Proof. intros Hs (r & Hr & He). exists r. split; [by eapply lookup_weaken|done]. Qed.

(** A record that is added to the store. *)
Lemma state_ok_insert st m p r : st !! p = None -> rr_ok r -> state_ok (st, m) -> state_ok (<[p := r]> st, m).
Proof.
  intros Hp Hr (Hst & Hh & Hq & Ha & Hn & He).
  assert (st ⊆ <[p := r]> st) as Hs by by apply insert_subseteq.
  assert (forall l, Forall (fun p => is_Some (st !! p)) l -> Forall (fun q => is_Some (<[p := r]> st !! q)) l) as Hl.
  { intros l H. eapply Forall_impl; [exact H|]. intros q [x Hx]. exists x. by eapply lookup_weaken. }
  split; [|do 2 (split; [done|]); split; [|split]].
  - intros q x [[<- <-]|[_ H]]%lookup_insert_Some; [done|by eapply Hst].
  - by apply Hl.
  - by apply Hl.
  - eapply Forall_impl; [exact He|]. intros q. by apply extra_loc_mono.
Qed.

Lemma zone_class_ok m : Forall question_ok (p_Question m) -> u16 (zone_class m).
Proof. unfold zone_class. destruct 1 as [|q l [_ [_ H]] _]; done. Qed.

Lemma pop_loop_spec st rev_extra : forall after r p extra,
  pop_loop st rev_extra after = Ok r -> r = Some (p, extra) ->
  Forall (extra_loc st) rev_extra -> Forall (extra_loc st) after -> Forall (extra_loc st) extra.
Proof.
  induction rev_extra as [|q rest IH]; intros after r p extra H Hr Hl Ha; cbn [pop_loop] in H; [by simplify_eq|].
  apply Forall_cons in Hl as [Hq Hl]. inv_bind H. destruct a.
  - simplify_eq. apply Forall_app. split; [|done]. by apply Forall_reverse.
  - eapply IH; [exact H|done|done|]. by constructor.
Qed.

Lemma update_state_ok op rr st m s' : Forall (fun p => is_Some (st !! p)) rr ->
  update op rr (st, m) = Ok s' -> state_ok (st, m) -> state_ok s'.
Proof.
  intros [rs Hrs]%points_is_Some E (Hst & Hh & Hq & Ha & Hn & He).
  destruct (update_ok op rr st m rs Hrs) as (st' & ps & E' & Hin & Hps & Hkeep & Hnew).
  { intros Hz Hnil. unfold update, Used, Insert in E. destruct op; try done; cbn [snd] in E; by rewrite Hnil in E. }
  rewrite E' in E. injection E as <-.
  pose proof (zone_class_ok m Hq) as Hzc. pose proof (is_Some_points _ _ _ Hps) as Hps'.
  assert (forall p r, st' !! p = Some r -> rr_ok r) as Hst'.
  { intros p r Hp. destruct (st !! p) as [r0|] eqn:H0.
    - rewrite (Hkeep p r0 H0) in Hp. injection Hp as <-. pose proof (Hst p r0 H0).
      destruct (decide (_ /\ _)); [by apply rfc2136_ok|done].
    - destruct (Hnew p r Hp H0) as (r1 & Hin1 & ->). apply rfc2136_ok; [|done].
      apply list_elem_of_lookup in Hin1 as [i Hi]. destruct (Forall2_lookup_r _ _ _ _ _ Hrs Hi) as (q & _ & Hq'). by eapply Hst. }
  assert (forall l, Forall (fun p => is_Some (st !! p)) l -> Forall (fun p => is_Some (st' !! p)) l) as Hl.
  { intros l H. eapply Forall_impl; [exact H|]. intros p [r Hr]. rewrite (Hkeep p r Hr). eauto. }
  assert (Forall (extra_loc st') (p_Extra m)) as He'.
  { eapply Forall_impl; [exact He|]. intros p (r & Hr & Hx). eexists. split; [by apply Hkeep|].
    destruct (decide (_ /\ _)) as [[Hc _]|]; [|done]. by apply rfc2136_extra. }
  unfold add_locs. destruct (prerequisite op); (split; [done|]); do 2 (split; [done|]);
    cbn [p_Answer p_Ns set_p_Answer set_p_Ns]; split_and!; try done;
    try (apply Forall_app; split; [by apply Hl|done]); by apply Hl.
Qed.

(** Messages whose well-formed parts are changed. *)
Lemma state_ok_hdr st m f : state_ok (st, m) -> (hdr_ok (p_hdr m) -> hdr_ok (f (p_hdr m))) -> state_ok (st, set_p_hdr f m).
Proof. intros (Hst & Hh & Hrest) Hf. split; [done|]. split; [by apply Hf|done]. Qed.

Lemma state_ok_Question st m q : state_ok (st, m) -> Forall question_ok q -> state_ok (st, set_p_Question q m).
Proof. intros (H1 & H2 & _ & H3) Hq. by do 3 (split; [done|]). Qed.

Lemma state_ok_Extra st m p : state_ok (st, m) -> extra_loc st p -> state_ok (st, set_p_Extra (p_Extra m ++ [p]) m).
Proof.
  intros (H1 & H2 & H3 & H4 & H5 & H6) Hp. do 5 (split; [done|]). apply Forall_app. split; [done|by constructor].
Qed.

Ltac hdr_parts :=
  intros (? & ? & ?); split_and!; cbn;
  unfold u16, OpcodeQuery, OpcodeNotify, OpcodeUpdate, RcodeSuccess, RcodeFormatError in *; lia.

Lemma SetReply_ok st m req : hdr_ok (p_hdr req) -> Forall question_ok (p_Question req) ->
  state_ok (st, m) -> state_ok (st, SetReply req m).
Proof.
  intros (Hid & Hop & _) Hq Hok. assert (state_ok (st, set_p_hdr (reply_hdr (p_hdr req)) m)) as H.
  { apply state_ok_hdr; [done|hdr_parts]. }
  unfold SetReply. destruct Hq as [|q l Hq _]; [done|]. apply state_ok_Question; [done|by constructor].
Qed.

(** A fresh record added to the additional section. *)
Lemma alloc_Extra st m r : extra_ok r -> state_ok (st, m) ->
  state_ok (let '(p, st) := alloc r st in (st, set_p_Extra (p_Extra m ++ [p]) m)).
Proof.
  intros Hr Hok. pose proof (alloc_spec r st) as Ha. destruct (alloc r st) as [p st']. destruct Ha as [Hp ->].
  apply state_ok_Extra; [apply state_ok_insert; [done|by apply Hr|done]|]. exists r. by rewrite lookup_insert_eq.
Qed.

Lemma builds_state_ok s s' : builds s s' -> state_ok s -> state_ok s'.
Proof.
  intros Hb Hok. destruct Hb as [st m p r|st m h|st m c|st m p r Hp|st m p r Hp Hr|st m req Hh Hq|st m req rcode Hh Hq Hrc|st m req Hh|
    st m id z t|st m id z|st m id z|st m id z|[st m] id z serial ns mbox|[st m] z algo fudge time Hz Ha Hf Ht|[st m] size do_ Hs|st m opt m' E|op rr st m s' Hrr E].
  - by apply state_ok_insert.
  - by apply state_ok_hdr.
  - exact Hok.
  - destruct Hok as (H1 & H2 & H3 & H4 & H5). do 3 (split; [done|]). split; [|done].
    apply Forall_app. split; [done|]. by constructor; [exists r|].
  - apply state_ok_Extra; [done|by exists r].
  - by apply SetReply_ok.
  - apply state_ok_hdr; [by apply SetReply_ok|]. hdr_parts.
  - apply state_ok_hdr; [done|]. destruct Hh as (? & _). hdr_parts.
  - apply state_ok_Question; [|by apply question_IN]. apply state_ok_hdr; [done|hdr_parts].
  - apply state_ok_Question; [|by apply question_IN]. apply state_ok_hdr; [done|hdr_parts].
  - apply state_ok_Question; [|by apply question_IN]. apply (state_ok_hdr st m _ Hok). hdr_parts.
  - apply state_ok_Question; [|by apply question_IN]. apply state_ok_hdr; [done|hdr_parts].
  - unfold SetIxfr. set (soa := MkRR _ _ _). assert (rr_ok soa) as Hsoa by by apply soa_ok.
    pose proof (alloc_spec soa st) as Ha. destruct (alloc soa st) as [p st']. destruct Ha as [Hp ->].
    assert (state_ok (<[p := soa]> st, set_p_hdr (set_Id id) m)) as (J1 & J2 & J3 & J4 & J5 & J6).
    { apply state_ok_hdr; [by apply state_ok_insert|hdr_parts]. }
    split; [done|]. split; [done|]. split; [by apply question_IN|]. split; [done|]. split; [|done].
    constructor; [|constructor]. exists soa. by rewrite lookup_insert_eq.
  - apply (alloc_Extra st m); [|done]. split; [|done]. apply tsig_ok; try done. apply Hok.
  - apply (alloc_Extra st m); [|done]. by apply opt_rr_ok.
  - unfold popEdns0 in E. inv_bind E. destruct a as [[p extra]|]; simplify_eq; [|done].
    destruct Hok as (H1 & H2 & H3 & H4 & H5 & H6). do 5 (split; [done|]).
    eapply pop_loop_spec; [exact Ha|done| |constructor]. by apply Forall_reverse.
  - by eapply update_state_ok.
Qed.

Lemma deref_ok st m : state_ok (st, m) ->
  zlen (p_Question m) < 65536 -> zlen (p_Answer m) < 65536 -> zlen (p_Ns m) < 65536 -> zlen (p_Extra m) < 65536 ->
  exists msg, deref st m = Some msg /\ msg_ok msg.
Proof.
  intros (Hst & (Hid & Hop & Hrc) & Hq & Ha & Hn & He) Lq La Ln Le.
  assert (forall l, Forall (fun p => is_Some (st !! p)) l -> exists rs, mapM (st !!.) l = Some rs /\ Forall rr_ok rs /\ zlen rs = zlen l) as Hl.
  { intros l [rs Hrs]%points_is_Some. exists rs. split; [by apply mapM_Some|]. split.
    - clear -Hrs Hst. induction Hrs; constructor; [by eapply Hst|done].
    - unfold zlen. by rewrite (Forall2_length _ _ _ Hrs). }
  destruct (Hl _ Ha) as (a & Ea & Oa & Za), (Hl _ Hn) as (n & En & On & Zn).
  assert (exists e, mapM (st !!.) (p_Extra m) = Some e /\ Forall extra_ok e /\ zlen e = zlen (p_Extra m)) as (e & Ee & Oe & Ze).
  { clear -He. induction He as [|p l (r & Hr & Hx) _ (e & E & O & Z)]; [by exists []|].
    exists (r :: e). cbn [mapM]. rewrite Hr, E. split; [done|]. split; [by constructor|]. unfold zlen in *. cbn [length]. lia. }
  eexists. unfold deref. rewrite Ea, En, Ee. split; [done|].
  unfold msg_ok. cbn [hdr Question_ Answer Ns Extra]. rewrite Za, Zn, Ze. split_and!; (done || lia).
Qed.

(** ** Packing what was built *)

Lemma opt_loc_last st l rs : mapM (st !!.) l = Some rs -> last_of_type TypeOPT rs = p ← opt_loc st l; st !! p.
Proof.
  intros H%mapM_Some_1. induction H as [|p r l rs Hp _ IH]; [done|]. cbn [last_of_type opt_loc]. rewrite IH.
  destruct (opt_loc st l) as [q|] eqn:Eq; cbn [mbind option_bind].
  - destruct (st !! q) as [o|] eqn:Eo; [done|]. exfalso. clear -Eq Eo. induction l as [|p' l IH']; [done|].
    cbn [opt_loc] in Eq. destruct (opt_loc st l); [by auto|]. destruct (st !! p') eqn:E'; [|done].
    cbn in Eq. destruct (_ =? _); congruence.
  - rewrite Hp. cbn [mbind option_bind]. destruct (_ =? _); cbn [mbind option_bind]; [by rewrite Hp|done].
Qed.

Lemma opt_loc_alter st f p l : (forall r, Rrtype (Hdr (f r)) = Rrtype (Hdr r)) -> opt_loc (alter f p st) l = opt_loc st l.
Proof.
  intros Hf. induction l as [|q l IH]; [done|]. cbn [opt_loc]. rewrite IH. destruct (opt_loc st l); [done|].
  destruct (decide (q = p)) as [->|Hne]; [rewrite lookup_alter_eq|by rewrite lookup_alter_ne by congruence].
  destruct (st !! p) as [r|]; [|done]. cbn. by rewrite Hf.
Qed.

(** The store stays well formed. *)
Lemma write_rcode_ok st m : state_ok (st, m) -> state_ok (write_rcode m st, m).
Proof.
  intros (H1 & H2 & H3 & H4 & H5 & H6). unfold write_rcode. destruct (opt_loc st (p_Extra m)) as [p|]; [|done].
  set (f := set_opt_rcode _). assert (forall r, rr_ok r -> rr_ok (f r)) as Hf.
  { intros r. apply set_opt_rcode_ok. apply Z.mod_pos_bound. lia. }
  assert (forall q, is_Some (st !! q) -> is_Some (alter f p st !! q)) as Hl by (intros q; by rewrite lookup_alter_is_Some).
  split; [|split; [exact H2|split; [exact H3|]]].
  - intros q r Hq. destruct (decide (q = p)) as [->|Hne].
    + rewrite lookup_alter_eq in Hq. destruct (st !! p) as [x|] eqn:E; [|done]. injection Hq as <-. by eapply Hf, H1.
    + rewrite lookup_alter_ne in Hq by congruence. by eapply H1.
  - split_and!; [by eapply Forall_impl..|]. eapply Forall_impl; [exact H6|]. intros q (r & Hr & Hx).
    destruct (decide (q = p)) as [->|Hne]; [|exists r; by rewrite lookup_alter_ne by congruence].
    exists (f r). rewrite lookup_alter_eq, Hr. split; [done|]. destruct Hx as [Hx Ho]. split; [by apply Hf|exact Ho].
Qed.

(** The OPT record that is written is the one that is packed, and carries the rcode. *)
Lemma write_rcode_carried st m msg msg' : msg_ok msg -> rcode_fits msg ->
  deref st m = Some msg -> deref (write_rcode m st) m = Some msg' -> rcode_carried msg'.
Proof.
  intros Hok Hfit Hd Hd'. pose proof (packed_msg_rcode msg Hok Hfit) as Hc. unfold deref in Hd, Hd'.
  destruct (mapM (st !!.) (p_Answer m)), (mapM (st !!.) (p_Ns m)), (mapM (st !!.) (p_Extra m)) as [e|] eqn:Ee; try done.
  destruct (mapM (write_rcode m st !!.) (p_Answer m)), (mapM (write_rcode m st !!.) (p_Ns m)),
    (mapM (write_rcode m st !!.) (p_Extra m)) as [e'|] eqn:Ee'; try done.
  injection Hd as <-. injection Hd' as <-. apply opt_loc_last in Ee, Ee'.
  unfold rcode_carried, packed_msg, write_rcode in *. cbn [Extra hdr] in *. rewrite Ee in Hc. rewrite Ee'.
  destruct (opt_loc st (p_Extra m)) as [p|] eqn:Eo; [|rewrite Eo; cbn in *; by rewrite Ee in Hc].
  rewrite opt_loc_alter, Eo by done. cbn [mbind option_bind] in *. rewrite lookup_alter_eq.
  destruct (st !! p) as [o|] eqn:Ep; cbn in Hc |- *; [|by rewrite Ee in Hc].
  rewrite last_of_type_update, Ee in Hc by done. done.
Qed.

Lemma IsEdns0_extra {E} msg : Forall extra_ok (Extra msg) -> @IsEdns0 E msg = Ok (last_of_type TypeOPT (Extra msg)).
Proof.
  intros He. unfold IsEdns0. destruct (last_of_type TypeOPT (Extra msg)) as [o|] eqn:E'; [|done].
  apply last_of_type_In in E' as [Hin Hty]. rewrite Forall_forall in He. by rewrite decide_True by by apply He.
Qed.

Lemma write_rcode_none st m msg : deref st m = Some msg -> last_of_type TypeOPT (Extra msg) = None ->
  opt_loc st (p_Extra m) = None.
Proof.
  unfold deref. destruct (mapM (st !!.) (p_Answer m)), (mapM (st !!.) (p_Ns m)), (mapM (st !!.) (p_Extra m)) as [e|] eqn:Ee; try done.
  intros [= <-]. cbn [Extra]. intros Hl. pose proof (opt_loc_last _ _ _ Ee) as H. rewrite Hl in H.
  destruct (opt_loc st (p_Extra m)) as [p|] eqn:Ep; [|done]. cbn in H. symmetry in H. exfalso.
  clear -Ep H. induction (p_Extra m) as [|q l IH]; [done|]. cbn [opt_loc] in Ep.
  destruct (opt_loc st l); [by auto|]. destruct (st !! q) eqn:Eq; [|done]. cbn in Ep. destruct (_ =? _); congruence.
Qed.

(** Every state the methods reach is well formed. *)
Lemma builds_ok s : rtc builds (∅, new_msg) s -> state_ok s.
Proof.
  intros H. pattern s. eapply rtc_ind_r; [| |exact H].
  - split; [intros p r Hp; by rewrite lookup_empty in Hp|]. split; [by split_and!|]. by repeat constructor.
  - intros x y _ Hxy Hx. by eapply builds_state_ok.
Qed.

(** An extended rcode and no OPT record. *)
Lemma Msg_PackBuffer_extended st m msg buf : msg_ok msg -> ~ rcode_fits msg -> deref st m = Some msg ->
  Msg_PackBuffer buf (st, m) = ((st, m), Err ErrExtendedRcode).
Proof.
  intros (_ & _ & Hr & _ & _ & _ & He & _) Hn Hd. unfold Msg_PackBuffer. rewrite Hd.
  rewrite (proj2 (Z.ltb_ge _ 0)), (proj2 (Z.ltb_ge 0xFFF _)) by lia. cbn [orb]. rewrite (IsEdns0_extra msg He).
  destruct (last_of_type TypeOPT (Extra msg)) as [o|] eqn:Eo; [by destruct Hn; eexists|].
  destruct (Z.ltb_spec 0xF (Rcode (hdr msg))); [done|]. destruct Hn. unfold rcode_fits. lia.
Qed.

(** Packing a message of a well-formed state. *)
Lemma Msg_PackBuffer_ok st m msg msg' buf : msg_ok msg -> msg_ok msg' -> rcode_fits msg ->
  deref st m = Some msg -> deref (write_rcode m st) m = Some msg' ->
  exists b, Msg_PackBuffer buf (st, m) = ((write_rcode m st, m), Ok b) /\
    forall m0 suf, exists m', @Unpack error m0 (b ++ suf) = Ok (m', None) /\ msg_read msg' m'.
Proof.
  intros Hok Hok' Hfit Hd Hd'. pose proof (write_rcode_carried _ _ _ _ Hok Hfit Hd Hd') as Hrc.
  unfold Msg_PackBuffer. rewrite Hd. set (compress := Compress msg && isCompressible msg).
  set (cm := if compress then _ else _).
  assert (forall k, find cm k = None) as Hcm by (intros k; unfold cm; destruct compress; [apply lookup_empty|done]).
  destruct (@pack_body_layout error msg' buf cm compress Hok' Hcm) as (wq & wa & wn & we & E & _ & Hl).
  eexists. split; [|intros m0 suf;
    destruct (Unpack_layout msg' m0 wq wa wn we suf Hok' Hrc (Hl _ (header_wire_length _))) as (m' & H1 & H2 & _); by exists m'].
  destruct Hok as (_ & _ & Hr & _ & _ & _ & He & _). rewrite (proj2 (Z.ltb_ge _ 0)), (proj2 (Z.ltb_ge 0xFFF _)) by lia. cbn [orb].
  rewrite (IsEdns0_extra msg He). destruct (last_of_type TypeOPT (Extra msg)) as [o|] eqn:Eo; [by rewrite Hd', E|].
  pose proof (write_rcode_none _ _ _ Hd Eo) as Hn. unfold write_rcode in Hd' |- *. rewrite Hn in *.
  rewrite Hd in Hd'. injection Hd' as ->. destruct (Z.ltb_spec 0xF (Rcode (hdr msg'))); [|by rewrite E].
  destruct (Hfit ltac:(lia)) as [? ?]. congruence.
Qed.

(** ** Theorems *)

(** C34: a message built with the methods of the package, from a fresh [Msg] and
    an empty store, by any sequence of header assignments, records of the user's
    own, [SetReply], [SetRcode], [SetQuestion], [SetNotify], [SetUpdate],
    [SetAxfr], [SetIxfr], [SetTsig], [SetEdns0], [popEdns0] and the update
    methods, with well-formed arguments and however the records are shared, and
    with fewer than 65536 entries in each section, is packed by [PackBuffer] into
    any buffer exactly when its rcode is at most 15 or it has an OPT record.  Then
    [Unpack] of the octets gives the message back, as it is once the rcode has
    been written through the pointer to that OPT record, which is all that
    packing changes.  Otherwise (as after [SetRcode] of an extended rcode without
    [SetEdns0]) [PackBuffer] gives [ErrExtendedRcode] and changes nothing. *)
Theorem built_messages_pack st m : rtc builds (∅, new_msg) (st, m) ->
  zlen (p_Question m) < 65536 -> zlen (p_Answer m) < 65536 -> zlen (p_Ns m) < 65536 -> zlen (p_Extra m) < 65536 ->
  exists msg msg', deref st m = Some msg /\ msg_ok msg /\ deref (write_rcode m st) m = Some msg' /\ msg_ok msg' /\
    forall buf,
      (rcode_fits msg -> exists b, Msg_PackBuffer buf (st, m) = ((write_rcode m st, m), Ok b) /\
        forall m0 suf, exists m', @Unpack error m0 (b ++ suf) = Ok (m', None) /\ msg_read msg' m') /\
      (~ rcode_fits msg -> Msg_PackBuffer buf (st, m) = ((st, m), Err ErrExtendedRcode)).
Proof.
  intros Hb Lq La Ln Le. apply builds_ok in Hb.
  destruct (deref_ok st m Hb Lq La Ln Le) as (msg & Hd & Hok).
  destruct (deref_ok _ _ (write_rcode_ok _ _ Hb) Lq La Ln Le) as (msg' & Hd' & Hok').
  exists msg, msg'. split_and!; try done. intros buf. split; [intros Hfit; exact (Msg_PackBuffer_ok st m msg msg' buf Hok Hok' Hfit Hd Hd')|].
  intros Hn. exact (Msg_PackBuffer_extended st m msg buf Hok Hn Hd).
Qed.

(** The state after a dynamic update that removes a record. *)
Definition example_rr : RR := MkRR (MkHeader (bs "a.b.") 1 1 300 0) RR_A [V_str (map byte_of [192; 0; 2; 1])].
Definition example_update : msg_state :=
  match Remove [1%positive] ({[1%positive := example_rr]}, SetUpdate 7 (bs "b.") new_msg) with
  | Ok s => SetTsig (bs "k.") (bs "hmac-sha256.") 300 1700000000 (SetEdns0 1232 true s)
  | _ => (∅, new_msg)
  end.

Lemma built_messages_pack_witness : zlen (p_Extra example_update.2) = 2 /\
  (exists b, Msg_PackBuffer [] example_update = (example_update, Ok b) /\
    forall m0 suf, exists m', @Unpack error m0 (b ++ suf) = Ok (m', None) /\ Opcode (hdr m') = 5 /\ zlen (Ns m') = 1).
Proof.
  assert (forall l : list bytes, Forall (fun l => 1 <= zlen l < 64) l -> wire_len l < 255 -> zlen l <= maxCompressionPointers ->
    good_name (show_name l)) as Hgood by (intros l H1 H2 H3; exists l; done).
  assert (good_name (bs "b.")) as Hb by (apply (Hgood [bs "b"]); [by repeat constructor|done..]).
  assert (good_name (bs "a.b.")) as Hab by (apply (Hgood [bs "a"; bs "b"]); [by repeat constructor|done..]).
  assert (good_name (bs "k.")) as Hk by (apply (Hgood [bs "k"]); [by repeat constructor|done..]).
  assert (good_name (bs "hmac-sha256.")) as Hh by (apply (Hgood [bs "hmac-sha256"]); [by repeat constructor|done..]).
  split; [vm_compute; reflexivity|].
  assert (rtc builds (∅, new_msg) (example_update.1, example_update.2)) as Hb'.
  { eapply rtc_l. { apply build_SetUpdate with (id := 7) (z := bs "b."); done. }
  eapply rtc_l. { apply build_record with (p := 1%positive) (r := example_rr); [done|].
    split; [by split|]. split; [by right|]. split; [repeat (constructor; try done)|by vm_compute]. }
  eapply rtc_l. { apply build_update with (op := Op_Remove) (rr := [1%positive]); [|vm_compute; reflexivity].
    constructor; [by eexists|constructor]. }
  eapply rtc_l. { apply build_SetEdns0 with (size := 1232) (do_ := true); done. }
  eapply rtc_l. { apply build_SetTsig with (z := bs "k.") (algo := bs "hmac-sha256.") (fudge := 300) (time := 1700000000); done. }
  apply (rtc_refl builds). }
  destruct (built_messages_pack _ _ Hb') as (msg & msg' & Hd & _ & Hd' & _ & H); [vm_compute; reflexivity..|].
  destruct (H []) as [Hp _]. destruct Hp as (b & Hp & Hu).
  { intros Hr. exfalso. assert (Rcode (hdr msg) = 0) as E; [|rewrite E in Hr; discriminate].
    enough (Rcode ∘ hdr <$> Some msg = Some 0) as [= ->] by done. rewrite <- Hd. vm_compute. reflexivity. }
  exists b. split.
  { assert (write_rcode example_update.2 example_update.1 = example_update.1) as E by (vm_compute; reflexivity).
    rewrite E in Hp. destruct example_update. exact Hp. }
  intros m0 suf. destruct (Hu m0 suf) as (m' & E & Hhdr & _ & _ & Hns & _). exists m'. split; [exact E|].
  split.
  - rewrite Hhdr. enough (Opcode ∘ hdr <$> Some msg' = Some 5) as [= ->] by done. rewrite <- Hd'. vm_compute. reflexivity.
  - unfold zlen. rewrite <- (Forall2_length _ _ _ Hns). change (zlen (Ns msg') = 1).
    enough ((fun x => zlen (Ns x)) <$> Some msg' = Some 1) as [= ->] by done. rewrite <- Hd'. vm_compute. reflexivity.
Defined.

(** C35: the update methods are the encodings of RFC 2136, sections 2.4 and 2.5.
    Given records that are not already in the message, and a zone section for
    [Used] and [Insert], each method appends the records of its encoding to its
    section, leaves the rest of the message as it is, and (for [Used], [Insert]
    and [Remove]) leaves the encoding in the caller's own records. *)
Theorem update_functional op rr st m rs msg :
  points st rr rs -> (needs_zone op = true -> p_Question m <> []) -> deref st m = Some msg ->
  (forall p, p ∈ rr -> p ∉ p_Answer m ++ p_Ns m ++ p_Extra m) ->
  exists st' m', update op rr (st, m) = Ok (st', m') /\
    deref st' m' = Some (add_rrs op (map (rfc2136 op (zone_class m)) rs) msg) /\
    (forall p r, st !! p = Some r ->
      st' !! p = Some (if decide (in_place op = true /\ p ∈ rr) then rfc2136 op (zone_class m) r else r)).
Proof.
  intros Hrs Hz Hd Hdis. destruct (update_ok op rr st m rs Hrs Hz) as (st' & ps & E & _ & Hps & Hkeep & _).
  exists st', (add_locs op ps m). split; [done|]. split; [|done].
  assert (forall l x, mapM (st !!.) l = Some x -> (forall p, p ∈ rr -> p ∉ l) -> mapM (st' !!.) l = Some x) as Hl.
  { intros l x Hx%mapM_Some_1 Hn. apply mapM_Some_2. eapply points_weaken; [exact Hx|]. intros p r Hp Hin.
    rewrite (Hkeep p r Hp), decide_False; [done|]. intros [_ Hr]. by apply (Hn p Hr). }
  assert (forall l l' x y, mapM (st' !!.) l = Some x -> mapM (st' !!.) l' = Some y -> mapM (st' !!.) (l ++ l') = Some (x ++ y)) as Happ.
  { intros l l' x y H1%mapM_Some_1 H2%mapM_Some_1. apply mapM_Some_2. by apply Forall2_app. }
  apply mapM_Some_2 in Hps. unfold deref in Hd |- *.
  destruct (mapM (st !!.) (p_Answer m)) as [a|] eqn:Ea; [|done].
  destruct (mapM (st !!.) (p_Ns m)) as [n|] eqn:En; [|done].
  destruct (mapM (st !!.) (p_Extra m)) as [e|] eqn:Ee; [|done]. injection Hd as <-.
  apply Hl in Ea; [|set_solver]. apply Hl in En; [|set_solver]. apply Hl in Ee; [|set_solver].
  unfold add_locs, add_rrs. destruct (prerequisite op); cbn [p_Answer p_Ns p_Extra set_p_Answer set_p_Ns].
  - rewrite (Happ _ _ _ _ Ea Hps), En, Ee. done.
  - rewrite (Happ _ _ _ _ En Hps), Ea, Ee. done.
Qed.

Lemma update_functional_witness : exists st' m',
  update Op_Insert [1%positive] ({[1%positive := example_rr]}, SetUpdate 7 (bs "b.") new_msg) = Ok (st', m') /\
  (Ns <$> deref st' m') = Some [example_rr].
Proof.
  destruct (update_functional Op_Insert [1%positive] {[1%positive := example_rr]} (SetUpdate 7 (bs "b.") new_msg)
    [example_rr] (MkMsg (p_hdr (SetUpdate 7 (bs "b.") new_msg)) false [MkQuestion (bs "b.") 6 1] [] [] []))
    as (st' & m' & E & D & _).
  - repeat constructor.
  - discriminate.
  - vm_compute. reflexivity.
  - intros p _ H. by apply not_elem_of_nil in H.
  - exists st', m'. split; [exact E|]. rewrite D. vm_compute. reflexivity.
Defined.

(** The update methods write through the pointers they are given: a record
    required to exist with [Used] and then deleted with [Remove] is one
    record, so the prerequisite that is sent has the class NONE of the
    deletion instead of the zone's class. *)
Theorem update_aliasing :
  (s ← Used [1%positive] ({[1%positive := example_rr]}, SetUpdate 7 (bs "b.") new_msg);
   s ← Remove [1%positive] s;
   Ok ((fun m => (map (fun r => Class_ (Hdr r)) (Answer m), map (fun r => Class_ (Hdr r)) (Ns m))) <$> deref s.1 s.2))
  = Ok (Some ([ClassNONE], [ClassNONE])).
Proof. vm_compute. reflexivity. Qed.
