(* ===== verification/Lengths.v ===== *)
(** * Lengths with compression

    [Len] against [Pack] when names are compressed: the set of names
    [compressionLenSearch] collects is always contained in the compression map
    [packDomainName] fills at offsets that are not larger, so that whatever
    [domainNameLen] counts as a pointer is packed as one.  The contract [fits]
    is proved for names, fields, records and messages. *)

From S2P Require Import Prelude Go Utf8 Labels Escape Names NameDecode NameEncode NameLen Wire Codec NameCarry Text Nsec Encodings Apl Edns Svcb RData RDataCarry RR RRCarry Msg MsgCarry.

(** ** The search *)

(** [compressionLenSearch] over the names that enclose a name of [total]
    characters: the set, and the offset of the first name in the set. *)
Fixpoint search (c : gset bytes) (msgOff total : Z) (names : list bytes) : gset bytes * (Z * bool) :=
  match names with
  | [] => (c, (0, false))
  | k :: names =>
      if decide (k ∈ c) then (c, (total - zlen k, true)) else
      search (if msgOff + (total - zlen k) <? maxCompressionOffset then {[k]} ∪ c else c) msgOff total names
  end.

Lemma from_length s off k : from s off = Some k -> off = zlen s - zlen k.
Proof. unfold from. intros H. apply slice_inv in H as (? & ? & ? & _). lia. Qed.

Lemma search_loop s msgOff : forall starts c off names fuel,
  s <> [] -> 0 <= off < zlen s -> starts = starts_from s off (Z.to_nat (zlen s - 1 - off)) ->
  map (from s) (off :: starts) = map Some names -> (S (length starts) < fuel)%nat ->
  loop fuel (fun '(c, off, end_) =>
       if end_ : bool then Ok (inr (c, (0, false))) else
       key ← index (from s off);
       if decide (key ∈ c) then Ok (inr (c, (off, true))) else
       let c := if msgOff + off <? maxCompressionOffset then {[key]} ∪ c else c in
       '(off, end_) ← NextLabel s off;
       Ok (inl (c, off, end_))) (c, off, false) = @Ok error _ (search c msgOff (zlen s) names).
Proof.
  induction starts as [|o starts IH]; intros c off names fuel Hs Hoff Hst Hn Hf;
    (destruct fuel as [|fuel]; [cbn in Hf; lia|]); cbn [map] in Hn;
    (destruct names as [|k names]; [done|]); injection Hn as Hkey Hn; cbn [loop search]; rewrite Hkey; gosimp;
    rewrite <- (from_length s off k Hkey);
    (destruct (decide (k ∈ c)); [done|]); rewrite NextLabel_starts, <- Hst by done.
  - destruct names; [|done]. gosimp. destruct fuel as [|fuel]; [cbn in Hf; lia|]. done.
  - destruct (starts_from_step s off o starts) as [Ho Hr]; [done..|]. gosimp.
    apply IH; (done || lia || (cbn in Hf; lia)).
Qed.

Lemma compressionLenSearch_spec c s msgOff : s <> [] ->
  compressionLenSearch c s msgOff = Ok (search c msgOff (zlen s) (suffixes s)).
Proof.
  intros Hs. unfold compressionLenSearch, suffixes. rewrite decide_False by done.
  apply search_loop with (starts := starts_from s 0 (Z.to_nat (zlen s - 1 - 0))); [done| |done| |].
  - destruct s; [done|]. zlia.
  - rewrite <- label_names. unfold label_starts. unfold zlen. do 3 f_equal. lia.
  - pose proof (starts_from_length s 0 (Z.to_nat (zlen s - 1 - 0))). destruct s; [done|]. unfold zlen in *. cbn [length] in *. lia.
Qed.

(** What the search does: the names before the first hit were not in the set
    and are added when a pointer could reach them. *)
Lemma search_spec msgOff total : forall names c, NoDup names ->
  let '(c', (l, ok)) := search c msgOff total names in
  exists seen rest, names = seen ++ rest /\ Forall (fun k => k ∉ c) seen /\
    (forall k, k ∈ c' -> k ∈ c \/ (k ∈ seen /\ msgOff + (total - zlen k) < maxCompressionOffset)) /\
    (if ok : bool then exists k rest', rest = k :: rest' /\ l = total - zlen k /\ k ∈ c else rest = []).
Proof.
  induction names as [|k names IH]; intros c Hnd; cbn [search].
  { exists [], []. split_and!; [done|constructor|by left|done]. }
  apply NoDup_cons in Hnd as [Hk0 Hnd].
  destruct (decide (k ∈ c)) as [Hk|Hk].
  { exists [], (k :: names). split_and!; [done|constructor|by left|by eauto]. }
  set (c1 := if msgOff + (total - zlen k) <? maxCompressionOffset then {[k]} ∪ c else c).
  specialize (IH c1 Hnd). destruct (search c1 msgOff total names) as [c' [l ok]].
  destruct IH as (seen & rest & -> & Hseen & Hc' & Hok).
  assert (forall x, x ∈ c1 -> x ∈ c \/ (x = k /\ msgOff + (total - zlen k) < maxCompressionOffset)) as Hc1.
  { unfold c1. intros x. destruct (Z.ltb_spec (msgOff + (total - zlen k)) maxCompressionOffset); [|by left].
    intros [->%elem_of_singleton|Hx]%elem_of_union; [by right|by left]. }
  assert (forall x, x ∈ c -> x ∈ c1) as Hsub by (unfold c1; intros; destruct (_ <? _); set_solver).
  exists (k :: seen), rest. split_and!; [done| | |].
  - constructor; [done|]. eapply Forall_impl; [exact Hseen|]. intros x Hx ?. by apply Hx, Hsub.
  - intros x Hx. apply Hc' in Hx as [Hx|[Hx ?]]; [|right; split; [by right|done]].
    apply Hc1 in Hx as [?|[-> ?]]; [by left|right]. split; [left|done].
  - destruct ok; [|done]. destruct Hok as (x & rest' & -> & -> & Hx). exists x, rest'. split_and!; [done|done|].
    apply Hc1 in Hx as [?|[-> _]]; [done|]. exfalso. apply Hk0, elem_of_app. right; left.
Qed.

(** ** Names in canonical form *)

Fixpoint tails {A} (l : list A) : list (list A) :=
  match l with [] => [] | x :: l' => (x :: l') :: tails l' end.

Lemma undotted_show l : undotted false (show_label l) = true.
Proof.
  induction l as [|b l IH]; [done|]. unfold show_label. cbn [map concat]. apply undotted_app; [|exact IH].
  clear. revert b. assert (forallb (fun n => undotted false (escape_byte (byte_of n))) (seqZ 0 256) = true) as H by (vm_compute; reflexivity).
  intros b. rewrite <- (byte_of_bval b). pose proof (bval_range b).
  apply (forallb_seqZ _ 256 (bval b) H). lia.
Qed.

Lemma show_labels_cons l ls : show_labels (l :: ls) = show_label l ++ ch_dot :: show_labels ls.
Proof. unfold show_labels. cbn [map concat]. by rewrite <- app_assoc. Qed.

Lemma suffixes_show ls : suffixes (show_labels ls) = map show_labels (tails ls).
Proof.
  induction ls as [|l ls IH]; [done|]. cbn [tails map]. rewrite show_labels_cons, suffixes_label by apply undotted_show.
  by rewrite IH.
Qed.

Lemma tails_app_inv {A} (l : list A) : forall i, exists d, l = d ++ drop i l /\
  tails l = take i (tails l) ++ tails (drop i l) /\ length d = (i `min` length l)%nat.
Proof.
  induction l as [|x l IH]; intros [|i]; try (by exists []).
  destruct (IH i) as (d & E1 & E2 & E3). exists (x :: d). cbn [drop tails take app length]. rewrite <- E1, <- E2. split_and!; [done|done|lia].
Qed.

Lemma elem_of_tails {A} (t l : list A) : t ∈ tails l -> t <> [] /\ exists d, l = d ++ t.
Proof.
  induction l as [|x l IH]; cbn [tails]; [by intros ?%elem_of_nil|].
  intros [->|H]%elem_of_cons; [split; [done|by exists []]|].
  destruct (IH H) as (Hne & d & ->). split; [done|]. by exists (x :: d).
Qed.

Lemma tails_app {A} (d t : list A) : forall x, x ∈ tails t -> x ∈ tails (d ++ t).
Proof. induction d as [|y d IH]; intros x Hx; [done|]. cbn. right. by apply IH. Qed.

Lemma length_tails {A} (l : list A) : length (tails l) = length l.
Proof. induction l; cbn; [done|by f_equal]. Qed.

(** What a successful call of [packDomainName] did with the map. *)
Lemma packDomainName_mapped s ls msg off cm compress msg' off' cm' :
  0 <= off <= zlen msg -> s <> [] -> s <> [ch_dot] -> valid cm = true -> parse_from [] s = Some ls ->
  packDomainName s msg off cm compress = Ok (msg', off', cm') ->
  zlen msg' = zlen msg /\ valid cm' = true /\ exists keys rest done_ n,
    suffixes s = map fst keys ++ suffixes rest /\ length keys = length done_ /\
    (exists lrest, ls = done_ ++ lrest /\ parse_from [] rest = Some lrest) /\
    Forall (fun ko => off <= ko.2 <= off + (zlen s - zlen ko.1) /\ ko.2 < off' /\ zlen rest < zlen ko.1) keys /\
    mapped cm compress cm' keys /\ off' = off + wire_len done_ + n /\
    ((rest = [] /\ n = 1) \/ (compress = true /\ n = 2 /\ rest <> [] /\ is_Some (find cm' rest))).
Proof.
  intros Hoff Hs0 Hs1 Hv Hp. unfold packDomainName. destruct s as [|c0 s0] eqn:Es; [done|]. rewrite <- Es in *.
  destruct (IsFqdn s) eqn:Hf; [|done]. cbn [negb]. intros H. apply bind_Ok in H as ([st ptr] & Hloop & Hfin).
  pose proof (pack_loop_ensures s msg off cm compress Hs1 Hoff (or_intror (IsFqdn_last s Hf))) as Hpost.
  rewrite Hloop in Hpost. destruct Hpost as (g & Hg & Hptr). cbn [fst snd] in *.
  pose proof (pi_off _ _ _ _ _ _ _ Hg) as [Ho Hole].
  pose proof (zlen_msg _ _ _ _ _ Hoff _ _ Hg) as Hml. pose proof (wire_len_nonneg (g_done g)) as Hw0.
  pose proof (pi_parse _ _ _ _ _ _ _ Hg) as Hparse. rewrite Hp in Hparse. symmetry in Hparse.
  apply fmap_Some in Hparse as (lrest & Hrest & Hls).
  destruct (pi_comp _ _ _ _ _ _ _ Hg) as (_ & _ & Hrs). destruct (pi_keys _ _ _ _ _ _ _ Hg) as [Hk Hkl].
  pose proof (pi_koff _ _ _ _ _ _ _ Hg) as Hko. pose proof (pi_map _ _ _ _ _ _ _ Hg Hv) as Hmap.
  pose proof (pi_valid _ _ _ _ _ _ _ Hg) as Hval. destruct (pi_rawc _ _ _ _ _ _ _ Hg) as [Hrc _].
  (* the root test fails on a name that parses *)
  destruct (root_finish (E := Z * error) s msg off cm compress st g Hg) as (b & Eb & Hroot).
  unfold pack_finish in Hfin. rewrite Eb in Hfin. cbn [mbind res_bind] in Hfin. destruct b.
  { exfalso. specialize (Hroot eq_refl). destruct ptr as [p|].
    - destruct Hptr as (_ & Hcur & (r1 & Hr) & _). rewrite Hr in Hroot. destruct (g_cur g); [done|zlia].
    - rewrite Hptr in *. cbn in Hrest. case_decide as Hc; [|done]. rewrite Hc, app_nil_r, (pi_dpre _ _ _ _ _ _ _ Hg) in Hroot.
      pose proof (pi_done _ _ _ _ _ _ _ Hg) as Hall. destruct Hall as [|l ls' Hl Hall]; cbn in Hroot; [done|].
      pose proof (wire_len_nonneg ls'). change (zlen (@nil byte)) with 0 in Hroot. lia. }
  assert (forall n, 0 <= n -> Forall (fun ko => off <= ko.2 <= off + (zlen s - zlen ko.1) /\ ko.2 < ps_off st + n /\
    zlen (g_rs g) < zlen ko.1) (g_keys g)) as Hko'.
  { intros n Hn. eapply Forall_impl; [exact Hko|]. intros ko. cbn. lia. }
  assert (zlen (ztake off msg ++ wire_labels (g_done g)) = ps_off st) as Hpre
    by (rewrite zlen_app, zlen_wire_labels, zlen_ztake; lia).
  destruct ptr as [p|].
  - destruct Hptr as (Hc & Hcur & (r1 & Hr) & Hfind & Hroom).
    rewrite (pi_msg _ _ _ _ _ _ _ Hg), app_assoc, PutUint16_tail in Hfin;
      [|done|done].
    cbn [mbind res_bind] in Hfin. injection Hfin as <- <- <-.
    split; [|split; [by rewrite Hval|]].
    { rewrite zlen_app, Hpre. autorewrite with zlen. rewrite zlen_zdrop by lia. lia. }
    exists (g_keys g), (g_rs g), (g_done g), 2. split_and!; try done.
    + exists lrest. by rewrite Hrs.
    + by apply Hko'.
    + lia.
    + right. split_and!; [done|done| |by eexists]. rewrite Hrc, Hr. by destruct (g_rawc g).
  - destruct (Z.ltb_spec (ps_off st) (zlen (ps_msg st))) as [Hlt|]; [|done]. injection Hfin as <- <- <-.
    rewrite Hptr in Hrest. cbn in Hrest. case_decide as Hc; [|done].
    destruct (pi_short _ _ _ _ _ _ _ Hg) as (_ & _ & Hrawc). rewrite (Hrawc Hc), Hptr in Hrc. cbn in Hrc.
    injection Hrest as <-. split.
    { rewrite (pi_msg _ _ _ _ _ _ _ Hg), app_assoc, blit_tail by (done || zlia). rewrite zlen_app, Hpre. autorewrite with zlen.
      rewrite zlen_zdrop by zlia. zlia. }
    split; [by rewrite Hval|]. exists (g_keys g), (g_rs g), (g_done g), 1. split_and!; try done.
    + exists []. by rewrite Hrc.
    + apply Hko'. lia.
    + lia.
    + by left.
Qed.

(** ** The contract *)

(** The names a call of [len] has seen are in the map of the packer that is at
    [off]; while pointers can reach [off], so are all names that enclose them. *)
Record related (cm : compressionMap) (c : gset bytes) (off : Z) : Prop := {
  rel_valid : valid cm = true;
  rel_seen : forall k, k ∈ c -> is_Some (find cm k);
  rel_closed : off < maxCompressionOffset ->
    forall k k', is_Some (find cm k) -> k' ∈ suffixes k -> is_Some (find cm k') }.

Abbreviation len_fun := (Z -> option (gset bytes) -> res error (Z * option (gset bytes))).

(** [fits n pk ln]: with room for [n] octets packing succeeds, and takes at most
    what [ln] counts, with any names seen before and from any offset that is not
    smaller; that is at most [n]. *)
Definition fits (n : Z) (pk : packer) (ln : len_fun) : Prop :=
  forall msg off lo cm c, 0 <= off <= lo -> off + n <= zlen msg -> related cm c off ->
    exists k c' msg' off' cm', ln lo (Some c) = Ok (k, Some c') /\ k <= n /\
      pk msg off cm = Ok (msg', off', cm') /\ zlen msg' = zlen msg /\ off <= off' <= off + k /\
      related cm' c' off'.

Lemma related_later cm c off off' : related cm c off -> off <= off' -> related cm c off'.
Proof. intros [H1 H2 H3] Hle. split; [done|done|]. intros Hlt. apply H3. lia. Qed.

(** *** Names *)

(** The uncompressed length, as [domainNameLen] computes it. *)
Definition whole_len (s : bytes) : res error Z :=
  if bool_decide (ch_bslash ∈ s) then escapedNameLen s else Ok (zlen s).

Lemma parses_show ls : Forall (fun l => 1 <= zlen l < 64) ls -> parses [] (show_labels ls) ls.
Proof.
  intros Hls. apply parse_from_parses, parse_show_labels. eapply Forall_impl; [exact Hls|]. intros [|]; [zlia|done].
Qed.

Lemma whole_len_show ls : Forall (fun l => 1 <= zlen l < 64) ls -> whole_len (show_labels ls) = Ok (wire_len ls).
Proof.
  intros Hls%parses_show. unfold whole_len. case_bool_decide as Hb; [by apply escapedNameLen_parses|].
  by rewrite (plain_wire_len _ _ _ Hls Hb).
Qed.

Lemma domainNameLen_unfold s off c compress : s <> [] -> s <> [ch_dot] ->
  domainNameLen s off (Some c) compress =
  if compress || (off <? maxCompressionOffset) then
    let '(c', (l, ok)) := search c off (zlen s) (suffixes s) in
    if ok && compress then
      if bool_decide (ch_bslash ∈ s) then p ← index (slice s 0 l); n ← escapedNameLen p; Ok (n + 2, Some c')
      else Ok (l + 2, Some c')
    else n ← whole_len s; Ok (n + 1, Some c')
  else n ← whole_len s; Ok (n + 1, Some c).
Proof.
  intros H1 H2. unfold domainNameLen, whole_len. rewrite !decide_False by done. case_match.
  - rewrite compressionLenSearch_spec by done. gosimp. destruct (search _ _ _ _) as [c' [l ok]].
    destruct (ok && compress); by destruct (bool_decide _).
  - by destruct (bool_decide _).
Qed.

Lemma bslash_app (p q : bytes) : ch_bslash ∉ p ++ q -> ch_bslash ∉ p.
Proof. intros H ?. apply H, elem_of_app. by left. Qed.

Lemma show_labels_shorter t ls : t ∈ tails ls -> zlen (show_labels t) <= zlen (show_labels ls).
Proof.
  intros [_ (d & ->)]%elem_of_tails. rewrite show_labels_app, zlen_app. pose proof (zlen_nonneg (show_labels d)). lia.
Qed.

Lemma NoDup_show ls : NoDup (map show_labels (tails ls)).
Proof.
  induction ls as [|l ls IH]; [constructor|]. cbn [tails map]. constructor; [|exact IH].
  intros (t & E & Ht)%list_elem_of_fmap. apply show_labels_shorter in Ht. rewrite <- E, show_labels_cons in Ht.
  pose proof (zlen_nonneg (show_label l)). zlia.
Qed.

(** The length of a name, and what it adds to the names seen. *)
Lemma domainNameLen_seen ls lo c compress : Forall (fun l => 1 <= zlen l < 64) ls -> ls <> [] ->
  let s := show_labels ls in
  exists k c', domainNameLen s lo (Some c) compress = Ok (k, Some c') /\
    (forall x, x ∈ c' -> x ∈ c \/
       (exists t, t ∈ tails ls /\ x = show_labels t /\ lo + (zlen s - zlen x) < maxCompressionOffset)) /\
    (k = wire_len ls + 1 \/
     (compress = true /\ exists d t, ls = d ++ t /\ t <> [] /\ show_labels t ∈ c /\ k = wire_len d + 2)).
Proof.
  intros Hls Hne s. assert (s <> [ch_dot]) as Hdot.
  { unfold s. destruct ls as [|l ls']; [done|]. rewrite show_labels_cons. apply Forall_cons in Hls as [Hl _].
    unfold show_label. destruct l as [|b l]; [zlia|]. cbn [map concat]. intros E. apply (f_equal zlen) in E.
    rewrite !zlen_app in E. pose proof (zlen_nonneg (concat (map escape_byte l))). pose proof (zlen_nonneg (show_labels ls')).
    assert (1 <= zlen (escape_byte b)) by (unfold escape_byte; repeat case_match; zlia). zlia. }
  assert (s <> []) as Hs0 by (intros E; apply show_labels_nil in E; done).
  assert (whole_len s = Ok (wire_len ls)) as Hw by by apply whole_len_show.
  rewrite domainNameLen_unfold, Hw by done. gosimp. case_match; [|by exists (wire_len ls + 1), c; split_and!; [|by left|by left]].
  pose proof (search_spec lo (zlen s) (suffixes s) c) as Hsp. unfold s in Hsp. rewrite suffixes_show in Hsp.
  specialize (Hsp (NoDup_show ls)). fold s in Hsp. unfold s at 2. rewrite suffixes_show.
  destruct (search c lo (zlen s) (map show_labels (tails ls))) as [c' [l ok]].
  destruct Hsp as (seen & rest & Hsr & _ & Hc' & Hok).
  assert (forall x, x ∈ c' -> x ∈ c \/
    exists t, t ∈ tails ls /\ x = show_labels t /\ lo + (zlen s - zlen x) < maxCompressionOffset) as Hseen.
  { intros x Hx. apply Hc' in Hx as [?|[Hx ?]]; [by left|right].
    assert (x ∈ map show_labels (tails ls)) as (t & -> & Ht)%list_elem_of_fmap by (rewrite Hsr; apply elem_of_app; by left). by exists t. }
  destruct ok; cbn [andb]; [|eexists _, c'; split; [done|split; [done|by left]]].
  destruct compress; [|eexists _, c'; split; [done|split; [done|by left]]].
  destruct Hok as (k & rest' & -> & -> & Hk).
  assert (k ∈ map show_labels (tails ls)) as (t & -> & Ht)%list_elem_of_fmap by (rewrite Hsr; apply elem_of_app; right; left).
  apply elem_of_tails in Ht as [Ht (d & ->)]. exists (wire_len d + 2), c'. split; [|split; [done|right; split; [done|by exists d, t]]].
  assert (zlen s - zlen (show_labels t) = zlen (show_labels d)) as -> by (unfold s; rewrite show_labels_app, zlen_app; lia).
  assert (slice s 0 (zlen (show_labels d)) = Some (show_labels d)) as Hsl.
  { unfold s. rewrite show_labels_app. by apply (slice_mid [] (show_labels d) (show_labels t)). }
  apply Forall_app in Hls as [Hd%parses_show _]. case_bool_decide as Hb.
  - rewrite Hsl. gosimp. by rewrite (escapedNameLen_parses _ _ Hd).
  - rewrite (plain_wire_len [] (show_labels d) d Hd); [done|].
    unfold s in Hb. rewrite show_labels_app in Hb. by apply bslash_app in Hb.
Qed.

Lemma wire_len_pos ls : Forall (fun l => 1 <= zlen l < 64) ls -> ls <> [] -> 2 <= wire_len ls.
Proof. intros Hls Hne. destruct Hls as [|l ls Hl _]; [done|]. cbn. pose proof (wire_len_nonneg ls). lia. Qed.

(** The names a successful call looked up are the first ones. *)
Lemma keys_tails ls (keys : list (bytes * Z)) rest done_ lrest : Forall (fun l => 1 <= zlen l < 64) ls ->
  suffixes (show_labels ls) = map fst keys ++ suffixes rest -> length keys = length done_ -> ls = done_ ++ lrest ->
  (rest <> [] -> rest = show_labels lrest) /\ (lrest <> [] -> rest <> []) /\
  forall t, t ∈ tails ls -> (exists o, (show_labels t, o) ∈ keys) \/ t ∈ tails lrest.
Proof.
  intros Hls Hk Hlen ->. rewrite suffixes_show in Hk.
  destruct (tails_app_inv (done_ ++ lrest) (length done_)) as (d & _ & Ht & _). rewrite drop_app_length in Ht.
  assert (length (take (length done_) (tails (done_ ++ lrest))) = length keys) as Hlt.
  { rewrite length_take, length_tails, length_app. lia. }
  rewrite Ht, map_app in Hk. apply app_inj_1 in Hk as [Hk Hr]; [|by rewrite !length_map].
  assert (rest <> [] -> exists x, suffixes rest = rest :: x) as Hhead.
  { intros Hne. unfold suffixes. rewrite decide_False by done. pose proof (segs_nonempty false rest) as Hn.
    destruct (segs false rest) as [|y l] eqn:E; [done|]. exists (enclosing l). cbn [enclosing]. f_equal. rewrite <- E. apply concat_segs. }
  split_and!.
  - intros Hne. destruct (Hhead Hne) as (x & E). rewrite E in Hr. by destruct lrest; [|injection Hr].
  - intros Hne ->. by destruct lrest.
  - intros t Hin. rewrite Ht in Hin. apply elem_of_app in Hin as [Hin|]; [left|by right].
    assert (show_labels t ∈ map fst keys) as ([k o] & -> & Ho)%list_elem_of_fmap by (rewrite <- Hk; by apply list_elem_of_fmap_2).
    by exists o.
Qed.

Lemma fits_labels ls compress : good_labels ls -> ls <> [] ->
  fits (wire_len ls + 1) (fun msg off cm => packDomainName (show_labels ls) msg off cm compress)
    (fun lo c => domainNameLen (show_labels ls) lo c compress).
Proof.
  intros Hgood Hne msg off lo cm c Hoff Hroom Hrel. pose proof (proj1 Hgood) as Hls.
  destruct (domainNameLen_seen ls lo c compress Hls Hne) as (k & c' & E & Hc' & Hk).
  pose proof (wire_len_nonneg ls) as Hw. set (s := show_labels ls) in *.
  assert (forall d t, ls = d ++ t -> 0 <= wire_len d /\ wire_len ls = wire_len d + wire_len t) as Happ.
  { intros d t ->. rewrite wire_len_app. split; [apply wire_len_nonneg|done]. }
  assert (forall d t, ls = d ++ t -> t <> [] -> 2 <= wire_len t) as Hpos.
  { intros d t -> Ht. apply wire_len_pos; [by apply Forall_app in Hls as [_ ?]|done]. }
  assert (exists msg' off' cm', packDomainName s msg off cm compress = Ok (msg', off', cm')) as (msg' & off' & cm' & Hpack).
  { destruct (carries_name ls compress Hgood off cm (zlen msg)) as [[? _]|(w & cm' & _ & _ & Hputs & _)]; [lia|lia|].
    destruct (Hputs msg eq_refl) as (m & Em & _). assert (show_name ls = s) as En by (by destruct ls).
    rewrite En in Em. by exists m, (off + zlen w), cm'. }
  exists k, c', msg', off', cm'. split; [done|]. split.
  { destruct Hk as [->|(_ & d & t & Hd & Ht & _ & ->)]; [lia|]. destruct (Happ d t Hd). specialize (Hpos d t Hd Ht). lia. }
  split; [done|]. destruct Hrel as [Hv Hseen Hclosed].
  assert (s <> []) as Hs0 by (intros H; by apply show_labels_nil in H).
  assert (s <> [ch_dot]) as Hdot.
  { intros H. pose proof (parses_show ls Hls) as Hp. fold s in Hp. rewrite H in Hp. inversion Hp; subst; done. }
  destruct (packDomainName_mapped s ls msg off cm compress msg' off' cm') as (Hml & Hv' & keys & rest & done_ & n & Hkeys & Hkl & (lrest & Hdone & _) & Hko & [Hmap Hmiss] & -> & Hend);
    [lia|done|done|done| |done|].
  { apply parse_show_labels. eapply Forall_impl; [exact Hls|]. intros [|]; [zlia|done]. }
  destruct (keys_tails ls keys rest done_ lrest Hls Hkeys Hkl Hdone) as (Hrest & Hrest0 & Hin).
  rewrite Forall_forall in Hko. pose proof (Happ _ _ Hdone) as [Hd0 Hdl].
  (* the rest, when there is one, was in the map before, and so is all that encloses it *)
  assert (rest <> [] -> is_Some (find cm rest)) as Hold.
  { intros Hr. destruct Hend as [[-> _]|(_ & _ & _ & Hf)]; [done|]. apply Hmap in Hf as [?|(o & Ho & _)]; [done|].
    apply Hko in Ho. cbn in Ho. lia. }
  assert (forall t, off < maxCompressionOffset -> t ∈ tails lrest -> is_Some (find cm' (show_labels t))) as Hlrest.
  { intros t Hlt Ht. assert (lrest <> []) as Hl by (by destruct lrest; [apply elem_of_nil in Ht|]).
    specialize (Hrest0 Hl). apply Hmap. left. apply (Hclosed Hlt rest); [by apply Hold|].
    rewrite (Hrest Hrest0), suffixes_show. by apply list_elem_of_fmap_2. }
  assert (off + wire_len done_ + n <= off + k) as Hsize.
  { destruct Hk as [->|(-> & d & t & Hd & Ht & Htc & ->)].
    - destruct Hend as [[-> ->]|(_ & -> & Hr & _)]; [pose proof (wire_len_nonneg lrest); lia|].
      assert (lrest <> []) as Hl. { intros ->. rewrite (Hrest Hr) in Hr. done. }
      specialize (Hpos _ _ Hdone Hl). lia.
    - assert (t ∈ tails ls) as Hts by (rewrite Hd; apply tails_app; destruct t; [done|left]).
      destruct (Hin t Hts) as [(o & Ho)|Htl].
      + exfalso. specialize (Hmiss eq_refl). rewrite Forall_forall in Hmiss. specialize (Hmiss _ Ho). cbn in Hmiss.
        destruct (Hseen _ Htc) as [p Hp]. congruence.
      + apply elem_of_tails in Htl as [_ (d2 & ->)].
        assert (d = done_ ++ d2) as ->.
        { rewrite Hd, app_assoc in Hdone. by apply app_inv_tail in Hdone. }
        rewrite wire_len_app. pose proof (wire_len_nonneg d2).
        destruct Hend as [[-> _]|(_ & -> & _)]; [|lia]. destruct (Hrest0 ltac:(by destruct d2, t)). done. }
  split; [done|]. split; [pose proof (wire_len_nonneg done_); destruct Hend as [[_ ->]|(_ & -> & _)]; lia|].
  assert (0 <= n) as Hn by (destruct Hend as [[_ ->]|(_ & -> & _)]; lia).
  split; [done| |].
  - intros x Hx. apply Hc' in Hx as [Hx|(t & Ht & -> & Hlt)]; [apply Hmap; left; by apply Hseen|].
    assert (zlen (show_labels t) <= zlen s) by by apply show_labels_shorter.
    destruct (Hin t Ht) as [(o & Ho)|Htl].
    + apply Hmap. right. exists o. split; [done|]. apply Hko in Ho. cbn in Ho. lia.
    + apply Hlrest; [lia|done].
  - intros Hlt x x' Hx Hx'. assert (off < maxCompressionOffset) as Hlt0 by lia.
    apply Hmap in Hx as [Hx|(o & Ho & _)]; [apply Hmap; left; by apply (Hclosed Hlt0 x)|].
    assert (x ∈ map show_labels (tails ls)) as (t0 & -> & Ht0)%list_elem_of_fmap.
    { rewrite <- suffixes_show. fold s. rewrite Hkeys. apply elem_of_app. left. apply list_elem_of_fmap. by exists (x, o). }
    rewrite suffixes_show in Hx'. apply list_elem_of_fmap in Hx' as (t & -> & Ht).
    apply elem_of_tails in Ht0 as [_ (d0 & Hd0')].
    destruct (Hin t) as [(o' & Ho')|Htl]; [rewrite Hd0'; by apply tails_app| |by apply Hlrest].
    apply Hmap. right. exists o'. split; [done|]. apply Hko in Ho'. cbn in Ho'. lia.
Qed.

Lemma fits_name s n compress : good_name s -> domainNameLen s 0 None compress = Ok (n, None) ->
  fits n (fun msg off cm => packDomainName s msg off cm compress) (fun lo c => domainNameLen s lo c compress).
Proof.
  intros (ls & Hls & ->) E. rewrite domainNameLen_show in E by done. injection E as <-.
  destruct ls as [|l ls]; [|by apply fits_labels].
  intros msg off lo cm c Hoff Hroom Hrel. cbn in Hroom. change (show_name []) with [ch_dot].
  eexists 1, c, _, (off + 1), cm. split; [done|]. split; [cbn; lia|]. rewrite pack_root by lia.
  rewrite (proj2 (Z.ltb_ge _ _)) by lia. split; [done|]. split; [|split; [lia|eapply related_later; [done|lia]]].
  autorewrite with zlen. rewrite zlen_ztake, zlen_zdrop by lia. lia.
Qed.

(** A name packed without compression and counted without looking at it. *)
Lemma fits_name_unseen s n m : good_name s -> domainNameLen s 0 None false = Ok (n, None) -> n <= m ->
  fits m (fun msg off cm => packDomainName s msg off cm false) (fun lo c => Ok (m, c)).
Proof.
  intros Hs E Hm msg off lo cm c Hoff Hroom Hrel. pose proof Hs as (ls & Hls & Hname).
  destruct (fits_name s n false Hs E msg off (Z.max lo maxCompressionOffset) cm c) as (k & c' & msg' & off' & cm' & E1 & Hk & Hp & Hl & Ho & Hr);
    [lia|lia|done|].
  exists m, c, msg', off', cm'. split; [done|]. split; [lia|]. split; [done|]. split; [done|]. split; [lia|].
  assert (c' = c) as ->; [|done].
  unfold domainNameLen in E1. rewrite (proj2 (Z.ltb_ge (Z.max lo maxCompressionOffset) _)) in E1 by lia. cbn [orb] in E1.
  clear E. repeat case_decide; try congruence;
    (case_bool_decide; [destruct (escapedNameLen s); cbn in E1; congruence|congruence]).
Qed.

(** *** Fields *)

(** A packer that leaves the map alone. *)
Definition keeps (pk : packer) : Prop :=
  forall msg off cm msg' off' cm', pk msg off cm = Ok (msg', off', cm') -> cm' = cm.

Lemma keeps_plain pk : keeps (plain pk).
Proof. intros msg off cm msg' off' cm' H. unfold plain in H. inv_bind H. destruct a. congruence. Qed.

Lemma fits_carries {A} tail n pk (up : unpacker A) v ln :
  carries tail n pk up v -> keeps pk -> (forall off c, ln off c = Ok (n, c)) -> 0 <= n -> fits n pk ln.
Proof.
  intros Hc Hk Hl Hn msg off lo cm c Hoff Hroom Hrel.
  destruct (Hc off cm (zlen msg)) as [[? _]|(w & cm' & Hw & _ & Hputs & _)]; [lia|lia|].
  destruct (Hputs msg eq_refl) as (m & E & Hm & _). pose proof (Hk _ _ _ _ _ _ E) as ->. pose proof (zlen_nonneg w).
  exists n, c, m, (off + zlen w), cm. split; [apply Hl|]. split; [lia|]. split; [done|]. split; [done|].
  split; [lia|]. eapply related_later; [done|lia].
Qed.

Lemma fits_ext (n : Z) (pk pk' : packer) (ln ln' : len_fun) :
  (forall msg off cm r, pk msg off cm = Ok r -> pk' msg off cm = Ok r) -> (forall off c, ln' off c = ln off c) ->
  fits n pk ln -> fits n pk' ln'.
Proof.
  intros Hp Hl H msg off lo cm c H1 H2 H3. destruct (H msg off lo cm c H1 H2 H3) as (k & c' & m & o & cm' & E & Hk & Hpk & Hr).
  exists k, c', m, o, cm'. rewrite Hl, (Hp _ _ _ _ Hpk). destruct Hr as (? & ? & ?). split_and!; (done || lia).
Qed.

Lemma fits_more n m pk ln : n <= m -> fits n pk ln -> fits m pk ln.
Proof.
  intros Hle H msg off lo cm c H1 H2 H3. destruct (H msg off lo cm c H1 ltac:(lia) H3) as (k & c' & m' & o & cm' & E & Hk & Hpk).
  exists k, c', m', o, cm'. split; [done|]. split; [lia|done].
Qed.

Lemma fits_seq n1 n2 pk1 pk2 ln1 ln2 : 0 <= n2 -> fits n1 pk1 ln1 -> fits n2 pk2 ln2 ->
  fits (n1 + n2) (fun msg off cm => '(msg, off, cm) ← pk1 msg off cm; pk2 msg off cm)
    (fun lo c => '(l, c) ← ln1 lo c; '(m, c) ← ln2 (lo + l) c; Ok (l + m, c)).
Proof.
  intros Hn2 H1 H2 msg off lo cm c Hoff Hroom Hrel.
  destruct (H1 msg off lo cm c Hoff ltac:(lia) Hrel) as (k1 & c1 & m1 & o1 & cm1 & E1 & Hk1 & P1 & L1 & O1 & R1).
  destruct (H2 m1 o1 (lo + k1) cm1 c1) as (k2 & c2 & m2 & o2 & cm2 & E2 & Hk2 & P2 & L2 & O2 & R2); [lia|lia|done|].
  exists (k1 + k2), c2, m2, o2, cm2. rewrite E1, P1. gosimp. rewrite E2, P2. gosimp. split_and!; (done || lia).
Qed.

Lemma fits_nothing (ln : len_fun) : (forall off c, ln off c = Ok (0, c)) -> fits 0 (fun msg off cm => Ok (msg, off, cm)) ln.
Proof. intros Hl msg off lo cm c Hoff _ Hrel. exists 0, c, msg, off, cm. rewrite Hl. split_and!; (done || lia). Qed.

(** Lists, counted with the running offset as [msgLenWithCompressionMap] does. *)
Lemma fits_each {A} (pk : A -> packer) (ln : A -> len_fun) (n : A -> Z) l :
  Forall (fun x => fits (n x) (pk x) (ln x)) l -> Forall (fun x => 0 <= n x) l ->
  fits (sum_with n l) (pack_each pk l)
    (fun lo c => '(e, c) ← foldM (fun '(lo, c) x => '(k, c) ← ln x lo c; Ok (lo + k, c)) (lo, c) l; Ok (e - lo, c)).
Proof.
  induction 1 as [|x l Hx Hl IH]; intros Hn.
  - eapply fits_ext; [| |apply (fits_nothing (fun _ c => Ok (0, c))); done]; [done|].
    intros lo c. cbn. by rewrite Z.sub_diag.
  - apply Forall_cons in Hn as [Hnx Hn]. specialize (IH Hn).
    assert (0 <= sum_with n l) as Hs by by apply sum_with_nonneg. cbn [sum_with].
    eapply fits_ext; [| |exact (fits_seq _ _ _ _ _ _ Hs Hx IH)].
    + intros msg off cm r E. unfold pack_each in *. cbn [foldM]. destruct (pk x msg off cm) as [[[? ?] ?]|?| |]; done.
    + intros lo c. cbn [foldM]. destruct (ln x lo c) as [[k c']|?| |]; gosimp; [|done..].
      destruct (foldM _ (lo + k, c') l) as [[e c'']|?| |]; gosimp; [|done..]. do 2 f_equal. lia.
Qed.

Definition is_name (t : ftag) : bool :=
  match t with F_cname | F_name | F_names | F_gateway _ => true | _ => false end.

Lemma keeps_field rr t v compress : is_name t = false -> keeps (pack_field rr t v compress).
Proof.
  intros Ht. destruct t; try done; destruct v; try (by intros ??????); cbn [pack_field]; try apply keeps_plain.
  destruct (bool_decide _); [|apply keeps_plain]. intros ?????? [= <- <- <-]. done.
Qed.

Lemma field_len_keeps rr t v off c : is_name t = false ->
  field_len rr t v off c = match field_len rr t v off None with Ok (n, _) => Ok (n, c) | r => r end.
Proof. by destruct t, v. Qed.

(** The running offset of [field_len] for a list of names is relative. *)
Lemma names_len_shift l off c : forall k,
  foldM (fun '(n, c) x => '(k, c) ← domainNameLen x (off + n) c false; Ok (n + k, c)) (k, c) l =
  ('(e, c) ← foldM (fun '(lo, c) x => '(k, c) ← domainNameLen x lo c false; Ok (lo + k, c)) (off + k, c) l; Ok (e - off, c)).
Proof.
  revert c. induction l as [|x l IH]; intros c k; cbn [foldM]; gosimp.
  - do 2 f_equal. lia.
  - destruct (domainNameLen x (off + k) c false) as [[n c']|?| |]; gosimp; [|done..].
    rewrite IH. by rewrite Z.add_assoc.
Qed.

Lemma fits_field rr t v : field_ok rr t v ->
  0 <= field_size rr t v /\
  fits (field_size rr t v) (pack_field rr t v true) (fun lo c => field_len rr t v lo c).
Proof.
  intros Hok. destruct (field_contract_ok rr rr true t v Hok ltac:(done)) as (Hlen & H0 & Hcar). split; [done|].
  destruct (is_name t) eqn:Ht.
  2: { eapply fits_carries; [exact Hcar|by apply keeps_field| |done].
       intros off c. by rewrite field_len_keeps, Hlen by done. }
  destruct t; try done; destruct v as [|s|l| | | | |a h]; try done; cbn in Hok.
  - exact (fits_name s _ true Hok (Hlen 0)).
  - exact (fits_name s _ false Hok (Hlen 0)).
  - (* names of a slice *)
    destruct Hok as (lss & Hls & ->).
    assert (forall ls, ls ∈ lss -> domainNameLen (show_name ls) 0 None false = Ok (wire_len ls + 1, None)) as Hd.
    { intros ls Hin. apply domainNameLen_show. rewrite Forall_forall in Hls. by apply Hls. }
    assert (Forall (fun x => fits (match domainNameLen x 0 None false with Ok (n, _) => n | _ => 0 end)
      (fun msg off cm => packDomainName x msg off cm false) (fun lo c => domainNameLen x lo c false)) (map show_name lss) /\
      Forall (fun x => 0 <= match domainNameLen x 0 None false with Ok (n, _) => n | _ => 0 end) (map show_name lss)) as [F1 F2].
    { split; apply Forall_forall; intros x (ls & -> & Hin)%list_elem_of_fmap; rewrite (Hd ls Hin).
      - apply fits_name; [|by apply Hd]. exists ls. split; [|done]. rewrite Forall_forall in Hls. by apply Hls.
      - pose proof (wire_len_nonneg ls). lia. }
    pose proof (fits_each _ _ _ _ F1 F2) as Hf.
    assert (field_size rr F_names (V_strs (map show_name lss)) = sum_with (fun x => match domainNameLen x 0 None false with Ok (n, _) => n | _ => 0 end) (map show_name lss)) as ->.
    { unfold field_size. cbn [field_len]. rewrite names_len, Z.add_0_l, sum_with_map by done. clear -Hd.
      induction lss as [|ls lss IH]; [done|]. cbn. rewrite (Hd ls) by left. rewrite IH; [done|]. intros. apply Hd. by right. }
    eapply fits_ext; [| |exact Hf].
    + intros msg off cm r. cbn [pack_field]. unfold packDataDomainNames, pack_each. clear. revert msg off cm.
      induction (map show_name lss) as [|x l IH]; intros msg off cm; [done|]. cbn [foldM].
      destruct (packDomainName x msg off cm false) as [[[m o] c]|?| |]; gosimp; [apply IH|done..].
    + intros lo c. cbn [field_len]. rewrite names_len_shift. by rewrite Z.add_0_r.
  - (* the gateway *)
    unfold field_size in *. cbn [field_len pack_field] in *. set (g := int_member rr _) in *. unfold packIPSECGateway in *.
    destruct Hok as [(-> & Ha & ->)|[(-> & Ha & ->)|[(-> & -> & Hh)|(H1 & H2 & H3 & -> & ->)]]];
      cbn [Z.eqb Pos.eqb IPSECGatewayIPv4 IPSECGatewayIPv6 IPSECGatewayHost] in *.
    + eapply fits_carries; [exact Hcar|apply keeps_plain|done|done].
    + eapply fits_carries; [exact Hcar|apply keeps_plain|done|done].
    + destruct Hh as (ls & Hls & ->). apply (fits_name_unseen _ (wire_len ls + 1)); [by exists ls|by apply domainNameLen_show|].
      pose proof (show_name_length ls Hls). lia.
    + rewrite (proj2 (Z.eqb_neq g _) H1), (proj2 (Z.eqb_neq g _) H2), (proj2 (Z.eqb_neq g _) H3). by apply fits_nothing.
Qed.

Lemma fits_fields rr fs : forall vs, Forall2 (fun f v => field_ok rr f.2 v) fs vs ->
  exists n, 0 <= n /\ (forall off, fields_len rr fs vs off None = Ok (n, None)) /\
    fits n (pack_fields rr fs vs true) (fun lo c => fields_len rr fs vs lo c).
Proof.
  induction fs as [|[name t] fs IH]; intros vs H.
  - apply Forall2_nil_inv_l in H as ->. exists 0. split; [done|]. split; [done|]. by apply fits_nothing.
  - apply Forall2_cons_inv_l in H as (v & vs' & Hv & Hvs & ->). cbn [snd] in Hv.
    destruct (IH vs' Hvs) as (n & Hn & Hlen & Hf). destruct (fits_field rr t v Hv) as [Hn0 Hf0].
    destruct (field_contract_ok rr rr true t v Hv ltac:(done)) as (Hl0 & _ & _).
    exists (field_size rr t v + n). split; [lia|]. split.
    + intros off. cbn [fields_len]. rewrite Hl0. gosimp. by rewrite Hlen.
    + exact (fits_seq _ _ _ _ _ _ Hn Hf0 Hf).
Qed.

Lemma fits_rdata k vs : rdata_ok k vs ->
  fits (rdata_len k vs) (pack_fields (members_of (fields k) vs) (fields k) vs true)
    (fun lo c => fields_len (members_of (fields k) vs) (fields k) vs lo c).
Proof.
  intros H. destruct (fits_fields _ _ _ H) as (n & _ & Hlen & Hf).
  assert (rdata_len k vs = n) as -> by (unfold rdata_len; by rewrite Hlen). done.
Qed.

(** *** Names followed by fixed bytes *)

Lemma fits_fixed pk w : fixed pk w -> fits (zlen w) (plain pk) (fun _ c => Ok (zlen w, c)).
Proof.
  intros Hw msg off lo cm c Hoff Hroom Hrel.
  destruct (fixed_puts pk w off cm (zlen msg) Hw ltac:(lia) ltac:(lia) msg eq_refl) as (m & E & Hm & _).
  pose proof (zlen_nonneg w). exists (zlen w), c, m, (off + zlen w), cm. split; [done|]. split; [lia|]. split; [done|].
  split; [done|]. split; [lia|]. eapply related_later; [done|lia].
Qed.

Lemma fits_header h : good_name (Name h) ->
  exists n, (forall off, hdr_len h off None = Ok (n, None)) /\ 0 < n /\
    fits n (packHeader h true) (fun lo c => hdr_len h lo c).
Proof.
  intros Hn. pose proof Hn as (ls & Hls & Hname). pose proof (wire_len_nonneg ls). exists (wire_len ls + 1 + 10).
  assert (forall off, domainNameLen (Name h) off None true = Ok (wire_len ls + 1, None)) as Hd
    by (intros; rewrite Hname; by apply domainNameLen_show).
  split; [intros off; unfold hdr_len; by rewrite Hd|]. split; [lia|].
  pose proof (fits_fixed _ _ (fixed_header_tail h)) as Hf. rewrite header_tail_length in Hf.
  assert (0 <= 10) as H10 by lia. pose proof (fits_seq _ _ _ _ _ _ H10 (fits_name _ _ true Hn (Hd 0)) Hf) as Hs.
  intros msg off lo cm c Hoff Hroom Hrel.
  destruct (Hs msg off lo cm c Hoff Hroom Hrel) as (k & c' & m & o & cm' & E & Hk & P & Hr).
  exists k, c', m, o, cm'. split; [unfold hdr_len; destruct (domainNameLen _ _ _ _) as [[? ?]|?| |]; done|]. split; [done|].
  split; [|done]. unfold packHeader. rewrite (proj2 (Z.eqb_neq _ _)) by lia.
  destruct (packDomainName _ _ _ _ _) as [[[m1 o1] c1]|?| |]; gosimp; [|done..]. unfold plain in P. gosimp.
  cbn [mbind res_bind] in P.
  destruct (packUint16 (Rrtype h) _ _) as [[m2 o2]|?| |]; gosimp; [|done..]. cbn [mbind res_bind] in P.
  destruct (packUint16 (Class_ h) _ _) as [[m3 o3]|?| |]; gosimp; [|done..]. cbn [mbind res_bind] in P.
  destruct (packUint32 (Ttl h) _ _) as [[m4 o4]|?| |]; gosimp; [|done..]. cbn [mbind res_bind] in P.
  destruct (packUint16 0 _ _) as [[m5 o5]|?| |]; gosimp; [|done..]. by injection P as -> -> ->.
Qed.

Lemma PutUint16_ok {E} msg off v : 0 <= off -> off + 2 <= zlen msg ->
  exists msg', @PutUint16 E msg off v = Ok msg' /\ zlen msg' = zlen msg.
Proof.
  intros H0 H2. unfold PutUint16. destruct (slice_exists msg off (off + 2)) as (w & -> & _); [lia..|]. gosimp.
  eexists. split; [done|]. destruct (split_window msg off 2) as (a & b & c & -> & Ha & Hb); [lia..|].
  rewrite blit_eq by done. rewrite !zlen_app. zlia.
Qed.

Lemma fits_rr rr : rr_ok rr -> fits (rr_size rr) (rr_packer rr true) (fun lo c => rr_len rr lo c).
Proof.
  intros Hok. pose proof Hok as ((Hn & _) & _ & Hd & Hmax). pose proof Hn as (ls & Hls & Hname).
  destruct (fits_header (Hdr rr) Hn) as (n & Hhl & Hn0 & Hfh).
  destruct (carries_rdata (struct rr) (data rr) true Hd) as (Hdl & Hd0 & _).
  assert (rr_size rr = n + rdata_len (struct rr) (data rr)) as ->.
  { unfold rr_size, rr_len. rewrite Hhl. gosimp. by rewrite Hdl. }
  intros msg off lo cm c Hoff Hroom Hrel.
  destruct (Hfh msg off lo cm c Hoff ltac:(lia) Hrel) as (k1 & c1 & m1 & o1 & cm1 & E1 & Hk1 & P1 & L1 & O1 & R1).
  destruct (fits_rdata _ _ Hd m1 o1 (lo + k1) cm1 c1) as (k2 & c2 & m2 & o2 & cm2 & E2 & Hk2 & P2 & L2 & O2 & R2); [lia|lia|done|].
  assert (off + 10 <= o1) as Hhdr.
  { pose proof (Hhl 0) as H. unfold hdr_len in H. rewrite Hname, domainNameLen_show in H by done. cbn in H. injection H as <-.
    destruct (packHeader_puts (Hdr rr) ls true off cm (zlen msg)) as (w1 & cm' & _ & Hp & _); [done|done|lia|lia|].
    destruct (Hp msg eq_refl) as (m & E & _). rewrite P1 in E. injection E as _ -> _.
    rewrite zlen_app, header_tail_length. pose proof (zlen_nonneg w1). lia. }
  destruct (@PutUint16_ok (Z * error) m2 (o1 - 2) ((o2 - o1) mod 65536)) as (m3 & E3 & L3); [lia|lia|].
  exists (k1 + k2), c2, m3, o2, cm2. split; [unfold rr_len; rewrite E1; gosimp; by rewrite E2|]. split; [lia|].
  split; [|split; [lia|split; [lia|done]]].
  unfold rr_packer, packRR, rr_pack. rewrite P1. gosimp. rewrite P2. unfold at_len. gosimp.
  rewrite Z.mod_small, Z.eqb_refl by lia. cbn [negb]. rewrite Z.mod_small in E3 by lia. by rewrite E3.
Qed.

(** *** Questions and messages *)

Lemma fits_question q : question_ok q -> fits (question_size q) (Question_pack q true) (fun lo c => Question_len q lo c).
Proof.
  intros (Hn & Hty & Hcl). pose proof Hn as (ls & Hls & Hname).
  assert (forall off, domainNameLen (q_Name q) off None true = Ok (wire_len ls + 1, None)) as Hd
    by (intros; rewrite Hname; by apply domainNameLen_show).
  assert (question_size q = wire_len ls + 1 + 4) as -> by (unfold question_size, Question_len; by rewrite Hd).
  assert (fixed (fun msg off => '(msg, off) ← packUint16 (Qtype q) msg off; packUint16 (Qclass q) msg off)
    (be 2 (Qtype q) ++ be 2 (Qclass q))) as Hf by (apply fixed_seq; apply fixed_uint16).
  apply fits_fixed in Hf. rewrite zlen_app, !be_length in Hf. assert (0 <= 4) as H4 by lia.
  eapply fits_ext; [| |exact (fits_seq _ _ _ _ _ _ H4 (fits_name _ _ true Hn (Hd 0)) Hf)].
  - intros msg off cm r. unfold Question_pack, plain.
    destruct (packDomainName _ _ _ _ _) as [[[m1 o1] c1]|?| |]; gosimp; [|done..].
    by destruct (packUint16 (Qtype q) _ _) as [[m2 o2]|?| |]; gosimp.
  - intros lo c. unfold Question_len. by destruct (domainNameLen _ _ _ _) as [[? ?]|?| |].
Qed.

(** One section, with the running length. *)
Lemma fits_section {A} (pk : A -> packer) (ln : A -> len_fun) (n : A -> Z) l msg off lo cm c :
  Forall (fun x => fits (n x) (pk x) (ln x)) l -> Forall (fun x => 0 <= n x) l ->
  0 <= off <= lo -> off + sum_with n l <= zlen msg -> related cm c off ->
  exists e c' msg' off' cm', foldM (fun '(l, c) r => '(n, c) ← ln r l c; Ok (l + n, c)) (lo, Some c) l = Ok (e, Some c') /\
    e <= lo + sum_with n l /\ pack_each pk l msg off cm = Ok (msg', off', cm') /\ zlen msg' = zlen msg /\
    off <= off' /\ off' - off <= e - lo /\ related cm' c' off'.
Proof.
  intros Hl Hn Hoff Hroom Hrel.
  destruct (fits_each pk ln n l Hl Hn msg off lo cm c Hoff Hroom Hrel) as (k & c' & m & o & cm' & E & Hk & P & L & O & R).
  destruct (foldM _ (lo, Some c) l) as [[e c1]|?| |] eqn:Ef; [|done..]. cbn in E. injection E as <- ->.
  exists e, c', m, o, cm'. rewrite P. split_and!; (done || lia).
Qed.

Lemma related_empty : related {| ext := None; int_ := Some ∅ |} ∅ 0.
Proof.
  split; [done|set_solver|]. intros _ k k' [p Hp]. cbn in Hp. by rewrite lookup_empty in Hp.
Qed.

Lemma msg_size_nonneg m : msg_ok m -> 12 <= msg_size m.
Proof.
  intros (_ & _ & _ & Hq & Ha & Hn & He%extra_ok_rr & _). unfold msg_size, headerSize.
  pose proof (questions_nonneg _ Hq). pose proof (rrs_nonneg _ Ha). pose proof (rrs_nonneg _ Hn). pose proof (rrs_nonneg _ He). lia.
Qed.

(** Packing with compression takes at most what is counted with compression. *)
Lemma pack_pieces_fits m msg : msg_ok m -> msg_size m <= zlen msg ->
  exists k c' msg' off' cm', msgLenWithCompressionMap m (Some ∅) = Ok (k, Some c') /\ k <= msg_size m /\
    pack_pieces m true msg 0 {| ext := None; int_ := Some ∅ |} = Ok (msg', off', cm') /\
    zlen msg' = zlen msg /\ 0 <= off' <= k.
Proof.
  intros (_ & _ & _ & Hq & Ha & Hn & He%extra_ok_rr & _) Hroom.
  pose proof (questions_nonneg _ Hq). pose proof (rrs_nonneg _ Ha). pose proof (rrs_nonneg _ Hn). pose proof (rrs_nonneg _ He).
  assert (forall l, Forall rr_ok l -> Forall (fun r => fits (rr_size r) (rr_packer r true) (fun lo c => rr_len r lo c)) l /\
    Forall (fun r => 0 <= rr_size r) l) as Hrr.
  { intros l Hl. split; (eapply Forall_impl; [exact Hl|]); [apply fits_rr|apply rr_size_nonneg]. }
  destruct (Hrr _ Ha) as [Fa Na], (Hrr _ Hn) as [Fn Nn], (Hrr _ He) as [Fe Ne].
  assert (Forall (fun q => fits (question_size q) (Question_pack q true) (fun lo c => Question_len q lo c)) (Question_ m)) as Fq
    by (eapply Forall_impl; [exact Hq|apply fits_question]).
  assert (Forall (fun q => 0 <= question_size q) (Question_ m)) as Nq by (eapply Forall_impl; [exact Hq|apply question_size_nonneg]).
  unfold msg_size, headerSize in *.
  destruct (fits_fixed _ _ (fixed_header (wire_header m)) msg 0 0 {| ext := None; int_ := Some ∅ |} ∅) as (k0 & c0 & m0 & o0 & cm0 & E0 & _ & P0 & L0 & O0 & R0);
    [lia|rewrite header_wire_length; lia|apply related_empty|].
  rewrite header_wire_length in *. injection E0 as <- <-.
  destruct (fits_section _ _ _ _ m0 o0 12 cm0 ∅ Fq Nq) as (e1 & c1 & m1 & o1 & cm1 & E1 & K1 & P1 & L1 & O1 & O1' & R1); [lia|lia|done|].
  destruct (fits_section _ _ _ _ m1 o1 e1 cm1 c1 Fa Na) as (e2 & c2 & m2 & o2 & cm2 & E2 & K2 & P2 & L2 & O2 & O2' & R2); [lia|lia|done|].
  destruct (fits_section _ _ _ _ m2 o2 e2 cm2 c2 Fn Nn) as (e3 & c3 & m3 & o3 & cm3 & E3 & K3 & P3 & L3 & O3 & O3' & R3); [lia|lia|done|].
  destruct (fits_section _ _ _ _ m3 o3 e3 cm3 c3 Fe Ne) as (e4 & c4 & m4 & o4 & cm4 & E4 & K4 & P4 & L4 & O4 & O4' & R4); [lia|lia|done|].
  exists e4, c4, m4, o4, cm4. unfold msgLenWithCompressionMap. unfold headerSize. rewrite E1. gosimp. rewrite E2. gosimp. rewrite E3. gosimp.
  split; [exact E4|]. split; [lia|]. split; [|split; [lia|lia]].
  unfold pack_pieces. rewrite P0. gosimp. rewrite P1. gosimp. rewrite P2. gosimp. rewrite P3. gosimp. exact P4.
Qed.

(** Without compression the length is that of the packed message; with it, a bound. *)
Lemma Len_ok m : msg_ok m -> exists n, Len m = Ok n /\ n <= msg_size m /\
  (forall buf b, rcode_carried m ->
    (if Compress m && isCompressible m then pack_body m buf {| ext := None; int_ := Some ∅ |} true = Ok b
     else pack_body m buf nil_map false = Ok b) -> zlen b <= n).
Proof.
  intros Hok. unfold Len. destruct (Compress m && isCompressible m) eqn:Ec.
  - destruct (pack_pieces_fits m (replicate (Z.to_nat (msg_size m)) x00) Hok) as (k & c' & _ & _ & _ & E & Hk & _).
    { pose proof (msg_size_nonneg m Hok). unfold zlen. rewrite length_replicate. lia. }
    rewrite E. gosimp. exists k. split; [done|]. split; [done|]. intros buf b _ Hb. unfold pack_body in Hb.
    rewrite msg_len_ok in Hb by done. cbn [mbind res_bind] in Hb.
    set (msg := if zlen buf <? msg_size m + 1 then _ else buf) in *.
    assert (msg_size m <= zlen msg) as HL.
    { unfold msg. pose proof (msg_size_nonneg m Hok). destruct (Z.ltb_spec (zlen buf) (msg_size m + 1)); [|lia].
      unfold zlen at 1. rewrite length_replicate. lia. }
    destruct (pack_pieces_fits m msg Hok HL) as (k2 & c2 & m2 & o2 & cm2 & E2 & _ & P2 & L2 & O2).
    rewrite E in E2. injection E2 as <- <-. rewrite P2 in Hb. cbn [on_err mbind res_bind] in Hb.
    apply index_Ok in Hb. apply slice_inv in Hb as (_ & _ & Hl & _). lia.
  - rewrite msg_len_ok by done. gosimp. exists (msg_size m). split; [done|]. split; [done|]. intros buf b Hrc Hb.
    destruct (@pack_body_layout error m buf nil_map false Hok ltac:(done)) as (wq & wa & wn & we & Eb & Hsz & _).
    rewrite Eb in Hb. by injection Hb as <-.
Qed.

(** The extended rcode is not part of the length. *)
Lemma foldM_update_last {S} (g : S -> RR -> res error S) t f l : (forall s r, g s (f r) = g s r) ->
  forall s, foldM g s (update_last t f l) = foldM g s l.
Proof.
  intros Hg. induction l as [|r l IH]; intros s; [done|]. cbn [update_last].
  destruct (last_of_type t l); cbn [foldM].
  - destruct (g s r); gosimp; [apply IH|done..].
  - destruct (_ =? _); cbn [foldM]; by rewrite ?Hg.
Qed.

(** What packing leaves in the receiver keeps its other parts. *)
Lemma packed_msg_Compress m : Compress (packed_msg m) = Compress m /\ isCompressible (packed_msg m) = isCompressible m.
Proof.
  unfold packed_msg. destruct (last_of_type TypeOPT (Extra m)); [|done]. split; [done|]. unfold isCompressible.
  cbn [Question_ Answer Ns Extra set_Extra]. unfold zlen. by rewrite length_update_last.
Qed.

Lemma Len_packed_msg m : Len (packed_msg m) = Len m.
Proof.
  assert (forall c, msgLenWithCompressionMap (packed_msg m) c = msgLenWithCompressionMap m c) as Hm.
  { intros c. unfold packed_msg. destruct (last_of_type TypeOPT (Extra m)); [|done]. unfold msgLenWithCompressionMap.
    cbn [Question_ Answer Ns Extra set_Extra]. destruct (foldM _ _ (Question_ m)); gosimp; [|done..].
    destruct (foldM _ _ (Answer m)); gosimp; [|done..]. destruct (foldM _ _ (Ns m)); gosimp; [|done..].
    apply foldM_update_last. intros [l c'] x. by destruct x. }
  destruct (packed_msg_Compress m) as [Hc Hi].
  unfold Len. by rewrite Hm, Hc, Hi.
Qed.

Lemma PackBuffer_bounded m buf : msg_ok m -> rcode_fits m ->
  exists b n, PackBuffer m buf = (packed_msg m, Ok b) /\ Len m = Ok n /\ zlen b <= n.
Proof.
  intros Hok Hfit. destruct (@PackBuffer_ok error m buf Hok Hfit) as (b & E & _ & Hb & _).
  destruct (Len_ok (packed_msg m) (packed_msg_ok m Hok)) as (n & El & _ & Hle).
  rewrite Len_packed_msg in El. exists b, n. split; [done|]. split; [done|].
  destruct (packed_msg_Compress m) as [Hc Hi]. rewrite Hc, Hi in Hle. apply (Hle buf); [by apply packed_msg_rcode|].
  exact Hb.
Qed.

(** ** Theorems *)

(** C6: [Len] is never too small: a well-formed message packs, into whatever
    buffer, to at most as many octets as [Len] says, with compression (where it
    is a bound) and without. *)
Theorem Len_bounds_Pack m buf : msg_ok m -> rcode_fits m ->
  exists m' b n, PackBuffer m buf = (m', Ok b) /\ Len m = Ok n /\ zlen b <= n.
Proof. intros Hok Hfit. destruct (PackBuffer_bounded m buf Hok Hfit) as (b & n & H). by exists (packed_msg m), b, n. Qed.

Lemma Len_bounds_Pack_witness : exists m' b, PackBuffer example_msg [] = (m', Ok b) /\ zlen b <= 66.
Proof.
  destruct (Len_bounds_Pack example_msg [] example_msg_ok) as (m' & b & n & H1 & H2 & H3); [intros _; by eexists|].
  exists m', b. split; [exact H1|]. assert (Len example_msg = Ok 66) as E by (vm_compute; reflexivity).
  rewrite E in H2. assert (n = 66) as -> by congruence. exact H3.
Defined.
