(* ===== verification/Truncate.v ===== *)
(** * msg_truncate.go: fitting a reply into a buffer

    [Truncate] against its documentation: the result packs into the size that
    was asked for, keeps a prefix of every section and the OPT record, and has
    the TC bit exactly when it had it before or a record was dropped.  The
    sizes are those of [Len] (Lengths.v). *)

From S2P Require Import Prelude Go Utf8 Labels Escape Names NameDecode NameEncode NameLen Wire Codec NameCarry Text Nsec Encodings Apl Edns Svcb RData RDataCarry RR RRCarry Msg MsgCarry Build Lengths.

Definition MinMsgSize : Z := 512.

(** [dns.IsTsig() != nil], on the records themselves. *)
Definition has_tsig (dns : Msg) : res error bool :=
  match last (Extra dns) with
  | None => Ok false
  | Some r => if Rrtype (Hdr r) =? TypeTSIG
              then (if decide (struct r = RR_TSIG) then Ok true else Panic) else Ok false
  end.

(** [append(dns.Extra[:i], dns.Extra[i+1:]...)] for the last record of type [t]. *)
Fixpoint remove_last (t : Z) (l : list RR) : list RR :=
  match l with
  | [] => []
  | r :: l =>
      match last_of_type t l with
      | Some _ => r :: remove_last t l
      | None => if Rrtype (Hdr r) =? t then l else r :: l
      end
  end.

Definition pop_opt (dns : Msg) : res error (option RR * Msg) :=
  opt ← IsEdns0 dns;
  Ok (opt, match opt with Some _ => set_Extra (remove_last TypeOPT (Extra dns)) dns | None => dns end).

(** The loop of [truncateLoop] from the record at [i]. *)
Fixpoint truncate_from (size i : Z) (rrs : list RR) (l : Z) (c : option (gset bytes))
    : res error (Z * Z * option (gset bytes)) :=
  match rrs with
  | [] => Ok (l, i, c)
  | r :: rrs =>
      '(n, c) ← rr_len r l c;
      let l := l + n in
      if size <? l then Ok (size, i, c)
      else if l =? size then Ok (l, i + 1, c)
      else truncate_from size (i + 1) rrs l c
  end.

Definition truncateLoop (rrs : list RR) (size l : Z) (compression : option (gset bytes))
    : res error (Z * Z * option (gset bytes)) :=
  truncate_from size 0 rrs l compression.

(** [if l < size { l, n = truncateLoop(...) }]. *)
Definition truncate_section (rrs : list RR) (size : Z) (lc : Z * option (gset bytes))
    : res error (Z * option (gset bytes) * Z) :=
  let '(l, c) := lc in
  if l <? size then '(l, n, c) ← truncateLoop rrs size l c; Ok (l, c, n) else Ok (l, c, 0).

Definition set_Compress (c : bool) (m : Msg) : Msg :=
  MkMsg (hdr m) c (Question_ m) (Answer m) (Ns m) (Extra m).
Definition set_Truncated (b : bool) (h : MsgHdr) : MsgHdr :=
  MkMsgHdr (Id h) (Response h) (Opcode h) (Authoritative h) b (RecursionDesired h)
    (RecursionAvailable h) (Zero h) (AuthenticatedData h) (CheckingDisabled h) (Rcode h).

Definition Truncate (dns : Msg) (size : Z) : res error Msg :=
  tsig ← has_tsig dns;
  if tsig : bool then Ok dns else
  let size := if size <? MinMsgSize then MinMsgSize else size in
  '(l, _) ← msgLenWithCompressionMap dns None;
  if l <=? size then Ok (set_Compress false dns) else
  let dns := set_Compress true dns in
  '(edns0, dns) ← pop_opt dns;
  size ← (match edns0 with
          | Some o => '(n, _) ← rr_len o 0 None; Ok (size - n)
          | None => Ok size
          end);
  lc ← foldM (fun '(l, c) r => '(n, c) ← Question_len r l c; Ok (l + n, c)) (headerSize, Some ∅) (Question_ dns);
  '(lc, numAnswer) ← truncate_section (Answer dns) size lc;
  '(lc, numNS) ← truncate_section (Ns dns) size lc;
  '(_, numExtra) ← truncate_section (Extra dns) size lc;
  let tc := Truncated (hdr dns) || (numAnswer <? zlen (Answer dns)) || (numNS <? zlen (Ns dns)) || (numExtra <? zlen (Extra dns)) in
  let extra := ztake numExtra (Extra dns) in
  Ok (MkMsg (set_Truncated tc (hdr dns)) (Compress dns) (Question_ dns) (ztake numAnswer (Answer dns)) (ztake numNS (Ns dns))
        (match edns0 with Some o => extra ++ [o] | None => extra end)).

(** ** Lengths are always defined *)

(** A length function that neither fails nor loses the names seen. *)
Definition counts (ln : len_fun) : Prop := forall lo c, exists k c', ln lo (Some c) = Ok (k, Some c') /\ 0 <= k.

Lemma counts_seq (ln1 ln2 : len_fun) : counts ln1 -> counts ln2 ->
  counts (fun lo c => '(l, c) ← ln1 lo c; '(m, c) ← ln2 (lo + l) c; Ok (l + m, c)).
Proof.
  intros H1 H2 lo c. destruct (H1 lo c) as (k1 & c1 & E1 & K1). destruct (H2 (lo + k1) c1) as (k2 & c2 & E2 & K2).
  exists (k1 + k2), c2. rewrite E1. gosimp. rewrite E2. gosimp. split; [done|lia].
Qed.

Lemma counts_name s compress : good_name s -> counts (fun lo c => domainNameLen s lo c compress).
Proof.
  intros (ls & (Hls & _) & ->) lo c. destruct ls as [|l ls]; [by exists 1, c|].
  destruct (domainNameLen_seen (l :: ls) lo c compress Hls ltac:(done)) as (k & c' & E & _ & Hk). exists k, c'.
  split; [exact E|]. pose proof (wire_len_nonneg (l :: ls)). destruct Hk as [->|(_ & d & t & _ & _ & _ & ->)]; [lia|].
  pose proof (wire_len_nonneg d). lia.
Qed.

Lemma counts_names l : Forall good_name l -> forall k, 0 <= k ->
  forall lo c, exists k' c', foldM (fun '(n, c) x => '(k, c) ← domainNameLen x (lo + n) c false; Ok (n + k, c)) (k, Some c) l
    = @Ok error _ (k', Some c') /\ 0 <= k'.
Proof.
  induction 1 as [|x l Hx _ IH]; intros k Hk lo c; [by exists k, c|]. cbn [foldM].
  destruct (counts_name x false Hx (lo + k) c) as (n & c' & E & Hn). rewrite E. gosimp. apply IH. lia.
Qed.

Lemma counts_field rr t v : field_ok rr t v -> counts (fun lo c => field_len rr t v lo c).
Proof.
  intros Hok. destruct (field_contract_ok rr rr true t v Hok ltac:(done)) as (Hlen & H0 & _). intros lo c.
  destruct (is_name t) eqn:Ht.
  2: { rewrite field_len_keeps, Hlen by done. by exists (field_size rr t v), c. }
  destruct t; try done; destruct v as [|s|l| | | | |a h]; try done; cbn in Hok.
  - by apply counts_name.
  - by apply counts_name.
  - destruct Hok as (lss & Hls & ->). cbn [field_len]. apply counts_names; [|done].
    apply Forall_forall. intros x (ls & -> & Hin)%list_elem_of_fmap. exists ls. rewrite Forall_forall in Hls. split; [by apply Hls|done].
  - eexists _, c. split; [reflexivity|exact H0].
Qed.

Lemma counts_fields rr fs : forall vs, Forall2 (fun f v => field_ok rr f.2 v) fs vs -> counts (fun lo c => fields_len rr fs vs lo c).
Proof.
  induction fs as [|[name t] fs IH]; intros vs H.
  - apply Forall2_nil_inv_l in H as ->. intros lo c. by exists 0, c.
  - apply Forall2_cons_inv_l in H as (v & vs' & Hv & Hvs & ->).
    exact (counts_seq _ _ (counts_field rr t v Hv) (IH vs' Hvs)).
Qed.

(** A record takes at least its type, class, TTL and length. *)
Definition measured (r : RR) : Prop := forall lo c, exists k c', rr_len r lo (Some c) = Ok (k, Some c') /\ 10 <= k.

Lemma rr_measured r : rr_ok r -> measured r.
Proof.
  intros ((Hn & _) & _ & Hd & _) lo c. unfold rr_len, hdr_len. destruct (counts_name _ true Hn lo c) as (k & c' & E & Hk).
  rewrite E. gosimp. destruct (counts_fields _ _ _ Hd (lo + (k + 10)) c') as (k2 & c2 & E2 & Hk2). rewrite E2. gosimp.
  exists (k + 10 + k2), c2. split; [done|lia].
Qed.

Lemma rrs_measured l : Forall rr_ok l -> Forall measured l.
Proof. intros H. eapply Forall_impl; [exact H|]. apply rr_measured. Qed.

Lemma counts_question q : question_ok q -> counts (fun lo c => Question_len q lo c).
Proof.
  intros (Hn & _) lo c. destruct (counts_name _ true Hn lo c) as (k & c' & E & Hk). unfold Question_len. rewrite E. gosimp.
  exists (k + 4), c'. split; [done|lia].
Qed.

(** The running length of a section, as [msgLenWithCompressionMap] computes it. *)
Abbreviation section_len ln := (foldM (fun '(l, c) r => '(n, c) ← ln r l c; Ok (l + n, c))).

Lemma ztake_S {A} n (x : A) l : 0 <= n -> ztake (n + 1) (x :: l) = x :: ztake n l.
Proof. intros Hn. unfold ztake. by replace (Z.to_nat (n + 1)) with (S (Z.to_nat n)) by lia. Qed.

(** One record more than [n] does not fit. *)
Definition full (size lo : Z) (c : gset bytes) (l : list RR) (n : Z) : Prop :=
  exists e c', section_len rr_len (lo, Some c) (ztake (n + 1) l) = @Ok error _ (e, Some c') /\ size < e.

Lemma full_at_size size lo c l : Forall measured l -> 0 < zlen l -> size <= lo -> full size lo c l 0.
Proof.
  intros [|r l' Hr _] Hl Hlo; [done|]. destruct (Hr lo c) as (k & c' & E & Hk). exists (lo + k), c'.
  rewrite ztake_S by done. cbn [foldM ztake]. rewrite E. gosimp. split; [done|lia].
Qed.

Lemma full_cons size lo c r l n k c1 : rr_len r lo (Some c) = Ok (k, Some c1) -> 0 <= n ->
  full size (lo + k) c1 l n -> full size lo c (r :: l) (n + 1).
Proof.
  intros E Hn (e & c' & Hs & He). exists e, c'. rewrite ztake_S by lia. cbn [foldM]. rewrite E. gosimp. by split.
Qed.

(** ** The loop *)

(** The records kept fit, and one more would not. *)
Lemma truncate_from_spec size l : Forall measured l -> forall i lo c, lo < size ->
  exists l' c' n e ce, truncate_from size i l lo (Some c) = Ok (l', i + n, Some c') /\ 0 <= n <= zlen l /\
    section_len rr_len (lo, Some c) (ztake n l) = Ok (e, Some ce) /\ lo <= e <= l' /\ l' <= size /\
    (l' < size -> n = zlen l /\ ce = c') /\ (n = zlen l -> e = l') /\ (n < zlen l -> full size lo c l n).
Proof.
  induction 1 as [|r l Hr Hl IH]; intros i lo c Hlo.
  - exists lo, c, 0, lo, c. cbn [truncate_from]. rewrite Z.add_0_r. split_and!; (done || lia).
  - destruct (Hr lo c) as (k & c1 & E & Hk). cbn [truncate_from]. rewrite E. gosimp.
    destruct (Z.ltb_spec size (lo + k)).
    + exists size, c1, 0, lo, c. rewrite Z.add_0_r. split_and!; try done; try zlia.
      intros _. exists (lo + k), c1. rewrite ztake_S by done. cbn [foldM ztake]. by rewrite E.
    + destruct (Z.eqb_spec (lo + k) size) as [Heq|Hne].
      * exists (lo + k), c1, 1, (lo + k), c1. split_and!; try done; try zlia.
        -- rewrite (ztake_S 0) by done. cbn [foldM ztake]. by rewrite E.
        -- intros Hn. apply (full_cons _ _ _ _ _ 0 k c1); [done..|]. apply full_at_size; [done|zlia|lia].
      * destruct (IH (i + 1) (lo + k) c1) as (l' & c' & n & e & ce & E' & Hn & Hs & He & Hl' & Hall & Hsame & Hfull); [lia|].
        exists l', c', (n + 1), e, ce. rewrite E'. split_and!; try done; try zlia.
        -- do 3 f_equal. lia.
        -- rewrite ztake_S by lia. cbn [foldM]. rewrite E. gosimp. exact Hs.
        -- intros Hlt. destruct (Hall Hlt) as [-> ?]. split; [zlia|done].
        -- intros H1. apply (full_cons _ _ _ _ _ n k c1); [done|lia|]. apply Hfull. zlia.
Qed.

(** The loop's running length [(l, c)] against the length [(e, ce)] of what is
    kept: the same until the size is reached. *)
Definition tracks (size l : Z) (c : gset bytes) (e : Z) (ce : gset bytes) : Prop :=
  e <= l <= size /\ (l < size -> e = l /\ ce = c).

Lemma truncate_section_spec size rrs l c e ce : Forall rr_ok rrs -> tracks size l c e ce ->
  exists l' c' n e' ce', truncate_section rrs size (l, Some c) = Ok (l', Some c', n) /\ 0 <= n <= zlen rrs /\
    section_len rr_len (e, Some ce) (ztake n rrs) = @Ok error _ (e', Some ce') /\ tracks size l' c' e' ce' /\
    (l' < size -> n = zlen rrs) /\ (l = size -> n = 0 /\ l' = size) /\
    (e = l -> (n = zlen rrs -> e' = l') /\ (n < zlen rrs -> full size e ce rrs n)).
Proof.
  intros Hl%rrs_measured [He Hsame]. unfold truncate_section. destruct (Z.ltb_spec l size) as [Hlt|Hge].
  - destruct (Hsame Hlt) as [-> ->].
    destruct (truncate_from_spec size rrs Hl 0 l c Hlt) as (l' & c' & n & e' & ce' & E & Hn & Hs & He' & Hl' & Hall & Heq & Hfull).
    exists l', c', n, e', ce'. unfold truncateLoop. rewrite E. gosimp. split_and!; try done; try lia.
    split; [lia|]. intros H. destruct (Hall H) as [Hz ->]. split; [by apply Heq|done].
  - exists l, c, 0, e, ce. pose proof (zlen_nonneg rrs). split_and!; try done; try lia.
    intros ->. split; [done|]. intros Hn. apply full_at_size; [done|done|lia].
Qed.

(** ** The OPT record *)

Lemma last_of_type_perm t l r : last_of_type t l = Some r -> l ≡ₚ remove_last t l ++ [r].
Proof.
  revert r. induction l as [|x l IH]; intros r; [done|]. cbn [last_of_type remove_last].
  destruct (last_of_type t l) as [r'|] eqn:E.
  - intros [= <-]. cbn. by rewrite <- IH.
  - destruct (_ =? _); intros [= <-]. by rewrite Permutation_cons_append.
Qed.

Lemma last_of_type_snoc t l r : Rrtype (Hdr r) = t -> last_of_type t (l ++ [r]) = Some r.
Proof.
  intros <-. induction l as [|x l IH]; cbn [last_of_type app]; [by rewrite Z.eqb_refl|by rewrite IH].
Qed.

(** A record without names at the root takes the same everywhere. *)
Lemma rr_len_root r lo c : extra_ok r -> Rrtype (Hdr r) = TypeOPT -> Name (Hdr r) = [ch_dot] ->
  rr_len r lo (Some c) = Ok (rr_size r, Some c).
Proof.
  intros [(_ & _ & Hd & _) Ho] Ht Hn. specialize (Ho Ht). unfold rr_size, rr_len, hdr_len. rewrite Hn, Ho in *.
  change (domainNameLen [ch_dot] lo (Some c) true) with (@Ok error _ (1, Some c)).
  change (domainNameLen [ch_dot] 0 None true) with (@Ok error (Z * option (gset bytes)) (1, None)). gosimp.
  unfold rdata_ok in Hd. change (fields RR_OPT) with OPT_fields in *. unfold OPT_fields in *.
  apply Forall2_cons_inv_l in Hd as (v & vs & Hv & Hvs & Ed). apply Forall2_nil_inv_l in Hvs as ->. rewrite Ed.
  cbn [snd] in Hv. destruct v; try done.
Qed.

(** The part of a reply that is never dropped. *)
Definition opt_size (m : Msg) : Z := match last_of_type TypeOPT (Extra m) with Some o => rr_size o | None => 0 end.
Definition base_size (m : Msg) : Z := headerSize + sum_with question_size (Question_ m) + opt_size m.

Lemma ztake_prefix {A} n (l : list A) : ztake n l ++ zdrop n l = l.
Proof. apply take_drop. Qed.

Lemma Forall_ztake {A} (P : A -> Prop) n l : Forall P l -> Forall P (ztake n l).
Proof. apply Forall_take. Qed.

Lemma zlen_ztake_le {A} n (l : list A) : zlen (ztake n l) <= zlen l.
Proof. unfold zlen, ztake. rewrite length_take. lia. Qed.

Lemma Forall_remove_last (P : RR -> Prop) t l : Forall P l -> Forall P (remove_last t l).
Proof.
  induction 1 as [|x l Hx Hl IH]; [constructor|]. cbn [remove_last].
  destruct (last_of_type t l); [by constructor|]. destruct (_ =? _); [done|by constructor].
Qed.

Lemma last_of_type_take t l n : last_of_type t l = None -> last_of_type t (ztake n l) = None.
Proof.
  unfold ztake. generalize (Z.to_nat n). clear n. induction l as [|x l IH]; intros [|n]; try done. cbn [last_of_type take].
  destruct (last_of_type t l) as [r|]; [done|]. by destruct (_ =? _); [|rewrite IH].
Qed.

Lemma remove_last_none t l : last_of_type t l = None -> remove_last t l = l.
Proof. induction l as [|x l IH]; [done|]. cbn [last_of_type remove_last]. destruct (last_of_type t l); [done|]. by destruct (_ =? _). Qed.

Lemma zlen_remove_last t l : zlen l = zlen (remove_last t l) + zlen (option_list (last_of_type t l)).
Proof.
  destruct (last_of_type t l) as [r|] eqn:E; cbn [option_list].
  - apply last_of_type_perm, Permutation_length in E. rewrite length_app in E. unfold zlen. rewrite E. cbn. lia.
  - rewrite remove_last_none by done. zlia.
Qed.

(** The message with so many records of each section kept; the OPT record
    stays, and TC is set when a record was left out. *)
Definition cut (m : Msg) (na nn ne : Z) : Msg :=
  let extra := remove_last TypeOPT (Extra m) in
  MkMsg (set_Truncated (Truncated (hdr m) || (na <? zlen (Answer m)) || (nn <? zlen (Ns m)) || (ne <? zlen extra)) (hdr m))
    true (Question_ m) (ztake na (Answer m)) (ztake nn (Ns m)) (ztake ne extra ++ option_list (last_of_type TypeOPT (Extra m))).

(** A message that was cut is still well formed. *)
Lemma cut_ok m na nn ne : msg_ok m -> rcode_fits m -> msg_ok (cut m na nn ne) /\ rcode_fits (cut m na nn ne).
Proof.
  intros (Hid & Hop & Hrc & Hq & Ha & Hn & He & Lq & La & Ln & Le) Hfit.
  pose proof (zlen_remove_last TypeOPT (Extra m)) as Hlen.
  assert (Forall extra_ok (option_list (last_of_type TypeOPT (Extra m)))) as Heo.
  { destruct (last_of_type TypeOPT (Extra m)) as [o|] eqn:Ho; [|constructor]. apply last_of_type_In in Ho as [Hin _].
    rewrite Forall_forall in He. constructor; [by apply He|constructor]. }
  split.
  - do 3 (split; [done|]). cbn [Answer Ns Extra Question_ cut]. split; [done|]. split; [by apply Forall_ztake|].
    split; [by apply Forall_ztake|]. split; [apply Forall_app; split; [by apply Forall_ztake, Forall_remove_last|done]|].
    split; [done|]. pose proof (zlen_ztake_le na (Answer m)). pose proof (zlen_ztake_le nn (Ns m)).
    pose proof (zlen_ztake_le ne (remove_last TypeOPT (Extra m))). rewrite zlen_app. lia.
  - intros Hhigh. cbn [hdr cut Rcode set_Truncated] in Hhigh. destruct (Hfit Hhigh) as [r Hr]. exists r.
    cbn [Extra cut]. rewrite Hr. cbn [option_list]. apply last_of_type_snoc. by apply last_of_type_In in Hr as [_ ?].
Qed.

(** The length of the questions, names shared or not. *)
Lemma Question_len_le q lo c : question_ok q -> exists k c', Question_len q lo (Some c) = Ok (k, Some c') /\ 0 <= k <= question_size q.
Proof.
  intros Hq. destruct (counts_question q Hq lo c) as (k & c' & E & Hk). exists k, c'. split; [done|]. split; [done|].
  destruct Hq as ((ls & Hls & Hname) & _). unfold question_size. rewrite (Question_len_ok q ls) by done.
  unfold Question_len in E. rewrite Hname in E. destruct ls as [|l ls].
  - change (domainNameLen (show_name []) lo (Some c) true) with (@Ok error _ (1, Some c)) in E.
    cbn [mbind res_bind] in E. assert (k = 1 + 4) as -> by congruence. done.
  - destruct (domainNameLen_seen (l :: ls) lo c true (proj1 Hls) ltac:(done)) as (n & c2 & E2 & _ & Hn).
    change (show_name (l :: ls)) with (show_labels (l :: ls)) in E. rewrite E2 in E.
    assert (k = n + 4) as -> by (cbn [mbind res_bind] in E; congruence).
    destruct Hn as [->|(_ & d & t & Hdt & Hne & _ & ->)]; [lia|]. rewrite Hdt.
    assert (2 <= wire_len t). { apply wire_len_pos; [|done]. destruct Hls as [Hls _]. rewrite Hdt in Hls. by apply Forall_app in Hls as [_ ?]. }
    rewrite wire_len_app. lia.
Qed.

Lemma questions_len size l lo : Forall question_ok l -> lo + sum_with question_size l <= size -> forall c,
  exists e c', section_len Question_len (lo, Some c) l = @Ok error _ (e, Some c') /\ lo <= e <= size.
Proof.
  intros Hl. revert lo. induction Hl as [|q l Hq Hl IH]; intros lo Hs c; [exists lo, c; split; [done|cbn in Hs; lia]|].
  cbn [foldM sum_with] in *. destruct (Question_len_le q lo c Hq) as (k & c1 & E & Hk). rewrite E. gosimp.
  destruct (IH (lo + k) ltac:(lia) c1) as (e & c' & E' & He). exists e, c'. split; [done|lia].
Qed.

Lemma pop_opt_ok m : msg_ok m ->
  pop_opt m = Ok (last_of_type TypeOPT (Extra m), set_Extra (remove_last TypeOPT (Extra m)) m).
Proof.
  intros (_ & _ & _ & _ & _ & _ & He & _). unfold pop_opt, IsEdns0. destruct (last_of_type TypeOPT (Extra m)) as [o|] eqn:Ho.
  - destruct (last_of_type_In _ _ _ Ho) as [Hin Ht]. rewrite Forall_forall in He. destruct (He o Hin) as [_ Hs].
    destruct (decide _) as [|Hn]; [done|]. by destruct Hn; apply Hs.
  - gosimp. rewrite remove_last_none by done. by destruct m.
Qed.

Lemma opt_len m o : msg_ok m -> last_of_type TypeOPT (Extra m) = Some o -> Name (Hdr o) = [ch_dot] ->
  0 <= rr_size o /\ rr_len o 0 None = Ok (rr_size o, None) /\ forall lo c, rr_len o lo (Some c) = Ok (rr_size o, Some c).
Proof.
  intros (_ & _ & _ & _ & _ & _ & He & _) [Hin Ht]%last_of_type_In Hn. rewrite Forall_forall in He. pose proof (He o Hin) as Ho.
  assert (forall lo c, rr_len o lo (Some c) = Ok (rr_size o, Some c)) as Hroot by (intros; by apply rr_len_root).
  destruct (rr_measured o (proj1 Ho) 0 ∅) as (k & c' & E & Hk). rewrite Hroot in E. assert (k = rr_size o) as -> by congruence.
  split; [lia|]. split; [by apply rr_len_size, Ho|done].
Qed.

Lemma opt_size_nonneg m : msg_ok m -> (forall o, last_of_type TypeOPT (Extra m) = Some o -> Name (Hdr o) = [ch_dot]) ->
  0 <= opt_size m.
Proof.
  intros Hok Hroot. unfold opt_size. destruct (last_of_type TypeOPT (Extra m)) as [o|] eqn:Ho; [|done].
  by destruct (opt_len m o Hok Ho (Hroot o eq_refl)).
Qed.

(** The length of a cut message, when names are shared. *)
Lemma Len_cut m na nn ne e0 c0 e1 c1 e2 c2 e3 c3 : msg_ok m ->
  (forall o, last_of_type TypeOPT (Extra m) = Some o -> Name (Hdr o) = [ch_dot]) ->
  section_len Question_len (headerSize, Some ∅) (Question_ m) = Ok (e0, Some c0) ->
  section_len rr_len (e0, Some c0) (ztake na (Answer m)) = Ok (e1, Some c1) ->
  section_len rr_len (e1, Some c1) (ztake nn (Ns m)) = Ok (e2, Some c2) ->
  section_len rr_len (e2, Some c2) (ztake ne (remove_last TypeOPT (Extra m))) = Ok (e3, Some c3) ->
  isCompressible (cut m na nn ne) = true -> Len (cut m na nn ne) = Ok (e3 + opt_size m).
Proof.
  intros Hok Hroot Hq Ha Hn Hx Hc. unfold Len, msgLenWithCompressionMap. rewrite Hc. cbn [Compress andb Question_ Answer Ns Extra cut].
  rewrite Hq. gosimp. rewrite Ha. gosimp. rewrite Hn. gosimp. rewrite foldM_app, Hx. gosimp. unfold opt_size.
  destruct (last_of_type TypeOPT (Extra m)) as [o|] eqn:Ho; [|gosimp; by rewrite Z.add_0_r].
  change (option_list (Some o)) with [o]. cbn [foldM].
  destruct (opt_len m o Hok Ho (Hroot o eq_refl)) as (_ & _ & ->). by gosimp.
Qed.

Lemma isCompressible_false m : isCompressible m = false -> Answer m = [] /\ Ns m = [] /\ Extra m = [].
Proof.
  unfold isCompressible. intros [[[_ Ha]%orb_false_elim Hn]%orb_false_elim He]%orb_false_elim.
  destruct (Answer m), (Ns m), (Extra m); done.
Qed.

(** A message cut down to what is not compressed at all is no longer than its base. *)
Lemma Len_cut_base m na nn ne : msg_ok m -> rcode_fits m -> isCompressible (cut m na nn ne) = false ->
  Len (cut m na nn ne) = Ok (base_size m).
Proof.
  intros Hok Hfit Hc. destruct (isCompressible_false _ Hc) as (Ha & Hn & He).
  unfold Len. rewrite Hc, andb_false_r. destruct (cut_ok m na nn ne Hok Hfit) as [Hcut _].
  rewrite msg_len_ok by exact Hcut. gosimp. unfold msg_size, base_size, opt_size.
  rewrite Ha, Hn, He. cbn [Question_ cut sum_with]. cbn [cut Extra] in He. apply app_eq_nil in He as [_ He].
  destruct (last_of_type TypeOPT (Extra m)); [done|]. f_equal. cbn. lia.
Qed.

(** One record more than [cut m na nn ne]: the first of those left out. *)
Definition one_more (m : Msg) (na nn ne : Z) : Msg :=
  if na <? zlen (Answer m) then cut m (na + 1) 0 0
  else if nn <? zlen (Ns m) then cut m na (nn + 1) 0 else cut m na nn (ne + 1).

(** The longest cut of [m] within [size]: a record is kept only if all before
    it, in the order of the sections, are kept too. *)
Definition longest_cut (size : Z) (m : Msg) (na nn ne : Z) : Prop :=
  0 <= na <= zlen (Answer m) /\ 0 <= nn <= zlen (Ns m) /\ 0 <= ne <= zlen (remove_last TypeOPT (Extra m)) /\
  (na < zlen (Answer m) -> nn = 0) /\ (na < zlen (Answer m) \/ nn < zlen (Ns m) -> ne = 0) /\
  (exists n, Len (cut m na nn ne) = Ok n /\ n <= size) /\
  (na < zlen (Answer m) \/ nn < zlen (Ns m) \/ ne < zlen (remove_last TypeOPT (Extra m)) ->
   exists n, Len (one_more m na nn ne) = Ok n /\ size < n).

Lemma isCompressible_some m : Answer m <> [] \/ Ns m <> [] \/ Extra m <> [] -> isCompressible m = true.
Proof.
  intros H. destruct (isCompressible m) eqn:E; [done|]. apply isCompressible_false in E as (Ea & En & Ee). by destruct H as [H|[H|H]].
Qed.

Lemma ztake_some {A} n (l : list A) : 0 <= n < zlen l -> ztake (n + 1) l <> [].
Proof. intros Hn. destruct l; [zlia|]. by rewrite ztake_S by lia. Qed.

Lemma ztake_0 {A} (l : list A) : ztake 0 l = [].
Proof. done. Qed.

(** The second half of [Truncate]: the three loops. *)
Lemma cut_sections m S : msg_ok m -> rcode_fits m ->
  (forall o, last_of_type TypeOPT (Extra m) = Some o -> Name (Hdr o) = [ch_dot]) -> base_size m <= S ->
  exists na nn ne, longest_cut S m na nn ne /\
    exists e0 c0 lc1 lc2 lc3, section_len Question_len (headerSize, Some ∅) (Question_ m) = Ok (e0, c0) /\
      truncate_section (Answer m) (S - opt_size m) (e0, c0) = Ok (lc1, na) /\
      truncate_section (Ns m) (S - opt_size m) lc1 = Ok (lc2, nn) /\
      truncate_section (remove_last TypeOPT (Extra m)) (S - opt_size m) lc2 = Ok (lc3, ne).
Proof.
  intros Hok Hfit Hroot Hbase. destruct (Hok) as (_ & _ & _ & Hq & Ha & Hn & He%extra_ok_rr & _).
  unfold base_size in Hbase. set (sz := S - opt_size m).
  destruct (questions_len sz (Question_ m) headerSize Hq ltac:(lia) ∅) as (e0 & c0 & E0 & H0).
  destruct (truncate_section_spec sz (Answer m) e0 c0 e0 c0 Ha) as (l1 & k1 & na & e1 & c1 & T1 & N1 & S1 & R1 & A1 & F1 & M1); [split; [lia|done]|].
  destruct (truncate_section_spec sz (Ns m) l1 k1 e1 c1 Hn R1) as (l2 & k2 & nn & e2 & c2 & T2 & N2 & S2 & R2 & A2 & F2 & M2).
  destruct (truncate_section_spec sz (remove_last TypeOPT (Extra m)) l2 k2 e2 c2 (Forall_remove_last _ _ _ He) R2)
    as (l3 & k3 & ne & e3 & c3 & T3 & N3 & S3 & R3 & A3 & F3 & M3).
  exists na, nn, ne. split; [|by eexists e0, _, _, _, _].
  destruct R1 as [B1 _], R2 as [B2 _], R3 as [B3 _]. destruct (M1 eq_refl) as [M1a M1b].
  assert (na < zlen (Answer m) -> l1 = sz) as Hl1 by (intros; destruct (Z.eq_dec l1 sz); [done|lia]).
  assert (nn < zlen (Ns m) -> l2 = sz) as Hl2 by (intros; destruct (Z.eq_dec l2 sz); [done|lia]).
  split; [done|]. split; [done|]. split; [done|]. split; [intros H; by apply F2, Hl1|].
  split; [intros [H|H]; apply F3; [by apply F2, Hl1|by apply Hl2]|]. split.
  - destruct (isCompressible (cut m na nn ne)) eqn:Ec.
    + eexists. split; [by eapply Len_cut|]. lia.
    + eexists. split; [by apply Len_cut_base|]. unfold base_size. lia.
  - intros Hdrop. unfold one_more. destruct (Z.ltb_spec na (zlen (Answer m))) as [Hna|Hna].
    { destruct (M1b Hna) as (e & c & Se & Hlt). exists (e + opt_size m). split; [|lia].
      eapply Len_cut; try done. apply isCompressible_some. left. apply ztake_some; lia. }
    destruct (M2 (M1a ltac:(lia))) as [M2a M2b]. destruct (Z.ltb_spec nn (zlen (Ns m))) as [Hnn|Hnn].
    { destruct (M2b Hnn) as (e & c & Se & Hlt). exists (e + opt_size m). split; [|lia].
      eapply Len_cut; try done. apply isCompressible_some. right; left. apply ztake_some; lia. }
    destruct (M3 (M2a ltac:(lia))) as [_ M3b]. destruct (M3b ltac:(lia)) as (e & c & Se & Hlt). exists (e + opt_size m). split; [|lia].
    eapply Len_cut; try done. apply isCompressible_some. right; right. cbn [Extra cut].
    intros [Hx _]%app_eq_nil. revert Hx. apply ztake_some. lia.
Qed.

Lemma Truncate_spec m size : msg_ok m -> rcode_fits m -> has_tsig m = Ok false ->
  (forall o, last_of_type TypeOPT (Extra m) = Some o -> Name (Hdr o) = [ch_dot]) ->
  base_size m <= Z.max MinMsgSize size ->
  if msg_size m <=? Z.max MinMsgSize size then Truncate m size = Ok (set_Compress false m)
  else exists na nn ne, Truncate m size = Ok (cut m na nn ne) /\ longest_cut (Z.max MinMsgSize size) m na nn ne.
Proof.
  intros Hok Hfit Ht Hroot Hbase. unfold Truncate. rewrite Ht. gosimp.
  assert ((if size <? MinMsgSize then MinMsgSize else size) = Z.max MinMsgSize size) as -> by (case_match; lia).
  set (S := Z.max MinMsgSize size) in *. rewrite msg_len_ok by done. gosimp. destruct (msg_size m <=? S); [done|].
  destruct (cut_sections m S Hok Hfit Hroot Hbase) as (na & nn & ne & Hcut & e0 & c0 & lc1 & lc2 & lc3 & E0 & E1 & E2 & E3).
  exists na, nn, ne. split; [|done].
  assert (pop_opt (set_Compress true m) = Ok (last_of_type TypeOPT (Extra m), set_Extra (remove_last TypeOPT (Extra m)) (set_Compress true m))) as ->
    by by apply (pop_opt_ok (set_Compress true m)).
  gosimp. assert ((match last_of_type TypeOPT (Extra m) with
     | Some o => '(n, _) ← rr_len o 0 None; Ok (S - n) | None => Ok S end) = @Ok error _ (S - opt_size m)) as ->.
  { unfold opt_size. destruct (last_of_type TypeOPT (Extra m)) as [o|] eqn:Ho; [|f_equal; lia].
    destruct (opt_len m o Hok Ho (Hroot o eq_refl)) as (_ & -> & _). by gosimp. }
  gosimp. cbn [Question_ set_Extra set_Compress Answer Ns Extra]. rewrite E0. gosimp. rewrite E1. gosimp. rewrite E2. gosimp.
  rewrite E3. destruct lc3. gosimp. unfold cut. do 2 f_equal. by destruct (last_of_type _ _); [|rewrite app_nil_r].
Qed.

(** C7: [Truncate] on a well-formed reply without TSIG, with the OPT record at
    the root, whose question and OPT record fit into the size (at least 512),
    succeeds.  A message that fits uncompressed is only marked uncompressed;
    otherwise the result is the longest cut of the message whose [Len] is
    within the size: one more record would exceed it.  Either way [Pack] of the
    result needs no more than the size. *)
Theorem Truncate_fits m size buf : msg_ok m -> rcode_fits m -> has_tsig m = Ok false ->
  (forall o, last_of_type TypeOPT (Extra m) = Some o -> Name (Hdr o) = [ch_dot]) ->
  base_size m <= Z.max MinMsgSize size ->
  exists m', Truncate m size = Ok m' /\
    (if msg_size m <=? Z.max MinMsgSize size then m' = set_Compress false m
     else exists na nn ne, m' = cut m na nn ne /\ longest_cut (Z.max MinMsgSize size) m na nn ne) /\
    exists p b, PackBuffer m' buf = (p, Ok b) /\ zlen b <= Z.max MinMsgSize size.
Proof.
  intros Hok Hfit Ht Hroot Hbase. pose proof (Truncate_spec m size Hok Hfit Ht Hroot Hbase) as Hs.
  destruct (Z.leb_spec (msg_size m) (Z.max MinMsgSize size)) as [Hle|Hgt].
  - exists (set_Compress false m). split; [done|]. split; [done|].
    destruct (PackBuffer_bounded (set_Compress false m) buf Hok Hfit) as (b & n & E & El & Hb).
    exists (packed_msg (set_Compress false m)), b. split; [done|].
    unfold Len in El. cbn [Compress set_Compress andb] in El. change (msgLenWithCompressionMap (set_Compress false m) None) with (msgLenWithCompressionMap m None) in El.
    rewrite msg_len_ok in El by done. cbn [mbind res_bind] in El. assert (n = msg_size m) as -> by congruence. lia.
  - destruct Hs as (na & nn & ne & E & Hcut). exists (cut m na nn ne). split; [done|]. split; [by exists na, nn, ne|].
    destruct Hcut as (_ & _ & _ & _ & _ & (n & El & Hn) & _). destruct (cut_ok m na nn ne Hok Hfit) as [Hok' Hfit'].
    destruct (PackBuffer_bounded _ buf Hok' Hfit') as (b & n' & E' & El' & Hb). rewrite El in El'.
    assert (n' = n) as -> by congruence. exists (packed_msg (cut m na nn ne)), b. split; [done|lia].
Qed.

(** Sixty address records and an OPT record do not fit into 512 octets. *)
Definition long_reply : Msg :=
  MkMsg (MkMsgHdr 4660 true 0 true false true true false false false 0) false
    [MkQuestion (bs "a.b.") 1 1]
    (replicate 60 (MkRR (MkHeader (bs "a.b.") 1 1 300 0) RR_A [V_str (map byte_of [192; 0; 2; 1])]))
    []
    [MkRR (MkHeader (bs ".") 41 1232 0 0) RR_OPT [V_opts []]].

Lemma long_reply_ok : msg_ok long_reply.
Proof.
  destruct example_msg_ok as (_ & _ & _ & Hq & Ha & _ & He & _).
  do 3 (split; [done|]). split; [exact Hq|]. split; [|split; [constructor|by split]].
  apply Forall_replicate. by apply Forall_cons in Ha as [? _].
Qed.

Lemma Truncate_fits_witness : exists m' p b, Truncate long_reply 100 = Ok m' /\ PackBuffer m' [] = (p, Ok b) /\
  zlen b <= 512 /\ Truncated (hdr m') = true /\ zlen (Answer m') = 30 /\ zlen (Extra m') = 1.
Proof.
  destruct (Truncate_fits long_reply 100 [] long_reply_ok) as (m' & E & _ & p & b & Hp & Hb).
  - done.
  - reflexivity.
  - intros o. change (last_of_type TypeOPT (Extra long_reply)) with (Some (MkRR (MkHeader (bs ".") 41 1232 0 0) RR_OPT [V_opts []])).
    intros Ho. assert (o = MkRR (MkHeader (bs ".") 41 1232 0 0) RR_OPT [V_opts []]) as -> by congruence. reflexivity.
  - assert (base_size long_reply = 32) as -> by (vm_compute; reflexivity). done.
  - exists m', p, b. split; [exact E|]. split; [exact Hp|]. split; [exact Hb|].
    assert (Truncate long_reply 100 = Ok (cut long_reply 30 0 0)) as E' by (vm_compute; reflexivity).
    rewrite E' in E. apply Ok_inj in E as <-. split_and!; vm_compute; reflexivity.
Defined.
