(* ===== verification/Tsig.v ===== *)
(** * tsig.go: transaction signatures

    [TsigGenerateWithProvider] and [tsigVerify], with the provider as an
    interface, and the HMAC providers of the package over a function [hmac]
    that stands for crypto/hmac.  The clock is an argument: [clock] is what
    [time.Now] gives in [tsigBuffer], [now] what the caller of [tsigVerify]
    passes.  The slice that [tsigVerify] is given is scratch space for it
    afterwards; what it leaves there is not modelled. *)

From S2P Require Import Prelude Go Utf8 Labels Escape Names NameDecode NameEncode NameLen Wire Codec NameCarry Text Nsec Encodings Apl Edns Svcb RData RDataCarry RR RRCarry Msg MsgCarry Safety Build.

Definition RcodeNotAuth : Z := 9.
Definition RcodeBadSig : Z := 16.
Definition RcodeBadKey : Z := 17.

(** ** The record *)

Record TSIG := MkTSIG {
  ts_Hdr : RR_Header;
  ts_Algorithm : bytes;
  ts_TimeSigned : Z;
  ts_Fudge : Z;
  ts_MACSize : Z;
  ts_MAC : bytes;
  ts_OrigId : Z;
  ts_Error : Z;
  ts_OtherLen : Z;
  ts_OtherData : bytes
}.

(** The struct as a resource record, and the type assertion [rr.( *TSIG)]. *)
Definition TSIG_data (t : TSIG) : list fval :=
  [V_str (ts_Algorithm t); V_int (ts_TimeSigned t); V_int (ts_Fudge t); V_int (ts_MACSize t); V_str (ts_MAC t);
   V_int (ts_OrigId t); V_int (ts_Error t); V_int (ts_OtherLen t); V_str (ts_OtherData t)].
Definition TSIG_rr (t : TSIG) : RR := MkRR (ts_Hdr t) RR_TSIG (TSIG_data t).

Definition as_TSIG {E} (r : RR) : res E TSIG :=
  match struct r, data r with
  | RR_TSIG, [V_str alg; V_int time; V_int fudge; V_int macsize; V_str mac; V_int id; V_int err; V_int olen; V_str other] =>
      Ok (MkTSIG (Hdr r) alg time fudge macsize mac id err olen other)
  | _, _ => Panic
  end.

(** [new(TSIG)]. *)
Definition new_TSIG : TSIG := MkTSIG zero_header [] 0 0 0 [] 0 0 0 [].

(** [m.IsTsig()]. *)
Definition Msg_IsTsig {E} (m : Msg) : res E (option TSIG) :=
  match last (Extra m) with
  | None => Ok None
  | Some r => if Rrtype (Hdr r) =? TypeTSIG then t ← as_TSIG r; Ok (Some t) else Ok None
  end.

(** ** The provider *)

Record TsigProvider := MkTsigProvider {
  Generate : bytes -> TSIG -> res error bytes;
  Verify : bytes -> TSIG -> res error unit
}.

Inductive hash_alg := SHA1 | SHA224 | SHA256 | SHA384 | SHA512.

Section Hmac.
(** [hmac.New(alg, key)], [Write(msg)], [Sum(nil)]. *)
Variable hmac : hash_alg -> bytes -> bytes -> bytes.

Definition HmacSHA1 : bytes := bs "hmac-sha1.".
Definition HmacSHA224 : bytes := bs "hmac-sha224.".
Definition HmacSHA256 : bytes := bs "hmac-sha256.".
Definition HmacSHA384 : bytes := bs "hmac-sha384.".
Definition HmacSHA512 : bytes := bs "hmac-sha512.".

Definition hmac_alg (algorithm : bytes) : option hash_alg :=
  let name := CanonicalName algorithm in
  if decide (name = HmacSHA1) then Some SHA1
  else if decide (name = HmacSHA224) then Some SHA224
  else if decide (name = HmacSHA256) then Some SHA256
  else if decide (name = HmacSHA384) then Some SHA384
  else if decide (name = HmacSHA512) then Some SHA512
  else None.

Definition hmac_Generate (key msg : bytes) (t : TSIG) : res error bytes :=
  rawsecret ← fromBase64 key;
  match hmac_alg (ts_Algorithm t) with
  | None => Err ErrKeyAlg
  | Some alg => Ok (hmac alg rawsecret msg)
  end.

Definition hmac_Verify (key msg : bytes) (t : TSIG) : res error unit :=
  b ← hmac_Generate key msg t;
  mac ← hex_DecodeString (ts_MAC t);
  if decide (b = mac) then Ok tt else Err ErrSig.

Definition tsigHMACProvider (key : bytes) : TsigProvider := MkTsigProvider (hmac_Generate key) (hmac_Verify key).

Definition tsigSecretProvider (ts : gmap bytes bytes) : TsigProvider :=
  MkTsigProvider
    (fun msg t => match ts !! Name (ts_Hdr t) with None => Err ErrSecret | Some key => hmac_Generate key msg t end)
    (fun msg t => match ts !! Name (ts_Hdr t) with None => Err ErrSecret | Some key => hmac_Verify key msg t end).
End Hmac.

(** ** The wire formats *)

Definition packMacWire (macsize : Z) (mac : bytes) (msg : bytes) : wire (bytes * Z) :=
  '(msg, off) ← packUint16 macsize msg 0;
  packStringHex mac msg off.

Definition packTimerWire (timesigned fudge : Z) (msg : bytes) : wire (bytes * Z) :=
  '(msg, off) ← packUint48 timesigned msg 0;
  packUint16 fudge msg off.

Record tsigWireFmt := MkTsigWireFmt {
  tw_Name : bytes; tw_Class : Z; tw_Ttl : Z; tw_Algorithm : bytes; tw_TimeSigned : Z; tw_Fudge : Z;
  tw_Error : Z; tw_OtherLen : Z; tw_OtherData : bytes }.

Definition packTsigWire (tw : tsigWireFmt) (msg : bytes) : wire (bytes * Z) :=
  '(msg, off, _) ← PackDomainName (tw_Name tw) msg 0 None false;
  '(msg, off) ← packUint16 (tw_Class tw) msg off;
  '(msg, off) ← packUint32 (tw_Ttl tw) msg off;
  '(msg, off, _) ← PackDomainName (tw_Algorithm tw) msg off None false;
  '(msg, off) ← packUint48 (tw_TimeSigned tw) msg off;
  '(msg, off) ← packUint16 (tw_Fudge tw) msg off;
  '(msg, off) ← packUint16 (tw_Error tw) msg off;
  '(msg, off) ← packUint16 (tw_OtherLen tw) msg off;
  packStringHex (tw_OtherData tw) msg off.

(** ** The buffer that is signed *)

(** The defaults [tsigBuffer] writes into the record. *)
Definition tsig_defaults (clock : Z) (t : TSIG) : TSIG :=
  MkTSIG (ts_Hdr t) (ts_Algorithm t)
    (if ts_TimeSigned t =? 0 then clock else ts_TimeSigned t)
    (if ts_Fudge t =? 0 then 300 else ts_Fudge t)
    (ts_MACSize t) (ts_MAC t) (ts_OrigId t) (ts_Error t) (ts_OtherLen t) (ts_OtherData t).

(** The timer variables, or all of them. *)
Definition tsig_variables (rr : TSIG) (timersOnly : bool) : res error bytes :=
  let tsigvar := replicate (Z.to_nat DefaultMsgSize) x00 in
  '(tsigvar, n) ← on_err snd (
    if timersOnly then packTimerWire (ts_TimeSigned rr) (ts_Fudge rr) tsigvar
    else packTsigWire (MkTsigWireFmt (CanonicalName (Name (ts_Hdr rr))) ClassANY (Ttl (ts_Hdr rr))
           (CanonicalName (ts_Algorithm rr)) (ts_TimeSigned rr) (ts_Fudge rr) (ts_Error rr)
           (ts_OtherLen rr) (ts_OtherData rr)) tsigvar);
  index (slice tsigvar 0 n).

(** The request's MAC, when there is one. *)
Definition mac_variables (requestMAC : bytes) : res error bytes :=
  if decide (requestMAC = []) then Ok [] else
  '(buf, n) ← on_err snd (packMacWire (zlen requestMAC / 2 mod 65536) requestMAC (replicate (length requestMAC) x00));
  index (slice buf 0 n).

(** [tsigBuffer]: the buffer, [msgbuf] with the original id, the record with
    its defaults. *)
Definition tsigBuffer (msgbuf : bytes) (rr : TSIG) (requestMAC : bytes) (timersOnly : bool) (clock : Z)
    : res error (bytes * bytes * TSIG) :=
  let rr := tsig_defaults clock rr in
  msgbuf ← PutUint16 msgbuf 0 (ts_OrigId rr);
  buf ← mac_variables requestMAC;
  tsigvar ← tsig_variables rr timersOnly;
  Ok (buf ++ msgbuf ++ tsigvar, msgbuf, rr).

(** ** Generating *)

(** The record that is sent: signed unless it reports a bad key or MAC. *)
Definition tsig_sign (p : TsigProvider) (buf : bytes) (rr : TSIG) : res error TSIG :=
  let t time size mac := MkTSIG (ts_Hdr rr) (ts_Algorithm rr) time (ts_Fudge rr) size mac
                           (ts_OrigId rr) (ts_Error rr) (ts_OtherLen rr) (ts_OtherData rr) in
  if negb (ts_Error rr =? RcodeBadKey) && negb (ts_Error rr =? RcodeBadSig) then
    mac ← Generate p buf rr;
    let MAC := hex_EncodeToString mac in
    Ok (t (ts_TimeSigned rr) (zlen MAC / 2 mod 65536) MAC)
  else Ok (t 0 0 []).

(** After the message without the TSIG record was packed into [mbuf]. *)
Definition tsig_append (mbuf : bytes) (nextra : Z) (rr : TSIG) (p : TsigProvider) (requestMAC : bytes)
    (timersOnly : bool) (clock : Z) : res error (bytes * bytes) :=
  '(buf, mbuf, rr) ← tsigBuffer mbuf rr requestMAC timersOnly clock;
  t ← tsig_sign p buf rr;
  '(n, _) ← rr_len (TSIG_rr t) 0 None;
  '(_, tbuf, off, _) ← on_err snd (PackRR (TSIG_rr t) (replicate (Z.to_nat n) x00) 0 None false);
  tbuf ← index (slice tbuf 0 off);
  mbuf ← PutUint16 (mbuf ++ tbuf) 10 ((nextra + 1) mod 65536);
  Ok (mbuf, ts_MAC t).

(** The message loses its TSIG record, also when an error is returned. *)
Definition TsigGenerateWithProvider (m : Msg) (p : TsigProvider) (requestMAC : bytes) (timersOnly : bool) (clock : Z)
    : Msg * res error (bytes * bytes) :=
  match Msg_IsTsig m with
  | Ok (Some rr) =>
      let m := set_Extra (removelast (Extra m)) m in
      let '(m, r) := Pack m in
      (m, mbuf ← r; tsig_append mbuf (zlen (Extra m)) rr p requestMAC timersOnly clock)
  | Ok None => (m, Panic)
  | Err e => (m, Err e)
  | Panic => (m, Panic)
  | Diverge => (m, Diverge)
  end.

(** ** Verifying *)

Fixpoint skip_questions (n : nat) (msg : bytes) (off : Z) : wire Z :=
  match n with
  | O => Ok off
  | S n => '(_, off) ← unpackQuestion msg off; skip_questions n msg off
  end.

(** [_, off, err = unpackRRslice(l, msg, off)]. *)
Definition skip_RRs (l : Z) (msg : bytes) (off : Z) : res error Z :=
  '(_, off, err) ← unpackRRslice (Z.to_nat l) msg off [];
  match err with Some e => Err e | None => Ok off end.

(** The loop over the additional section: the offset of the record last looked
    at, and the TSIG record when the loop found one. *)
Fixpoint find_tsig (n : nat) (msg : bytes) (tsigoff off : Z) : wire (Z * option TSIG) :=
  match n with
  | O => Ok (tsigoff, None)
  | S n =>
      '(extra, off') ← UnpackRR msg off;
      if Rrtype (Hdr extra) =? TypeTSIG then t ← as_TSIG extra; Ok (off, Some t)
      else find_tsig n msg off off'
  end.

Definition stripTsig (msg : bytes) : res error (bytes * TSIG) :=
  '(dh, off) ← on_err snd (unpackMsgHdr msg 0);
  if Arcount dh =? 0 then Err ErrNoSig else
  if Z.land (Bits dh) 0xF =? RcodeNotAuth then Err ErrAuth else
  off ← on_err snd (skip_questions (Z.to_nat (Qdcount dh)) msg off);
  off ← skip_RRs (Ancount dh) msg off;
  off ← skip_RRs (Nscount dh) msg off;
  '(tsigoff, found) ← on_err snd (find_tsig (Z.to_nat (Arcount dh)) msg 0 off);
  match found with
  | Some rr =>
      arcount ← index (slice msg 10 12);
      msg ← PutUint16 msg 10 ((unbe arcount - 1) mod 65536);
      stripped ← index (slice msg 0 tsigoff);
      Ok (stripped, rr)
  | None => stripped ← index (slice msg 0 tsigoff); Ok (stripped, new_TSIG)
  end.

(** The distance of two 64-bit times, as the code computes it. *)
Definition time_apart (now signed : Z) : Z :=
  if now <? signed then (signed - now) mod 2 ^ 64 else (now - signed) mod 2 ^ 64.

Definition tsigVerify (msg : bytes) (p : TsigProvider) (requestMAC : bytes) (timersOnly : bool) (now clock : Z) : res error unit :=
  '(stripped, tsig) ← stripTsig msg;
  '(buf, _, tsig) ← tsigBuffer stripped tsig requestMAC timersOnly clock;
  _ ← Verify p buf tsig;
  if ts_Fudge tsig <? time_apart now (ts_TimeSigned tsig) then Err ErrTime else Ok tt.

(** ** Packers that write the same octets everywhere *)

(** [everywhere pk w]: with room for [w] and no compression map, [pk] writes it. *)
Definition everywhere (pk : packer) (w : bytes) : Prop :=
  forall off L, 0 <= off -> off + zlen w <= L -> puts pk off nil_map L w nil_map.

Lemma puts_det pk off cm L w w' c c' : 0 <= L -> puts pk off cm L w c -> puts pk off cm L w' c' -> w = w'.
Proof.
  intros HL H H'. assert (zlen (replicate (Z.to_nat L) x00) = L) as Hl by (unfold zlen; rewrite length_replicate; lia).
  destruct (H _ Hl) as (m & E & _ & T), (H' _ Hl) as (m' & E' & _ & T'). rewrite E in E'. simplify_eq.
  assert (zlen w = zlen w') as Hw by lia. rewrite Hw, T' in T. by apply app_inv_head in T.
Qed.

Lemma everywhere_fixed pk w : fixed pk w -> everywhere (plain pk) w.
Proof. intros H off L H0 Hle. by apply fixed_puts. Qed.

Lemma everywhere_ext pk pk' w : (forall msg off, pk' msg off nil_map = pk msg off nil_map) -> everywhere pk w -> everywhere pk' w.
Proof. intros He H off L H0 Hle. eapply puts_ext; [intros; apply He|by apply H]. Qed.

Lemma everywhere_seq pk1 pk2 w1 w2 : everywhere pk1 w1 -> everywhere pk2 w2 ->
  everywhere (fun msg off cm => '(msg, off, cm) ← pk1 msg off cm; pk2 msg off cm) (w1 ++ w2).
Proof.
  intros H1 H2 off L H0. rewrite zlen_app. intros Hle. pose proof (zlen_nonneg w1). pose proof (zlen_nonneg w2).
  eapply puts_seq; [apply H1; lia|apply H2; lia].
Qed.

Lemma everywhere_nil : everywhere (fun msg off cm => Ok (msg, off, cm)) [].
Proof. intros off L H0 _ msg Hm. exists msg. change (zlen []) with 0. by rewrite Z.add_0_r, app_nil_r. Qed.

Lemma zlen_wire_name ls : zlen (wire_name ls) = wire_len ls + 1.
Proof. unfold wire_name. by rewrite zlen_app, zlen_wire_labels. Qed.

Lemma everywhere_name ls : Forall (fun l => 1 <= zlen l < 64) ls ->
  everywhere (fun msg off cm => packDomainName (show_name ls) msg off cm false) (wire_name ls).
Proof.
  intros Hls off L H0 Hroom msg Hm. rewrite zlen_wire_name in *. pose proof (wire_len_nonneg ls).
  assert (parse_name (show_name ls) = Some ls) as Hp.
  { apply parse_show_name. eapply Forall_impl; [exact Hls|]. intros [|]; [zlia|done]. }
  pose proof (packDomainName_ensures (show_name ls) msg off nil_map false ltac:(lia)) as He.
  destruct (packDomainName (show_name ls) msg off nil_map false) as [[[m o] cm]|[eo e]| |] eqn:E; cbn in He; [| |done..].
  - apply pack_cm_nil in E as ->. destruct He as (Hml & Ho & He). destruct (He ls Hp) as (w & Hm' & -> & Hw & _).
    rewrite (Hw eq_refl) in *. rewrite zlen_wire_name in *. exists m. split; [done|]. split; [lia|].
    rewrite Hm', app_assoc. apply ztake_app_eq. rewrite zlen_app, zlen_ztake, zlen_wire_name by lia. lia.
  - destruct He as [_ [[_ Hf]|He]]; [by rewrite IsFqdn_show_name in Hf|]. specialize (He ls Hp). exfalso.
    lapply He; [lia|]. eapply Forall_impl; [exact Hls|]. cbn. lia.
Qed.

Lemma everywhere_hex l : everywhere (plain (packStringHex (hex_EncodeToString l))) l.
Proof.
  apply everywhere_fixed. intros msg off H0. unfold packStringHex, pack_decoded. rewrite hex_roundtrip. gosimp.
  destruct (Z.ltb_spec (zlen msg) (off + zlen l)); [left; split; [done|by eexists]|right].
  destruct (put_at_writes (E := Z * error) msg off l H0 ltac:(lia)) as (m & E & Hw). rewrite E. by exists m.
Qed.

(** Such a packer on a fresh buffer. *)
Lemma everywhere_run pk w buf : everywhere pk w -> zlen w <= zlen buf ->
  exists m, pk buf 0 nil_map = Ok (m, zlen w, nil_map) /\ slice m 0 (zlen w) = Some w.
Proof.
  intros H Hle. destruct (H 0 (zlen buf) ltac:(lia) ltac:(lia) buf eq_refl) as (m & E & Hm & Ht).
  rewrite !Z.add_0_l in *. exists m. split; [done|]. pose proof (zlen_nonneg w). rewrite slice_Some by lia.
  rewrite Z.sub_0_r. change (zdrop 0 m) with m. by rewrite Ht.
Qed.

(** Lower case, label by label. *)
Lemma lower_escape b : map lower_rune (escape_byte b) = escape_byte (lower_rune b).
Proof. destruct b; reflexivity. Qed.

Definition lowered : list bytes -> list bytes := map (map lower_rune).

Lemma CanonicalName_show ls : CanonicalName (show_name ls) = show_name (lowered ls).
Proof.
  unfold CanonicalName, Fqdn. rewrite IsFqdn_show_name, strings_Map_ascii_ascii.
  - destruct ls as [|l ls]; [done|]. change (show_name ?x) with (show_labels x) at 1.
    change (show_name (lowered (l :: ls))) with (show_labels (lowered (l :: ls))).
    generalize (l :: ls). clear. induction l as [|l ls IH]; [done|]. unfold show_labels, lowered in *. cbn [map concat].
    rewrite map_app, IH, map_app. do 2 f_equal. unfold show_label. clear. induction l as [|b l IH]; [done|].
    cbn [map concat]. by rewrite map_app, IH, lower_escape.
  - destruct ls; [by constructor|apply show_labels_ascii].
Qed.

Lemma wire_len_lowered ls : wire_len (lowered ls) = wire_len ls.
Proof.
  induction ls as [|l ls IH]; [done|]. unfold lowered in *. cbn [map wire_len]. rewrite IH.
  unfold zlen. by rewrite length_map.
Qed.

Lemma good_lowered ls : good_labels ls -> good_labels (lowered ls).
Proof.
  intros (H1 & H2 & H3). split; [|split; [by rewrite wire_len_lowered|]].
  - unfold lowered. apply Forall_map. eapply Forall_impl; [exact H1|]. intros l. unfold zlen. by rewrite length_map.
  - unfold lowered, zlen in *. by rewrite length_map.
Qed.

(** ** The variables can be packed *)

(** A TSIG record as it comes from [SetTsig] or off the wire. *)
Definition tsig_ok (t : TSIG) : Prop :=
  Rrtype (ts_Hdr t) = TypeTSIG /\ header_ok (ts_Hdr t) /\ good_name (ts_Algorithm t) /\
  u48 (ts_TimeSigned t) /\ u16 (ts_Fudge t) /\ u16 (ts_OrigId t) /\ u16 (ts_Error t) /\
  exists other, ts_OtherData t = hex_EncodeToString other /\ ts_OtherLen t = zlen other /\ zlen other <= 2048.

Lemma fixed_uint48 v : fixed (packUint48 v) (be 6 v).
Proof. eapply fixed_put. intros msg off. unfold packUint48. by rewrite be_six. Qed.

(** The part of the variables between and after the names. *)
Definition var_tail (tw : tsigWireFmt) : bytes -> Z -> wire (bytes * Z) := fun msg off =>
  '(msg, off) ← packUint48 (tw_TimeSigned tw) msg off;
  '(msg, off) ← packUint16 (tw_Fudge tw) msg off;
  '(msg, off) ← packUint16 (tw_Error tw) msg off;
  packUint16 (tw_OtherLen tw) msg off.

Lemma fixed_var_tail tw : fixed (var_tail tw)
  (be 6 (tw_TimeSigned tw) ++ be 2 (tw_Fudge tw) ++ be 2 (tw_Error tw) ++ be 2 (tw_OtherLen tw)).
Proof.
  unfold var_tail. repeat first [apply fixed_uint16 | apply fixed_uint48 |
    apply (fixed_seq _ (fun msg off => _)); [apply fixed_uint16 || apply fixed_uint48|]].
Qed.

Definition tsig_wire_packer (tw : tsigWireFmt) : packer := fun msg off cm =>
  '(msg, off, cm) ← packDomainName (tw_Name tw) msg off cm false;
  '(msg, off, cm) ← plain (fun msg off => '(msg, off) ← packUint16 (tw_Class tw) msg off; packUint32 (tw_Ttl tw) msg off) msg off cm;
  '(msg, off, cm) ← packDomainName (tw_Algorithm tw) msg off cm false;
  '(msg, off, cm) ← plain (var_tail tw) msg off cm;
  plain (packStringHex (tw_OtherData tw)) msg off cm.

Lemma tsig_wire_packer_eq tw msg m o : tsig_wire_packer tw msg 0 nil_map = Ok (m, o, nil_map) ->
  packTsigWire tw msg = Ok (m, o).
Proof.
  unfold tsig_wire_packer, packTsigWire, PackDomainName, plain, var_tail.
  change {| ext := None; int_ := None |} with nil_map.
  destruct (packDomainName (tw_Name tw) msg 0 nil_map false) as [[[m1 o1] c1]|?| |] eqn:E1; gosimp; [|done..].
  apply pack_cm_nil in E1 as ->.
  destruct (packUint16 (tw_Class tw) _ _) as [[m2 o2]|?| |]; gosimp; [|done..].
  destruct (packUint32 (tw_Ttl tw) _ _) as [[m3 o3]|?| |]; gosimp; [|done..].
  destruct (packDomainName (tw_Algorithm tw) _ _ _ _) as [[[m4 o4] c4]|?| |] eqn:E4; gosimp; [|done..].
  destruct (packUint48 (tw_TimeSigned tw) _ _) as [[m5 o5]|?| |]; gosimp; [|done..].
  destruct (packUint16 (tw_Fudge tw) _ _) as [[m6 o6]|?| |]; gosimp; [|done..].
  destruct (packUint16 (tw_Error tw) _ _) as [[m7 o7]|?| |]; gosimp; [|done..].
  destruct (packUint16 (tw_OtherLen tw) _ _) as [[m8 o8]|?| |]; gosimp; [|done..].
  destruct (packStringHex (tw_OtherData tw) _ _) as [[m9 o9]|?| |]; gosimp; [|done..]. congruence.
Qed.

Lemma good_labels_size ls : good_labels ls -> zlen (wire_name ls) <= 255.
Proof. intros (_ & H & _). rewrite zlen_wire_name. lia. Qed.

Lemma tsig_variables_ok t timersOnly : tsig_ok t -> exists v, tsig_variables t timersOnly = Ok v.
Proof.
  intros (Hty & ((ln & Hln & Hname) & _) & (la & Hla & Halg) & _ & _ & _ & _ & other & Ho & Hol & Hos).
  unfold tsig_variables. set (buf := replicate _ x00).
  assert (zlen buf = 4096) as Hbuf by (unfold buf, zlen; rewrite length_replicate; done).
  destruct timersOnly.
  - destruct (everywhere_run _ (be 6 (ts_TimeSigned t) ++ be 2 (ts_Fudge t)) buf
      (everywhere_fixed (fun msg off => '(msg, off) ← packUint48 (ts_TimeSigned t) msg off; packUint16 (ts_Fudge t) msg off) _
        (fixed_seq _ (fun msg off => _) _ _ (fixed_uint48 _) (fixed_uint16 _)))) as (m & E & Hs).
    { rewrite zlen_app, !be_length, Hbuf. lia. }
    assert (packTimerWire (ts_TimeSigned t) (ts_Fudge t) buf = Ok (m, zlen (be 6 (ts_TimeSigned t) ++ be 2 (ts_Fudge t)))) as ->.
    { unfold plain in E. unfold packTimerWire. destruct (packUint48 _ _ _) as [[m1 o1]|?| |]; gosimp; [|done..].
      cbn [mbind res_bind] in E. destruct (packUint16 _ _ _) as [[m2 o2]|?| |]; cbn [mbind res_bind] in E; [|done..]. congruence. }
    cbn [on_err]. gosimp. rewrite Hs. by eexists.
  - rewrite Hname, Halg, !CanonicalName_show.
    set (tw := MkTsigWireFmt _ _ _ _ _ _ _ _ _).
    pose proof (good_lowered _ Hln) as Gn. pose proof (good_lowered _ Hla) as Ga.
    destruct (everywhere_run (tsig_wire_packer tw) (wire_name (lowered ln) ++ (be 2 (tw_Class tw) ++ be 4 (tw_Ttl tw)) ++ wire_name (lowered la) ++
      (be 6 (tw_TimeSigned tw) ++ be 2 (tw_Fudge tw) ++ be 2 (tw_Error tw) ++ be 2 (tw_OtherLen tw)) ++ other) buf) as (m & E & Hs).
    { repeat apply (everywhere_seq _ (fun msg off cm => _)).
      - by apply everywhere_name, good_lowered.
      - apply everywhere_fixed. apply (fixed_seq _ (fun msg off => _)); [apply fixed_uint16|apply fixed_uint32].
      - by apply everywhere_name, good_lowered.
      - apply everywhere_fixed, fixed_var_tail.
      - cbn [tw tw_OtherData]. rewrite Ho. apply everywhere_hex. }
    { pose proof (good_labels_size _ Gn). pose proof (good_labels_size _ Ga). rewrite !zlen_app, !be_length, Hbuf. lia. }
    rewrite (tsig_wire_packer_eq _ _ _ _ E). cbn [on_err]. gosimp. rewrite Hs. by eexists.
Qed.

(** A MAC the other side sent: none, or at least two octets in hex. *)
Definition mac_ok (requestMAC : bytes) : Prop :=
  requestMAC = [] \/ exists mac, requestMAC = hex_EncodeToString mac /\ 2 <= zlen mac.

Lemma mac_variables_ok requestMAC : mac_ok requestMAC -> exists v, mac_variables requestMAC = Ok v.
Proof.
  intros [->|(mac & -> & Hmac)]; [by exists []|]. unfold mac_variables. case_decide as Hd; [by exists []|].
  set (size := _ mod _). set (buf := replicate _ x00).
  assert (zlen buf = 2 * zlen mac) as Hbuf by (unfold buf; rewrite <- hex_length; unfold zlen; by rewrite length_replicate).
  destruct (everywhere_run (fun msg off cm => '(msg, off, cm) ← plain (packUint16 size) msg off cm;
      plain (packStringHex (hex_EncodeToString mac)) msg off cm) (be 2 size ++ mac) buf) as (m & E & Hs).
  { apply (everywhere_seq _ (fun msg off cm => _)); [apply everywhere_fixed, fixed_uint16|apply everywhere_hex]. }
  { rewrite zlen_app, be_length. lia. }
  assert (packMacWire size (hex_EncodeToString mac) buf = Ok (m, zlen (be 2 size ++ mac))) as ->.
  { unfold packMacWire. unfold plain in E. destruct (packUint16 size buf 0) as [[m1 o1]|?| |]; gosimp; [|done..].
    cbn [mbind res_bind] in E. destruct (packStringHex _ _ _) as [[m2 o2]|?| |]; cbn [mbind res_bind] in E; [|done..]. congruence. }
  cbn [on_err]. gosimp. rewrite Hs. by eexists.
Qed.

(** ** Writing into the header *)

Definition set_dh_Id (v : Z) (dh : Header) : Header :=
  MkWireHeader v (Bits dh) (Qdcount dh) (Ancount dh) (Nscount dh) (Arcount dh).
Definition set_Arcount (v : Z) (dh : Header) : Header :=
  MkWireHeader (dh_Id dh) (Bits dh) (Qdcount dh) (Ancount dh) (Nscount dh) v.

Lemma PutUint16_mid {E} pre v0 v suf : @PutUint16 E (pre ++ be 2 v0 ++ suf) (zlen pre) v = Ok (pre ++ be 2 v ++ suf).
Proof.
  unfold PutUint16. rewrite (slice_mid pre (be 2 v0)) by (rewrite ?be_length; done || lia). gosimp.
  rewrite blit_eq by done. cbn [be]. by rewrite Z.div_1_r.
Qed.

Lemma put_id {E} dh v rest : @PutUint16 E (header_wire dh ++ rest) 0 v = Ok (header_wire (set_dh_Id v dh) ++ rest).
Proof. unfold header_wire. rewrite <- !app_assoc. apply (PutUint16_mid []). Qed.

Lemma header_wire_split dh rest : exists pre, zlen pre = 10 /\
  forall v, header_wire (set_Arcount v dh) ++ rest = pre ++ be 2 v ++ rest.
Proof.
  exists (be 2 (dh_Id dh) ++ be 2 (Bits dh) ++ be 2 (Qdcount dh) ++ be 2 (Ancount dh) ++ be 2 (Nscount dh)).
  split; [by rewrite !zlen_app, !be_length|]. intros v. unfold header_wire. by rewrite <- !app_assoc.
Qed.

Lemma put_arcount {E} dh v rest : @PutUint16 E (header_wire dh ++ rest) 10 v = Ok (header_wire (set_Arcount v dh) ++ rest).
Proof.
  destruct (header_wire_split dh rest) as (pre & Hp & H). rewrite H, <- Hp.
  specialize (H (Arcount dh)). assert (set_Arcount (Arcount dh) dh = dh) as E1 by by destruct dh. rewrite E1 in H. rewrite H.
  apply PutUint16_mid.
Qed.

Lemma get_arcount dh rest : u16 (Arcount dh) -> exists w, slice (header_wire dh ++ rest) 10 12 = Some w /\ unbe w = Arcount dh.
Proof.
  intros Hu. destruct (header_wire_split dh rest) as (pre & Hp & H). specialize (H (Arcount dh)).
  assert (set_Arcount (Arcount dh) dh = dh) as E1 by by destruct dh. rewrite E1 in H. rewrite H.
  exists (be 2 (Arcount dh)). split; [apply slice_mid; rewrite ?be_length; lia|by apply unbe_be].
Qed.

(** ** The octets that are signed *)

Lemma tsigBuffer_ok dh rest t requestMAC timersOnly clock : tsig_ok (tsig_defaults clock t) -> mac_ok requestMAC ->
  exists p v, mac_variables requestMAC = Ok p /\ tsig_variables (tsig_defaults clock t) timersOnly = Ok v /\
    tsigBuffer (header_wire dh ++ rest) t requestMAC timersOnly clock =
      Ok (p ++ (header_wire (set_dh_Id (ts_OrigId t) dh) ++ rest) ++ v,
          header_wire (set_dh_Id (ts_OrigId t) dh) ++ rest, tsig_defaults clock t).
Proof.
  intros Ht Hm. destruct (mac_variables_ok requestMAC Hm) as [p Ep]. destruct (tsig_variables_ok _ timersOnly Ht) as [v Ev].
  exists p, v. split_and!; [done|done|]. unfold tsigBuffer. rewrite put_id. gosimp. rewrite Ep. gosimp. rewrite Ev. by gosimp.
Qed.

(** ** The record on the wire *)

(** A signed record: the MAC in hex, with its size. *)
Definition signed_ok (t : TSIG) : Prop :=
  tsig_ok t /\ exists mac, ts_MAC t = hex_EncodeToString mac /\ ts_MACSize t = zlen mac /\ zlen mac <= 4096.

Lemma signed_rdata_ok t : signed_ok t -> rdata_ok RR_TSIG (TSIG_data t).
Proof.
  intros ((_ & _ & Ha & Ht & Hf & Hi & He & other & Ho & Hol & Hos) & mac & Hm & Hs & Hms).
  pose proof (zlen_nonneg mac). pose proof (zlen_nonneg other). unfold rdata_ok. change (fields RR_TSIG) with TSIG_fields.
  unfold TSIG_fields, TSIG_data. repeat (apply Forall2_cons_2; [cbn [snd field_ok]; try done|]); [| | | |constructor].
  - unfold u16. lia.
  - exists mac. split; [done|]. change (ts_MACSize t = zlen mac). done.
  - unfold u16. lia.
  - exists other. split; [done|]. change (ts_OtherLen t = zlen other). done.
Qed.

Lemma signed_rdata_size t : signed_ok t -> rdata_len RR_TSIG (TSIG_data t) <= 271 + ts_MACSize t + ts_OtherLen t.
Proof.
  intros Hok. pose proof (carries_rdata RR_TSIG (TSIG_data t) false (signed_rdata_ok t Hok)) as (Hlen & _ & _).
  destruct Hok as ((_ & _ & (la & Hla & Ha) & _ & _ & _ & _ & other & Ho & Hol & Hos) & mac & Hm & Hs & Hms).
  specialize (Hlen 0). set (n := rdata_len _ _) in *. change (fields RR_TSIG) with TSIG_fields in Hlen.
  set (ms := members_of _ _) in Hlen. unfold TSIG_fields, TSIG_data in Hlen. clearbody ms n.
  cbn [fields_len field_len mbind res_bind snd fst] in Hlen. rewrite Ha, Hm, Ho in Hlen.
  rewrite domainNameLen_show in Hlen by done. cbn [mbind res_bind] in Hlen. rewrite !hex_length, !(Z.mul_comm 2), !Z.div_mul in Hlen by done.
  apply Ok_inj in Hlen. apply (f_equal fst) in Hlen. cbn [fst] in Hlen. rewrite <- Hlen. destruct Hla as (_ & Hw & _). lia.
Qed.

Lemma signed_rdata_len t : signed_ok t -> rdata_len RR_TSIG (TSIG_data t) < 65536.
Proof.
  intros Hok. pose proof (signed_rdata_size t Hok). destruct Hok as ((_ & _ & _ & _ & _ & _ & _ & other & _ & ? & ?) & mac & _ & ? & ?). lia.
Qed.

Lemma signed_rr_ok t : signed_ok t -> rr_ok (TSIG_rr t) /\ extra_ok (TSIG_rr t).
Proof.
  intros Hok. assert (rr_ok (TSIG_rr t)) as Hrr.
  { pose proof Hok as ((Hty & Hh & _) & _). split; [exact Hh|].
    split; [right; unfold struct_read; cbn [TSIG_rr Hdr struct]; by rewrite Hty|].
    split; [by apply signed_rdata_ok|by apply signed_rdata_len]. }
  split; [done|]. split; [done|]. destruct Hok as ((Hty & _) & _). cbn [TSIG_rr Hdr]. by rewrite Hty.
Qed.

(** What is read back: the record, with its length field set. *)
Definition received (n : Z) (t : TSIG) : TSIG :=
  MkTSIG (set_Rdlength n (ts_Hdr t)) (ts_Algorithm t) (ts_TimeSigned t) (ts_Fudge t) (ts_MACSize t) (ts_MAC t)
    (ts_OrigId t) (ts_Error t) (ts_OtherLen t) (ts_OtherData t).

Lemma tsig_rr_read t r : Rrtype (ts_Hdr t) = TypeTSIG -> rr_read (TSIG_rr t) r -> exists n, r = TSIG_rr (received n t).
Proof.
  intros Hty (n & _ & ->). exists n. unfold TSIG_rr, struct_read. cbn [Hdr struct]. rewrite Hty.
  by change (TypeToRR TypeTSIG) with (Some RR_TSIG).
Qed.

Lemma as_TSIG_rr {E} t : @as_TSIG E (TSIG_rr t) = Ok t.
Proof. by destruct t. Qed.

(** Its octets, the same at any offset. *)
Lemma everywhere_tsig t : signed_ok t -> exists w, everywhere (rr_packer (TSIG_rr t) false) w.
Proof.
  intros Hok. pose proof Hok as ((_ & ((ln & Hln & Hname) & _) & (la & Hla & Ha) & _ & _ & _ & _ & other & Ho & _) & mac & Hm & _ & _).
  assert (exists rd, everywhere (rr_pack (TSIG_rr t) false) rd) as [rd Hrd].
  { eexists. unfold rr_pack. change (fields (struct (TSIG_rr t))) with TSIG_fields. set (ms := members_of _ _). clearbody ms.
    cbn [TSIG_rr data]. unfold TSIG_data, TSIG_fields. cbn [pack_fields pack_field]. rewrite Ha, Hm, Ho.
    do 9 (apply (everywhere_seq _ (fun msg off cm => _));
      [first [apply everywhere_name; exact (proj1 Hla) | apply everywhere_fixed, fixed_uint48 | apply everywhere_fixed, fixed_uint16 | apply everywhere_hex]|]).
    apply everywhere_nil. }
  assert (everywhere (packHeader (ts_Hdr t) false) (wire_name ln ++ header_tail (ts_Hdr t) 0)) as Hh.
  { intros off L H0 Hle. rewrite zlen_app, header_tail_length in Hle. pose proof (zlen_nonneg (wire_name ln)).
    pose proof (everywhere_seq _ _ _ _ (everywhere_name ln (proj1 Hln)) (everywhere_fixed _ _ (fixed_header_tail (ts_Hdr t))) off L H0) as Hp.
    rewrite zlen_app, header_tail_length in Hp. specialize (Hp Hle).
    eapply puts_ext; [|apply puts_at_len, Hp]. intros msg Hmsg. rewrite packHeader_eq by lia. by rewrite Hname. }
  exists ((wire_name ln ++ header_tail (ts_Hdr t) (zlen rd)) ++ rd). intros off L H0 Hle.
  rewrite !zlen_app, header_tail_length in Hle. pose proof (zlen_nonneg (wire_name ln)). pose proof (zlen_nonneg rd).
  assert (zlen rd < 65536) as Hmax.
  { destruct (carries_rdata RR_TSIG (TSIG_data t) false (signed_rdata_ok t Hok)) as (_ & Hn & Hc).
    pose proof (signed_rdata_len t Hok). cbn [TSIG_rr] in Hn. destruct (Hc 0 nil_map (rdata_len RR_TSIG (TSIG_data t) + zlen rd) ltac:(lia)) as [[? _]|(w & c & Hw & _ & Hp & _)]; [lia|].
    assert (rd = w) as ->; [|lia].
    eapply puts_det; [|apply (Hrd 0 (rdata_len RR_TSIG (TSIG_data t) + zlen rd)); lia|exact Hp]. lia. }
  eapply packRR_puts; [lia|rewrite zlen_app, header_tail_length; lia|done|apply Hh; [done|rewrite zlen_app, header_tail_length; lia]|].
  apply Hrd; rewrite zlen_app, header_tail_length; lia.
Qed.

Lemma unpack_tsig t w pre suf : signed_ok t -> everywhere (rr_packer (TSIG_rr t) false) w ->
  0 < zlen w <= rr_size (TSIG_rr t) /\
  exists n, UnpackRR (pre ++ w ++ suf) (zlen pre) = Ok (TSIG_rr (received n t), zlen pre + zlen w) /\
    rr_read (TSIG_rr t) (TSIG_rr (received n t)).
Proof.
  intros Hok Hw. destruct (signed_rr_ok t Hok) as [Hrr _]. pose proof (rr_size_nonneg _ Hrr). pose proof (zlen_nonneg pre). pose proof (zlen_nonneg w).
  set (L := zlen pre + rr_size (TSIG_rr t) + zlen w + 1).
  destruct (delivers_rr (TSIG_rr t) false Hrr (zlen pre) nil_map L ltac:(lia)) as (w' & cm & Hsz & Hp & Hc & Hr); [lia|].
  specialize (Hc eq_refl) as ->. assert (w' = w) as ->.
  { eapply puts_det; [|exact Hp|apply Hw; lia]. lia. }
  destruct (Hr pre eq_refl) as (Hpos & _ & Hread); [done|]. split; [lia|]. destruct (Hread suf) as (r & E & Hrd).
  destruct Hok as ((Hty & _) & _). pose proof Hrd as Hrd'. apply tsig_rr_read in Hrd as [n ->]; [|done]. by exists n.
Qed.

Lemma PackRR_tsig t w : signed_ok t -> everywhere (rr_packer (TSIG_rr t) false) w ->
  exists r m cm, PackRR (TSIG_rr t) (replicate (Z.to_nat (rr_size (TSIG_rr t))) x00) 0 None false = Ok (r, m, zlen w, cm) /\
    slice m 0 (zlen w) = Some w.
Proof.
  intros Hok Hw. destruct (unpack_tsig t w [] [] Hok Hw) as [Hsz _]. set (buf := replicate _ _).
  assert (zlen buf = rr_size (TSIG_rr t)) as Hbuf by (unfold buf, zlen; rewrite length_replicate; lia).
  destruct (everywhere_run _ w buf Hw) as (m & E & Hs); [lia|]. unfold rr_packer in E. unfold PackRR.
  change {| ext := None; int_ := None |} with nil_map.
  destruct (packRR (TSIG_rr t) buf 0 nil_map false) as [[[[m1 he] o] cm]|?| |]; [|done..]. gosimp.
  cbn [mbind res_bind] in E. simplify_eq. eexists _, m, _. by split.
Qed.

(** ** Skipping the sections *)

Lemma skip_questions_ok {F} n : forall msg off qs qs' off',
  @unpack_questions F n msg off qs = Ok (qs', off', None) -> length qs' = (length qs + n)%nat ->
  skip_questions n msg off = Ok off'.
Proof.
  induction n as [|n IH]; intros msg off qs qs' off'; cbn [unpack_questions skip_questions]; [congruence|].
  destruct (unpackQuestion msg off) as [[q off1]|[? ?]| |]; cbn [attempt mbind res_bind]; try done.
  destruct (Z.eqb_spec off off1) as [->|Hne].
  - intros [= <- <-] Hlen. lia.
  - intros E Hlen. eapply IH; [exact E|]. rewrite Hlen, length_app. cbn. lia.
Qed.

Lemma find_tsig_skip {F} n k : forall msg tsigoff off dst rs off',
  @unpackRRslice F n msg off dst = Ok (rs, off', None) ->
  exists l, rs = dst ++ l /\ (length l = n -> Forall (fun r => Rrtype (Hdr r) <> TypeTSIG) l ->
    exists to, find_tsig (n + k) msg tsigoff off = find_tsig k msg to off').
Proof.
  induction n as [|n IH]; intros msg tsigoff off dst rs off'; cbn [unpackRRslice find_tsig plus].
  - intros [= <- <-]. exists []. split; [by rewrite app_nil_r|]. intros _ _. by exists tsigoff.
  - destruct (UnpackRR msg off) as [[r off1]|[? ?]| |]; cbn [attempt mbind res_bind]; try done.
    destruct (Z.eqb_spec off off1) as [->|Hne].
    + intros [= <- <-]. exists []. split; [by rewrite app_nil_r|done].
    + intros (l & -> & Hl)%(IH _ off). exists (r :: l). split; [by rewrite <- app_assoc|].
      intros [= Hlen] [Hr Hno]%Forall_cons. rewrite (proj2 (Z.eqb_neq _ _)) by done. by apply Hl.
Qed.

(** The reader of a section, with anything behind it. *)
Lemma section_read_at {F A B} (P : A -> B -> Prop) l rd pre w msg suf off :
  @section_reads F A B P l rd pre w -> msg = pre ++ w ++ suf -> off = zlen pre ->
  exists l', Forall2 P l l' /\ rd (length l) msg off [] = Ok (l', off + zlen w, None).
Proof.
  intros [_ H] -> ->. destruct (H suf) as (l' & Hl & E). exists l'. split; [done|]. by rewrite E, zlen_app.
Qed.

Definition no_tsig (l : list RR) : Prop := Forall (fun r => Rrtype (Hdr r) <> TypeTSIG) l.

Lemma no_tsig_read l l' : Forall2 rr_read l l' -> no_tsig l -> no_tsig l'.
Proof.
  induction 1 as [|r r' l l' (n & _ & ->) _ IH]; intros Hl; [constructor|]. apply Forall_cons in Hl as [Hr Hl].
  constructor; [exact Hr|by apply IH].
Qed.

(** A wire header that counts the message's sections and one record more. *)
Definition counts_one_more (dh : Header) (m : Msg) : Prop :=
  header_u16 dh /\ Z.to_nat (Qdcount dh) = length (Question_ m) /\ Z.to_nat (Ancount dh) = length (Answer m) /\
  Z.to_nat (Nscount dh) = length (Ns m) /\ Arcount dh = zlen (Extra m) + 1.

Lemma stripTsig_ok m dh wq wa wn we w t :
  counts_one_more dh m -> Z.land (Bits dh) 0xF <> RcodeNotAuth -> no_tsig (Extra m) ->
  (forall hw, zlen hw = 12 -> @laid_out error m hw wq wa wn we) ->
  signed_ok t -> everywhere (rr_packer (TSIG_rr t) false) w ->
  exists n, stripTsig (header_wire dh ++ (wq ++ wa ++ wn ++ we) ++ w) =
    Ok (header_wire (set_Arcount (zlen (Extra m)) dh) ++ wq ++ wa ++ wn ++ we, received n t).
Proof.
  intros (Hdh & Cq & Ca & Cn & Ce) Hrc Hno Hl Ht Hw.
  destruct (Hl (header_wire dh) (header_wire_length dh)) as (Rq & Ra & Rn & Re). clear Hl.
  set (hw := header_wire dh) in *. assert (zlen hw = 12) as Hhw by apply header_wire_length.
  set (msg := hw ++ (wq ++ wa ++ wn ++ we) ++ w).
  destruct (section_read_at _ _ _ _ _ msg (wa ++ wn ++ we ++ w) 12 Rq) as (lq & Fq & Eq);
    [unfold msg; by rewrite <- !app_assoc|done|].
  destruct (section_read_at _ _ _ _ _ msg (wn ++ we ++ w) (12 + zlen wq) Ra) as (la & Fa & Ea);
    [unfold msg; by rewrite <- !app_assoc|rewrite zlen_app; lia|].
  destruct (section_read_at _ _ _ _ _ msg (we ++ w) (12 + zlen wq + zlen wa) Rn) as (ln & Fn & En);
    [unfold msg; by rewrite <- !app_assoc|rewrite !zlen_app; lia|].
  destruct (section_read_at _ _ _ _ _ msg w (12 + zlen wq + zlen wa + zlen wn) Re) as (le & Fe & Ee);
    [unfold msg; by rewrite <- !app_assoc|rewrite !zlen_app; lia|].
  pose proof (unpackMsgHdr_ok dh ((wq ++ wa ++ wn ++ we) ++ w) Hdh) as Eh. fold hw in Eh. fold msg in Eh.
  unfold stripTsig. rewrite Eh. cbn [on_err]. gosimp. rewrite Ce.
  pose proof (zlen_nonneg (Extra m)). rewrite (proj2 (Z.eqb_neq (zlen (Extra m) + 1) 0)) by lia.
  rewrite (proj2 (Z.eqb_neq _ _) Hrc), Cq.
  rewrite (skip_questions_ok _ _ _ _ _ _ Eq) by (cbn; symmetry; by eapply Forall2_length). cbn [on_err]. gosimp.
  unfold skip_RRs. rewrite Ca, Ea. gosimp. rewrite Cn, En. gosimp.
  destruct (find_tsig_skip (length (Extra m)) 1 msg 0 _ _ _ _ Ee) as (l & El & Hfind). cbn [app] in El. subst l.
  destruct Hfind as (to & Hfind); [symmetry; by eapply Forall2_length|by eapply no_tsig_read|].
  replace (Z.to_nat (zlen (Extra m) + 1)) with (length (Extra m) + 1)%nat by (unfold zlen; lia). rewrite Hfind.
  set (front := hw ++ wq ++ wa ++ wn ++ we).
  assert (zlen front = 12 + zlen wq + zlen wa + zlen wn + zlen we) as Hfl by (unfold front; rewrite !zlen_app; lia).
  destruct (unpack_tsig t w front [] Ht Hw) as (_ & n & Et & _). rewrite app_nil_r in Et.
  assert (msg = front ++ w) as Hmsg by (unfold msg, front; by rewrite <- !app_assoc).
  cbn [find_tsig]. rewrite <- Hfl, Hmsg, Et. cbn [on_err]. gosimp.
  assert (Rrtype (Hdr (TSIG_rr (received n t))) = TypeTSIG) as -> by (by destruct Ht as ((? & _) & _)).
  rewrite Z.eqb_refl, as_TSIG_rr. gosimp. cbn [on_err]. gosimp.
  destruct (get_arcount dh ((wq ++ wa ++ wn ++ we) ++ w)) as (cnt & Ecnt & Hcnt); [by destruct Hdh as (_ & _ & _ & _ & _ & ?)|].
  fold hw in Ecnt. fold msg in Ecnt. rewrite Hmsg in Ecnt. rewrite Ecnt. gosimp.
  pose proof (@put_arcount error dh ((unbe cnt - 1) mod 65536) ((wq ++ wa ++ wn ++ we) ++ w)) as Ep.
  fold hw in Ep. fold msg in Ep. rewrite Hmsg in Ep. rewrite Ep. gosimp.
  rewrite Hcnt, Ce in *. destruct Hdh as (_ & _ & _ & _ & _ & Har). rewrite Ce in Har. unfold u16 in Har.
  replace ((zlen (Extra m) + 1 - 1) mod 65536) with (zlen (Extra m)) by (rewrite Z.mod_small; lia).
  exists n. rewrite (app_assoc (header_wire _)).
  pose proof (slice_mid [] (header_wire (set_Arcount (zlen (Extra m)) dh) ++ wq ++ wa ++ wn ++ we) w 0 (zlen front)) as Hs.
  cbn [app] in Hs. rewrite Hs; [by gosimp|done|]. rewrite Hfl, !zlen_app, header_wire_length. change (zlen (@nil byte)) with 0. lia.
Qed.

(** ** What a provider promises for a record *)

Definition same_key (t t' : TSIG) : Prop :=
  Name (ts_Hdr t') = Name (ts_Hdr t) /\ ts_Algorithm t' = ts_Algorithm t.

(** The provider can sign for the key and algorithm of [t], and accepts its own
    MAC on the same octets. *)
Class Signs (p : TsigProvider) (t : TSIG) : Prop := {
  signs_mac : forall buf t', same_key t t' -> exists mac, Generate p buf t' = Ok mac;
  signs_size : forall buf t' mac, Generate p buf t' = Ok mac -> zlen mac <= 4096;
  signs_verified : forall buf t1 t2 mac, same_key t t1 -> same_key t t2 ->
    Generate p buf t1 = Ok mac -> ts_MAC t2 = hex_EncodeToString mac -> Verify p buf t2 = Ok tt
}.

Section HmacSigns.
Context (hmac : hash_alg -> bytes -> bytes -> bytes).
Context (hmac_size : forall alg key msg, zlen (hmac alg key msg) <= 64).

Lemma hmac_verifies key buf t1 t2 mac : ts_Algorithm t2 = ts_Algorithm t1 ->
  hmac_Generate hmac key buf t1 = Ok mac -> ts_MAC t2 = hex_EncodeToString mac -> hmac_Verify hmac key buf t2 = Ok tt.
Proof.
  intros Ha Hg Hm. unfold hmac_Verify. assert (hmac_Generate hmac key buf t2 = Ok mac) as ->.
  { rewrite <- Hg. unfold hmac_Generate. by rewrite Ha. }
  gosimp. rewrite Hm, hex_roundtrip. gosimp. by rewrite decide_True.
Qed.

Lemma hmac_short key buf t mac : hmac_Generate hmac key buf t = Ok mac -> zlen mac <= 4096.
Proof.
  unfold hmac_Generate. destruct (fromBase64 key); cbn; [|done..]. destruct (hmac_alg _) as [alg|]; [|done].
  intros [= <-]. pose proof (hmac_size alg a buf). lia.
Qed.

Lemma tsigHMACProvider_signs key raw alg t :
  fromBase64 key = Ok raw -> hmac_alg (ts_Algorithm t) = Some alg -> Signs (tsigHMACProvider hmac key) t.
Proof.
  intros Hk Ha. constructor; cbn [tsigHMACProvider Generate Verify].
  - intros buf t' [_ Ht]. unfold hmac_Generate. rewrite Hk. gosimp. rewrite Ht, Ha. by eexists.
  - intros buf t' mac. apply hmac_short.
  - intros buf t1 t2 mac [_ H1] [_ H2]. apply hmac_verifies. congruence.
Qed.

Lemma tsigSecretProvider_signs secrets key raw alg t :
  secrets !! Name (ts_Hdr t) = Some key -> fromBase64 key = Ok raw -> hmac_alg (ts_Algorithm t) = Some alg ->
  Signs (tsigSecretProvider hmac secrets) t.
Proof.
  intros Hs Hk Ha. constructor; cbn [tsigSecretProvider Generate Verify].
  - intros buf t' [Hn Ht]. rewrite Hn, Hs. unfold hmac_Generate. rewrite Hk. gosimp. rewrite Ht, Ha. by eexists.
  - intros buf t' mac. destruct (secrets !! Name (ts_Hdr t')); [apply hmac_short|done].
  - intros buf t1 t2 mac [N1 H1] [N2 H2]. rewrite N1, N2, Hs. apply hmac_verifies. congruence.
Qed.
End HmacSigns.

(** ** Signing and checking *)

Definition with_mac (mac : bytes) (t : TSIG) : TSIG :=
  MkTSIG (ts_Hdr t) (ts_Algorithm t) (ts_TimeSigned t) (ts_Fudge t) (zlen mac) (hex_EncodeToString mac)
    (ts_OrigId t) (ts_Error t) (ts_OtherLen t) (ts_OtherData t).

(** The octets the MAC is computed over. *)
Definition signed_octets (dh : Header) (rest : bytes) (rr : TSIG) (requestMAC : bytes) (timersOnly : bool) (buf : bytes) : Prop :=
  exists p v, mac_variables requestMAC = Ok p /\ tsig_variables rr timersOnly = Ok v /\ buf = p ++ (header_wire dh ++ rest) ++ v.

Lemma tsig_append_ok dh rest nextra t p requestMAC timersOnly clock : let rr := tsig_defaults clock t in
  tsig_ok rr -> mac_ok requestMAC -> ts_Error t <> RcodeBadKey -> ts_Error t <> RcodeBadSig -> Signs p t -> 0 <= nextra < 65535 ->
  let dh' := set_dh_Id (ts_OrigId t) dh in
  exists buf mac w, signed_octets dh' rest rr requestMAC timersOnly buf /\
    Generate p buf rr = Ok mac /\ signed_ok (with_mac mac rr) /\ everywhere (rr_packer (TSIG_rr (with_mac mac rr)) false) w /\
    tsig_append (header_wire dh ++ rest) nextra t p requestMAC timersOnly clock =
      Ok (header_wire (set_Arcount (nextra + 1) dh') ++ rest ++ w, hex_EncodeToString mac).
Proof.
  intros rr Ht Hm E1 E2 Hp Hn dh'.
  destruct (tsigBuffer_ok dh rest t requestMAC timersOnly clock Ht Hm) as (pf & v & Ep & Ev & Eb). fold rr dh' in Ev, Eb.
  set (buf := pf ++ (header_wire dh' ++ rest) ++ v) in *.
  destruct (signs_mac buf rr) as [mac Emac]; [by split|]. pose proof (signs_size _ _ _ Emac) as Hsz.
  assert (signed_ok (with_mac mac rr)) as Hs by (split; [exact Ht|by exists mac]).
  destruct (everywhere_tsig _ Hs) as [w Hw]. exists buf, mac, w. split; [by exists pf, v|]. split; [done|]. split; [done|]. split; [done|].
  unfold tsig_append. rewrite Eb. gosimp. unfold tsig_sign. change (ts_Error rr) with (ts_Error t).
  rewrite (proj2 (Z.eqb_neq _ _) E1), (proj2 (Z.eqb_neq _ _) E2). cbn [negb andb]. rewrite Emac. gosimp.
  rewrite hex_length, Z.mul_comm, Z.div_mul, Z.mod_small by (pose proof (zlen_nonneg mac); lia).
  change (MkTSIG _ _ _ _ _ _ _ _ _ _) with (with_mac mac rr).
  destruct (signed_rr_ok _ Hs) as [Hrr _]. rewrite rr_len_size by done. gosimp.
  destruct (PackRR_tsig _ _ Hs Hw) as (r & m & cm & Epk & Esl). rewrite Epk. cbn [on_err]. gosimp. rewrite Esl. gosimp.
  rewrite <- app_assoc, put_arcount. gosimp. rewrite Z.mod_small by lia. done.
Qed.

Lemma time_apart_abs now signed : 0 <= now < 2 ^ 64 -> 0 <= signed < 2 ^ 64 -> time_apart now signed = Z.abs (now - signed).
Proof.
  intros H1 H2. unfold time_apart. destruct (Z.ltb_spec now signed); rewrite Z.mod_small by lia; lia.
Qed.

Lemma tsigVerify_ok m dh wq wa wn we w t p requestMAC timersOnly buf mac now clock :
  let T := with_mac mac t in
  counts_one_more (set_Arcount (zlen (Extra m) + 1) dh) m -> Arcount dh = zlen (Extra m) -> dh_Id dh = ts_OrigId t ->
  Z.land (Bits dh) 0xF <> RcodeNotAuth -> no_tsig (Extra m) -> (forall hw, zlen hw = 12 -> @laid_out error m hw wq wa wn we) ->
  signed_ok T -> everywhere (rr_packer (TSIG_rr T) false) w -> Signs p t -> mac_ok requestMAC ->
  0 < ts_TimeSigned t -> 0 < ts_Fudge t -> 0 <= now < 2 ^ 64 ->
  signed_octets dh (wq ++ wa ++ wn ++ we) t requestMAC timersOnly buf -> Generate p buf t = Ok mac ->
  tsigVerify (header_wire (set_Arcount (zlen (Extra m) + 1) dh) ++ (wq ++ wa ++ wn ++ we) ++ w) p requestMAC timersOnly now clock =
    if ts_Fudge t <? Z.abs (now - ts_TimeSigned t) then Err ErrTime else Ok tt.
Proof.
  intros T Hc Hn Hid Hrc Hno Hl Hs Hw Hp Hm Ht0 Hf0 Hnow (pf & v & Ep & Ev & ->) Hmac.
  destruct (stripTsig_ok m _ wq wa wn we w T Hc) as (n & Es); [done..|]. unfold tsigVerify. rewrite Es. gosimp.
  assert (set_Arcount (zlen (Extra m)) (set_Arcount (zlen (Extra m) + 1) dh) = dh) as -> by (destruct dh; unfold set_Arcount; cbn in *; by rewrite Hn).
  unfold tsigBuffer. assert (tsig_defaults clock (received n T) = received n T) as ->.
  { unfold tsig_defaults, received, T, with_mac. cbn. by rewrite !(proj2 (Z.eqb_neq _ _)) by lia. }
  rewrite put_id. assert (set_dh_Id (ts_OrigId (received n T)) dh = dh) as -> by (cbn; rewrite <- Hid; by destruct dh).
  gosimp. rewrite Ep. gosimp. change (tsig_variables (received n T) timersOnly) with (tsig_variables t timersOnly). rewrite Ev. gosimp.
  rewrite (signs_verified _ t (received n T) mac) by (done || exact Hmac). gosimp.
  destruct Hs as ((_ & _ & _ & Hu & _) & _). cbn [received with_mac ts_Fudge ts_TimeSigned T] in *. unfold u48 in Hu.
  rewrite time_apart_abs by lia. done.
Qed.

(** ** The signed message *)

Lemma unpackRRslice_app {F} n k : forall msg off dst rs off',
  @unpackRRslice F n msg off dst = Ok (rs, off', None) ->
  exists l, rs = dst ++ l /\ (length l = n -> unpackRRslice (n + k) msg off dst = @unpackRRslice F k msg off' rs).
Proof.
  induction n as [|n IH]; intros msg off dst rs off'; cbn [unpackRRslice plus].
  - intros [= <- <-]. exists []. by rewrite app_nil_r.
  - destruct (UnpackRR msg off) as [[r off1]|[? ?]| |]; cbn [attempt mbind res_bind]; try done.
    destruct (Z.eqb_spec off off1) as [->|Hne].
    + intros [= <- <-]. exists []. by rewrite app_nil_r.
    + intros (l & -> & Hl)%IH. exists (r :: l). split; [by rewrite <- app_assoc|]. intros [= Hlen]. by apply Hl.
Qed.

(** The message as it is sent: the original id, the signed record last. *)
Definition with_tsig (t : TSIG) (m : Msg) : Msg :=
  MkMsg (set_Id (ts_OrigId t) (hdr m)) (Compress m) (Question_ m) (Answer m) (Ns m) (Extra m ++ [TSIG_rr t]).

Lemma with_tsig_laid_out m t hw wq wa wn we w : signed_ok t -> everywhere (rr_packer (TSIG_rr t) false) w ->
  @laid_out error m hw wq wa wn we -> @laid_out error (with_tsig t m) hw wq wa wn (we ++ w).
Proof.
  intros Ht Hw (Hq & Ha & Hn & _ & He). split; [exact Hq|]. split; [exact Ha|]. split; [exact Hn|].
  set (pre := ((hw ++ wq) ++ wa) ++ wn) in *. destruct (unpack_tsig t w [] [] Ht Hw) as [Hpos _]. pose proof (zlen_nonneg we).
  split; [intros _; zlia|]. intros suf. destruct (He (w ++ suf)) as (l' & Hl & E).
  destruct (unpack_tsig t w (pre ++ we) suf Ht Hw) as (_ & n & Et & Hr).
  exists (l' ++ [TSIG_rr (received n t)]). cbn [Extra with_tsig]. split; [apply Forall2_app; [done|by constructor]|].
  rewrite length_app. cbn [length].
  assert (pre ++ (we ++ w) ++ suf = pre ++ we ++ w ++ suf) as -> by (by rewrite <- !app_assoc).
  destruct (unpackRRslice_app _ 1 _ _ _ _ _ E) as (l & El & Hgo). cbn [app] in El. subst l.
  rewrite Hgo by (symmetry; by eapply Forall2_length). cbn [unpackRRslice].
  rewrite (app_assoc pre we). rewrite Et. cbn [attempt]. gosimp.
  rewrite (proj2 (Z.eqb_neq _ _)) by lia. by rewrite (app_assoc pre), (zlen_app (pre ++ we)).
Qed.

Lemma last_of_type_other t r l : Rrtype (Hdr r) <> t -> last_of_type t (l ++ [r]) = last_of_type t l.
Proof.
  intros Hr. induction l as [|x l IH]; cbn [last_of_type app]; [by rewrite (proj2 (Z.eqb_neq _ _) Hr)|by rewrite IH].
Qed.

Lemma with_tsig_ok m t : msg_ok m -> zlen (Extra m) < 65535 -> signed_ok t -> msg_ok (with_tsig t m).
Proof.
  intros (Hid & Hop & Hrc & Hq & Ha & Hn & He & Lq & La & Ln & Le) Hlt Ht. destruct (signed_rr_ok t Ht) as [_ Hx].
  split; [by destruct Ht as ((_ & _ & _ & _ & _ & ? & _) & _)|]. do 5 (split; [done|]). cbn [Extra with_tsig Question_ Answer Ns].
  split; [apply Forall_app; split; [done|by constructor]|]. split_and!; [done..|]. rewrite zlen_app. change (zlen [_]) with 1. lia.
Qed.

Lemma with_tsig_rcode m t : Rrtype (ts_Hdr t) = TypeTSIG -> rcode_carried m -> rcode_carried (with_tsig t m).
Proof. intros Ht. unfold rcode_carried. cbn [Extra with_tsig hdr]. by rewrite last_of_type_other by (cbn [TSIG_rr Hdr]; by rewrite Ht). Qed.

Lemma with_tsig_header m t : msg_ok m -> zlen (Extra m) < 65535 ->
  wire_header (with_tsig t m) = set_Arcount (zlen (Extra m) + 1) (set_dh_Id (ts_OrigId t) (wire_header m)).
Proof.
  intros Hok Hlt. unfold wire_header, with_tsig, set_Arcount, set_dh_Id. cbn [hdr Question_ Answer Ns Extra dh_Id Bits Qdcount Ancount Nscount Id set_Id].
  f_equal. rewrite zlen_app. change (zlen [TSIG_rr t]) with 1. pose proof (zlen_nonneg (Extra m)). by rewrite Z.mod_small by lia.
Qed.

(** ** Verifying arbitrary octets *)

Lemma typed_as_TSIG {E} r : typed_rr r -> Rrtype (Hdr r) = TypeTSIG -> exists t, @as_TSIG E r = Ok t.
Proof.
  intros (_ & Hs & Hd) Hty. rewrite Hty in Hs. change (struct r = RR_TSIG) in Hs. rewrite Hs in Hd.
  change (fields RR_TSIG) with TSIG_fields in Hd. unfold TSIG_fields in Hd. unfold as_TSIG. rewrite Hs.
  repeat match goal with
  | H : Forall2 _ (_ :: _) _ |- _ => apply Forall2_cons_inv_l in H as (? & ? & ? & ? & ->)
  | H : Forall2 _ [] _ |- _ => apply Forall2_nil_inv_l in H as ->
  end.
  repeat match goal with H : has_type _ ?v |- _ => destruct v; cbn in H; try done; clear H end.
  by eexists.
Qed.

Lemma find_tsig_safe n : forall msg to off, 0 <= off <= zlen msg -> 12 <= off ->
  ensures (find_tsig n msg to off) (fun '(to', _) => (n = O -> to' = to) /\ (n <> O -> 12 <= to' <= zlen msg)) (fun _ => True).
Proof.
  induction n as [|n IH]; intros msg to off H0 H12; cbn [find_tsig]; [by split|].
  eapply ensures_bind_via; [by apply UnpackRR_ok|]. intros [r off'] [Ho Hr].
  destruct (Z.eqb_spec (Rrtype (Hdr r)) TypeTSIG) as [Hty|_].
  - destruct (@typed_as_TSIG (Z * error) r Hr Hty) as [t ->]. cbn. split; [done|lia].
  - eapply ensures_mono; [apply IH; lia| |done]. intros [to' f] [Hz Hn]. split; [done|]. intros _.
    destruct n; [rewrite Hz by done; lia|by apply Hn].
Qed.

Lemma skip_questions_safe n : forall msg off, 0 <= off <= zlen msg ->
  ensures (skip_questions n msg off) (fun o => off <= o <= zlen msg) (fun _ => True).
Proof.
  induction n as [|n IH]; intros msg off H0; cbn [skip_questions]; [cbn; lia|].
  eapply ensures_bind_via; [by apply unpackQuestion_safe|]. intros [q o] [Ho _].
  eapply ensures_mono; [apply IH; lia| |done]. cbn. lia.
Qed.

Lemma unpackRRslice_later {F} l : forall msg off dst, 0 <= off <= zlen msg ->
  ensures (@unpackRRslice F l msg off dst) (fun '(_, o, _) => off <= o <= zlen msg) (fun _ => True).
Proof.
  induction l as [|l IH]; intros msg off dst H0; cbn [unpackRRslice]; [cbn; lia|].
  pose proof (UnpackRR_ok msg off H0) as Hs. destruct (UnpackRR msg off) as [[rr o]|[o e]| |]; cbn in Hs; try done; cbn [attempt]; gosimp.
  - destruct Hs as [Ho _]. destruct (off =? o); [cbn; lia|]. eapply ensures_mono; [apply IH; lia| |done]. intros [[? ?] ?]. lia.
  - cbn. lia.
Qed.

Lemma skip_RRs_safe l msg off : 0 <= off <= zlen msg ->
  ensures (skip_RRs l msg off) (fun o => off <= o <= zlen msg) (fun _ => True).
Proof.
  intros H0. unfold skip_RRs. eapply ensures_bind_via; [by apply unpackRRslice_later|]. intros [[rs o] [e|]] Ho; [done|exact Ho].
Qed.

Lemma PutUint16_len {E} msg off v : 0 <= off -> off + 2 <= zlen msg ->
  ensures (@PutUint16 E msg off v) (fun m => zlen m = zlen msg) (fun _ => False).
Proof.
  intros H0 Hle. unfold PutUint16. rewrite slice_Some by lia. gosimp. cbn [ensures]. unfold blit.
  rewrite !zlen_app, zlen_ztake by lia. change (zlen [_; _]) with 2. rewrite zlen_zdrop by lia. lia.
Qed.

Lemma stripTsig_safe msg : ensures (stripTsig msg) (fun '(b, _) => 12 <= zlen b) (fun _ => True).
Proof.
  unfold stripTsig. eapply ensures_bind_via; [apply ensures_on_err; eapply ensures_mono; [apply unpackMsgHdr_safe|intros ? HQ; exact HQ|done]|].
  intros [dh off] (-> & Hlen & Hdh). case_match eqn:Har; [done|]. case_match; [done|].
  eapply ensures_bind_via; [apply ensures_on_err; eapply ensures_mono; [apply skip_questions_safe; lia|intros ? HQ; exact HQ|done]|]. intros o1 H1.
  eapply ensures_bind_via; [apply skip_RRs_safe; cbv beta in H1; lia|]. intros o2 H2.
  eapply ensures_bind_via; [apply skip_RRs_safe; cbv beta in H1, H2; lia|]. intros o3 H3. cbv beta in *.
  eapply ensures_bind_via; [apply ensures_on_err; eapply ensures_mono; [apply find_tsig_safe; lia|intros ? HQ; exact HQ|done]|].
  intros [to f] [_ Hto]. assert (12 <= to <= zlen msg) as Ht.
  { apply Hto. apply Z.eqb_neq in Har. destruct Hdh as (_ & _ & _ & _ & _ & Hu). unfold u16 in Hu. lia. }
  destruct f as [t|].
  - rewrite slice_Some by lia. gosimp.
    eapply ensures_bind_via; [eapply ensures_mono; [apply PutUint16_len; lia|intros ? HQ; exact HQ|done]|].
    intros m Hm. cbv beta in Hm. rewrite slice_Some by lia. gosimp. cbn [ensures]. rewrite zlen_ztake; [lia|]. rewrite zlen_zdrop by lia. lia.
  - rewrite slice_Some by lia. gosimp. cbn [ensures]. rewrite zlen_ztake; [lia|]. rewrite zlen_zdrop by lia. lia.
Qed.

(** Packers that stay inside the buffer. *)
Definition contained (pk : bytes -> Z -> wire (bytes * Z)) : Prop := forall msg off, 0 <= off <= zlen msg ->
  ensures (pk msg off) (fun '(m, o) => zlen m = zlen msg /\ 0 <= o <= zlen m) (fun _ => True).

Lemma fixed_contained pk w : fixed pk w -> contained pk.
Proof.
  intros H msg off H0. destruct (H msg off ltac:(lia)) as [[_ [e ->]]|(m & -> & Hw)]; [done|].
  pose proof (writes_len _ _ _ _ _ Hw). destruct Hw as (_ & _ & Hle & _). pose proof (zlen_nonneg w). cbn. lia.
Qed.

Lemma hex_Decode_returns : forall s, returns (hex_DecodeString s).
Proof.
  fix IH 1. intros [|a [|b s]]; cbn [hex_DecodeString]; [exact I|destruct (hex_val a); exact I|].
  destruct (hex_val a); [|exact I]. destruct (hex_val b); [|exact I].
  apply (ensures_bind_via _ _ (fun _ => True)); [apply IH|done].
Qed.

Lemma contained_hex s : contained (packStringHex s).
Proof.
  intros msg off H0. unfold packStringHex, pack_decoded.
  eapply ensures_bind_via; [apply ensures_on_err; apply hex_Decode_returns|]. intros h _.
  destruct (Z.ltb_spec (zlen msg) (off + zlen h)); [done|].
  destruct (put_at_writes (E := Z * error) msg off h ltac:(lia) ltac:(lia)) as (m & -> & Hw). pose proof (writes_len _ _ _ _ _ Hw).
  pose proof (zlen_nonneg h). cbn. lia.
Qed.

(** [then_contained]: one more packer in a row. *)
Lemma then_contained {A} pk msg off (f : bytes * Z -> wire A) Q : contained pk -> 0 <= off <= zlen msg ->
  (forall m o, zlen m = zlen msg -> 0 <= o <= zlen m -> ensures (f (m, o)) Q (fun _ => True)) ->
  ensures (pk msg off ≫= f) Q (fun _ => True).
Proof. intros Hpk H0 Hf. eapply ensures_bind_via; [by apply Hpk|]. intros [m o] [Hm Ho]. by apply Hf. Qed.

Lemma then_name {A} s msg off (f : bytes * Z * compressionMap -> wire A) Q : 0 <= off <= zlen msg ->
  (forall m o c, zlen m = zlen msg -> 0 <= o <= zlen m -> ensures (f (m, o, c)) Q (fun _ => True)) ->
  ensures (PackDomainName s msg off None false ≫= f) Q (fun _ => True).
Proof.
  intros H0 Hf. unfold PackDomainName. eapply ensures_bind_via; [eapply ensures_mono; [by apply packDomainName_ensures|intros ? HQ; exact HQ|done]|].
  intros [[m o] c] (Hm & Ho & _). apply Hf; lia.
Qed.

Lemma packTsigWire_safe tw msg :
  ensures (packTsigWire tw msg) (fun '(m, o) => zlen m = zlen msg /\ 0 <= o <= zlen m) (fun _ => True).
Proof.
  unfold packTsigWire. pose proof (zlen_nonneg msg).
  apply then_name; [lia|]. intros m1 o1 c1 L1 O1. cbv beta iota.
  apply then_contained; [eapply fixed_contained, fixed_uint16|lia|]. intros m2 o2 L2 O2. cbv beta iota.
  apply then_contained; [eapply fixed_contained, fixed_uint32|lia|]. intros m3 o3 L3 O3. cbv beta iota.
  apply then_name; [lia|]. intros m4 o4 c4 L4 O4. cbv beta iota.
  apply then_contained; [eapply fixed_contained, fixed_uint48|lia|]. intros m5 o5 L5 O5. cbv beta iota.
  apply then_contained; [eapply fixed_contained, fixed_uint16|lia|]. intros m6 o6 L6 O6. cbv beta iota.
  apply then_contained; [eapply fixed_contained, fixed_uint16|lia|]. intros m7 o7 L7 O7. cbv beta iota.
  apply then_contained; [eapply fixed_contained, fixed_uint16|lia|]. intros m8 o8 L8 O8. cbv beta iota.
  eapply ensures_mono; [apply contained_hex; lia| |done]. intros [m o]. lia.
Qed.

Lemma tsigBuffer_safe b t requestMAC timersOnly clock : 2 <= zlen b -> returns (tsigBuffer b t requestMAC timersOnly clock).
Proof.
  intros Hb. unfold tsigBuffer, returns.
  eapply ensures_bind_via; [eapply ensures_mono; [apply PutUint16_len; lia|intros ? HQ; exact HQ|done]|]. intros m _.
  assert (forall r : wire (bytes * Z), ensures r (fun '(m, o) => 0 <= o <= zlen m) (fun _ => True) ->
    ensures ('(buf, n) ← on_err snd r; @index error _ (slice buf 0 n)) (fun _ => True) (fun _ => True)) as Hcut.
  { intros r Hr. eapply ensures_bind_via; [apply ensures_on_err; eapply ensures_mono; [exact Hr|intros ? HQ; exact HQ|done]|].
    intros [buf n] Hn. cbv beta in Hn. by rewrite slice_Some by lia. }
  apply (ensures_bind_via _ _ (fun _ => True)).
  { unfold mac_variables. case_decide; [done|]. apply Hcut. unfold packMacWire. set (buf := replicate _ _). pose proof (zlen_nonneg buf).
    apply then_contained; [eapply fixed_contained, fixed_uint16|lia|]. intros m1 o1 L1 O1. cbv beta iota.
    eapply ensures_mono; [apply contained_hex; lia| |done]. intros [? ?]. lia. }
  intros pf _. apply (ensures_bind_via _ _ (fun _ => True)); [|done].
  unfold tsig_variables. set (buf := replicate _ _). pose proof (zlen_nonneg buf). apply Hcut. destruct timersOnly.
  - unfold packTimerWire. apply then_contained; [eapply fixed_contained, fixed_uint48|lia|]. intros m1 o1 L1 O1. cbv beta iota.
    eapply ensures_mono; [eapply (fixed_contained _ _ (fixed_uint16 _)); lia| |done]. intros [? ?]. lia.
  - eapply ensures_mono; [apply packTsigWire_safe| |done]. intros [? ?]. lia.
Qed.

(** Whatever octets arrive, verifying them returns when the provider does. *)
Lemma tsigVerify_safe msg p requestMAC timersOnly now clock : (forall b t, returns (Verify p b t)) ->
  returns (tsigVerify msg p requestMAC timersOnly now clock).
Proof.
  intros Hp. unfold tsigVerify, returns. eapply ensures_bind_via; [apply stripTsig_safe|]. intros [b t] Hb. cbv beta iota in *.
  apply (ensures_bind_via _ _ (fun _ => True)); [apply tsigBuffer_safe; lia|]. intros [[buf m] t'] _.
  apply (ensures_bind_via _ _ (fun _ => True)); [apply Hp|]. intros _ _. by case_match.
Qed.

(** ** [TsigGenerateWithProvider] and then [tsigVerify] *)

Lemma packed_msg_extra m : zlen (Extra (packed_msg m)) = zlen (Extra m) /\ (no_tsig (Extra m) -> no_tsig (Extra (packed_msg m))) /\
  Rcode (hdr (packed_msg m)) = Rcode (hdr m).
Proof.
  unfold packed_msg. destruct (last_of_type _ _); [|done]. cbn [Extra set_Extra hdr]. split_and!; [unfold zlen; by rewrite length_update_last| |done].
  intros H. unfold no_tsig in *. induction H as [|x l Hx Hl IH]; [constructor|]. cbn [update_last].
  destruct (last_of_type _ _); [by constructor|]. destruct (_ =? _); by constructor.
Qed.

Lemma Msg_IsTsig_snoc {E} m t : Rrtype (ts_Hdr t) = TypeTSIG -> @Msg_IsTsig E (set_Extra (Extra m ++ [TSIG_rr t]) m) = Ok (Some t).
Proof.
  intros Ht. unfold Msg_IsTsig. cbn [Extra set_Extra]. rewrite last_snoc. cbn [TSIG_rr Hdr]. rewrite Ht, Z.eqb_refl.
  change (MkRR _ _ _) with (TSIG_rr t). by rewrite as_TSIG_rr.
Qed.

(** The conditions on a message [m] and the TSIG record [t] put behind it. *)
Record signable (p : TsigProvider) (m : Msg) (t : TSIG) (clock : Z) : Prop := {
  sg_msg : msg_ok m;
  sg_rcode : rcode_fits m;
  sg_no_tsig : no_tsig (Extra m);
  sg_room : zlen (Extra m) < 65535;
  sg_auth : Z.land (Rcode (hdr m)) 0xF <> RcodeNotAuth;
  sg_tsig : tsig_ok (tsig_defaults clock t);
  sg_error : ts_Error t <> RcodeBadKey /\ ts_Error t <> RcodeBadSig;
  sg_clock : 0 < clock;
  sg_provider : Signs p t
}.

Lemma sign_and_verify p m t requestMAC timersOnly clock : signable p m t clock -> mac_ok requestMAC ->
  exists b mac, let T := with_mac mac (tsig_defaults clock t) in
    TsigGenerateWithProvider (set_Extra (Extra m ++ [TSIG_rr t]) m) p requestMAC timersOnly clock =
      (packed_msg m, Ok (b, hex_EncodeToString mac)) /\
    (forall now clock', 0 <= now < 2 ^ 64 -> tsigVerify b p requestMAC timersOnly now clock' =
      if ts_Fudge T <? Z.abs (now - ts_TimeSigned T) then Err ErrTime else Ok tt) /\
    (forall m0, exists m', @Unpack error m0 b = Ok (m', None) /\ msg_read (with_tsig T (packed_msg m)) m') /\
    signed_ok T /\ zlen b <= msg_size m + rr_size (TSIG_rr T) /\ (exists buf, Generate p buf (tsig_defaults clock t) = Ok mac) /\
    exists rest, b = header_wire (wire_header (with_tsig T (packed_msg m))) ++ rest.
Proof.
  intros [Hok Hfit Hno Hroom Hrc Ht [E1 E2] Hclock Hp] Hm.
  destruct (@PackBuffer_layout error m [] Hok Hfit) as (wq & wa & wn & we & Epk & Hsz & _ & Hl).
  destruct (packed_msg_extra m) as (Xl & Xn & Xr). set (m1 := packed_msg m) in *. set (dh := wire_header m1) in *.
  pose proof (packed_msg_ok m Hok) as Hok1. fold m1 in Hok1. pose proof (zlen_nonneg (Extra m)).
  destruct (tsig_append_ok dh (wq ++ wa ++ wn ++ we) (zlen (Extra m1)) t p requestMAC timersOnly clock) as (buf & mac & w & Hbuf & Hmac & Hs & Hw & Eb);
    [done..|lia|]. set (rr := tsig_defaults clock t) in *. set (T := with_mac mac rr) in *.
  set (b := header_wire _ ++ (wq ++ wa ++ wn ++ we) ++ w) in Eb. exists b, mac. cbn zeta. fold T.
  assert (wire_header (with_tsig T m1) = set_Arcount (zlen (Extra m1) + 1) (set_dh_Id (ts_OrigId t) dh)) as Hwh
    by exact (with_tsig_header m1 T Hok1 ltac:(lia)).
  assert (msg_ok (with_tsig T m1)) as Hokt by (apply with_tsig_ok; [done|lia|done]).
  destruct (wire_header_ok _ Hokt) as [Hu _]. destruct (counts _ Hok1) as (C1 & C2 & C3 & C4). fold dh in C1, C2, C3, C4.
  split; [|split; [|split; [|split; [exact Hs|split; [|split; [by exists buf|exists ((wq ++ wa ++ wn ++ we) ++ w); by rewrite Hwh]]]]]].
  - unfold TsigGenerateWithProvider. rewrite Msg_IsTsig_snoc by (by destruct Ht). cbn [Extra set_Extra].
    rewrite removelast_last. assert (set_Extra (Extra m) (set_Extra (Extra m ++ [TSIG_rr t]) m) = m) as -> by (by destruct m).
    unfold Pack. rewrite Epk. fold m1. gosimp. by rewrite Eb.
  - intros now clock' Hnow. subst b. destruct Ht as (_ & _ & _ & Hts & Htf & _). unfold u48, u16 in Hts, Htf.
    assert (0 < ts_TimeSigned rr /\ 0 < ts_Fudge rr) as [? ?].
    { unfold rr, tsig_defaults in *. cbn [ts_TimeSigned ts_Fudge] in *.
      destruct (Z.eqb_spec (ts_TimeSigned t) 0), (Z.eqb_spec (ts_Fudge t) 0); lia. }
    apply (tsigVerify_ok m1 (set_dh_Id (ts_OrigId t) dh) wq wa wn we w rr p requestMAC timersOnly buf mac now clock'); try done.
    + rewrite <- Hwh. split; [done|]. rewrite Hwh. by split_and!.
    + unfold dh. cbn. rewrite Z.mod_small; [done|lia].
    + change (Bits (set_dh_Id (ts_OrigId t) dh)) with (msg_bits (hdr m1)).
      destruct (setHdr_bits dh (hdr m1)) as [_ Hbits]; try done. { by destruct Hok1 as (_ & ? & _). }
      assert (Rcode (setHdr dh) = Z.land (Bits dh) 15) as Hz by done. rewrite Hbits in Hz.
      change (Bits dh) with (msg_bits (hdr m1)) in Hz. rewrite <- Hz. cbn [Rcode set_Rcode]. by rewrite Xr.
    + by apply Xn.
    + constructor; [apply (signs_mac (t := t))|apply (signs_size (t := t))|apply (signs_verified (t := t))].
  - intros m0. pose proof (Hl (header_wire (wire_header (with_tsig T m1))) (header_wire_length _)) as Hlt.
    apply (with_tsig_laid_out m1 T _ _ _ _ _ w Hs Hw) in Hlt.
    destruct (@Unpack_layout error (with_tsig T m1) m0 wq wa wn (we ++ w) [] Hokt) as (m' & Eu & Hr & _).
    + apply with_tsig_rcode; [by destruct Hs as ((? & _) & _)|]. by apply packed_msg_rcode.
    + exact Hlt.
    + exists m'. rewrite Hwh, app_nil_r in Eu. unfold b. split; [|done].
      rewrite <- Eu. f_equal. by rewrite <- !app_assoc.
  - destruct (unpack_tsig T w [] [] Hs Hw) as [Hlw _]. cbv zeta in Hsz. subst b. rewrite !zlen_app, header_wire_length in *. lia.
Qed.

(** C8: a message signed by [TsigGenerateWithProvider] is accepted: when the
    provider can sign for the record's key and algorithm, generating succeeds,
    with defaults for a zero time or fudge; [tsigVerify] with the same request
    MAC and timers flag answers nil when the clock is within the fudge of the
    time signed, either way, and [ErrTime] otherwise; and [Unpack] gives the
    message back, with the original id and the signed record last.  The message
    that was passed in is left without its TSIG record. *)
Theorem TSIG_roundtrip p m t requestMAC timersOnly clock : signable p m t clock -> mac_ok requestMAC ->
  exists b mac, let T := with_mac mac (tsig_defaults clock t) in
    TsigGenerateWithProvider (set_Extra (Extra m ++ [TSIG_rr t]) m) p requestMAC timersOnly clock =
      (packed_msg m, Ok (b, hex_EncodeToString mac)) /\
    (forall now clock', 0 <= now < 2 ^ 64 -> tsigVerify b p requestMAC timersOnly now clock' =
      if ts_Fudge T <? Z.abs (now - ts_TimeSigned T) then Err ErrTime else Ok tt) /\
    (forall m0, exists m', @Unpack error m0 b = Ok (m', None) /\ msg_read (with_tsig T (packed_msg m)) m').
Proof.
  intros Hs Hm. destruct (sign_and_verify p m t requestMAC timersOnly clock Hs Hm) as (b & mac & H1 & H2 & H3 & _).
  by exists b, mac.
Qed.

(** A checksum in place of an HMAC, to run the definitions. *)
Definition toy_hmac (alg : hash_alg) (key msg : bytes) : bytes :=
  be 4 (fold_left (fun a b => a * 31 + bval b) (key ++ msg) 7).

Lemma toy_hmac_size alg key msg : zlen (toy_hmac alg key msg) <= 64.
Proof. unfold toy_hmac. by rewrite be_length. Qed.

Definition example_secrets : gmap bytes bytes := {[ bs "key." := bs "c2VjcmV0" ]}.
Definition example_tsig : TSIG :=
  MkTSIG (MkHeader (bs "key.") TypeTSIG ClassANY 0 0) HmacSHA256 1700000000 300 0 [] 4660 0 0 [].

Lemma example_signable : signable (tsigSecretProvider toy_hmac example_secrets) example_msg example_tsig 1700000000.
Proof.
  constructor; [exact example_msg_ok|intros _; by eexists| |done|vm_compute; discriminate| |done|done|].
  - repeat (constructor; [done|]). constructor.
  - assert (good_name (bs "key.")) as Hk.
    { exists [bs "key"]. split; [|done]. split; [by repeat apply Forall_cons_2|done]. }
    assert (good_name HmacSHA256) as Ha.
    { exists [bs "hmac-sha256"]. split; [|done]. split; [by repeat apply Forall_cons_2|done]. }
    split; [done|]. split; [by split|]. split; [done|]. do 4 (split; [done|]). by exists [].
  - apply (tsigSecretProvider_signs toy_hmac toy_hmac_size example_secrets (bs "c2VjcmV0") (bs "secret") SHA256); reflexivity.
Qed.

Lemma TSIG_roundtrip_witness : exists b mac,
  TsigGenerateWithProvider (set_Extra (Extra example_msg ++ [TSIG_rr example_tsig]) example_msg)
    (tsigSecretProvider toy_hmac example_secrets) [] false 1700000000 = (packed_msg example_msg, Ok (b, mac)) /\
  tsigVerify b (tsigSecretProvider toy_hmac example_secrets) [] false 1700000301 0 = Err ErrTime /\
  tsigVerify b (tsigSecretProvider toy_hmac example_secrets) [] false 1699999700 0 = Ok tt.
Proof.
  destruct (TSIG_roundtrip _ _ _ [] false _ example_signable ltac:(by left)) as (b & mac & H1 & H2 & _).
  exists b, (hex_EncodeToString mac). split; [exact H1|].
  split; (etransitivity; [apply H2; lia|vm_compute; reflexivity]).
Defined.

(** [stripTsig] compares the record it allocated with nil, so that a message
    whose additional section has no TSIG record is not rejected with
    [ErrNoSig]: its last record is cut off and verified with an empty TSIG
    record; the HMAC provider answers [ErrKeyAlg], whatever the key, and a
    provider that accepts everything accepts the message. *)
Theorem stripTsig_missing hmac key :
  let b := map byte_of [0;1; 0;0; 0;0; 0;0; 0;0; 0;1; 0; 0;1; 0;1; 0;0;0;0; 0;4; 1;2;3;4] in
  stripTsig b = Ok (ztake 12 b, new_TSIG) /\
  (forall raw, fromBase64 key = Ok raw -> tsigVerify b (tsigHMACProvider hmac key) [] false 5 5 = Err ErrKeyAlg) /\
  tsigVerify b (MkTsigProvider (fun _ _ => Ok []) (fun _ _ => Ok tt)) [] false 5 5 = Ok tt.
Proof.
  cbv zeta. split; [vm_compute; reflexivity|]. split; [|vm_compute; reflexivity].
  intros raw Hk. unfold tsigVerify. set (b := map byte_of _).
  assert (stripTsig b = Ok (ztake 12 b, new_TSIG)) as -> by (vm_compute; reflexivity). gosimp.
  assert (exists buf msg, tsigBuffer (ztake 12 b) new_TSIG [] false 5 = Ok (buf, msg, tsig_defaults 5 new_TSIG)) as (buf & msg & ->)
    by (eexists _, _; vm_compute; reflexivity).
  gosimp. cbn [tsigHMACProvider Verify]. unfold hmac_Verify, hmac_Generate. rewrite Hk. gosimp.
  by change (hmac_alg (ts_Algorithm (tsig_defaults 5 new_TSIG))) with (@None hash_alg).
Qed.
