(* ===== verification/Server.v ===== *)
(** * server.go and acceptfunc.go: one request

    [defaultMsgAcceptFunc], [serveDNS] and the methods of [response], with the
    frames of DNS over TCP and their readers in server.go and client.go.  The
    socket is the list of what was written to it; the handler, the accept
    function and the TSIG provider are arguments; the writer is not decorated.
    How connections are accepted and shut down is in Shutdown.v. *)

From S2P Require Import Prelude Go Utf8 Labels Escape Names NameDecode NameEncode NameLen Wire Codec NameCarry Text Nsec Encodings Apl Edns Svcb RData RDataCarry RR RRCarry Msg MsgCarry Safety Build Tsig.

Definition MaxMsgSize : Z := 65535.
Definition MinMsgSize_ : Z := 512.
Definition RcodeServerFailure : Z := 2.
Definition RcodeNotImplemented : Z := 4.
Definition RcodeRefused : Z := 5.

(** [new(Msg)]. *)
Definition zero_msg : Msg := MkMsg zero_hdr false [] [] [] [].

(** ** Accepting *)

Inductive MsgAcceptAction := MsgAccept | MsgReject | MsgIgnore | MsgRejectNotImplemented.

Definition defaultMsgAcceptFunc (dh : Header) : MsgAcceptAction :=
  if negb (Z.land (Bits dh) QR_ =? 0) then MsgIgnore else
  let opcode := Z.land (Z.shiftr (Bits dh) 11) 0xF in
  if negb (opcode =? OpcodeQuery) && negb (opcode =? OpcodeNotify) then MsgRejectNotImplemented else
  if negb (Qdcount dh =? 1) then MsgReject else
  if 1 <? Ancount dh then MsgReject else
  if 1 <? Nscount dh then MsgReject else
  if 2 <? Arcount dh then MsgReject else MsgAccept.

(** ** The response writer *)

Inductive transport := UDP | TCP.

Record response := MkResponse {
  net : transport;
  closed : bool;
  hijacked : bool;
  tsigTimersOnly : bool;
  tsigStatus : option error;
  tsigRequestMAC : bytes;
  sent : list bytes  (* the datagrams, or the writes to the connection *)
}.

Definition new_response (n : transport) : response := MkResponse n false false false None [] [].

Definition set_sent (l : list bytes) (w : response) : response :=
  MkResponse (net w) (closed w) (hijacked w) (tsigTimersOnly w) (tsigStatus w) (tsigRequestMAC w) l.
Definition set_RequestMAC (mac : bytes) (w : response) : response :=
  MkResponse (net w) (closed w) (hijacked w) (tsigTimersOnly w) (tsigStatus w) mac (sent w).
Definition set_TsigTimersOnly (b : bool) (w : response) : response :=
  MkResponse (net w) (closed w) (hijacked w) b (tsigStatus w) (tsigRequestMAC w) (sent w).
Definition set_tsigStatus (e : option error) (w : response) : response :=
  MkResponse (net w) (closed w) (hijacked w) (tsigTimersOnly w) e (tsigRequestMAC w) (sent w).
Definition Hijack (w : response) : response :=
  MkResponse (net w) (closed w) true (tsigTimersOnly w) (tsigStatus w) (tsigRequestMAC w) (sent w).

Definition response_Close (w : response) : response * option error :=
  if closed w then (w, Some (MkError "connection already closed"))
  else (MkResponse (net w) true (hijacked w) (tsigTimersOnly w) (tsigStatus w) (tsigRequestMAC w) (sent w), None).

(** [msg := make([]byte, 2+len(m))] with the length and a copy of [m]. *)
Definition frame (m : bytes) : bytes := be 2 (zlen m) ++ m.

Definition response_Write (m : bytes) (w : response) : response * option error :=
  if closed w then (w, Some (MkError "Write called after Close")) else
  match net w with
  | UDP => (set_sent (sent w ++ [m]) w, None)
  | TCP => if MaxMsgSize <? zlen m then (w, Some (MkError "message too large"))
           else (set_sent (sent w ++ [frame m]) w, None)
  end.

Section Response.
Variable tsigProvider : option TsigProvider.
Variable clock : Z.

(** [WriteMsg]: with a provider, a message whose last record is TSIG is signed;
    the MAC is stored for the next message, and cleared by an error. *)
Definition response_WriteMsg (m : Msg) (w : response) : res error (response * option error) :=
  if closed w then Ok (w, Some (MkError "WriteMsg called after Close")) else
  let plain :=
    match Pack m with
    | (_, Ok data) => Ok (response_Write data w)
    | (_, Err e) => Ok (w, Some e)
    | (_, Panic) => Panic
    | (_, Diverge) => Diverge
    end in
  match tsigProvider with
  | None => plain
  | Some p =>
      t ← Msg_IsTsig m;
      match t with
      | None => plain
      | Some _ =>
          match (TsigGenerateWithProvider m p (tsigRequestMAC w) (tsigTimersOnly w) clock).2 with
          | Ok (data, mac) => Ok (response_Write data (set_RequestMAC mac w))
          | Err e => Ok (set_RequestMAC [] w, Some e)
          | Panic => Panic
          | Diverge => Diverge
          end
      end
  end.

(** ** [serveDNS] *)

Variable MsgAcceptFunc : Header -> MsgAcceptAction.
(** The handler; what it does to the writer. *)
Variable ServeDNS : response -> Msg -> res error response.

(** The reply that rejects the request. *)
Definition reject_msg (notImplemented : bool) (req : Msg) : Msg :=
  let h := format_error_hdr (hdr req) (hdr req) in
  let h := MkMsgHdr (Id h) (Response h) (if notImplemented then Opcode (hdr req) else Opcode h) (Authoritative h)
             (Truncated h) (RecursionDesired h) (RecursionAvailable h) false (AuthenticatedData h) (CheckingDisabled h)
             (if notImplemented then RcodeNotImplemented else Rcode h) in
  MkMsg h (Compress req) (Question_ req) [] [] [].

Definition reject (notImplemented : bool) (req : Msg) (w : response) : res error response :=
  '(w, _) ← response_WriteMsg (reject_msg notImplemented req) w; Ok w.

(** The writer afterwards, and the error given to [MsgInvalidFunc], if any. *)
Definition serveDNS (m : bytes) (now : Z) (w : response) : res error (response * option error) :=
  h ← attempt (unpackMsgHdr m 0);
  match h with
  | inr (_, e) => Ok (w, Some e)
  | inl (dh, off) =>
      let req := set_hdr (setHdr dh) zero_msg in
      match MsgAcceptFunc dh with
      | MsgIgnore => Ok (w, None)
      | MsgReject => w ← reject false req w; Ok (w, None)
      | MsgRejectNotImplemented => w ← reject true req w; Ok (w, None)
      | MsgAccept =>
          '(req, err) ← unpack req dh m off;
          match err with
          | Some e => w ← reject false req w; Ok (w, Some e)
          | None =>
              let w := set_tsigStatus None w in
              w ← (match tsigProvider with
                   | None => Ok w
                   | Some p =>
                       t ← Msg_IsTsig req;
                       match t with
                       | None => Ok w
                       | Some t =>
                           st ← attempt (tsigVerify m p [] false now clock);
                           Ok (set_RequestMAC (ts_MAC t) (set_TsigTimersOnly false
                                 (set_tsigStatus (match st with inl _ => None | inr e => Some e end) w)))
                       end
                   end);
              w ← ServeDNS w req;
              Ok (w, None)
          end
      end
  end.
End Response.

(** The handlers of the package: [SetRcode] on a new message. *)
Definition reply_with (r : Msg) (rcode : Z) : Msg :=
  MkMsg (set_Rcode rcode (reply_hdr (hdr r) zero_hdr)) false (take 1 (Question_ r)) [] [] [].

Definition handleRefused (tp : option TsigProvider) (clock : Z) (w : response) (r : Msg) : res error response :=
  '(w, _) ← response_WriteMsg tp clock (reply_with r RcodeRefused) w; Ok w.
Definition HandleFailed (tp : option TsigProvider) (clock : Z) (w : response) (r : Msg) : res error response :=
  '(w, _) ← response_WriteMsg tp clock (reply_with r RcodeServerFailure) w; Ok w.

(** ** Reading frames *)

(** [readTCP] and the stream branch of [Conn.Read]: the message and what is left
    of the stream; [io.ReadFull] waits for all of it, and fails at its end. *)
Definition readTCP (stream : bytes) : res error (bytes * bytes) :=
  match slice stream 0 2 with
  | None => Err (MkError "unexpected EOF")
  | Some w =>
      match slice stream 2 (2 + unbe w) with
      | None => Err (MkError "unexpected EOF")
      | Some m => Ok (m, zdrop (2 + unbe w) stream)
      end
  end.

(** ** Questions from the wire *)

(** A question whose name the wire can carry: unlike [question_ok], without the
    limit on compression pointers. *)
Definition wire_question (q : Question) : Prop :=
  (exists ls, q_Name q = show_name ls /\ Forall (fun l => 1 <= zlen l < 64) ls /\ wire_len ls < 255) /\ typed_question q.

Lemma unpackQuestion_wire msg off q o : 0 <= off <= zlen msg -> unpackQuestion msg off = Ok (q, o) -> wire_question q /\ off <= o <= zlen msg.
Proof.
  intros H0 E. pose proof (unpackQuestion_safe msg off H0) as Hs. rewrite E in Hs. destruct Hs as [Ho Ht]. split; [|exact Ho].
  split; [|exact Ht]. assert (exists o', UnpackDomainName msg off = Ok (q_Name q, o')) as [o' En].
  { unfold unpackQuestion in E. inv_bind E. destruct a as [name o1]. exists o1. rewrite Ha. do 2 f_equal.
    case_match; [by simplify_eq|]. inv_bind E. destruct a as [ty o2]. case_match; [by simplify_eq|]. inv_bind E. destruct a as [cl o3]. by simplify_eq. }
  apply UnpackDomainName_iff in En as (ls & n & Hn & Hw & _ & ->); [|lia]. exists ls. split_and!; [done| |done].
  by eapply name_at_labels.
Qed.

Lemma unpack_questions_wire {F} n : forall msg off qs qs' o e, 0 <= off <= zlen msg -> Forall wire_question qs ->
  @unpack_questions F n msg off qs = Ok (qs', o, e) -> Forall wire_question qs' /\ (length qs' <= length qs + n)%nat.
Proof.
  induction n as [|n IH]; intros msg off qs qs' o e H0 Hqs E; cbn [unpack_questions] in E.
  - simplify_eq. split; [done|lia].
  - destruct (unpackQuestion msg off) as [[q o1]|[o1 e1]| |] eqn:Eq; cbn [attempt mbind res_bind] in E; try done.
    + apply unpackQuestion_wire in Eq as [Hq Ho]; [|done]. case_match; [simplify_eq; split; [done|lia]|].
      apply IH in E as [H1 H2]; [|lia|by apply Forall_app; split; [|constructor]].
      split; [done|]. rewrite length_app in H2. cbn in H2. lia.
    + simplify_eq. split; [done|lia].
Qed.

Lemma fixed_16_16 a b : fixed (fun msg off => '(msg, off) ← packUint16 a msg off; packUint16 b msg off) (be 2 a ++ be 2 b).
Proof. apply (fixed_seq _ (fun msg off => _)); apply fixed_uint16. Qed.

Lemma everywhere_question q ls : q_Name q = show_name ls -> Forall (fun l => 1 <= zlen l < 64) ls ->
  everywhere (Question_pack q false) (wire_name ls ++ be 2 (Qtype q) ++ be 2 (Qclass q)).
Proof.
  intros Hn Hls. eapply everywhere_ext; [|exact (everywhere_seq _ _ _ _ (everywhere_name ls Hls) (everywhere_fixed _ _ (fixed_16_16 (Qtype q) (Qclass q))))].
  intros msg off. unfold Question_pack, plain. rewrite Hn.
  destruct (packDomainName (show_name ls) msg off nil_map false) as [[[m1 o1] c1]|?| |]; [|done..]. gosimp.
  destruct (packUint16 (Qtype q) m1 o1) as [[m2 o2]|?| |]; [|done..]. gosimp. by destruct (packUint16 (Qclass q) m2 o2) as [[m3 o3]|?| |].
Qed.

Lemma read_wire_name ls pre suf : Forall (fun l => 1 <= zlen l < 64) ls -> wire_len ls < 255 ->
  UnpackDomainName (pre ++ wire_name ls ++ suf) (zlen pre) = Ok (show_name ls, zlen (pre ++ wire_name ls)).
Proof.
  intros Hls Hw. apply UnpackDomainName_iff; [apply zlen_nonneg|]. exists ls, 0. split_and!; [|done|done|done].
  rewrite zlen_app, zlen_wire_name, Z.add_assoc, app_assoc. apply name_at_mono. by apply name_at_wire_name.
Qed.

Lemma unpackQuestion_read q ls pre suf : q_Name q = show_name ls -> Forall (fun l => 1 <= zlen l < 64) ls -> wire_len ls < 255 ->
  typed_question q -> let w := wire_name ls ++ be 2 (Qtype q) ++ be 2 (Qclass q) in
  unpackQuestion (pre ++ w ++ suf) (zlen pre) = Ok (q, zlen (pre ++ w)).
Proof.
  intros Hn Hls Hw [Ht Hc] w. unfold unpackQuestion, w. rewrite <- !app_assoc, read_wire_name by done. cbn [on_err]. gosimp.
  rewrite (app_assoc pre). pose proof (zlen_nonneg suf). pose proof (zlen_nonneg (pre ++ wire_name ls)).
  rewrite (proj2 (Z.eqb_neq _ _)) by (rewrite !(zlen_app (pre ++ wire_name ls)), !zlen_app, !be_length; lia).
  rewrite next16 by done. cbn [on_err]. gosimp. rewrite (app_assoc (pre ++ wire_name ls)).
  rewrite (proj2 (Z.eqb_neq _ _)) by (rewrite !(zlen_app (_ ++ be 2 (Qtype q))), !zlen_app, !be_length; lia).
  rewrite next16 by done. cbn [on_err]. gosimp. rewrite <- Hn, <- !app_assoc. by destruct q.
Qed.

Lemma wire_question_len q off ls : q_Name q = show_name ls -> Forall (fun l => 1 <= zlen l < 64) ls ->
  Question_len q off None = Ok (wire_len ls + 5, None).
Proof.
  intros Hn Hls. unfold Question_len. rewrite Hn, (domainNameLen_parse _ ls), zlen_wire_name.
  - gosimp. do 2 f_equal. lia.
  - apply parse_show_name. eapply Forall_impl; [exact Hls|]. intros [|]; [zlia|done].
Qed.

Lemma everywhere_questions {F} l : Forall wire_question l ->
  exists w, everywhere (pack_each (fun q => Question_pack q false) l) w /\ zlen w = sum_with question_size l /\
    (l <> [] -> 0 < zlen w) /\
    forall pre suf dst, @unpack_questions F (length l) (pre ++ w ++ suf) (zlen pre) dst = Ok (dst ++ l, zlen (pre ++ w), None).
Proof.
  induction 1 as [|q l Hq Hl (w & Hw & Hlen & _ & Hr)].
  { exists []. split; [apply everywhere_nil|]. split; [done|]. split; [done|]. intros pre suf dst. cbn [unpack_questions length].
    by rewrite !app_nil_r. }
  destruct Hq as ((ls & Hn & Hls & Hwl) & Ht). set (w1 := wire_name ls ++ be 2 (Qtype q) ++ be 2 (Qclass q)).
  assert (zlen w1 = wire_len ls + 5) as H1 by (unfold w1; rewrite !zlen_app, !be_length, zlen_wire_name; lia).
  pose proof (wire_len_nonneg ls). pose proof (zlen_nonneg w). exists (w1 ++ w). split; [|split; [|split]].
  - eapply everywhere_ext; [|exact (everywhere_seq _ _ _ _ (everywhere_question q ls Hn Hls) Hw)]. intros msg off.
    unfold pack_each. cbn [foldM]. by destruct (Question_pack q false msg off nil_map) as [[[? ?] ?]|?| |].
  - cbn [sum_with]. assert (question_size q = wire_len ls + 5) as -> by (unfold question_size; by rewrite (wire_question_len q 0 ls)).
    by rewrite zlen_app, H1, Hlen.
  - intros _. rewrite zlen_app. lia.
  - intros pre suf dst. cbn [length unpack_questions]. rewrite <- (app_assoc w1).
    pose proof (unpackQuestion_read q ls pre (w ++ suf) Hn Hls Hwl Ht) as E. fold w1 in E. rewrite E. cbn [attempt]. gosimp.
    rewrite (proj2 (Z.eqb_neq _ _)) by (rewrite zlen_app; lia). rewrite (app_assoc pre), Hr.
    by rewrite <- !app_assoc.
Qed.

(** A message of questions only packs, and reads back as it is. *)
Lemma reply_packs {F} h qs : u16 (Id h) -> 0 <= Opcode h < 16 -> 0 <= Rcode h < 16 -> Forall wire_question qs -> zlen qs < 65536 ->
  let m := MkMsg h false qs [] [] [] in
  exists b, Pack m = (m, Ok b) /\ zlen b = 12 + sum_with question_size qs /\ @Unpack F zero_msg b = Ok (m, None).
Proof.
  intros Hid Hop Hrc Hqs Hlt m. destruct (@everywhere_questions F qs Hqs) as (w & Hw & Hlen & Hpos & Hr).
  pose proof (zlen_nonneg qs). pose proof (zlen_nonneg w).
  destruct (setHdr_bits (wire_header m) h) as [Hbits Hset]; [done..|].
  assert (header_u16 (wire_header m)) as Hu.
  { unfold header_u16, wire_header. cbn [dh_Id Bits Qdcount Ancount Nscount Arcount m hdr Question_ Answer Ns Extra].
    unfold u16 in *. split_and!; try done; try (apply Z.mod_pos_bound; lia); lia. }
  assert (everywhere (pack_pieces m false) (header_wire (wire_header m) ++ w)) as Hp.
  { eapply everywhere_ext; [|exact (everywhere_seq _ _ _ _ (everywhere_fixed _ _ (fixed_header (wire_header m))) Hw)]. intros msg off.
    unfold pack_pieces, plain, pack_each. cbn [m Question_ Answer Ns Extra foldM].
    destruct (Header_pack (wire_header m) msg off) as [[m1 o1]|?| |]; gosimp; [|done..].
    by destruct (foldM _ _ qs) as [[[? ?] ?]|?| |]. }
  exists (header_wire (wire_header m) ++ w). split; [|split; [by rewrite zlen_app, header_wire_length, Hlen|]].
  - unfold Pack, PackBuffer. cbn [m Compress andb]. unfold packBufferWithCompressionMap, IsEdns0. cbn [m hdr Extra last_of_type].
    rewrite (proj2 (Z.ltb_ge (Rcode h) 0)), (proj2 (Z.ltb_ge 0xFFF _)), (proj2 (Z.ltb_ge 0xF _)) by lia. cbn [orb].
    do 2 f_equal. unfold pack_body, msgLenWithCompressionMap. cbn [Question_ Answer Ns Extra m foldM].
    rewrite (foldM_len Question_len question_size).
    2: { eapply Forall_impl; [exact Hqs|]. intros q ((ls & Hn & Hls & _) & _) off. unfold question_size. by rewrite !(wire_question_len q _ ls). }
    gosimp. rewrite <- Hlen. unfold headerSize. set (buf := if _ : bool then _ else _).
    assert (zlen (header_wire (wire_header m) ++ w) <= zlen buf) as Hroom.
    { unfold buf. change (zlen (@nil byte)) with 0. rewrite (proj2 (Z.ltb_lt _ _)) by lia.
      rewrite zlen_app, header_wire_length. unfold zlen at 2. rewrite length_replicate. lia. }
    destruct (everywhere_run _ _ buf Hp Hroom) as (msg & E & Hs). rewrite E. cbn [on_err]. gosimp. by rewrite Hs.
  - unfold Unpack. rewrite (unpackMsgHdr_ok (wire_header m) w Hu). cbn [attempt]. gosimp. unfold unpack.
    rewrite Hset. cbn [set_hdr hdr Compress zero_msg m]. rewrite zlen_app, header_wire_length.
    assert (set_Rcode (Z.land (Rcode h) 15) h = h) as ->.
    { assert (Z.land (Rcode h) 15 = Rcode h) as ->; [|by destruct h]. change 15 with (Z.ones 4). rewrite Z.land_ones, Z.mod_small by lia. done. }
    destruct (Z.eqb_spec 12 (12 + zlen w)) as [E|_].
    + assert (qs = []) as -> by (destruct qs; [done|]; specialize (Hpos ltac:(done)); lia). done.
    + assert (Z.to_nat (Qdcount (wire_header m)) = length qs) as ->.
      { unfold wire_header. cbn [Qdcount m Question_]. rewrite Z.mod_small by lia. unfold zlen. lia. }
      pose proof (Hr (header_wire (wire_header m)) [] []) as E. rewrite app_nil_r, header_wire_length in E. rewrite E. gosimp.
      cbn [Ancount Nscount Arcount wire_header m Answer Ns Extra]. cbn [unpackRRslice next_section Z.to_nat]. gosimp. cbn. done.
Qed.

Lemma wire_question_size q : wire_question q -> 5 <= question_size q <= 259.
Proof.
  intros ((ls & Hn & Hls & Hw) & _). unfold question_size. rewrite (wire_question_len q 0 ls) by done.
  pose proof (wire_len_nonneg ls). lia.
Qed.

(** ** One request *)

(** One more write, of these octets. *)
Definition writes_one (b : bytes) (w : response) : response :=
  set_sent (sent w ++ [match net w with UDP => b | TCP => frame b end]) w.

Lemma response_Write_ok b w : closed w = false -> zlen b <= MaxMsgSize -> response_Write b w = (writes_one b w, None).
Proof.
  intros Hc Hb. unfold response_Write, writes_one. rewrite Hc. destruct (net w); [done|].
  by rewrite (proj2 (Z.ltb_ge _ _)) by done.
Qed.

(** The request was answered by one message, the rejection of [req]. *)
Definition rejected (notImplemented : bool) (req : Msg) (w w' : response) : Prop :=
  exists b, w' = writes_one b w /\ zlen b <= MinMsgSize_ /\ @Unpack error zero_msg b = Ok (reject_msg notImplemented req, None).

Section Serve.
Context (tp : option TsigProvider) (clock : Z).

Lemma reject_ok notImplemented req w : closed w = false -> u16 (Id (hdr req)) -> 0 <= Opcode (hdr req) < 16 -> Compress req = false ->
  Forall wire_question (Question_ req) -> (length (Question_ req) <= 1)%nat ->
  exists w', reject tp clock notImplemented req w = Ok w' /\ rejected notImplemented req w w'.
Proof.
  intros Hc Hid Hop Hcomp Hq Hlen. set (m := reject_msg notImplemented req).
  destruct (@reply_packs error (hdr m) (Question_ req)) as (b & Ep & Hb & Eu); [done|by destruct notImplemented|by destruct notImplemented|done|unfold zlen; lia|].
  assert (MkMsg (hdr m) false (Question_ req) [] [] [] = m) as Em by (unfold m, reject_msg; by rewrite Hcomp).
  rewrite Em in Ep, Eu. assert (zlen b <= 271) as Hb2.
  { rewrite Hb. destruct (Question_ req) as [|q [|]]; cbn [sum_with length] in *; [lia| |lia].
    apply Forall_cons in Hq as [Hq%wire_question_size _]. lia. }
  exists (writes_one b w). split; [|exists b; split_and!; [done|unfold MinMsgSize_; lia|done]].
  unfold reject, response_WriteMsg. rewrite Hc. fold m. rewrite Ep, response_Write_ok by (done || unfold MaxMsgSize; lia).
  assert (@Msg_IsTsig error m = Ok None) as -> by done. by destruct tp.
Qed.

Lemma set_extended_rcode_keeps {F} m m' : @set_extended_rcode F m = Ok m' ->
  Id (hdr m') = Id (hdr m) /\ Opcode (hdr m') = Opcode (hdr m) /\ Compress m' = Compress m /\ Question_ m' = Question_ m.
Proof. unfold set_extended_rcode. intros E. inv_bind E. destruct a as [o|]; apply Ok_inj in E as <-; done. Qed.

(** What the rejection uses of the request, also when it is malformed. *)
Lemma unpack_keeps m dh msg req err : 0 <= Qdcount dh <= 1 -> 12 <= zlen msg ->
  @unpack error m dh msg 12 = Ok (req, err) ->
  Id (hdr req) = Id (hdr m) /\ Opcode (hdr req) = Opcode (hdr m) /\ Compress req = Compress m /\
  Forall wire_question (Question_ req) /\ (length (Question_ req) <= 1)%nat.
Proof.
  intros Hqd Hlen E. unfold unpack in E. case_match; [apply Ok_inj in E; simplify_eq; cbn; split_and!; try done; lia|].
  inv_bind E. destruct a as [[qs o] e]. apply unpack_questions_wire in Ha as [Hq Hl]; [|lia|constructor]. cbn [length] in Hl.
  assert (length qs <= 1)%nat by lia.
  destruct e; [apply Ok_inj in E; simplify_eq; by split_and!|]. do 3 inv_bind E. inv_bind E. apply Ok_inj in E. simplify_eq.
  apply set_extended_rcode_keeps in Ha2 as (-> & -> & -> & ->). by split_and!.
Qed.

(** The default accept function. *)
Lemma accepted_counts dh : defaultMsgAcceptFunc dh = MsgAccept -> Qdcount dh = 1 /\ Ancount dh <= 1 /\ Nscount dh <= 1 /\ Arcount dh <= 2.
Proof.
  unfold defaultMsgAcceptFunc. case_match; [done|]. case_match; [done|].
  destruct (Z.eqb_spec (Qdcount dh) 1); [|done]. destruct (Z.ltb_spec 1 (Ancount dh)); [done|].
  destruct (Z.ltb_spec 1 (Nscount dh)); [done|]. destruct (Z.ltb_spec 2 (Arcount dh)); [done|]. done.
Qed.

Context (ServeDNS : response -> Msg -> res error response).
Context (handler_returns : forall w r, typed_msg r -> exists w', ServeDNS w r = Ok w').
Context (provider_returns : forall p, tp = Some p -> forall b t, returns (Verify p b t)).

Lemma zero_msg_typed h : typed_msg (set_hdr h zero_msg).
Proof. split_and!; constructor. Qed.

Lemma Msg_IsTsig_typed {E} m : typed_msg m -> exists t, @Msg_IsTsig E m = Ok t.
Proof.
  intros (_ & _ & _ & He). unfold Msg_IsTsig. destruct (last (Extra m)) as [r|] eqn:El; [|by eexists].
  destruct (Z.eqb_spec (Rrtype (Hdr r)) TypeTSIG) as [Hty|_]; [|by eexists].
  apply last_Some in El as [l El]. rewrite El in He. apply Forall_app in He as [_ He]. apply Forall_cons in He as [Hr _].
  destruct (@typed_as_TSIG E r Hr Hty) as [t ->]. gosimp. by eexists.
Qed.

(** What happens to a request of at least twelve octets. *)
Definition served (m : bytes) (dh : Header) (w w' : response) (invalid : option error) : Prop :=
  let req := set_hdr (setHdr dh) zero_msg in
  match defaultMsgAcceptFunc dh with
  | MsgIgnore => w' = w /\ invalid = None
  | MsgReject => rejected false req w w' /\ invalid = None
  | MsgRejectNotImplemented => rejected true req w w' /\ invalid = None
  | MsgAccept => exists req err, @Unpack error zero_msg m = Ok (req, err) /\ invalid = err /\
      match err with
      | Some _ => rejected false req w w'
      | None => exists w1, sent w1 = sent w /\ closed w1 = closed w /\ (tp = None -> w1 = set_tsigStatus None w) /\ ServeDNS w1 req = Ok w'
      end
  end.

Lemma serveDNS_ok m now w : closed w = false ->
  exists w' invalid, serveDNS tp clock defaultMsgAcceptFunc ServeDNS m now w = Ok (w', invalid) /\
    if zlen m <? 12 then w' = w /\ invalid <> None
    else exists dh, unpackMsgHdr m 0 = Ok (dh, 12) /\ served m dh w w' invalid.
Proof.
  intros Hc. pose proof (unpackMsgHdr_safe m) as Hh. unfold serveDNS, served, Unpack.
  destruct (unpackMsgHdr m 0) as [[dh o]|[o e]| |] eqn:Eh; cbn in Hh; try done; cbn [attempt]; gosimp.
  2: { exists w, (Some e). split; [done|]. by rewrite (proj2 (Z.ltb_lt _ _) Hh). }
  destruct Hh as (-> & Hlen & Hu). rewrite (proj2 (Z.ltb_ge _ _) Hlen).
  assert (u16 (Id (setHdr dh))) as Hid by apply Hu.
  assert (0 <= Opcode (setHdr dh) < 16) as Hop by apply land_15.
  assert (forall b, exists w', reject tp clock b (set_hdr (setHdr dh) zero_msg) w = Ok w' /\ rejected b (set_hdr (setHdr dh) zero_msg) w w') as Hrej.
  { intros b. apply reject_ok; try done. cbn. lia. }
  destruct (defaultMsgAcceptFunc dh) eqn:Ea.
  - destruct (accepted_counts dh Ea) as (Hqd & _).
    destruct (@unpack_ok error (set_hdr (setHdr dh) zero_msg) dh m 12 (zero_msg_typed _) ltac:(lia)) as (req & err & E & Hty).
    rewrite E. gosimp. apply unpack_keeps in E as (K1 & K2 & K3 & K4 & K5); [|lia|done].
    destruct err as [e|].
    + destruct (reject_ok false req w Hc) as (w' & Er & Hr); [by rewrite K1|by rewrite K2|by rewrite K3|done|done|].
      rewrite Er. gosimp. exists w', (Some e). split; [done|]. exists dh. split; [done|]. rewrite Ea. by exists req, (Some e).
    + set (w0 := set_tsigStatus None w).
      assert (exists w1, (match tp with
        | None => Ok w0
        | Some p => t ← Msg_IsTsig req;
            match t with
            | None => Ok w0
            | Some t => st ← attempt (tsigVerify m p [] false now clock);
                Ok (set_RequestMAC (ts_MAC t) (set_TsigTimersOnly false (set_tsigStatus (match st with inl _ => None | inr e => Some e end) w0)))
            end
        end) = @Ok error _ w1 /\ sent w1 = sent w /\ closed w1 = closed w /\ (tp = None -> w1 = w0)) as (w1 & E1 & S1 & S2 & S3).
      { destruct tp as [p|] eqn:Etp; [|by exists w0]. destruct (@Msg_IsTsig_typed error req Hty) as [[t|] ->]; gosimp; [|by exists w0].
        pose proof (tsigVerify_safe m p [] false now clock (provider_returns p eq_refl)) as Hv.
        destruct (tsigVerify m p [] false now clock) as [?|?| |]; cbn in Hv; try done; cbn [attempt]; gosimp; by eexists. }
      rewrite E1. gosimp. destruct (handler_returns w1 req Hty) as [w' Ew]. rewrite Ew. gosimp. exists w', None. split; [done|].
      exists dh. split; [done|]. rewrite Ea. exists req, None. split; [done|]. split; [done|]. by exists w1.
  - destruct (Hrej false) as (w' & -> & Hr). gosimp. exists w', None. split; [done|]. exists dh. split; [done|]. by rewrite Ea.
  - exists w, None. split; [done|]. exists dh. split; [done|]. by rewrite Ea.
  - destruct (Hrej true) as (w' & -> & Hr). gosimp. exists w', None. split; [done|]. exists dh. split; [done|]. by rewrite Ea.
Qed.
End Serve.

(** ** Frames *)

Lemma readTCP_frame m rest : zlen m <= MaxMsgSize -> readTCP (frame m ++ rest) = Ok (m, rest).
Proof.
  unfold MaxMsgSize. intros Hm. pose proof (zlen_nonneg m). unfold readTCP, frame. rewrite <- app_assoc.
  assert (u16 (zlen m)) as Hu by (unfold u16; lia).
  pose proof (slice_mid [] (be 2 (zlen m)) (m ++ rest) 0 2) as Hs. cbn [app] in Hs. rewrite Hs by (rewrite ?be_length; done). rewrite (unbe_be 2) by exact Hu.
  rewrite (slice_mid (be 2 (zlen m)) m) by (rewrite ?be_length; lia).
  do 2 f_equal. rewrite app_assoc. unfold zdrop. rewrite <- (drop_app_length (be 2 (zlen m) ++ m) rest) at 2. f_equal.
  rewrite length_app. pose proof (be_length 2 (zlen m)) as Hb. unfold zlen in *. lia.
Qed.

Fixpoint read_frames (n : nat) (stream : bytes) : res error (list bytes * bytes) :=
  match n with
  | O => Ok ([], stream)
  | S n => '(m, stream) ← readTCP stream; '(ms, stream) ← read_frames n stream; Ok (m :: ms, stream)
  end.

Lemma read_frames_ok ms rest : Forall (fun m => zlen m <= MaxMsgSize) ms ->
  read_frames (length ms) (concat (map frame ms) ++ rest) = Ok (ms, rest).
Proof.
  induction 1 as [|m ms Hm _ IH]; [done|]. cbn [length read_frames map concat]. rewrite <- app_assoc, readTCP_frame by done.
  gosimp. rewrite IH. by gosimp.
Qed.

Lemma sent_frames ms : Forall (fun m => zlen m <= MaxMsgSize) ms -> forall w, net w = TCP -> closed w = false ->
  sent (fold_left (fun w m => (response_Write m w).1) ms w) = sent w ++ map frame ms.
Proof.
  induction 1 as [|m ms Hm _ IH]; intros w Hn Hc; cbn [fold_left map]; [by rewrite app_nil_r|].
  rewrite response_Write_ok by done. cbn [fst]. rewrite IH by done. unfold writes_one. rewrite Hn. cbn [sent set_sent].
  by rewrite <- app_assoc.
Qed.

(** ** Theorems *)

(** C14: with the default accept function, a provider and a handler that return,
    [serveDNS] returns for every octet string, and: fewer than twelve octets are
    reported invalid and not answered; a response is ignored; a request that
    the accept function rejects, or whose sections do not unpack, is answered by
    exactly one message of at most 512 octets, which unpacks to the rejection
    of this request (its id, QR, FORMERR or NOTIMP, its questions, no records),
    and in the second case also reported invalid; every other request goes to
    the handler as [Unpack] reads it, with nothing written before.  Among these is
    a request with one record in the authority section: [defaultMsgAcceptFunc]
    rejects two or more, where its comment in acceptfunc.go says more than none. *)
Theorem serveDNS_spec tp clock ServeDNS m now w :
  (forall w r, typed_msg r -> exists w', ServeDNS w r = Ok w') ->
  (forall p, tp = Some p -> forall b t, returns (Verify p b t)) -> closed w = false ->
  exists w' invalid, serveDNS tp clock defaultMsgAcceptFunc ServeDNS m now w = Ok (w', invalid) /\
    if zlen m <? 12 then w' = w /\ invalid <> None
    else exists dh, unpackMsgHdr m 0 = Ok (dh, 12) /\ served tp ServeDNS m dh w w' invalid.
Proof. intros Hh Hp Hc. by apply serveDNS_ok. Qed.

(** A query whose question is cut off. *)
Definition broken_query : bytes := map byte_of [18; 52; 1; 0; 0; 1; 0; 0; 0; 0; 0; 0; 3; 119].

Lemma serveDNS_spec_witness : exists w' invalid,
  serveDNS None 0 defaultMsgAcceptFunc (fun w _ => Ok w) broken_query 0 (new_response UDP) = Ok (w', invalid) /\
  invalid <> None /\ sent w' = [map byte_of [18; 52; 129; 1; 0; 0; 0; 0; 0; 0; 0; 0]].
Proof.
  destruct (serveDNS_spec None 0 (fun w _ => Ok w) broken_query 0 (new_response UDP)) as (w' & invalid & E & _);
    [intros w r _; by exists w|done|done|].
  exists w', invalid. split; [exact E|].
  match type of E with ?l = _ => let v := eval vm_compute in l in assert (l = v) as E' by (vm_compute; reflexivity) end.
  rewrite E' in E. apply Ok_inj in E. simplify_eq. split; [discriminate|reflexivity].
Defined.

(** C39: messages of at most 65535 octets written to a TCP connection one after
    the other are read back one by one from the stream, with nothing left. *)
Theorem tcp_framing ms w : Forall (fun m => zlen m <= MaxMsgSize) ms -> net w = TCP -> closed w = false -> sent w = [] ->
  read_frames (length ms) (concat (sent (fold_left (fun w m => (response_Write m w).1) ms w))) = Ok (ms, []).
Proof.
  intros Hms Hn Hc Hs. rewrite sent_frames, Hs by done. cbn [app]. rewrite <- (app_nil_r (concat _)). by apply read_frames_ok.
Qed.

Lemma tcp_framing_witness :
  read_frames 3 (concat (sent (fold_left (fun w m => (response_Write m w).1) [broken_query; []; bs "x"] (new_response TCP))))
    = Ok ([broken_query; []; bs "x"], []).
Proof. apply (tcp_framing [broken_query; []; bs "x"]); [|done..]. repeat apply Forall_cons_2; try constructor; vm_compute; discriminate. Defined.
