(* ===== verification/Shutdown.v ===== *)
(** * server.go: the life of a server

    The goroutines of one [Server] as a transition system: the accept loop
    ([serveTCP], [serveUDP]), a goroutine per connection ([serveTCPConn]) or
    packet ([serveUDPPacket]), and [ShutdownContext].  [serveUDP] first tests
    that it can read from its connection and gives up when it cannot.  One step is what a
    goroutine does between two points where others can interfere: a critical
    section of [srv.lock], a channel or WaitGroup operation, a blocking call.
    Peers, timers and handlers choose freely: a read may succeed while its
    deadline is not in the past, and may fail at any time; a handler may close
    or hijack its connection. *)

From S2P Require Import Prelude Go.

Definition maxTCPQueries : Z := 128.

(** ** State *)

Abbreviation conn := positive.

Inductive proto := TCP_ | UDP_.

(** Where the goroutine of [serveTCP] or [serveUDP] is. *)
Inductive serve_pc :=
| S_idle                    (* not started *)
| S_begin                   (* entered, before [!isUDP && !canPacketConn] *)
| S_failed                  (* [serveUDP] returned the error of that test *)
| S_check                   (* [for srv.isStarted()] *)
| S_accept                  (* in [l.Accept()] *)
| S_read_udp                (* before the critical section of [readUDP] *)
| S_reading_udp             (* in [ReadFromSessionUDP] *)
| S_err (temporary : bool)  (* after the error, before [!srv.isStarted()] *)
| S_accepted (c : conn)     (* before [srv.conns[rw] = struct{}{}] *)
| S_spawn (c : conn)        (* before [wg.Add(1)] and [go] *)
| S_wait                    (* returning: in [wg.Wait()] *)
| S_returned.               (* [close(srv.shutdown)] was called *)

(** Where the goroutine of a connection or packet is; [q] counts queries. *)
Inductive conn_pc :=
| C_check (q : Z)           (* the condition of the [for] loop *)
| C_ready (q : Z)           (* before the critical section of [readTCP] *)
| C_reading (q : Z)         (* in [binary.Read] or [io.ReadFull] *)
| C_serving (q : Z)         (* in [serveDNS] *)
| C_exit                    (* after the loop: [w.Close()], then [delete(srv.conns, w.tcp)] *)
| C_done.                   (* before [wg.Done()] *)

Inductive stop_pc := Stop_none | Stop_waiting | Stop_returned | Stop_cancelled.

Record server := MkServer {
  started : bool;
  listening : bool;         (* the listener is open *)
  packet_past : bool;       (* the read deadline of the PacketConn is in the past *)
  conns : gset conn;
  past : gset conn;         (* the connections whose read deadline is in the past *)
  wg : Z;
  routines : gmap conn conn_pc;
  shutdown_closed : bool;   (* [srv.shutdown] is closed *)
  serve : serve_pc;
  stop : stop_pc
}.

Definition new_server : server := MkServer false false false ∅ ∅ 0 ∅ false S_idle Stop_none.

Definition set_serve (pc : serve_pc) (s : server) : server :=
  MkServer (started s) (listening s) (packet_past s) (conns s) (past s) (wg s) (routines s) (shutdown_closed s) pc (stop s).
Definition set_routine (c : conn) (pc : conn_pc) (s : server) : server :=
  MkServer (started s) (listening s) (packet_past s) (conns s) (past s) (wg s) (<[c := pc]> (routines s)) (shutdown_closed s) (serve s) (stop s).
Definition set_past (p : gset conn) (s : server) : server :=
  MkServer (started s) (listening s) (packet_past s) (conns s) p (wg s) (routines s) (shutdown_closed s) (serve s) (stop s).
Definition set_packet_past (b : bool) (s : server) : server :=
  MkServer (started s) (listening s) b (conns s) (past s) (wg s) (routines s) (shutdown_closed s) (serve s) (stop s).
Definition set_conns (p : gset conn) (s : server) : server :=
  MkServer (started s) (listening s) (packet_past s) p (past s) (wg s) (routines s) (shutdown_closed s) (serve s) (stop s).
Definition set_stop (pc : stop_pc) (s : server) : server :=
  MkServer (started s) (listening s) (packet_past s) (conns s) (past s) (wg s) (routines s) (shutdown_closed s) (serve s) pc.

(** [wg.Add(1); go f()] and [wg.Done()] at the end of [f]. *)
Definition spawn (c : conn) (pc : conn_pc) (s : server) : server :=
  MkServer (started s) (listening s) (packet_past s) (conns s) (past s) (wg s + 1) (<[c := pc]> (routines s))
    (shutdown_closed s) S_check (stop s).
Definition wg_done (c : conn) (s : server) : server :=
  MkServer (started s) (listening s) (packet_past s) (conns s) (past s) (wg s - 1) (delete c (routines s))
    (shutdown_closed s) (serve s) (stop s).
(** [serveUDP] returns before [close(srv.shutdown)] is deferred: only [l.Close()] is. *)
Definition fail_serve (s : server) : server :=
  MkServer (started s) false (packet_past s) (conns s) (past s) (wg s) (routines s) (shutdown_closed s) S_failed (stop s).
(** [close(srv.shutdown)]. *)
Definition close_shutdown (s : server) : server :=
  MkServer (started s) (listening s) (packet_past s) (conns s) (past s) (wg s) (routines s) true S_returned (stop s).

Section Server.
Context (net : proto) (limit : Z).
(** [isUDP || canPacketConn] of [serveUDP]. *)
Context (readable : bool).

(** Whether the accept loop is entered: [serveTCP] has no such test. *)
Definition serves : bool := match net with TCP_ => true | UDP_ => readable end.

(** [ListenAndServe] and [ActivateAndServe] up to [unlock()]: [init], the open
    listener, [srv.started = true]. *)
Definition start (s : server) : server :=
  MkServer true true false ∅ (past s) 0 (routines s) false S_begin Stop_none.

(** The critical section of [ShutdownContext]. *)
Definition begin_shutdown (s : server) : server :=
  MkServer false false true (conns s) (past s ∪ conns s) (wg s) (routines s) (shutdown_closed s) (serve s) Stop_waiting.

(** [(q < limit || limit == -1) && srv.isStarted()]. *)
Definition keep_serving (q : Z) (s : server) : bool := ((q <? limit) || (limit =? -1)) && started s.

(** ** Steps *)

(** [serveTCP] and [serveUDP]. *)
Inductive serve_step (s : server) : server -> Prop :=
| serve_begin : serve s = S_begin -> serves = true -> serve_step s (set_serve S_check s)
| serve_unreadable : serve s = S_begin -> serves = false -> serve_step s (fail_serve s)
| serve_loop : serve s = S_check -> started s = true ->
    serve_step s (set_serve (match net with TCP_ => S_accept | UDP_ => S_read_udp end) s)
| serve_stop : serve s = S_check -> started s = false -> serve_step s (set_serve S_wait s)
| serve_accept c : serve s = S_accept -> listening s = true -> c ∉ conns s -> routines s !! c = None -> c ∉ past s ->
    serve_step s (set_serve (S_accepted c) s)
| serve_accept_error t : serve s = S_accept -> serve_step s (set_serve (S_err t) s)
| serve_track c : serve s = S_accepted c -> serve_step s (set_serve (S_spawn c) (set_conns ({[c]} ∪ conns s) s))
| serve_spawn c : serve s = S_spawn c ->
    serve_step s (spawn c (match net with TCP_ => C_check 0 | UDP_ => C_serving 0 end) s)
| serve_deadline : serve s = S_read_udp ->
    serve_step s (set_serve S_reading_udp (if started s then set_packet_past false s else s))
| serve_packet c : serve s = S_reading_udp -> packet_past s = false -> routines s !! c = None ->
    serve_step s (set_serve (S_spawn c) s)
| serve_short_packet : serve s = S_reading_udp -> packet_past s = false -> serve_step s (set_serve S_check s)
| serve_read_error t : serve s = S_reading_udp -> serve_step s (set_serve (S_err t) s)
| serve_error t : serve s = S_err t ->
    serve_step s (set_serve (if negb (started s) then S_wait else if t then S_check else S_wait) s)
| serve_drained : serve s = S_wait -> wg s = 0 -> serve_step s (close_shutdown s).

(** [serveTCPConn] and [serveUDPPacket]. *)
Inductive conn_step (s : server) : server -> Prop :=
| conn_check c q : routines s !! c = Some (C_check q) ->
    conn_step s (set_routine c (if keep_serving q s then C_ready q else C_exit) s)
| conn_deadline c q : routines s !! c = Some (C_ready q) ->
    conn_step s (set_routine c (C_reading q) (if started s then set_past (past s ∖ {[c]}) s else s))
| conn_read c q : routines s !! c = Some (C_reading q) -> c ∉ past s -> conn_step s (set_routine c (C_serving q) s)
| conn_read_error c q : routines s !! c = Some (C_reading q) -> conn_step s (set_routine c C_exit s)
| conn_served c q (over : bool) : routines s !! c = Some (C_serving q) ->
    conn_step s (set_routine c (match net with TCP_ => if over then C_exit else C_check (q + 1) | UDP_ => C_done end) s)
| conn_untrack c : routines s !! c = Some C_exit -> conn_step s (set_routine c C_done (set_conns (conns s ∖ {[c]}) s))
| conn_done c : routines s !! c = Some C_done -> conn_step s (wg_done c s).

(** [ShutdownContext]: a second caller gets an error and changes nothing. *)
Inductive stop_step (s : server) : server -> Prop :=
| stop_begin : started s = true -> stop_step s (begin_shutdown s)
| stop_return : stop s = Stop_waiting -> shutdown_closed s = true -> stop_step s (set_stop Stop_returned s)
| stop_cancel : stop s = Stop_waiting -> stop_step s (set_stop Stop_cancelled s).

Inductive step (s s' : server) : Prop :=
| step_start : serve s = S_idle -> s' = start s -> step s s'
| step_serve : serve_step s s' -> step s s'
| step_conn : conn_step s s' -> step s s'
| step_stop : stop_step s s' -> step s s'.

Definition reachable : server -> Prop := rtc step new_server.

(** ** The invariant *)

Record inv (s : server) : Prop := {
  i_wg : wg s = Z.of_nat (size (routines s));
  i_idle : serve s = S_idle -> routines s = ∅ /\ conns s = ∅ /\ started s = false /\ stop s = Stop_none;
  (* every live TCP goroutine's connection is tracked, and only those are *)
  i_tracked : net = TCP_ -> forall c pc, routines s !! c = Some pc -> pc <> C_done -> c ∈ conns s;
  i_conns : forall c, c ∈ conns s -> (exists pc, routines s !! c = Some pc /\ pc <> C_done) \/ serve s = S_spawn c;
  i_no_conns : net = UDP_ -> conns s = ∅;
  i_packets : net = UDP_ -> forall c pc, routines s !! c = Some pc -> (exists q, pc = C_serving q) \/ pc = C_done;
  i_spawn : net = TCP_ -> forall c, serve s = S_spawn c -> c ∈ conns s;
  i_fresh : forall c, serve s = S_accepted c \/ serve s = S_spawn c -> routines s !! c = None;
  (* after shutdown has begun no read waits for its deadline *)
  i_past : started s = false -> forall c q, routines s !! c = Some (C_ready q) \/ routines s !! c = Some (C_reading q) -> c ∈ past s;
  i_listening : started s = false -> listening s = false;
  i_packet : started s = false -> serve s = S_read_udp \/ serve s = S_reading_udp -> packet_past s = true;
  i_proto : match serve s with S_accept | S_accepted _ => net = TCP_ | S_read_udp | S_reading_udp => net = UDP_ | _ => True end;
  i_returned : serve s = S_returned <-> shutdown_closed s = true;
  i_drained : serve s = S_returned -> routines s = ∅;
  i_stop : started s = false -> serve s <> S_idle -> stop s <> Stop_none;
  i_stopped : stop s <> Stop_none -> started s = false;
  i_stop_returned : stop s = Stop_returned -> shutdown_closed s = true;
  (* a server that cannot read comes no further than the test *)
  i_unreadable : serves = false -> serve s = S_idle \/ serve s = S_begin \/ serve s = S_failed;
  i_failed : serve s = S_failed -> serves = false
}.

Lemma inv_new : inv new_server.
Proof. constructor; cbn; try done; try set_solver. Qed.

Ltac state := cbn [started listening packet_past conns past wg routines shutdown_closed serve stop
  set_serve set_routine set_past set_packet_past set_conns set_stop spawn wg_done fail_serve close_shutdown start begin_shutdown] in *.

Lemma inv_start s : serve s = S_idle -> inv s -> inv (start s).
Proof.
  intros Hi []. destruct (i_idle0 Hi) as (Hr & Hc & Hs & Ht). constructor; state; rewrite ?Hr; try done; try set_solver.
Qed.

Lemma inv_stop_step s s' : stop_step s s' -> inv s -> inv s'.
Proof.
  intros Hst []. destruct Hst as [Hs|Hs Hc|Hs]; constructor; state; try done; try (by intuition congruence).
  intros _ c q Hr. destruct net eqn:En.
  - apply elem_of_union. right. destruct Hr as [Hr|Hr]; by eapply i_tracked0.
  - destruct Hr as [Hr|Hr]; destruct (i_packets0 eq_refl _ _ Hr) as [[? ?]|?]; done.
Qed.

(** Moving the accept loop alone. *)
Lemma inv_set_serve s pc : inv s -> serves = true ->
  (serve s <> S_idle /\ serve s <> S_returned /\ forall c, serve s <> S_spawn c) ->
  pc <> S_idle -> pc <> S_returned -> pc <> S_failed ->
  (forall c, pc = S_spawn c -> (net = TCP_ -> c ∈ conns s) /\ routines s !! c = None) ->
  (forall c, pc = S_accepted c -> routines s !! c = None) ->
  (started s = false -> pc = S_read_udp \/ pc = S_reading_udp -> packet_past s = true) ->
  match pc with S_accept | S_accepted _ => net = TCP_ | S_read_udp | S_reading_udp => net = UDP_ | _ => True end ->
  inv (set_serve pc s).
Proof.
  intros [] Hv (N1 & N2 & N3) P1 P2 P3 Hsp Hac Hpk Hpr. constructor; state; try done; try congruence.
  - intros c Hc. destruct (i_conns0 c Hc) as [?|E]; [by left|by destruct (N3 c)].
  - intros Ht c E. by apply Hsp.
  - intros c [E|E]; [by apply Hac|by apply Hsp].
  - split; [done|]. intros Hc. by apply i_returned0 in Hc.
  - intros Hs _. by apply i_stop0.
Qed.

(** Changing the tracked connections, the deadline of the packet connection. *)
Lemma inv_set_packet_past s b : inv s -> (started s = false -> b = true) -> inv (set_packet_past b s).
Proof. intros [] Hb. constructor; state; try done. intros Hs _. by apply Hb. Qed.

Lemma loop_serves s pc : inv s -> serve s = pc -> pc <> S_idle -> pc <> S_begin -> pc <> S_failed -> serves = true.
Proof. intros [] H. destruct serves; [done|]. by destruct (i_unreadable0 eq_refl) as [?|[?|?]]; congruence. Qed.

Ltac fields := constructor; state; try done; try (by intuition congruence).
Ltac move_serve H := apply inv_set_serve; [assumption|first [assumption | by eapply loop_serves; [eassumption|exact H|..]]|split_and!; [rewrite H; done..|intros; rewrite H; done]|idtac..];
  repeat match goal with b : bool |- _ => lazymatch b with readable => fail | _ => destruct b end end; intros; try (by destruct net); try (by destruct (started _));
  repeat match goal with E : _ \/ _ |- _ => destruct E end; try congruence; simplify_eq; auto; try (split; congruence).

Lemma inv_fail s : inv s -> serve s = S_begin -> serves = false -> inv (fail_serve s).
Proof.
  intros [] H Hv. fields. intros c Hc. destruct (i_conns0 c Hc) as [?|E]; [by left|congruence].
Qed.

(** [srv.conns[rw] = struct{}{}]. *)
Lemma inv_track s c : inv s -> serve s = S_accepted c -> inv (set_serve (S_spawn c) (set_conns ({[c]} ∪ conns s) s)).
Proof.
  intros [] H. rewrite H in i_proto0. fields.
  - intros Ht c0 pc Hr Hd. apply elem_of_union. right. by eapply i_tracked0.
  - intros c0 [->%elem_of_singleton|Hc]%elem_of_union; [by right|]. destruct (i_conns0 c0 Hc) as [?|?]; [by left|congruence].
  - intros _ c0 [= <-]. set_solver.
  - intros c0 [?|[= <-]]; [done|]. apply i_fresh0. by left.
Qed.

(** [wg.Add(1)] and [go]. *)
Lemma inv_spawn s c : inv s -> serve s = S_spawn c -> inv (spawn c (match net with TCP_ => C_check 0 | UDP_ => C_serving 0 end) s).
Proof.
  intros [] H. assert (routines s !! c = None) as Hn by (apply i_fresh0; by right). fields.
  - rewrite map_size_insert_None by done. lia.
  - intros Ht c0 pc. destruct (decide (c0 = c)) as [->|Hne]; [intros _ _; by apply i_spawn0|].
    rewrite lookup_insert_ne by done. by apply i_tracked0.
  - intros c0 Hc0. left. destruct (decide (c0 = c)) as [->|Hne].
    + eexists. rewrite lookup_insert_eq. split; [done|]. by destruct net.
    + rewrite lookup_insert_ne by done. destruct (i_conns0 c0 Hc0) as [?|E]; [done|congruence].
  - intros Hu c0 pc. destruct (decide (c0 = c)) as [->|Hne]; [rewrite lookup_insert_eq, Hu; intros [= <-]; by left; eexists|].
    rewrite lookup_insert_ne by done. by apply i_packets0.
  - intros Hs c0 q. destruct (decide (c0 = c)) as [->|Hne]; [rewrite lookup_insert_eq; by destruct net; intros [?|?]|].
    rewrite lookup_insert_ne by done. by apply i_past0.
Qed.

(** [close(srv.shutdown)] once every goroutine called [wg.Done()]. *)
Lemma inv_close s : inv s -> serve s = S_wait -> wg s = 0 -> inv (close_shutdown s).
Proof.
  intros [] H Hw. fields.
  - intros c0 Hc0. destruct (i_conns0 c0 Hc0) as [?|E]; [by left|congruence].
  - intros _. apply map_size_empty_inv. lia.
Qed.

Lemma inv_serve_step s s' : serve_step s s' -> inv s -> inv s'.
Proof.
  intros Hst Hi. pose proof Hi as []. destruct Hst as [H Hv|H Hv|H Hs|H Hs|c H Hl Hc Hr Hp|t H|c H|c H|H|c H Hp Hr|H Hp|t H|t H|H Hw].
  - move_serve H.
  - by apply inv_fail.
  - move_serve H.
  - move_serve H.
  - rewrite H in i_proto0. move_serve H.
  - move_serve H.
  - by apply inv_track.
  - by apply inv_spawn.
  - rewrite H in i_proto0. destruct (started s) eqn:Es; [|move_serve H].
    assert (inv (set_packet_past false s)) by (apply inv_set_packet_past; [done|congruence]).
    assert (serve (set_packet_past false s) = S_read_udp) as H' by done. move_serve H'.
  - rewrite H in i_proto0. move_serve H.
  - move_serve H.
  - move_serve H.
  - destruct (started s) eqn:Es, t; cbn [negb]; move_serve H.
  - by apply inv_close.
Qed.

(** Moving one goroutine that is still alive. *)
Lemma inv_set_routine s c pc0 pc : inv s -> routines s !! c = Some pc0 -> pc0 <> C_done ->
  (net = TCP_ -> pc <> C_done) -> (net = UDP_ -> (exists q, pc = C_serving q) \/ pc = C_done) ->
  (started s = false -> forall q, pc = C_ready q \/ pc = C_reading q -> c ∈ past s) ->
  inv (set_routine c pc s).
Proof.
  intros [] Hr Hl Ht Hu Hp. fields.
  - rewrite map_size_insert_Some by by eexists. done.
  - intros Hs. destruct (i_idle0 Hs) as [E _]. by rewrite E, lookup_empty in Hr.
  - intros Ht' c0 pc1 [[<- <-]|[_ H]]%lookup_insert_Some Hd; by eapply i_tracked0.
  - intros c0 Hc. destruct (i_conns0 c0 Hc) as [(pc1 & H1 & H2)|]; [left|by right].
    destruct (decide (c0 = c)) as [->|Hne]; [|exists pc1; by rewrite lookup_insert_ne].
    exists pc. rewrite lookup_insert_eq. split; [done|]. destruct net eqn:En; [by apply Ht|].
    rewrite i_no_conns0 in Hc by done. set_solver.
  - intros Hu' c0 pc1 [[<- <-]|[_ H]]%lookup_insert_Some; [by apply Hu|by eapply i_packets0].
  - intros c0 Hs. rewrite lookup_insert_ne; [by apply i_fresh0|]. intros <-. apply i_fresh0 in Hs. congruence.
  - intros Hs c0 q [[[<- ->]|[_ H]]%lookup_insert_Some|[[<- ->]|[_ H]]%lookup_insert_Some]; eauto.
  - intros Hs. apply i_drained0 in Hs. by rewrite Hs, lookup_empty in Hr.
Qed.

Lemma inv_set_past s p : inv s -> started s = true -> inv (set_past p s).
Proof. intros [] Hs. fields. Qed.

(** [delete(srv.conns, w.tcp)]. *)
Lemma inv_untrack s c : inv s -> routines s !! c = Some C_exit -> inv (set_routine c C_done (set_conns (conns s ∖ {[c]}) s)).
Proof.
  intros [] Hr. assert (net = TCP_) as Ht by (destruct net eqn:En; [done|]; by destruct (i_packets0 eq_refl _ _ Hr) as [[? ?]|?]).
  fields.
  - rewrite map_size_insert_Some by by eexists. done.
  - intros Hs. destruct (i_idle0 Hs) as [E _]. by rewrite E, lookup_empty in Hr.
  - intros _ c0 pc1 [[<- <-]|[Hne H]]%lookup_insert_Some Hd; [done|]. pose proof (i_tracked0 Ht _ _ H Hd). set_solver.
  - intros c0 [Hc Hne%not_elem_of_singleton]%elem_of_difference.
    destruct (i_conns0 c0 Hc) as [(pc1 & H1 & H2)|]; [left|by right]. exists pc1. by rewrite lookup_insert_ne.
  - intros _ c0 Hs. pose proof (i_fresh0 c0 (or_intror Hs)). pose proof (i_spawn0 Ht c0 Hs).
    assert (c0 <> c) by (intros ->; congruence). set_solver.
  - intros c0 Hs. rewrite lookup_insert_ne; [by apply i_fresh0|]. intros <-. apply i_fresh0 in Hs. congruence.
  - intros Hs c0 q [[[<- ?]|[_ H]]%lookup_insert_Some|[[<- ?]|[_ H]]%lookup_insert_Some]; eauto; done.
  - intros Hs. apply i_drained0 in Hs. by rewrite Hs, lookup_empty in Hr.
Qed.

(** [wg.Done()]. *)
Lemma inv_wg_done s c : inv s -> routines s !! c = Some C_done -> inv (wg_done c s).
Proof.
  intros [] Hr. fields.
  - rewrite map_size_delete_Some by by eexists.
    assert (size (routines s) <> 0%nat) by (intros E%map_size_empty_inv; by rewrite E, lookup_empty in Hr). lia.
  - intros Hs. destruct (i_idle0 Hs) as [E _]. by rewrite E, lookup_empty in Hr.
  - intros Ht c0 pc1 [_ H]%lookup_delete_Some; by eapply i_tracked0.
  - intros c0 Hc. destruct (i_conns0 c0 Hc) as [(pc1 & H1 & H2)|]; [left|by right].
    exists pc1. rewrite lookup_delete_ne; [done|congruence].
  - intros Hu c0 pc1 [_ H]%lookup_delete_Some; by eapply i_packets0.
  - intros c0 Hs. destruct (decide (c0 = c)) as [->|?]; [apply lookup_delete_eq|]. rewrite lookup_delete_ne by done. by apply i_fresh0.
  - intros Hs c0 q [[_ H]%lookup_delete_Some|[_ H]%lookup_delete_Some]; eauto.
  - intros Hs. apply i_drained0 in Hs. by rewrite Hs, lookup_empty in Hr.
Qed.

Lemma routine_is_tcp s c pc : inv s -> routines s !! c = Some pc -> (forall q, pc <> C_serving q) -> pc <> C_done -> net = TCP_.
Proof. intros [] H N1 N2. destruct net eqn:En; [done|]. destruct (i_packets0 eq_refl _ _ H) as [[q ?]|?]; [by destruct (N1 q)|done]. Qed.

Lemma inv_conn_step s s' : conn_step s s' -> inv s -> inv s'.
Proof.
  intros Hst Hi. destruct Hst as [c q H|c q H|c q H Hp|c q H|c q over H|c H|c H].
  - assert (net = TCP_) as Ht by by eapply routine_is_tcp. eapply inv_set_routine; [done..| | |]; intros; try congruence.
    + by destruct keep_serving.
    + unfold keep_serving in *. rewrite H0, andb_false_r in *. naive_solver.
  - assert (net = TCP_) as Ht by by eapply routine_is_tcp. destruct (started s) eqn:Es.
    + eapply inv_set_routine; [by apply inv_set_past|state; done|done|done|congruence|state; congruence].
    + eapply inv_set_routine; [done|done|done|done|congruence|]. intros _ q' _. eapply (i_past _ Hi); [done|by left].
  - assert (net = TCP_) as Ht by by eapply routine_is_tcp. eapply inv_set_routine; [done..|congruence|].
    intros _ q' [?|?]; done.
  - assert (net = TCP_) as Ht by by eapply routine_is_tcp. eapply inv_set_routine; [done..|congruence|].
    intros _ q' [?|?]; done.
  - eapply inv_set_routine; [done|done|done| | |]; intros; destruct net, over; try done; try (by right); naive_solver.
  - by apply inv_untrack.
  - by apply inv_wg_done.
Qed.

Lemma inv_step s s' : step s s' -> inv s -> inv s'.
Proof.
  intros [H ->|H|H|H] Hi; [by apply inv_start|by eapply inv_serve_step|by eapply inv_conn_step|by eapply inv_stop_step].
Qed.

Lemma inv_reachable s : reachable s -> inv s.
Proof. intros H. pattern s. eapply rtc_ind_r; [apply inv_new|intros; by eapply inv_step|exact H]. Qed.

(** ** Shutting down ends *)

(** Whatever the scheduler, the peers and the handlers do, [P] is reached:
    some step is always possible until then, and no run avoids it. *)
Inductive inevitably (P : server -> Prop) (s : server) : Prop :=
| inevitably_now : P s -> inevitably P s
| inevitably_later : (exists s', step s s') -> (forall s', step s s' -> inevitably P s') -> inevitably P s.

(** What a goroutine still has to do at most. *)
Definition conn_work (pc : conn_pc) : nat :=
  match pc with C_done => 1 | C_exit => 2 | C_check _ | C_reading _ => 3 | C_ready _ | C_serving _ => 4 end.
Definition serve_work (pc : serve_pc) : nat :=
  match pc with
  | S_returned | S_idle | S_failed => 0 | S_wait => 1 | S_check => 2 | S_begin | S_err _ => 3 | S_accept | S_reading_udp => 4
  | S_read_udp => 5 | S_spawn _ => 7 | S_accepted _ => 8
  end.
Definition stop_work (pc : stop_pc) : nat := match pc with Stop_waiting => 1 | _ => 0 end.
Definition routines_work (m : gmap conn conn_pc) : nat := map_fold (fun _ pc n => conn_work pc + n)%nat 0%nat m.
Definition work (s : server) : nat := (routines_work (routines s) + serve_work (serve s) + stop_work (stop s))%nat.

Lemma routines_work_delete m c pc : m !! c = Some pc -> routines_work m = (conn_work pc + routines_work (delete c m))%nat.
Proof. intros H. apply (map_fold_delete_L (fun _ pc n => conn_work pc + n)%nat); [lia|done]. Qed.

Lemma routines_work_insert m c pc0 pc : m !! c = Some pc0 ->
  (routines_work (<[c := pc]> m) + conn_work pc0 = routines_work m + conn_work pc)%nat.
Proof.
  intros H. rewrite (routines_work_delete m c pc0) by done. rewrite (routines_work_delete _ c pc) by apply lookup_insert_eq.
  rewrite delete_insert_eq. lia.
Qed.

Lemma routines_work_fresh m c pc : m !! c = None -> routines_work (<[c := pc]> m) = (conn_work pc + routines_work m)%nat.
Proof.
  intros H. rewrite (routines_work_delete _ c pc) by apply lookup_insert_eq. by rewrite delete_insert_id.
Qed.
(** Shutting down: [ShutdownContext] was called and the server had started. *)
Definition stopping (s : server) : Prop := started s = false /\ serve s <> S_idle.
(** Shut down: [close(srv.shutdown)] happened, nothing runs, [ShutdownContext] returned. *)
Definition stopped (s : server) : Prop :=
  shutdown_closed s = true /\ serve s = S_returned /\ routines s = ∅ /\ conns s = ∅ /\
  (stop s = Stop_returned \/ stop s = Stop_cancelled).

Ltac work := unfold work, stopping; state; cbn [serve_work stop_work conn_work].

Lemma serve_step_works s s' : inv s -> stopping s -> serve_step s s' -> (work s' < work s)%nat /\ stopping s'.
Proof.
  intros [] [Hs Hn] Hst. destruct Hst as [H ?|H ?|H ?|H ?|c H Hl|t H|c H|c H|H|c H Hp|H Hp|t H|t H|H Hw]; try (rewrite i_listening0 in Hl; done);
    try congruence; try (rewrite i_packet0 in Hp by (done || by right); done).
  all: rewrite ?Hs; try destruct t; work; rewrite ?H; cbn [serve_work negb]; try (split; [lia|done]).
  - rewrite routines_work_fresh by (apply i_fresh0; by right). destruct net; cbn [conn_work]; split; [lia|done|lia|done].
Qed.

Lemma conn_step_works s s' : inv s -> stopping s -> conn_step s s' -> (work s' < work s)%nat /\ stopping s'.
Proof.
  intros [] [Hs Hn] Hst. destruct Hst as [c q H|c q H|c q H Hp|c q H|c q over H|c H|c H].
  all: try (unfold keep_serving; rewrite Hs, andb_false_r). all: rewrite ?Hs; work.
  3: by destruct Hp; eapply i_past0; eauto.
  6: rewrite (routines_work_delete _ _ _ H); cbn [conn_work]; split; [lia|done].
  all: match goal with E : ?m !! ?i = Some ?pc0 |- context [routines_work (<[?i := ?pc]> ?m)] =>
    pose proof (routines_work_insert m i pc0 pc E) as Hw end.
  4: destruct net, over.
  all: cbn [conn_work] in *; split; [lia|done].
Qed.

Lemma step_works s s' : inv s -> stopping s -> step s s' -> (work s' < work s)%nat /\ stopping s'.
Proof.
  intros Hi [Hs Hn] [H ->|H|H|H]; [done|by eapply serve_step_works|by eapply conn_step_works|].
  destruct H as [H|H _|H]; [congruence| |]; work; rewrite H; cbn [stop_work]; (split; [lia|done]).
Qed.

Lemma conn_can_step s c pc : routines s !! c = Some pc -> exists s', conn_step s s'.
Proof. destruct pc; intros H; eexists; by econstructor. Unshelve. exact true. Qed.

Lemma stopping_progress s : serves = true -> inv s -> stopping s -> stopped s \/ exists s', step s s'.
Proof.
  intros Hv [] [Hs Hn]. destruct (map_choose_or_empty (routines s)) as [(c & pc & H)|Hr].
  { destruct (conn_can_step _ _ _ H) as [s' ?]. right. exists s'. by apply step_conn. }
  pose proof (fun s' => step_serve s s') as Hst. destruct (serve s) eqn:H; [done|..].
  2: by rewrite i_failed0 in Hv.
  1-9: right; eexists; apply Hst.
  - by apply serve_begin.
  - by apply serve_stop.
  - by apply (serve_accept_error _ true).
  - by apply serve_deadline.
  - by apply (serve_read_error _ true).
  - by eapply serve_error.
  - by eapply serve_track.
  - by eapply serve_spawn.
  - apply serve_drained; [done|]. by rewrite i_wg0, Hr, map_size_empty.
  - assert (shutdown_closed s = true) as Hc by by apply i_returned0.
    destruct (stop s) eqn:Ht; [by destruct (i_stop0 Hs)|right; eexists; apply step_stop; by apply stop_return|left..].
    all: split_and!; eauto. all: apply set_eq; intros c; split; [intros E|set_solver].
    all: destruct (i_conns0 c E) as [(pc & E' & _)|?]; [by rewrite Hr, lookup_empty in E'|done].
Qed.

Lemma stopping_ends s : serves = true -> inv s -> stopping s -> inevitably stopped s.
Proof.
  intros Hv. remember (work s) as n eqn:E. revert s E. induction n as [n IH] using lt_wf_ind. intros s -> Hi Hs.
  destruct (stopping_progress s Hv Hi Hs) as [?|?]; [by apply inevitably_now|]. apply inevitably_later; [done|].
  intros s' Hst. destruct (step_works _ _ Hi Hs Hst) as [Hw Hs']. by eapply IH; [exact Hw|done|eapply inv_step|].
Qed.

Lemma routines_work_le m : (routines_work m <= 4 * size m)%nat.
Proof.
  induction m as [|c pc m Hc IH] using map_ind; [done|]. rewrite routines_work_fresh, map_size_insert_None by done.
  destruct pc; cbn [conn_work]; lia.
Qed.

Lemma stopping_run n s s' : inv s -> stopping s -> nsteps step n s s' -> (n + work s' <= work s)%nat.
Proof.
  intros Hi Hs Hr. revert Hi Hs. induction Hr as [|n s s1 s2 Hst _ IH]; intros Hi Hs; [lia|].
  destruct (step_works _ _ Hi Hs Hst) as [Hw Hs1]. apply IH in Hs1; [lia|by eapply inv_step].
Qed.

(** [srv.shutdown] of a server that cannot read is never closed. *)
Lemma unreadable_waits s : serves = false -> reachable s -> shutdown_closed s = false /\ stop s <> Stop_returned.
Proof.
  intros Hv [] %inv_reachable. assert (shutdown_closed s = false) as Hc; [|split; [done|]; intros Ht%i_stop_returned0; congruence].
  destruct (shutdown_closed s); [|done]. rewrite (proj2 i_returned0) in i_unreadable0 by done.
  by destruct (i_unreadable0 Hv) as [?|[?|?]].
Qed.



(** C22: from the moment [ShutdownContext] has taken the lock no run of the server
    is longer than four steps for each goroutine that lives and nine for the
    accept loop and [ShutdownContext]. *)
Theorem shutdown_terminates n s s' : reachable s -> stopping s -> nsteps step n s s' ->
  (n <= 4 * size (routines s) + 9)%nat.
Proof.
  intros H%inv_reachable Hs Hr. pose proof (stopping_run _ _ _ H Hs Hr) as Hw. pose proof (routines_work_le (routines s)).
  assert (serve_work (serve s) + stop_work (stop s) <= 9)%nat by (destruct (serve s), (stop s); cbn; lia). unfold work in *. lia.
Qed.
End Server.

(** ** A run *)

(** A TCP server is shut down while one connection is about to read and the next
    has just been accepted. *)
Definition run_server : server := 
  MkServer false false true {[1%positive]} {[1%positive]} 1 {[1%positive := C_ready 0]} false (S_accepted 2%positive) Stop_waiting.

Lemma run_reachable : reachable TCP_ 128 true run_server.
Proof.
  unfold reachable.
  eapply rtc_l; [eapply step_start; reflexivity|]. cbn.
  eapply rtc_l; [apply step_serve, serve_begin; reflexivity|]. cbn.
  eapply rtc_l; [apply step_serve, serve_loop; reflexivity|]. cbn.
  eapply rtc_l; [apply step_serve, (serve_accept _ _ _ 1%positive); cbn; set_solver|]. cbn.
  eapply rtc_l; [apply step_serve, (serve_track _ _ _ 1%positive); reflexivity|]. cbn.
  eapply rtc_l; [apply step_serve, (serve_spawn _ _ _ 1%positive); reflexivity|]. cbn.
  eapply rtc_l; [eapply step_conn, (conn_check _ _ _ 1%positive 0); reflexivity|]. cbn.
  eapply rtc_l; [apply step_serve, serve_loop; reflexivity|]. cbn.
  eapply rtc_l; [apply step_serve, (serve_accept _ _ _ 2%positive); cbn; set_solver|]. cbn.
  eapply rtc_l; [apply step_stop, stop_begin; reflexivity|].
  match goal with |- rtc _ ?s _ => assert (s = run_server) as -> end; [|apply rtc_refl].
  unfold run_server. cbn. f_equal; set_solver.
Qed.


(** A UDP server that cannot read its packet connection is shut down. *)
Definition failed_server : server := MkServer false false true ∅ ∅ 0 ∅ false S_failed Stop_waiting.

Lemma failed_reachable : reachable UDP_ 128 false failed_server.
Proof.
  unfold reachable.
  eapply rtc_l; [eapply step_start; reflexivity|]. cbn.
  eapply rtc_l; [apply step_serve, serve_unreadable; reflexivity|]. cbn.
  eapply rtc_l; [apply step_stop, stop_begin; reflexivity|].
  match goal with |- rtc _ ?s _ => assert (s = failed_server) as -> end; [|apply rtc_refl].
  unfold failed_server. cbn. f_equal; set_solver.
Qed.


Lemma shutdown_terminates_witness : (1 <= 4 * size (routines run_server) + 9)%nat.
Proof.
  apply (shutdown_terminates TCP_ 128 true 1 run_server (set_routine 1 (C_reading 0) run_server) run_reachable).
  - split; [reflexivity|discriminate].
  - eapply nsteps_l; [|apply nsteps_O]. apply step_conn. apply (conn_deadline _ _ run_server 1%positive 0). reflexivity.
Defined.
