(* ===== verification/Xfr.v ===== *)
(** * xfr.go: zone transfers

    [Transfer.In] with [inAxfr] and [inIxfr], [Transfer.Out], [ReadMsg] and
    [WriteMsg], with the stream branch of client.go [Conn.Read] and
    [Conn.Write].  The connection is the octets that are still to be read; the
    channel is the list of the envelopes sent on it, each received.  What the
    clock gives for the [i]-th message is [clock i].  Deadlines, dialling and
    closing the connection are not modelled. *)

From S2P Require Import Prelude Go Escape Names NameEncode Codec Encodings Wire RData RDataCarry RR RRCarry Msg MsgCarry Safety Build Truncate Tsig Server.

(** ** Data *)

Record Envelope := MkEnvelope { env_RR : list RR; env_Error : option error }.

(** The part of a [Transfer] and its [Conn] that messages change. *)
Record Transfer := MkTransfer { xfr_tsigRequestMAC : bytes; xfr_tsigTimersOnly : bool }.

Definition new_transfer : Transfer := MkTransfer [] false.
Definition timers_only (t : Transfer) : Transfer := MkTransfer (xfr_tsigRequestMAC t) true.

(** [&Error{err: fmt.Sprintf(errXFR, in.Rcode)}]; the number is left out. *)
Definition errXFR : error := MkError "bad xfr rcode".

(** ** The connection *)

(** [Conn.Read] into 65535 octets: what was read, the error, what is left. *)
Definition Conn_Read (stream : bytes) : bytes * option error * bytes :=
  match slice stream 0 2 with
  | None => ([], Some (MkError "unexpected EOF"), [])
  | Some w =>
      match slice stream 2 (2 + unbe w) with
      | None => (zdrop 2 stream, Some (MkError "unexpected EOF"), [])
      | Some p => (p, None, zdrop (2 + unbe w) stream)
      end
  end.

(** [Conn.Write]: the octets for the stream. *)
Definition Conn_Write (p : bytes) : res error bytes :=
  if MaxMsgSize <? zlen p then Err (MkError "message too large") else Ok (frame p).

Section Transfer.
Variable tsigProvider : option TsigProvider.

(** [ReadMsg]: the message or the error. *)
Definition Transfer_ReadMsg (now : Z) (t : Transfer) (stream : bytes) : res error ((Msg + error) * Transfer * bytes) :=
  let '(p, err, rest) := Conn_Read stream in
  match err, p with
  | Some e, [] => Ok (inr e, t, rest)
  | _, _ =>
      '(m, unpack_err) ← Unpack zero_msg p;
      match unpack_err with
      | Some e => Ok (inr e, t, rest)
      | None =>
          '(err, t) ← (match tsigProvider with
            | None => Ok (err, t)
            | Some tp =>
                v ← attempt (tsigVerify p tp (xfr_tsigRequestMAC t) (xfr_tsigTimersOnly t) now now);
                ts ← Msg_IsTsig m;
                Ok (match v with inl _ => None | inr e => Some e end,
                    match ts with Some ts => MkTransfer (ts_MAC ts) (xfr_tsigTimersOnly t) | None => t end)
            end);
          Ok (match err with Some e => inr e | None => inl m end, t, rest)
      end
  end.

(** [WriteMsg]: what goes onto the stream. *)
Definition Transfer_WriteMsg (now : Z) (m : Msg) (t : Transfer) : res error (bytes * Transfer) :=
  ts ← Msg_IsTsig m;
  match ts, tsigProvider with
  | Some _, Some tp =>
      '(out, mac) ← (TsigGenerateWithProvider m tp (xfr_tsigRequestMAC t) (xfr_tsigTimersOnly t) now).2;
      out ← Conn_Write out;
      Ok (out, MkTransfer mac (xfr_tsigTimersOnly t))
  | _, _ => out ← (Pack m).2; out ← Conn_Write out; Ok (out, t)
  end.

(** ** Incoming transfers *)

Definition isSOAFirst (m : Msg) : bool :=
  match Answer m with r :: _ => Rrtype (Hdr r) =? TypeSOA | [] => false end.
Definition isSOALast (m : Msg) : bool :=
  match last (Answer m) with Some r => Rrtype (Hdr r) =? TypeSOA | None => false end.

(** The type assertion to a pointer to [SOA], and its [Serial]. *)
Definition as_SOA (r : RR) : option Z :=
  match struct r, data r with
  | RR_SOA, [_; _; V_int serial; _; _; _; _] => Some serial
  | _, _ => None
  end.

Variable clock : nat -> Z.

(** The loop of [inAxfr], before message [i]. *)
Fixpoint inAxfr_loop (fuel i : nat) (id : Z) (first : bool) (t : Transfer) (stream : bytes) : res error (list Envelope * Transfer * bytes) :=
  match fuel with
  | O => Diverge
  | S fuel =>
      '(r, t, stream) ← Transfer_ReadMsg (clock i) t stream;
      match r with
      | inr e => Ok ([MkEnvelope [] (Some e)], t, stream)
      | inl m =>
          let send t := '(envs, t, stream) ← inAxfr_loop fuel (S i) id false t stream;
                        Ok (MkEnvelope (Answer m) None :: envs, t, stream) in
          if negb (id =? Id (hdr m)) then Ok ([MkEnvelope (Answer m) (Some ErrId)], t, stream) else
          if first && negb (Rcode (hdr m) =? RcodeSuccess) then Ok ([MkEnvelope (Answer m) (Some errXFR)], t, stream) else
          if first && negb (isSOAFirst m) then Ok ([MkEnvelope (Answer m) (Some ErrSoa)], t, stream) else
          let t := timers_only t in
          if first && (zlen (Answer m) =? 1) then send t else
          if isSOALast m then Ok ([MkEnvelope (Answer m) None], t, stream) else send t
      end
  end.

Definition inAxfr (id : Z) (t : Transfer) (stream : bytes) : res error (list Envelope * Transfer * bytes) :=
  inAxfr_loop (S (length stream)) 0 id true t stream.

(** The loop over the records of a message in [inIxfr]: whether it returned,
    [n] and [axfr] afterwards. *)
Fixpoint scan_soa (serial : Z) (rrs : list RR) (n : Z) (axfr : bool) : bool * Z * bool :=
  match rrs with
  | [] => (false, n, axfr)
  | rr :: rrs =>
      match as_SOA rr with
      | Some v =>
          if v =? serial then
            let n := n + 1 in
            if (axfr && (n =? 2)) || (n =? 3) then (true, n, axfr) else scan_soa serial rrs n axfr
          else scan_soa serial rrs n (if axfr then false else axfr)
      | None => scan_soa serial rrs n axfr
      end
  end.

(** The loop of [inIxfr], before message [i]; [qser] is the serial of the
    request. *)
Fixpoint inIxfr_loop (fuel i : nat) (id qser serial n : Z) (axfr : bool) (t : Transfer) (stream : bytes)
    : res error (list Envelope * Transfer * bytes) :=
  match fuel with
  | O => Diverge
  | S fuel =>
      '(r, t, stream) ← Transfer_ReadMsg (clock i) t stream;
      match r with
      | inr e => Ok ([MkEnvelope [] (Some e)], t, stream)
      | inl m =>
          let next serial := 
            let t := timers_only t in
            let '(done, n, axfr) := scan_soa serial (Answer m) n axfr in
            if done : bool then Ok ([MkEnvelope (Answer m) None], t, stream) else
            '(envs, t, stream) ← inIxfr_loop fuel (S i) id qser serial n axfr t stream;
            Ok (MkEnvelope (Answer m) None :: envs, t, stream) in
          if negb (id =? Id (hdr m)) then Ok ([MkEnvelope (Answer m) (Some ErrId)], t, stream) else
          if negb (Rcode (hdr m) =? RcodeSuccess) then Ok ([MkEnvelope (Answer m) (Some errXFR)], t, stream) else
          if n =? 0 then
            if negb (isSOAFirst m) then Ok ([MkEnvelope (Answer m) (Some ErrSoa)], t, stream) else
            match head (Answer m) ≫= as_SOA with
            | None => Panic
            | Some serial => if serial <=? qser then Ok ([MkEnvelope (Answer m) None], t, stream) else next serial
            end
          else next serial
      end
  end.

Definition inIxfr (id qser : Z) (t : Transfer) (stream : bytes) : res error (list Envelope * Transfer * bytes) :=
  inIxfr_loop (S (length stream)) 0 id qser 0 0 true t stream.

(** [In] on an open connection: [peer] is what the other side sends once it has
    read the request. *)
Definition In (now : Z) (q : Msg) (t : Transfer) (peer : bytes -> bytes) : res error (list Envelope * Transfer * bytes) :=
  match Question_ q with
  | [] => Panic
  | qu :: _ =>
      if negb ((Qtype qu =? TypeAXFR) || (Qtype qu =? TypeIXFR)) then Err (MkError "unsupported question type") else
      '(out, t) ← Transfer_WriteMsg now q t;
      if Qtype qu =? TypeAXFR then inAxfr (Id (hdr q)) t (peer out) else
      match head (Ns q) ≫= as_SOA with
      | None => Panic
      | Some qser => inIxfr (Id (hdr q)) qser t (peer out)
      end
  end.

(** ** Outgoing transfers *)

(** [SetTsig] on a message without other records in that section. *)
Definition reply_tsig (r : Msg) (tsig : TSIG) (now : Z) : TSIG :=
  MkTSIG (MkHeader (Name (ts_Hdr tsig)) TypeTSIG ClassANY 0 0) (ts_Algorithm tsig) (now mod 2 ^ 64) (ts_Fudge tsig) 0 []
    (Id (hdr r)) 0 0 [].

Definition out_reply (q : Msg) (rrs : list RR) : Msg :=
  let h := reply_hdr (hdr q) zero_hdr in
  MkMsg (MkMsgHdr (Id h) (Response h) (Opcode h) true (Truncated h) (RecursionDesired h) (RecursionAvailable h) (Zero h)
           (AuthenticatedData h) (CheckingDisabled h) (Rcode h)) false (take 1 (Question_ q)) rrs [] [].

(** [Out]: the envelopes in order, until a write fails. *)
Fixpoint Out (i : nat) (q : Msg) (envs : list (list RR)) (w : response) : res error (response * option error) :=
  match envs with
  | [] => Ok (w, None)
  | x :: envs =>
      tsig ← Msg_IsTsig q;
      let r := out_reply q x in
      let r := match tsig, tsigStatus w with
               | Some tsig, None => set_Extra (Extra r ++ [TSIG_rr (reply_tsig r tsig (clock i))]) r
               | _, _ => r
               end in
      '(w, err) ← response_WriteMsg tsigProvider (clock i) r w;
      match err with
      | Some e => Ok (w, Some e)
      | None => Out (S i) q envs (set_TsigTimersOnly true w)
      end
  end.
End Transfer.

(** ** Every transfer ends *)

Lemma typed_SOA r : typed_rr r -> Rrtype (Hdr r) = TypeSOA -> exists serial, as_SOA r = Some serial.
Proof.
  intros (_ & Hs & Hd) Hty. rewrite Hty in Hs. change (struct r = RR_SOA) in Hs. rewrite Hs in Hd.
  change (fields RR_SOA) with SOA_fields in Hd. unfold SOA_fields in Hd. unfold as_SOA. rewrite Hs.
  repeat match goal with
  | H : Forall2 _ (_ :: _) _ |- _ => apply Forall2_cons_inv_l in H as (? & ? & ? & ? & ->)
  | H : Forall2 _ [] _ |- _ => apply Forall2_nil_inv_l in H as ->
  end.
  repeat match goal with H : has_type _ ?v |- _ => destruct v; cbn in H; try done; clear H end.
  by eexists.
Qed.

Lemma Conn_Read_shrinks stream p err rest : Conn_Read stream = (p, err, rest) ->
  err = None \/ p <> [] -> (length rest < length stream)%nat.
Proof.
  unfold Conn_Read. destruct (slice stream 0 2) as [w|] eqn:Ew; [|intros [= <- <- <-] [?|?]; done].
  apply slice_inv in Ew as (_ & Hl & _ & _). destruct (slice stream 2 _) as [m|] eqn:Em; intros [= <- <- <-] Hp.
  - apply slice_inv in Em as ([_ H2] & _). unfold zdrop. rewrite length_drop. unfold zlen in *. lia.
  - unfold zlen in *. cbn. lia.
Qed.

Lemma Conn_Read_suffix stream p err rest : Conn_Read stream = (p, err, rest) -> exists used, stream = used ++ rest.
Proof.
  unfold Conn_Read. destruct (slice stream 0 2); [destruct (slice stream 2 _)|]; intros [= <- <- <-];
    eexists; [symmetry; apply take_drop|symmetry; apply app_nil_r..].
Qed.

Section Total.
Context (tp : option TsigProvider) (clock : nat -> Z).
Context (provider_returns : forall p, tp = Some p -> forall b t, returns (Verify p b t)).

(** What a read gives: an error, or a message and a shorter stream. *)
Definition read_spec (stream : bytes) (r : (Msg + error) * Transfer * bytes) : Prop :=
  let '(m, t, rest) := r in
  (exists used, stream = used ++ rest) /\
  match m with inl m => typed_msg m /\ (length rest < length stream)%nat | inr _ => True end.

Lemma Transfer_ReadMsg_ok now t stream : ensures (Transfer_ReadMsg tp now t stream) (read_spec stream) (fun _ => False).
Proof.
  unfold Transfer_ReadMsg. destruct (Conn_Read stream) as [[p err] rest] eqn:E.
  pose proof (Conn_Read_shrinks _ _ _ _ E) as Hs. apply Conn_Read_suffix in E as Hu.
  assert (err = None \/ p <> [] -> ensures ('(m, unpack_err) ← @Unpack error zero_msg p;
      match unpack_err with
      | Some e => Ok (inr e, t, rest)
      | None =>
          '(err, t) ← (match tp with
            | None => Ok (err, t)
            | Some tp =>
                v ← attempt (tsigVerify p tp (xfr_tsigRequestMAC t) (xfr_tsigTimersOnly t) now now);
                ts ← Msg_IsTsig m;
                Ok (match v with inl _ => None | inr e => Some e end,
                    match ts with Some ts => MkTransfer (ts_MAC ts) (xfr_tsigTimersOnly t) | None => t end)
            end);
          Ok (match err with Some e => inr e | None => inl m end, t, rest)
      end) (read_spec stream) (fun _ => False)) as Hgo.
  { intros Hp. specialize (Hs Hp). destruct (@Unpack_ok error zero_msg p) as (m & e & -> & Hm); [by split_and!|].
    gosimp. destruct e as [e|]; [by split|].
    apply (ensures_bind_via _ _ (fun _ => True)).
    - destruct tp as [q|]; [|done].
      pose proof (tsigVerify_safe p q (xfr_tsigRequestMAC t) (xfr_tsigTimersOnly t) now now (provider_returns q eq_refl)) as Hv.
      destruct (Msg_IsTsig_typed (E := error) m Hm) as [ts ->].
      destruct (tsigVerify _ _ _ _ _ _); cbn in Hv; done.
    - intros [[e|] t'] _; by split. }
  destruct err as [e|], p as [|b p]; [|apply Hgo; by right|apply Hgo; by left..]. by split.
Qed.

(** The envelopes of a transfer that has ended: only the last can have an error. *)
Definition ended (stream : bytes) (r : list Envelope * Transfer * bytes) : Prop :=
  let '(envs, _, rest) := r in
  (exists used, stream = used ++ rest) /\
  exists good e, envs = good ++ [e] /\ Forall (fun e => env_Error e = None) good.

Lemma ended_one stream e t rest : (exists used, stream = used ++ rest) -> ended stream ([e], t, rest).
Proof. intros Hu. split; [done|]. by exists [], e. Qed.

Lemma ended_cons stream x rest r : (exists used, stream = used ++ rest) -> ensures r (ended rest) (fun _ => False) ->
  ensures ('(envs, t, stream) ← r; Ok (MkEnvelope x None :: envs, t, stream)) (ended stream) (fun _ : error => False).
Proof.
  intros [u ->] H. eapply ensures_bind_via; [exact H|]. intros [[envs t] rest'] ([u' ->] & good & e & -> & Hg).
  split; [exists (u ++ u'); by rewrite app_assoc|]. exists (MkEnvelope x None :: good), e. split; [done|]. by constructor.
Qed.

Lemma inAxfr_ends fuel : forall i id first t stream, (length stream < fuel)%nat ->
  ensures (inAxfr_loop tp clock fuel i id first t stream) (ended stream) (fun _ => False).
Proof.
  induction fuel as [|fuel IH]; intros i id first t stream Hf; [lia|]. cbn [inAxfr_loop].
  eapply ensures_bind_via; [apply Transfer_ReadMsg_ok|]. intros [[[m|e] t'] rest] [Hu Hm]; [|by apply ended_one].
  repeat (case_match; [by apply ended_one|]). destruct Hm as [_ Hm].
  assert (forall t, ensures ('(envs, t, stream) ← inAxfr_loop tp clock fuel (S i) id false t rest;
      Ok (MkEnvelope (Answer m) None :: envs, t, stream)) (ended stream) (fun _ => False)) as Hsend
    by (intros; apply (ended_cons _ _ rest); [done|apply IH; lia]).
  cbv zeta. case_match; [apply Hsend|]. case_match; [by apply ended_one|apply Hsend].
Qed.

Lemma inIxfr_ends fuel : forall i id qser serial n axfr t stream, (length stream < fuel)%nat ->
  ensures (inIxfr_loop tp clock fuel i id qser serial n axfr t stream) (ended stream) (fun _ => False).
Proof.
  induction fuel as [|fuel IH]; intros i id qser serial n axfr t stream Hf; [lia|]. cbn [inIxfr_loop].
  eapply ensures_bind_via; [apply Transfer_ReadMsg_ok|]. intros [[[m|e] t'] rest] [Hu Hm]; [|by apply ended_one].
  case_match; [by apply ended_one|]. case_match; [by apply ended_one|]. destruct Hm as [Ht Hm].
  assert (forall serial, ensures (let t := timers_only t' in
      let '(done, n, axfr) := scan_soa serial (Answer m) n axfr in
      if done : bool then Ok ([MkEnvelope (Answer m) None], t, rest) else
      '(envs, t, stream) ← inIxfr_loop tp clock fuel (S i) id qser serial n axfr t rest;
      Ok (MkEnvelope (Answer m) None :: envs, t, stream)) (ended stream) (fun _ => False)) as Hnext.
  { intros s. cbv zeta. destruct (scan_soa _ _ _ _) as [[[] n'] axfr']; [by apply ended_one|].
    apply (ended_cons _ _ rest); [done|apply IH; lia]. }
  case_match; [|apply Hnext]. case_match eqn:Hf1; [by apply ended_one|].
  destruct Ht as (_ & Ha & _). unfold isSOAFirst in Hf1. destruct (Answer m) as [|r l]; [done|].
  apply Forall_cons in Ha as [Hr _]. apply negb_false_iff, Z.eqb_eq in Hf1.
  destruct (typed_SOA r Hr Hf1) as [s Hs]. cbn [head mbind option_bind]. rewrite Hs.
  case_match; [by apply ended_one|apply Hnext].
Qed.
End Total.

(** C23: a transfer ends, whatever the other side sends: for every stream of octets,
    without panic, [inAxfr] and [inIxfr] return after reading a part of it, having
    sent at least one envelope, of which only the last can carry an error. *)
Theorem transfers_end tp clock id qser t stream : (forall p, tp = Some p -> forall b t, returns (Verify p b t)) ->
  (exists r, inAxfr tp clock id t stream = Ok r /\ ended stream r) /\
  (exists r, inIxfr tp clock id qser t stream = Ok r /\ ended stream r).
Proof.
  intros Hp. pose proof (inAxfr_ends tp clock Hp (S (length stream)) 0 id true t stream ltac:(lia)) as H1.
  pose proof (inIxfr_ends tp clock Hp (S (length stream)) 0 id qser 0 0 true t stream ltac:(lia)) as H2.
  split; [unfold inAxfr; destruct (inAxfr_loop _ _ _ _ _ _ _ _)|unfold inIxfr; destruct (inIxfr_loop _ _ _ _ _ _ _ _ _ _)];
    cbn in H1, H2; try done; by eexists.
Qed.

(** A stream that stops in the middle of a message. *)
Lemma transfers_end_witness : exists good e t rest,
  inAxfr None (fun _ => 0) 7 new_transfer (map byte_of [0; 12; 0; 7; 128]) = Ok (good ++ [e], t, rest) /\
  Forall (fun e => env_Error e = None) good.
Proof.
  destruct (transfers_end None (fun _ => 0) 7 0 new_transfer (map byte_of [0; 12; 0; 7; 128])) as [([[envs t] rest] & E & _ & good & e & -> & Hg) _]; [done|].
  exists good, e, t, rest. split; [exact E|exact Hg].
Defined.
