(* ===== verification/XfrCarry.v ===== *)
(** * Zone transfers from server to client

    What [Out] writes through the server's response writer, [In] reads: message
    by message, with the chain of MACs and the timers-only flag of both sides in
    step; then whole transfers, for every way to cut the zone into messages. *)

From S2P Require Import Prelude Go Escape Names NameEncode Codec NameCarry Encodings Wire RData RDataCarry RR RRCarry Msg MsgCarry Safety Build Truncate Tsig Server Xfr.

(** ** Cutting a zone into messages *)

Lemma concat_last {A} (xs : list (list A)) : xs <> [] -> last xs <> Some [] -> exists y z, concat xs = y ++ [z].
Proof.
  intros Hne Hl. induction xs as [|x xs _] using rev_ind; [done|]. rewrite last_snoc in Hl.
  destruct x as [|a x _] using rev_ind; [done|]. exists (concat xs ++ x), a. rewrite concat_app. cbn [concat]. by rewrite app_nil_r, app_assoc.
Qed.

(** [x] is the first part of a cut of [l ++ [r]]: all of it, or a prefix of [l]. *)
Lemma concat_first {A} (x : list A) xs l r : x ++ concat xs = l ++ [r] -> xs = [] \/ last xs <> Some [] ->
  (xs = [] /\ x = l ++ [r]) \/ (xs <> [] /\ exists y, l = x ++ y /\ concat xs = y ++ [r]).
Proof.
  intros H Hl. destruct xs as [|x' xs]; [left; cbn in H; by rewrite app_nil_r in H|right]. split; [done|].
  destruct Hl as [|Hl]; [done|]. destruct (concat_last (x' :: xs) ltac:(done) Hl) as (y & z & E). rewrite E in *.
  rewrite app_assoc in H. apply app_inj_tail in H as [<- ->]. by exists y.
Qed.

Lemma last_cons_cases {A} (x : A) (xs : list A) v : last (x :: xs) <> Some v -> xs = [] \/ last xs <> Some v.
Proof. destruct xs; [by left|by right]. Qed.

(** ** One frame *)

Lemma Conn_Read_frame m rest : zlen m <= MaxMsgSize -> Conn_Read (frame m ++ rest) = (m, None, rest).
Proof.
  intros Hm. pose proof (readTCP_frame m rest Hm) as H. unfold readTCP in H. unfold Conn_Read.
  destruct (slice _ 0 2); [|done]. destruct (slice _ 2 _); [|done]. congruence.
Qed.

(** ** Sessions *)

(** A key the provider signs with, as records carry it; MACs have two octets or
    more. *)
Record session_ok (p : TsigProvider) (k : TSIG) : Prop := {
  ss_name : good_name (Name (ts_Hdr k));
  ss_algorithm : good_name (ts_Algorithm k);
  ss_fudge : u16 (ts_Fudge k);
  ss_signs : Signs p k;
  ss_mac : forall buf t mac, Generate p buf t = Ok mac -> 2 <= zlen mac
}.

(** The fudge in force. *)
Definition fudge_of (k : TSIG) : Z := if ts_Fudge k =? 0 then 300 else ts_Fudge k.

Lemma Signs_same p k k' : same_key k k' -> Signs p k -> Signs p k'.
Proof.
  intros [E1 E2] [H1 H2 H3]. unfold same_key in *. constructor.
  - intros buf t' [? ?]. apply H1. split; congruence.
  - exact H2.
  - intros buf t1 t2 mac [? ?] [? ?]. apply H3; split; congruence.
Qed.

Lemma tsig_size t : signed_ok t -> ts_OtherLen t = 0 -> rr_size (TSIG_rr t) <= 4700.
Proof.
  intros Hok Ho. pose proof (signed_rdata_size t Hok) as Hd. pose proof (signed_rr_ok t Hok) as [Hrr _].
  pose proof Hrr as (((ls & (Hls & Hw & Hp) & Hn) & _) & _). unfold rr_size. rewrite (rr_len_ok _ ls) by done.
  destruct Hok as (_ & mac & _ & ? & ?). cbn [TSIG_rr struct data] in *. lia.
Qed.

(** A message [m] without records in its additional section, and with the
    stub [reply_tsig] of the key [k]. *)
Definition plain_ok (m : Msg) : Prop := msg_ok m /\ Extra m = [] /\ Rcode (hdr m) = 0.

Definition stub (m : Msg) (k : TSIG) (now : Z) : Msg := set_Extra (Extra m ++ [TSIG_rr (reply_tsig m k now)]) m.

Lemma plain_packed m : plain_ok m -> packed_msg m = m /\ rcode_fits m.
Proof.
  intros (_ & He & Hr). split; [unfold packed_msg; by rewrite He|]. unfold rcode_fits. rewrite Hr. lia.
Qed.

Lemma stub_signable p m k now : plain_ok m -> session_ok p k -> 0 < now < 2 ^ 48 -> signable p m (reply_tsig m k now) now.
Proof.
  intros Hm [Hn Ha Hf Hs _] Hnow. pose proof (plain_packed m Hm) as [_ Hfit]. destruct Hm as (Hm & He & Hr).
  constructor; rewrite ?He, ?Hr; try done.
  - constructor.
  - pose proof Hm as (Hid & _). unfold tsig_ok, tsig_defaults, reply_tsig.
    cbn [ts_Hdr ts_Algorithm ts_TimeSigned ts_Fudge ts_OrigId ts_Error ts_OtherLen ts_OtherData Rrtype Name Class_ Ttl].
    rewrite Z.mod_small by lia. rewrite (proj2 (Z.eqb_neq now 0)) by lia.
    split; [done|]. split; [split; [exact Hn|by split_and!]|]. split; [done|]. split; [unfold u48; lia|].
    split; [unfold u16 in *; case_match; lia|]. split; [exact Hid|]. split; [by unfold u16|].
    exists []. by split_and!.
  - lia.
  - eapply Signs_same; [|exact Hs]. by split.
Qed.

(** The message as it arrives. *)
Definition arrives (m m' : Msg) : Prop :=
  hdr m' = hdr m /\ Question_ m' = Question_ m /\ Forall2 rr_read (Answer m) (Answer m') /\ Forall2 rr_read (Ns m) (Ns m').

Lemma signed_message p m k requestMAC timersOnly now : plain_ok m -> session_ok p k -> 0 < now < 2 ^ 48 -> mac_ok requestMAC ->
  msg_size m + 4700 <= MaxMsgSize ->
  exists b mac m' k', 
    (TsigGenerateWithProvider (stub m k now) p requestMAC timersOnly now).2 = Ok (b, hex_EncodeToString mac) /\
    zlen b <= MaxMsgSize /\ mac_ok (hex_EncodeToString mac) /\
    (forall now', 0 <= now' < 2 ^ 64 -> Z.abs (now' - now) <= fudge_of k -> tsigVerify b p requestMAC timersOnly now' now' = Ok tt) /\
    @Unpack error zero_msg b = Ok (m', None) /\ arrives m m' /\ @Msg_IsTsig error m' = Ok (Some k') /\
    same_key k k' /\ ts_Fudge k' = fudge_of k /\ ts_MAC k' = hex_EncodeToString mac /\
    exists rest, b = header_wire (set_Arcount 1 (wire_header m)) ++ rest.
Proof.
  intros Hm Hk Hnow Hmac Hsize. pose proof (plain_packed m Hm) as [Epk _].
  destruct (sign_and_verify p m (reply_tsig m k now) requestMAC timersOnly now) as (b & mac & H); [by apply stub_signable|done|].
  cbv zeta in H. rewrite Epk in H. set (T := with_mac mac _) in *.
  destruct H as (Eg & Ev & Eu & Hs & Hb & [buf Hmac2] & rest & Er). destruct (Eu zero_msg) as (m' & Em & Hr).
  exists b, mac, m'. destruct Hr as (Hh & Hq & Ha & Hn & He). cbn [with_tsig hdr Question_ Answer Ns Extra] in *.
  pose proof Hm as (Hok & He0 & Hr0). rewrite He0 in He. cbn [app] in He. 
  apply Forall2_cons_inv_l in He as (r & l & Hr & Hl & He'). apply Forall2_nil_inv_l in Hl as ->.
  destruct (tsig_rr_read T r eq_refl Hr) as [n ->]. exists (received n T).
  pose proof (tsig_size T Hs eq_refl). split; [unfold stub; by rewrite Eg|]. split; [lia|].
  split; [right; exists mac; split; [done|by eapply ss_mac]|].
  split; [|split; [done|]].
  - intros now' H0 Hf. rewrite Ev by done. assert (ts_TimeSigned T = now) as ->.
    { cbn. rewrite Z.mod_small by lia. by rewrite (proj2 (Z.eqb_neq _ _)) by lia. }
    change (ts_Fudge T) with (fudge_of k). by rewrite (proj2 (Z.ltb_ge _ _)).
  - split.
    { split; [|done]. rewrite Hh. cbn. by destruct (hdr m). }
    split. { unfold Msg_IsTsig. rewrite He'. reflexivity. }
    split; [by split|]. split; [done|]. split; [done|]. exists rest. rewrite Er. do 2 f_equal.
    rewrite with_tsig_header by (exact Hok || (rewrite He0; reflexivity)). rewrite He0. reflexivity.
Qed.

(** ** Writer and reader in step *)

Section Session.
Context (session : option (TsigProvider * TSIG)).
Context (session_good : forall p k, session = Some (p, k) -> session_ok p k).

#[local] Abbreviation tp := (fst <$> session).

Definition with_stub (m : Msg) (now : Z) : Msg := match session with Some (_, k) => stub m k now | None => m end.

(** The reader's clock agrees with the writer's to within the fudge. *)
Definition clocks_agree (now now' : Z) : Prop :=
  0 < now < 2 ^ 48 /\ 0 <= now' < 2 ^ 64 /\ forall p k, session = Some (p, k) -> Z.abs (now' - now) <= fudge_of k.

Definition in_step (requestMAC : bytes) (timersOnly : bool) (t : Transfer) : Prop :=
  xfr_tsigRequestMAC t = requestMAC /\ xfr_tsigTimersOnly t = timersOnly /\ mac_ok requestMAC.

Definition open_tcp (w : response) : Prop := net w = TCP /\ closed w = false /\ tsigStatus w = None.

(** The room for a signature that [Out] assumes. *)
Definition fits_transfer (m : Msg) : Prop := plain_ok m /\ msg_size m + 4700 <= MaxMsgSize.

Lemma plain_message m : fits_transfer m -> exists b m', (Pack m).2 = Ok b /\ zlen b <= MaxMsgSize /\
  @Unpack error zero_msg b = Ok (m', None) /\ arrives m m' /\ Extra m' = [] /\ exists rest, b = header_wire (wire_header m) ++ rest.
Proof.
  intros [Hm Hsize]. pose proof (plain_packed m Hm) as [Epk Hfit]. destruct Hm as (Hok & He & Hr).
  destruct (@PackBuffer_layout error m [] Hok Hfit) as (wq & wa & wn & we & E & Hsz & _ & Hl). cbv zeta in *. rewrite Epk in *.
  destruct (@Unpack_layout error m zero_msg wq wa wn we [] Hok) as (m' & Eu & (Hh & Hq & Ha & Hn & He') & _).
  { unfold rcode_carried. rewrite He, Hr. cbn. lia. }
  { apply Hl, header_wire_length. }
  rewrite app_nil_r in Eu. eexists _, m'. split; [unfold Pack; by rewrite E|]. split; [lia|]. split; [done|].
  split; [done|]. split; [|by eexists]. rewrite He in He'. by apply Forall2_nil_inv_l in He'.
Qed.

(** One message: written with the state of the response writer, read with the
    state of the transfer. *)
Lemma write_then_read m w t now now' : fits_transfer m -> clocks_agree now now' -> open_tcp w ->
  in_step (tsigRequestMAC w) (tsigTimersOnly w) t ->
  exists b w1 m' t1,
    response_WriteMsg tp now (with_stub m now) w = Ok (w1, None) /\ open_tcp w1 /\ sent w1 = sent w ++ [frame b] /\
    (forall rest, Transfer_ReadMsg tp now' t (frame b ++ rest) = Ok (inl m', t1, rest)) /\
    in_step (tsigRequestMAC w1) (tsigTimersOnly w) t1 /\ tsigTimersOnly w1 = tsigTimersOnly w /\ arrives m m'.
Proof.
  intros Hm (Hnow & Hnow' & Hf) (Hn & Hc & Hst) (Et & Ef & Hmac). unfold response_WriteMsg, with_stub. rewrite Hc.
  destruct session as [[p k]|] eqn:Es; cbn [fmap option_fmap option_map fst].
  - destruct Hm as [Hm Hsize]. pose proof (session_good p k eq_refl) as Hk.
    destruct (signed_message p m k (tsigRequestMAC w) (tsigTimersOnly w) now) as
      (b & mac & m' & k' & Eg & Hb & Hmac' & Ev & Eu & Ha & Ets & _ & _ & Emac & _); [done..|].
    exists b, (writes_one b (set_RequestMAC (hex_EncodeToString mac) w)), m', (MkTransfer (ts_MAC k') (xfr_tsigTimersOnly t)).
    split.
    { assert (@Msg_IsTsig error (stub m k now) = Ok (Some (reply_tsig m k now))) as -> by by apply Msg_IsTsig_snoc.
      gosimp. rewrite Eg. by rewrite response_Write_ok. }
    split; [done|]. split; [unfold writes_one; cbn; by rewrite Hn|]. split.
    { intros rest. unfold Transfer_ReadMsg. rewrite Conn_Read_frame, Eu by done. gosimp.
      rewrite Et, Ef, Ev by (done || by apply (Hf p k)). cbn [attempt]. gosimp. rewrite Ets. by gosimp. }
    split; [|done]. split; [done|]. by split.
  - destruct (plain_message m Hm) as (b & m' & Ep & Hb & Eu & Ha & He & _).
    exists b, (writes_one b w), m', t. split.
    { destruct (Pack m) as [m1 r]. cbn in Ep. subst r. by rewrite response_Write_ok. }
    split; [done|]. split; [unfold writes_one; cbn; by rewrite Hn|]. split; [|by split].
    intros rest. unfold Transfer_ReadMsg. rewrite Conn_Read_frame, Eu by done. by gosimp.
Qed.
(** The messages that stand on a stream, read one after the other from message
    [i] on, the timers-only flag set after the first. *)
Fixpoint delivered (clock : nat -> Z) (i : nat) (t : Transfer) (ms : list Msg) (stream : bytes) : Prop :=
  match ms with
  | [] => stream = []
  | m :: ms => exists b stream' t1, stream = frame b ++ stream' /\
      (forall rest, Transfer_ReadMsg tp (clock i) t (frame b ++ rest) = Ok (inl m, t1, rest)) /\
      delivered clock (S i) (timers_only t1) ms stream'
  end.

Lemma delivered_length clock ms : forall i t stream, delivered clock i t ms stream -> (length ms <= length stream)%nat.
Proof.
  induction ms as [|m ms IH]; intros i t stream; cbn [delivered length]; [lia|].
  intros (b & stream' & t1 & -> & _ & H%IH). unfold frame. rewrite !length_app. pose proof (be_length 2 (zlen b)). unfold zlen in *. lia.
Qed.

Lemma Out_delivers q cs cc xs : (forall i, clocks_agree (cs i) (cc i)) ->
  @Msg_IsTsig error q = Ok (snd <$> session) -> Forall (fun x => fits_transfer (out_reply q x)) xs ->
  forall i w t, open_tcp w -> in_step (tsigRequestMAC w) (tsigTimersOnly w) t ->
  exists w' ms stream, Out tp cs i q xs w = Ok (w', None) /\ concat (sent w') = concat (sent w) ++ stream /\
    delivered cc i t ms stream /\ Forall2 (fun x m => arrives (out_reply q x) m) xs ms.
Proof.
  intros Hclocks Hq. induction 1 as [|x xs Hx _ IH]; intros i w t Hw Ht.
  { exists w, [], []. split; [done|]. split; [by rewrite app_nil_r|]. by split. }
  destruct (write_then_read _ w t (cs i) (cc i) Hx) as (b & w1 & m & t1 & Ewr & Hw1 & Hs1 & Hr & Ht1 & Hto & Ha); [done..|].
  destruct (IH (S i) (set_TsigTimersOnly true w1) (timers_only t1)) as (w' & ms & stream & Eo & Hs & Hd & Hms);
    [exact Hw1|by destruct Ht1 as (? & _ & ?)|].
  exists w', (m :: ms), (frame b ++ stream). cbn [Out]. rewrite Hq. gosimp.
  assert (match snd <$> session, tsigStatus w with
          | Some k, None => set_Extra (Extra (out_reply q x) ++ [TSIG_rr (reply_tsig (out_reply q x) k (cs i))]) (out_reply q x)
          | _, _ => out_reply q x end = with_stub (out_reply q x) (cs i)) as ->.
  { destruct Hw as (_ & _ & ->). unfold with_stub. by destruct session as [[? ?]|]. }
  rewrite Ewr. gosimp. rewrite Eo. split; [done|]. split.
  - rewrite Hs. cbn [set_TsigTimersOnly sent]. rewrite Hs1, concat_app. cbn [concat]. by rewrite app_nil_r, <- app_assoc.
  - split; [by exists b, stream, t1|by constructor].
Qed.

(** ** AXFR *)

(** The types of the records of each message end a transfer exactly at the
    last message. *)
Fixpoint axfr_cut (first : bool) (xs : list (list Z)) : bool :=
  match xs with
  | [] => false
  | x :: xs =>
      if first && negb (match x with t :: _ => t =? TypeSOA | [] => false end) then false else
      if first && (zlen x =? 1) then axfr_cut false xs else
      if match last x with Some t => t =? TypeSOA | None => false end then bool_decide (xs = []) else axfr_cut false xs
  end.

Definition rrtypes (l : list RR) : list Z := map (fun r => Rrtype (Hdr r)) l.

Lemma zlen_rrtypes l : zlen (rrtypes l) = zlen l.
Proof. unfold zlen, rrtypes. by rewrite length_map. Qed.

Lemma isSOAFirst_types m : isSOAFirst m = match rrtypes (Answer m) with t :: _ => t =? TypeSOA | [] => false end.
Proof. unfold isSOAFirst. by destruct (Answer m). Qed.

Lemma isSOALast_types m : isSOALast m = match last (rrtypes (Answer m)) with Some t => t =? TypeSOA | None => false end.
Proof. unfold isSOALast, rrtypes. rewrite fmap_last. by destruct (last (Answer m)). Qed.

(** The envelopes of messages that all count. *)
Definition envelopes (ms : list Msg) : list Envelope := map (fun m => MkEnvelope (Answer m) None) ms.
Definition answers_to (id : Z) (m : Msg) : Prop := Id (hdr m) = id /\ Rcode (hdr m) = RcodeSuccess.

Lemma inAxfr_delivered clock id ms : Forall (answers_to id) ms -> forall fuel i first t stream,
  delivered clock i t ms stream -> axfr_cut first (map (fun m => rrtypes (Answer m)) ms) = true -> (length ms <= fuel)%nat ->
  exists t', inAxfr_loop tp clock fuel i id first t stream = Ok (envelopes ms, t', []).
Proof.
  induction 1 as [|m ms [Hid Hrc] _ IH]; intros fuel i first t stream Hd Hc Hf; [done|].
  destruct Hd as (b & stream' & t1 & -> & Hr & Hd). destruct fuel as [|fuel]; [cbn in Hf; lia|]. cbn [inAxfr_loop].
  rewrite Hr. gosimp. rewrite Hid, Hrc, Z.eqb_refl. cbn [negb]. rewrite Z.eqb_refl, andb_false_r.
  rewrite isSOAFirst_types, isSOALast_types. cbn [map axfr_cut] in Hc. rewrite zlen_rrtypes in Hc.
  destruct (first && negb _); [done|].
  assert (axfr_cut false (map (fun m => rrtypes (Answer m)) ms) = true ->
    exists t', ('(envs, t, stream) ← inAxfr_loop tp clock fuel (S i) id false (timers_only t1) stream';
      Ok (MkEnvelope (Answer m) None :: envs, t, stream)) = Ok (envelopes (m :: ms), t', [])) as Hsend.
  { intros Hc'. destruct (IH fuel (S i) false (timers_only t1) stream') as [t' E]; [done..|cbn in Hf; lia|].
    rewrite E. by exists t'. }
  destruct (first && _); [by apply Hsend|]. destruct (match last _ with Some _ => _ | None => _ end); [|by apply Hsend].
  apply bool_decide_eq_true, map_eq_nil in Hc as ->. cbn in Hd. subst. by eexists.
Qed.
(** ** IXFR *)

(** The records of each message end an incremental transfer exactly at the last
    message, in the state [n], [axfr] of the loop. *)
Fixpoint ixfr_cut (serial : Z) (xs : list (list RR)) (n : Z) (axfr : bool) : bool :=
  match xs with
  | [] => false
  | x :: xs => let '(done, n, axfr) := scan_soa serial x n axfr in if done then bool_decide (xs = []) else ixfr_cut serial xs n axfr
  end.

Lemma scan_soa_grows serial l : forall n axfr d n' axfr', scan_soa serial l n axfr = (d, n', axfr') -> n <= n'.
Proof.
  induction l as [|r l IH]; intros n axfr d n' axfr'; cbn [scan_soa]; [intros [= _ <- _]; lia|].
  destruct (as_SOA r) as [v|]; [|apply IH]. destruct (v =? serial); [|apply IH].
  cbv zeta. destruct (_ || _); [intros [= _ <- _]; lia|]. intros H%IH. lia.
Qed.

Lemma inIxfr_delivered clock id qser serial ms : Forall (answers_to id) ms -> forall fuel i n axfr t stream, 0 < n ->
  delivered clock i t ms stream -> ixfr_cut serial (map Answer ms) n axfr = true -> (length ms <= fuel)%nat ->
  exists t', inIxfr_loop tp clock fuel i id qser serial n axfr t stream = Ok (envelopes ms, t', []).
Proof.
  induction 1 as [|m ms [Hid Hrc] _ IH]; intros fuel i n axfr t stream Hn Hd Hc Hf; [done|].
  destruct Hd as (b & stream' & t1 & -> & Hr & Hd). destruct fuel as [|fuel]; [cbn in Hf; lia|]. cbn [inIxfr_loop].
  rewrite Hr. gosimp. rewrite Hid, Hrc, !Z.eqb_refl. cbn [negb]. rewrite (proj2 (Z.eqb_neq n 0)) by lia.
  cbn [map ixfr_cut] in Hc. destruct (scan_soa serial (Answer m) n axfr) as [[d n'] axfr'] eqn:Es. cbv zeta.
  pose proof (scan_soa_grows _ _ _ _ _ _ _ Es). destruct d.
  - apply bool_decide_eq_true, map_eq_nil in Hc as ->. cbn in Hd. subst. by eexists.
  - destruct (IH fuel (S i) n' axfr' (timers_only t1) stream') as [t' E]; [lia|done..|cbn in Hf; lia|].
    rewrite E. by exists t'.
Qed.

Lemma inIxfr_first clock id qser serial m ms : Forall (answers_to id) (m :: ms) -> forall fuel t stream,
  delivered clock 0 t (m :: ms) stream -> isSOAFirst m = true -> head (Answer m) ≫= as_SOA = Some serial -> qser < serial ->
  ixfr_cut serial (map Answer (m :: ms)) 0 true = true -> (length ms < fuel)%nat ->
  exists t', inIxfr_loop tp clock fuel 0 id qser 0 0 true t stream = Ok (envelopes (m :: ms), t', []).
Proof.
  intros [[Hid Hrc] Hms]%Forall_cons fuel t stream Hd Hfst Hser Hlt Hc Hf.
  destruct Hd as (b & stream' & t1 & -> & Hr & Hd). destruct fuel as [|fuel]; [lia|]. cbn [inIxfr_loop].
  rewrite Hr. gosimp. rewrite Hid, Hrc, !Z.eqb_refl, Hfst, Hser. cbn [negb]. rewrite (proj2 (Z.leb_gt _ _)) by done.
  cbn [map ixfr_cut] in Hc. destruct (Answer m) as [|r l] eqn:Ea; [done|]. cbn [head mbind option_bind] in Hser.
  assert (scan_soa serial (r :: l) 0 true = scan_soa serial l 1 true) as Es by (cbn [scan_soa]; by rewrite Hser, Z.eqb_refl).
  rewrite Es in *. destruct (scan_soa serial l 1 true) as [[d n'] axfr'] eqn:Es'. cbv zeta.
  pose proof (scan_soa_grows _ _ _ _ _ _ _ Es'). unfold envelopes. cbn [map]. rewrite Ea. destruct d.
  - apply bool_decide_eq_true, map_eq_nil in Hc as ->. cbn in Hd. subst. by eexists.
  - destruct (inIxfr_delivered clock id qser serial ms Hms fuel 1 n' axfr' (timers_only t1) stream') as [t' E]; [lia|done..|lia|].
    rewrite E. by exists t'.
Qed.

(** ** The request *)

Definition request_ok (q : Msg) : Prop :=
  fits_transfer q /\ Response (hdr q) = false /\ Opcode (hdr q) = OpcodeQuery /\ zlen (Question_ q) = 1 /\ Answer q = [] /\ zlen (Ns q) <= 1.

Lemma accepts_header dh : Response (setHdr dh) = false -> Opcode (setHdr dh) = OpcodeQuery -> Qdcount dh = 1 -> Ancount dh <= 1 ->
  Nscount dh <= 1 -> Arcount dh <= 2 -> defaultMsgAcceptFunc dh = MsgAccept.
Proof.
  unfold setHdr. cbn [Response Opcode]. intros Hr%negb_false_iff Ho Hq Ha Hn Hx. unfold defaultMsgAcceptFunc. rewrite Hr, Ho, Hq.
  cbn [negb andb]. by rewrite !(proj2 (Z.ltb_ge _ _)) by lia.
Qed.

(** The server accepts [q] with at most one record in the additional section,
    and hands what [Unpack] reads to the handler. *)
Lemma serveDNS_accepts q n clock ServeDNS b now w m rest : request_ok q -> 0 <= n <= 1 ->
  b = header_wire (set_Arcount n (wire_header q)) ++ rest -> @Unpack error zero_msg b = Ok (m, None) ->
  serveDNS tp clock defaultMsgAcceptFunc ServeDNS b now w =
    (let w := set_tsigStatus None w in
     w ← (match tp with
          | None => Ok w
          | Some p =>
              t ← Msg_IsTsig m;
              match t with
              | None => Ok w
              | Some t =>
                  st ← attempt (tsigVerify b p [] false now clock);
                  Ok (set_RequestMAC (ts_MAC t) (set_TsigTimersOnly false
                        (set_tsigStatus (match st with inl _ => None | inr e => Some e end) w)))
              end
          end);
     w ← ServeDNS w m; Ok (w, None)).
Proof.
  intros (((Hok & _) & _) & Hr & Hop & Hq & Ha & Hn) Hx -> Eu. destruct (wire_header_ok q Hok) as [Hu Eset].
  set (dh := set_Arcount n (wire_header q)) in *.
  assert (header_u16 dh) as Hdh. { destruct Hu as (? & ? & ? & ? & ? & _). do 5 (split; [done|]). unfold u16. change (Arcount dh) with n. lia. }
  pose proof (unpackMsgHdr_ok dh rest Hdh) as Eh. unfold Unpack in Eu. rewrite Eh in Eu. cbn [attempt mbind res_bind] in Eu.
  unfold serveDNS. rewrite Eh. cbn [attempt]. gosimp. rewrite Eu.
  change (setHdr dh) with (setHdr (wire_header q)). rewrite (accepts_header dh).
  - gosimp. done.
  - change (setHdr dh) with (setHdr (wire_header q)). by rewrite Eset.
  - change (setHdr dh) with (setHdr (wire_header q)). by rewrite Eset.
  - change (zlen (Question_ q) mod 65536 = 1). by rewrite Hq.
  - change (zlen (Answer q) mod 65536 <= 1). by rewrite Ha.
  - change (zlen (Ns q) mod 65536 <= 1). pose proof (zlen_nonneg (Ns q)). rewrite Z.mod_small; lia.
  - cbn. lia.
Qed.
End Session.

(** ** Client and server *)

(** A handler that answers with the transfer [xs], as the examples of xfr.go. *)
Definition transfer_handler (tp : option TsigProvider) (clock : nat -> Z) (xs : list (list RR)) (w : response) (r : Msg) : res error response :=
  '(w, _) ← Out tp clock 0 r xs w; Ok w.

(** A server that reads one request from the stream; what it writes. *)
Definition serve_once (tp : option TsigProvider) (ServeDNS : response -> Msg -> res error response) (now : Z) (stream : bytes) : bytes :=
  match readTCP stream with
  | Ok (m, _) =>
      match serveDNS tp now defaultMsgAcceptFunc ServeDNS m now (new_response TCP) with
      | Ok (w, _) => concat (sent w)
      | _ => []
      end
  | _ => []
  end.

Section ClientServer.
Context (session : option (TsigProvider * TSIG)).
Context (session_good : forall p k, session = Some (p, k) -> session_ok p k).
(** The client's clock when it asks, the server's when it reads the request,
    and both for the [i]-th message of the answer. *)
Context (asked served_at : Z) (cs cc : nat -> Z).
Context (request_clocks : clocks_agree session asked served_at).
Context (answer_clocks : forall i, clocks_agree session (cs i) (cc i)).

#[local] Abbreviation tp := (fst <$> session).

Lemma out_reply_arrives q q' x : arrives q q' -> out_reply q' x = out_reply q x.
Proof. intros (Hh & Hq & _). unfold out_reply. by rewrite Hh, Hq. Qed.

Lemma transfer_stream q xs : request_ok q -> Forall (fun x => fits_transfer (out_reply q x)) xs ->
  exists out t ms, Transfer_WriteMsg tp asked (with_stub session q asked) new_transfer = Ok (out, t) /\
    delivered session cc 0 t ms (serve_once tp (transfer_handler tp cs xs) served_at out) /\
    Forall2 (fun x m => arrives (out_reply q x) m) xs ms.
Proof.
  intros Hq Hxs. pose proof Hq as ([Hm Hsize] & _). unfold Transfer_WriteMsg, with_stub. destruct request_clocks as (Hnow & Hnow' & Hf).
  destruct session as [[p k]|] eqn:Es; cbn [fmap option_fmap option_map fst].
  - pose proof (session_good p k eq_refl) as Hk.
    destruct (signed_message p q k [] false asked Hm Hk Hnow) as
      (b & mac & req & k' & Eg & Hb & Hmac' & Ev & Eu & Ha & Ets & Hkk & Hff & Emac & rest & Er); [by left|done|].
    assert (fudge_of k' = fudge_of k) as Hfk.
    { unfold fudge_of at 1. rewrite Hff. unfold fudge_of. destruct (Z.eqb_spec (ts_Fudge k) 0) as [|Hne]; [done|].
      by rewrite (proj2 (Z.eqb_neq _ _) Hne). }
    assert (session_ok p k') as Hk'.
    { destruct Hk as [N A F S M]. pose proof Hkk as [E1 E2]. constructor; rewrite ?E1, ?E2; try done.
      - rewrite Hff. unfold fudge_of, u16 in F |- *. destruct (ts_Fudge k =? 0); lia.
      - by eapply Signs_same. }
    set (w1 := set_RequestMAC (hex_EncodeToString mac) (set_TsigTimersOnly false (set_tsigStatus None (new_response TCP)))).
    destruct (Out_delivers (Some (p, k')) ltac:(by intros ? ? [= <- <-]) req cs cc xs) with (i := 0%nat) (w := w1)
      (t := MkTransfer (hex_EncodeToString mac) false) as (w' & ms & stream & Eo & Hs & Hd & Hms); [| | |done|by split|].
    { intros i. destruct (answer_clocks i) as (C1 & C2 & C3). split; [done|]. split; [done|]. intros ? ? [= <- <-].
      rewrite Hfk. by apply (C3 p k). }
    { done. }
    { eapply Forall_impl; [exact Hxs|]. intros x. by rewrite (out_reply_arrives q req). }
    exists (frame b), (MkTransfer (hex_EncodeToString mac) false), ms. split; [|split].
    + assert (@Msg_IsTsig error (stub q k asked) = Ok (Some (reply_tsig q k asked))) as -> by by apply Msg_IsTsig_snoc.
      gosimp. change (xfr_tsigRequestMAC new_transfer) with (@nil byte). change (xfr_tsigTimersOnly new_transfer) with false. rewrite Eg. gosimp.
      unfold Conn_Write. rewrite (proj2 (Z.ltb_ge _ _) Hb). by gosimp.
    + unfold serve_once. rewrite <- (app_nil_r (frame b)), readTCP_frame by done.
      pose proof (serveDNS_accepts (Some (p, k)) q 1 served_at (transfer_handler (Some p) cs xs) b served_at (new_response TCP) req rest
        Hq ltac:(lia) Er Eu) as E. cbn [fmap option_fmap option_map fst] in E. rewrite E. cbv zeta. rewrite Ets. gosimp.
      rewrite (Ev served_at) by (done || by apply (Hf p k)). cbn [attempt]. gosimp. rewrite Emac.
      change (set_RequestMAC _ _) with w1. unfold transfer_handler. 
      cbn [fmap option_fmap option_map fst] in Eo. rewrite Eo. gosimp. rewrite Hs. exact Hd.
    + eapply Forall2_impl; [exact Hms|]. intros x m Hx. by rewrite <- (out_reply_arrives q req).
  - destruct (plain_message q (conj Hm Hsize)) as (b & req & Ep & Hb & Eu & Ha & He & rest & Er).
    destruct (Out_delivers None ltac:(done) req cs cc xs) with (i := 0%nat) (w := set_tsigStatus None (new_response TCP))
      (t := new_transfer) as (w' & ms & stream & Eo & Hs & Hd & Hms); [done| | |done|by split; [|split; [|left]]|].
    { unfold Msg_IsTsig. by rewrite He. }
    { eapply Forall_impl; [exact Hxs|]. intros x. by rewrite (out_reply_arrives q req). }
    exists (frame b), new_transfer, ms. split; [|split].
    + unfold Msg_IsTsig. destruct Hm as (_ & He0 & _). rewrite He0. gosimp. rewrite Ep. gosimp.
      unfold Conn_Write. rewrite (proj2 (Z.ltb_ge _ _) Hb). by gosimp.
    + unfold serve_once. rewrite <- (app_nil_r (frame b)), readTCP_frame by done.
      assert (b = header_wire (set_Arcount 0 (wire_header q)) ++ rest) as Er'.
      { rewrite Er. do 2 f_equal. destruct Hm as (_ & He0 & _). unfold wire_header, set_Arcount. by rewrite He0. }
      pose proof (serveDNS_accepts None q 0 served_at (transfer_handler None cs xs) b served_at (new_response TCP) req rest
        Hq ltac:(lia) Er' Eu) as E. cbn [fmap option_fmap option_map fst] in E. rewrite E. cbv zeta. gosimp.
      unfold transfer_handler. cbn [fmap option_fmap option_map fst] in Eo. rewrite Eo. gosimp. rewrite Hs. exact Hd.
    + eapply Forall2_impl; [exact Hms|]. intros x m Hx. by rewrite <- (out_reply_arrives q req).
Qed.
End ClientServer.

(** ** What the messages carry *)

(** The records of an AXFR answer: the zone between two SOA records. *)
Definition axfr_answer (rrs : list RR) : Prop :=
  exists soa zone soa', rrs = soa :: zone ++ [soa'] /\ Rrtype (Hdr soa) = TypeSOA /\ Rrtype (Hdr soa') = TypeSOA /\
    Forall (fun r => Rrtype (Hdr r) <> TypeSOA) zone.

(** [xs] is a cut of [rrs] into messages, the first and the last not empty. *)
Definition cut (rrs : list RR) (xs : list (list RR)) : Prop :=
  concat xs = rrs /\ head xs <> Some [] /\ last xs <> Some [].

Lemma axfr_cut_rest xs : forall l r, concat xs = l ++ [r] -> Rrtype (Hdr r) = TypeSOA -> Forall (fun r => Rrtype (Hdr r) <> TypeSOA) l ->
  last xs <> Some [] -> axfr_cut false (map rrtypes xs) = true.
Proof.
  induction xs as [|x xs IH]; intros l r Hc Hr Hl Hlast; [by destruct l|]. cbn [concat] in Hc.
  apply concat_first in Hc as [[-> ->]|(Hne & y & -> & Hc)]; [| |by eapply last_cons_cases]; cbn [map axfr_cut andb].
  - unfold rrtypes. rewrite map_app. cbn [map]. by rewrite last_snoc, Hr.
  - apply Forall_app in Hl as [Hx Hy]. assert (match last (rrtypes x) with Some t => t =? TypeSOA | None => false end = false) as ->.
    { unfold rrtypes. rewrite fmap_last. destruct (last x) as [z|] eqn:E; [|done]. apply last_Some_elem_of in E.
      rewrite Forall_forall in Hx. cbn. apply Z.eqb_neq, Hx, E. }
    eapply IH; [done..|]. apply last_cons_cases in Hlast as [->|?]; done.
Qed.

Lemma axfr_answer_cut rrs xs : axfr_answer rrs -> cut rrs xs -> axfr_cut true (map rrtypes xs) = true.
Proof.
  intros (soa & zone & soa' & -> & Hs & Hs' & Hz) (Hc & Hh & Hl). destruct xs as [|[|a x] xs]; [done..|].
  cbn [concat] in Hc. injection Hc as -> Hc. cbn [map axfr_cut rrtypes]. fold (rrtypes x). rewrite Hs. cbn [negb andb].
  change (zlen (TypeSOA :: rrtypes x) =? 1) with (zlen (TypeSOA :: rrtypes x) =? 1). rewrite zlen_cons, zlen_rrtypes.
  change (TypeSOA =? TypeSOA) with true. cbn [negb]. apply last_cons_cases in Hl.
  apply concat_first in Hc as [[-> ->]|(Hne & y & -> & Hc)]; [| |exact Hl].
  - rewrite zlen_app. pose proof (zlen_nonneg zone). change (zlen [soa']) with 1. rewrite (proj2 (Z.eqb_neq _ _)) by lia.
    unfold rrtypes. rewrite map_app. cbn [map]. rewrite app_comm_cons, last_snoc, Hs'. done.
  - apply Forall_app in Hz as [Hx Hy]. assert (axfr_cut false (map rrtypes xs) = true) as Hrest.
    { eapply axfr_cut_rest; [done..|]. by destruct Hl as [->|?]. }
    case_match eqn:E1; [done|]. rewrite Hrest.
    assert (match last (TypeSOA :: rrtypes x) with Some t => t =? TypeSOA | None => false end = false) as ->; [|done].
    destruct x as [|b x _] using rev_ind; [done|]. unfold rrtypes. rewrite map_app. cbn [map]. rewrite app_comm_cons, last_snoc.
    apply Z.eqb_neq. apply Forall_app in Hx as [_ Hx]. by apply Forall_cons in Hx as [? _].
Qed.

(** One version of the zone made from the version before: the old SOA, the
    records removed, the new SOA, the records added. *)
Record diff := MkDiff { d_old : RR; d_dels : list RR; d_new : RR; d_adds : list RR }.
Definition diff_rrs (d : diff) : list RR := d_old d :: d_dels d ++ d_new d :: d_adds d.

Definition no_soa (l : list RR) : Prop := Forall (fun r => as_SOA r = None) l.
Definition diff_ok (serial : Z) (d : diff) : Prop :=
  (exists v, as_SOA (d_old d) = Some v /\ v <> serial) /\ no_soa (d_dels d) /\ no_soa (d_adds d).

(** The records of an IXFR answer with the current serial: differences, the
    last of which ends at the current version, or the whole zone. *)
Inductive ixfr_answer (serial : Z) : list RR -> Prop :=
| ixfr_diffs soa ds d soa' : as_SOA soa = Some serial -> as_SOA soa' = Some serial ->
    Forall (fun d => diff_ok serial d /\ exists v, as_SOA (d_new d) = Some v /\ v <> serial) ds ->
    diff_ok serial d -> as_SOA (d_new d) = Some serial ->
    ixfr_answer serial (soa :: concat (map diff_rrs ds) ++ diff_rrs d ++ [soa'])
| ixfr_zone soa zone soa' : as_SOA soa = Some serial -> as_SOA soa' = Some serial -> no_soa zone ->
    ixfr_answer serial (soa :: zone ++ [soa']).

Lemma scan_soa_app serial l1 : forall l2 n axfr, scan_soa serial (l1 ++ l2) n axfr =
  let '(d, n', axfr') := scan_soa serial l1 n axfr in if d then (d, n', axfr') else scan_soa serial l2 n' axfr'.
Proof.
  induction l1 as [|r l1 IH]; intros l2 n axfr; [done|]. cbn [scan_soa app]. destruct (as_SOA r) as [v|]; [|apply IH].
  destruct (v =? serial); [|apply IH]. cbv zeta. destruct (_ || _); [done|apply IH].
Qed.

Lemma scan_no_soa serial l n axfr : no_soa l -> scan_soa serial l n axfr = (false, n, axfr).
Proof. induction 1 as [|r l Hr _ IH]; [done|]. cbn [scan_soa]. by rewrite Hr. Qed.

(** A difference, after the first SOA. *)
Lemma scan_diff serial d n axfr v : diff_ok serial d -> as_SOA (d_new d) = Some v -> n = 1 ->
  scan_soa serial (diff_rrs d) n axfr = (false, if v =? serial then 2 else 1, false).
Proof.
  intros ((o & Ho & Hne) & Hd & Ha) Hv ->. unfold diff_rrs. cbn [scan_soa]. rewrite Ho, (proj2 (Z.eqb_neq _ _) Hne).
  rewrite scan_soa_app, scan_no_soa by done. cbn [scan_soa]. rewrite Hv.
  destruct (v =? serial); destruct axfr; cbn; by apply scan_no_soa.
Qed.

(** The loop ends at the last record of an answer and not before. *)
Lemma scan_answer serial rrs : ixfr_answer serial rrs -> exists soa l r n axfr,
  rrs = soa :: l ++ [r] /\ as_SOA soa = Some serial /\
  scan_soa serial (soa :: l) 0 true = (false, n, axfr) /\ exists n', scan_soa serial [r] n axfr = (true, n', axfr).
Proof.
  intros [soa ds d soa' Hs Hs' Hds Hd Hv|soa zone soa' Hs Hs' Hz].
  - exists soa, (concat (map diff_rrs ds) ++ diff_rrs d), soa', 2, false. rewrite <- app_assoc. split; [done|]. split; [done|]. split.
    + cbn [scan_soa]. rewrite Hs, Z.eqb_refl. change (0 + 1) with 1. change ((true && (1 =? 2)) || (1 =? 3)) with false. cbv iota zeta.
      assert (forall axfr, exists axfr', scan_soa serial (concat (map diff_rrs ds)) 1 axfr = (false, 1, axfr')) as Hall.
      { clear Hd Hv. induction Hds as [|e ds (He & v & Hv & Hne) _ IH]; intros axfr; [by exists axfr|]. cbn [map concat].
        rewrite scan_soa_app, (scan_diff serial e 1 axfr v) by done. rewrite (proj2 (Z.eqb_neq _ _) Hne). apply IH. }
      destruct (Hall true) as [axfr' E]. rewrite scan_soa_app, E, (scan_diff serial d 1 axfr' serial) by done. by rewrite Z.eqb_refl.
    + exists 3. cbn [scan_soa]. by rewrite Hs', Z.eqb_refl.
  - exists soa, zone, soa', 1, true. split; [done|]. split; [done|]. split.
    + cbn [scan_soa]. rewrite Hs, Z.eqb_refl. by apply scan_no_soa.
    + exists 2. cbn [scan_soa]. by rewrite Hs', Z.eqb_refl.
Qed.

Lemma ixfr_cut_concat serial xs : forall l r n axfr n' axfr' n'', concat xs = l ++ [r] -> last xs <> Some [] ->
  scan_soa serial l n axfr = (false, n', axfr') -> scan_soa serial [r] n' axfr' = (true, n'', axfr') -> ixfr_cut serial xs n axfr = true.
Proof.
  induction xs as [|x xs IH]; intros l r n axfr n' axfr' n'' Hc Hl Hs Hr; [by destruct l|]. cbn [concat] in Hc.
  apply last_cons_cases in Hl. cbn [ixfr_cut]. apply concat_first in Hc as [[-> ->]|(Hne & y & -> & Hc)]; [| |exact Hl].
  - by rewrite scan_soa_app, Hs, Hr.
  - rewrite scan_soa_app in Hs. destruct (scan_soa serial x n axfr) as [[[] n1] a1]; [done|].
    eapply IH; [done| |done..]. by destruct Hl.
Qed.

Lemma scan_soa_ext serial l l' : Forall2 (fun r r' => as_SOA r' = as_SOA r) l l' -> forall n axfr, scan_soa serial l' n axfr = scan_soa serial l n axfr.
Proof. induction 1 as [|r r' l l' Hr _ IH]; intros n axfr; [done|]. cbn [scan_soa]. rewrite Hr. by repeat case_match. Qed.

Lemma ixfr_cut_ext serial xs ys : Forall2 (Forall2 (fun r r' => as_SOA r' = as_SOA r)) xs ys ->
  forall n axfr, ixfr_cut serial ys n axfr = ixfr_cut serial xs n axfr.
Proof.
  induction 1 as [|x y xs ys Hx Hxs IH]; intros n axfr; [done|]. cbn [ixfr_cut]. rewrite (scan_soa_ext _ _ _ Hx).
  destruct (scan_soa _ _ _ _) as [[[] ?] ?]; [|apply IH]. apply Forall2_length in Hxs. by destruct xs, ys.
Qed.

(** ** Records keep their type and serial *)

Lemma rrtypes_read l l' : Forall2 rr_read l l' -> rrtypes l' = rrtypes l.
Proof. induction 1 as [|r r' l l' (n & _ & ->) _ IH]; [done|]. unfold rrtypes in *. cbn [map]. by rewrite IH. Qed.

(** A record whose struct is the one of its type. *)
Definition own_struct (r : RR) : Prop := struct_read r = struct r.

Lemma TypeToRR_code t k : TypeToRR t = Some k -> type_code k = Some t.
Proof.
  unfold TypeToRR. destruct (list_find _ _) as [[i k']|] eqn:E; [|done]. intros [= ->]. by apply list_find_Some in E as (_ & H & _).
Qed.

Lemma SOA_type r serial : own_struct r -> as_SOA r = Some serial -> Rrtype (Hdr r) = TypeSOA.
Proof.
  unfold own_struct, struct_read, as_SOA. intros Ho Hs. destruct (struct r); try done.
  destruct (TypeToRR _) as [k|] eqn:E; cbn in Ho; [subst k|done]. apply TypeToRR_code in E. by injection E.
Qed.

Lemma as_SOA_read r r' : rr_ok r -> own_struct r -> rr_read r r' -> as_SOA r' = as_SOA r.
Proof.
  intros (_ & _ & Hd & _) Ho (n & _ & ->). unfold as_SOA. cbn [struct data]. rewrite Ho. destruct (struct r) eqn:Es; try done.
  unfold data_read. rewrite Es. cbn [fields]. rewrite decide_False by done. unfold rdata_ok in Hd.
  unfold rdata_read. change (fields RR_SOA) with SOA_fields in *. set (ms := members_of _ _) in *. clearbody ms. unfold SOA_fields in *.
  repeat match goal with
  | H : Forall2 _ (_ :: _) _ |- _ => apply Forall2_cons_inv_l in H as (? & ? & ? & ? & ->)
  | H : Forall2 _ [] _ |- _ => apply Forall2_nil_inv_l in H as ->
  end.
  cbn [reads snd] in *. repeat match goal with H : field_ok _ _ ?v |- _ => destruct v; cbn in H; try done; clear H end.
Qed.

(** ** Theorems *)

(** What a transfer needs: the keys, clocks, request and answers. *)
Record transfer_ok (session : option (TsigProvider * TSIG)) (asked served_at : Z) (cs cc : nat -> Z) (q : Msg) (xs : list (list RR)) : Prop := {
  to_session : forall p k, session = Some (p, k) -> session_ok p k;
  to_request_clocks : clocks_agree session asked served_at;
  to_answer_clocks : forall i, clocks_agree session (cs i) (cc i);
  to_request : request_ok q;
  to_answers : Forall (fun x => fits_transfer (out_reply q x)) xs
}.

(** [In] of the client on an open connection to the server that runs [Out]. *)
Definition transfer (session : option (TsigProvider * TSIG)) (asked served_at : Z) (cs cc : nat -> Z) (q : Msg) (xs : list (list RR))
    : res error (list Envelope * Transfer * bytes) :=
  let tp := fst <$> session in
  In tp cc asked (with_stub session q asked) new_transfer (serve_once tp (transfer_handler tp cs xs) served_at).

(** Every envelope has the records of its message, and no error. *)
Definition received_all (xs : list (list RR)) (envs : list Envelope) : Prop :=
  Forall2 (fun x e => env_Error e = None /\ Forall2 rr_read x (env_RR e)) xs envs.

Lemma received_envelopes q xs ms : Forall2 (fun x m => arrives (out_reply q x) m) xs ms -> received_all xs (envelopes ms).
Proof. induction 1 as [|x m xs ms (_ & _ & Ha & _) _ IH]; constructor; [by split|exact IH]. Qed.

Lemma answers_ids q xs ms : Forall2 (fun x m => arrives (out_reply q x) m) xs ms -> Forall (answers_to (Id (hdr q))) ms.
Proof. induction 1 as [|x m xs ms (Hh & _) _ IH]; constructor; [unfold answers_to; by rewrite Hh|exact IH]. Qed.

Lemma axfr_core session asked served_at cs cc q qu xs rrs : transfer_ok session asked served_at cs cc q xs ->
  Question_ q = [qu] -> Qtype qu = TypeAXFR -> axfr_answer rrs -> cut rrs xs ->
  exists envs t, transfer session asked served_at cs cc q xs = Ok (envs, t, []) /\ received_all xs envs.
Proof.
  intros [Hs Hc1 Hc2 Hq Hxs] Hqu Hty Hans Hcut. unfold transfer, In.
  assert (Question_ (with_stub session q asked) = [qu] /\ Id (hdr (with_stub session q asked)) = Id (hdr q)) as [-> ->]
    by (unfold with_stub; by destruct session as [[? ?]|]).
  rewrite Hty. cbn [TypeAXFR]. change (negb ((TypeAXFR =? TypeAXFR) || (TypeAXFR =? TypeIXFR))) with false.
  change (TypeAXFR =? TypeAXFR) with true. cbv iota.
  destruct (transfer_stream session Hs asked served_at cs cc Hc1 Hc2 q xs Hq Hxs) as (out & t & ms & Ew & Hd & Hms).
  rewrite Ew. gosimp. unfold inAxfr. set (stream := serve_once _ _ _ _) in *.
  destruct (inAxfr_delivered session cc (Id (hdr q)) ms (answers_ids q xs ms Hms) (S (length stream)) 0 true t stream Hd) as [t' E].
  - transitivity (axfr_cut true (map rrtypes xs)); [f_equal; clear -Hms|by eapply axfr_answer_cut].
    induction Hms as [|x m xs ms (_ & _ & Ha & _) _ IH]; [done|]. cbn [map]. by rewrite IH, (rrtypes_read _ _ Ha).
  - pose proof (delivered_length session cc ms 0 t stream Hd). lia.
  - rewrite E. exists (envelopes ms), t'. split; [done|]. by eapply received_envelopes.
Qed.

Lemma ixfr_core session asked served_at cs cc q qu xs rrs serial qser soa : transfer_ok session asked served_at cs cc q xs ->
  Question_ q = [qu] -> Qtype qu = TypeIXFR -> Ns q = [soa] -> as_SOA soa = Some qser -> qser < serial ->
  ixfr_answer serial rrs -> Forall own_struct rrs -> cut rrs xs ->
  exists envs t, transfer session asked served_at cs cc q xs = Ok (envs, t, []) /\ received_all xs envs.
Proof.
  intros [Hs Hc1 Hc2 Hq Hxs] Hqu Hty Hns Hsoa Hlt Hans Hown Hcut. unfold transfer, In.
  assert (Question_ (with_stub session q asked) = [qu] /\ Id (hdr (with_stub session q asked)) = Id (hdr q) /\
    Ns (with_stub session q asked) = [soa]) as (-> & -> & ->) by (unfold with_stub; by destruct session as [[? ?]|]).
  rewrite Hty. change (negb ((TypeIXFR =? TypeAXFR) || (TypeIXFR =? TypeIXFR))) with false.
  change (TypeIXFR =? TypeAXFR) with false. cbv iota.
  destruct (transfer_stream session Hs asked served_at cs cc Hc1 Hc2 q xs Hq Hxs) as (out & t & ms & Ew & Hd & Hms).
  rewrite Ew. gosimp. cbn [head mbind option_bind]. rewrite Hsoa. unfold inIxfr. set (stream := serve_once _ _ _ _) in *.
  destruct (scan_answer serial rrs Hans) as (s0 & l & r & n & axfr & -> & Hs0 & Hscan & n' & Hlast).
  destruct Hcut as (Hcat & Hh & Hl). destruct xs as [|[|a x] xs]; [done..|]. cbn [concat] in Hcat.
  assert (ixfr_cut serial ((a :: x) :: xs) 0 true = true) as Hic by exact (ixfr_cut_concat serial ((a :: x) :: xs) (s0 :: l) r 0 true n axfr n' Hcat Hl Hscan Hlast).
  assert (Forall2 (Forall2 (fun r r' => as_SOA r' = as_SOA r)) ((a :: x) :: xs) (map Answer ms)) as Hext.
  { change (s0 :: l ++ [r]) with ((s0 :: l) ++ [r]) in *.
    assert (Forall (Forall own_struct) ((a :: x) :: xs)) as Hown' by (apply Forall_concat; cbn [concat]; by rewrite Hcat).
    clear -Hms Hown' Hxs. revert Hown' Hxs. induction Hms as [|y m ys ms (_ & _ & Ha & _) _ IH]; intros Ho Hf; [constructor|].
    apply Forall_cons in Ho as [Ho Ho'], Hf as [[((_ & _ & _ & _ & Hy & _) & _) _] Hf']. cbn [map]. constructor; [|by apply IH].
    cbn [out_reply Answer] in *. clear -Ha Ho Hy. induction Ha as [|r r' l l' Hr _ IH]; [constructor|].
    apply Forall_cons in Ho as [? ?], Hy as [? ?]. constructor; [by apply as_SOA_read|by apply IH]. }
  apply Forall2_cons_inv_l in Hms as Hms'. destruct Hms' as (m & ms' & Hm & _ & ->).
  assert (a = s0) as -> by by injection Hcat.
  assert (Rrtype (Hdr s0) = TypeSOA) as Hty0.
  { change (s0 :: l ++ [r]) with ((s0 :: l) ++ [r]) in Hown. apply Forall_cons in Hown as [Ho _]. apply (SOA_type s0 serial); done. }
  destruct Hm as (_ & _ & Ha & _). cbn [out_reply Answer] in Ha. apply Forall2_cons_inv_l in Ha as (s1 & y & Hr1 & _ & Hy).
  destruct (inIxfr_first session cc (Id (hdr q)) qser serial m ms' (answers_ids q _ _ Hms) (S (length stream)) t stream Hd) as [t' E].
  - unfold isSOAFirst. rewrite Hy. destruct Hr1 as (z & _ & ->). cbn [Hdr set_Rdlength Rrtype]. by rewrite Hty0.
  - rewrite Hy. cbn [head mbind option_bind]. apply Forall2_cons_inv_l in Hext as (y' & ys' & Hy' & _ & Hmap).
    cbn [map] in Hmap. injection Hmap as <- _. rewrite Hy in Hy'. apply Forall2_cons in Hy' as [E _]. by rewrite E.
  - done.
  - etransitivity; [apply (ixfr_cut_ext serial _ _ Hext)|exact Hic].
  - pose proof (delivered_length session cc (m :: ms') 0 t stream Hd) as Hlen. cbn [length] in Hlen. lia.
  - rewrite E. exists (envelopes (m :: ms')), t'. split; [done|]. by eapply received_envelopes.
Qed.

(** C15: a zone sent by [Out] from a server's handler arrives through [In]: the
    client asks for an AXFR, with a TSIG record of a key both sides know or
    without one; [serveDNS] accepts the request, verifies it and calls the
    handler; however the zone is cut into messages (the first and last not
    empty, each of a size that leaves room for the signature), the client gets
    one envelope per message, in order, with exactly its records and no error,
    and stops reading where the transfer ends.  With TSIG every message is signed
    over the MAC of the one before, and verified, both sides' clocks being within
    the fudge. *)
Theorem axfr_transfer session asked served_at cs cc q qu xs rrs : transfer_ok session asked served_at cs cc q xs ->
  Question_ q = [qu] -> Qtype qu = TypeAXFR -> axfr_answer rrs -> cut rrs xs ->
  exists envs t, transfer session asked served_at cs cc q xs = Ok (envs, t, []) /\ received_all xs envs.
Proof. apply axfr_core. Qed.

(** C16: the same for an IXFR from a smaller serial: whether the server sends
    differences (from any number of old versions, the last ending at the
    current one) or the whole zone, and however the answer is cut into messages,
    the client recognises which it is, gets every message as an envelope without
    error, and stops exactly at the SOA record that ends the answer. *)
Theorem ixfr_transfer session asked served_at cs cc q qu xs rrs serial qser soa : transfer_ok session asked served_at cs cc q xs ->
  Question_ q = [qu] -> Qtype qu = TypeIXFR -> Ns q = [soa] -> as_SOA soa = Some qser -> qser < serial ->
  ixfr_answer serial rrs -> Forall own_struct rrs -> cut rrs xs ->
  exists envs t, transfer session asked served_at cs cc q xs = Ok (envs, t, []) /\ received_all xs envs.
Proof. apply ixfr_core. Qed.

(** ** An example *)

Definition example_name : bytes := bs "a.b.".
Definition example_soa (serial : Z) : RR :=
  MkRR (MkHeader example_name TypeSOA ClassINET 300 0) RR_SOA
    [V_str (bs "n.b."); V_str (bs "m.b."); V_int serial; V_int 1; V_int 2; V_int 3; V_int 4].
Definition example_a (b : Z) : RR :=
  MkRR (MkHeader example_name 1 ClassINET 300 0) RR_A [V_str (map byte_of [192; 0; 2; b])].
Definition example_query (qtype : Z) (ns : list RR) : Msg :=
  MkMsg (set_Id 7 zero_hdr) false [MkQuestion example_name qtype ClassINET] [] ns [].
Definition example_session : option (TsigProvider * TSIG) := Some (tsigSecretProvider toy_hmac example_secrets, example_tsig).

Lemma example_names : good_name example_name /\ good_name (bs "n.b.") /\ good_name (bs "m.b.") /\ good_name (bs "key.") /\ good_name HmacSHA256.
Proof.
  split_and!; [exists [bs "a"; bs "b"]|exists [bs "n"; bs "b"]|exists [bs "m"; bs "b"]|exists [bs "key"]|exists [bs "hmac-sha256"]];
    (split; [split; [by repeat apply Forall_cons_2|done]|done]).
Qed.

Lemma example_soa_ok serial : u32 serial -> rr_ok (example_soa serial).
Proof.
  intros Hs. destruct example_names as (Ha & Hn & Hm & _). split; [by split|]. split; [by right|].
  assert (rdata_ok RR_SOA (data (example_soa serial))) as Hd by (repeat (constructor; try done)). split; [exact Hd|].
  by vm_compute.
Qed.

Lemma example_a_ok b : rr_ok (example_a b).
Proof.
  destruct example_names as (Ha & _). split; [by split|]. split; [by right|]. split; [repeat (constructor; try done)|by vm_compute].
Qed.

Lemma example_reply_ok qtype ns x : u16 qtype -> Forall rr_ok x -> zlen x < 65536 -> msg_size (out_reply (example_query qtype ns) x) <= 60000 ->
  fits_transfer (out_reply (example_query qtype ns) x).
Proof.
  intros Hq Hx Hlen Hsize. destruct example_names as (Ha & _). split; [|unfold MaxMsgSize; lia].
  split; [|by split]. do 3 (split; [done|]). split; [by constructor|]. split; [exact Hx|]. split_and!; try done; constructor.
Qed.

Lemma example_session_ok p k : example_session = Some (p, k) -> session_ok p k.
Proof.
  intros [= <- <-]. destruct example_names as (_ & _ & _ & Hk & Hh). constructor; try done.
  - apply (tsigSecretProvider_signs toy_hmac toy_hmac_size example_secrets (bs "c2VjcmV0") (bs "secret") SHA256); reflexivity.
  - intros buf t mac. cbn [tsigSecretProvider Generate]. destruct (example_secrets !! _) as [key|]; [|done].
    unfold hmac_Generate. destruct (fromBase64 key); cbn [mbind res_bind]; try done. destruct (hmac_alg _); [|done].
    intros [= <-]. unfold toy_hmac. rewrite be_length. lia.
Qed.

Lemma example_fits qtype ns xs : u16 qtype -> Forall (Forall rr_ok) xs ->
  forallb (fun x => (zlen x <? 65536) && (msg_size (out_reply (example_query qtype ns) x) <=? 60000)) xs = true ->
  Forall (fun x => fits_transfer (out_reply (example_query qtype ns) x)) xs.
Proof.
  intros Hq Hxs Hb. induction Hxs as [|x xs Hx _ IH]; [constructor|]. cbn [forallb] in Hb.
  apply andb_true_iff in Hb as [[H1%Z.ltb_lt H2%Z.leb_le]%andb_true_iff H3]. constructor; [by apply example_reply_ok|by apply IH].
Qed.

Lemma example_clocks now now' : 1699999000 < now < 1700001000 -> now - 300 <= now' <= now + 300 -> clocks_agree example_session now now'.
Proof. intros H1 H2. split; [lia|]. split; [lia|]. intros p k [= <- <-]. cbn. lia. Qed.

Definition example_clock (d : Z) (i : nat) : Z := 1700000000 + d + Z.min (Z.of_nat i) 100.

(** The clocks of the example are 250 seconds apart. *)
Lemma example_transfer_ok qtype ns xs : qtype = TypeAXFR \/ qtype = TypeIXFR -> Forall rr_ok ns -> zlen ns <= 1 -> Forall (Forall rr_ok) xs ->
  msg_size (example_query qtype ns) <= 60000 ->
  forallb (fun x => (zlen x <? 65536) && (msg_size (out_reply (example_query qtype ns) x) <=? 60000)) xs = true ->
  transfer_ok example_session 1700000000 1700000250 (example_clock 0) (example_clock 250) (example_query qtype ns) xs.
Proof.
  intros Hq Hns Hl Hxs Hsz Hb. assert (u16 qtype) as Hu by (by destruct Hq as [->| ->]). destruct example_names as (Ha & _). constructor.
  - apply example_session_ok.
  - apply example_clocks; lia.
  - intros i. unfold example_clock. apply example_clocks; lia.
  - split; [|by split_and!]. split; [|unfold MaxMsgSize; lia]. split; [|by split].
    do 3 (split; [done|]). split; [by constructor|]. split; [constructor|]. split; [done|]. split; [constructor|].
    split_and!; try done. cbn [Ns example_query]. lia.
  - by apply example_fits.
Qed.

(** A zone of five records in four messages, one of them empty, signed. *)
Definition example_axfr : list (list RR) := [[example_soa 9]; [example_a 1; example_a 2]; []; [example_a 3; example_soa 9]].

Lemma axfr_transfer_witness : exists envs t,
  transfer example_session 1700000000 1700000250 (example_clock 0) (example_clock 250) (example_query TypeAXFR []) example_axfr = Ok (envs, t, []) /\
  length envs = 4%nat.
Proof.
  destruct (axfr_transfer example_session 1700000000 1700000250 (example_clock 0) (example_clock 250) (example_query TypeAXFR [])
    (MkQuestion example_name TypeAXFR ClassINET) example_axfr (concat example_axfr)) as (envs & t & E & H).
  - apply example_transfer_ok; [by left|constructor|done| |vm_compute; discriminate|vm_compute; reflexivity].
    unfold example_axfr. repeat (constructor; try apply example_a_ok; try (apply example_soa_ok; done)).
  - reflexivity.
  - reflexivity.
  - exists (example_soa 9), [example_a 1; example_a 2; example_a 3], (example_soa 9). split_and!; try reflexivity.
    by repeat constructor.
  - split_and!; [reflexivity|discriminate|discriminate].
  - exists envs, t. split; [exact E|]. symmetry. exact (Forall2_length _ _ _ H).
Defined.

(** From serial 7 over 8 to 9, the last difference in its own messages. *)
Definition example_ixfr : list (list RR) :=
  [[example_soa 9; example_soa 7; example_a 1]; [example_soa 8; example_a 2; example_soa 8]; [example_soa 9; example_a 3]; [example_soa 9]].

Lemma ixfr_transfer_witness : exists envs t,
  transfer example_session 1700000000 1700000250 (example_clock 0) (example_clock 250) (example_query TypeIXFR [example_soa 7]) example_ixfr
    = Ok (envs, t, []) /\ length envs = 4%nat.
Proof.
  destruct (ixfr_transfer example_session 1700000000 1700000250 (example_clock 0) (example_clock 250) (example_query TypeIXFR [example_soa 7])
    (MkQuestion example_name TypeIXFR ClassINET) example_ixfr (concat example_ixfr) 9 7 (example_soa 7)) as (envs & t & E & H).
  - apply example_transfer_ok; [by right| |done| |vm_compute; discriminate|vm_compute; reflexivity].
    + repeat (constructor; try (apply example_soa_ok; done)).
    + unfold example_ixfr. repeat (constructor; try apply example_a_ok; try (apply example_soa_ok; done)).
  - reflexivity.
  - reflexivity.
  - reflexivity.
  - reflexivity.
  - lia.
  - change (concat example_ixfr) with (example_soa 9 ::
      concat (map diff_rrs [MkDiff (example_soa 7) [example_a 1] (example_soa 8) [example_a 2]]) ++
      diff_rrs (MkDiff (example_soa 8) [] (example_soa 9) [example_a 3]) ++ [example_soa 9]).
    apply ixfr_diffs; try reflexivity; repeat constructor; eexists; (split; [reflexivity|lia]).
  - unfold example_ixfr. cbn [concat app]. repeat constructor.
  - split_and!; [reflexivity|discriminate|discriminate].
  - exists envs, t. split; [exact E|]. symmetry. exact (Forall2_length _ _ _ H).
Defined.

(** Serial numbers wrap (RFC 1982): 1 comes after 4294967295.  [inIxfr] compares
    them as integers, takes the answer of a server at serial 1 for "no changes"
    and returns after its first message, without an error. *)
Example ixfr_serial_wraps :
  let q := example_query TypeIXFR [example_soa 4294967295] in
  let xs := [[example_soa 1; example_soa 4294967295]; [example_soa 1; example_a 1; example_soa 1]] in
  match transfer None 0 0 (fun _ => 0) (fun _ => 0) q xs with
  | Ok (envs, _, rest) => length envs = 1%nat /\ map env_Error envs = [None] /\ rest <> []
  | _ => False
  end.
Proof.
  cbv zeta. match goal with |- match ?t with _ => _ end => let v := eval vm_compute in t in assert (t = v) as -> by (vm_compute; reflexivity) end.
  by split_and!.
Qed.
