(* ===== verification/Zpack.v ===== *)
(** * zmsg.go: the generated [pack] methods

    msg_generate.go writes these methods from the struct tags; they are
    translated here line by line, the fields of the receiver being the list of
    values of the struct, and proved equal to the interpreter of the tags
    ([pack_fields] of RData.v) that the other files reason about. *)

From S2P Require Import Prelude Go Names Codec Wire Nsec Encodings Apl Edns Svcb RData Safety.

(** ** The methods *)

Definition A_pack (rr : list fval) (compress : bool) : packer := fun msg off compression =>
  match rr with
  | [V_str A_] =>
      '(msg, off) ← packDataA A_ msg off;
      Ok (msg, off, compression)
  | _ => Panic
  end.

Definition AAAA_pack (rr : list fval) (compress : bool) : packer := fun msg off compression =>
  match rr with
  | [V_str AAAA] =>
      '(msg, off) ← packDataAAAA AAAA msg off;
      Ok (msg, off, compression)
  | _ => Panic
  end.

Definition AFSDB_pack (rr : list fval) (compress : bool) : packer := fun msg off compression =>
  match rr with
  | [V_int Subtype; V_str Hostname] =>
      '(msg, off) ← packUint16 Subtype msg off;
      '(msg, off, compression) ← packDomainName Hostname msg off compression false;
      Ok (msg, off, compression)
  | _ => Panic
  end.

Definition AMTRELAY_pack (rr : list fval) (compress : bool) : packer := fun msg off compression =>
  match rr with
  | [V_int Precedence; V_int GatewayType; V_gateway GatewayAddr GatewayHost] =>
      '(msg, off) ← packUint8 Precedence msg off;
      '(msg, off) ← packUint8 GatewayType msg off;
      '(msg, off, compression) ← packIPSECGateway GatewayAddr GatewayHost GatewayType false msg off compression;
      Ok (msg, off, compression)
  | _ => Panic
  end.

Definition ANY_pack (rr : list fval) (compress : bool) : packer := fun msg off compression =>
  match rr with
  | [] =>
      Ok (msg, off, compression)
  | _ => Panic
  end.

Definition APL_pack (rr : list fval) (compress : bool) : packer := fun msg off compression =>
  match rr with
  | [V_apl Prefixes] =>
      '(msg, off) ← packDataApl Prefixes msg off;
      Ok (msg, off, compression)
  | _ => Panic
  end.

Definition AVC_pack (rr : list fval) (compress : bool) : packer := fun msg off compression =>
  match rr with
  | [V_strs Txt] =>
      '(msg, off) ← packStringTxt Txt msg off;
      Ok (msg, off, compression)
  | _ => Panic
  end.

Definition CAA_pack (rr : list fval) (compress : bool) : packer := fun msg off compression =>
  match rr with
  | [V_int Flag; V_str Tag; V_str Value] =>
      '(msg, off) ← packUint8 Flag msg off;
      '(msg, off) ← packString Tag msg off;
      '(msg, off) ← packStringOctet Value msg off;
      Ok (msg, off, compression)
  | _ => Panic
  end.

Definition CDNSKEY_pack (rr : list fval) (compress : bool) : packer := fun msg off compression =>
  match rr with
  | [V_int Flags; V_int Protocol; V_int Algorithm; V_str PublicKey] =>
      '(msg, off) ← packUint16 Flags msg off;
      '(msg, off) ← packUint8 Protocol msg off;
      '(msg, off) ← packUint8 Algorithm msg off;
      '(msg, off) ← packStringBase64 PublicKey msg off;
      Ok (msg, off, compression)
  | _ => Panic
  end.

Definition CDS_pack (rr : list fval) (compress : bool) : packer := fun msg off compression =>
  match rr with
  | [V_int KeyTag; V_int Algorithm; V_int DigestType; V_str Digest] =>
      '(msg, off) ← packUint16 KeyTag msg off;
      '(msg, off) ← packUint8 Algorithm msg off;
      '(msg, off) ← packUint8 DigestType msg off;
      '(msg, off) ← packStringHex Digest msg off;
      Ok (msg, off, compression)
  | _ => Panic
  end.

Definition CERT_pack (rr : list fval) (compress : bool) : packer := fun msg off compression =>
  match rr with
  | [V_int Type_; V_int KeyTag; V_int Algorithm; V_str Certificate] =>
      '(msg, off) ← packUint16 Type_ msg off;
      '(msg, off) ← packUint16 KeyTag msg off;
      '(msg, off) ← packUint8 Algorithm msg off;
      '(msg, off) ← packStringBase64 Certificate msg off;
      Ok (msg, off, compression)
  | _ => Panic
  end.

Definition CNAME_pack (rr : list fval) (compress : bool) : packer := fun msg off compression =>
  match rr with
  | [V_str Target] =>
      '(msg, off, compression) ← packDomainName Target msg off compression compress;
      Ok (msg, off, compression)
  | _ => Panic
  end.

Definition CSYNC_pack (rr : list fval) (compress : bool) : packer := fun msg off compression =>
  match rr with
  | [V_int Serial; V_int Flags; V_types TypeBitMap] =>
      '(msg, off) ← packUint32 Serial msg off;
      '(msg, off) ← packUint16 Flags msg off;
      '(msg, off) ← packDataNsec TypeBitMap msg off;
      Ok (msg, off, compression)
  | _ => Panic
  end.

Definition DHCID_pack (rr : list fval) (compress : bool) : packer := fun msg off compression =>
  match rr with
  | [V_str Digest] =>
      '(msg, off) ← packStringBase64 Digest msg off;
      Ok (msg, off, compression)
  | _ => Panic
  end.

Definition DLV_pack (rr : list fval) (compress : bool) : packer := fun msg off compression =>
  match rr with
  | [V_int KeyTag; V_int Algorithm; V_int DigestType; V_str Digest] =>
      '(msg, off) ← packUint16 KeyTag msg off;
      '(msg, off) ← packUint8 Algorithm msg off;
      '(msg, off) ← packUint8 DigestType msg off;
      '(msg, off) ← packStringHex Digest msg off;
      Ok (msg, off, compression)
  | _ => Panic
  end.

Definition DNAME_pack (rr : list fval) (compress : bool) : packer := fun msg off compression =>
  match rr with
  | [V_str Target] =>
      '(msg, off, compression) ← packDomainName Target msg off compression false;
      Ok (msg, off, compression)
  | _ => Panic
  end.

Definition DNSKEY_pack (rr : list fval) (compress : bool) : packer := fun msg off compression =>
  match rr with
  | [V_int Flags; V_int Protocol; V_int Algorithm; V_str PublicKey] =>
      '(msg, off) ← packUint16 Flags msg off;
      '(msg, off) ← packUint8 Protocol msg off;
      '(msg, off) ← packUint8 Algorithm msg off;
      '(msg, off) ← packStringBase64 PublicKey msg off;
      Ok (msg, off, compression)
  | _ => Panic
  end.

Definition DS_pack (rr : list fval) (compress : bool) : packer := fun msg off compression =>
  match rr with
  | [V_int KeyTag; V_int Algorithm; V_int DigestType; V_str Digest] =>
      '(msg, off) ← packUint16 KeyTag msg off;
      '(msg, off) ← packUint8 Algorithm msg off;
      '(msg, off) ← packUint8 DigestType msg off;
      '(msg, off) ← packStringHex Digest msg off;
      Ok (msg, off, compression)
  | _ => Panic
  end.

Definition EID_pack (rr : list fval) (compress : bool) : packer := fun msg off compression =>
  match rr with
  | [V_str Endpoint] =>
      '(msg, off) ← packStringHex Endpoint msg off;
      Ok (msg, off, compression)
  | _ => Panic
  end.

Definition EUI48_pack (rr : list fval) (compress : bool) : packer := fun msg off compression =>
  match rr with
  | [V_int Address] =>
      '(msg, off) ← packUint48 Address msg off;
      Ok (msg, off, compression)
  | _ => Panic
  end.

Definition EUI64_pack (rr : list fval) (compress : bool) : packer := fun msg off compression =>
  match rr with
  | [V_int Address] =>
      '(msg, off) ← packUint64 Address msg off;
      Ok (msg, off, compression)
  | _ => Panic
  end.

Definition GID_pack (rr : list fval) (compress : bool) : packer := fun msg off compression =>
  match rr with
  | [V_int Gid] =>
      '(msg, off) ← packUint32 Gid msg off;
      Ok (msg, off, compression)
  | _ => Panic
  end.

Definition GPOS_pack (rr : list fval) (compress : bool) : packer := fun msg off compression =>
  match rr with
  | [V_str Longitude; V_str Latitude; V_str Altitude] =>
      '(msg, off) ← packString Longitude msg off;
      '(msg, off) ← packString Latitude msg off;
      '(msg, off) ← packString Altitude msg off;
      Ok (msg, off, compression)
  | _ => Panic
  end.

Definition HINFO_pack (rr : list fval) (compress : bool) : packer := fun msg off compression =>
  match rr with
  | [V_str Cpu; V_str Os] =>
      '(msg, off) ← packString Cpu msg off;
      '(msg, off) ← packString Os msg off;
      Ok (msg, off, compression)
  | _ => Panic
  end.

Definition HIP_pack (rr : list fval) (compress : bool) : packer := fun msg off compression =>
  match rr with
  | [V_int HitLength; V_int PublicKeyAlgorithm; V_int PublicKeyLength; V_str Hit; V_str PublicKey; V_strs RendezvousServers] =>
      '(msg, off) ← packUint8 HitLength msg off;
      '(msg, off) ← packUint8 PublicKeyAlgorithm msg off;
      '(msg, off) ← packUint16 PublicKeyLength msg off;
      '(msg, off) ← packStringHex Hit msg off;
      '(msg, off) ← packStringBase64 PublicKey msg off;
      '(msg, off, compression) ← packDataDomainNames RendezvousServers msg off compression false;
      Ok (msg, off, compression)
  | _ => Panic
  end.

Definition HTTPS_pack (rr : list fval) (compress : bool) : packer := fun msg off compression =>
  match rr with
  | [V_int Priority; V_str Target; V_pairs Value] =>
      '(msg, off) ← packUint16 Priority msg off;
      '(msg, off, compression) ← packDomainName Target msg off compression false;
      '(msg, off) ← packDataSVCB Value msg off;
      Ok (msg, off, compression)
  | _ => Panic
  end.

Definition IPSECKEY_pack (rr : list fval) (compress : bool) : packer := fun msg off compression =>
  match rr with
  | [V_int Precedence; V_int GatewayType; V_int Algorithm; V_gateway GatewayAddr GatewayHost; V_str PublicKey] =>
      '(msg, off) ← packUint8 Precedence msg off;
      '(msg, off) ← packUint8 GatewayType msg off;
      '(msg, off) ← packUint8 Algorithm msg off;
      '(msg, off, compression) ← packIPSECGateway GatewayAddr GatewayHost GatewayType false msg off compression;
      '(msg, off) ← packStringBase64 PublicKey msg off;
      Ok (msg, off, compression)
  | _ => Panic
  end.

Definition ISDN_pack (rr : list fval) (compress : bool) : packer := fun msg off compression =>
  match rr with
  | [V_str Address; V_str SubAddress] =>
      '(msg, off) ← packString Address msg off;
      '(msg, off) ← packString SubAddress msg off;
      Ok (msg, off, compression)
  | _ => Panic
  end.

Definition KEY_pack (rr : list fval) (compress : bool) : packer := fun msg off compression =>
  match rr with
  | [V_int Flags; V_int Protocol; V_int Algorithm; V_str PublicKey] =>
      '(msg, off) ← packUint16 Flags msg off;
      '(msg, off) ← packUint8 Protocol msg off;
      '(msg, off) ← packUint8 Algorithm msg off;
      '(msg, off) ← packStringBase64 PublicKey msg off;
      Ok (msg, off, compression)
  | _ => Panic
  end.

Definition KX_pack (rr : list fval) (compress : bool) : packer := fun msg off compression =>
  match rr with
  | [V_int Preference; V_str Exchanger] =>
      '(msg, off) ← packUint16 Preference msg off;
      '(msg, off, compression) ← packDomainName Exchanger msg off compression false;
      Ok (msg, off, compression)
  | _ => Panic
  end.

Definition L32_pack (rr : list fval) (compress : bool) : packer := fun msg off compression =>
  match rr with
  | [V_int Preference; V_str Locator32] =>
      '(msg, off) ← packUint16 Preference msg off;
      '(msg, off) ← packDataA Locator32 msg off;
      Ok (msg, off, compression)
  | _ => Panic
  end.

Definition L64_pack (rr : list fval) (compress : bool) : packer := fun msg off compression =>
  match rr with
  | [V_int Preference; V_int Locator64] =>
      '(msg, off) ← packUint16 Preference msg off;
      '(msg, off) ← packUint64 Locator64 msg off;
      Ok (msg, off, compression)
  | _ => Panic
  end.

Definition LOC_pack (rr : list fval) (compress : bool) : packer := fun msg off compression =>
  match rr with
  | [V_int Version; V_int Size; V_int HorizPre; V_int VertPre; V_int Latitude; V_int Longitude; V_int Altitude] =>
      '(msg, off) ← packUint8 Version msg off;
      '(msg, off) ← packUint8 Size msg off;
      '(msg, off) ← packUint8 HorizPre msg off;
      '(msg, off) ← packUint8 VertPre msg off;
      '(msg, off) ← packUint32 Latitude msg off;
      '(msg, off) ← packUint32 Longitude msg off;
      '(msg, off) ← packUint32 Altitude msg off;
      Ok (msg, off, compression)
  | _ => Panic
  end.

Definition LP_pack (rr : list fval) (compress : bool) : packer := fun msg off compression =>
  match rr with
  | [V_int Preference; V_str Fqdn] =>
      '(msg, off) ← packUint16 Preference msg off;
      '(msg, off, compression) ← packDomainName Fqdn msg off compression false;
      Ok (msg, off, compression)
  | _ => Panic
  end.

Definition MB_pack (rr : list fval) (compress : bool) : packer := fun msg off compression =>
  match rr with
  | [V_str Mb] =>
      '(msg, off, compression) ← packDomainName Mb msg off compression compress;
      Ok (msg, off, compression)
  | _ => Panic
  end.

Definition MD_pack (rr : list fval) (compress : bool) : packer := fun msg off compression =>
  match rr with
  | [V_str Md] =>
      '(msg, off, compression) ← packDomainName Md msg off compression compress;
      Ok (msg, off, compression)
  | _ => Panic
  end.

Definition MF_pack (rr : list fval) (compress : bool) : packer := fun msg off compression =>
  match rr with
  | [V_str Mf] =>
      '(msg, off, compression) ← packDomainName Mf msg off compression compress;
      Ok (msg, off, compression)
  | _ => Panic
  end.

Definition MG_pack (rr : list fval) (compress : bool) : packer := fun msg off compression =>
  match rr with
  | [V_str Mg] =>
      '(msg, off, compression) ← packDomainName Mg msg off compression compress;
      Ok (msg, off, compression)
  | _ => Panic
  end.

Definition MINFO_pack (rr : list fval) (compress : bool) : packer := fun msg off compression =>
  match rr with
  | [V_str Rmail; V_str Email] =>
      '(msg, off, compression) ← packDomainName Rmail msg off compression compress;
      '(msg, off, compression) ← packDomainName Email msg off compression compress;
      Ok (msg, off, compression)
  | _ => Panic
  end.

Definition MR_pack (rr : list fval) (compress : bool) : packer := fun msg off compression =>
  match rr with
  | [V_str Mr] =>
      '(msg, off, compression) ← packDomainName Mr msg off compression compress;
      Ok (msg, off, compression)
  | _ => Panic
  end.

Definition MX_pack (rr : list fval) (compress : bool) : packer := fun msg off compression =>
  match rr with
  | [V_int Preference; V_str Mx] =>
      '(msg, off) ← packUint16 Preference msg off;
      '(msg, off, compression) ← packDomainName Mx msg off compression compress;
      Ok (msg, off, compression)
  | _ => Panic
  end.

Definition NAPTR_pack (rr : list fval) (compress : bool) : packer := fun msg off compression =>
  match rr with
  | [V_int Order; V_int Preference; V_str Flags; V_str Service; V_str Regexp; V_str Replacement] =>
      '(msg, off) ← packUint16 Order msg off;
      '(msg, off) ← packUint16 Preference msg off;
      '(msg, off) ← packString Flags msg off;
      '(msg, off) ← packString Service msg off;
      '(msg, off) ← packString Regexp msg off;
      '(msg, off, compression) ← packDomainName Replacement msg off compression false;
      Ok (msg, off, compression)
  | _ => Panic
  end.

Definition NID_pack (rr : list fval) (compress : bool) : packer := fun msg off compression =>
  match rr with
  | [V_int Preference; V_int NodeID] =>
      '(msg, off) ← packUint16 Preference msg off;
      '(msg, off) ← packUint64 NodeID msg off;
      Ok (msg, off, compression)
  | _ => Panic
  end.

Definition NIMLOC_pack (rr : list fval) (compress : bool) : packer := fun msg off compression =>
  match rr with
  | [V_str Locator] =>
      '(msg, off) ← packStringHex Locator msg off;
      Ok (msg, off, compression)
  | _ => Panic
  end.

Definition NINFO_pack (rr : list fval) (compress : bool) : packer := fun msg off compression =>
  match rr with
  | [V_strs ZSData] =>
      '(msg, off) ← packStringTxt ZSData msg off;
      Ok (msg, off, compression)
  | _ => Panic
  end.

Definition NS_pack (rr : list fval) (compress : bool) : packer := fun msg off compression =>
  match rr with
  | [V_str Ns] =>
      '(msg, off, compression) ← packDomainName Ns msg off compression compress;
      Ok (msg, off, compression)
  | _ => Panic
  end.

Definition NSAPPTR_pack (rr : list fval) (compress : bool) : packer := fun msg off compression =>
  match rr with
  | [V_str Ptr] =>
      '(msg, off, compression) ← packDomainName Ptr msg off compression false;
      Ok (msg, off, compression)
  | _ => Panic
  end.

Definition NSEC_pack (rr : list fval) (compress : bool) : packer := fun msg off compression =>
  match rr with
  | [V_str NextDomain; V_types TypeBitMap] =>
      '(msg, off, compression) ← packDomainName NextDomain msg off compression false;
      '(msg, off) ← packDataNsec TypeBitMap msg off;
      Ok (msg, off, compression)
  | _ => Panic
  end.

Definition NSEC3_pack (rr : list fval) (compress : bool) : packer := fun msg off compression =>
  match rr with
  | [V_int Hash; V_int Flags; V_int Iterations; V_int SaltLength; V_str Salt; V_int HashLength; V_str NextDomain; V_types TypeBitMap] =>
      '(msg, off) ← packUint8 Hash msg off;
      '(msg, off) ← packUint8 Flags msg off;
      '(msg, off) ← packUint16 Iterations msg off;
      '(msg, off) ← packUint8 SaltLength msg off;
      '(msg, off) ← (if bool_decide (Salt = bs "-") then Ok (msg, off) else packStringHex Salt msg off);
      '(msg, off) ← packUint8 HashLength msg off;
      '(msg, off) ← packStringBase32 NextDomain msg off;
      '(msg, off) ← packDataNsec TypeBitMap msg off;
      Ok (msg, off, compression)
  | _ => Panic
  end.

Definition NSEC3PARAM_pack (rr : list fval) (compress : bool) : packer := fun msg off compression =>
  match rr with
  | [V_int Hash; V_int Flags; V_int Iterations; V_int SaltLength; V_str Salt] =>
      '(msg, off) ← packUint8 Hash msg off;
      '(msg, off) ← packUint8 Flags msg off;
      '(msg, off) ← packUint16 Iterations msg off;
      '(msg, off) ← packUint8 SaltLength msg off;
      '(msg, off) ← (if bool_decide (Salt = bs "-") then Ok (msg, off) else packStringHex Salt msg off);
      Ok (msg, off, compression)
  | _ => Panic
  end.

Definition NULL_pack (rr : list fval) (compress : bool) : packer := fun msg off compression =>
  match rr with
  | [V_str Data] =>
      '(msg, off) ← packStringAny Data msg off;
      Ok (msg, off, compression)
  | _ => Panic
  end.

Definition NXNAME_pack (rr : list fval) (compress : bool) : packer := fun msg off compression =>
  match rr with
  | [] =>
      Ok (msg, off, compression)
  | _ => Panic
  end.

Definition NXT_pack (rr : list fval) (compress : bool) : packer := fun msg off compression =>
  match rr with
  | [V_str NextDomain; V_types TypeBitMap] =>
      '(msg, off, compression) ← packDomainName NextDomain msg off compression false;
      '(msg, off) ← packDataNsec TypeBitMap msg off;
      Ok (msg, off, compression)
  | _ => Panic
  end.

Definition OPENPGPKEY_pack (rr : list fval) (compress : bool) : packer := fun msg off compression =>
  match rr with
  | [V_str PublicKey] =>
      '(msg, off) ← packStringBase64 PublicKey msg off;
      Ok (msg, off, compression)
  | _ => Panic
  end.

Definition OPT_pack (rr : list fval) (compress : bool) : packer := fun msg off compression =>
  match rr with
  | [V_opts Option] =>
      '(msg, off) ← packDataOpt Option msg off;
      Ok (msg, off, compression)
  | _ => Panic
  end.

Definition PTR_pack (rr : list fval) (compress : bool) : packer := fun msg off compression =>
  match rr with
  | [V_str Ptr] =>
      '(msg, off, compression) ← packDomainName Ptr msg off compression compress;
      Ok (msg, off, compression)
  | _ => Panic
  end.

Definition PX_pack (rr : list fval) (compress : bool) : packer := fun msg off compression =>
  match rr with
  | [V_int Preference; V_str Map822; V_str Mapx400] =>
      '(msg, off) ← packUint16 Preference msg off;
      '(msg, off, compression) ← packDomainName Map822 msg off compression false;
      '(msg, off, compression) ← packDomainName Mapx400 msg off compression false;
      Ok (msg, off, compression)
  | _ => Panic
  end.

Definition RESINFO_pack (rr : list fval) (compress : bool) : packer := fun msg off compression =>
  match rr with
  | [V_strs Txt] =>
      '(msg, off) ← packStringTxt Txt msg off;
      Ok (msg, off, compression)
  | _ => Panic
  end.

Definition RFC3597_pack (rr : list fval) (compress : bool) : packer := fun msg off compression =>
  match rr with
  | [V_str Rdata] =>
      '(msg, off) ← packStringHex Rdata msg off;
      Ok (msg, off, compression)
  | _ => Panic
  end.

Definition RKEY_pack (rr : list fval) (compress : bool) : packer := fun msg off compression =>
  match rr with
  | [V_int Flags; V_int Protocol; V_int Algorithm; V_str PublicKey] =>
      '(msg, off) ← packUint16 Flags msg off;
      '(msg, off) ← packUint8 Protocol msg off;
      '(msg, off) ← packUint8 Algorithm msg off;
      '(msg, off) ← packStringBase64 PublicKey msg off;
      Ok (msg, off, compression)
  | _ => Panic
  end.

Definition RP_pack (rr : list fval) (compress : bool) : packer := fun msg off compression =>
  match rr with
  | [V_str Mbox; V_str Txt] =>
      '(msg, off, compression) ← packDomainName Mbox msg off compression false;
      '(msg, off, compression) ← packDomainName Txt msg off compression false;
      Ok (msg, off, compression)
  | _ => Panic
  end.

Definition RRSIG_pack (rr : list fval) (compress : bool) : packer := fun msg off compression =>
  match rr with
  | [V_int TypeCovered; V_int Algorithm; V_int Labels; V_int OrigTtl; V_int Expiration; V_int Inception; V_int KeyTag; V_str SignerName; V_str Signature] =>
      '(msg, off) ← packUint16 TypeCovered msg off;
      '(msg, off) ← packUint8 Algorithm msg off;
      '(msg, off) ← packUint8 Labels msg off;
      '(msg, off) ← packUint32 OrigTtl msg off;
      '(msg, off) ← packUint32 Expiration msg off;
      '(msg, off) ← packUint32 Inception msg off;
      '(msg, off) ← packUint16 KeyTag msg off;
      '(msg, off, compression) ← packDomainName SignerName msg off compression false;
      '(msg, off) ← packStringBase64 Signature msg off;
      Ok (msg, off, compression)
  | _ => Panic
  end.

Definition RT_pack (rr : list fval) (compress : bool) : packer := fun msg off compression =>
  match rr with
  | [V_int Preference; V_str Host] =>
      '(msg, off) ← packUint16 Preference msg off;
      '(msg, off, compression) ← packDomainName Host msg off compression false;
      Ok (msg, off, compression)
  | _ => Panic
  end.

Definition SIG_pack (rr : list fval) (compress : bool) : packer := fun msg off compression =>
  match rr with
  | [V_int TypeCovered; V_int Algorithm; V_int Labels; V_int OrigTtl; V_int Expiration; V_int Inception; V_int KeyTag; V_str SignerName; V_str Signature] =>
      '(msg, off) ← packUint16 TypeCovered msg off;
      '(msg, off) ← packUint8 Algorithm msg off;
      '(msg, off) ← packUint8 Labels msg off;
      '(msg, off) ← packUint32 OrigTtl msg off;
      '(msg, off) ← packUint32 Expiration msg off;
      '(msg, off) ← packUint32 Inception msg off;
      '(msg, off) ← packUint16 KeyTag msg off;
      '(msg, off, compression) ← packDomainName SignerName msg off compression false;
      '(msg, off) ← packStringBase64 Signature msg off;
      Ok (msg, off, compression)
  | _ => Panic
  end.

Definition SMIMEA_pack (rr : list fval) (compress : bool) : packer := fun msg off compression =>
  match rr with
  | [V_int Usage; V_int Selector; V_int MatchingType; V_str Certificate] =>
      '(msg, off) ← packUint8 Usage msg off;
      '(msg, off) ← packUint8 Selector msg off;
      '(msg, off) ← packUint8 MatchingType msg off;
      '(msg, off) ← packStringHex Certificate msg off;
      Ok (msg, off, compression)
  | _ => Panic
  end.

Definition SOA_pack (rr : list fval) (compress : bool) : packer := fun msg off compression =>
  match rr with
  | [V_str Ns; V_str Mbox; V_int Serial; V_int Refresh; V_int Retry; V_int Expire; V_int Minttl] =>
      '(msg, off, compression) ← packDomainName Ns msg off compression compress;
      '(msg, off, compression) ← packDomainName Mbox msg off compression compress;
      '(msg, off) ← packUint32 Serial msg off;
      '(msg, off) ← packUint32 Refresh msg off;
      '(msg, off) ← packUint32 Retry msg off;
      '(msg, off) ← packUint32 Expire msg off;
      '(msg, off) ← packUint32 Minttl msg off;
      Ok (msg, off, compression)
  | _ => Panic
  end.

Definition SPF_pack (rr : list fval) (compress : bool) : packer := fun msg off compression =>
  match rr with
  | [V_strs Txt] =>
      '(msg, off) ← packStringTxt Txt msg off;
      Ok (msg, off, compression)
  | _ => Panic
  end.

Definition SRV_pack (rr : list fval) (compress : bool) : packer := fun msg off compression =>
  match rr with
  | [V_int Priority; V_int Weight; V_int Port; V_str Target] =>
      '(msg, off) ← packUint16 Priority msg off;
      '(msg, off) ← packUint16 Weight msg off;
      '(msg, off) ← packUint16 Port msg off;
      '(msg, off, compression) ← packDomainName Target msg off compression false;
      Ok (msg, off, compression)
  | _ => Panic
  end.

Definition SSHFP_pack (rr : list fval) (compress : bool) : packer := fun msg off compression =>
  match rr with
  | [V_int Algorithm; V_int Type_; V_str FingerPrint] =>
      '(msg, off) ← packUint8 Algorithm msg off;
      '(msg, off) ← packUint8 Type_ msg off;
      '(msg, off) ← packStringHex FingerPrint msg off;
      Ok (msg, off, compression)
  | _ => Panic
  end.

Definition SVCB_pack (rr : list fval) (compress : bool) : packer := fun msg off compression =>
  match rr with
  | [V_int Priority; V_str Target; V_pairs Value] =>
      '(msg, off) ← packUint16 Priority msg off;
      '(msg, off, compression) ← packDomainName Target msg off compression false;
      '(msg, off) ← packDataSVCB Value msg off;
      Ok (msg, off, compression)
  | _ => Panic
  end.

Definition TA_pack (rr : list fval) (compress : bool) : packer := fun msg off compression =>
  match rr with
  | [V_int KeyTag; V_int Algorithm; V_int DigestType; V_str Digest] =>
      '(msg, off) ← packUint16 KeyTag msg off;
      '(msg, off) ← packUint8 Algorithm msg off;
      '(msg, off) ← packUint8 DigestType msg off;
      '(msg, off) ← packStringHex Digest msg off;
      Ok (msg, off, compression)
  | _ => Panic
  end.

Definition TALINK_pack (rr : list fval) (compress : bool) : packer := fun msg off compression =>
  match rr with
  | [V_str PreviousName; V_str NextName] =>
      '(msg, off, compression) ← packDomainName PreviousName msg off compression false;
      '(msg, off, compression) ← packDomainName NextName msg off compression false;
      Ok (msg, off, compression)
  | _ => Panic
  end.

Definition TKEY_pack (rr : list fval) (compress : bool) : packer := fun msg off compression =>
  match rr with
  | [V_str Algorithm; V_int Inception; V_int Expiration; V_int Mode; V_int Error_; V_int KeySize; V_str Key_; V_int OtherLen; V_str OtherData] =>
      '(msg, off, compression) ← packDomainName Algorithm msg off compression false;
      '(msg, off) ← packUint32 Inception msg off;
      '(msg, off) ← packUint32 Expiration msg off;
      '(msg, off) ← packUint16 Mode msg off;
      '(msg, off) ← packUint16 Error_ msg off;
      '(msg, off) ← packUint16 KeySize msg off;
      '(msg, off) ← packStringHex Key_ msg off;
      '(msg, off) ← packUint16 OtherLen msg off;
      '(msg, off) ← packStringHex OtherData msg off;
      Ok (msg, off, compression)
  | _ => Panic
  end.

Definition TLSA_pack (rr : list fval) (compress : bool) : packer := fun msg off compression =>
  match rr with
  | [V_int Usage; V_int Selector; V_int MatchingType; V_str Certificate] =>
      '(msg, off) ← packUint8 Usage msg off;
      '(msg, off) ← packUint8 Selector msg off;
      '(msg, off) ← packUint8 MatchingType msg off;
      '(msg, off) ← packStringHex Certificate msg off;
      Ok (msg, off, compression)
  | _ => Panic
  end.

Definition TSIG_pack (rr : list fval) (compress : bool) : packer := fun msg off compression =>
  match rr with
  | [V_str Algorithm; V_int TimeSigned; V_int Fudge; V_int MACSize; V_str MAC; V_int OrigId; V_int Error_; V_int OtherLen; V_str OtherData] =>
      '(msg, off, compression) ← packDomainName Algorithm msg off compression false;
      '(msg, off) ← packUint48 TimeSigned msg off;
      '(msg, off) ← packUint16 Fudge msg off;
      '(msg, off) ← packUint16 MACSize msg off;
      '(msg, off) ← packStringHex MAC msg off;
      '(msg, off) ← packUint16 OrigId msg off;
      '(msg, off) ← packUint16 Error_ msg off;
      '(msg, off) ← packUint16 OtherLen msg off;
      '(msg, off) ← packStringHex OtherData msg off;
      Ok (msg, off, compression)
  | _ => Panic
  end.

Definition TXT_pack (rr : list fval) (compress : bool) : packer := fun msg off compression =>
  match rr with
  | [V_strs Txt] =>
      '(msg, off) ← packStringTxt Txt msg off;
      Ok (msg, off, compression)
  | _ => Panic
  end.

Definition UID_pack (rr : list fval) (compress : bool) : packer := fun msg off compression =>
  match rr with
  | [V_int Uid] =>
      '(msg, off) ← packUint32 Uid msg off;
      Ok (msg, off, compression)
  | _ => Panic
  end.

Definition UINFO_pack (rr : list fval) (compress : bool) : packer := fun msg off compression =>
  match rr with
  | [V_str Uinfo] =>
      '(msg, off) ← packString Uinfo msg off;
      Ok (msg, off, compression)
  | _ => Panic
  end.

Definition URI_pack (rr : list fval) (compress : bool) : packer := fun msg off compression =>
  match rr with
  | [V_int Priority; V_int Weight; V_str Target] =>
      '(msg, off) ← packUint16 Priority msg off;
      '(msg, off) ← packUint16 Weight msg off;
      '(msg, off) ← packStringOctet Target msg off;
      Ok (msg, off, compression)
  | _ => Panic
  end.

Definition X25_pack (rr : list fval) (compress : bool) : packer := fun msg off compression =>
  match rr with
  | [V_str PSDNAddress] =>
      '(msg, off) ← packString PSDNAddress msg off;
      Ok (msg, off, compression)
  | _ => Panic
  end.

Definition ZONEMD_pack (rr : list fval) (compress : bool) : packer := fun msg off compression =>
  match rr with
  | [V_int Serial; V_int Scheme; V_int Hash; V_str Digest] =>
      '(msg, off) ← packUint32 Serial msg off;
      '(msg, off) ← packUint8 Scheme msg off;
      '(msg, off) ← packUint8 Hash msg off;
      '(msg, off) ← packStringHex Digest msg off;
      Ok (msg, off, compression)
  | _ => Panic
  end.

(** The method of the struct a record is stored in. *)
Definition generated_pack (k : rrstruct) : list fval -> bool -> packer :=
  match k with
  | RR_A => A_pack
  | RR_NS => NS_pack
  | RR_MD => MD_pack
  | RR_MF => MF_pack
  | RR_CNAME => CNAME_pack
  | RR_SOA => SOA_pack
  | RR_MB => MB_pack
  | RR_MG => MG_pack
  | RR_MR => MR_pack
  | RR_NULL => NULL_pack
  | RR_PTR => PTR_pack
  | RR_HINFO => HINFO_pack
  | RR_MINFO => MINFO_pack
  | RR_MX => MX_pack
  | RR_TXT => TXT_pack
  | RR_RP => RP_pack
  | RR_AFSDB => AFSDB_pack
  | RR_X25 => X25_pack
  | RR_ISDN => ISDN_pack
  | RR_RT => RT_pack
  | RR_NSAPPTR => NSAPPTR_pack
  | RR_SIG => SIG_pack
  | RR_KEY => KEY_pack
  | RR_PX => PX_pack
  | RR_GPOS => GPOS_pack
  | RR_AAAA => AAAA_pack
  | RR_LOC => LOC_pack
  | RR_NXT => NXT_pack
  | RR_EID => EID_pack
  | RR_NIMLOC => NIMLOC_pack
  | RR_SRV => SRV_pack
  | RR_NAPTR => NAPTR_pack
  | RR_KX => KX_pack
  | RR_CERT => CERT_pack
  | RR_DNAME => DNAME_pack
  | RR_OPT => OPT_pack
  | RR_APL => APL_pack
  | RR_DS => DS_pack
  | RR_SSHFP => SSHFP_pack
  | RR_IPSECKEY => IPSECKEY_pack
  | RR_RRSIG => RRSIG_pack
  | RR_NSEC => NSEC_pack
  | RR_DNSKEY => DNSKEY_pack
  | RR_DHCID => DHCID_pack
  | RR_NSEC3 => NSEC3_pack
  | RR_NSEC3PARAM => NSEC3PARAM_pack
  | RR_TLSA => TLSA_pack
  | RR_SMIMEA => SMIMEA_pack
  | RR_HIP => HIP_pack
  | RR_NINFO => NINFO_pack
  | RR_RKEY => RKEY_pack
  | RR_TALINK => TALINK_pack
  | RR_CDS => CDS_pack
  | RR_CDNSKEY => CDNSKEY_pack
  | RR_OPENPGPKEY => OPENPGPKEY_pack
  | RR_CSYNC => CSYNC_pack
  | RR_ZONEMD => ZONEMD_pack
  | RR_SVCB => SVCB_pack
  | RR_HTTPS => HTTPS_pack
  | RR_SPF => SPF_pack
  | RR_UINFO => UINFO_pack
  | RR_UID => UID_pack
  | RR_GID => GID_pack
  | RR_NID => NID_pack
  | RR_L32 => L32_pack
  | RR_L64 => L64_pack
  | RR_LP => LP_pack
  | RR_EUI48 => EUI48_pack
  | RR_EUI64 => EUI64_pack
  | RR_NXNAME => NXNAME_pack
  | RR_TKEY => TKEY_pack
  | RR_TSIG => TSIG_pack
  | RR_ANY => ANY_pack
  | RR_URI => URI_pack
  | RR_CAA => CAA_pack
  | RR_AVC => AVC_pack
  | RR_AMTRELAY => AMTRELAY_pack
  | RR_RESINFO => RESINFO_pack
  | RR_TA => TA_pack
  | RR_DLV => DLV_pack
  | RR_RFC3597 => RFC3597_pack
  end.

(** ** The interpreter of the tags *)

Lemma plain_bind {B} pk msg off cm (f : bytes * Z * compressionMap -> wire B) :
  plain pk msg off cm ≫= f = pk msg off ≫= (fun '(m, o) => f (m, o, cm)).
Proof. unfold plain. by destruct (pk msg off) as [[m o]|?| |]. Qed.

Lemma bind_same {E A B} (r : res E A) (f g : A -> res E B) : (forall a, f a = g a) -> r ≫= f = r ≫= g.
Proof. intros H. destruct r; cbn; auto. Qed.

(** The salt of NSEC3, packed unless it is "-". *)
Lemma salt_bind {B} salt msg off cm (f : bytes * Z * compressionMap -> wire B) (g : bytes * Z -> wire B) :
  (forall m o, g (m, o) = f (m, o, cm)) ->
  (if bool_decide (salt = bs "-") then Ok (msg, off) else packStringHex salt msg off) ≫= g =
  (if bool_decide (salt = bs "-") then fun msg off cm => Ok (msg, off, cm) else plain (packStringHex salt)) msg off cm ≫= f.
Proof.
  intros H. case_bool_decide; [apply H|]. rewrite plain_bind. apply bind_same. by intros [? ?].
Qed.

(** A value list of a struct's types, field by field. *)
Ltac typed_values :=
  repeat match goal with
  | H : Forall2 _ (_ :: _) _ |- _ => apply Forall2_cons_inv_l in H as (? & ? & ? & ? & ->)
  | H : Forall2 _ [] _ |- _ => apply Forall2_nil_inv_l in H as ->
  end;
  repeat match goal with H : has_type _ ?v |- _ => destruct v; cbn [has_type snd] in H; try done; clear H end.

Ltac struct_values k H :=
  destruct k; match type of H with Forall2 _ ?fs _ => let fs' := eval hnf in fs in change fs with fs' in H |- * end; typed_values.

Ltac same_pack :=
  repeat (cbn [pack_fields pack_field]; first
    [ reflexivity
    | rewrite plain_bind; apply bind_same; intros [? ?]; cbv beta iota
    | apply salt_bind; intros ? ?; cbv beta iota
    | apply bind_same; intros [[? ?] ?]; cbv beta iota ]).

(** C19: for every struct and all values of its fields' types, the generated
    [pack] method does what the interpreter of the struct tags does. *)
Theorem generated_pack_fields k vs compress msg off cm : Forall2 (fun f v => has_type f.2 v) (fields k) vs ->
  generated_pack k vs compress msg off cm = pack_fields (members_of (fields k) vs) (fields k) vs compress msg off cm.
Proof.
  intros H. struct_values k H; cbn [generated_pack A_pack NS_pack MD_pack MF_pack CNAME_pack SOA_pack MB_pack MG_pack MR_pack NULL_pack PTR_pack HINFO_pack MINFO_pack MX_pack TXT_pack RP_pack AFSDB_pack X25_pack ISDN_pack RT_pack NSAPPTR_pack SIG_pack KEY_pack PX_pack GPOS_pack AAAA_pack LOC_pack NXT_pack EID_pack NIMLOC_pack SRV_pack NAPTR_pack KX_pack CERT_pack DNAME_pack OPT_pack APL_pack DS_pack SSHFP_pack IPSECKEY_pack RRSIG_pack NSEC_pack DNSKEY_pack DHCID_pack NSEC3_pack NSEC3PARAM_pack TLSA_pack SMIMEA_pack HIP_pack NINFO_pack RKEY_pack TALINK_pack CDS_pack CDNSKEY_pack OPENPGPKEY_pack CSYNC_pack ZONEMD_pack SVCB_pack HTTPS_pack SPF_pack UINFO_pack UID_pack GID_pack NID_pack L32_pack L64_pack LP_pack EUI48_pack EUI64_pack NXNAME_pack TKEY_pack TSIG_pack ANY_pack URI_pack CAA_pack AVC_pack AMTRELAY_pack RESINFO_pack TA_pack DLV_pack RFC3597_pack]; same_pack.
Qed.

Lemma generated_pack_fields_witness :
  generated_pack RR_MX [V_int 10; V_str (bs "m.")] false (replicate 5 x00) 0 nil_map = Ok (map byte_of [0; 10; 1; 109; 0], 5, nil_map).
Proof.
  rewrite (generated_pack_fields RR_MX [V_int 10; V_str (bs "m.")]); [vm_compute; reflexivity|].
  repeat constructor; vm_compute; congruence.
Defined.
