(* ===== verification/Zunpack.v ===== *)
(** * zmsg.go: the generated [unpack] methods

    Translated line by line like Zpack.v, and proved equal to [unpack_fields] of
    RData.v.  [Rdlength] is the field of the receiver's header. *)

From Stdlib Require String.
From S2P Require Import Prelude Go Names Codec Wire Nsec Encodings Apl Edns Svcb RData Safety.

(** [fmt.Errorf("ctx: %w", err)] around the error of a field. *)
Definition wrap {A} (ctx : String.string) (r : wire A) : wire A := on_err (fun e => (e.1, Errorf ctx e.2)) r.
Arguments wrap {A} ctx%_string_scope r.

(** ** The methods *)

Definition A_unpack (Rdlength : Z) : unpacker (list fval) := fun msg off =>
  let rdStart := off in
  '(A_, off) ← wrap "A" (unpackDataA msg off);
  Ok ([V_str A_], off).

Definition AAAA_unpack (Rdlength : Z) : unpacker (list fval) := fun msg off =>
  let rdStart := off in
  '(AAAA, off) ← wrap "AAAA" (unpackDataAAAA msg off);
  Ok ([V_str AAAA], off).

Definition AFSDB_unpack (Rdlength : Z) : unpacker (list fval) := fun msg off =>
  let rdStart := off in
  '(Subtype, off) ← wrap "AFSDB.Subtype" (unpackUint16 msg off);
  if off =? zlen msg then Ok ([V_int Subtype; V_str []], off) else
  '(Hostname, off) ← wrap "AFSDB.Hostname" (UnpackDomainName msg off);
  Ok ([V_int Subtype; V_str Hostname], off).

Definition AMTRELAY_unpack (Rdlength : Z) : unpacker (list fval) := fun msg off =>
  let rdStart := off in
  '(Precedence, off) ← wrap "AMTRELAY.Precedence" (unpackUint8 msg off);
  if off =? zlen msg then Ok ([V_int Precedence; V_int 0; V_gateway [] []], off) else
  '(GatewayType, off) ← wrap "AMTRELAY.GatewayType" (unpackUint8 msg off);
  if off =? zlen msg then Ok ([V_int Precedence; V_int GatewayType; V_gateway [] []], off) else
  if off =? zlen msg then Ok ([V_int Precedence; V_int GatewayType; V_gateway [] []], off) else
  '((GatewayAddr, GatewayHost), off) ← wrap "AMTRELAY.GatewayHost" (unpackIPSECGateway GatewayType msg off);
  Ok ([V_int Precedence; V_int GatewayType; V_gateway GatewayAddr GatewayHost], off).

Definition ANY_unpack (Rdlength : Z) : unpacker (list fval) := fun msg off =>
  let rdStart := off in
  Ok ([], off).

Definition APL_unpack (Rdlength : Z) : unpacker (list fval) := fun msg off =>
  let rdStart := off in
  '(Prefixes, off) ← wrap "APL.Prefixes" (unpackDataApl msg off);
  Ok ([V_apl Prefixes], off).

Definition AVC_unpack (Rdlength : Z) : unpacker (list fval) := fun msg off =>
  let rdStart := off in
  '(Txt, off) ← wrap "AVC.Txt" (unpackStringTxt msg off);
  Ok ([V_strs Txt], off).

Definition CAA_unpack (Rdlength : Z) : unpacker (list fval) := fun msg off =>
  let rdStart := off in
  '(Flag, off) ← wrap "CAA.Flag" (unpackUint8 msg off);
  if off =? zlen msg then Ok ([V_int Flag; V_str []; V_str []], off) else
  '(Tag, off) ← wrap "CAA.Tag" (unpackString msg off);
  if off =? zlen msg then Ok ([V_int Flag; V_str Tag; V_str []], off) else
  '(Value, off) ← wrap "CAA.Value" (unpackStringOctet msg off);
  Ok ([V_int Flag; V_str Tag; V_str Value], off).

Definition CDNSKEY_unpack (Rdlength : Z) : unpacker (list fval) := fun msg off =>
  let rdStart := off in
  '(Flags, off) ← wrap "CDNSKEY.Flags" (unpackUint16 msg off);
  if off =? zlen msg then Ok ([V_int Flags; V_int 0; V_int 0; V_str []], off) else
  '(Protocol, off) ← wrap "CDNSKEY.Protocol" (unpackUint8 msg off);
  if off =? zlen msg then Ok ([V_int Flags; V_int Protocol; V_int 0; V_str []], off) else
  '(Algorithm, off) ← wrap "CDNSKEY.Algorithm" (unpackUint8 msg off);
  if off =? zlen msg then Ok ([V_int Flags; V_int Protocol; V_int Algorithm; V_str []], off) else
  '(PublicKey, off) ← wrap "CDNSKEY.PublicKey" (unpackStringBase64 msg off (rdStart + Rdlength));
  Ok ([V_int Flags; V_int Protocol; V_int Algorithm; V_str PublicKey], off).

Definition CDS_unpack (Rdlength : Z) : unpacker (list fval) := fun msg off =>
  let rdStart := off in
  '(KeyTag, off) ← wrap "CDS.KeyTag" (unpackUint16 msg off);
  if off =? zlen msg then Ok ([V_int KeyTag; V_int 0; V_int 0; V_str []], off) else
  '(Algorithm, off) ← wrap "CDS.Algorithm" (unpackUint8 msg off);
  if off =? zlen msg then Ok ([V_int KeyTag; V_int Algorithm; V_int 0; V_str []], off) else
  '(DigestType, off) ← wrap "CDS.DigestType" (unpackUint8 msg off);
  if off =? zlen msg then Ok ([V_int KeyTag; V_int Algorithm; V_int DigestType; V_str []], off) else
  '(Digest, off) ← wrap "CDS.Digest" (unpackStringHex msg off (rdStart + Rdlength));
  Ok ([V_int KeyTag; V_int Algorithm; V_int DigestType; V_str Digest], off).

Definition CERT_unpack (Rdlength : Z) : unpacker (list fval) := fun msg off =>
  let rdStart := off in
  '(Type_, off) ← wrap "CERT.Type" (unpackUint16 msg off);
  if off =? zlen msg then Ok ([V_int Type_; V_int 0; V_int 0; V_str []], off) else
  '(KeyTag, off) ← wrap "CERT.KeyTag" (unpackUint16 msg off);
  if off =? zlen msg then Ok ([V_int Type_; V_int KeyTag; V_int 0; V_str []], off) else
  '(Algorithm, off) ← wrap "CERT.Algorithm" (unpackUint8 msg off);
  if off =? zlen msg then Ok ([V_int Type_; V_int KeyTag; V_int Algorithm; V_str []], off) else
  '(Certificate, off) ← wrap "CERT.Certificate" (unpackStringBase64 msg off (rdStart + Rdlength));
  Ok ([V_int Type_; V_int KeyTag; V_int Algorithm; V_str Certificate], off).

Definition CNAME_unpack (Rdlength : Z) : unpacker (list fval) := fun msg off =>
  let rdStart := off in
  '(Target, off) ← wrap "CNAME.Target" (UnpackDomainName msg off);
  Ok ([V_str Target], off).

Definition CSYNC_unpack (Rdlength : Z) : unpacker (list fval) := fun msg off =>
  let rdStart := off in
  '(Serial, off) ← wrap "CSYNC.Serial" (unpackUint32 msg off);
  if off =? zlen msg then Ok ([V_int Serial; V_int 0; V_types []], off) else
  '(Flags, off) ← wrap "CSYNC.Flags" (unpackUint16 msg off);
  if off =? zlen msg then Ok ([V_int Serial; V_int Flags; V_types []], off) else
  '(TypeBitMap, off) ← wrap "CSYNC.TypeBitMap" (unpackDataNsec msg off);
  Ok ([V_int Serial; V_int Flags; V_types TypeBitMap], off).

Definition DHCID_unpack (Rdlength : Z) : unpacker (list fval) := fun msg off =>
  let rdStart := off in
  '(Digest, off) ← wrap "DHCID.Digest" (unpackStringBase64 msg off (rdStart + Rdlength));
  Ok ([V_str Digest], off).

Definition DLV_unpack (Rdlength : Z) : unpacker (list fval) := fun msg off =>
  let rdStart := off in
  '(KeyTag, off) ← wrap "DLV.KeyTag" (unpackUint16 msg off);
  if off =? zlen msg then Ok ([V_int KeyTag; V_int 0; V_int 0; V_str []], off) else
  '(Algorithm, off) ← wrap "DLV.Algorithm" (unpackUint8 msg off);
  if off =? zlen msg then Ok ([V_int KeyTag; V_int Algorithm; V_int 0; V_str []], off) else
  '(DigestType, off) ← wrap "DLV.DigestType" (unpackUint8 msg off);
  if off =? zlen msg then Ok ([V_int KeyTag; V_int Algorithm; V_int DigestType; V_str []], off) else
  '(Digest, off) ← wrap "DLV.Digest" (unpackStringHex msg off (rdStart + Rdlength));
  Ok ([V_int KeyTag; V_int Algorithm; V_int DigestType; V_str Digest], off).

Definition DNAME_unpack (Rdlength : Z) : unpacker (list fval) := fun msg off =>
  let rdStart := off in
  '(Target, off) ← wrap "DNAME.Target" (UnpackDomainName msg off);
  Ok ([V_str Target], off).

Definition DNSKEY_unpack (Rdlength : Z) : unpacker (list fval) := fun msg off =>
  let rdStart := off in
  '(Flags, off) ← wrap "DNSKEY.Flags" (unpackUint16 msg off);
  if off =? zlen msg then Ok ([V_int Flags; V_int 0; V_int 0; V_str []], off) else
  '(Protocol, off) ← wrap "DNSKEY.Protocol" (unpackUint8 msg off);
  if off =? zlen msg then Ok ([V_int Flags; V_int Protocol; V_int 0; V_str []], off) else
  '(Algorithm, off) ← wrap "DNSKEY.Algorithm" (unpackUint8 msg off);
  if off =? zlen msg then Ok ([V_int Flags; V_int Protocol; V_int Algorithm; V_str []], off) else
  '(PublicKey, off) ← wrap "DNSKEY.PublicKey" (unpackStringBase64 msg off (rdStart + Rdlength));
  Ok ([V_int Flags; V_int Protocol; V_int Algorithm; V_str PublicKey], off).

Definition DS_unpack (Rdlength : Z) : unpacker (list fval) := fun msg off =>
  let rdStart := off in
  '(KeyTag, off) ← wrap "DS.KeyTag" (unpackUint16 msg off);
  if off =? zlen msg then Ok ([V_int KeyTag; V_int 0; V_int 0; V_str []], off) else
  '(Algorithm, off) ← wrap "DS.Algorithm" (unpackUint8 msg off);
  if off =? zlen msg then Ok ([V_int KeyTag; V_int Algorithm; V_int 0; V_str []], off) else
  '(DigestType, off) ← wrap "DS.DigestType" (unpackUint8 msg off);
  if off =? zlen msg then Ok ([V_int KeyTag; V_int Algorithm; V_int DigestType; V_str []], off) else
  '(Digest, off) ← wrap "DS.Digest" (unpackStringHex msg off (rdStart + Rdlength));
  Ok ([V_int KeyTag; V_int Algorithm; V_int DigestType; V_str Digest], off).

Definition EID_unpack (Rdlength : Z) : unpacker (list fval) := fun msg off =>
  let rdStart := off in
  '(Endpoint, off) ← wrap "EID.Endpoint" (unpackStringHex msg off (rdStart + Rdlength));
  Ok ([V_str Endpoint], off).

Definition EUI48_unpack (Rdlength : Z) : unpacker (list fval) := fun msg off =>
  let rdStart := off in
  '(Address, off) ← wrap "EUI48.Address" (unpackUint48 msg off);
  Ok ([V_int Address], off).

Definition EUI64_unpack (Rdlength : Z) : unpacker (list fval) := fun msg off =>
  let rdStart := off in
  '(Address, off) ← wrap "EUI64.Address" (unpackUint64 msg off);
  Ok ([V_int Address], off).

Definition GID_unpack (Rdlength : Z) : unpacker (list fval) := fun msg off =>
  let rdStart := off in
  '(Gid, off) ← wrap "GID.Gid" (unpackUint32 msg off);
  Ok ([V_int Gid], off).

Definition GPOS_unpack (Rdlength : Z) : unpacker (list fval) := fun msg off =>
  let rdStart := off in
  '(Longitude, off) ← wrap "GPOS.Longitude" (unpackString msg off);
  if off =? zlen msg then Ok ([V_str Longitude; V_str []; V_str []], off) else
  '(Latitude, off) ← wrap "GPOS.Latitude" (unpackString msg off);
  if off =? zlen msg then Ok ([V_str Longitude; V_str Latitude; V_str []], off) else
  '(Altitude, off) ← wrap "GPOS.Altitude" (unpackString msg off);
  Ok ([V_str Longitude; V_str Latitude; V_str Altitude], off).

Definition HINFO_unpack (Rdlength : Z) : unpacker (list fval) := fun msg off =>
  let rdStart := off in
  '(Cpu, off) ← wrap "HINFO.Cpu" (unpackString msg off);
  if off =? zlen msg then Ok ([V_str Cpu; V_str []], off) else
  '(Os, off) ← wrap "HINFO.Os" (unpackString msg off);
  Ok ([V_str Cpu; V_str Os], off).

Definition HIP_unpack (Rdlength : Z) : unpacker (list fval) := fun msg off =>
  let rdStart := off in
  '(HitLength, off) ← wrap "HIP.HitLength" (unpackUint8 msg off);
  if off =? zlen msg then Ok ([V_int HitLength; V_int 0; V_int 0; V_str []; V_str []; V_strs []], off) else
  '(PublicKeyAlgorithm, off) ← wrap "HIP.PublicKeyAlgorithm" (unpackUint8 msg off);
  if off =? zlen msg then Ok ([V_int HitLength; V_int PublicKeyAlgorithm; V_int 0; V_str []; V_str []; V_strs []], off) else
  '(PublicKeyLength, off) ← wrap "HIP.PublicKeyLength" (unpackUint16 msg off);
  if off =? zlen msg then Ok ([V_int HitLength; V_int PublicKeyAlgorithm; V_int PublicKeyLength; V_str []; V_str []; V_strs []], off) else
  '(Hit, off) ← unpackStringHex msg off (off + HitLength);
  '(PublicKey, off) ← unpackStringBase64 msg off (off + PublicKeyLength);
  '(RendezvousServers, off) ← wrap "HIP.RendezvousServers" (unpackDataDomainNames msg off (rdStart + Rdlength));
  Ok ([V_int HitLength; V_int PublicKeyAlgorithm; V_int PublicKeyLength; V_str Hit; V_str PublicKey; V_strs RendezvousServers], off).

Definition HTTPS_unpack (Rdlength : Z) : unpacker (list fval) := fun msg off =>
  let rdStart := off in
  '(Priority, off) ← wrap "HTTPS.Priority" (unpackUint16 msg off);
  if off =? zlen msg then Ok ([V_int Priority; V_str []; V_pairs []], off) else
  '(Target, off) ← wrap "HTTPS.Target" (UnpackDomainName msg off);
  if off =? zlen msg then Ok ([V_int Priority; V_str Target; V_pairs []], off) else
  '(Value, off) ← wrap "HTTPS.Value" (unpackDataSVCB msg off);
  Ok ([V_int Priority; V_str Target; V_pairs Value], off).

Definition IPSECKEY_unpack (Rdlength : Z) : unpacker (list fval) := fun msg off =>
  let rdStart := off in
  '(Precedence, off) ← wrap "IPSECKEY.Precedence" (unpackUint8 msg off);
  if off =? zlen msg then Ok ([V_int Precedence; V_int 0; V_int 0; V_gateway [] []; V_str []], off) else
  '(GatewayType, off) ← wrap "IPSECKEY.GatewayType" (unpackUint8 msg off);
  if off =? zlen msg then Ok ([V_int Precedence; V_int GatewayType; V_int 0; V_gateway [] []; V_str []], off) else
  '(Algorithm, off) ← wrap "IPSECKEY.Algorithm" (unpackUint8 msg off);
  if off =? zlen msg then Ok ([V_int Precedence; V_int GatewayType; V_int Algorithm; V_gateway [] []; V_str []], off) else
  if off =? zlen msg then Ok ([V_int Precedence; V_int GatewayType; V_int Algorithm; V_gateway [] []; V_str []], off) else
  '((GatewayAddr, GatewayHost), off) ← wrap "IPSECKEY.GatewayHost" (unpackIPSECGateway GatewayType msg off);
  if off =? zlen msg then Ok ([V_int Precedence; V_int GatewayType; V_int Algorithm; V_gateway GatewayAddr GatewayHost; V_str []], off) else
  '(PublicKey, off) ← wrap "IPSECKEY.PublicKey" (unpackStringBase64 msg off (rdStart + Rdlength));
  Ok ([V_int Precedence; V_int GatewayType; V_int Algorithm; V_gateway GatewayAddr GatewayHost; V_str PublicKey], off).

Definition ISDN_unpack (Rdlength : Z) : unpacker (list fval) := fun msg off =>
  let rdStart := off in
  '(Address, off) ← wrap "ISDN.Address" (unpackString msg off);
  if off =? zlen msg then Ok ([V_str Address; V_str []], off) else
  '(SubAddress, off) ← wrap "ISDN.SubAddress" (unpackString msg off);
  Ok ([V_str Address; V_str SubAddress], off).

Definition KEY_unpack (Rdlength : Z) : unpacker (list fval) := fun msg off =>
  let rdStart := off in
  '(Flags, off) ← wrap "KEY.Flags" (unpackUint16 msg off);
  if off =? zlen msg then Ok ([V_int Flags; V_int 0; V_int 0; V_str []], off) else
  '(Protocol, off) ← wrap "KEY.Protocol" (unpackUint8 msg off);
  if off =? zlen msg then Ok ([V_int Flags; V_int Protocol; V_int 0; V_str []], off) else
  '(Algorithm, off) ← wrap "KEY.Algorithm" (unpackUint8 msg off);
  if off =? zlen msg then Ok ([V_int Flags; V_int Protocol; V_int Algorithm; V_str []], off) else
  '(PublicKey, off) ← wrap "KEY.PublicKey" (unpackStringBase64 msg off (rdStart + Rdlength));
  Ok ([V_int Flags; V_int Protocol; V_int Algorithm; V_str PublicKey], off).

Definition KX_unpack (Rdlength : Z) : unpacker (list fval) := fun msg off =>
  let rdStart := off in
  '(Preference, off) ← wrap "KX.Preference" (unpackUint16 msg off);
  if off =? zlen msg then Ok ([V_int Preference; V_str []], off) else
  '(Exchanger, off) ← wrap "KX.Exchanger" (UnpackDomainName msg off);
  Ok ([V_int Preference; V_str Exchanger], off).

Definition L32_unpack (Rdlength : Z) : unpacker (list fval) := fun msg off =>
  let rdStart := off in
  '(Preference, off) ← wrap "L32.Preference" (unpackUint16 msg off);
  if off =? zlen msg then Ok ([V_int Preference; V_str []], off) else
  '(Locator32, off) ← wrap "L32.Locator32" (unpackDataA msg off);
  Ok ([V_int Preference; V_str Locator32], off).

Definition L64_unpack (Rdlength : Z) : unpacker (list fval) := fun msg off =>
  let rdStart := off in
  '(Preference, off) ← wrap "L64.Preference" (unpackUint16 msg off);
  if off =? zlen msg then Ok ([V_int Preference; V_int 0], off) else
  '(Locator64, off) ← wrap "L64.Locator64" (unpackUint64 msg off);
  Ok ([V_int Preference; V_int Locator64], off).

Definition LOC_unpack (Rdlength : Z) : unpacker (list fval) := fun msg off =>
  let rdStart := off in
  '(Version, off) ← wrap "LOC.Version" (unpackUint8 msg off);
  if off =? zlen msg then Ok ([V_int Version; V_int 0; V_int 0; V_int 0; V_int 0; V_int 0; V_int 0], off) else
  '(Size, off) ← wrap "LOC.Size" (unpackUint8 msg off);
  if off =? zlen msg then Ok ([V_int Version; V_int Size; V_int 0; V_int 0; V_int 0; V_int 0; V_int 0], off) else
  '(HorizPre, off) ← wrap "LOC.HorizPre" (unpackUint8 msg off);
  if off =? zlen msg then Ok ([V_int Version; V_int Size; V_int HorizPre; V_int 0; V_int 0; V_int 0; V_int 0], off) else
  '(VertPre, off) ← wrap "LOC.VertPre" (unpackUint8 msg off);
  if off =? zlen msg then Ok ([V_int Version; V_int Size; V_int HorizPre; V_int VertPre; V_int 0; V_int 0; V_int 0], off) else
  '(Latitude, off) ← wrap "LOC.Latitude" (unpackUint32 msg off);
  if off =? zlen msg then Ok ([V_int Version; V_int Size; V_int HorizPre; V_int VertPre; V_int Latitude; V_int 0; V_int 0], off) else
  '(Longitude, off) ← wrap "LOC.Longitude" (unpackUint32 msg off);
  if off =? zlen msg then Ok ([V_int Version; V_int Size; V_int HorizPre; V_int VertPre; V_int Latitude; V_int Longitude; V_int 0], off) else
  '(Altitude, off) ← wrap "LOC.Altitude" (unpackUint32 msg off);
  Ok ([V_int Version; V_int Size; V_int HorizPre; V_int VertPre; V_int Latitude; V_int Longitude; V_int Altitude], off).

Definition LP_unpack (Rdlength : Z) : unpacker (list fval) := fun msg off =>
  let rdStart := off in
  '(Preference, off) ← wrap "LP.Preference" (unpackUint16 msg off);
  if off =? zlen msg then Ok ([V_int Preference; V_str []], off) else
  '(Fqdn, off) ← wrap "LP.Fqdn" (UnpackDomainName msg off);
  Ok ([V_int Preference; V_str Fqdn], off).

Definition MB_unpack (Rdlength : Z) : unpacker (list fval) := fun msg off =>
  let rdStart := off in
  '(Mb, off) ← wrap "MB.Mb" (UnpackDomainName msg off);
  Ok ([V_str Mb], off).

Definition MD_unpack (Rdlength : Z) : unpacker (list fval) := fun msg off =>
  let rdStart := off in
  '(Md, off) ← wrap "MD.Md" (UnpackDomainName msg off);
  Ok ([V_str Md], off).

Definition MF_unpack (Rdlength : Z) : unpacker (list fval) := fun msg off =>
  let rdStart := off in
  '(Mf, off) ← wrap "MF.Mf" (UnpackDomainName msg off);
  Ok ([V_str Mf], off).

Definition MG_unpack (Rdlength : Z) : unpacker (list fval) := fun msg off =>
  let rdStart := off in
  '(Mg, off) ← wrap "MG.Mg" (UnpackDomainName msg off);
  Ok ([V_str Mg], off).

Definition MINFO_unpack (Rdlength : Z) : unpacker (list fval) := fun msg off =>
  let rdStart := off in
  '(Rmail, off) ← wrap "MINFO.Rmail" (UnpackDomainName msg off);
  if off =? zlen msg then Ok ([V_str Rmail; V_str []], off) else
  '(Email, off) ← wrap "MINFO.Email" (UnpackDomainName msg off);
  Ok ([V_str Rmail; V_str Email], off).

Definition MR_unpack (Rdlength : Z) : unpacker (list fval) := fun msg off =>
  let rdStart := off in
  '(Mr, off) ← wrap "MR.Mr" (UnpackDomainName msg off);
  Ok ([V_str Mr], off).

Definition MX_unpack (Rdlength : Z) : unpacker (list fval) := fun msg off =>
  let rdStart := off in
  '(Preference, off) ← wrap "MX.Preference" (unpackUint16 msg off);
  if off =? zlen msg then Ok ([V_int Preference; V_str []], off) else
  '(Mx, off) ← wrap "MX.Mx" (UnpackDomainName msg off);
  Ok ([V_int Preference; V_str Mx], off).

Definition NAPTR_unpack (Rdlength : Z) : unpacker (list fval) := fun msg off =>
  let rdStart := off in
  '(Order, off) ← wrap "NAPTR.Order" (unpackUint16 msg off);
  if off =? zlen msg then Ok ([V_int Order; V_int 0; V_str []; V_str []; V_str []; V_str []], off) else
  '(Preference, off) ← wrap "NAPTR.Preference" (unpackUint16 msg off);
  if off =? zlen msg then Ok ([V_int Order; V_int Preference; V_str []; V_str []; V_str []; V_str []], off) else
  '(Flags, off) ← wrap "NAPTR.Flags" (unpackString msg off);
  if off =? zlen msg then Ok ([V_int Order; V_int Preference; V_str Flags; V_str []; V_str []; V_str []], off) else
  '(Service, off) ← wrap "NAPTR.Service" (unpackString msg off);
  if off =? zlen msg then Ok ([V_int Order; V_int Preference; V_str Flags; V_str Service; V_str []; V_str []], off) else
  '(Regexp, off) ← wrap "NAPTR.Regexp" (unpackString msg off);
  if off =? zlen msg then Ok ([V_int Order; V_int Preference; V_str Flags; V_str Service; V_str Regexp; V_str []], off) else
  '(Replacement, off) ← wrap "NAPTR.Replacement" (UnpackDomainName msg off);
  Ok ([V_int Order; V_int Preference; V_str Flags; V_str Service; V_str Regexp; V_str Replacement], off).

Definition NID_unpack (Rdlength : Z) : unpacker (list fval) := fun msg off =>
  let rdStart := off in
  '(Preference, off) ← wrap "NID.Preference" (unpackUint16 msg off);
  if off =? zlen msg then Ok ([V_int Preference; V_int 0], off) else
  '(NodeID, off) ← wrap "NID.NodeID" (unpackUint64 msg off);
  Ok ([V_int Preference; V_int NodeID], off).

Definition NIMLOC_unpack (Rdlength : Z) : unpacker (list fval) := fun msg off =>
  let rdStart := off in
  '(Locator, off) ← wrap "NIMLOC.Locator" (unpackStringHex msg off (rdStart + Rdlength));
  Ok ([V_str Locator], off).

Definition NINFO_unpack (Rdlength : Z) : unpacker (list fval) := fun msg off =>
  let rdStart := off in
  '(ZSData, off) ← wrap "NINFO.ZSData" (unpackStringTxt msg off);
  Ok ([V_strs ZSData], off).

Definition NS_unpack (Rdlength : Z) : unpacker (list fval) := fun msg off =>
  let rdStart := off in
  '(Ns, off) ← wrap "NS.Ns" (UnpackDomainName msg off);
  Ok ([V_str Ns], off).

Definition NSAPPTR_unpack (Rdlength : Z) : unpacker (list fval) := fun msg off =>
  let rdStart := off in
  '(Ptr, off) ← wrap "NSAPPTR.Ptr" (UnpackDomainName msg off);
  Ok ([V_str Ptr], off).

Definition NSEC_unpack (Rdlength : Z) : unpacker (list fval) := fun msg off =>
  let rdStart := off in
  '(NextDomain, off) ← wrap "NSEC.NextDomain" (UnpackDomainName msg off);
  if off =? zlen msg then Ok ([V_str NextDomain; V_types []], off) else
  '(TypeBitMap, off) ← wrap "NSEC.TypeBitMap" (unpackDataNsec msg off);
  Ok ([V_str NextDomain; V_types TypeBitMap], off).

Definition NSEC3_unpack (Rdlength : Z) : unpacker (list fval) := fun msg off =>
  let rdStart := off in
  '(Hash, off) ← wrap "NSEC3.Hash" (unpackUint8 msg off);
  if off =? zlen msg then Ok ([V_int Hash; V_int 0; V_int 0; V_int 0; V_str []; V_int 0; V_str []; V_types []], off) else
  '(Flags, off) ← wrap "NSEC3.Flags" (unpackUint8 msg off);
  if off =? zlen msg then Ok ([V_int Hash; V_int Flags; V_int 0; V_int 0; V_str []; V_int 0; V_str []; V_types []], off) else
  '(Iterations, off) ← wrap "NSEC3.Iterations" (unpackUint16 msg off);
  if off =? zlen msg then Ok ([V_int Hash; V_int Flags; V_int Iterations; V_int 0; V_str []; V_int 0; V_str []; V_types []], off) else
  '(SaltLength, off) ← wrap "NSEC3.SaltLength" (unpackUint8 msg off);
  if off =? zlen msg then Ok ([V_int Hash; V_int Flags; V_int Iterations; V_int SaltLength; V_str []; V_int 0; V_str []; V_types []], off) else
  '(Salt, off) ← unpackStringHex msg off (off + SaltLength);
  '(HashLength, off) ← wrap "NSEC3.HashLength" (unpackUint8 msg off);
  if off =? zlen msg then Ok ([V_int Hash; V_int Flags; V_int Iterations; V_int SaltLength; V_str Salt; V_int HashLength; V_str []; V_types []], off) else
  '(NextDomain, off) ← unpackStringBase32 msg off (off + HashLength);
  '(TypeBitMap, off) ← wrap "NSEC3.TypeBitMap" (unpackDataNsec msg off);
  Ok ([V_int Hash; V_int Flags; V_int Iterations; V_int SaltLength; V_str Salt; V_int HashLength; V_str NextDomain; V_types TypeBitMap], off).

Definition NSEC3PARAM_unpack (Rdlength : Z) : unpacker (list fval) := fun msg off =>
  let rdStart := off in
  '(Hash, off) ← wrap "NSEC3PARAM.Hash" (unpackUint8 msg off);
  if off =? zlen msg then Ok ([V_int Hash; V_int 0; V_int 0; V_int 0; V_str []], off) else
  '(Flags, off) ← wrap "NSEC3PARAM.Flags" (unpackUint8 msg off);
  if off =? zlen msg then Ok ([V_int Hash; V_int Flags; V_int 0; V_int 0; V_str []], off) else
  '(Iterations, off) ← wrap "NSEC3PARAM.Iterations" (unpackUint16 msg off);
  if off =? zlen msg then Ok ([V_int Hash; V_int Flags; V_int Iterations; V_int 0; V_str []], off) else
  '(SaltLength, off) ← wrap "NSEC3PARAM.SaltLength" (unpackUint8 msg off);
  if off =? zlen msg then Ok ([V_int Hash; V_int Flags; V_int Iterations; V_int SaltLength; V_str []], off) else
  '(Salt, off) ← unpackStringHex msg off (off + SaltLength);
  Ok ([V_int Hash; V_int Flags; V_int Iterations; V_int SaltLength; V_str Salt], off).

Definition NULL_unpack (Rdlength : Z) : unpacker (list fval) := fun msg off =>
  let rdStart := off in
  '(Data, off) ← wrap "NULL.Data" (unpackStringAny msg off (rdStart + Rdlength));
  Ok ([V_str Data], off).

Definition NXNAME_unpack (Rdlength : Z) : unpacker (list fval) := fun msg off =>
  let rdStart := off in
  Ok ([], off).

Definition NXT_unpack (Rdlength : Z) : unpacker (list fval) := fun msg off =>
  let rdStart := off in
  '(NextDomain, off) ← wrap "NXT.NextDomain" (UnpackDomainName msg off);
  if off =? zlen msg then Ok ([V_str NextDomain; V_types []], off) else
  '(TypeBitMap, off) ← wrap "NXT.TypeBitMap" (unpackDataNsec msg off);
  Ok ([V_str NextDomain; V_types TypeBitMap], off).

Definition OPENPGPKEY_unpack (Rdlength : Z) : unpacker (list fval) := fun msg off =>
  let rdStart := off in
  '(PublicKey, off) ← wrap "OPENPGPKEY.PublicKey" (unpackStringBase64 msg off (rdStart + Rdlength));
  Ok ([V_str PublicKey], off).

Definition OPT_unpack (Rdlength : Z) : unpacker (list fval) := fun msg off =>
  let rdStart := off in
  '(Option, off) ← wrap "OPT.Option" (unpackDataOpt msg off);
  Ok ([V_opts Option], off).

Definition PTR_unpack (Rdlength : Z) : unpacker (list fval) := fun msg off =>
  let rdStart := off in
  '(Ptr, off) ← wrap "PTR.Ptr" (UnpackDomainName msg off);
  Ok ([V_str Ptr], off).

Definition PX_unpack (Rdlength : Z) : unpacker (list fval) := fun msg off =>
  let rdStart := off in
  '(Preference, off) ← wrap "PX.Preference" (unpackUint16 msg off);
  if off =? zlen msg then Ok ([V_int Preference; V_str []; V_str []], off) else
  '(Map822, off) ← wrap "PX.Map822" (UnpackDomainName msg off);
  if off =? zlen msg then Ok ([V_int Preference; V_str Map822; V_str []], off) else
  '(Mapx400, off) ← wrap "PX.Mapx400" (UnpackDomainName msg off);
  Ok ([V_int Preference; V_str Map822; V_str Mapx400], off).

Definition RESINFO_unpack (Rdlength : Z) : unpacker (list fval) := fun msg off =>
  let rdStart := off in
  '(Txt, off) ← unpackStringTxt msg off;
  Ok ([V_strs Txt], off).

Definition RFC3597_unpack (Rdlength : Z) : unpacker (list fval) := fun msg off =>
  let rdStart := off in
  '(Rdata, off) ← wrap "RFC3597.Rdata" (unpackStringHex msg off (rdStart + Rdlength));
  Ok ([V_str Rdata], off).

Definition RKEY_unpack (Rdlength : Z) : unpacker (list fval) := fun msg off =>
  let rdStart := off in
  '(Flags, off) ← wrap "RKEY.Flags" (unpackUint16 msg off);
  if off =? zlen msg then Ok ([V_int Flags; V_int 0; V_int 0; V_str []], off) else
  '(Protocol, off) ← wrap "RKEY.Protocol" (unpackUint8 msg off);
  if off =? zlen msg then Ok ([V_int Flags; V_int Protocol; V_int 0; V_str []], off) else
  '(Algorithm, off) ← wrap "RKEY.Algorithm" (unpackUint8 msg off);
  if off =? zlen msg then Ok ([V_int Flags; V_int Protocol; V_int Algorithm; V_str []], off) else
  '(PublicKey, off) ← wrap "RKEY.PublicKey" (unpackStringBase64 msg off (rdStart + Rdlength));
  Ok ([V_int Flags; V_int Protocol; V_int Algorithm; V_str PublicKey], off).

Definition RP_unpack (Rdlength : Z) : unpacker (list fval) := fun msg off =>
  let rdStart := off in
  '(Mbox, off) ← wrap "RP.Mbox" (UnpackDomainName msg off);
  if off =? zlen msg then Ok ([V_str Mbox; V_str []], off) else
  '(Txt, off) ← wrap "RP.Txt" (UnpackDomainName msg off);
  Ok ([V_str Mbox; V_str Txt], off).

Definition RRSIG_unpack (Rdlength : Z) : unpacker (list fval) := fun msg off =>
  let rdStart := off in
  '(TypeCovered, off) ← wrap "RRSIG.TypeCovered" (unpackUint16 msg off);
  if off =? zlen msg then Ok ([V_int TypeCovered; V_int 0; V_int 0; V_int 0; V_int 0; V_int 0; V_int 0; V_str []; V_str []], off) else
  '(Algorithm, off) ← wrap "RRSIG.Algorithm" (unpackUint8 msg off);
  if off =? zlen msg then Ok ([V_int TypeCovered; V_int Algorithm; V_int 0; V_int 0; V_int 0; V_int 0; V_int 0; V_str []; V_str []], off) else
  '(Labels, off) ← wrap "RRSIG.Labels" (unpackUint8 msg off);
  if off =? zlen msg then Ok ([V_int TypeCovered; V_int Algorithm; V_int Labels; V_int 0; V_int 0; V_int 0; V_int 0; V_str []; V_str []], off) else
  '(OrigTtl, off) ← wrap "RRSIG.OrigTtl" (unpackUint32 msg off);
  if off =? zlen msg then Ok ([V_int TypeCovered; V_int Algorithm; V_int Labels; V_int OrigTtl; V_int 0; V_int 0; V_int 0; V_str []; V_str []], off) else
  '(Expiration, off) ← wrap "RRSIG.Expiration" (unpackUint32 msg off);
  if off =? zlen msg then Ok ([V_int TypeCovered; V_int Algorithm; V_int Labels; V_int OrigTtl; V_int Expiration; V_int 0; V_int 0; V_str []; V_str []], off) else
  '(Inception, off) ← wrap "RRSIG.Inception" (unpackUint32 msg off);
  if off =? zlen msg then Ok ([V_int TypeCovered; V_int Algorithm; V_int Labels; V_int OrigTtl; V_int Expiration; V_int Inception; V_int 0; V_str []; V_str []], off) else
  '(KeyTag, off) ← wrap "RRSIG.KeyTag" (unpackUint16 msg off);
  if off =? zlen msg then Ok ([V_int TypeCovered; V_int Algorithm; V_int Labels; V_int OrigTtl; V_int Expiration; V_int Inception; V_int KeyTag; V_str []; V_str []], off) else
  '(SignerName, off) ← wrap "RRSIG.SignerName" (UnpackDomainName msg off);
  if off =? zlen msg then Ok ([V_int TypeCovered; V_int Algorithm; V_int Labels; V_int OrigTtl; V_int Expiration; V_int Inception; V_int KeyTag; V_str SignerName; V_str []], off) else
  '(Signature, off) ← wrap "RRSIG.Signature" (unpackStringBase64 msg off (rdStart + Rdlength));
  Ok ([V_int TypeCovered; V_int Algorithm; V_int Labels; V_int OrigTtl; V_int Expiration; V_int Inception; V_int KeyTag; V_str SignerName; V_str Signature], off).

Definition RT_unpack (Rdlength : Z) : unpacker (list fval) := fun msg off =>
  let rdStart := off in
  '(Preference, off) ← wrap "RT.Preference" (unpackUint16 msg off);
  if off =? zlen msg then Ok ([V_int Preference; V_str []], off) else
  '(Host, off) ← wrap "RT.Host" (UnpackDomainName msg off);
  Ok ([V_int Preference; V_str Host], off).

Definition SIG_unpack (Rdlength : Z) : unpacker (list fval) := fun msg off =>
  let rdStart := off in
  '(TypeCovered, off) ← wrap "SIG.TypeCovered" (unpackUint16 msg off);
  if off =? zlen msg then Ok ([V_int TypeCovered; V_int 0; V_int 0; V_int 0; V_int 0; V_int 0; V_int 0; V_str []; V_str []], off) else
  '(Algorithm, off) ← wrap "SIG.Algorithm" (unpackUint8 msg off);
  if off =? zlen msg then Ok ([V_int TypeCovered; V_int Algorithm; V_int 0; V_int 0; V_int 0; V_int 0; V_int 0; V_str []; V_str []], off) else
  '(Labels, off) ← wrap "SIG.Labels" (unpackUint8 msg off);
  if off =? zlen msg then Ok ([V_int TypeCovered; V_int Algorithm; V_int Labels; V_int 0; V_int 0; V_int 0; V_int 0; V_str []; V_str []], off) else
  '(OrigTtl, off) ← wrap "SIG.OrigTtl" (unpackUint32 msg off);
  if off =? zlen msg then Ok ([V_int TypeCovered; V_int Algorithm; V_int Labels; V_int OrigTtl; V_int 0; V_int 0; V_int 0; V_str []; V_str []], off) else
  '(Expiration, off) ← wrap "SIG.Expiration" (unpackUint32 msg off);
  if off =? zlen msg then Ok ([V_int TypeCovered; V_int Algorithm; V_int Labels; V_int OrigTtl; V_int Expiration; V_int 0; V_int 0; V_str []; V_str []], off) else
  '(Inception, off) ← wrap "SIG.Inception" (unpackUint32 msg off);
  if off =? zlen msg then Ok ([V_int TypeCovered; V_int Algorithm; V_int Labels; V_int OrigTtl; V_int Expiration; V_int Inception; V_int 0; V_str []; V_str []], off) else
  '(KeyTag, off) ← wrap "SIG.KeyTag" (unpackUint16 msg off);
  if off =? zlen msg then Ok ([V_int TypeCovered; V_int Algorithm; V_int Labels; V_int OrigTtl; V_int Expiration; V_int Inception; V_int KeyTag; V_str []; V_str []], off) else
  '(SignerName, off) ← wrap "SIG.SignerName" (UnpackDomainName msg off);
  if off =? zlen msg then Ok ([V_int TypeCovered; V_int Algorithm; V_int Labels; V_int OrigTtl; V_int Expiration; V_int Inception; V_int KeyTag; V_str SignerName; V_str []], off) else
  '(Signature, off) ← wrap "SIG.Signature" (unpackStringBase64 msg off (rdStart + Rdlength));
  Ok ([V_int TypeCovered; V_int Algorithm; V_int Labels; V_int OrigTtl; V_int Expiration; V_int Inception; V_int KeyTag; V_str SignerName; V_str Signature], off).

Definition SMIMEA_unpack (Rdlength : Z) : unpacker (list fval) := fun msg off =>
  let rdStart := off in
  '(Usage, off) ← wrap "SMIMEA.Usage" (unpackUint8 msg off);
  if off =? zlen msg then Ok ([V_int Usage; V_int 0; V_int 0; V_str []], off) else
  '(Selector, off) ← wrap "SMIMEA.Selector" (unpackUint8 msg off);
  if off =? zlen msg then Ok ([V_int Usage; V_int Selector; V_int 0; V_str []], off) else
  '(MatchingType, off) ← wrap "SMIMEA.MatchingType" (unpackUint8 msg off);
  if off =? zlen msg then Ok ([V_int Usage; V_int Selector; V_int MatchingType; V_str []], off) else
  '(Certificate, off) ← wrap "SMIMEA.Certificate" (unpackStringHex msg off (rdStart + Rdlength));
  Ok ([V_int Usage; V_int Selector; V_int MatchingType; V_str Certificate], off).

Definition SOA_unpack (Rdlength : Z) : unpacker (list fval) := fun msg off =>
  let rdStart := off in
  '(Ns, off) ← wrap "SOA.Ns" (UnpackDomainName msg off);
  if off =? zlen msg then Ok ([V_str Ns; V_str []; V_int 0; V_int 0; V_int 0; V_int 0; V_int 0], off) else
  '(Mbox, off) ← wrap "SOA.Mbox" (UnpackDomainName msg off);
  if off =? zlen msg then Ok ([V_str Ns; V_str Mbox; V_int 0; V_int 0; V_int 0; V_int 0; V_int 0], off) else
  '(Serial, off) ← wrap "SOA.Serial" (unpackUint32 msg off);
  if off =? zlen msg then Ok ([V_str Ns; V_str Mbox; V_int Serial; V_int 0; V_int 0; V_int 0; V_int 0], off) else
  '(Refresh, off) ← wrap "SOA.Refresh" (unpackUint32 msg off);
  if off =? zlen msg then Ok ([V_str Ns; V_str Mbox; V_int Serial; V_int Refresh; V_int 0; V_int 0; V_int 0], off) else
  '(Retry, off) ← wrap "SOA.Retry" (unpackUint32 msg off);
  if off =? zlen msg then Ok ([V_str Ns; V_str Mbox; V_int Serial; V_int Refresh; V_int Retry; V_int 0; V_int 0], off) else
  '(Expire, off) ← wrap "SOA.Expire" (unpackUint32 msg off);
  if off =? zlen msg then Ok ([V_str Ns; V_str Mbox; V_int Serial; V_int Refresh; V_int Retry; V_int Expire; V_int 0], off) else
  '(Minttl, off) ← wrap "SOA.Minttl" (unpackUint32 msg off);
  Ok ([V_str Ns; V_str Mbox; V_int Serial; V_int Refresh; V_int Retry; V_int Expire; V_int Minttl], off).

Definition SPF_unpack (Rdlength : Z) : unpacker (list fval) := fun msg off =>
  let rdStart := off in
  '(Txt, off) ← wrap "SPF.Txt" (unpackStringTxt msg off);
  Ok ([V_strs Txt], off).

Definition SRV_unpack (Rdlength : Z) : unpacker (list fval) := fun msg off =>
  let rdStart := off in
  '(Priority, off) ← wrap "SRV.Priority" (unpackUint16 msg off);
  if off =? zlen msg then Ok ([V_int Priority; V_int 0; V_int 0; V_str []], off) else
  '(Weight, off) ← wrap "SRV.Weight" (unpackUint16 msg off);
  if off =? zlen msg then Ok ([V_int Priority; V_int Weight; V_int 0; V_str []], off) else
  '(Port, off) ← wrap "SRV.Port" (unpackUint16 msg off);
  if off =? zlen msg then Ok ([V_int Priority; V_int Weight; V_int Port; V_str []], off) else
  '(Target, off) ← wrap "SRV.Target" (UnpackDomainName msg off);
  Ok ([V_int Priority; V_int Weight; V_int Port; V_str Target], off).

Definition SSHFP_unpack (Rdlength : Z) : unpacker (list fval) := fun msg off =>
  let rdStart := off in
  '(Algorithm, off) ← wrap "SSHFP.Algorithm" (unpackUint8 msg off);
  if off =? zlen msg then Ok ([V_int Algorithm; V_int 0; V_str []], off) else
  '(Type_, off) ← wrap "SSHFP.Type" (unpackUint8 msg off);
  if off =? zlen msg then Ok ([V_int Algorithm; V_int Type_; V_str []], off) else
  '(FingerPrint, off) ← wrap "SSHFP.FingerPrint" (unpackStringHex msg off (rdStart + Rdlength));
  Ok ([V_int Algorithm; V_int Type_; V_str FingerPrint], off).

Definition SVCB_unpack (Rdlength : Z) : unpacker (list fval) := fun msg off =>
  let rdStart := off in
  '(Priority, off) ← wrap "SVCB.Priority" (unpackUint16 msg off);
  if off =? zlen msg then Ok ([V_int Priority; V_str []; V_pairs []], off) else
  '(Target, off) ← wrap "SVCB.Target" (UnpackDomainName msg off);
  if off =? zlen msg then Ok ([V_int Priority; V_str Target; V_pairs []], off) else
  '(Value, off) ← wrap "SVCB.Value" (unpackDataSVCB msg off);
  Ok ([V_int Priority; V_str Target; V_pairs Value], off).

Definition TA_unpack (Rdlength : Z) : unpacker (list fval) := fun msg off =>
  let rdStart := off in
  '(KeyTag, off) ← wrap "TA.KeyTag" (unpackUint16 msg off);
  if off =? zlen msg then Ok ([V_int KeyTag; V_int 0; V_int 0; V_str []], off) else
  '(Algorithm, off) ← wrap "TA.Algorithm" (unpackUint8 msg off);
  if off =? zlen msg then Ok ([V_int KeyTag; V_int Algorithm; V_int 0; V_str []], off) else
  '(DigestType, off) ← wrap "TA.DigestType" (unpackUint8 msg off);
  if off =? zlen msg then Ok ([V_int KeyTag; V_int Algorithm; V_int DigestType; V_str []], off) else
  '(Digest, off) ← wrap "TA.Digest" (unpackStringHex msg off (rdStart + Rdlength));
  Ok ([V_int KeyTag; V_int Algorithm; V_int DigestType; V_str Digest], off).

Definition TALINK_unpack (Rdlength : Z) : unpacker (list fval) := fun msg off =>
  let rdStart := off in
  '(PreviousName, off) ← wrap "TALINK.PreviousName" (UnpackDomainName msg off);
  if off =? zlen msg then Ok ([V_str PreviousName; V_str []], off) else
  '(NextName, off) ← wrap "TALINK.NextName" (UnpackDomainName msg off);
  Ok ([V_str PreviousName; V_str NextName], off).

Definition TKEY_unpack (Rdlength : Z) : unpacker (list fval) := fun msg off =>
  let rdStart := off in
  '(Algorithm, off) ← wrap "TKEY.Algorithm" (UnpackDomainName msg off);
  if off =? zlen msg then Ok ([V_str Algorithm; V_int 0; V_int 0; V_int 0; V_int 0; V_int 0; V_str []; V_int 0; V_str []], off) else
  '(Inception, off) ← wrap "TKEY.Inception" (unpackUint32 msg off);
  if off =? zlen msg then Ok ([V_str Algorithm; V_int Inception; V_int 0; V_int 0; V_int 0; V_int 0; V_str []; V_int 0; V_str []], off) else
  '(Expiration, off) ← wrap "TKEY.Expiration" (unpackUint32 msg off);
  if off =? zlen msg then Ok ([V_str Algorithm; V_int Inception; V_int Expiration; V_int 0; V_int 0; V_int 0; V_str []; V_int 0; V_str []], off) else
  '(Mode, off) ← wrap "TKEY.Mode" (unpackUint16 msg off);
  if off =? zlen msg then Ok ([V_str Algorithm; V_int Inception; V_int Expiration; V_int Mode; V_int 0; V_int 0; V_str []; V_int 0; V_str []], off) else
  '(Error_, off) ← wrap "TKEY.Error" (unpackUint16 msg off);
  if off =? zlen msg then Ok ([V_str Algorithm; V_int Inception; V_int Expiration; V_int Mode; V_int Error_; V_int 0; V_str []; V_int 0; V_str []], off) else
  '(KeySize, off) ← wrap "TKEY.KeySize" (unpackUint16 msg off);
  if off =? zlen msg then Ok ([V_str Algorithm; V_int Inception; V_int Expiration; V_int Mode; V_int Error_; V_int KeySize; V_str []; V_int 0; V_str []], off) else
  '(Key_, off) ← unpackStringHex msg off (off + KeySize);
  '(OtherLen, off) ← wrap "TKEY.OtherLen" (unpackUint16 msg off);
  if off =? zlen msg then Ok ([V_str Algorithm; V_int Inception; V_int Expiration; V_int Mode; V_int Error_; V_int KeySize; V_str Key_; V_int OtherLen; V_str []], off) else
  '(OtherData, off) ← unpackStringHex msg off (off + OtherLen);
  Ok ([V_str Algorithm; V_int Inception; V_int Expiration; V_int Mode; V_int Error_; V_int KeySize; V_str Key_; V_int OtherLen; V_str OtherData], off).

Definition TLSA_unpack (Rdlength : Z) : unpacker (list fval) := fun msg off =>
  let rdStart := off in
  '(Usage, off) ← wrap "TLSA.Usage" (unpackUint8 msg off);
  if off =? zlen msg then Ok ([V_int Usage; V_int 0; V_int 0; V_str []], off) else
  '(Selector, off) ← wrap "TLSA.Selector" (unpackUint8 msg off);
  if off =? zlen msg then Ok ([V_int Usage; V_int Selector; V_int 0; V_str []], off) else
  '(MatchingType, off) ← wrap "TLSA.MatchingType" (unpackUint8 msg off);
  if off =? zlen msg then Ok ([V_int Usage; V_int Selector; V_int MatchingType; V_str []], off) else
  '(Certificate, off) ← wrap "TLSA.Certificate" (unpackStringHex msg off (rdStart + Rdlength));
  Ok ([V_int Usage; V_int Selector; V_int MatchingType; V_str Certificate], off).

Definition TSIG_unpack (Rdlength : Z) : unpacker (list fval) := fun msg off =>
  let rdStart := off in
  '(Algorithm, off) ← wrap "TSIG.Algorithm" (UnpackDomainName msg off);
  if off =? zlen msg then Ok ([V_str Algorithm; V_int 0; V_int 0; V_int 0; V_str []; V_int 0; V_int 0; V_int 0; V_str []], off) else
  '(TimeSigned, off) ← wrap "TSIG.TimeSigned" (unpackUint48 msg off);
  if off =? zlen msg then Ok ([V_str Algorithm; V_int TimeSigned; V_int 0; V_int 0; V_str []; V_int 0; V_int 0; V_int 0; V_str []], off) else
  '(Fudge, off) ← wrap "TSIG.Fudge" (unpackUint16 msg off);
  if off =? zlen msg then Ok ([V_str Algorithm; V_int TimeSigned; V_int Fudge; V_int 0; V_str []; V_int 0; V_int 0; V_int 0; V_str []], off) else
  '(MACSize, off) ← wrap "TSIG.MACSize" (unpackUint16 msg off);
  if off =? zlen msg then Ok ([V_str Algorithm; V_int TimeSigned; V_int Fudge; V_int MACSize; V_str []; V_int 0; V_int 0; V_int 0; V_str []], off) else
  '(MAC, off) ← unpackStringHex msg off (off + MACSize);
  '(OrigId, off) ← wrap "TSIG.OrigId" (unpackUint16 msg off);
  if off =? zlen msg then Ok ([V_str Algorithm; V_int TimeSigned; V_int Fudge; V_int MACSize; V_str MAC; V_int OrigId; V_int 0; V_int 0; V_str []], off) else
  '(Error_, off) ← wrap "TSIG.Error" (unpackUint16 msg off);
  if off =? zlen msg then Ok ([V_str Algorithm; V_int TimeSigned; V_int Fudge; V_int MACSize; V_str MAC; V_int OrigId; V_int Error_; V_int 0; V_str []], off) else
  '(OtherLen, off) ← wrap "TSIG.OtherLen" (unpackUint16 msg off);
  if off =? zlen msg then Ok ([V_str Algorithm; V_int TimeSigned; V_int Fudge; V_int MACSize; V_str MAC; V_int OrigId; V_int Error_; V_int OtherLen; V_str []], off) else
  '(OtherData, off) ← unpackStringHex msg off (off + OtherLen);
  Ok ([V_str Algorithm; V_int TimeSigned; V_int Fudge; V_int MACSize; V_str MAC; V_int OrigId; V_int Error_; V_int OtherLen; V_str OtherData], off).

Definition TXT_unpack (Rdlength : Z) : unpacker (list fval) := fun msg off =>
  let rdStart := off in
  '(Txt, off) ← wrap "TXT.Txt" (unpackStringTxt msg off);
  Ok ([V_strs Txt], off).

Definition UID_unpack (Rdlength : Z) : unpacker (list fval) := fun msg off =>
  let rdStart := off in
  '(Uid, off) ← wrap "UID.Uid" (unpackUint32 msg off);
  Ok ([V_int Uid], off).

Definition UINFO_unpack (Rdlength : Z) : unpacker (list fval) := fun msg off =>
  let rdStart := off in
  '(Uinfo, off) ← wrap "UINFO.Uinfo" (unpackString msg off);
  Ok ([V_str Uinfo], off).

Definition URI_unpack (Rdlength : Z) : unpacker (list fval) := fun msg off =>
  let rdStart := off in
  '(Priority, off) ← wrap "URI.Priority" (unpackUint16 msg off);
  if off =? zlen msg then Ok ([V_int Priority; V_int 0; V_str []], off) else
  '(Weight, off) ← wrap "URI.Weight" (unpackUint16 msg off);
  if off =? zlen msg then Ok ([V_int Priority; V_int Weight; V_str []], off) else
  '(Target, off) ← wrap "URI.Target" (unpackStringOctet msg off);
  Ok ([V_int Priority; V_int Weight; V_str Target], off).

Definition X25_unpack (Rdlength : Z) : unpacker (list fval) := fun msg off =>
  let rdStart := off in
  '(PSDNAddress, off) ← wrap "X25.PSDNAddress" (unpackString msg off);
  Ok ([V_str PSDNAddress], off).

Definition ZONEMD_unpack (Rdlength : Z) : unpacker (list fval) := fun msg off =>
  let rdStart := off in
  '(Serial, off) ← wrap "ZONEMD.Serial" (unpackUint32 msg off);
  if off =? zlen msg then Ok ([V_int Serial; V_int 0; V_int 0; V_str []], off) else
  '(Scheme, off) ← wrap "ZONEMD.Scheme" (unpackUint8 msg off);
  if off =? zlen msg then Ok ([V_int Serial; V_int Scheme; V_int 0; V_str []], off) else
  '(Hash, off) ← wrap "ZONEMD.Hash" (unpackUint8 msg off);
  if off =? zlen msg then Ok ([V_int Serial; V_int Scheme; V_int Hash; V_str []], off) else
  '(Digest, off) ← wrap "ZONEMD.Digest" (unpackStringHex msg off (rdStart + Rdlength));
  Ok ([V_int Serial; V_int Scheme; V_int Hash; V_str Digest], off).

(** The method of the struct a record is stored in. *)
Definition generated_unpack (k : rrstruct) : Z -> unpacker (list fval) :=
  match k with
  | RR_A => A_unpack
  | RR_NS => NS_unpack
  | RR_MD => MD_unpack
  | RR_MF => MF_unpack
  | RR_CNAME => CNAME_unpack
  | RR_SOA => SOA_unpack
  | RR_MB => MB_unpack
  | RR_MG => MG_unpack
  | RR_MR => MR_unpack
  | RR_NULL => NULL_unpack
  | RR_PTR => PTR_unpack
  | RR_HINFO => HINFO_unpack
  | RR_MINFO => MINFO_unpack
  | RR_MX => MX_unpack
  | RR_TXT => TXT_unpack
  | RR_RP => RP_unpack
  | RR_AFSDB => AFSDB_unpack
  | RR_X25 => X25_unpack
  | RR_ISDN => ISDN_unpack
  | RR_RT => RT_unpack
  | RR_NSAPPTR => NSAPPTR_unpack
  | RR_SIG => SIG_unpack
  | RR_KEY => KEY_unpack
  | RR_PX => PX_unpack
  | RR_GPOS => GPOS_unpack
  | RR_AAAA => AAAA_unpack
  | RR_LOC => LOC_unpack
  | RR_NXT => NXT_unpack
  | RR_EID => EID_unpack
  | RR_NIMLOC => NIMLOC_unpack
  | RR_SRV => SRV_unpack
  | RR_NAPTR => NAPTR_unpack
  | RR_KX => KX_unpack
  | RR_CERT => CERT_unpack
  | RR_DNAME => DNAME_unpack
  | RR_OPT => OPT_unpack
  | RR_APL => APL_unpack
  | RR_DS => DS_unpack
  | RR_SSHFP => SSHFP_unpack
  | RR_IPSECKEY => IPSECKEY_unpack
  | RR_RRSIG => RRSIG_unpack
  | RR_NSEC => NSEC_unpack
  | RR_DNSKEY => DNSKEY_unpack
  | RR_DHCID => DHCID_unpack
  | RR_NSEC3 => NSEC3_unpack
  | RR_NSEC3PARAM => NSEC3PARAM_unpack
  | RR_TLSA => TLSA_unpack
  | RR_SMIMEA => SMIMEA_unpack
  | RR_HIP => HIP_unpack
  | RR_NINFO => NINFO_unpack
  | RR_RKEY => RKEY_unpack
  | RR_TALINK => TALINK_unpack
  | RR_CDS => CDS_unpack
  | RR_CDNSKEY => CDNSKEY_unpack
  | RR_OPENPGPKEY => OPENPGPKEY_unpack
  | RR_CSYNC => CSYNC_unpack
  | RR_ZONEMD => ZONEMD_unpack
  | RR_SVCB => SVCB_unpack
  | RR_HTTPS => HTTPS_unpack
  | RR_SPF => SPF_unpack
  | RR_UINFO => UINFO_unpack
  | RR_UID => UID_unpack
  | RR_GID => GID_unpack
  | RR_NID => NID_unpack
  | RR_L32 => L32_unpack
  | RR_L64 => L64_unpack
  | RR_LP => LP_unpack
  | RR_EUI48 => EUI48_unpack
  | RR_EUI64 => EUI64_unpack
  | RR_NXNAME => NXNAME_unpack
  | RR_TKEY => TKEY_unpack
  | RR_TSIG => TSIG_unpack
  | RR_ANY => ANY_unpack
  | RR_URI => URI_unpack
  | RR_CAA => CAA_unpack
  | RR_AVC => AVC_unpack
  | RR_AMTRELAY => AMTRELAY_unpack
  | RR_RESINFO => RESINFO_unpack
  | RR_TA => TA_unpack
  | RR_DLV => DLV_unpack
  | RR_RFC3597 => RFC3597_unpack
  end.

(** ** The interpreter of the tags *)

(** The fields after those read so far, [acc]. *)
Definition continue_with (acc : list fval) (r : wire (list fval * Z)) : wire (list fval * Z) := '(vs, off) ← r; Ok (acc ++ vs, off).

Lemma continue_start r : r = continue_with [] r.
Proof. by destruct r as [[vs o]|?| |]. Qed.

Lemma field_continue ctx r acc struct rr name t fs end_ msg off (inj : fval -> fval) (K : fval * Z -> wire (list fval * Z)) :
  (forall e, ctx e = field_error struct name t e) -> unpack_field rr t end_ msg off = r ->
  (forall v o, K (v, o) = if checks_end t && negb (bool_decide (fs = [])) && (o =? zlen msg)
     then Ok (acc ++ v :: map (fun f => zero f.2) fs, o)
     else continue_with (acc ++ [v]) (unpack_fields struct (rr ++ [(name, v)]) fs end_ msg o)) ->
  on_err ctx r ≫= K = continue_with acc (unpack_fields struct rr ((name, t) :: fs) end_ msg off).
Proof.
  intros He <- HK. cbn [unpack_fields]. destruct (unpack_field rr t end_ msg off) as [[v o]|e| |]; cbn [on_err mbind res_bind]; [|by rewrite He|done..].
  rewrite HK. destruct (_ && _ && _); [done|].
  destruct (unpack_fields _ _ _ _ _ _) as [[vs o']|?| |]; cbn; by rewrite <- ?app_assoc.
Qed.

(** The same for the value before it is put into the field. *)
Lemma unpack_step {A} ctx (r : wire (A * Z)) acc struct rr name t fs end_ msg off (inj : A -> fval) (K : A * Z -> wire (list fval * Z)) :
  (forall e, ctx e = field_error struct name t e) -> unpack_field rr t end_ msg off = ('(a, o) ← r; Ok (inj a, o)) ->
  (forall a o, K (a, o) = if checks_end t && negb (bool_decide (fs = [])) && (o =? zlen msg)
     then Ok (acc ++ inj a :: map (fun f => zero f.2) fs, o)
     else continue_with (acc ++ [inj a]) (unpack_fields struct (rr ++ [(name, inj a)]) fs end_ msg o)) ->
  on_err ctx r ≫= K = continue_with acc (unpack_fields struct rr ((name, t) :: fs) end_ msg off).
Proof.
  intros He Hr HK. cbn [unpack_fields]. rewrite Hr. destruct r as [[a o]|e| |]; cbn [on_err mbind res_bind]; [|by rewrite He|done..].
  rewrite HK. destruct (_ && _ && _); [done|].
  destruct (unpack_fields _ _ _ _ _ _) as [[vs o']|?| |]; cbn; by rewrite <- ?app_assoc.
Qed.

Lemma unpack_step_sized {A} (r : wire (A * Z)) acc struct rr name t fs end_ msg off (inj : A -> fval) (K : A * Z -> wire (list fval * Z)) :
  sized t = true -> unpack_field rr t end_ msg off = ('(a, o) ← r; Ok (inj a, o)) ->
  (forall a o, K (a, o) = continue_with (acc ++ [inj a]) (unpack_fields struct (rr ++ [(name, inj a)]) fs end_ msg o)) ->
  r ≫= K = continue_with acc (unpack_fields struct rr ((name, t) :: fs) end_ msg off).
Proof.
  intros Ht Hr HK. assert (r ≫= K = on_err (fun e => e) r ≫= K) as -> by by destruct r.
  apply (unpack_step _ _ _ _ _ _ _ _ _ _ _ inj); [intros e; unfold field_error; by rewrite Ht|done|].
  intros a o. rewrite HK. unfold checks_end. by rewrite Ht.
Qed.

Lemma unpack_step_gateway ctx (r : wire (bytes * bytes * Z)) acc struct rr name t fs end_ msg off (K : bytes * bytes * Z -> wire (list fval * Z)) :
  (forall e, ctx e = field_error struct name t e) -> unpack_field rr t end_ msg off = ('((a, h), o) ← r; Ok (V_gateway a h, o)) ->
  (forall a h o, K ((a, h), o) = if checks_end t && negb (bool_decide (fs = [])) && (o =? zlen msg)
     then Ok (acc ++ V_gateway a h :: map (fun f => zero f.2) fs, o)
     else continue_with (acc ++ [V_gateway a h]) (unpack_fields struct (rr ++ [(name, V_gateway a h)]) fs end_ msg o)) ->
  on_err ctx r ≫= K = continue_with acc (unpack_fields struct rr ((name, t) :: fs) end_ msg off).
Proof.
  intros He Hr HK. apply (unpack_step _ _ _ _ _ _ _ _ _ _ _ (fun '(a, h) => V_gateway a h)); [done| |by intros [a h]].
  rewrite Hr. by destruct r as [[[a h] o]|?| |].
Qed.

Ltac end_check :=
  match goal with |- _ = if ?c && negb (bool_decide (?l = [])) && ?b then _ else _ =>
    let v := eval vm_compute in (c && negb (bool_decide (l = []))) in change (c && negb (bool_decide (l = []))) with v; cbn [andb]
  end;
  match goal with
  | |- _ = if ?b then _ else _ => destruct b; [reflexivity|]
  | _ => idtac
  end.

Ltac step_as inj := apply (unpack_step _ _ _ _ _ _ _ _ _ _ _ inj); [intros [? ?]; reflexivity|reflexivity|intros ? ?; end_check].
Ltac step_sized inj := apply (unpack_step_sized _ _ _ _ _ _ _ _ _ _ inj); [reflexivity|reflexivity|intros ? ?].

Ltac same_unpack :=
  repeat (cbv beta iota; first
    [ reflexivity
    | step_as V_int | step_as V_str | step_as V_strs | step_as V_types | step_as V_opts | step_as V_pairs | step_as V_apl
    | step_sized V_str
    | apply unpack_step_gateway; [intros [? ?]; reflexivity|reflexivity|intros ? ? ?; end_check] ]).

#[local] Open Scope string_scope.

(** C20: for every struct, the generated [unpack] method does, on every message and
    offset, what the interpreter of the struct tags does: the same fields, the
    same offset, the same error; only [RESINFO] leaves out the context the
    generator puts around the error of its field. *)
Theorem generated_unpack_fields k Rdlength msg off :
  (k <> RR_RESINFO -> generated_unpack k Rdlength msg off = unpack_fields (struct_name k) [] (fields k) (off + Rdlength) msg off) /\
  on_err (field_error "RESINFO" "Txt" F_txts) (generated_unpack RR_RESINFO Rdlength msg off) =
    unpack_fields (struct_name RR_RESINFO) [] (fields RR_RESINFO) (off + Rdlength) msg off.
Proof.
  split.
  - intros Hk. rewrite (continue_start (unpack_fields _ _ _ _ _ _)).
    destruct k; try (by destruct Hk);
      match goal with |- context [unpack_fields _ _ ?fs] => let fs' := eval hnf in fs in change fs with fs' end;
      cbn [generated_unpack A_unpack NS_unpack MD_unpack MF_unpack CNAME_unpack SOA_unpack MB_unpack MG_unpack MR_unpack NULL_unpack PTR_unpack HINFO_unpack MINFO_unpack MX_unpack TXT_unpack RP_unpack AFSDB_unpack X25_unpack ISDN_unpack RT_unpack NSAPPTR_unpack SIG_unpack KEY_unpack PX_unpack GPOS_unpack AAAA_unpack LOC_unpack NXT_unpack EID_unpack NIMLOC_unpack SRV_unpack NAPTR_unpack KX_unpack CERT_unpack DNAME_unpack OPT_unpack APL_unpack DS_unpack SSHFP_unpack IPSECKEY_unpack RRSIG_unpack NSEC_unpack DNSKEY_unpack DHCID_unpack NSEC3_unpack NSEC3PARAM_unpack TLSA_unpack SMIMEA_unpack HIP_unpack NINFO_unpack RKEY_unpack TALINK_unpack CDS_unpack CDNSKEY_unpack OPENPGPKEY_unpack CSYNC_unpack ZONEMD_unpack SVCB_unpack HTTPS_unpack SPF_unpack UINFO_unpack UID_unpack GID_unpack NID_unpack L32_unpack L64_unpack LP_unpack EUI48_unpack EUI64_unpack NXNAME_unpack TKEY_unpack TSIG_unpack ANY_unpack URI_unpack CAA_unpack AVC_unpack AMTRELAY_unpack RESINFO_unpack TA_unpack DLV_unpack RFC3597_unpack]; unfold wrap; same_unpack.
  - change (fields RR_RESINFO) with [("Txt", F_txts)]. cbn [generated_unpack]. unfold RESINFO_unpack.
    cbn [unpack_fields unpack_field]. by destruct (unpackStringTxt msg off) as [[l o]|[o e]| |].
Qed.

(** An A record's address, and a message that ends within it. *)
Lemma generated_unpack_fields_witness :
  generated_unpack RR_A 4 (map byte_of [192; 0; 2; 1]) 0 = Ok ([V_str (map byte_of [192; 0; 2; 1])], 4) /\
  exists e, generated_unpack RR_A 4 (map byte_of [192; 0; 2]) 0 = Err e.
Proof.
  destruct (generated_unpack_fields RR_A 4 (map byte_of [192; 0; 2; 1]) 0) as [H1 _].
  destruct (generated_unpack_fields RR_A 4 (map byte_of [192; 0; 2]) 0) as [H2 _].
  split; [rewrite H1 by discriminate; vm_compute; reflexivity|].
  eexists. rewrite H2 by discriminate. vm_compute. reflexivity.
Defined.
