(* ===== verification/Ztypes.v ===== *)
(** * ztypes.go: the generated tables and [len] methods

    types_generate.go writes the tables [TypeToRR] and [TypeToString] and the
    [len] methods; the [len] methods of OPT, NSEC, NSEC3 and CSYNC are written by
    hand in edns.go and types.go.  All are translated line by line.  The [len]
    methods are proved equal to [rr_len] of RR.v, from which Len.v's bounds are
    proved, and the constructor table to the type codes of RData.v. *)

From S2P Require Import Prelude Go Names NameLen Wire Codec Nsec Encodings Apl Edns Svcb RData RR Safety Zpack.

(** [len(off, compression)]: the length and the map, or a panic. *)
Abbreviation lener := (Z -> option (gset bytes) -> res error (Z * option (gset bytes))).

(** types.go:179-181. *)
Definition AMTRELAYIPv4 : Z := IPSECGatewayIPv4.
Definition AMTRELAYIPv6 : Z := IPSECGatewayIPv6.
Definition AMTRELAYHost : Z := IPSECGatewayHost.

(** ** The tables *)

(** [TypeToRR[t]]: the struct of the constructor. *)
Definition TypeToRR_table (t : Z) : option rrstruct :=
  match t with
  | 1 => Some RR_A
  | 28 => Some RR_AAAA
  | 18 => Some RR_AFSDB
  | 260 => Some RR_AMTRELAY
  | 255 => Some RR_ANY
  | 42 => Some RR_APL
  | 258 => Some RR_AVC
  | 257 => Some RR_CAA
  | 60 => Some RR_CDNSKEY
  | 59 => Some RR_CDS
  | 37 => Some RR_CERT
  | 5 => Some RR_CNAME
  | 62 => Some RR_CSYNC
  | 49 => Some RR_DHCID
  | 32769 => Some RR_DLV
  | 39 => Some RR_DNAME
  | 48 => Some RR_DNSKEY
  | 43 => Some RR_DS
  | 31 => Some RR_EID
  | 108 => Some RR_EUI48
  | 109 => Some RR_EUI64
  | 102 => Some RR_GID
  | 27 => Some RR_GPOS
  | 13 => Some RR_HINFO
  | 55 => Some RR_HIP
  | 65 => Some RR_HTTPS
  | 45 => Some RR_IPSECKEY
  | 20 => Some RR_ISDN
  | 25 => Some RR_KEY
  | 36 => Some RR_KX
  | 105 => Some RR_L32
  | 106 => Some RR_L64
  | 29 => Some RR_LOC
  | 107 => Some RR_LP
  | 7 => Some RR_MB
  | 3 => Some RR_MD
  | 4 => Some RR_MF
  | 8 => Some RR_MG
  | 14 => Some RR_MINFO
  | 9 => Some RR_MR
  | 15 => Some RR_MX
  | 35 => Some RR_NAPTR
  | 104 => Some RR_NID
  | 32 => Some RR_NIMLOC
  | 56 => Some RR_NINFO
  | 2 => Some RR_NS
  | 23 => Some RR_NSAPPTR
  | 47 => Some RR_NSEC
  | 50 => Some RR_NSEC3
  | 51 => Some RR_NSEC3PARAM
  | 10 => Some RR_NULL
  | 128 => Some RR_NXNAME
  | 30 => Some RR_NXT
  | 61 => Some RR_OPENPGPKEY
  | 41 => Some RR_OPT
  | 12 => Some RR_PTR
  | 26 => Some RR_PX
  | 261 => Some RR_RESINFO
  | 57 => Some RR_RKEY
  | 17 => Some RR_RP
  | 46 => Some RR_RRSIG
  | 21 => Some RR_RT
  | 24 => Some RR_SIG
  | 53 => Some RR_SMIMEA
  | 6 => Some RR_SOA
  | 99 => Some RR_SPF
  | 33 => Some RR_SRV
  | 44 => Some RR_SSHFP
  | 64 => Some RR_SVCB
  | 32768 => Some RR_TA
  | 58 => Some RR_TALINK
  | 249 => Some RR_TKEY
  | 52 => Some RR_TLSA
  | 250 => Some RR_TSIG
  | 16 => Some RR_TXT
  | 101 => Some RR_UID
  | 100 => Some RR_UINFO
  | 256 => Some RR_URI
  | 19 => Some RR_X25
  | 63 => Some RR_ZONEMD
  | _ => None
  end.

#[local] Open Scope string_scope.
(** The entries of [TypeToString]; a map, so their order says nothing. *)
Definition TypeToString : list (Z * String.string) :=
  [(1, "A");
   (28, "AAAA");
   (18, "AFSDB");
   (260, "AMTRELAY");
   (255, "ANY");
   (42, "APL");
   (34, "ATMA");
   (258, "AVC");
   (252, "AXFR");
   (257, "CAA");
   (60, "CDNSKEY");
   (59, "CDS");
   (37, "CERT");
   (5, "CNAME");
   (62, "CSYNC");
   (49, "DHCID");
   (32769, "DLV");
   (39, "DNAME");
   (48, "DNSKEY");
   (43, "DS");
   (31, "EID");
   (108, "EUI48");
   (109, "EUI64");
   (102, "GID");
   (27, "GPOS");
   (13, "HINFO");
   (55, "HIP");
   (65, "HTTPS");
   (45, "IPSECKEY");
   (20, "ISDN");
   (251, "IXFR");
   (25, "KEY");
   (36, "KX");
   (105, "L32");
   (106, "L64");
   (29, "LOC");
   (107, "LP");
   (254, "MAILA");
   (253, "MAILB");
   (7, "MB");
   (3, "MD");
   (4, "MF");
   (8, "MG");
   (14, "MINFO");
   (9, "MR");
   (15, "MX");
   (35, "NAPTR");
   (104, "NID");
   (32, "NIMLOC");
   (56, "NINFO");
   (2, "NS");
   (47, "NSEC");
   (50, "NSEC3");
   (51, "NSEC3PARAM");
   (10, "NULL");
   (128, "NXNAME");
   (30, "NXT");
   (0, "None");
   (61, "OPENPGPKEY");
   (41, "OPT");
   (12, "PTR");
   (26, "PX");
   (261, "RESINFO");
   (57, "RKEY");
   (17, "RP");
   (46, "RRSIG");
   (21, "RT");
   (65535, "Reserved");
   (24, "SIG");
   (53, "SMIMEA");
   (6, "SOA");
   (99, "SPF");
   (33, "SRV");
   (44, "SSHFP");
   (64, "SVCB");
   (32768, "TA");
   (58, "TALINK");
   (249, "TKEY");
   (52, "TLSA");
   (250, "TSIG");
   (16, "TXT");
   (101, "UID");
   (100, "UINFO");
   (103, "UNSPEC");
   (256, "URI");
   (19, "X25");
   (63, "ZONEMD");
   (23, "NSAP-PTR")].
#[local] Close Scope string_scope.

(** ** The methods *)

Definition A_len (Hdr : RR_Header) (rr : list fval) : lener := fun off compression =>
  match rr with
  | [V_str A_] =>
      '(l, compression) ← hdr_len Hdr off compression;
      let l := if negb (zlen A_ =? 0) then l + 4 else l in
      Ok (l, compression)
  | _ => Panic
  end.

Definition AAAA_len (Hdr : RR_Header) (rr : list fval) : lener := fun off compression =>
  match rr with
  | [V_str AAAA] =>
      '(l, compression) ← hdr_len Hdr off compression;
      let l := if negb (zlen AAAA =? 0) then l + 16 else l in
      Ok (l, compression)
  | _ => Panic
  end.

Definition AFSDB_len (Hdr : RR_Header) (rr : list fval) : lener := fun off compression =>
  match rr with
  | [V_int _; V_str Hostname] =>
      '(l, compression) ← hdr_len Hdr off compression;
      let l := l + 2 in
      '(n, compression) ← domainNameLen Hostname (off + l) compression false;
      let l := l + n in
      Ok (l, compression)
  | _ => Panic
  end.

Definition AMTRELAY_len (Hdr : RR_Header) (rr : list fval) : lener := fun off compression =>
  match rr with
  | [V_int _; V_int GatewayType; V_gateway _ GatewayHost] =>
      '(l, compression) ← hdr_len Hdr off compression;
      let l := l + 1 in
      let l := l + 1 in
      let l := if GatewayType =? AMTRELAYIPv4 then l + 4 else if GatewayType =? AMTRELAYIPv6 then l + 16 else if GatewayType =? AMTRELAYHost then l + (zlen GatewayHost + 1) else l in
      Ok (l, compression)
  | _ => Panic
  end.

Definition ANY_len (Hdr : RR_Header) (rr : list fval) : lener := fun off compression =>
  match rr with
  | [] =>
      '(l, compression) ← hdr_len Hdr off compression;
      Ok (l, compression)
  | _ => Panic
  end.

Definition APL_len (Hdr : RR_Header) (rr : list fval) : lener := fun off compression =>
  match rr with
  | [V_apl Prefixes] =>
      '(l, compression) ← hdr_len Hdr off compression;
      let l := foldl (fun l x => l + apl_len x) l Prefixes in
      Ok (l, compression)
  | _ => Panic
  end.

Definition AVC_len (Hdr : RR_Header) (rr : list fval) : lener := fun off compression =>
  match rr with
  | [V_strs Txt] =>
      '(l, compression) ← hdr_len Hdr off compression;
      let l := foldl (fun l x => l + (zlen x + 1)) l Txt in
      Ok (l, compression)
  | _ => Panic
  end.

Definition CAA_len (Hdr : RR_Header) (rr : list fval) : lener := fun off compression =>
  match rr with
  | [V_int _; V_str Tag; V_str Value] =>
      '(l, compression) ← hdr_len Hdr off compression;
      let l := l + 1 in
      let l := l + (zlen Tag + 1) in
      let l := l + zlen Value in
      Ok (l, compression)
  | _ => Panic
  end.

Definition CERT_len (Hdr : RR_Header) (rr : list fval) : lener := fun off compression =>
  match rr with
  | [V_int _; V_int _; V_int _; V_str Certificate] =>
      '(l, compression) ← hdr_len Hdr off compression;
      let l := l + 2 in
      let l := l + 2 in
      let l := l + 1 in
      let l := l + base64_DecodedLen (zlen Certificate) in
      Ok (l, compression)
  | _ => Panic
  end.

Definition CNAME_len (Hdr : RR_Header) (rr : list fval) : lener := fun off compression =>
  match rr with
  | [V_str Target] =>
      '(l, compression) ← hdr_len Hdr off compression;
      '(n, compression) ← domainNameLen Target (off + l) compression true;
      let l := l + n in
      Ok (l, compression)
  | _ => Panic
  end.

Definition DHCID_len (Hdr : RR_Header) (rr : list fval) : lener := fun off compression =>
  match rr with
  | [V_str Digest] =>
      '(l, compression) ← hdr_len Hdr off compression;
      let l := l + base64_DecodedLen (zlen Digest) in
      Ok (l, compression)
  | _ => Panic
  end.

Definition DNAME_len (Hdr : RR_Header) (rr : list fval) : lener := fun off compression =>
  match rr with
  | [V_str Target] =>
      '(l, compression) ← hdr_len Hdr off compression;
      '(n, compression) ← domainNameLen Target (off + l) compression false;
      let l := l + n in
      Ok (l, compression)
  | _ => Panic
  end.

Definition DNSKEY_len (Hdr : RR_Header) (rr : list fval) : lener := fun off compression =>
  match rr with
  | [V_int _; V_int _; V_int _; V_str PublicKey] =>
      '(l, compression) ← hdr_len Hdr off compression;
      let l := l + 2 in
      let l := l + 1 in
      let l := l + 1 in
      let l := l + base64_DecodedLen (zlen PublicKey) in
      Ok (l, compression)
  | _ => Panic
  end.

Definition DS_len (Hdr : RR_Header) (rr : list fval) : lener := fun off compression =>
  match rr with
  | [V_int _; V_int _; V_int _; V_str Digest] =>
      '(l, compression) ← hdr_len Hdr off compression;
      let l := l + 2 in
      let l := l + 1 in
      let l := l + 1 in
      let l := l + zlen Digest / 2 in
      Ok (l, compression)
  | _ => Panic
  end.

Definition EID_len (Hdr : RR_Header) (rr : list fval) : lener := fun off compression =>
  match rr with
  | [V_str Endpoint] =>
      '(l, compression) ← hdr_len Hdr off compression;
      let l := l + zlen Endpoint / 2 in
      Ok (l, compression)
  | _ => Panic
  end.

Definition EUI48_len (Hdr : RR_Header) (rr : list fval) : lener := fun off compression =>
  match rr with
  | [V_int _] =>
      '(l, compression) ← hdr_len Hdr off compression;
      let l := l + 6 in
      Ok (l, compression)
  | _ => Panic
  end.

Definition EUI64_len (Hdr : RR_Header) (rr : list fval) : lener := fun off compression =>
  match rr with
  | [V_int _] =>
      '(l, compression) ← hdr_len Hdr off compression;
      let l := l + 8 in
      Ok (l, compression)
  | _ => Panic
  end.

Definition GID_len (Hdr : RR_Header) (rr : list fval) : lener := fun off compression =>
  match rr with
  | [V_int _] =>
      '(l, compression) ← hdr_len Hdr off compression;
      let l := l + 4 in
      Ok (l, compression)
  | _ => Panic
  end.

Definition GPOS_len (Hdr : RR_Header) (rr : list fval) : lener := fun off compression =>
  match rr with
  | [V_str Longitude; V_str Latitude; V_str Altitude] =>
      '(l, compression) ← hdr_len Hdr off compression;
      let l := l + (zlen Longitude + 1) in
      let l := l + (zlen Latitude + 1) in
      let l := l + (zlen Altitude + 1) in
      Ok (l, compression)
  | _ => Panic
  end.

Definition HINFO_len (Hdr : RR_Header) (rr : list fval) : lener := fun off compression =>
  match rr with
  | [V_str Cpu; V_str Os] =>
      '(l, compression) ← hdr_len Hdr off compression;
      let l := l + (zlen Cpu + 1) in
      let l := l + (zlen Os + 1) in
      Ok (l, compression)
  | _ => Panic
  end.

Definition HIP_len (Hdr : RR_Header) (rr : list fval) : lener := fun off compression =>
  match rr with
  | [V_int _; V_int _; V_int _; V_str Hit; V_str PublicKey; V_strs RendezvousServers] =>
      '(l, compression) ← hdr_len Hdr off compression;
      let l := l + 1 in
      let l := l + 1 in
      let l := l + 2 in
      let l := l + zlen Hit / 2 in
      let l := l + base64_DecodedLen (zlen PublicKey) in
      '(l, compression) ← foldM (fun '(l, compression) x => '(n, compression) ← domainNameLen x (off + l) compression false; Ok (l + n, compression)) (l, compression) RendezvousServers;
      Ok (l, compression)
  | _ => Panic
  end.

Definition IPSECKEY_len (Hdr : RR_Header) (rr : list fval) : lener := fun off compression =>
  match rr with
  | [V_int _; V_int GatewayType; V_int _; V_gateway _ GatewayHost; V_str PublicKey] =>
      '(l, compression) ← hdr_len Hdr off compression;
      let l := l + 1 in
      let l := l + 1 in
      let l := l + 1 in
      let l := if GatewayType =? IPSECGatewayIPv4 then l + 4 else if GatewayType =? IPSECGatewayIPv6 then l + 16 else if GatewayType =? IPSECGatewayHost then l + (zlen GatewayHost + 1) else l in
      let l := l + base64_DecodedLen (zlen PublicKey) in
      Ok (l, compression)
  | _ => Panic
  end.

Definition ISDN_len (Hdr : RR_Header) (rr : list fval) : lener := fun off compression =>
  match rr with
  | [V_str Address; V_str SubAddress] =>
      '(l, compression) ← hdr_len Hdr off compression;
      let l := l + (zlen Address + 1) in
      let l := l + (zlen SubAddress + 1) in
      Ok (l, compression)
  | _ => Panic
  end.

Definition KX_len (Hdr : RR_Header) (rr : list fval) : lener := fun off compression =>
  match rr with
  | [V_int _; V_str Exchanger] =>
      '(l, compression) ← hdr_len Hdr off compression;
      let l := l + 2 in
      '(n, compression) ← domainNameLen Exchanger (off + l) compression false;
      let l := l + n in
      Ok (l, compression)
  | _ => Panic
  end.

Definition L32_len (Hdr : RR_Header) (rr : list fval) : lener := fun off compression =>
  match rr with
  | [V_int _; V_str Locator32] =>
      '(l, compression) ← hdr_len Hdr off compression;
      let l := l + 2 in
      let l := if negb (zlen Locator32 =? 0) then l + 4 else l in
      Ok (l, compression)
  | _ => Panic
  end.

Definition L64_len (Hdr : RR_Header) (rr : list fval) : lener := fun off compression =>
  match rr with
  | [V_int _; V_int _] =>
      '(l, compression) ← hdr_len Hdr off compression;
      let l := l + 2 in
      let l := l + 8 in
      Ok (l, compression)
  | _ => Panic
  end.

Definition LOC_len (Hdr : RR_Header) (rr : list fval) : lener := fun off compression =>
  match rr with
  | [V_int _; V_int _; V_int _; V_int _; V_int _; V_int _; V_int _] =>
      '(l, compression) ← hdr_len Hdr off compression;
      let l := l + 1 in
      let l := l + 1 in
      let l := l + 1 in
      let l := l + 1 in
      let l := l + 4 in
      let l := l + 4 in
      let l := l + 4 in
      Ok (l, compression)
  | _ => Panic
  end.

Definition LP_len (Hdr : RR_Header) (rr : list fval) : lener := fun off compression =>
  match rr with
  | [V_int _; V_str Fqdn] =>
      '(l, compression) ← hdr_len Hdr off compression;
      let l := l + 2 in
      '(n, compression) ← domainNameLen Fqdn (off + l) compression false;
      let l := l + n in
      Ok (l, compression)
  | _ => Panic
  end.

Definition MB_len (Hdr : RR_Header) (rr : list fval) : lener := fun off compression =>
  match rr with
  | [V_str Mb] =>
      '(l, compression) ← hdr_len Hdr off compression;
      '(n, compression) ← domainNameLen Mb (off + l) compression true;
      let l := l + n in
      Ok (l, compression)
  | _ => Panic
  end.

Definition MD_len (Hdr : RR_Header) (rr : list fval) : lener := fun off compression =>
  match rr with
  | [V_str Md] =>
      '(l, compression) ← hdr_len Hdr off compression;
      '(n, compression) ← domainNameLen Md (off + l) compression true;
      let l := l + n in
      Ok (l, compression)
  | _ => Panic
  end.

Definition MF_len (Hdr : RR_Header) (rr : list fval) : lener := fun off compression =>
  match rr with
  | [V_str Mf] =>
      '(l, compression) ← hdr_len Hdr off compression;
      '(n, compression) ← domainNameLen Mf (off + l) compression true;
      let l := l + n in
      Ok (l, compression)
  | _ => Panic
  end.

Definition MG_len (Hdr : RR_Header) (rr : list fval) : lener := fun off compression =>
  match rr with
  | [V_str Mg] =>
      '(l, compression) ← hdr_len Hdr off compression;
      '(n, compression) ← domainNameLen Mg (off + l) compression true;
      let l := l + n in
      Ok (l, compression)
  | _ => Panic
  end.

Definition MINFO_len (Hdr : RR_Header) (rr : list fval) : lener := fun off compression =>
  match rr with
  | [V_str Rmail; V_str Email] =>
      '(l, compression) ← hdr_len Hdr off compression;
      '(n, compression) ← domainNameLen Rmail (off + l) compression true;
      let l := l + n in
      '(n, compression) ← domainNameLen Email (off + l) compression true;
      let l := l + n in
      Ok (l, compression)
  | _ => Panic
  end.

Definition MR_len (Hdr : RR_Header) (rr : list fval) : lener := fun off compression =>
  match rr with
  | [V_str Mr] =>
      '(l, compression) ← hdr_len Hdr off compression;
      '(n, compression) ← domainNameLen Mr (off + l) compression true;
      let l := l + n in
      Ok (l, compression)
  | _ => Panic
  end.

Definition MX_len (Hdr : RR_Header) (rr : list fval) : lener := fun off compression =>
  match rr with
  | [V_int _; V_str Mx] =>
      '(l, compression) ← hdr_len Hdr off compression;
      let l := l + 2 in
      '(n, compression) ← domainNameLen Mx (off + l) compression true;
      let l := l + n in
      Ok (l, compression)
  | _ => Panic
  end.

Definition NAPTR_len (Hdr : RR_Header) (rr : list fval) : lener := fun off compression =>
  match rr with
  | [V_int _; V_int _; V_str Flags; V_str Service; V_str Regexp; V_str Replacement] =>
      '(l, compression) ← hdr_len Hdr off compression;
      let l := l + 2 in
      let l := l + 2 in
      let l := l + (zlen Flags + 1) in
      let l := l + (zlen Service + 1) in
      let l := l + (zlen Regexp + 1) in
      '(n, compression) ← domainNameLen Replacement (off + l) compression false;
      let l := l + n in
      Ok (l, compression)
  | _ => Panic
  end.

Definition NID_len (Hdr : RR_Header) (rr : list fval) : lener := fun off compression =>
  match rr with
  | [V_int _; V_int _] =>
      '(l, compression) ← hdr_len Hdr off compression;
      let l := l + 2 in
      let l := l + 8 in
      Ok (l, compression)
  | _ => Panic
  end.

Definition NIMLOC_len (Hdr : RR_Header) (rr : list fval) : lener := fun off compression =>
  match rr with
  | [V_str Locator] =>
      '(l, compression) ← hdr_len Hdr off compression;
      let l := l + zlen Locator / 2 in
      Ok (l, compression)
  | _ => Panic
  end.

Definition NINFO_len (Hdr : RR_Header) (rr : list fval) : lener := fun off compression =>
  match rr with
  | [V_strs ZSData] =>
      '(l, compression) ← hdr_len Hdr off compression;
      let l := foldl (fun l x => l + (zlen x + 1)) l ZSData in
      Ok (l, compression)
  | _ => Panic
  end.

Definition NS_len (Hdr : RR_Header) (rr : list fval) : lener := fun off compression =>
  match rr with
  | [V_str Ns] =>
      '(l, compression) ← hdr_len Hdr off compression;
      '(n, compression) ← domainNameLen Ns (off + l) compression true;
      let l := l + n in
      Ok (l, compression)
  | _ => Panic
  end.

Definition NSAPPTR_len (Hdr : RR_Header) (rr : list fval) : lener := fun off compression =>
  match rr with
  | [V_str Ptr] =>
      '(l, compression) ← hdr_len Hdr off compression;
      '(n, compression) ← domainNameLen Ptr (off + l) compression false;
      let l := l + n in
      Ok (l, compression)
  | _ => Panic
  end.

Definition NSEC3PARAM_len (Hdr : RR_Header) (rr : list fval) : lener := fun off compression =>
  match rr with
  | [V_int _; V_int _; V_int _; V_int _; V_str Salt] =>
      '(l, compression) ← hdr_len Hdr off compression;
      let l := l + 1 in
      let l := l + 1 in
      let l := l + 2 in
      let l := l + 1 in
      let l := l + zlen Salt / 2 in
      Ok (l, compression)
  | _ => Panic
  end.

Definition NULL_len (Hdr : RR_Header) (rr : list fval) : lener := fun off compression =>
  match rr with
  | [V_str Data] =>
      '(l, compression) ← hdr_len Hdr off compression;
      let l := l + zlen Data in
      Ok (l, compression)
  | _ => Panic
  end.

Definition NXNAME_len (Hdr : RR_Header) (rr : list fval) : lener := fun off compression =>
  match rr with
  | [] =>
      '(l, compression) ← hdr_len Hdr off compression;
      Ok (l, compression)
  | _ => Panic
  end.

Definition OPENPGPKEY_len (Hdr : RR_Header) (rr : list fval) : lener := fun off compression =>
  match rr with
  | [V_str PublicKey] =>
      '(l, compression) ← hdr_len Hdr off compression;
      let l := l + base64_DecodedLen (zlen PublicKey) in
      Ok (l, compression)
  | _ => Panic
  end.

Definition PTR_len (Hdr : RR_Header) (rr : list fval) : lener := fun off compression =>
  match rr with
  | [V_str Ptr] =>
      '(l, compression) ← hdr_len Hdr off compression;
      '(n, compression) ← domainNameLen Ptr (off + l) compression true;
      let l := l + n in
      Ok (l, compression)
  | _ => Panic
  end.

Definition PX_len (Hdr : RR_Header) (rr : list fval) : lener := fun off compression =>
  match rr with
  | [V_int _; V_str Map822; V_str Mapx400] =>
      '(l, compression) ← hdr_len Hdr off compression;
      let l := l + 2 in
      '(n, compression) ← domainNameLen Map822 (off + l) compression false;
      let l := l + n in
      '(n, compression) ← domainNameLen Mapx400 (off + l) compression false;
      let l := l + n in
      Ok (l, compression)
  | _ => Panic
  end.

Definition RESINFO_len (Hdr : RR_Header) (rr : list fval) : lener := fun off compression =>
  match rr with
  | [V_strs Txt] =>
      '(l, compression) ← hdr_len Hdr off compression;
      let l := foldl (fun l x => l + (zlen x + 1)) l Txt in
      Ok (l, compression)
  | _ => Panic
  end.

Definition RFC3597_len (Hdr : RR_Header) (rr : list fval) : lener := fun off compression =>
  match rr with
  | [V_str Rdata] =>
      '(l, compression) ← hdr_len Hdr off compression;
      let l := l + zlen Rdata / 2 in
      Ok (l, compression)
  | _ => Panic
  end.

Definition RKEY_len (Hdr : RR_Header) (rr : list fval) : lener := fun off compression =>
  match rr with
  | [V_int _; V_int _; V_int _; V_str PublicKey] =>
      '(l, compression) ← hdr_len Hdr off compression;
      let l := l + 2 in
      let l := l + 1 in
      let l := l + 1 in
      let l := l + base64_DecodedLen (zlen PublicKey) in
      Ok (l, compression)
  | _ => Panic
  end.

Definition RP_len (Hdr : RR_Header) (rr : list fval) : lener := fun off compression =>
  match rr with
  | [V_str Mbox; V_str Txt] =>
      '(l, compression) ← hdr_len Hdr off compression;
      '(n, compression) ← domainNameLen Mbox (off + l) compression false;
      let l := l + n in
      '(n, compression) ← domainNameLen Txt (off + l) compression false;
      let l := l + n in
      Ok (l, compression)
  | _ => Panic
  end.

Definition RRSIG_len (Hdr : RR_Header) (rr : list fval) : lener := fun off compression =>
  match rr with
  | [V_int _; V_int _; V_int _; V_int _; V_int _; V_int _; V_int _; V_str SignerName; V_str Signature] =>
      '(l, compression) ← hdr_len Hdr off compression;
      let l := l + 2 in
      let l := l + 1 in
      let l := l + 1 in
      let l := l + 4 in
      let l := l + 4 in
      let l := l + 4 in
      let l := l + 2 in
      '(n, compression) ← domainNameLen SignerName (off + l) compression false;
      let l := l + n in
      let l := l + base64_DecodedLen (zlen Signature) in
      Ok (l, compression)
  | _ => Panic
  end.

Definition RT_len (Hdr : RR_Header) (rr : list fval) : lener := fun off compression =>
  match rr with
  | [V_int _; V_str Host] =>
      '(l, compression) ← hdr_len Hdr off compression;
      let l := l + 2 in
      '(n, compression) ← domainNameLen Host (off + l) compression false;
      let l := l + n in
      Ok (l, compression)
  | _ => Panic
  end.

Definition SMIMEA_len (Hdr : RR_Header) (rr : list fval) : lener := fun off compression =>
  match rr with
  | [V_int _; V_int _; V_int _; V_str Certificate] =>
      '(l, compression) ← hdr_len Hdr off compression;
      let l := l + 1 in
      let l := l + 1 in
      let l := l + 1 in
      let l := l + zlen Certificate / 2 in
      Ok (l, compression)
  | _ => Panic
  end.

Definition SOA_len (Hdr : RR_Header) (rr : list fval) : lener := fun off compression =>
  match rr with
  | [V_str Ns; V_str Mbox; V_int _; V_int _; V_int _; V_int _; V_int _] =>
      '(l, compression) ← hdr_len Hdr off compression;
      '(n, compression) ← domainNameLen Ns (off + l) compression true;
      let l := l + n in
      '(n, compression) ← domainNameLen Mbox (off + l) compression true;
      let l := l + n in
      let l := l + 4 in
      let l := l + 4 in
      let l := l + 4 in
      let l := l + 4 in
      let l := l + 4 in
      Ok (l, compression)
  | _ => Panic
  end.

Definition SPF_len (Hdr : RR_Header) (rr : list fval) : lener := fun off compression =>
  match rr with
  | [V_strs Txt] =>
      '(l, compression) ← hdr_len Hdr off compression;
      let l := foldl (fun l x => l + (zlen x + 1)) l Txt in
      Ok (l, compression)
  | _ => Panic
  end.

Definition SRV_len (Hdr : RR_Header) (rr : list fval) : lener := fun off compression =>
  match rr with
  | [V_int _; V_int _; V_int _; V_str Target] =>
      '(l, compression) ← hdr_len Hdr off compression;
      let l := l + 2 in
      let l := l + 2 in
      let l := l + 2 in
      '(n, compression) ← domainNameLen Target (off + l) compression false;
      let l := l + n in
      Ok (l, compression)
  | _ => Panic
  end.

Definition SSHFP_len (Hdr : RR_Header) (rr : list fval) : lener := fun off compression =>
  match rr with
  | [V_int _; V_int _; V_str FingerPrint] =>
      '(l, compression) ← hdr_len Hdr off compression;
      let l := l + 1 in
      let l := l + 1 in
      let l := l + zlen FingerPrint / 2 in
      Ok (l, compression)
  | _ => Panic
  end.

Definition SVCB_len (Hdr : RR_Header) (rr : list fval) : lener := fun off compression =>
  match rr with
  | [V_int _; V_str Target; V_pairs Value] =>
      '(l, compression) ← hdr_len Hdr off compression;
      let l := l + 2 in
      '(n, compression) ← domainNameLen Target (off + l) compression false;
      let l := l + n in
      let l := foldl (fun l x => l + (4 + svcb_len x)) l Value in
      Ok (l, compression)
  | _ => Panic
  end.

Definition TA_len (Hdr : RR_Header) (rr : list fval) : lener := fun off compression =>
  match rr with
  | [V_int _; V_int _; V_int _; V_str Digest] =>
      '(l, compression) ← hdr_len Hdr off compression;
      let l := l + 2 in
      let l := l + 1 in
      let l := l + 1 in
      let l := l + zlen Digest / 2 in
      Ok (l, compression)
  | _ => Panic
  end.

Definition TALINK_len (Hdr : RR_Header) (rr : list fval) : lener := fun off compression =>
  match rr with
  | [V_str PreviousName; V_str NextName] =>
      '(l, compression) ← hdr_len Hdr off compression;
      '(n, compression) ← domainNameLen PreviousName (off + l) compression false;
      let l := l + n in
      '(n, compression) ← domainNameLen NextName (off + l) compression false;
      let l := l + n in
      Ok (l, compression)
  | _ => Panic
  end.

Definition TKEY_len (Hdr : RR_Header) (rr : list fval) : lener := fun off compression =>
  match rr with
  | [V_str Algorithm; V_int _; V_int _; V_int _; V_int _; V_int _; V_str Key_; V_int _; V_str OtherData] =>
      '(l, compression) ← hdr_len Hdr off compression;
      '(n, compression) ← domainNameLen Algorithm (off + l) compression false;
      let l := l + n in
      let l := l + 4 in
      let l := l + 4 in
      let l := l + 2 in
      let l := l + 2 in
      let l := l + 2 in
      let l := l + zlen Key_ / 2 in
      let l := l + 2 in
      let l := l + zlen OtherData / 2 in
      Ok (l, compression)
  | _ => Panic
  end.

Definition TLSA_len (Hdr : RR_Header) (rr : list fval) : lener := fun off compression =>
  match rr with
  | [V_int _; V_int _; V_int _; V_str Certificate] =>
      '(l, compression) ← hdr_len Hdr off compression;
      let l := l + 1 in
      let l := l + 1 in
      let l := l + 1 in
      let l := l + zlen Certificate / 2 in
      Ok (l, compression)
  | _ => Panic
  end.

Definition TSIG_len (Hdr : RR_Header) (rr : list fval) : lener := fun off compression =>
  match rr with
  | [V_str Algorithm; V_int _; V_int _; V_int _; V_str MAC; V_int _; V_int _; V_int _; V_str OtherData] =>
      '(l, compression) ← hdr_len Hdr off compression;
      '(n, compression) ← domainNameLen Algorithm (off + l) compression false;
      let l := l + n in
      let l := l + 6 in
      let l := l + 2 in
      let l := l + 2 in
      let l := l + zlen MAC / 2 in
      let l := l + 2 in
      let l := l + 2 in
      let l := l + 2 in
      let l := l + zlen OtherData / 2 in
      Ok (l, compression)
  | _ => Panic
  end.

Definition TXT_len (Hdr : RR_Header) (rr : list fval) : lener := fun off compression =>
  match rr with
  | [V_strs Txt] =>
      '(l, compression) ← hdr_len Hdr off compression;
      let l := foldl (fun l x => l + (zlen x + 1)) l Txt in
      Ok (l, compression)
  | _ => Panic
  end.

Definition UID_len (Hdr : RR_Header) (rr : list fval) : lener := fun off compression =>
  match rr with
  | [V_int _] =>
      '(l, compression) ← hdr_len Hdr off compression;
      let l := l + 4 in
      Ok (l, compression)
  | _ => Panic
  end.

Definition UINFO_len (Hdr : RR_Header) (rr : list fval) : lener := fun off compression =>
  match rr with
  | [V_str Uinfo] =>
      '(l, compression) ← hdr_len Hdr off compression;
      let l := l + (zlen Uinfo + 1) in
      Ok (l, compression)
  | _ => Panic
  end.

Definition URI_len (Hdr : RR_Header) (rr : list fval) : lener := fun off compression =>
  match rr with
  | [V_int _; V_int _; V_str Target] =>
      '(l, compression) ← hdr_len Hdr off compression;
      let l := l + 2 in
      let l := l + 2 in
      let l := l + zlen Target in
      Ok (l, compression)
  | _ => Panic
  end.

Definition X25_len (Hdr : RR_Header) (rr : list fval) : lener := fun off compression =>
  match rr with
  | [V_str PSDNAddress] =>
      '(l, compression) ← hdr_len Hdr off compression;
      let l := l + (zlen PSDNAddress + 1) in
      Ok (l, compression)
  | _ => Panic
  end.

Definition ZONEMD_len (Hdr : RR_Header) (rr : list fval) : lener := fun off compression =>
  match rr with
  | [V_int _; V_int _; V_int _; V_str Digest] =>
      '(l, compression) ← hdr_len Hdr off compression;
      let l := l + 4 in
      let l := l + 1 in
      let l := l + 1 in
      let l := l + zlen Digest / 2 in
      Ok (l, compression)
  | _ => Panic
  end.

Definition NSEC_len (Hdr : RR_Header) (rr : list fval) : lener := fun off compression =>
  match rr with
  | [V_str NextDomain; V_types TypeBitMap] =>
      '(l, compression) ← hdr_len Hdr off compression;
      '(n, compression) ← domainNameLen NextDomain (off + l) compression false;
      let l := l + n in
      let l := l + typeBitMapLen TypeBitMap in
      Ok (l, compression)
  | _ => Panic
  end.

Definition NSEC3_len (Hdr : RR_Header) (rr : list fval) : lener := fun off compression =>
  match rr with
  | [V_int _; V_int _; V_int _; V_int _; V_str Salt; V_int _; V_str NextDomain; V_types TypeBitMap] =>
      '(l, compression) ← hdr_len Hdr off compression;
      let l := l + (6 + zlen Salt / 2 + 1 + zlen NextDomain + 1) in
      let l := l + typeBitMapLen TypeBitMap in
      Ok (l, compression)
  | _ => Panic
  end.

Definition CSYNC_len (Hdr : RR_Header) (rr : list fval) : lener := fun off compression =>
  match rr with
  | [V_int _; V_int _; V_types TypeBitMap] =>
      '(l, compression) ← hdr_len Hdr off compression;
      let l := l + (4 + 2) in
      let l := l + typeBitMapLen TypeBitMap in
      Ok (l, compression)
  | _ => Panic
  end.

Definition OPT_len (Hdr : RR_Header) (rr : list fval) : lener := fun off compression =>
  match rr with
  | [V_opts Option] =>
      '(l, compression) ← hdr_len Hdr off compression;
      let l := foldl (fun l o => let l := l + 4 in let lo := match opt_pack o with Ok b => b | _ => [] end in l + zlen lo) l Option in
      Ok (l, compression)
  | _ => Panic
  end.

(** The method of the struct a record is stored in; an embedded struct's is promoted. *)
Definition generated_len (k : rrstruct) : RR_Header -> list fval -> lener :=
  match k with
  | RR_A => A_len
  | RR_NS => NS_len
  | RR_MD => MD_len
  | RR_MF => MF_len
  | RR_CNAME => CNAME_len
  | RR_SOA => SOA_len
  | RR_MB => MB_len
  | RR_MG => MG_len
  | RR_MR => MR_len
  | RR_NULL => NULL_len
  | RR_PTR => PTR_len
  | RR_HINFO => HINFO_len
  | RR_MINFO => MINFO_len
  | RR_MX => MX_len
  | RR_TXT => TXT_len
  | RR_RP => RP_len
  | RR_AFSDB => AFSDB_len
  | RR_X25 => X25_len
  | RR_ISDN => ISDN_len
  | RR_RT => RT_len
  | RR_NSAPPTR => NSAPPTR_len
  | RR_SIG => RRSIG_len
  | RR_KEY => DNSKEY_len
  | RR_PX => PX_len
  | RR_GPOS => GPOS_len
  | RR_AAAA => AAAA_len
  | RR_LOC => LOC_len
  | RR_NXT => NSEC_len
  | RR_EID => EID_len
  | RR_NIMLOC => NIMLOC_len
  | RR_SRV => SRV_len
  | RR_NAPTR => NAPTR_len
  | RR_KX => KX_len
  | RR_CERT => CERT_len
  | RR_DNAME => DNAME_len
  | RR_OPT => OPT_len
  | RR_APL => APL_len
  | RR_DS => DS_len
  | RR_SSHFP => SSHFP_len
  | RR_IPSECKEY => IPSECKEY_len
  | RR_RRSIG => RRSIG_len
  | RR_NSEC => NSEC_len
  | RR_DNSKEY => DNSKEY_len
  | RR_DHCID => DHCID_len
  | RR_NSEC3 => NSEC3_len
  | RR_NSEC3PARAM => NSEC3PARAM_len
  | RR_TLSA => TLSA_len
  | RR_SMIMEA => SMIMEA_len
  | RR_HIP => HIP_len
  | RR_NINFO => NINFO_len
  | RR_RKEY => RKEY_len
  | RR_TALINK => TALINK_len
  | RR_CDS => DS_len
  | RR_CDNSKEY => DNSKEY_len
  | RR_OPENPGPKEY => OPENPGPKEY_len
  | RR_CSYNC => CSYNC_len
  | RR_ZONEMD => ZONEMD_len
  | RR_SVCB => SVCB_len
  | RR_HTTPS => SVCB_len
  | RR_SPF => SPF_len
  | RR_UINFO => UINFO_len
  | RR_UID => UID_len
  | RR_GID => GID_len
  | RR_NID => NID_len
  | RR_L32 => L32_len
  | RR_L64 => L64_len
  | RR_LP => LP_len
  | RR_EUI48 => EUI48_len
  | RR_EUI64 => EUI64_len
  | RR_NXNAME => NXNAME_len
  | RR_TKEY => TKEY_len
  | RR_TSIG => TSIG_len
  | RR_ANY => ANY_len
  | RR_URI => URI_len
  | RR_CAA => CAA_len
  | RR_AVC => AVC_len
  | RR_AMTRELAY => AMTRELAY_len
  | RR_RESINFO => RESINFO_len
  | RR_TA => TA_len
  | RR_DLV => DS_len
  | RR_RFC3597 => RFC3597_len
  end.

(** ** The tables are the ones the other files use *)

(** [TypeToRR] constructs, for every 16-bit type, the struct that carries
    this type code, and no other struct carries it; [TypeToString] names every
    type once and gives no name twice. *)
Theorem generated_tables :
  (forall t, TypeToRR_table t = TypeToRR t) /\
  (forall t k, TypeToRR_table t = Some k <-> type_code k = Some t) /\
  NoDup (map fst TypeToString) /\ NoDup (map snd TypeToString).
Proof.
  assert (forall t k, TypeToRR_table t = Some k -> type_code k = Some t) as H1.
  { intros t k. unfold TypeToRR_table. intros H. repeat (case_match; try discriminate); by simplify_eq. }
  assert (forall t k, type_code k = Some t -> TypeToRR_table t = Some k) as H2 by (intros t []; cbn; intros [= <-]; reflexivity).
  split_and!.
  - intros t. destruct (TypeToRR t) as [k|] eqn:E.
    + apply H2. unfold TypeToRR in E. destruct (list_find _ _) as [[i k']|] eqn:F; [|done].
      injection E as <-. by apply list_find_Some in F as (_ & F & _).
    + destruct (TypeToRR_table t) as [k|] eqn:F; [|done]. apply H1 in F. unfold TypeToRR in E.
      destruct (list_find _ _) as [?|] eqn:G; [done|]. apply list_find_None in G.
      rewrite Forall_forall in G. destruct (G k); [|done]. by destruct k; try discriminate F; vm_compute; set_solver.
  - naive_solver.
  - by apply (bool_decide_unpack _).
  - by apply (bool_decide_unpack _).
Qed.

(** ** The methods *)

Section Fields.
Context (rr : members) (off : Z).
Implicit Types (l n k : Z) (c : option (gset bytes)) (fs : schema) (vs : list fval) (t : ftag) (s : bytes) (xs : list bytes) (b : bool) (name : String.string).

(** The length with the fields that are still to come. *)
Definition count_on (fs : schema) (vs : list fval) (l : Z) (c : option (gset bytes)) : res error (Z * option (gset bytes)) :=
  '(n, c) ← fields_len rr fs vs (off + l) c; Ok (l + n, c).

Lemma count_end l c : count_on [] [] l c = Ok (l, c).
Proof. unfold count_on. cbn. by rewrite Z.add_0_r. Qed.

Lemma count_next name t fs v vs l c n : field_len rr t v (off + l) c = Ok (n, c) ->
  count_on ((name, t) :: fs) (v :: vs) l c = count_on fs vs (l + n) c.
Proof.
  intros H. unfold count_on. cbn [fields_len]. rewrite H. gosimp. rewrite Z.add_assoc.
  destruct (fields_len _ _ _ _ _) as [[k c']|?| |]; gosimp; [|done..]. do 2 f_equal. lia.
Qed.

Lemma count_name name t b fs s vs l c (K : Z * option (gset bytes) -> res error (Z * option (gset bytes))) :
  field_len rr t (V_str s) (off + l) c = domainNameLen s (off + l) c b ->
  (forall n c, K (n, c) = count_on fs vs (l + n) c) ->
  domainNameLen s (off + l) c b ≫= K = count_on ((name, t) :: fs) (V_str s :: vs) l c.
Proof.
  intros H HK. unfold count_on. cbn [fields_len]. rewrite H.
  destruct (domainNameLen s (off + l) c b) as [[n c']|?| |]; gosimp; [|done..]. rewrite HK. unfold count_on. rewrite Z.add_assoc.
  destruct (fields_len _ _ _ _ _) as [[k c'']|?| |]; gosimp; [|done..]. do 2 f_equal. lia.
Qed.

Lemma foldM_names xs l n c :
  foldM (fun '(l, c) x => '(n, c) ← domainNameLen x (off + l) c false; Ok (l + n, c)) (l + n, c) xs =
  ('(k, c) ← foldM (fun '(n, c) x => '(k, c) ← domainNameLen x (off + l + n) c false; Ok (n + k, c)) (n, c) xs; Ok (l + k, c)).
Proof.
  revert n c. induction xs as [|x xs IH]; intros n c; cbn [foldM]; [by gosimp|]. rewrite Z.add_assoc.
  destruct (domainNameLen x (off + l + n) c false) as [[k c']|?| |]; gosimp; [|done..].
  rewrite <- IH. do 2 f_equal. lia.
Qed.

Lemma count_names name xs l c :
  foldM (fun '(l, c) x => '(n, c) ← domainNameLen x (off + l) c false; Ok (l + n, c)) (l, c) xs ≫= (fun '(l, c) => Ok (l, c)) =
  count_on [(name, F_names)] [V_strs xs] l c.
Proof.
  rewrite <- (Z.add_0_r l) at 1. rewrite foldM_names. unfold count_on. cbn [fields_len field_len].
  destruct (foldM _ _ xs) as [[k c']|?| |]; gosimp; [|done..]. by rewrite Z.add_0_r.
Qed.

Lemma foldl_count {A} (f : A -> Z) (xs : list A) l : foldl (fun l x => l + f x) l xs = l + sum_with f xs.
Proof. revert l. induction xs as [|x xs IH]; intros l; cbn; [lia|]. rewrite IH. lia. Qed.

End Fields.

Lemma opts_count os l :
  foldl (fun l o => let l := l + 4 in let lo := match opt_pack o with Ok b => b | _ => [] end in l + zlen lo) l os = l + sum_with opt_len os.
Proof.
  revert l. induction os as [|o os IH]; intros l; cbn [foldl sum_with]; [lia|]. cbv zeta in *. rewrite IH. unfold opt_len.
  destruct (opt_pack o); cbn [zlen length]; rewrite ?zlen_nil; lia.
Qed.

(** One field of the reference, whatever the method does with it. *)
Ltac count_step :=
  first
    [ rewrite count_end
    | apply count_names
    | apply count_name; [reflexivity|intros ? ?; cbv beta iota zeta]
    | match goal with |- _ = count_on ?rr ?off ((?name, ?t) :: ?fs) (?v :: ?vs) ?l ?c =>
        rewrite (count_next rr off name t fs v vs l c _ eq_refl)
      end ].

Ltac same_count :=
  cbv beta iota zeta; repeat count_step; rewrite ?opts_count, ?foldl_count;
  unfold AMTRELAYIPv4, AMTRELAYIPv6, AMTRELAYHost;
  repeat match goal with |- context [int_member ?ms ?m] => let v := eval vm_compute in (int_member ms m) in change (int_member ms m) with v end;
  repeat match goal with |- context [if ?b then _ else _] => match b with negb ?b => destruct b | _ => destruct b end; cbn [negb] end;
  do 2 f_equal; lia.

(** C21: for every struct, header and values of its fields' types, the generated
    [len] method (and the handwritten ones of OPT, NSEC, NSEC3 and CSYNC) gives
    the length and the compression map that the length of the header and the
    fields give one by one. *)
Theorem generated_len_fields h k vs off c : Forall2 (fun f v => has_type f.2 v) (fields k) vs ->
  generated_len k h vs off c = rr_len (MkRR h k vs) off c.
Proof.
  intros H. unfold rr_len. cbn [RR.Hdr struct data].
  transitivity ('(l, c) ← hdr_len h off c; count_on (members_of (fields k) vs) off (fields k) vs l c); [|reflexivity].
  struct_values k H; cbn [generated_len A_len NS_len MD_len MF_len CNAME_len SOA_len MB_len MG_len MR_len NULL_len PTR_len HINFO_len MINFO_len MX_len TXT_len RP_len AFSDB_len X25_len ISDN_len RT_len NSAPPTR_len PX_len GPOS_len AAAA_len LOC_len EID_len NIMLOC_len SRV_len NAPTR_len KX_len CERT_len DNAME_len OPT_len APL_len DS_len SSHFP_len IPSECKEY_len RRSIG_len NSEC_len DNSKEY_len DHCID_len NSEC3_len NSEC3PARAM_len TLSA_len SMIMEA_len HIP_len NINFO_len RKEY_len TALINK_len OPENPGPKEY_len CSYNC_len ZONEMD_len SVCB_len SPF_len UINFO_len UID_len GID_len NID_len L32_len L64_len LP_len EUI48_len EUI64_len NXNAME_len TKEY_len TSIG_len ANY_len URI_len CAA_len AVC_len AMTRELAY_len RESINFO_len TA_len RFC3597_len]; apply bind_same; intros [hl c0]; same_count.
Qed.

(** An MX record whose exchange ends in the owner name, and an A record without
    an address. *)
Lemma generated_len_fields_witness :
  ('(l, _) ← generated_len RR_MX (MkHeader (bs "a.") 15 1 3600 0) [V_int 10; V_str (bs "b.a.")] 0 (Some ∅); Ok l) = Ok 19 /\
  generated_len RR_A (MkHeader (bs "a.") 1 1 3600 0) [V_str []] 0 None = Ok (13, None).
Proof.
  split.
  - rewrite (generated_len_fields _ RR_MX [V_int 10; V_str (bs "b.a.")]); [vm_compute; reflexivity|].
    repeat constructor; vm_compute; congruence.
  - rewrite (generated_len_fields _ RR_A [V_str []]); [vm_compute; reflexivity|]. repeat constructor.
Defined.
