(* ===== verification/Duplicate.v ===== *)
(** * duplicate.go, zduplicate.go: duplicate records

    [IsDuplicate] compares the headers, less the TTL, and then calls the
    [isDuplicate] method that duplicate_generate.go wrote for the struct; the
    methods are translated line by line.  They are proved to decide equality of
    a canonical form ([dup_key]): names in lower case, addresses in their short
    form, SVCB pairs sorted and packed. *)

From S2P Require Import Prelude Go Labels Names NameLen Wire Codec Nsec Encodings Apl Edns Svcb RData RR Safety Zpack.

(** ** Helpers *)

(** [net.IP.Equal] of the standard library: an IPv4 address is equal to itself
    mapped into IPv6. *)
Definition IP_Equal (ip x : bytes) : bool :=
  if zlen ip =? zlen x then bool_decide (ip = x) else
  if (zlen ip =? 4) && (zlen x =? 16) then bool_decide (ztake 12 x = v4InV6Prefix) && bool_decide (ip = zdrop 12 x) else
  if (zlen ip =? 16) && (zlen x =? 4) then bool_decide (ztake 12 ip = v4InV6Prefix) && bool_decide (zdrop 12 ip = x) else
  false.

(** [(a *APLPrefix) equals] of types.go. *)
Definition equals (a b : APLPrefix) : bool :=
  bool_decide (Negation a = Negation b) && IP_Equal (Network_IP a) (Network_IP b) && bool_decide (Network_Mask a = Network_Mask b).

Definition isDuplicateName (s1 s2 : bytes) : res error bool := equal s1 s2.

(** [for i := 0; i < len(l1); i++ { if !same(l1[i], l2[i]) { return false } }]. *)
Fixpoint each_same {A} (same : A -> A -> res error bool) (l1 l2 : list A) : res error bool :=
  match l1, l2 with
  | [], _ => Ok true
  | x :: l1, y :: l2 => d ← same x y; if negb d then Ok false else each_same same l1 l2
  | _ :: _, [] => Panic
  end.

(** [(r1 *RR_Header) isDuplicate]. *)
Definition header_isDuplicate (r1 r2 : RR_Header) : res error bool :=
  if negb (Class_ r1 =? Class_ r2) then Ok false else
  if negb (Rrtype r1 =? Rrtype r2) then Ok false else
  d ← isDuplicateName (Name r1) (Name r2); if negb d then Ok false else
  (* ignore TTL *)
  Ok true.

(** ** The methods (zduplicate.go) *)

Definition A_isDuplicate (r1 : list fval) (_r2 : RR) : res error bool :=
  if negb (bool_decide (struct _r2 = RR_A)) then Ok false else
  match r1, data _r2 with
  | [V_str A_], [V_str A_'] =>
      if negb (IP_Equal A_ A_') then Ok false else
      Ok true
  | _, _ => Panic
  end.

Definition AAAA_isDuplicate (r1 : list fval) (_r2 : RR) : res error bool :=
  if negb (bool_decide (struct _r2 = RR_AAAA)) then Ok false else
  match r1, data _r2 with
  | [V_str AAAA], [V_str AAAA'] =>
      if negb (IP_Equal AAAA AAAA') then Ok false else
      Ok true
  | _, _ => Panic
  end.

Definition AFSDB_isDuplicate (r1 : list fval) (_r2 : RR) : res error bool :=
  if negb (bool_decide (struct _r2 = RR_AFSDB)) then Ok false else
  match r1, data _r2 with
  | [V_int Subtype; V_str Hostname], [V_int Subtype'; V_str Hostname'] =>
      if negb (Subtype =? Subtype') then Ok false else
      d ← isDuplicateName Hostname Hostname'; if negb d then Ok false else
      Ok true
  | _, _ => Panic
  end.

Definition AMTRELAY_isDuplicate (r1 : list fval) (_r2 : RR) : res error bool :=
  if negb (bool_decide (struct _r2 = RR_AMTRELAY)) then Ok false else
  match r1, data _r2 with
  | [V_int Precedence; V_int GatewayType; V_gateway GatewayAddr GatewayHost], [V_int Precedence'; V_int GatewayType'; V_gateway GatewayAddr' GatewayHost'] =>
      if negb (Precedence =? Precedence') then Ok false else
      if negb (GatewayType =? GatewayType') then Ok false else
      d ← (if (GatewayType =? IPSECGatewayIPv4) || (GatewayType =? IPSECGatewayIPv6) then Ok (IP_Equal GatewayAddr GatewayAddr')
           else if GatewayType =? IPSECGatewayHost then isDuplicateName GatewayHost GatewayHost' else Ok true);
      if negb d then Ok false else
      Ok true
  | _, _ => Panic
  end.

Definition ANY_isDuplicate (r1 : list fval) (_r2 : RR) : res error bool :=
  if negb (bool_decide (struct _r2 = RR_ANY)) then Ok false else
  match r1, data _r2 with
  | [], [] =>
      Ok true
  | _, _ => Panic
  end.

Definition APL_isDuplicate (r1 : list fval) (_r2 : RR) : res error bool :=
  if negb (bool_decide (struct _r2 = RR_APL)) then Ok false else
  match r1, data _r2 with
  | [V_apl Prefixes], [V_apl Prefixes'] =>
      if negb (zlen Prefixes =? zlen Prefixes') then Ok false else
      d ← each_same (fun x y => Ok (equals x y)) Prefixes Prefixes'; if negb d then Ok false else
      Ok true
  | _, _ => Panic
  end.

Definition AVC_isDuplicate (r1 : list fval) (_r2 : RR) : res error bool :=
  if negb (bool_decide (struct _r2 = RR_AVC)) then Ok false else
  match r1, data _r2 with
  | [V_strs Txt], [V_strs Txt'] =>
      if negb (zlen Txt =? zlen Txt') then Ok false else
      d ← each_same (fun x y => Ok (bool_decide (x = y))) Txt Txt'; if negb d then Ok false else
      Ok true
  | _, _ => Panic
  end.

Definition CAA_isDuplicate (r1 : list fval) (_r2 : RR) : res error bool :=
  if negb (bool_decide (struct _r2 = RR_CAA)) then Ok false else
  match r1, data _r2 with
  | [V_int Flag; V_str Tag; V_str Value], [V_int Flag'; V_str Tag'; V_str Value'] =>
      if negb (Flag =? Flag') then Ok false else
      if negb (bool_decide (Tag = Tag')) then Ok false else
      if negb (bool_decide (Value = Value')) then Ok false else
      Ok true
  | _, _ => Panic
  end.

Definition CDNSKEY_isDuplicate (r1 : list fval) (_r2 : RR) : res error bool :=
  if negb (bool_decide (struct _r2 = RR_CDNSKEY)) then Ok false else
  match r1, data _r2 with
  | [V_int Flags; V_int Protocol; V_int Algorithm; V_str PublicKey], [V_int Flags'; V_int Protocol'; V_int Algorithm'; V_str PublicKey'] =>
      if negb (Flags =? Flags') then Ok false else
      if negb (Protocol =? Protocol') then Ok false else
      if negb (Algorithm =? Algorithm') then Ok false else
      if negb (bool_decide (PublicKey = PublicKey')) then Ok false else
      Ok true
  | _, _ => Panic
  end.

Definition CDS_isDuplicate (r1 : list fval) (_r2 : RR) : res error bool :=
  if negb (bool_decide (struct _r2 = RR_CDS)) then Ok false else
  match r1, data _r2 with
  | [V_int KeyTag; V_int Algorithm; V_int DigestType; V_str Digest], [V_int KeyTag'; V_int Algorithm'; V_int DigestType'; V_str Digest'] =>
      if negb (KeyTag =? KeyTag') then Ok false else
      if negb (Algorithm =? Algorithm') then Ok false else
      if negb (DigestType =? DigestType') then Ok false else
      if negb (bool_decide (Digest = Digest')) then Ok false else
      Ok true
  | _, _ => Panic
  end.

Definition CERT_isDuplicate (r1 : list fval) (_r2 : RR) : res error bool :=
  if negb (bool_decide (struct _r2 = RR_CERT)) then Ok false else
  match r1, data _r2 with
  | [V_int Type_; V_int KeyTag; V_int Algorithm; V_str Certificate], [V_int Type_'; V_int KeyTag'; V_int Algorithm'; V_str Certificate'] =>
      if negb (Type_ =? Type_') then Ok false else
      if negb (KeyTag =? KeyTag') then Ok false else
      if negb (Algorithm =? Algorithm') then Ok false else
      if negb (bool_decide (Certificate = Certificate')) then Ok false else
      Ok true
  | _, _ => Panic
  end.

Definition CNAME_isDuplicate (r1 : list fval) (_r2 : RR) : res error bool :=
  if negb (bool_decide (struct _r2 = RR_CNAME)) then Ok false else
  match r1, data _r2 with
  | [V_str Target], [V_str Target'] =>
      d ← isDuplicateName Target Target'; if negb d then Ok false else
      Ok true
  | _, _ => Panic
  end.

Definition CSYNC_isDuplicate (r1 : list fval) (_r2 : RR) : res error bool :=
  if negb (bool_decide (struct _r2 = RR_CSYNC)) then Ok false else
  match r1, data _r2 with
  | [V_int Serial; V_int Flags; V_types TypeBitMap], [V_int Serial'; V_int Flags'; V_types TypeBitMap'] =>
      if negb (Serial =? Serial') then Ok false else
      if negb (Flags =? Flags') then Ok false else
      if negb (zlen TypeBitMap =? zlen TypeBitMap') then Ok false else
      d ← each_same (fun x y => Ok (x =? y)) TypeBitMap TypeBitMap'; if negb d then Ok false else
      Ok true
  | _, _ => Panic
  end.

Definition DHCID_isDuplicate (r1 : list fval) (_r2 : RR) : res error bool :=
  if negb (bool_decide (struct _r2 = RR_DHCID)) then Ok false else
  match r1, data _r2 with
  | [V_str Digest], [V_str Digest'] =>
      if negb (bool_decide (Digest = Digest')) then Ok false else
      Ok true
  | _, _ => Panic
  end.

Definition DLV_isDuplicate (r1 : list fval) (_r2 : RR) : res error bool :=
  if negb (bool_decide (struct _r2 = RR_DLV)) then Ok false else
  match r1, data _r2 with
  | [V_int KeyTag; V_int Algorithm; V_int DigestType; V_str Digest], [V_int KeyTag'; V_int Algorithm'; V_int DigestType'; V_str Digest'] =>
      if negb (KeyTag =? KeyTag') then Ok false else
      if negb (Algorithm =? Algorithm') then Ok false else
      if negb (DigestType =? DigestType') then Ok false else
      if negb (bool_decide (Digest = Digest')) then Ok false else
      Ok true
  | _, _ => Panic
  end.

Definition DNAME_isDuplicate (r1 : list fval) (_r2 : RR) : res error bool :=
  if negb (bool_decide (struct _r2 = RR_DNAME)) then Ok false else
  match r1, data _r2 with
  | [V_str Target], [V_str Target'] =>
      d ← isDuplicateName Target Target'; if negb d then Ok false else
      Ok true
  | _, _ => Panic
  end.

Definition DNSKEY_isDuplicate (r1 : list fval) (_r2 : RR) : res error bool :=
  if negb (bool_decide (struct _r2 = RR_DNSKEY)) then Ok false else
  match r1, data _r2 with
  | [V_int Flags; V_int Protocol; V_int Algorithm; V_str PublicKey], [V_int Flags'; V_int Protocol'; V_int Algorithm'; V_str PublicKey'] =>
      if negb (Flags =? Flags') then Ok false else
      if negb (Protocol =? Protocol') then Ok false else
      if negb (Algorithm =? Algorithm') then Ok false else
      if negb (bool_decide (PublicKey = PublicKey')) then Ok false else
      Ok true
  | _, _ => Panic
  end.

Definition DS_isDuplicate (r1 : list fval) (_r2 : RR) : res error bool :=
  if negb (bool_decide (struct _r2 = RR_DS)) then Ok false else
  match r1, data _r2 with
  | [V_int KeyTag; V_int Algorithm; V_int DigestType; V_str Digest], [V_int KeyTag'; V_int Algorithm'; V_int DigestType'; V_str Digest'] =>
      if negb (KeyTag =? KeyTag') then Ok false else
      if negb (Algorithm =? Algorithm') then Ok false else
      if negb (DigestType =? DigestType') then Ok false else
      if negb (bool_decide (Digest = Digest')) then Ok false else
      Ok true
  | _, _ => Panic
  end.

Definition EID_isDuplicate (r1 : list fval) (_r2 : RR) : res error bool :=
  if negb (bool_decide (struct _r2 = RR_EID)) then Ok false else
  match r1, data _r2 with
  | [V_str Endpoint], [V_str Endpoint'] =>
      if negb (bool_decide (Endpoint = Endpoint')) then Ok false else
      Ok true
  | _, _ => Panic
  end.

Definition EUI48_isDuplicate (r1 : list fval) (_r2 : RR) : res error bool :=
  if negb (bool_decide (struct _r2 = RR_EUI48)) then Ok false else
  match r1, data _r2 with
  | [V_int Address], [V_int Address'] =>
      if negb (Address =? Address') then Ok false else
      Ok true
  | _, _ => Panic
  end.

Definition EUI64_isDuplicate (r1 : list fval) (_r2 : RR) : res error bool :=
  if negb (bool_decide (struct _r2 = RR_EUI64)) then Ok false else
  match r1, data _r2 with
  | [V_int Address], [V_int Address'] =>
      if negb (Address =? Address') then Ok false else
      Ok true
  | _, _ => Panic
  end.

Definition GID_isDuplicate (r1 : list fval) (_r2 : RR) : res error bool :=
  if negb (bool_decide (struct _r2 = RR_GID)) then Ok false else
  match r1, data _r2 with
  | [V_int Gid], [V_int Gid'] =>
      if negb (Gid =? Gid') then Ok false else
      Ok true
  | _, _ => Panic
  end.

Definition GPOS_isDuplicate (r1 : list fval) (_r2 : RR) : res error bool :=
  if negb (bool_decide (struct _r2 = RR_GPOS)) then Ok false else
  match r1, data _r2 with
  | [V_str Longitude; V_str Latitude; V_str Altitude], [V_str Longitude'; V_str Latitude'; V_str Altitude'] =>
      if negb (bool_decide (Longitude = Longitude')) then Ok false else
      if negb (bool_decide (Latitude = Latitude')) then Ok false else
      if negb (bool_decide (Altitude = Altitude')) then Ok false else
      Ok true
  | _, _ => Panic
  end.

Definition HINFO_isDuplicate (r1 : list fval) (_r2 : RR) : res error bool :=
  if negb (bool_decide (struct _r2 = RR_HINFO)) then Ok false else
  match r1, data _r2 with
  | [V_str Cpu; V_str Os], [V_str Cpu'; V_str Os'] =>
      if negb (bool_decide (Cpu = Cpu')) then Ok false else
      if negb (bool_decide (Os = Os')) then Ok false else
      Ok true
  | _, _ => Panic
  end.

Definition HIP_isDuplicate (r1 : list fval) (_r2 : RR) : res error bool :=
  if negb (bool_decide (struct _r2 = RR_HIP)) then Ok false else
  match r1, data _r2 with
  | [V_int HitLength; V_int PublicKeyAlgorithm; V_int PublicKeyLength; V_str Hit; V_str PublicKey; V_strs RendezvousServers], [V_int HitLength'; V_int PublicKeyAlgorithm'; V_int PublicKeyLength'; V_str Hit'; V_str PublicKey'; V_strs RendezvousServers'] =>
      if negb (HitLength =? HitLength') then Ok false else
      if negb (PublicKeyAlgorithm =? PublicKeyAlgorithm') then Ok false else
      if negb (PublicKeyLength =? PublicKeyLength') then Ok false else
      if negb (bool_decide (Hit = Hit')) then Ok false else
      if negb (bool_decide (PublicKey = PublicKey')) then Ok false else
      if negb (zlen RendezvousServers =? zlen RendezvousServers') then Ok false else
      d ← each_same isDuplicateName RendezvousServers RendezvousServers'; if negb d then Ok false else
      Ok true
  | _, _ => Panic
  end.

Definition HTTPS_isDuplicate (r1 : list fval) (_r2 : RR) : res error bool :=
  if negb (bool_decide (struct _r2 = RR_HTTPS)) then Ok false else
  match r1, data _r2 with
  | [V_int Priority; V_str Target; V_pairs Value], [V_int Priority'; V_str Target'; V_pairs Value'] =>
      if negb (Priority =? Priority') then Ok false else
      d ← isDuplicateName Target Target'; if negb d then Ok false else
      if negb (zlen Value =? zlen Value') then Ok false else
      d ← areSVCBPairArraysEqual Value Value'; if negb d then Ok false else
      Ok true
  | _, _ => Panic
  end.

Definition IPSECKEY_isDuplicate (r1 : list fval) (_r2 : RR) : res error bool :=
  if negb (bool_decide (struct _r2 = RR_IPSECKEY)) then Ok false else
  match r1, data _r2 with
  | [V_int Precedence; V_int GatewayType; V_int Algorithm; V_gateway GatewayAddr GatewayHost; V_str PublicKey], [V_int Precedence'; V_int GatewayType'; V_int Algorithm'; V_gateway GatewayAddr' GatewayHost'; V_str PublicKey'] =>
      if negb (Precedence =? Precedence') then Ok false else
      if negb (GatewayType =? GatewayType') then Ok false else
      if negb (Algorithm =? Algorithm') then Ok false else
      d ← (if (GatewayType =? IPSECGatewayIPv4) || (GatewayType =? IPSECGatewayIPv6) then Ok (IP_Equal GatewayAddr GatewayAddr')
           else if GatewayType =? IPSECGatewayHost then isDuplicateName GatewayHost GatewayHost' else Ok true);
      if negb d then Ok false else
      if negb (bool_decide (PublicKey = PublicKey')) then Ok false else
      Ok true
  | _, _ => Panic
  end.

Definition ISDN_isDuplicate (r1 : list fval) (_r2 : RR) : res error bool :=
  if negb (bool_decide (struct _r2 = RR_ISDN)) then Ok false else
  match r1, data _r2 with
  | [V_str Address; V_str SubAddress], [V_str Address'; V_str SubAddress'] =>
      if negb (bool_decide (Address = Address')) then Ok false else
      if negb (bool_decide (SubAddress = SubAddress')) then Ok false else
      Ok true
  | _, _ => Panic
  end.

Definition KEY_isDuplicate (r1 : list fval) (_r2 : RR) : res error bool :=
  if negb (bool_decide (struct _r2 = RR_KEY)) then Ok false else
  match r1, data _r2 with
  | [V_int Flags; V_int Protocol; V_int Algorithm; V_str PublicKey], [V_int Flags'; V_int Protocol'; V_int Algorithm'; V_str PublicKey'] =>
      if negb (Flags =? Flags') then Ok false else
      if negb (Protocol =? Protocol') then Ok false else
      if negb (Algorithm =? Algorithm') then Ok false else
      if negb (bool_decide (PublicKey = PublicKey')) then Ok false else
      Ok true
  | _, _ => Panic
  end.

Definition KX_isDuplicate (r1 : list fval) (_r2 : RR) : res error bool :=
  if negb (bool_decide (struct _r2 = RR_KX)) then Ok false else
  match r1, data _r2 with
  | [V_int Preference; V_str Exchanger], [V_int Preference'; V_str Exchanger'] =>
      if negb (Preference =? Preference') then Ok false else
      d ← isDuplicateName Exchanger Exchanger'; if negb d then Ok false else
      Ok true
  | _, _ => Panic
  end.

Definition L32_isDuplicate (r1 : list fval) (_r2 : RR) : res error bool :=
  if negb (bool_decide (struct _r2 = RR_L32)) then Ok false else
  match r1, data _r2 with
  | [V_int Preference; V_str Locator32], [V_int Preference'; V_str Locator32'] =>
      if negb (Preference =? Preference') then Ok false else
      if negb (IP_Equal Locator32 Locator32') then Ok false else
      Ok true
  | _, _ => Panic
  end.

Definition L64_isDuplicate (r1 : list fval) (_r2 : RR) : res error bool :=
  if negb (bool_decide (struct _r2 = RR_L64)) then Ok false else
  match r1, data _r2 with
  | [V_int Preference; V_int Locator64], [V_int Preference'; V_int Locator64'] =>
      if negb (Preference =? Preference') then Ok false else
      if negb (Locator64 =? Locator64') then Ok false else
      Ok true
  | _, _ => Panic
  end.

Definition LOC_isDuplicate (r1 : list fval) (_r2 : RR) : res error bool :=
  if negb (bool_decide (struct _r2 = RR_LOC)) then Ok false else
  match r1, data _r2 with
  | [V_int Version; V_int Size; V_int HorizPre; V_int VertPre; V_int Latitude; V_int Longitude; V_int Altitude], [V_int Version'; V_int Size'; V_int HorizPre'; V_int VertPre'; V_int Latitude'; V_int Longitude'; V_int Altitude'] =>
      if negb (Version =? Version') then Ok false else
      if negb (Size =? Size') then Ok false else
      if negb (HorizPre =? HorizPre') then Ok false else
      if negb (VertPre =? VertPre') then Ok false else
      if negb (Latitude =? Latitude') then Ok false else
      if negb (Longitude =? Longitude') then Ok false else
      if negb (Altitude =? Altitude') then Ok false else
      Ok true
  | _, _ => Panic
  end.

Definition LP_isDuplicate (r1 : list fval) (_r2 : RR) : res error bool :=
  if negb (bool_decide (struct _r2 = RR_LP)) then Ok false else
  match r1, data _r2 with
  | [V_int Preference; V_str Fqdn], [V_int Preference'; V_str Fqdn'] =>
      if negb (Preference =? Preference') then Ok false else
      d ← isDuplicateName Fqdn Fqdn'; if negb d then Ok false else
      Ok true
  | _, _ => Panic
  end.

Definition MB_isDuplicate (r1 : list fval) (_r2 : RR) : res error bool :=
  if negb (bool_decide (struct _r2 = RR_MB)) then Ok false else
  match r1, data _r2 with
  | [V_str Mb], [V_str Mb'] =>
      d ← isDuplicateName Mb Mb'; if negb d then Ok false else
      Ok true
  | _, _ => Panic
  end.

Definition MD_isDuplicate (r1 : list fval) (_r2 : RR) : res error bool :=
  if negb (bool_decide (struct _r2 = RR_MD)) then Ok false else
  match r1, data _r2 with
  | [V_str Md], [V_str Md'] =>
      d ← isDuplicateName Md Md'; if negb d then Ok false else
      Ok true
  | _, _ => Panic
  end.

Definition MF_isDuplicate (r1 : list fval) (_r2 : RR) : res error bool :=
  if negb (bool_decide (struct _r2 = RR_MF)) then Ok false else
  match r1, data _r2 with
  | [V_str Mf], [V_str Mf'] =>
      d ← isDuplicateName Mf Mf'; if negb d then Ok false else
      Ok true
  | _, _ => Panic
  end.

Definition MG_isDuplicate (r1 : list fval) (_r2 : RR) : res error bool :=
  if negb (bool_decide (struct _r2 = RR_MG)) then Ok false else
  match r1, data _r2 with
  | [V_str Mg], [V_str Mg'] =>
      d ← isDuplicateName Mg Mg'; if negb d then Ok false else
      Ok true
  | _, _ => Panic
  end.

Definition MINFO_isDuplicate (r1 : list fval) (_r2 : RR) : res error bool :=
  if negb (bool_decide (struct _r2 = RR_MINFO)) then Ok false else
  match r1, data _r2 with
  | [V_str Rmail; V_str Email], [V_str Rmail'; V_str Email'] =>
      d ← isDuplicateName Rmail Rmail'; if negb d then Ok false else
      d ← isDuplicateName Email Email'; if negb d then Ok false else
      Ok true
  | _, _ => Panic
  end.

Definition MR_isDuplicate (r1 : list fval) (_r2 : RR) : res error bool :=
  if negb (bool_decide (struct _r2 = RR_MR)) then Ok false else
  match r1, data _r2 with
  | [V_str Mr], [V_str Mr'] =>
      d ← isDuplicateName Mr Mr'; if negb d then Ok false else
      Ok true
  | _, _ => Panic
  end.

Definition MX_isDuplicate (r1 : list fval) (_r2 : RR) : res error bool :=
  if negb (bool_decide (struct _r2 = RR_MX)) then Ok false else
  match r1, data _r2 with
  | [V_int Preference; V_str Mx], [V_int Preference'; V_str Mx'] =>
      if negb (Preference =? Preference') then Ok false else
      d ← isDuplicateName Mx Mx'; if negb d then Ok false else
      Ok true
  | _, _ => Panic
  end.

Definition NAPTR_isDuplicate (r1 : list fval) (_r2 : RR) : res error bool :=
  if negb (bool_decide (struct _r2 = RR_NAPTR)) then Ok false else
  match r1, data _r2 with
  | [V_int Order; V_int Preference; V_str Flags; V_str Service; V_str Regexp; V_str Replacement], [V_int Order'; V_int Preference'; V_str Flags'; V_str Service'; V_str Regexp'; V_str Replacement'] =>
      if negb (Order =? Order') then Ok false else
      if negb (Preference =? Preference') then Ok false else
      if negb (bool_decide (Flags = Flags')) then Ok false else
      if negb (bool_decide (Service = Service')) then Ok false else
      if negb (bool_decide (Regexp = Regexp')) then Ok false else
      d ← isDuplicateName Replacement Replacement'; if negb d then Ok false else
      Ok true
  | _, _ => Panic
  end.

Definition NID_isDuplicate (r1 : list fval) (_r2 : RR) : res error bool :=
  if negb (bool_decide (struct _r2 = RR_NID)) then Ok false else
  match r1, data _r2 with
  | [V_int Preference; V_int NodeID], [V_int Preference'; V_int NodeID'] =>
      if negb (Preference =? Preference') then Ok false else
      if negb (NodeID =? NodeID') then Ok false else
      Ok true
  | _, _ => Panic
  end.

Definition NIMLOC_isDuplicate (r1 : list fval) (_r2 : RR) : res error bool :=
  if negb (bool_decide (struct _r2 = RR_NIMLOC)) then Ok false else
  match r1, data _r2 with
  | [V_str Locator], [V_str Locator'] =>
      if negb (bool_decide (Locator = Locator')) then Ok false else
      Ok true
  | _, _ => Panic
  end.

Definition NINFO_isDuplicate (r1 : list fval) (_r2 : RR) : res error bool :=
  if negb (bool_decide (struct _r2 = RR_NINFO)) then Ok false else
  match r1, data _r2 with
  | [V_strs ZSData], [V_strs ZSData'] =>
      if negb (zlen ZSData =? zlen ZSData') then Ok false else
      d ← each_same (fun x y => Ok (bool_decide (x = y))) ZSData ZSData'; if negb d then Ok false else
      Ok true
  | _, _ => Panic
  end.

Definition NS_isDuplicate (r1 : list fval) (_r2 : RR) : res error bool :=
  if negb (bool_decide (struct _r2 = RR_NS)) then Ok false else
  match r1, data _r2 with
  | [V_str Ns], [V_str Ns'] =>
      d ← isDuplicateName Ns Ns'; if negb d then Ok false else
      Ok true
  | _, _ => Panic
  end.

Definition NSAPPTR_isDuplicate (r1 : list fval) (_r2 : RR) : res error bool :=
  if negb (bool_decide (struct _r2 = RR_NSAPPTR)) then Ok false else
  match r1, data _r2 with
  | [V_str Ptr], [V_str Ptr'] =>
      d ← isDuplicateName Ptr Ptr'; if negb d then Ok false else
      Ok true
  | _, _ => Panic
  end.

Definition NSEC_isDuplicate (r1 : list fval) (_r2 : RR) : res error bool :=
  if negb (bool_decide (struct _r2 = RR_NSEC)) then Ok false else
  match r1, data _r2 with
  | [V_str NextDomain; V_types TypeBitMap], [V_str NextDomain'; V_types TypeBitMap'] =>
      d ← isDuplicateName NextDomain NextDomain'; if negb d then Ok false else
      if negb (zlen TypeBitMap =? zlen TypeBitMap') then Ok false else
      d ← each_same (fun x y => Ok (x =? y)) TypeBitMap TypeBitMap'; if negb d then Ok false else
      Ok true
  | _, _ => Panic
  end.

Definition NSEC3_isDuplicate (r1 : list fval) (_r2 : RR) : res error bool :=
  if negb (bool_decide (struct _r2 = RR_NSEC3)) then Ok false else
  match r1, data _r2 with
  | [V_int Hash; V_int Flags; V_int Iterations; V_int SaltLength; V_str Salt; V_int HashLength; V_str NextDomain; V_types TypeBitMap], [V_int Hash'; V_int Flags'; V_int Iterations'; V_int SaltLength'; V_str Salt'; V_int HashLength'; V_str NextDomain'; V_types TypeBitMap'] =>
      if negb (Hash =? Hash') then Ok false else
      if negb (Flags =? Flags') then Ok false else
      if negb (Iterations =? Iterations') then Ok false else
      if negb (SaltLength =? SaltLength') then Ok false else
      if negb (bool_decide (Salt = Salt')) then Ok false else
      if negb (HashLength =? HashLength') then Ok false else
      if negb (bool_decide (NextDomain = NextDomain')) then Ok false else
      if negb (zlen TypeBitMap =? zlen TypeBitMap') then Ok false else
      d ← each_same (fun x y => Ok (x =? y)) TypeBitMap TypeBitMap'; if negb d then Ok false else
      Ok true
  | _, _ => Panic
  end.

Definition NSEC3PARAM_isDuplicate (r1 : list fval) (_r2 : RR) : res error bool :=
  if negb (bool_decide (struct _r2 = RR_NSEC3PARAM)) then Ok false else
  match r1, data _r2 with
  | [V_int Hash; V_int Flags; V_int Iterations; V_int SaltLength; V_str Salt], [V_int Hash'; V_int Flags'; V_int Iterations'; V_int SaltLength'; V_str Salt'] =>
      if negb (Hash =? Hash') then Ok false else
      if negb (Flags =? Flags') then Ok false else
      if negb (Iterations =? Iterations') then Ok false else
      if negb (SaltLength =? SaltLength') then Ok false else
      if negb (bool_decide (Salt = Salt')) then Ok false else
      Ok true
  | _, _ => Panic
  end.

Definition NULL_isDuplicate (r1 : list fval) (_r2 : RR) : res error bool :=
  if negb (bool_decide (struct _r2 = RR_NULL)) then Ok false else
  match r1, data _r2 with
  | [V_str Data], [V_str Data'] =>
      if negb (bool_decide (Data = Data')) then Ok false else
      Ok true
  | _, _ => Panic
  end.

Definition NXNAME_isDuplicate (r1 : list fval) (_r2 : RR) : res error bool :=
  if negb (bool_decide (struct _r2 = RR_NXNAME)) then Ok false else
  match r1, data _r2 with
  | [], [] =>
      Ok true
  | _, _ => Panic
  end.

Definition NXT_isDuplicate (r1 : list fval) (_r2 : RR) : res error bool :=
  if negb (bool_decide (struct _r2 = RR_NXT)) then Ok false else
  match r1, data _r2 with
  | [V_str NextDomain; V_types TypeBitMap], [V_str NextDomain'; V_types TypeBitMap'] =>
      d ← isDuplicateName NextDomain NextDomain'; if negb d then Ok false else
      if negb (zlen TypeBitMap =? zlen TypeBitMap') then Ok false else
      d ← each_same (fun x y => Ok (x =? y)) TypeBitMap TypeBitMap'; if negb d then Ok false else
      Ok true
  | _, _ => Panic
  end.

Definition OPENPGPKEY_isDuplicate (r1 : list fval) (_r2 : RR) : res error bool :=
  if negb (bool_decide (struct _r2 = RR_OPENPGPKEY)) then Ok false else
  match r1, data _r2 with
  | [V_str PublicKey], [V_str PublicKey'] =>
      if negb (bool_decide (PublicKey = PublicKey')) then Ok false else
      Ok true
  | _, _ => Panic
  end.

Definition PTR_isDuplicate (r1 : list fval) (_r2 : RR) : res error bool :=
  if negb (bool_decide (struct _r2 = RR_PTR)) then Ok false else
  match r1, data _r2 with
  | [V_str Ptr], [V_str Ptr'] =>
      d ← isDuplicateName Ptr Ptr'; if negb d then Ok false else
      Ok true
  | _, _ => Panic
  end.

Definition PX_isDuplicate (r1 : list fval) (_r2 : RR) : res error bool :=
  if negb (bool_decide (struct _r2 = RR_PX)) then Ok false else
  match r1, data _r2 with
  | [V_int Preference; V_str Map822; V_str Mapx400], [V_int Preference'; V_str Map822'; V_str Mapx400'] =>
      if negb (Preference =? Preference') then Ok false else
      d ← isDuplicateName Map822 Map822'; if negb d then Ok false else
      d ← isDuplicateName Mapx400 Mapx400'; if negb d then Ok false else
      Ok true
  | _, _ => Panic
  end.

Definition RESINFO_isDuplicate (r1 : list fval) (_r2 : RR) : res error bool :=
  if negb (bool_decide (struct _r2 = RR_RESINFO)) then Ok false else
  match r1, data _r2 with
  | [V_strs Txt], [V_strs Txt'] =>
      if negb (zlen Txt =? zlen Txt') then Ok false else
      d ← each_same (fun x y => Ok (bool_decide (x = y))) Txt Txt'; if negb d then Ok false else
      Ok true
  | _, _ => Panic
  end.

Definition RFC3597_isDuplicate (r1 : list fval) (_r2 : RR) : res error bool :=
  if negb (bool_decide (struct _r2 = RR_RFC3597)) then Ok false else
  match r1, data _r2 with
  | [V_str Rdata], [V_str Rdata'] =>
      if negb (bool_decide (Rdata = Rdata')) then Ok false else
      Ok true
  | _, _ => Panic
  end.

Definition RKEY_isDuplicate (r1 : list fval) (_r2 : RR) : res error bool :=
  if negb (bool_decide (struct _r2 = RR_RKEY)) then Ok false else
  match r1, data _r2 with
  | [V_int Flags; V_int Protocol; V_int Algorithm; V_str PublicKey], [V_int Flags'; V_int Protocol'; V_int Algorithm'; V_str PublicKey'] =>
      if negb (Flags =? Flags') then Ok false else
      if negb (Protocol =? Protocol') then Ok false else
      if negb (Algorithm =? Algorithm') then Ok false else
      if negb (bool_decide (PublicKey = PublicKey')) then Ok false else
      Ok true
  | _, _ => Panic
  end.

Definition RP_isDuplicate (r1 : list fval) (_r2 : RR) : res error bool :=
  if negb (bool_decide (struct _r2 = RR_RP)) then Ok false else
  match r1, data _r2 with
  | [V_str Mbox; V_str Txt], [V_str Mbox'; V_str Txt'] =>
      d ← isDuplicateName Mbox Mbox'; if negb d then Ok false else
      d ← isDuplicateName Txt Txt'; if negb d then Ok false else
      Ok true
  | _, _ => Panic
  end.

Definition RRSIG_isDuplicate (r1 : list fval) (_r2 : RR) : res error bool :=
  if negb (bool_decide (struct _r2 = RR_RRSIG)) then Ok false else
  match r1, data _r2 with
  | [V_int TypeCovered; V_int Algorithm; V_int Labels; V_int OrigTtl; V_int Expiration; V_int Inception; V_int KeyTag; V_str SignerName; V_str Signature], [V_int TypeCovered'; V_int Algorithm'; V_int Labels'; V_int OrigTtl'; V_int Expiration'; V_int Inception'; V_int KeyTag'; V_str SignerName'; V_str Signature'] =>
      if negb (TypeCovered =? TypeCovered') then Ok false else
      if negb (Algorithm =? Algorithm') then Ok false else
      if negb (Labels =? Labels') then Ok false else
      if negb (OrigTtl =? OrigTtl') then Ok false else
      if negb (Expiration =? Expiration') then Ok false else
      if negb (Inception =? Inception') then Ok false else
      if negb (KeyTag =? KeyTag') then Ok false else
      d ← isDuplicateName SignerName SignerName'; if negb d then Ok false else
      if negb (bool_decide (Signature = Signature')) then Ok false else
      Ok true
  | _, _ => Panic
  end.

Definition RT_isDuplicate (r1 : list fval) (_r2 : RR) : res error bool :=
  if negb (bool_decide (struct _r2 = RR_RT)) then Ok false else
  match r1, data _r2 with
  | [V_int Preference; V_str Host], [V_int Preference'; V_str Host'] =>
      if negb (Preference =? Preference') then Ok false else
      d ← isDuplicateName Host Host'; if negb d then Ok false else
      Ok true
  | _, _ => Panic
  end.

Definition SIG_isDuplicate (r1 : list fval) (_r2 : RR) : res error bool :=
  if negb (bool_decide (struct _r2 = RR_SIG)) then Ok false else
  match r1, data _r2 with
  | [V_int TypeCovered; V_int Algorithm; V_int Labels; V_int OrigTtl; V_int Expiration; V_int Inception; V_int KeyTag; V_str SignerName; V_str Signature], [V_int TypeCovered'; V_int Algorithm'; V_int Labels'; V_int OrigTtl'; V_int Expiration'; V_int Inception'; V_int KeyTag'; V_str SignerName'; V_str Signature'] =>
      if negb (TypeCovered =? TypeCovered') then Ok false else
      if negb (Algorithm =? Algorithm') then Ok false else
      if negb (Labels =? Labels') then Ok false else
      if negb (OrigTtl =? OrigTtl') then Ok false else
      if negb (Expiration =? Expiration') then Ok false else
      if negb (Inception =? Inception') then Ok false else
      if negb (KeyTag =? KeyTag') then Ok false else
      d ← isDuplicateName SignerName SignerName'; if negb d then Ok false else
      if negb (bool_decide (Signature = Signature')) then Ok false else
      Ok true
  | _, _ => Panic
  end.

Definition SMIMEA_isDuplicate (r1 : list fval) (_r2 : RR) : res error bool :=
  if negb (bool_decide (struct _r2 = RR_SMIMEA)) then Ok false else
  match r1, data _r2 with
  | [V_int Usage; V_int Selector; V_int MatchingType; V_str Certificate], [V_int Usage'; V_int Selector'; V_int MatchingType'; V_str Certificate'] =>
      if negb (Usage =? Usage') then Ok false else
      if negb (Selector =? Selector') then Ok false else
      if negb (MatchingType =? MatchingType') then Ok false else
      if negb (bool_decide (Certificate = Certificate')) then Ok false else
      Ok true
  | _, _ => Panic
  end.

Definition SOA_isDuplicate (r1 : list fval) (_r2 : RR) : res error bool :=
  if negb (bool_decide (struct _r2 = RR_SOA)) then Ok false else
  match r1, data _r2 with
  | [V_str Ns; V_str Mbox; V_int Serial; V_int Refresh; V_int Retry; V_int Expire; V_int Minttl], [V_str Ns'; V_str Mbox'; V_int Serial'; V_int Refresh'; V_int Retry'; V_int Expire'; V_int Minttl'] =>
      d ← isDuplicateName Ns Ns'; if negb d then Ok false else
      d ← isDuplicateName Mbox Mbox'; if negb d then Ok false else
      if negb (Serial =? Serial') then Ok false else
      if negb (Refresh =? Refresh') then Ok false else
      if negb (Retry =? Retry') then Ok false else
      if negb (Expire =? Expire') then Ok false else
      if negb (Minttl =? Minttl') then Ok false else
      Ok true
  | _, _ => Panic
  end.

Definition SPF_isDuplicate (r1 : list fval) (_r2 : RR) : res error bool :=
  if negb (bool_decide (struct _r2 = RR_SPF)) then Ok false else
  match r1, data _r2 with
  | [V_strs Txt], [V_strs Txt'] =>
      if negb (zlen Txt =? zlen Txt') then Ok false else
      d ← each_same (fun x y => Ok (bool_decide (x = y))) Txt Txt'; if negb d then Ok false else
      Ok true
  | _, _ => Panic
  end.

Definition SRV_isDuplicate (r1 : list fval) (_r2 : RR) : res error bool :=
  if negb (bool_decide (struct _r2 = RR_SRV)) then Ok false else
  match r1, data _r2 with
  | [V_int Priority; V_int Weight; V_int Port; V_str Target], [V_int Priority'; V_int Weight'; V_int Port'; V_str Target'] =>
      if negb (Priority =? Priority') then Ok false else
      if negb (Weight =? Weight') then Ok false else
      if negb (Port =? Port') then Ok false else
      d ← isDuplicateName Target Target'; if negb d then Ok false else
      Ok true
  | _, _ => Panic
  end.

Definition SSHFP_isDuplicate (r1 : list fval) (_r2 : RR) : res error bool :=
  if negb (bool_decide (struct _r2 = RR_SSHFP)) then Ok false else
  match r1, data _r2 with
  | [V_int Algorithm; V_int Type_; V_str FingerPrint], [V_int Algorithm'; V_int Type_'; V_str FingerPrint'] =>
      if negb (Algorithm =? Algorithm') then Ok false else
      if negb (Type_ =? Type_') then Ok false else
      if negb (bool_decide (FingerPrint = FingerPrint')) then Ok false else
      Ok true
  | _, _ => Panic
  end.

Definition SVCB_isDuplicate (r1 : list fval) (_r2 : RR) : res error bool :=
  if negb (bool_decide (struct _r2 = RR_SVCB)) then Ok false else
  match r1, data _r2 with
  | [V_int Priority; V_str Target; V_pairs Value], [V_int Priority'; V_str Target'; V_pairs Value'] =>
      if negb (Priority =? Priority') then Ok false else
      d ← isDuplicateName Target Target'; if negb d then Ok false else
      if negb (zlen Value =? zlen Value') then Ok false else
      d ← areSVCBPairArraysEqual Value Value'; if negb d then Ok false else
      Ok true
  | _, _ => Panic
  end.

Definition TA_isDuplicate (r1 : list fval) (_r2 : RR) : res error bool :=
  if negb (bool_decide (struct _r2 = RR_TA)) then Ok false else
  match r1, data _r2 with
  | [V_int KeyTag; V_int Algorithm; V_int DigestType; V_str Digest], [V_int KeyTag'; V_int Algorithm'; V_int DigestType'; V_str Digest'] =>
      if negb (KeyTag =? KeyTag') then Ok false else
      if negb (Algorithm =? Algorithm') then Ok false else
      if negb (DigestType =? DigestType') then Ok false else
      if negb (bool_decide (Digest = Digest')) then Ok false else
      Ok true
  | _, _ => Panic
  end.

Definition TALINK_isDuplicate (r1 : list fval) (_r2 : RR) : res error bool :=
  if negb (bool_decide (struct _r2 = RR_TALINK)) then Ok false else
  match r1, data _r2 with
  | [V_str PreviousName; V_str NextName], [V_str PreviousName'; V_str NextName'] =>
      d ← isDuplicateName PreviousName PreviousName'; if negb d then Ok false else
      d ← isDuplicateName NextName NextName'; if negb d then Ok false else
      Ok true
  | _, _ => Panic
  end.

Definition TKEY_isDuplicate (r1 : list fval) (_r2 : RR) : res error bool :=
  if negb (bool_decide (struct _r2 = RR_TKEY)) then Ok false else
  match r1, data _r2 with
  | [V_str Algorithm; V_int Inception; V_int Expiration; V_int Mode; V_int Error_; V_int KeySize; V_str Key_; V_int OtherLen; V_str OtherData], [V_str Algorithm'; V_int Inception'; V_int Expiration'; V_int Mode'; V_int Error_'; V_int KeySize'; V_str Key_'; V_int OtherLen'; V_str OtherData'] =>
      d ← isDuplicateName Algorithm Algorithm'; if negb d then Ok false else
      if negb (Inception =? Inception') then Ok false else
      if negb (Expiration =? Expiration') then Ok false else
      if negb (Mode =? Mode') then Ok false else
      if negb (Error_ =? Error_') then Ok false else
      if negb (KeySize =? KeySize') then Ok false else
      if negb (bool_decide (Key_ = Key_')) then Ok false else
      if negb (OtherLen =? OtherLen') then Ok false else
      if negb (bool_decide (OtherData = OtherData')) then Ok false else
      Ok true
  | _, _ => Panic
  end.

Definition TLSA_isDuplicate (r1 : list fval) (_r2 : RR) : res error bool :=
  if negb (bool_decide (struct _r2 = RR_TLSA)) then Ok false else
  match r1, data _r2 with
  | [V_int Usage; V_int Selector; V_int MatchingType; V_str Certificate], [V_int Usage'; V_int Selector'; V_int MatchingType'; V_str Certificate'] =>
      if negb (Usage =? Usage') then Ok false else
      if negb (Selector =? Selector') then Ok false else
      if negb (MatchingType =? MatchingType') then Ok false else
      if negb (bool_decide (Certificate = Certificate')) then Ok false else
      Ok true
  | _, _ => Panic
  end.

Definition TSIG_isDuplicate (r1 : list fval) (_r2 : RR) : res error bool :=
  if negb (bool_decide (struct _r2 = RR_TSIG)) then Ok false else
  match r1, data _r2 with
  | [V_str Algorithm; V_int TimeSigned; V_int Fudge; V_int MACSize; V_str MAC; V_int OrigId; V_int Error_; V_int OtherLen; V_str OtherData], [V_str Algorithm'; V_int TimeSigned'; V_int Fudge'; V_int MACSize'; V_str MAC'; V_int OrigId'; V_int Error_'; V_int OtherLen'; V_str OtherData'] =>
      d ← isDuplicateName Algorithm Algorithm'; if negb d then Ok false else
      if negb (TimeSigned =? TimeSigned') then Ok false else
      if negb (Fudge =? Fudge') then Ok false else
      if negb (MACSize =? MACSize') then Ok false else
      if negb (bool_decide (MAC = MAC')) then Ok false else
      if negb (OrigId =? OrigId') then Ok false else
      if negb (Error_ =? Error_') then Ok false else
      if negb (OtherLen =? OtherLen') then Ok false else
      if negb (bool_decide (OtherData = OtherData')) then Ok false else
      Ok true
  | _, _ => Panic
  end.

Definition TXT_isDuplicate (r1 : list fval) (_r2 : RR) : res error bool :=
  if negb (bool_decide (struct _r2 = RR_TXT)) then Ok false else
  match r1, data _r2 with
  | [V_strs Txt], [V_strs Txt'] =>
      if negb (zlen Txt =? zlen Txt') then Ok false else
      d ← each_same (fun x y => Ok (bool_decide (x = y))) Txt Txt'; if negb d then Ok false else
      Ok true
  | _, _ => Panic
  end.

Definition UID_isDuplicate (r1 : list fval) (_r2 : RR) : res error bool :=
  if negb (bool_decide (struct _r2 = RR_UID)) then Ok false else
  match r1, data _r2 with
  | [V_int Uid], [V_int Uid'] =>
      if negb (Uid =? Uid') then Ok false else
      Ok true
  | _, _ => Panic
  end.

Definition UINFO_isDuplicate (r1 : list fval) (_r2 : RR) : res error bool :=
  if negb (bool_decide (struct _r2 = RR_UINFO)) then Ok false else
  match r1, data _r2 with
  | [V_str Uinfo], [V_str Uinfo'] =>
      if negb (bool_decide (Uinfo = Uinfo')) then Ok false else
      Ok true
  | _, _ => Panic
  end.

Definition URI_isDuplicate (r1 : list fval) (_r2 : RR) : res error bool :=
  if negb (bool_decide (struct _r2 = RR_URI)) then Ok false else
  match r1, data _r2 with
  | [V_int Priority; V_int Weight; V_str Target], [V_int Priority'; V_int Weight'; V_str Target'] =>
      if negb (Priority =? Priority') then Ok false else
      if negb (Weight =? Weight') then Ok false else
      if negb (bool_decide (Target = Target')) then Ok false else
      Ok true
  | _, _ => Panic
  end.

Definition X25_isDuplicate (r1 : list fval) (_r2 : RR) : res error bool :=
  if negb (bool_decide (struct _r2 = RR_X25)) then Ok false else
  match r1, data _r2 with
  | [V_str PSDNAddress], [V_str PSDNAddress'] =>
      if negb (bool_decide (PSDNAddress = PSDNAddress')) then Ok false else
      Ok true
  | _, _ => Panic
  end.

Definition ZONEMD_isDuplicate (r1 : list fval) (_r2 : RR) : res error bool :=
  if negb (bool_decide (struct _r2 = RR_ZONEMD)) then Ok false else
  match r1, data _r2 with
  | [V_int Serial; V_int Scheme; V_int Hash; V_str Digest], [V_int Serial'; V_int Scheme'; V_int Hash'; V_str Digest'] =>
      if negb (Serial =? Serial') then Ok false else
      if negb (Scheme =? Scheme') then Ok false else
      if negb (Hash =? Hash') then Ok false else
      if negb (bool_decide (Digest = Digest')) then Ok false else
      Ok true
  | _, _ => Panic
  end.

(** [(rr *OPT) isDuplicate] of edns.go. *)
Definition OPT_isDuplicate (r1 : list fval) (_r2 : RR) : res error bool := Ok false.

(** [r1.isDuplicate(r2)]: the method of the struct of [r1]. *)
Definition isDuplicate (r1 _r2 : RR) : res error bool :=
  match struct r1 with
  | RR_A => A_isDuplicate (data r1) _r2
  | RR_NS => NS_isDuplicate (data r1) _r2
  | RR_MD => MD_isDuplicate (data r1) _r2
  | RR_MF => MF_isDuplicate (data r1) _r2
  | RR_CNAME => CNAME_isDuplicate (data r1) _r2
  | RR_SOA => SOA_isDuplicate (data r1) _r2
  | RR_MB => MB_isDuplicate (data r1) _r2
  | RR_MG => MG_isDuplicate (data r1) _r2
  | RR_MR => MR_isDuplicate (data r1) _r2
  | RR_NULL => NULL_isDuplicate (data r1) _r2
  | RR_PTR => PTR_isDuplicate (data r1) _r2
  | RR_HINFO => HINFO_isDuplicate (data r1) _r2
  | RR_MINFO => MINFO_isDuplicate (data r1) _r2
  | RR_MX => MX_isDuplicate (data r1) _r2
  | RR_TXT => TXT_isDuplicate (data r1) _r2
  | RR_RP => RP_isDuplicate (data r1) _r2
  | RR_AFSDB => AFSDB_isDuplicate (data r1) _r2
  | RR_X25 => X25_isDuplicate (data r1) _r2
  | RR_ISDN => ISDN_isDuplicate (data r1) _r2
  | RR_RT => RT_isDuplicate (data r1) _r2
  | RR_NSAPPTR => NSAPPTR_isDuplicate (data r1) _r2
  | RR_SIG => SIG_isDuplicate (data r1) _r2
  | RR_KEY => KEY_isDuplicate (data r1) _r2
  | RR_PX => PX_isDuplicate (data r1) _r2
  | RR_GPOS => GPOS_isDuplicate (data r1) _r2
  | RR_AAAA => AAAA_isDuplicate (data r1) _r2
  | RR_LOC => LOC_isDuplicate (data r1) _r2
  | RR_NXT => NXT_isDuplicate (data r1) _r2
  | RR_EID => EID_isDuplicate (data r1) _r2
  | RR_NIMLOC => NIMLOC_isDuplicate (data r1) _r2
  | RR_SRV => SRV_isDuplicate (data r1) _r2
  | RR_NAPTR => NAPTR_isDuplicate (data r1) _r2
  | RR_KX => KX_isDuplicate (data r1) _r2
  | RR_CERT => CERT_isDuplicate (data r1) _r2
  | RR_DNAME => DNAME_isDuplicate (data r1) _r2
  | RR_OPT => OPT_isDuplicate (data r1) _r2
  | RR_APL => APL_isDuplicate (data r1) _r2
  | RR_DS => DS_isDuplicate (data r1) _r2
  | RR_SSHFP => SSHFP_isDuplicate (data r1) _r2
  | RR_IPSECKEY => IPSECKEY_isDuplicate (data r1) _r2
  | RR_RRSIG => RRSIG_isDuplicate (data r1) _r2
  | RR_NSEC => NSEC_isDuplicate (data r1) _r2
  | RR_DNSKEY => DNSKEY_isDuplicate (data r1) _r2
  | RR_DHCID => DHCID_isDuplicate (data r1) _r2
  | RR_NSEC3 => NSEC3_isDuplicate (data r1) _r2
  | RR_NSEC3PARAM => NSEC3PARAM_isDuplicate (data r1) _r2
  | RR_TLSA => TLSA_isDuplicate (data r1) _r2
  | RR_SMIMEA => SMIMEA_isDuplicate (data r1) _r2
  | RR_HIP => HIP_isDuplicate (data r1) _r2
  | RR_NINFO => NINFO_isDuplicate (data r1) _r2
  | RR_RKEY => RKEY_isDuplicate (data r1) _r2
  | RR_TALINK => TALINK_isDuplicate (data r1) _r2
  | RR_CDS => CDS_isDuplicate (data r1) _r2
  | RR_CDNSKEY => CDNSKEY_isDuplicate (data r1) _r2
  | RR_OPENPGPKEY => OPENPGPKEY_isDuplicate (data r1) _r2
  | RR_CSYNC => CSYNC_isDuplicate (data r1) _r2
  | RR_ZONEMD => ZONEMD_isDuplicate (data r1) _r2
  | RR_SVCB => SVCB_isDuplicate (data r1) _r2
  | RR_HTTPS => HTTPS_isDuplicate (data r1) _r2
  | RR_SPF => SPF_isDuplicate (data r1) _r2
  | RR_UINFO => UINFO_isDuplicate (data r1) _r2
  | RR_UID => UID_isDuplicate (data r1) _r2
  | RR_GID => GID_isDuplicate (data r1) _r2
  | RR_NID => NID_isDuplicate (data r1) _r2
  | RR_L32 => L32_isDuplicate (data r1) _r2
  | RR_L64 => L64_isDuplicate (data r1) _r2
  | RR_LP => LP_isDuplicate (data r1) _r2
  | RR_EUI48 => EUI48_isDuplicate (data r1) _r2
  | RR_EUI64 => EUI64_isDuplicate (data r1) _r2
  | RR_NXNAME => NXNAME_isDuplicate (data r1) _r2
  | RR_TKEY => TKEY_isDuplicate (data r1) _r2
  | RR_TSIG => TSIG_isDuplicate (data r1) _r2
  | RR_ANY => ANY_isDuplicate (data r1) _r2
  | RR_URI => URI_isDuplicate (data r1) _r2
  | RR_CAA => CAA_isDuplicate (data r1) _r2
  | RR_AVC => AVC_isDuplicate (data r1) _r2
  | RR_AMTRELAY => AMTRELAY_isDuplicate (data r1) _r2
  | RR_RESINFO => RESINFO_isDuplicate (data r1) _r2
  | RR_TA => TA_isDuplicate (data r1) _r2
  | RR_DLV => DLV_isDuplicate (data r1) _r2
  | RR_RFC3597 => RFC3597_isDuplicate (data r1) _r2
  end.

Definition IsDuplicate (r1 r2 : RR) : res error bool :=
  d ← header_isDuplicate (Hdr r1) (Hdr r2);
  if negb d then Ok false else isDuplicate r1 r2.

(** ** The interpreter of the tags *)

Definition field_dup (rr : members) (t : ftag) (v1 v2 : fval) : res error bool :=
  match t, v1, v2 with
  | (F_uint8 | F_uint16 | F_uint32 | F_uint64 | F_uint48), V_int i, V_int j => Ok (i =? j)
  | (F_string | F_octet | F_any | F_hex | F_base64 | F_size_hex _ | F_size_base64 _ | F_size_base32 _ | F_salt _), V_str s1, V_str s2 =>
      Ok (bool_decide (s1 = s2))
  | (F_cname | F_name), V_str s1, V_str s2 => isDuplicateName s1 s2
  | (F_a | F_aaaa), V_str a1, V_str a2 => Ok (IP_Equal a1 a2)
  | F_names, V_strs l1, V_strs l2 => if negb (zlen l1 =? zlen l2) then Ok false else each_same isDuplicateName l1 l2
  | F_txts, V_strs l1, V_strs l2 => if negb (zlen l1 =? zlen l2) then Ok false else each_same (fun x y => Ok (bool_decide (x = y))) l1 l2
  | F_nsec, V_types l1, V_types l2 => if negb (zlen l1 =? zlen l2) then Ok false else each_same (fun x y => Ok (x =? y)) l1 l2
  | F_apl, V_apl l1, V_apl l2 => if negb (zlen l1 =? zlen l2) then Ok false else each_same (fun x y => Ok (equals x y)) l1 l2
  | F_pairs, V_pairs l1, V_pairs l2 => if negb (zlen l1 =? zlen l2) then Ok false else areSVCBPairArraysEqual l1 l2
  | F_gateway m, V_gateway a1 h1, V_gateway a2 h2 =>
      let GatewayType := int_member rr m in
      if (GatewayType =? IPSECGatewayIPv4) || (GatewayType =? IPSECGatewayIPv6) then Ok (IP_Equal a1 a2)
      else if GatewayType =? IPSECGatewayHost then isDuplicateName h1 h2 else Ok true
  | _, _, _ => Panic
  end.

Fixpoint fields_dup (rr : members) (fs : schema) (vs1 vs2 : list fval) : res error bool :=
  match fs, vs1, vs2 with
  | [], [], [] => Ok true
  | (_, t) :: fs, v1 :: vs1, v2 :: vs2 =>
      d ← field_dup rr t v1 v2; if negb d then Ok false else fields_dup rr fs vs1 vs2
  | _, _, _ => Panic
  end.

(** The method of a struct, against a record of the same struct. *)
Lemma generated_fields_dup k h1 h2 vs1 vs2 :
  Forall2 (fun f v => has_type f.2 v) (fields k) vs1 -> Forall2 (fun f v => has_type f.2 v) (fields k) vs2 -> k <> RR_OPT ->
  isDuplicate (MkRR h1 k vs1) (MkRR h2 k vs2) = fields_dup (members_of (fields k) vs1) (fields k) vs1 vs2.
Proof.
  intros H1 H2 Hk. unfold isDuplicate. cbn [struct data].
  destruct k; try (by destruct Hk); clear Hk;
    match type of H1 with Forall2 _ ?fs _ => let fs' := eval hnf in fs in change fs with fs' in H1, H2 |- * end; typed_values;
    cbv beta iota delta [A_isDuplicate NS_isDuplicate MD_isDuplicate MF_isDuplicate CNAME_isDuplicate SOA_isDuplicate MB_isDuplicate MG_isDuplicate MR_isDuplicate NULL_isDuplicate PTR_isDuplicate HINFO_isDuplicate MINFO_isDuplicate MX_isDuplicate TXT_isDuplicate RP_isDuplicate AFSDB_isDuplicate X25_isDuplicate ISDN_isDuplicate RT_isDuplicate NSAPPTR_isDuplicate SIG_isDuplicate KEY_isDuplicate PX_isDuplicate GPOS_isDuplicate AAAA_isDuplicate LOC_isDuplicate NXT_isDuplicate EID_isDuplicate NIMLOC_isDuplicate SRV_isDuplicate NAPTR_isDuplicate KX_isDuplicate CERT_isDuplicate DNAME_isDuplicate OPT_isDuplicate APL_isDuplicate DS_isDuplicate SSHFP_isDuplicate IPSECKEY_isDuplicate RRSIG_isDuplicate NSEC_isDuplicate DNSKEY_isDuplicate DHCID_isDuplicate NSEC3_isDuplicate NSEC3PARAM_isDuplicate TLSA_isDuplicate SMIMEA_isDuplicate HIP_isDuplicate NINFO_isDuplicate RKEY_isDuplicate TALINK_isDuplicate CDS_isDuplicate CDNSKEY_isDuplicate OPENPGPKEY_isDuplicate CSYNC_isDuplicate ZONEMD_isDuplicate SVCB_isDuplicate HTTPS_isDuplicate SPF_isDuplicate UINFO_isDuplicate UID_isDuplicate GID_isDuplicate NID_isDuplicate L32_isDuplicate L64_isDuplicate LP_isDuplicate EUI48_isDuplicate EUI64_isDuplicate NXNAME_isDuplicate TKEY_isDuplicate TSIG_isDuplicate ANY_isDuplicate URI_isDuplicate CAA_isDuplicate AVC_isDuplicate AMTRELAY_isDuplicate RESINFO_isDuplicate TA_isDuplicate DLV_isDuplicate RFC3597_isDuplicate struct data fields_dup field_dup]; rewrite bool_decide_true by done; cbv beta iota delta [negb];
    repeat (first
      [ reflexivity
      | progress cbn [mbind res_bind]
      | match goal with |- context [zlen ?a =? zlen ?b] => destruct (zlen a =? zlen b) end
      | apply bind_same; intros [|]
      | match goal with |- (if ?b then _ else _) = _ => destruct b end ]).
Qed.

(** ** The canonical form *)

Definition canonical_ip (ip : bytes) : bytes := if bool_decide (To4 ip = []) then ip else To4 ip.

(** What a field is compared by. *)
Inductive dup_value :=
| D_value (v : fval)
| D_pairs (l : list (Z * option bytes)).
#[export] Instance dup_value_eq_dec : EqDecision dup_value.
Proof. solve_decision. Defined.

Definition packed_pair (e : SVCBKeyValue) : Z * option bytes :=
  (Key e, match svcb_pack e with Ok b => Some b | _ => None end).

Definition canonical_value (rr : members) (t : ftag) (v : fval) : dup_value :=
  match t, v with
  | (F_cname | F_name), V_str s => D_value (V_str (map lower s))
  | F_names, V_strs l => D_value (V_strs (map (map lower) l))
  | (F_a | F_aaaa), V_str a => D_value (V_str (canonical_ip a))
  | F_apl, V_apl l => D_value (V_apl (map (fun p => {| Negation := Negation p; Network_IP := canonical_ip (Network_IP p); Network_Mask := Network_Mask p |}) l))
  | F_pairs, V_pairs l => D_pairs (map packed_pair (sort_Slice Key l))
  | F_gateway m, V_gateway a h =>
      let GatewayType := int_member rr m in
      D_value (if (GatewayType =? IPSECGatewayIPv4) || (GatewayType =? IPSECGatewayIPv6) then V_gateway (canonical_ip a) []
               else if GatewayType =? IPSECGatewayHost then V_gateway [] (map lower h) else V_gateway [] [])
  | _, v => D_value v
  end.

Definition canonical_fields (rr : members) (fs : schema) (vs : list fval) : list dup_value :=
  zip_with (fun f v => canonical_value rr f.2 v) fs vs.

(** The header less the TTL and the data length, and the data. *)
Definition dup_key (rr : RR) : (Z * Z * bytes) * rrstruct * list dup_value :=
  ((Class_ (Hdr rr), Rrtype (Hdr rr), map lower (Name (Hdr rr))), struct rr,
   canonical_fields (members_of (fields (struct rr)) (data rr)) (fields (struct rr)) (data rr)).

(** Pairs that have distinct keys and can be packed: the others are never
    duplicates, not even of themselves. *)
Definition pairs_ok (v : fval) : Prop :=
  match v with V_pairs l => NoDup (map Key l) /\ Forall (fun e => exists b, svcb_pack e = Ok b) l | _ => True end.

(** A record with values of its fields' types that is not an OPT record. *)
Definition dup_ok (rr : RR) : Prop :=
  struct rr <> RR_OPT /\ Forall2 (fun f v => has_type f.2 v) (fields (struct rr)) (data rr) /\ Forall pairs_ok (data rr).

(** ** Comparing one field *)

Definition mapped (ip : bytes) : Prop := zlen ip = 16 /\ ztake 12 ip = v4InV6Prefix.

Lemma mapped_split ip : mapped ip -> ip = v4InV6Prefix ++ zdrop 12 ip /\ zlen (zdrop 12 ip) = 4.
Proof.
  intros [Hl Hp]. split; [rewrite <- Hp; unfold ztake, zdrop; by rewrite firstn_skipn|]. rewrite zlen_zdrop by lia. lia.
Qed.

Lemma canonical_ip_cases ip : (mapped ip /\ canonical_ip ip = zdrop 12 ip) \/ (~ mapped ip /\ canonical_ip ip = ip).
Proof.
  unfold canonical_ip, To4. destruct (Z.eqb_spec (zlen ip) 4) as [H4|H4].
  { right. split; [intros [? _]; lia|]. by case_bool_decide. }
  destruct (Z.eqb_spec (zlen ip) 16) as [H16|H16]; cbn [andb].
  - destruct (decide (ztake 12 ip = v4InV6Prefix)) as [Hp|Hp]; [rewrite (bool_decide_true _ Hp)|rewrite (bool_decide_false _ Hp)].
    + left. assert (mapped ip) as Hm by (split; done). split; [done|]. apply mapped_split in Hm as [_ Hm].
      rewrite bool_decide_false; [done|]. intros E. by rewrite E in Hm.
    + right. split; [by intros [_ ?]|]. by rewrite bool_decide_true.
  - right. split; [by intros [? _]|]. by rewrite bool_decide_true.
Qed.

Lemma IP_Equal_spec a b : IP_Equal a b = bool_decide (canonical_ip a = canonical_ip b).
Proof.
  unfold IP_Equal. pose proof (mapped_split a) as Ma. pose proof (mapped_split b) as Mb.
  destruct (canonical_ip_cases a) as [[Ha ->]|[Ha ->]], (canonical_ip_cases b) as [[Hb ->]|[Hb ->]].
  - destruct (Ma Ha) as [Ea _], (Mb Hb) as [Eb _], Ha as [-> _], Hb as [-> _]. cbn [Z.eqb Pos.eqb].
    apply bool_decide_ext. split; [by intros ->|]. intros E. by rewrite Ea, Eb, E.
  - destruct (Ma Ha) as [Ea La], Ha as [-> Hp]. destruct (Z.eqb_spec 16 (zlen b)) as [Hl|Hl].
    + rewrite !bool_decide_false; [done| |]; intros E; [by rewrite <- E in Hl; lia|]. subst b. by apply Hb.
    + cbn [Z.eqb Pos.eqb andb]. destruct (Z.eqb_spec (zlen b) 4) as [H4|H4]; [by rewrite bool_decide_true|].
      rewrite bool_decide_false; [done|]. intros E. by rewrite E in La.
  - destruct (Mb Hb) as [Eb Lb], Hb as [-> Hp]. destruct (Z.eqb_spec (zlen a) 16) as [Hl|Hl].
    + rewrite !bool_decide_false; [done| |]; intros E; [by rewrite E in Hl; lia|]. subst a. by apply Ha.
    + rewrite andb_true_r, andb_false_r. destruct (Z.eqb_spec (zlen a) 4) as [H4|H4]; [by rewrite bool_decide_true|].
      rewrite bool_decide_false; [done|]. intros E. by rewrite <- E in Lb.
  - destruct (Z.eqb_spec (zlen a) (zlen b)) as [Hl|Hl]; [done|]. symmetry. rewrite bool_decide_false by congruence.
    destruct (Z.eqb_spec (zlen a) 4), (Z.eqb_spec (zlen b) 16); cbn [andb].
    1: { rewrite bool_decide_false; [done|]. intros E. by apply Hb. }
    all: destruct (Z.eqb_spec (zlen a) 16), (Z.eqb_spec (zlen b) 4); cbn [andb]; try done.
    all: rewrite bool_decide_false; [done|]; intros E; by apply Ha.
Qed.

Lemma each_same_spec {A B} (same : A -> A -> res error bool) (key : A -> B) `{EqDecision B} l1 l2 :
  (forall x y, same x y = Ok (bool_decide (key x = key y))) ->
  (if negb (zlen l1 =? zlen l2) then Ok false else each_same same l1 l2) = Ok (bool_decide (map key l1 = map key l2)).
Proof.
  intros Hs. revert l2. induction l1 as [|x l1 IH]; intros [|y l2]; cbn [each_same map].
  - done.
  - rewrite zlen_nil, zlen_cons. pose proof (zlen_nonneg l2). destruct (Z.eqb_spec 0 (1 + zlen l2)); [lia|]. by rewrite bool_decide_false.
  - rewrite zlen_nil, zlen_cons. pose proof (zlen_nonneg l1). destruct (Z.eqb_spec (1 + zlen l1) 0); [lia|]. by rewrite bool_decide_false.
  - rewrite !zlen_cons. specialize (IH l2).
    replace (1 + zlen l1 =? 1 + zlen l2) with (zlen l1 =? zlen l2) by (apply Bool.eq_iff_eq_true; rewrite !Z.eqb_eq; lia).
    rewrite Hs. destruct (zlen l1 =? zlen l2); cbn [negb mbind res_bind] in *.
    + destruct (decide (key x = key y)) as [E|E]; [|rewrite (bool_decide_false _ E); rewrite bool_decide_false; [done|congruence]].
      rewrite (bool_decide_true _ E). cbn [negb]. rewrite IH. f_equal. apply bool_decide_ext. split; [congruence|by intros [=]].
    + injection IH as IH. symmetry in IH. apply bool_decide_eq_false in IH. rewrite bool_decide_false; [done|by intros [=]].
Qed.

Lemma pairs_equal_spec a b : length a = length b ->
  Forall (fun e => exists w, svcb_pack e = Ok w) a -> Forall (fun e => exists w, svcb_pack e = Ok w) b ->
  pairs_equal a b = Ok (bool_decide (map packed_pair a = map packed_pair b)).
Proof.
  revert b. induction a as [|x a IH]; intros [|y b] Hl Ha Hb; try discriminate Hl; [done|].
  apply Forall_cons in Ha as [[w1 E1] Ha], Hb as [[w2 E2] Hb]. injection Hl as Hl. cbn [pairs_equal map].
  rewrite E1, E2.
  assert (packed_pair x = packed_pair y <-> Key x = Key y /\ w1 = w2) as Hxy.
  { unfold packed_pair. rewrite E1, E2. split; [by intros [=]|by intros [-> ->]]. }
  destruct (Z.eqb_spec (Key x) (Key y)) as [Ek|Ek]; cbn [negb]; [|rewrite bool_decide_false; [done|intros E; assert (packed_pair x = packed_pair y) by congruence; tauto]].
  destruct (decide (w1 = w2)) as [Ew|Ew]; [rewrite (bool_decide_true _ Ew)|rewrite (bool_decide_false _ Ew), bool_decide_false; [done|intros E; assert (packed_pair x = packed_pair y) by congruence; tauto]].
  rewrite (IH b Hl Ha Hb). f_equal. apply bool_decide_ext. split; [intros ->; f_equal; tauto|congruence].
Qed.

Lemma sort_length {A} (key : A -> Z) l : length (sort_Slice key l) = length l.
Proof. apply Permutation_length, sort_perm. Qed.

Lemma pairs_dup_spec l1 l2 : pairs_ok (V_pairs l1) -> pairs_ok (V_pairs l2) ->
  (if negb (zlen l1 =? zlen l2) then Ok false else areSVCBPairArraysEqual l1 l2) =
  Ok (bool_decide (map packed_pair (sort_Slice Key l1) = map packed_pair (sort_Slice Key l2))).
Proof.
  intros [_ H1] [_ H2]. destruct (Z.eqb_spec (zlen l1) (zlen l2)) as [Hl|Hl]; cbn [negb].
  - unfold areSVCBPairArraysEqual. apply pairs_equal_spec; [rewrite !sort_length; unfold zlen in Hl; lia|by rewrite sort_perm..].
  - rewrite bool_decide_false; [done|]. intros E%(f_equal length). rewrite !length_map, !sort_length in E. apply Hl. unfold zlen. by rewrite E.
Qed.

Lemma eqb_bool_decide i j : (i =? j) = bool_decide (i = j).
Proof. destruct (Z.eqb_spec i j); [by rewrite bool_decide_true|by rewrite bool_decide_false]. Qed.

Lemma bool_decide_D (v1 v2 : fval) : bool_decide (D_value v1 = D_value v2) = bool_decide (v1 = v2).
Proof. apply bool_decide_ext. split; congruence. Qed.

Lemma Ok_decide {E} (P Q : Prop) `{Decision P, Decision Q} : (P <-> Q) -> @Ok E _ (bool_decide P) = Ok (bool_decide Q).
Proof. intros. f_equal. by apply bool_decide_ext. Qed.

Lemma equals_spec a b : equals a b = bool_decide
  ({| Negation := Negation a; Network_IP := canonical_ip (Network_IP a); Network_Mask := Network_Mask a |} =
   {| Negation := Negation b; Network_IP := canonical_ip (Network_IP b); Network_Mask := Network_Mask b |}).
Proof.
  unfold equals. rewrite IP_Equal_spec, <- !bool_decide_and. apply bool_decide_ext.
  split; [intros [[-> ->] ->]; done|intros [=]; done].
Qed.

Lemma field_dup_spec rr t v1 v2 : has_type t v1 -> has_type t v2 -> pairs_ok v1 -> pairs_ok v2 -> t <> F_opt ->
  field_dup rr t v1 v2 = Ok (bool_decide (canonical_value rr t v1 = canonical_value rr t v2)).
Proof.
  intros H1 H2 P1 P2 Ht. destruct t; try done; destruct v1; try done; destruct v2; try done; cbn [field_dup canonical_value];
    try rewrite bool_decide_D; unfold isDuplicateName; rewrite ?equal_spec, ?IP_Equal_spec;
    try match goal with |- Ok (_ =? _) = _ => rewrite eqb_bool_decide end;
    try (rewrite pairs_dup_spec by done); try (by apply Ok_decide; split; congruence).
  - rewrite (each_same_spec _ (map lower)) by (intros x y; apply equal_spec). apply Ok_decide; split; congruence.
  - erewrite (each_same_spec _ (fun x => x)); [|by intros x y]. rewrite !map_id. apply Ok_decide; split; congruence.
  - erewrite (each_same_spec _ (fun x => x)); [|by intros x y; rewrite eqb_bool_decide]. rewrite !map_id. apply Ok_decide; split; congruence.
  - rewrite (each_same_spec _ (fun p => {| Negation := Negation p; Network_IP := canonical_ip (Network_IP p); Network_Mask := Network_Mask p |}))
      by (intros x y; by rewrite equals_spec). apply Ok_decide; split; congruence.
  - destruct (_ || _); [|destruct (_ =? IPSECGatewayHost)];
      rewrite ?equal_spec, ?IP_Equal_spec; try (apply Ok_decide; split; congruence). by rewrite bool_decide_true.
Qed.

(** ** Comparing the data *)

Lemma fields_dup_spec rr fs vs1 vs2 :
  Forall2 (fun f v => has_type f.2 v) fs vs1 -> Forall2 (fun f v => has_type f.2 v) fs vs2 ->
  Forall pairs_ok vs1 -> Forall pairs_ok vs2 -> Forall (fun f => f.2 <> F_opt) fs ->
  fields_dup rr fs vs1 vs2 = Ok (bool_decide (canonical_fields rr fs vs1 = canonical_fields rr fs vs2)).
Proof.
  intros H1. revert vs2. induction H1 as [|[name t] v1 fs vs1 Ht1 H1 IH]; intros vs2 H2 P1 P2 Ho.
  - by apply Forall2_nil_inv_l in H2 as ->.
  - apply Forall2_cons_inv_l in H2 as (v2 & vs2' & Ht2 & H2 & ->).
    apply Forall_cons in P1 as [Pv1 P1], P2 as [Pv2 P2], Ho as [Ht Ho]. cbn [fields_dup].
    rewrite field_dup_spec by done. cbn [mbind res_bind canonical_fields zip_with snd].
    destruct (decide (canonical_value rr t v1 = canonical_value rr t v2)) as [E|E].
    + rewrite (bool_decide_true _ E), E. cbn [negb]. rewrite IH by done. apply Ok_decide. unfold canonical_fields. split; congruence.
    + rewrite (bool_decide_false _ E), bool_decide_false; [done|congruence].
Qed.

Lemma canonical_fields_ext rr1 rr2 fs vs : (forall m, int_member rr1 m = int_member rr2 m) ->
  canonical_fields rr1 fs vs = canonical_fields rr2 fs vs.
Proof.
  intros H. revert vs. induction fs as [|[name t] fs IH]; intros [|v vs]; cbn; [done..|]. f_equal; [|apply IH].
  destruct t; try done. destruct v; try done. cbn. by rewrite H.
Qed.

(** Integers are compared as they are. *)
Lemma canonical_int rr1 rr2 t v1 v2 : has_type t v1 -> has_type t v2 ->
  canonical_value rr1 t v1 = canonical_value rr2 t v2 -> forall i, v1 = V_int i <-> v2 = V_int i.
Proof. destruct t; try done; destruct v1; try done; destruct v2; try done; cbn; intros _ _ [=] ?; subst; done. Qed.

Lemma canonical_members rr1 rr2 fs vs1 vs2 m :
  Forall2 (fun f v => has_type f.2 v) fs vs1 -> Forall2 (fun f v => has_type f.2 v) fs vs2 ->
  canonical_fields rr1 fs vs1 = canonical_fields rr2 fs vs2 ->
  int_member (members_of fs vs1) m = int_member (members_of fs vs2) m.
Proof.
  intros H1. revert vs2. induction H1 as [|[name t] v1 fs vs1 Ht1 H1 IH]; intros vs2 H2 E.
  - by apply Forall2_nil_inv_l in H2 as ->.
  - apply Forall2_cons_inv_l in H2 as (v2 & vs2' & Ht2 & H2 & ->).
    unfold canonical_fields in E. cbn [zip_with snd] in E.
    apply (f_equal (fun l => (head l, tail l))) in E. cbn [head tail] in E. injection E as Ev E.
    specialize (IH _ H2 E). pose proof (canonical_int _ _ _ _ _ Ht1 Ht2 Ev) as Hi.
    unfold int_member, members_of in *. cbn [zip_with fst snd member]. destruct (decide (name = m)); [|done].
    destruct v1; try (by rewrite (proj1 (Hi _) eq_refl)); destruct v2; try done; by destruct (Hi i) as [_ Hi']; discriminate Hi'.
Qed.

Lemma no_opt k : k <> RR_OPT -> Forall (fun f => f.2 <> F_opt) (fields k).
Proof. destruct k; intros H; try (by destruct H); repeat constructor; discriminate. Qed.

Lemma isDuplicate_spec r1 r2 : dup_ok r1 -> dup_ok r2 ->
  isDuplicate r1 r2 = Ok (bool_decide (struct r1 = struct r2 /\ (dup_key r1).2 = (dup_key r2).2)).
Proof.
  intros (O1 & T1 & P1) (O2 & T2 & P2). destruct r1 as [h1 k1 vs1], r2 as [h2 k2 vs2]. cbn [struct data dup_key snd] in *.
  destruct (decide (k1 = k2)) as [<-|Hk].
  - rewrite generated_fields_dup by done. rewrite fields_dup_spec by (done || by apply no_opt). apply Ok_decide. split.
    + intros E. split; [done|]. rewrite E. apply canonical_fields_ext. intros m. by eapply canonical_members.
    + intros [_ E]. rewrite E. apply canonical_fields_ext. intros m. symmetry. by eapply canonical_members.
  - rewrite bool_decide_false by tauto. unfold isDuplicate. cbn [struct data].
    destruct k1; try (by destruct O1); cbv beta delta [A_isDuplicate NS_isDuplicate MD_isDuplicate MF_isDuplicate CNAME_isDuplicate SOA_isDuplicate MB_isDuplicate MG_isDuplicate MR_isDuplicate NULL_isDuplicate PTR_isDuplicate HINFO_isDuplicate MINFO_isDuplicate MX_isDuplicate TXT_isDuplicate RP_isDuplicate AFSDB_isDuplicate X25_isDuplicate ISDN_isDuplicate RT_isDuplicate NSAPPTR_isDuplicate SIG_isDuplicate KEY_isDuplicate PX_isDuplicate GPOS_isDuplicate AAAA_isDuplicate LOC_isDuplicate NXT_isDuplicate EID_isDuplicate NIMLOC_isDuplicate SRV_isDuplicate NAPTR_isDuplicate KX_isDuplicate CERT_isDuplicate DNAME_isDuplicate OPT_isDuplicate APL_isDuplicate DS_isDuplicate SSHFP_isDuplicate IPSECKEY_isDuplicate RRSIG_isDuplicate NSEC_isDuplicate DNSKEY_isDuplicate DHCID_isDuplicate NSEC3_isDuplicate NSEC3PARAM_isDuplicate TLSA_isDuplicate SMIMEA_isDuplicate HIP_isDuplicate NINFO_isDuplicate RKEY_isDuplicate TALINK_isDuplicate CDS_isDuplicate CDNSKEY_isDuplicate OPENPGPKEY_isDuplicate CSYNC_isDuplicate ZONEMD_isDuplicate SVCB_isDuplicate HTTPS_isDuplicate SPF_isDuplicate UINFO_isDuplicate UID_isDuplicate GID_isDuplicate NID_isDuplicate L32_isDuplicate L64_isDuplicate LP_isDuplicate EUI48_isDuplicate EUI64_isDuplicate NXNAME_isDuplicate TKEY_isDuplicate TSIG_isDuplicate ANY_isDuplicate URI_isDuplicate CAA_isDuplicate AVC_isDuplicate AMTRELAY_isDuplicate RESINFO_isDuplicate TA_isDuplicate DLV_isDuplicate RFC3597_isDuplicate]; cbn [struct]; by rewrite bool_decide_false by done.
Qed.

Lemma header_spec h1 h2 : header_isDuplicate h1 h2 =
  Ok (bool_decide ((Class_ h1, Rrtype h1, map lower (Name h1)) = (Class_ h2, Rrtype h2, map lower (Name h2)))).
Proof.
  unfold header_isDuplicate, isDuplicateName. rewrite equal_spec. gosimp.
  destruct (Z.eqb_spec (Class_ h1) (Class_ h2)) as [->|]; cbn [negb]; [|rewrite bool_decide_false; [done|congruence]].
  destruct (Z.eqb_spec (Rrtype h1) (Rrtype h2)) as [->|]; cbn [negb]; [|rewrite bool_decide_false; [done|congruence]].
  destruct (decide (map lower (Name h1) = map lower (Name h2))) as [E|E].
  - by rewrite (bool_decide_true _ E), E, bool_decide_true.
  - rewrite (bool_decide_false _ E), bool_decide_false; [done|congruence].
Qed.

Lemma IsDuplicate_spec r1 r2 : dup_ok r1 -> dup_ok r2 -> IsDuplicate r1 r2 = Ok (bool_decide (dup_key r1 = dup_key r2)).
Proof.
  intros H1 H2. unfold IsDuplicate. rewrite header_spec. gosimp.
  destruct (decide ((Class_ (Hdr r1), Rrtype (Hdr r1), map lower (Name (Hdr r1))) = (Class_ (Hdr r2), Rrtype (Hdr r2), map lower (Name (Hdr r2))))) as [E|E].
  - rewrite (bool_decide_true _ E). cbn [negb]. rewrite isDuplicate_spec by done. apply Ok_decide. unfold dup_key. cbn [snd].
    rewrite E. split; [by intros [-> ->]|by intros [= -> ->]].
  - rewrite (bool_decide_false _ E), bool_decide_false; [done|]. unfold dup_key. congruence.
Qed.

(** ** Duplicates *)

(** Being a duplicate: the equality of the canonical forms. *)
Definition duplicate (r1 r2 : RR) : Prop := dup_key r1 = dup_key r2.
#[export] Instance duplicate_dec : RelDecision duplicate.
Proof. intros r1 r2. unfold duplicate. apply _. Defined.
#[export] Instance duplicate_equivalence : Equivalence duplicate.
Proof. split; [by intros ?|by intros ???|intros ?????; unfold duplicate in *; congruence]. Qed.

(** C26: on records with values of their fields' types, whose SVCB pairs have
    distinct keys and can be packed, [IsDuplicate] returns, and decides an
    equivalence relation: equality of owner names, and of the names in the data,
    up to the case of ASCII letters, of class and type, of addresses up to the
    IPv4-in-IPv6 form, of SVCB pairs up to their order, and of all other
    fields.  TTL and data length have no part in it, and an OPT record is no
    duplicate, not even of itself. *)
Theorem IsDuplicate_decides r1 r2 : dup_ok r1 -> dup_ok r2 ->
  IsDuplicate r1 r2 = Ok (bool_decide (duplicate r1 r2)) /\ Equivalence duplicate /\
  (forall ttl rdlength, IsDuplicate r1 (set_Hdr (fun h => set_Ttl ttl (set_Rdlength rdlength h)) r1) = Ok true) /\
  (forall h d r, IsDuplicate (MkRR h RR_OPT d) r = Ok false).
Proof.
  intros H1 H2. split_and!; [rewrite IsDuplicate_spec by done; by apply Ok_decide|apply _| |].
  - intros ttl rdlength. rewrite IsDuplicate_spec by (destruct r1; done). by rewrite bool_decide_true.
  - intros h d r. unfold IsDuplicate. rewrite header_spec. gosimp. by case_bool_decide.
Qed.

(** MX records whose names differ in case are duplicates. *)
Lemma IsDuplicate_decides_witness :
  let mx n t x := MkRR (MkHeader n 15 1 t 0) RR_MX [V_int 10; V_str x] in
  IsDuplicate (mx (bs "Example.org.") 3600 (bs "MX.example.org.")) (mx (bs "example.ORG.") 60 (bs "mx.example.org.")) = Ok true.
Proof.
  intros mx. assert (forall n t x, dup_ok (mx n t x)) as Hok.
  { intros n t x. split; [discriminate|]. split; repeat constructor; vm_compute; congruence. }
  destruct (IsDuplicate_decides (mx (bs "Example.org.") 3600 (bs "MX.example.org.")) (mx (bs "example.ORG.") 60 (bs "mx.example.org.")) (Hok _ _ _) (Hok _ _ _)) as [-> _].
  vm_compute. reflexivity.
Defined.

(** Octets that have several spellings are compared as they are spelled: two DS
    records of the same digest, two records of the same name. *)
Example IsDuplicate_spelling :
  let ds d := MkRR (MkHeader (bs "a.") 43 1 60 0) RR_DS [V_int 1; V_int 8; V_int 2; V_str d] in
  let ns x := MkRR (MkHeader (bs "a.") 2 1 60 0) RR_NS [V_str x] in
  IsDuplicate (ds (bs "AB")) (ds (bs "ab")) = Ok false /\
  (exists m, packRR (ds (bs "AB")) (replicate 20 x00) 0 nil_map false = Ok m /\ packRR (ds (bs "ab")) (replicate 20 x00) 0 nil_map false = Ok m) /\
  IsDuplicate (ns (bs "b.")) (ns (bs "\098.")) = Ok false /\
  (exists m, packRR (ns (bs "b.")) (replicate 20 x00) 0 nil_map false = Ok m /\ packRR (ns (bs "\098.")) (replicate 20 x00) 0 nil_map false = Ok m).
Proof.
  cbv zeta. split; [vm_compute; reflexivity|]. split; [eexists; split; vm_compute; reflexivity|].
  split; [vm_compute; reflexivity|]. eexists; split; vm_compute; reflexivity.
Qed.
