(* ===== verification/Order.v ===== *)
(** * The order of octet strings

    [bytes.Compare] and the operators [<] and [>] on Go strings: octet by octet,
    a prefix first.  It is a strict total order; sorting with it gives lists that
    depend only on what they hold. *)

From stdpp Require Import sorting.
From S2P Require Import Prelude.

Fixpoint bytes_less (a b : bytes) : bool :=
  match a, b with
  | [], [] => false
  | [], _ :: _ => true
  | _ :: _, [] => false
  | x :: a, y :: b => if bval x <? bval y then true else if bval y <? bval x then false else bytes_less a b
  end.

(** The order as a proposition, for [transitivity] and the sorting lemmas. *)
Definition bytes_le (a b : bytes) : Prop := bytes_less b a = false.
#[export] Instance bytes_le_dec : RelDecision bytes_le.
Proof. intros a b. unfold bytes_le. apply _. Defined.

Lemma bval_inj x y : bval x = bval y -> x = y.
Proof. intros H. by rewrite <- (byte_of_bval x), H, byte_of_bval. Qed.

Lemma bytes_less_irrefl a : bytes_less a a = false.
Proof. induction a as [|x a IH]; cbn; [done|]. by rewrite Z.ltb_irrefl. Qed.

Lemma bytes_less_asym a b : bytes_less a b = true -> bytes_less b a = false.
Proof.
  revert b. induction a as [|x a IH]; intros [|y b]; cbn; try done.
  destruct (Z.ltb_spec (bval x) (bval y)), (Z.ltb_spec (bval y) (bval x)); try done; [lia|apply IH].
Qed.

Lemma bytes_less_trans a b c : bytes_less a b = true -> bytes_less b c = true -> bytes_less a c = true.
Proof.
  revert b c. induction a as [|x a IH]; intros [|y b] [|z c]; cbn; try done.
  destruct (Z.ltb_spec (bval x) (bval y)), (Z.ltb_spec (bval y) (bval x)), (Z.ltb_spec (bval y) (bval z)),
    (Z.ltb_spec (bval z) (bval y)), (Z.ltb_spec (bval x) (bval z)), (Z.ltb_spec (bval z) (bval x)); try done; try lia. apply IH.
Qed.

Lemma bytes_less_total a b : a = b \/ bytes_less a b = true \/ bytes_less b a = true.
Proof.
  revert b. induction a as [|x a IH]; intros [|y b]; cbn; auto.
  destruct (Z.ltb_spec (bval x) (bval y)), (Z.ltb_spec (bval y) (bval x)); auto.
  rewrite (bval_inj x y) by lia. destruct (IH b) as [->|[?|?]]; auto.
Qed.

Lemma bytes_le_iff a b : bytes_le a b <-> a = b \/ bytes_less a b = true.
Proof.
  unfold bytes_le. split.
  - intros H. destruct (bytes_less_total a b) as [?|[?|E]]; auto. by rewrite E in H.
  - intros [->|H]; [apply bytes_less_irrefl|by apply bytes_less_asym].
Qed.

#[export] Instance bytes_le_total_order : TotalOrder bytes_le.
Proof.
  split; [split; [split|]|].
  - intros a. by apply bytes_le_iff; left.
  - intros a b c. rewrite !bytes_le_iff. intros [->|H1] [->|H2]; auto. right. by eapply bytes_less_trans.
  - intros a b H1 H2. apply bytes_le_iff in H1 as [?|H1]; [done|]. unfold bytes_le in H2. by rewrite H1 in H2.
  - assert (forall a b, bytes_less a b = true -> strict bytes_le a b) as Hs.
    { intros a b H. split; [by apply bytes_le_iff; right|]. unfold bytes_le. by rewrite H. }
    intros a b. destruct (bytes_less_total a b) as [->|[H|H]]; auto.
Qed.

(** ** Sorting by a key *)

Section By.
Context {A : Type} (key : A -> bytes).

Definition by_bytes (x y : A) : Prop := bytes_le (key x) (key y).
#[export] Instance by_bytes_dec : RelDecision by_bytes.
Proof. intros x y. unfold by_bytes. apply _. Defined.
#[export] Instance by_bytes_trans : Transitive by_bytes.
Proof. intros x y z. unfold by_bytes. apply transitivity. Qed.
#[export] Instance by_bytes_total : Total by_bytes.
Proof.
  intros x y. unfold by_bytes. destruct (bytes_less_total (key x) (key y)) as [->|[?|?]]; [left; reflexivity|left|right];
    apply bytes_le_iff; auto.
Qed.

(** [sort.Sort] with [Less(i, j)] the order of the keys. *)
Definition sort_by (l : list A) : list A := merge_sort by_bytes l.

Lemma sort_by_perm l : sort_by l ≡ₚ l.
Proof. apply merge_sort_Permutation. Qed.
Lemma elem_of_sort_by l x : x ∈ sort_by l <-> x ∈ l.
Proof. by rewrite (sort_by_perm l). Qed.
Lemma sort_by_sorted l : StronglySorted by_bytes (sort_by l).
Proof. apply (StronglySorted_merge_sort by_bytes). Qed.
End By.

(** Equal neighbours are left out. *)
Section Dedup.
Context {A : Type} `{EqDecision A}.

Fixpoint drop_repeats (prev : option A) (l : list A) : list A :=
  match l with
  | [] => []
  | x :: l => if bool_decide (prev = Some x) then drop_repeats (Some x) l else x :: drop_repeats (Some x) l
  end.

Lemma drop_repeats_elem prev l x : x ∈ drop_repeats prev l \/ prev = Some x <-> x ∈ l \/ prev = Some x.
Proof.
  revert prev. induction l as [|y l IH]; intros prev; cbn [drop_repeats]; [done|]. specialize (IH (Some y)).
  assert (Some y = Some x <-> x = y) by (split; congruence).
  case_bool_decide as Hp; rewrite ?elem_of_cons; [subst prev|]; tauto.
Qed.

(** With a key that tells the elements apart, what is left of a sorted list has
    no element twice. *)
Context (key : A -> bytes).

Lemma drop_repeats_sorted prev l :
  (forall x y, x ∈ l \/ prev = Some x -> y ∈ l \/ prev = Some y -> key x = key y -> x = y) ->
  StronglySorted (by_bytes key) l -> (forall x p, x ∈ l -> prev = Some p -> by_bytes key p x) ->
  StronglySorted (by_bytes key) (drop_repeats prev l) /\ NoDup (drop_repeats prev l) /\
  (forall p, prev = Some p -> p ∉ drop_repeats prev l).
Proof.
  revert prev. induction l as [|y l IH]; intros prev Hk Hs Hp; cbn [drop_repeats].
  { split_and!; [constructor|constructor|intros ? _; apply not_elem_of_nil]. }
  apply StronglySorted_inv in Hs as [Hs Hy]. rewrite Forall_forall in Hy.
  destruct (IH (Some y)) as (I1 & I2 & I3).
  - intros x z Hx Hz. apply Hk; [destruct Hx as [?|[= ->]]|destruct Hz as [?|[= ->]]]; left; set_solver.
  - done.
  - intros x p Hx [= <-]. by apply Hy.
  - assert (forall x, x ∈ drop_repeats (Some y) l -> x ∈ l) as Hsub.
    { intros x Hx. destruct (proj1 (drop_repeats_elem (Some y) l x) (or_introl Hx)) as [?|[= ->]]; [done|]. by destruct (I3 x). }
    case_bool_decide as E; [subst prev; split_and!; [done|done|by intros p [= <-]; apply I3]|].
    split_and!.
    + constructor; [done|]. apply Forall_forall. intros x Hx. apply Hy, Hsub, Hx.
    + constructor; [by apply I3|done].
    + intros p ->. rewrite elem_of_cons. intros [->|Hin]; [done|]. apply E. f_equal. apply Hk; [by right|left; set_solver|].
      apply (anti_symm bytes_le); [apply Hp; [set_solver|done]|apply Hy, Hsub, Hin].
Qed.

(** Sorted lists with the same elements are the same without their repeats. *)
Lemma sorted_dedup_unique l1 l2 :
  StronglySorted (by_bytes key) l1 -> StronglySorted (by_bytes key) l2 ->
  (forall x y, x ∈ l1 -> y ∈ l1 -> key x = key y -> x = y) -> (forall x, x ∈ l1 <-> x ∈ l2) ->
  drop_repeats None l1 = drop_repeats None l2.
Proof.
  intros Hs1 Hs2 Hk He.
  assert (forall l, StronglySorted (by_bytes key) l -> (forall x, x ∈ l1 <-> x ∈ l) -> let d := drop_repeats None l in
    StronglySorted (by_bytes key) d /\ NoDup d /\ forall x, x ∈ d <-> x ∈ l1) as Hd.
  { intros l Hs Hl d. destruct (drop_repeats_sorted None l) as (H1 & H2 & _).
    - intros x y [Hx|?] [Hy|?]; try done. apply Hk; by apply Hl.
    - done.
    - done.
    - split_and!; [done|done|]. intros x. rewrite Hl. pose proof (drop_repeats_elem None l x) as H.
      unfold d. intuition congruence. }
  destruct (Hd l1) as (S1 & N1 & E1); [done..|]. destruct (Hd l2) as (S2 & N2 & E2); [done..|].
  assert (drop_repeats None l1 ≡ₚ drop_repeats None l2) as P.
  { apply NoDup_Permutation; [done|done|]. intros x. by rewrite E1, E2. }
  apply (StronglySorted_unique_strong (by_bytes key)); [|done|done|done].
  intros x y Hx Hy H1 H2. apply Hk; [by apply E1|by apply E1; rewrite P|]. by apply (anti_symm bytes_le).
Qed.
End Dedup.
