(* ===== verification/Der.v ===== *)
(** * math/big and encoding/asn1, as the DNSSEC code uses them

    Non-negative [big.Int]s as integers with [Bytes] and [SetBytes], [intToBytes]
    of msg.go, and the DER form of an ECDSA signature, the struct of two
    [big.Int]s that [asn1.Marshal] writes and [asn1.Unmarshal] reads.  The
    errors of encoding/asn1 are one value here. *)

From S2P Require Import Prelude Go Wire.

(** ** big.Int *)

Definition byte_length (x : Z) : nat := if x =? 0 then 0%nat else Z.to_nat (Z.log2 x / 8 + 1).
Definition big_Bytes (x : Z) : bytes := be (byte_length (Z.abs x)) (Z.abs x).
Definition big_SetBytes (buf : bytes) : Z := unbe buf.

(** [intToBytes]: padded in front; a larger integer is not cut. *)
Definition intToBytes (i length : Z) : bytes :=
  let buf := big_Bytes i in
  if zlen buf <? length then replicate (Z.to_nat (length - zlen buf)) x00 ++ buf else buf.

(** ** DER *)

(** [appendTagAndLength] and the contents. *)
Definition der_length (n : Z) : bytes :=
  if n <? 128 then [byte_of n] else byte_of (128 + zlen (big_Bytes n)) :: big_Bytes n.
Definition der (tag : byte) (content : bytes) : bytes := tag :: der_length (zlen content) ++ content.

(** [makeBigInt] of an integer that is not negative. *)
Definition der_int (n : Z) : bytes :=
  match big_Bytes n with
  | [] => [x00]
  | b :: l => if 128 <=? bval b then x00 :: b :: l else b :: l
  end.

Definition tag_INTEGER : byte := x02.
Definition tag_SEQUENCE : byte := x30.

Definition asn1_Marshal (r s : Z) : bytes :=
  der tag_SEQUENCE (der tag_INTEGER (der_int r) ++ der tag_INTEGER (der_int s)).

(** [parseTagAndLength]: the length of [n] octets, without leading zeros and
    not below 128. *)
Fixpoint long_length (n : nat) (len : Z) (b : bytes) : option (Z * bytes) :=
  match n, b with
  | O, _ => if len <? 128 then None else Some (len, b)
  | S _, [] => None
  | S n, c :: b =>
      if 2 ^ 23 <=? len then None else
      let len := len * 256 + bval c in
      if len =? 0 then None else long_length n len b
  end.

Definition parse_length (b : bytes) : option (Z * bytes) :=
  match b with
  | [] => None
  | c :: b =>
      if bval c <? 128 then Some (bval c, b)
      else if bval c =? 128 then None else long_length (Z.to_nat (bval c - 128)) 0 b
  end.

(** The contents and what follows them. *)
Definition parse_der (tag : byte) (b : bytes) : option (bytes * bytes) :=
  match b with
  | t :: b =>
      if negb (t =b tag) then None else
      '(n, b) ← parse_length b;
      if zlen b <? n then None else Some (ztake n b, zdrop n b)
  | [] => None
  end.

(** [parseBigInt]: two's complement of minimal length. *)
Definition parse_int (b : bytes) : option Z :=
  match b with
  | [] => None
  | [x] => Some (if 128 <=? bval x then bval x - 256 else bval x)
  | x :: y :: _ =>
      if ((bval x =? 0) && (bval y <? 128)) || ((bval x =? 255) && (128 <=? bval y)) then None
      else Some (if 128 <=? bval x then unbe b - 256 ^ zlen b else unbe b)
  end.

Definition parse_signature (b : bytes) : option (Z * Z) :=
  '(body, _) ← parse_der tag_SEQUENCE b;
  '(x, body) ← parse_der tag_INTEGER body; r ← parse_int x;
  '(y, _) ← parse_der tag_INTEGER body; s ← parse_int y;
  Some (r, s).

Definition asn1_Unmarshal (b : bytes) : res error (Z * Z) :=
  match parse_signature b with Some v => Ok v | None => Err (MkError "asn1") end.

(** ** Integers and octets *)

Lemma byte_length_bounds x : 0 < x -> 256 ^ (Z.of_nat (byte_length x) - 1) <= x < 256 ^ Z.of_nat (byte_length x).
Proof.
  intros Hx. unfold byte_length. destruct (Z.eqb_spec x 0); [lia|]. pose proof (Z.log2_nonneg x).
  pose proof (Z.div_pos (Z.log2 x) 8 ltac:(lia) ltac:(lia)). rewrite Z2Nat.id by lia.
  destruct (Z.log2_spec x Hx) as [H1 H2]. pose proof (Z.div_mod (Z.log2 x) 8 ltac:(lia)).
  pose proof (Z.mod_pos_bound (Z.log2 x) 8 ltac:(lia)).
  assert (forall k, 0 <= k -> 256 ^ k = 2 ^ (8 * k)) as H256 by (intros k Hk; rewrite Z.pow_mul_r by lia; done).
  replace (Z.log2 x / 8 + 1 - 1) with (Z.log2 x / 8) by lia. rewrite !H256 by lia. split.
  - etransitivity; [|exact H1]. apply Z.pow_le_mono_r; lia.
  - eapply Z.lt_le_trans; [exact H2|]. apply Z.pow_le_mono_r; lia.
Qed.

Lemma byte_length_le x n : 0 <= x < 256 ^ Z.of_nat n -> (byte_length x <= n)%nat.
Proof.
  intros Hx. destruct (Z.eq_dec x 0) as [->|]; [cbn; lia|]. pose proof (byte_length_bounds x ltac:(lia)) as [H _].
  assert (256 ^ (Z.of_nat (byte_length x) - 1) < 256 ^ Z.of_nat n) as Hlt by lia.
  apply Z.pow_lt_mono_r_iff in Hlt; lia.
Qed.

Lemma unbe_big_Bytes x : 0 <= x -> unbe (big_Bytes x) = x.
Proof.
  intros Hx. unfold big_Bytes. rewrite Z.abs_eq by done. apply unbe_be. split; [done|].
  destruct (Z.eq_dec x 0) as [->|]; [done|]. apply byte_length_bounds. lia.
Qed.

Lemma unbe_zeros n l : unbe (replicate n x00 ++ l) = unbe l.
Proof. induction n as [|n IH]; [done|]. cbn [replicate app]. rewrite unbe_cons. change (bval x00) with 0. lia. Qed.

Lemma unbe_inj l1 l2 : zlen l1 = zlen l2 -> unbe l1 = unbe l2 -> l1 = l2.
Proof.
  intros Hl E. rewrite <- (be_unbe l1), <- (be_unbe l2), E. unfold zlen in Hl. f_equal. lia.
Qed.

Lemma intToBytes_be i n : 0 <= i < 256 ^ Z.of_nat n -> intToBytes i (Z.of_nat n) = be n i.
Proof.
  intros Hi. pose proof (byte_length_le _ _ Hi) as Hl. unfold intToBytes.
  assert (zlen (big_Bytes i) = Z.of_nat (byte_length i)) as Hb by (unfold big_Bytes; rewrite be_length, Z.abs_eq by lia; done).
  apply unbe_inj.
  - rewrite be_length. destruct (Z.ltb_spec (zlen (big_Bytes i)) (Z.of_nat n)); [|lia].
    rewrite zlen_app. unfold zlen at 1. rewrite length_replicate. lia.
  - rewrite unbe_be by done. destruct (zlen (big_Bytes i) <? _); rewrite ?unbe_zeros; apply unbe_big_Bytes; lia.
Qed.

Lemma big_Bytes_head x b l : 0 < x -> big_Bytes x = b :: l -> bval b <> 0.
Proof.
  intros Hx E H0. pose proof (unbe_big_Bytes x ltac:(lia)) as Hu. pose proof (byte_length_bounds x Hx) as [Hb _].
  assert (zlen (big_Bytes x) = Z.of_nat (byte_length x)) as Hl by (unfold big_Bytes; rewrite be_length, Z.abs_eq by lia; done).
  rewrite E, unbe_cons, H0 in Hu. rewrite E, zlen_cons in Hl. pose proof (unbe_range l) as Hr.
  replace (Z.of_nat (byte_length x) - 1) with (zlen l) in Hb by lia. lia.
Qed.

Lemma big_Bytes_nil x : 0 <= x -> big_Bytes x = [] -> x = 0.
Proof. intros Hx E. by rewrite <- (unbe_big_Bytes x Hx), E. Qed.

(** ** Reading what was written *)

Lemma parse_der_int n : 0 <= n -> parse_int (der_int n) = Some n.
Proof.
  intros Hn. unfold der_int. pose proof (unbe_big_Bytes n Hn) as Hu. destruct (big_Bytes n) as [|b l] eqn:E.
  { apply big_Bytes_nil in E as ->; [done|lia]. }
  assert (0 < n) as Hpos by (destruct (Z.eq_dec n 0) as [->|]; [done|lia]). pose proof (big_Bytes_head n b l Hpos E) as Hb.
  pose proof (bval_range b). destruct (Z.leb_spec 128 (bval b)) as [Hh|Hh].
  - cbn [parse_int]. change (bval x00) with 0. cbn [Z.eqb andb orb]. destruct (Z.ltb_spec (bval b) 128); [lia|].
    cbn [orb andb]. change (128 <=? 0) with false. cbn iota. by rewrite unbe_cons, Z.mul_0_l, Z.add_0_l, Hu.
  - destruct l as [|y l].
    + cbn [parse_int]. destruct (Z.leb_spec 128 (bval b)); [lia|]. rewrite unbe_cons in Hu. change (zlen []) with 0 in Hu. change (unbe []) with 0 in Hu. f_equal. lia.
    + cbn [parse_int]. destruct (Z.eqb_spec (bval b) 0); [done|]. destruct (Z.eqb_spec (bval b) 255); [lia|]. cbn [andb orb].
      destruct (Z.leb_spec 128 (bval b)); [lia|]. by rewrite Hu.
Qed.

Lemma long_length_app l len suf : 0 < len \/ (exists b l', l = b :: l' /\ bval b <> 0) -> 0 <= len ->
  128 <= len * 256 ^ zlen l + unbe l < 2 ^ 23 ->
  long_length (length l) len (l ++ suf) = Some (len * 256 ^ zlen l + unbe l, suf).
Proof.
  revert len. induction l as [|c l IH]; intros len Hpos H0 Hr.
  - cbn [length long_length app]. change (zlen []) with 0 in *. change (unbe []) with 0 in *.
    rewrite Z.pow_0_r, Z.mul_1_r, Z.add_0_r in *. destruct (Z.ltb_spec len 128); [lia|done].
  - cbn [length long_length app]. rewrite unbe_cons, zlen_cons in *. pose proof (zlen_nonneg l).
    rewrite Z.pow_add_r, Z.pow_1_r in * by lia. pose proof (bval_range c). pose proof (unbe_range l).
    assert (0 < 256 ^ zlen l) by (apply Z.pow_pos_nonneg; lia).
    assert (0 < len * 256 + bval c) by (destruct Hpos as [?|(b & l' & [= <- <-] & ?)]; lia).
    destruct (Z.leb_spec (2 ^ 23) len); [nia|]. destruct (Z.eqb_spec (len * 256 + bval c) 0); [lia|].
    rewrite IH; [|by left|lia|lia]. do 2 f_equal. lia.
Qed.

Lemma parse_length_der n suf : 0 <= n < 2 ^ 23 -> parse_length (der_length n ++ suf) = Some (n, suf).
Proof.
  intros Hn. unfold der_length. destruct (Z.ltb_spec n 128) as [Hs|Hs].
  { cbn [app parse_length]. rewrite byte_of_small by lia. destruct (Z.ltb_spec n 128); [done|lia]. }
  pose proof (byte_length_le n 3 ltac:(lia)) as Hl. pose proof (unbe_big_Bytes n ltac:(lia)) as Hu.
  assert (zlen (big_Bytes n) = Z.of_nat (byte_length n)) as Hb by (unfold big_Bytes; rewrite be_length, Z.abs_eq by lia; done).
  destruct (big_Bytes n) as [|b l] eqn:E; [cbn in Hu; lia|]. pose proof (big_Bytes_head n b l ltac:(lia) E).
  set (w := b :: l) in *. pose proof (zlen_nonneg l). assert (zlen w = 1 + zlen l) by (unfold w; by rewrite zlen_cons).
  cbn [app parse_length]. rewrite byte_of_small by lia.
  destruct (Z.ltb_spec (128 + zlen w) 128); [lia|]. destruct (Z.eqb_spec (128 + zlen w) 128); [lia|].
  replace (Z.to_nat (128 + zlen w - 128)) with (length w) by (unfold zlen; lia).
  rewrite long_length_app; [by rewrite Z.mul_0_l, Z.add_0_l, Hu|right; by exists b, l|lia|lia].
Qed.

Lemma parse_der_der tag c suf : zlen c < 2 ^ 23 -> parse_der tag (der tag c ++ suf) = Some (c, suf).
Proof.
  intros Hc. pose proof (zlen_nonneg c). unfold der. cbn [app parse_der]. rewrite beq_refl, <- app_assoc. cbn [negb].
  rewrite parse_length_der by lia. cbn [mbind option_bind]. rewrite zlen_app. pose proof (zlen_nonneg suf).
  destruct (Z.ltb_spec (zlen c + zlen suf) (zlen c)); [lia|]. do 2 f_equal.
  - by apply ztake_app_eq.
  - unfold zdrop, zlen. rewrite Nat2Z.id. apply drop_app_length.
Qed.

Lemma der_int_length n k : 0 <= n < 256 ^ Z.of_nat k -> zlen (der_int n) <= Z.of_nat k + 1.
Proof.
  intros Hn. pose proof (byte_length_le _ _ Hn). unfold der_int.
  assert (zlen (big_Bytes n) = Z.of_nat (byte_length n)) as Hb by (unfold big_Bytes; rewrite be_length, Z.abs_eq by lia; done).
  destruct (big_Bytes n) as [|b l]; [zlia|]. destruct (128 <=? bval b); zlia.
Qed.

Lemma der_length_short n : 0 <= n < 2 ^ 23 -> zlen (der_length n) <= 4.
Proof.
  intros Hn. unfold der_length. destruct (n <? 128); [zlia|]. pose proof (byte_length_le n 3 ltac:(lia)).
  rewrite zlen_cons. unfold big_Bytes. rewrite be_length, Z.abs_eq by lia. lia.
Qed.

(** The signature of two integers of at most a million octets. *)
Lemma asn1_roundtrip k r s : Z.of_nat k <= 1000000 -> 0 <= r < 256 ^ Z.of_nat k -> 0 <= s < 256 ^ Z.of_nat k ->
  asn1_Unmarshal (asn1_Marshal r s) = Ok (r, s).
Proof.
  intros Hk Hr Hs. pose proof (der_int_length r k Hr) as Lr. pose proof (der_int_length s k Hs) as Ls.
  assert (forall n, zlen (der_int n) <= 1000001 -> zlen (der tag_INTEGER (der_int n)) <= 1000006) as Hd.
  { intros n Hn. unfold der. rewrite zlen_cons, zlen_app. pose proof (zlen_nonneg (der_int n)).
    pose proof (der_length_short (zlen (der_int n)) ltac:(lia)). lia. }
  unfold asn1_Unmarshal, parse_signature, asn1_Marshal.
  set (body := der tag_INTEGER (der_int r) ++ der tag_INTEGER (der_int s)).
  assert (zlen body < 2 ^ 23) by (unfold body; rewrite zlen_app; pose proof (Hd r ltac:(lia)); pose proof (Hd s ltac:(lia)); lia).
  rewrite <- (app_nil_r (der tag_SEQUENCE body)), parse_der_der by done. cbn [mbind option_bind].
  unfold body. rewrite parse_der_der by lia. cbn [mbind option_bind]. rewrite parse_der_int by lia. cbn [mbind option_bind].
  rewrite <- (app_nil_r (der tag_INTEGER (der_int s))), parse_der_der by lia. cbn [mbind option_bind].
  by rewrite parse_der_int by lia.
Qed.

(** The two values of a curve, of [n] octets each, and back. *)
Lemma split_halves n r s : 0 <= r < 256 ^ Z.of_nat n -> 0 <= s < 256 ^ Z.of_nat n ->
  let buf := intToBytes r (Z.of_nat n) ++ intToBytes s (Z.of_nat n) in
  big_SetBytes (ztake (zlen buf / 2) buf) = r /\ big_SetBytes (zdrop (zlen buf / 2) buf) = s.
Proof.
  intros Hr Hs buf. unfold buf. rewrite !intToBytes_be by done. rewrite zlen_app, !be_length.
  replace ((Z.of_nat n + Z.of_nat n) / 2) with (zlen (be n r)) by (rewrite be_length; apply Z.div_unique with 0; lia).
  unfold big_SetBytes. rewrite ztake_app_eq by done. unfold zdrop, zlen. rewrite Nat2Z.id, drop_app_length.
  split; by apply unbe_be.
Qed.
