(* ===== verification/Dnssec.v ===== *)
(** * dnssec.go, dnssec_keygen.go: signing and verifying record sets

    The records RRSIG, DNSKEY and DS, the canonical form of a record set, key
    tags, digests, public keys and the two operations [Sign] and [Verify].  The
    cryptography is the package go-openssl, which is not part of the repository:
    it is the interface [Openssl] below, an argument of the definitions that call
    it. *)

From S2P Require Import Prelude Go Labels Names Wire Encodings RData RR Build Order Der.

#[local] Open Scope string_scope.

(** ** Constants *)

Definition RSAMD5 : Z := 1.
Definition DH : Z := 2.
Definition DSA : Z := 3.
Definition RSASHA1 : Z := 5.
Definition DSANSEC3SHA1 : Z := 6.
Definition RSASHA1NSEC3SHA1 : Z := 7.
Definition RSASHA256 : Z := 8.
Definition RSASHA512 : Z := 10.
Definition ECCGOST : Z := 12.
Definition ECDSAP256SHA256 : Z := 13.
Definition ECDSAP384SHA384 : Z := 14.
Definition ED25519 : Z := 15.
Definition ED448 : Z := 16.
Definition FALCON512 : Z := 17.
Definition P256_FALCON512 : Z := 18.
Definition RSA3072_FALCON512 : Z := 19.
Definition FALCON1024 : Z := 20.
Definition P521_FALCON1024 : Z := 21.
Definition INDIRECT : Z := 252.
Definition PRIVATEDNS : Z := 253.
Definition PRIVATEOID : Z := 254.

(** A map from small integers; a missing key gives the zero value. *)
Definition map_get (m : list (Z * String.string)) (k : Z) : String.string :=
  match list_find (fun e => e.1 = k) m with Some (_, (_, s)) => s | None => "" end.

Definition AlgorithmToString : list (Z * String.string) :=
  [(RSAMD5, "RSAMD5"); (DH, "DH"); (DSA, "DSA"); (RSASHA1, "RSASHA1"); (DSANSEC3SHA1, "DSA-NSEC3-SHA1");
   (RSASHA1NSEC3SHA1, "RSASHA1-NSEC3-SHA1"); (RSASHA256, "RSASHA256"); (RSASHA512, "RSASHA512"); (ECCGOST, "ECC-GOST");
   (ECDSAP256SHA256, "ECDSAP256SHA256"); (ECDSAP384SHA384, "ECDSAP384SHA384"); (ED25519, "ED25519"); (ED448, "ED448");
   (INDIRECT, "INDIRECT"); (PRIVATEDNS, "PRIVATEDNS"); (PRIVATEOID, "PRIVATEOID"); (FALCON512, "falconpadded512");
   (P256_FALCON512, "p256_falconpadded512"); (RSA3072_FALCON512, "rsa3072_falconpadded512");
   (FALCON1024, "falconpadded1024"); (P521_FALCON1024, "p521_falconpadded1024")].

Definition AlgorithmToHash : list (Z * String.string) :=
  [(RSAMD5, "md5"); (DSA, "sha1"); (RSASHA1, "sha1"); (RSASHA1NSEC3SHA1, "sha1"); (RSASHA256, "sha256");
   (ECDSAP256SHA256, "sha256"); (ECDSAP384SHA384, "sha384"); (RSASHA512, "sha512"); (FALCON512, ""); (P256_FALCON512, "");
   (RSA3072_FALCON512, ""); (FALCON1024, ""); (P521_FALCON1024, ""); (ED25519, "")].

(** DNSSEC hashing algorithm codes. *)
Definition SHA1 : Z := 1.
Definition SHA256 : Z := 2.
Definition GOST94 : Z := 3.
Definition SHA384 : Z := 4.
Definition SHA512 : Z := 5.

(** DNSKEY flags. *)
Definition SEP : Z := 1.
Definition REVOKE : Z := Z.shiftl 1 7.
Definition ZONE : Z := Z.shiftl 1 8.

Definition TypeDS : Z := 43.
Definition TypeRRSIG : Z := 46.
Definition TypeCDS : Z := 59.
Definition TypeCDNSKEY : Z := 60.
Definition year68 : Z := Z.shiftl 1 31.

(** ** The records (types.go) *)

Record RRSIG := {
  rs_Hdr : RR_Header;
  rs_TypeCovered : Z; rs_Algorithm : Z; rs_Labels : Z; rs_OrigTtl : Z; rs_Expiration : Z;
  rs_Inception : Z; rs_KeyTag : Z; rs_SignerName : bytes; rs_Signature : bytes (* base64 *)
}.

Record DNSKEY := {
  dk_Hdr : RR_Header;
  dk_Flags : Z; dk_Protocol : Z; dk_Algorithm : Z; dk_PublicKey : bytes (* base64 *)
}.

Record DS := {
  ds_Hdr : RR_Header;
  ds_KeyTag : Z; ds_Algorithm : Z; ds_DigestType : Z; ds_Digest : bytes (* hex *)
}.

(** The same as values of the records of RData.v. *)
Definition RRSIG_rr (s : RRSIG) : RR :=
  MkRR (rs_Hdr s) RR_RRSIG
    [V_int (rs_TypeCovered s); V_int (rs_Algorithm s); V_int (rs_Labels s); V_int (rs_OrigTtl s); V_int (rs_Expiration s);
     V_int (rs_Inception s); V_int (rs_KeyTag s); V_str (rs_SignerName s); V_str (rs_Signature s)].
Definition DNSKEY_rr (k : DNSKEY) : RR :=
  MkRR (dk_Hdr k) RR_DNSKEY [V_int (dk_Flags k); V_int (dk_Protocol k); V_int (dk_Algorithm k); V_str (dk_PublicKey k)].

(** ** The interface to go-openssl *)

Class Openssl := {
  PrivateKey : Type;
  PublicKey : Type;
  Digest : Type;
  DigestJob : Type;
  (** [GetDigestByName(name, false)]; no digest with an error *)
  GetDigestByName : String.string -> option Digest;
  SignPKCS1v15 : PrivateKey -> option Digest -> bytes -> res error bytes;
  VerifyPKCS1v15 : PublicKey -> option Digest -> bytes -> bytes -> res error unit;
  BuildRSAPublicKey : Z -> Z -> option PublicKey;
  BuildECDSAPublicKey : bytes -> String.string -> option PublicKey;
  BuildRawPublicKey : bytes -> String.string -> option PublicKey;
  (** the errors of these are not looked at: a job that could not be made or
      written to is a value like any other *)
  NewSHA1Hash : DigestJob;
  NewSHA256Hash : DigestJob;
  NewDigestJob : Digest -> DigestJob;
  DigestJob_Write : DigestJob -> bytes -> DigestJob;
  DigestJob_Sum : DigestJob -> bytes;
  (** key generation: the outcome of the call *)
  GenerateRSAKey : Z -> res error PrivateKey;
  GenerateECKey : String.string -> res error PrivateKey;
  GenerateED25519Key : res error PrivateKey;
  GenerateKey : String.string -> res error PrivateKey;
  (** a number is None where the pointer is nil *)
  GetParamsRSA : PrivateKey -> res error (option Z * option Z);
  GetECDSAPublicKey : PrivateKey -> res error (option Z * option Z);
  GetRawPublicKey : PublicKey -> res error bytes;
  (** a private key is a value of the interface of public keys, too *)
  as_PublicKey : PrivateKey -> PublicKey
}.

(** ** Wire forms *)

(** [rrsigWireFmt] and [packSigWire]: the RRSIG without its signature. *)
Record rrsigWireFmt := {
  sw_TypeCovered : Z; sw_Algorithm : Z; sw_Labels : Z; sw_OrigTtl : Z; sw_Expiration : Z;
  sw_Inception : Z; sw_KeyTag : Z; sw_SignerName : bytes
}.

Definition packSigWire (sw : rrsigWireFmt) (msg : bytes) : wire (bytes * Z) :=
  '(msg, off) ← packUint16 (sw_TypeCovered sw) msg 0;
  '(msg, off) ← packUint8 (sw_Algorithm sw) msg off;
  '(msg, off) ← packUint8 (sw_Labels sw) msg off;
  '(msg, off) ← packUint32 (sw_OrigTtl sw) msg off;
  '(msg, off) ← packUint32 (sw_Expiration sw) msg off;
  '(msg, off) ← packUint32 (sw_Inception sw) msg off;
  '(msg, off) ← packUint16 (sw_KeyTag sw) msg off;
  '(msg, off, _) ← PackDomainName (sw_SignerName sw) msg off None false;
  Ok (msg, off).

Record dnskeyWireFmt := { dw_Flags : Z; dw_Protocol : Z; dw_Algorithm : Z; dw_PublicKey : bytes }.

Definition packKeyWire (dw : dnskeyWireFmt) (msg : bytes) : wire (bytes * Z) :=
  '(msg, off) ← packUint16 (dw_Flags dw) msg 0;
  '(msg, off) ← packUint8 (dw_Protocol dw) msg off;
  '(msg, off) ← packUint8 (dw_Algorithm dw) msg off;
  '(msg, off) ← packStringBase64 (dw_PublicKey dw) msg off;
  Ok (msg, off).

(** [make([]byte, n)]. *)
Definition make_bytes (n : Z) : bytes := replicate (Z.to_nat n) x00.

(** The [wire[:n]] of a packer that starts with an empty buffer. *)
Definition packed (size : Z) (pk : bytes -> wire (bytes * Z)) : res error bytes :=
  '(wire, n) ← on_err snd (pk (make_bytes size)); index (slice wire 0 n).

Definition keywire (k : DNSKEY) : res error bytes :=
  packed DefaultMsgSize (packKeyWire {|
    dw_Flags := dk_Flags k; dw_Protocol := dk_Protocol k; dw_Algorithm := dk_Algorithm k; dw_PublicKey := dk_PublicKey k |}).

(** ** Key tags *)

(** What [base64.StdEncoding.Decode] has written when it stops, with or without
    an error. *)
Fixpoint b64_written (s : bytes) : bytes :=
  match s with
  | c0 :: c1 :: c2 :: c3 :: r =>
      match b64_val c0, b64_val c1 with
      | Some v0, Some v1 =>
          if c2 =b ch_eq then if c3 =b ch_eq then take 1 (be 3 (undigits 6 [v0; v1; 0; 0])) else []
          else match b64_val c2 with
               | Some v2 =>
                   if c3 =b ch_eq then take 2 (be 3 (undigits 6 [v0; v1; v2; 0]))
                   else match b64_val c3 with
                        | Some v3 => be 3 (undigits 6 [v0; v1; v2; v3]) ++ b64_written r
                        | None => []
                        end
               | None => []
               end
      | _, _ => []
      end
  | _ => []
  end.
Definition fromBase64_buf (s : bytes) : bytes := b64_written (filter not_newline s).

(** The loop over [wire]; [odd] is [i&1 != 0]. *)
Fixpoint keytag_sum (odd : bool) (keytag : Z) (wire : bytes) : Z :=
  match wire with
  | [] => keytag
  | v :: wire => keytag_sum (negb odd) (if odd then keytag + bval v else keytag + Z.shiftl (bval v) 8) wire
  end.

Definition KeyTag (k : DNSKEY) : res error Z :=
  if dk_Algorithm k =? RSAMD5 then
    let modulus := fromBase64_buf (dk_PublicKey k) in
    if 1 <? zlen modulus then
      w ← index (slice modulus (zlen modulus - 3) (zlen modulus));
      Ok (unbe (ztake 2 w) mod 65536)
    else Ok 0
  else
    match keywire k with
    | Ok wire =>
        let keytag := keytag_sum false 0 wire in
        let keytag := keytag + Z.land (Z.shiftr keytag 16) 0xFFFF in
        let keytag := Z.land keytag 0xFFFF in
        Ok (keytag mod 65536)
    | Err _ => Ok 0
    | Panic => Panic
    | Diverge => Diverge
    end.

(** [exponentToBuf] of an exponent that is not negative. *)
Definition exponentToBuf (_E : Z) : bytes :=
  let i := big_Bytes _E in
  (if zlen i <? 256 then [byte_of (zlen i)] else [byte_of 0; byte_of (Z.shiftr (zlen i) 8); byte_of (zlen i)]) ++ i.

Definition curveToBuf (_X _Y intlen : Z) : bytes := intToBytes _X intlen ++ intToBytes _Y intlen.

Definition set_PublicKey (p : bytes) (k : DNSKEY) : DNSKEY :=
  {| dk_Hdr := dk_Hdr k; dk_Flags := dk_Flags k; dk_Protocol := dk_Protocol k; dk_Algorithm := dk_Algorithm k; dk_PublicKey := p |}.

(** The setters of dnssec_keygen.go: the key afterwards and the result. *)
Definition setPublicKeyRSA (_E _N : option Z) (k : DNSKEY) : DNSKEY * bool :=
  match _E, _N with
  | Some _E, Some _N => (set_PublicKey (toBase64 (exponentToBuf _E ++ big_Bytes _N)) k, true)
  | _, _ => (k, false)
  end.

Definition setPublicKeyECDSA (_X _Y : option Z) (k : DNSKEY) : DNSKEY * bool :=
  match _X, _Y with
  | Some _X, Some _Y =>
      let intlen :=
        if dk_Algorithm k =? ECDSAP256SHA256 then 32 else if dk_Algorithm k =? ECDSAP384SHA384 then 48 else 0 in
      (set_PublicKey (toBase64 (curveToBuf _X _Y intlen)) k, true)
  | _, _ => (k, false)
  end.

(** ** The canonical form of a record set *)

(** The [switch x := r1.(type)]: names in the data to lowercase. *)
Definition lower_rdata (k : rrstruct) (vs : list fval) : list fval :=
  match k, vs with
  | RR_NS, [V_str Ns] => [V_str (CanonicalName Ns)]
  | RR_MD, [V_str Md] => [V_str (CanonicalName Md)]
  | RR_MF, [V_str Mf] => [V_str (CanonicalName Mf)]
  | RR_CNAME, [V_str Target] => [V_str (CanonicalName Target)]
  | RR_SOA, V_str Ns :: V_str Mbox :: vs => V_str (CanonicalName Ns) :: V_str (CanonicalName Mbox) :: vs
  | RR_MB, [V_str Mb] => [V_str (CanonicalName Mb)]
  | RR_MG, [V_str Mg] => [V_str (CanonicalName Mg)]
  | RR_MR, [V_str Mr] => [V_str (CanonicalName Mr)]
  | RR_PTR, [V_str Ptr] => [V_str (CanonicalName Ptr)]
  | RR_MINFO, [V_str Rmail; V_str Email] => [V_str (CanonicalName Rmail); V_str (CanonicalName Email)]
  | RR_MX, [p; V_str Mx] => [p; V_str (CanonicalName Mx)]
  | RR_RP, [V_str Mbox; V_str Txt] => [V_str (CanonicalName Mbox); V_str (CanonicalName Txt)]
  | RR_AFSDB, [t; V_str Hostname] => [t; V_str (CanonicalName Hostname)]
  | RR_RT, [p; V_str Host] => [p; V_str (CanonicalName Host)]
  | RR_SIG, [a; b; c; d; e; f; g; V_str SignerName; s] => [a; b; c; d; e; f; g; V_str (CanonicalName SignerName); s]
  | RR_PX, [p; V_str Map822; V_str Mapx400] => [p; V_str (CanonicalName Map822); V_str (CanonicalName Mapx400)]
  | RR_NAPTR, [o; p; f; s; r; V_str Replacement] => [o; p; f; s; r; V_str (CanonicalName Replacement)]
  | RR_KX, [p; V_str Exchanger] => [p; V_str (CanonicalName Exchanger)]
  | RR_SRV, [p; w; q; V_str Target] => [p; w; q; V_str (CanonicalName Target)]
  | RR_DNAME, [V_str Target] => [V_str (CanonicalName Target)]
  | _, _ => vs
  end.

(** The copy [r1] that is packed. *)
Definition canonical_rr (s : RRSIG) (r : RR) : res error RR :=
  let h := set_Ttl (rs_OrigTtl s) (Hdr r) in
  labels ← SplitDomainName (Name h);
  let h := if rs_Labels s <? zlen labels
           then set_Name (bs "*." ++ join_dots (zdrop (zlen labels - rs_Labels s) labels) ++ bs ".") h else h in
  let h := set_Name (CanonicalName (Name h)) h in
  Ok (MkRR h (struct r) (lower_rdata (struct r) (data r))).

(** [wire[:off]] of the copy. *)
Definition canonical_wire (s : RRSIG) (r : RR) : res error bytes :=
  r1 ← canonical_rr s r;
  '(l, _) ← rr_len r1 0 None;
  packed (l + 1) (fun wire => '(_, wire, off, _) ← PackRR r1 wire 0 None false; Ok (wire, off)).

(** [p[i][ioff+10:]] of [wireSlice.Less]. *)
Definition wire_rdata (w : bytes) : res error bytes :=
  let ioff r := match r with Ok (_, off) => Ok off | Err (off, _) => Ok off | Panic => Panic | Diverge => Diverge end : res error Z in
  off ← ioff (UnpackDomainName w 0);
  index (slice w (off + 10) (zlen w)).

(** [sort.Sort(wires)]: with fewer than two elements nothing is compared.  Records
    with the same data and different owners may come in any order from the
    library, here they come in the order given; in a record set there are none. *)
Definition sort_wires (wires : list bytes) : res error (list bytes) :=
  if zlen wires <? 2 then Ok wires else
  keyed ← mapM (fun w => k ← wire_rdata w; Ok (k, w)) wires;
  Ok (map snd (sort_by fst keyed)).

Definition rawSignatureData (rrset : list RR) (s : RRSIG) : res error bytes :=
  wires ← mapM (canonical_wire s) rrset;
  wires ← sort_wires wires;
  Ok (concat (drop_repeats None wires)).

(** ** Signing *)

Section Crypto.
Context {openssl : Openssl}.

(** The blob [sigwire] is packed to. *)
Definition sigwire (rr : RRSIG) (signerName : bytes) : res error bytes :=
  packed DefaultMsgSize (packSigWire {|
    sw_TypeCovered := rs_TypeCovered rr; sw_Algorithm := rs_Algorithm rr; sw_Labels := rs_Labels rr; sw_OrigTtl := rs_OrigTtl rr;
    sw_Expiration := rs_Expiration rr; sw_Inception := rs_Inception rr; sw_KeyTag := rs_KeyTag rr; sw_SignerName := signerName |}).

Definition one_of (l : list Z) (alg : Z) : bool := bool_decide (alg ∈ l).

Definition sign (k : PrivateKey) (h : option Digest) (data : bytes) (alg : Z) : res error bytes :=
  signature ← SignPKCS1v15 k h data;
  if one_of [RSASHA1; RSASHA1NSEC3SHA1; RSASHA256; RSASHA512; ED25519; FALCON512; P256_FALCON512; RSA3072_FALCON512;
             FALCON1024; P521_FALCON1024] alg then Ok signature
  else if one_of [ECDSAP256SHA256; ECDSAP384SHA384] alg then
    '(r, s) ← asn1_Unmarshal signature;
    let intlen := if alg =? ECDSAP256SHA256 then 32 else 48 in
    Ok (intToBytes r intlen ++ intToBytes s intlen)
  else Err ErrAlg.

Definition set_Signature (s : bytes) (rr : RRSIG) : RRSIG :=
  {| rs_Hdr := rs_Hdr rr; rs_TypeCovered := rs_TypeCovered rr; rs_Algorithm := rs_Algorithm rr; rs_Labels := rs_Labels rr;
     rs_OrigTtl := rs_OrigTtl rr; rs_Expiration := rs_Expiration rr; rs_Inception := rs_Inception rr; rs_KeyTag := rs_KeyTag rr;
     rs_SignerName := rs_SignerName rr; rs_Signature := s |}.

(** [h, _ := openssl.GetDigestByName(AlgorithmToHash[rr.Algorithm], false)]. *)
Definition digest_of (alg : Z) : option Digest := GetDigestByName (map_get AlgorithmToHash alg).

Definition signAsIs (rr : RRSIG) (k : option PrivateKey) (rrset : list RR) : res error RRSIG :=
  match k with
  | None => Err ErrPrivKey
  | Some k =>
      if (rs_KeyTag rr =? 0) || (zlen (rs_SignerName rr) =? 0) || (rs_Algorithm rr =? 0) then Err ErrKey else
      signdata ← sigwire rr (CanonicalName (rs_SignerName rr));
      wire ← rawSignatureData rrset rr;
      let h := digest_of (rs_Algorithm rr) in
      if one_of [RSAMD5; DSA; DSANSEC3SHA1] (rs_Algorithm rr) then Err ErrAlg else
      signature ← sign k h (signdata ++ wire) (rs_Algorithm rr);
      Ok (set_Signature (toBase64 signature) rr)
  end.

Definition HasPrefix (s prefix : bytes) : bool := bool_decide (ztake (zlen prefix) s = prefix).
Definition HasSuffix (s suffix : bytes) : bool := (zlen suffix <=? zlen s) && bool_decide (zdrop (zlen s - zlen suffix) s = suffix).

(** The fields [Sign] fills in from the first record. *)
Definition fill_rrsig (rr : RRSIG) (h0 : RR_Header) (labels : Z) : RRSIG :=
  {| rs_Hdr := MkHeader (Name h0) TypeRRSIG (Class_ h0) (Ttl (rs_Hdr rr)) (Rdlength (rs_Hdr rr));
     rs_TypeCovered := Rrtype h0; rs_Algorithm := rs_Algorithm rr; rs_Labels := labels;
     rs_OrigTtl := if rs_OrigTtl rr =? 0 then Ttl h0 else rs_OrigTtl rr;
     rs_Expiration := rs_Expiration rr; rs_Inception := rs_Inception rr; rs_KeyTag := rs_KeyTag rr;
     rs_SignerName := rs_SignerName rr; rs_Signature := rs_Signature rr |}.

(** The record with its signature; a call that fails leaves the fields of
    [fill_rrsig] set in the caller's record. *)
Definition Sign (rr : RRSIG) (k : option PrivateKey) (rrset : list RR) : res error RRSIG :=
  r0 ← index (head rrset);
  let h0 := Hdr r0 in
  n ← CountLabel (Name h0);
  let labels := n mod 256 in
  let labels := if HasPrefix (Name h0) (bs "*") then (labels - 1) mod 256 else labels in
  signAsIs (fill_rrsig rr h0 labels) k rrset.

(** ** Public keys *)

Definition publicKeyRSA (k : DNSKEY) : res error (option PublicKey) :=
  match fromBase64 (dk_PublicKey k) with
  | Ok keybuf =>
      if zlen keybuf <? 1 + 1 + 64 then Ok None else
      b0 ← index (zget keybuf 0);
      b1 ← index (zget keybuf 1);
      b2 ← index (zget keybuf 2);
      let '(explen, keyoff) :=
        if bval b0 =? 0 then (Z.lor (Z.shiftl (bval b1) 8) (bval b2), 3) else (bval b0, 1) in
      e0 ← index (zget keybuf keyoff);
      if (4 <? explen) || (explen =? 0) || (bval e0 =? 0) then Ok None else
      let modoff := keyoff + explen in
      let modlen := zlen keybuf - modoff in
      m0 ← (if (modlen <? 64) || (512 <? modlen) then Ok x00 else index (zget keybuf modoff));
      if (modlen <? 64) || (512 <? modlen) || (bval m0 =? 0) then Ok None else
      ebuf ← index (slice keybuf keyoff modoff);
      let expo := unbe ebuf in
      if 2 ^ 31 - 1 <? expo then Ok None else
      nbuf ← index (slice keybuf modoff (zlen keybuf));
      Ok (BuildRSAPublicKey expo (big_SetBytes nbuf))
  | Err _ => Ok None
  | Panic => Panic
  | Diverge => Diverge
  end.

Definition publicKeyECDSA (k : DNSKEY) : res error (option PublicKey) :=
  match fromBase64 (dk_PublicKey k) with
  | Ok keybuf =>
      if dk_Algorithm k =? ECDSAP256SHA256 then
        Ok (if negb (zlen keybuf =? 64) then None else BuildECDSAPublicKey keybuf "prime256v1")
      else if dk_Algorithm k =? ECDSAP384SHA384 then
        Ok (if negb (zlen keybuf =? 96) then None else BuildECDSAPublicKey keybuf "secp384r1")
      else Ok None
  | Err _ => Ok None
  | Panic => Panic
  | Diverge => Diverge
  end.

Definition publicKeyGeneric (k : DNSKEY) : res error (option PublicKey) :=
  match fromBase64 (dk_PublicKey k) with
  | Ok keybuf =>
      if dk_Algorithm k =? ED25519 then
        Ok (if negb (zlen keybuf =? 32) then None else BuildRawPublicKey keybuf (map_get AlgorithmToString (dk_Algorithm k)))
      else if one_of [FALCON512; P256_FALCON512; RSA3072_FALCON512; FALCON1024; P521_FALCON1024] (dk_Algorithm k) then
        Ok (BuildRawPublicKey keybuf (map_get AlgorithmToString (dk_Algorithm k)))
      else Ok None
  | Err _ => Ok None
  | Panic => Panic
  | Diverge => Diverge
  end.

(** ** Generating keys *)

Definition setPublicKeyGeneric (_K : option PublicKey) (k : DNSKEY) : DNSKEY * bool :=
  match _K with
  | None => (k, false)
  | Some _K => match GetRawPublicKey _K with Ok b => (set_PublicKey (toBase64 b) k, true) | _ => (k, false) end
  end.

(** The first switch of [Generate]. *)
Definition check_bits (alg bits : Z) : option error :=
  let size (bad : bool) := if bad then Some ErrKeySize else None in
  if one_of [RSASHA1; RSASHA256; RSASHA1NSEC3SHA1] alg then size ((bits <? 512) || (4096 <? bits))
  else if alg =? RSASHA512 then size ((bits <? 1024) || (4096 <? bits))
  else if alg =? ECDSAP256SHA256 then size (negb (bits =? 256))
  else if alg =? ECDSAP384SHA384 then size (negb (bits =? 384))
  else if alg =? ED25519 then size (negb (bits =? 256))
  else if alg =? FALCON512 then size (negb (bits =? 1281))
  else if alg =? P256_FALCON512 then size (negb (bits =? 1406))
  else if alg =? RSA3072_FALCON512 then size (negb (bits =? 3055))
  else if alg =? FALCON1024 then size (negb (bits =? 2305))
  else if alg =? P521_FALCON1024 then size (negb (bits =? 2532))
  else Some ErrAlg.

(** The DNSKEY afterwards and the private key. *)
Definition Generate (k : DNSKEY) (bits : Z) : res error (DNSKEY * PrivateKey) :=
  match check_bits (dk_Algorithm k) bits with
  | Some e => Err e
  | None =>
      if one_of [RSASHA1; RSASHA256; RSASHA512; RSASHA1NSEC3SHA1] (dk_Algorithm k) then
        priv ← GenerateRSAKey bits;
        '(_E, _N) ← GetParamsRSA priv;
        Ok (fst (setPublicKeyRSA _E _N k), priv)
      else if one_of [ECDSAP256SHA256; ECDSAP384SHA384] (dk_Algorithm k) then
        let c := if dk_Algorithm k =? ECDSAP256SHA256 then "prime256v1" else "secp384r1" in
        priv ← GenerateECKey c;
        '(_X, _Y) ← GetECDSAPublicKey priv;
        Ok (fst (setPublicKeyECDSA _X _Y k), priv)
      else if dk_Algorithm k =? ED25519 then
        priv ← GenerateED25519Key;
        Ok (fst (setPublicKeyGeneric (Some (as_PublicKey priv)) k), priv)
      else if one_of [FALCON512; P256_FALCON512; RSA3072_FALCON512; FALCON1024; P521_FALCON1024] (dk_Algorithm k) then
        priv ← GenerateKey (map_get AlgorithmToString (dk_Algorithm k));
        let '(k, done) := setPublicKeyGeneric (Some (as_PublicKey priv)) k in
        if negb done then Err (MkError "could not set generic public key") else Ok (k, priv)
      else Err ErrAlg
  end.

(** ** Verifying *)

(** The signature's octets, or nil. *)
Definition sigBuf (rr : RRSIG) : bytes := match fromBase64 (rs_Signature rr) with Ok b => b | _ => [] end.

(** The checks before the record set is looked at. *)
Definition check_key (rr : RRSIG) (k : DNSKEY) : res error unit :=
  tag ← KeyTag k;
  if negb (rs_KeyTag rr =? tag) then Err ErrKey else
  if negb (Class_ (rs_Hdr rr) =? Class_ (dk_Hdr k)) then Err ErrKey else
  if negb (rs_Algorithm rr =? dk_Algorithm k) then Err ErrKey else
  same ← equal (CanonicalName (rs_SignerName rr)) (Name (dk_Hdr k));
  if negb same then Err ErrKey else
  if negb (dk_Protocol k =? 3) then Err ErrKey else
  if Z.land (dk_Flags k) ZONE =? 0 then Err ErrKey else
  Ok tt.

(** The first record against the signature. *)
Definition check_rrset (rr : RRSIG) (h0 : RR_Header) : res error unit :=
  if negb (Class_ h0 =? Class_ (rs_Hdr rr)) then Err ErrRRset else
  if negb (Rrtype h0 =? rs_TypeCovered rr) then Err ErrRRset else
  n ← CountLabel (Name h0);
  if n mod 256 <? rs_Labels rr then Err ErrRRset else
  same ← equal (Name h0) (Name (rs_Hdr rr));
  if negb same then Err ErrRRset else
  if negb (HasSuffix (CanonicalName (Name h0)) (CanonicalName (rs_SignerName rr))) then Err ErrRRset else
  Ok tt.

(** A key that could be built, and the check of the signature with it. *)
Definition verify_with (pubkey : res error (option PublicKey)) (h : option Digest) (data sig : bytes) : res error unit :=
  p ← pubkey;
  match p with None => Err ErrKey | Some p => VerifyPKCS1v15 p h data sig end.

Definition Verify (rr : RRSIG) (k : DNSKEY) (rrset : list RR) : res error unit :=
  if negb (IsRRset rrset) then Err ErrRRset else
  _ ← check_key rr k;
  r0 ← index (head rrset);
  _ ← check_rrset rr (Hdr r0);
  signeddata ← sigwire rr (CanonicalName (rs_SignerName rr));
  wire ← rawSignatureData rrset rr;
  let sigbuf := sigBuf rr in
  let h := digest_of (rs_Algorithm rr) in
  if one_of [RSASHA1; RSASHA1NSEC3SHA1; RSASHA256; RSASHA512] (rs_Algorithm rr) then
    verify_with (publicKeyRSA k) h (signeddata ++ wire) sigbuf
  else if one_of [ECDSAP256SHA256; ECDSAP384SHA384] (rs_Algorithm rr) then
    p ← publicKeyECDSA k;
    match p with
    | None => Err ErrKey
    | Some p =>
        let r := big_SetBytes (ztake (zlen sigbuf / 2) sigbuf) in
        let s := big_SetBytes (zdrop (zlen sigbuf / 2) sigbuf) in
        VerifyPKCS1v15 p h (signeddata ++ wire) (asn1_Marshal r s)
    end
  else if one_of [ED25519; FALCON512; P256_FALCON512; RSA3072_FALCON512; FALCON1024; P521_FALCON1024] (rs_Algorithm rr) then
    verify_with (publicKeyGeneric k) h (signeddata ++ wire) sigbuf
  else Err ErrAlg.

(** ** Digests of keys *)

(** The owner name in canonical form, on the wire. *)
Definition owner_wire (name : bytes) : res error bytes :=
  packed 255 (fun owner => '(owner, off, _) ← PackDomainName (CanonicalName name) owner 0 None false; Ok (owner, off)).

(** [nil] is returned where packing fails or there is no such digest. *)
Definition digest_job (h : Z) : option DigestJob :=
  if h =? SHA1 then Some NewSHA1Hash
  else if h =? SHA256 then Some NewSHA256Hash
  else if h =? SHA384 then match GetDigestByName "sha384" with Some d => Some (NewDigestJob d) | None => None end
  else if h =? SHA512 then match GetDigestByName "sha512" with Some d => Some (NewDigestJob d) | None => None end
  else None.

(** A call whose error gives a nil result. *)
Definition or_nil {A B} (r : res error A) (f : A -> res error (option B)) : res error (option B) :=
  match r with Ok a => f a | Err _ => Ok None | Panic => Panic | Diverge => Diverge end.

Definition ToDS (k : DNSKEY) (h : Z) : res error (option DS) :=
  tag ← KeyTag k;
  or_nil (keywire k) (fun wire =>
  or_nil (owner_wire (Name (dk_Hdr k))) (fun owner =>
  match digest_job h with
  | None => Ok None
  | Some job =>
      let digest := DigestJob_Sum (DigestJob_Write (DigestJob_Write job owner) wire) in
      Ok (Some {| ds_Hdr := MkHeader (Name (dk_Hdr k)) TypeDS (Class_ (dk_Hdr k)) (Ttl (dk_Hdr k)) 0;
                  ds_KeyTag := tag; ds_Algorithm := dk_Algorithm k; ds_DigestType := h; ds_Digest := hex_EncodeToString digest |})
  end)).
End Crypto.

Definition set_Rrtype (t : Z) (h : RR_Header) : RR_Header := MkHeader (Name h) t (Class_ h) (Ttl h) (Rdlength h).

Definition ToCDNSKEY (k : DNSKEY) : DNSKEY :=
  {| dk_Hdr := set_Rrtype TypeCDNSKEY (dk_Hdr k); dk_Flags := dk_Flags k; dk_Protocol := dk_Protocol k;
     dk_Algorithm := dk_Algorithm k; dk_PublicKey := dk_PublicKey k |}.
Definition ToCDS (d : DS) : DS :=
  {| ds_Hdr := set_Rrtype TypeCDS (ds_Hdr d); ds_KeyTag := ds_KeyTag d; ds_Algorithm := ds_Algorithm d;
     ds_DigestType := ds_DigestType d; ds_Digest := ds_Digest d |}.

(** ** Validity *)

(** [utc] is the time in seconds; [/] rounds towards zero. *)
Definition ValidityPeriod (rr : RRSIG) (utc : Z) : bool :=
  let modi := Z.quot (rs_Inception rr - utc) year68 in
  let mode := Z.quot (rs_Expiration rr - utc) year68 in
  let ti := rs_Inception rr + modi * year68 in
  let te := rs_Expiration rr + mode * year68 in
  (ti <=? utc) && (utc <=? te).
