(* ===== verification/DnssecCarry.v ===== *)
(** * Record sets that are signed and verified

    What [rawSignatureData] gives depends only on which canonical records the
    set holds, and determines them; [Verify] accepts what [Sign] made; key tags,
    key encodings and the validity period. *)

From stdpp Require Import sorting.
From S2P Require Import Prelude Go Utf8 Labels Escape Names NameDecode NameEncode NameLen Wire Codec NameCarry Text Nsec Encodings Apl Edns Svcb RData RDataCarry RR RRCarry Build Lengths Tsig Safety Zpack Order Der Dnssec.

(** ** The wire form of a canonical record *)

Definition record_wire (ls : list bytes) (h : RR_Header) (rd : bytes) : bytes :=
  wire_name ls ++ header_tail h (zlen rd) ++ rd.

(** A name has one list of labels. *)
Lemma good_show_inj l1 l2 : good_labels l1 -> good_labels l2 -> show_name l1 = show_name l2 -> l1 = l2.
Proof.
  intros G1 G2 E. assert (forall l, good_labels l -> parse_name (show_name l) = Some l) as Hp.
  { intros l (Hl & _). apply parse_show_name. eapply Forall_impl; [exact Hl|]. intros [|]; [zlia|done]. }
  pose proof (Hp l1 G1) as E1. rewrite E, (Hp l2 G2) in E1. congruence.
Qed.

(** The wire form of some record. *)
Definition shaped (w : bytes) : Prop :=
  exists ls h rd, good_labels ls /\ zlen rd < 65536 /\ w = record_wire ls h rd.

Lemma everywhere_header h ls : good_labels ls -> Name h = show_name ls ->
  forall L, zlen (wire_name ls) + 10 <= L ->
  puts (packHeader h false) 0 nil_map L (wire_name ls ++ header_tail h 0) nil_map.
Proof.
  intros Hls Hname L HL. pose proof (zlen_wire_name ls). pose proof (wire_len_nonneg ls).
  pose proof (puts_seq (fun msg off cm => packDomainName (show_name ls) msg off cm false)
      (plain (fun msg off => '(msg, off) ← packUint16 (Rrtype h) msg off; '(msg, off) ← packUint16 (Class_ h) msg off;
                             '(msg, off) ← packUint32 (Ttl h) msg off; packUint16 0 msg off)) 0 nil_map L _ _ nil_map nil_map
      (everywhere_name ls (proj1 Hls) 0 L ltac:(lia) ltac:(lia))
      (everywhere_fixed _ _ (fixed_header_tail h) (0 + zlen (wire_name ls)) L ltac:(lia) ltac:(rewrite header_tail_length; lia))) as Hp.
  eapply puts_ext; [|apply puts_at_len, Hp]. intros msg Hm. rewrite packHeader_eq by lia. by rewrite Hname.
Qed.

Lemma rr_packer_wire rr ls L : rr_ok rr -> Name (Hdr rr) = show_name ls -> good_labels ls -> rr_size rr < L ->
  exists rd, zlen rd < 65536 /\ puts (rr_packer rr false) 0 nil_map L (record_wire ls (Hdr rr) rd) nil_map /\
    zlen (record_wire ls (Hdr rr) rd) <= rr_size rr.
Proof.
  intros Hok Hname Hls HL. pose proof Hok as (Hh & Hk & Hd & Hmax). unfold rr_size in *.
  rewrite (rr_len_ok rr ls) in * by done. pose proof (zlen_wire_name ls) as Hw. pose proof (wire_len_nonneg ls).
  destruct (carries_rdata (struct rr) (data rr) false Hd) as (_ & Hd0 & Hcar).
  destruct (Hcar (zlen (wire_name ls) + 10) nil_map L) as [[Hlt _]|(rd & cm2 & Hrd & Hfit & Hp2 & Hv2 & _)]; [lia|lia|].
  rewrite (Hv2 eq_refl) in Hp2. pose proof (zlen_nonneg rd). exists rd. split; [lia|]. split.
  - unfold record_wire. rewrite app_assoc. eapply (packRR_puts rr false 0 nil_map L (wire_name ls) nil_map rd nil_map).
    + lia.
    + rewrite zlen_app, header_tail_length. lia.
    + lia.
    + apply everywhere_header; [done..|lia].
    + rewrite zlen_app, header_tail_length. exact Hp2.
  - unfold record_wire. rewrite !zlen_app, header_tail_length. lia.
Qed.

Lemma packed_ok n pk w m : n = zlen (make_bytes n) -> pk (make_bytes n) = Ok (m, zlen w) -> zlen w <= zlen m ->
  ztake (zlen w) m = w -> packed n pk = Ok w.
Proof.
  intros _ E Hle Ht. unfold packed. rewrite E. cbn [on_err]. gosimp. pose proof (zlen_nonneg w).
  rewrite slice_Some by lia. rewrite Z.sub_0_r. change (zdrop 0 m) with m. by rewrite Ht.
Qed.

Lemma zlen_make n : 0 <= n -> zlen (make_bytes n) = n.
Proof. intros. unfold make_bytes, zlen. rewrite length_replicate. lia. Qed.

(** A record whose canonical form can be packed. *)
Definition canonical (s : RRSIG) (r r1 : RR) : Prop := canonical_rr s r = Ok r1 /\ rr_ok r1.

Lemma canonical_wire_shape s r r1 : canonical s r r1 ->
  exists ls rd, good_labels ls /\ Name (Hdr r1) = show_name ls /\ zlen rd < 65536 /\
    canonical_wire s r = Ok (record_wire ls (Hdr r1) rd).
Proof.
  intros [Hc Hok]. pose proof Hok as (((ls & Hls & Hname) & _) & _). pose proof (rr_size_nonneg r1 Hok) as H0.
  destruct (rr_packer_wire r1 ls (rr_size r1 + 1) Hok Hname Hls ltac:(lia)) as (rd & Hrd & Hp & Hle).
  exists ls, rd. split_and!; [done..|]. unfold canonical_wire. rewrite Hc. gosimp.
  assert (rr_len r1 0 None = Ok (rr_size r1, None)) as -> by (unfold rr_size; by rewrite (rr_len_ok r1 ls)). gosimp.
  set (w := record_wire ls (Hdr r1) rd) in *.
  destruct (Hp (make_bytes (rr_size r1 + 1))) as (m & E & Hm & Ht); [apply zlen_make; lia|].
  apply (packed_ok _ _ w m); [symmetry; apply zlen_make; lia| |lia|exact Ht].
  unfold PackRR. change {| ext := None; int_ := None |} with nil_map. unfold rr_packer in E.
  destruct (packRR r1 _ 0 nil_map false) as [[[[m2 he] o2] cm2]|?| |]; cbn [mbind res_bind] in E |- *; [|done..].
  injection E as -> -> _. by rewrite Z.add_0_l.
Qed.

(** The length of the data is written by [packRR]; the field of the header plays no part. *)
Lemma canonical_wire_ext s r r' r1 r1' : canonical_rr s r = Ok r1 -> canonical_rr s r' = Ok r1' ->
  set_Hdr (set_Rdlength 0) r1 = set_Hdr (set_Rdlength 0) r1' -> canonical_wire s r = canonical_wire s r'.
Proof.
  intros E E' H. unfold canonical_wire. rewrite E, E'. gosimp. destruct r1 as [[] ? ?], r1' as [[] ? ?].
  unfold set_Hdr, set_Rdlength in H. cbn in H. simplify_eq. reflexivity.
Qed.

(** ** The wire form tells where it ends *)

Lemma Unpack_wire_name ls suf : good_labels ls ->
  UnpackDomainName (wire_name ls ++ suf) 0 = Ok (show_name ls, zlen (wire_name ls)).
Proof.
  intros (H1 & H2 & H3). apply UnpackDomainName_iff; [lia|]. exists ls, 0. split_and!; [|done|by vm_compute|done].
  apply name_at_mono. rewrite zlen_wire_name. apply (name_at_wire_name [] ls H1).
Qed.

Lemma zlen_record_wire ls h rd : zlen (record_wire ls h rd) = zlen (wire_name ls) + 10 + zlen rd.
Proof. unfold record_wire. rewrite !zlen_app, header_tail_length. lia. Qed.

Lemma wire_rdata_record ls h rd : good_labels ls -> wire_rdata (record_wire ls h rd) = Ok rd.
Proof.
  intros Hls. unfold wire_rdata. rewrite zlen_record_wire.
  assert (UnpackDomainName (record_wire ls h rd) 0 = Ok (show_name ls, zlen (wire_name ls))) as -> by (by apply Unpack_wire_name). gosimp.
  rewrite <- (header_tail_length h (zlen rd)), <- zlen_app. unfold record_wire. rewrite app_assoc.
  pose proof (slice_mid (wire_name ls ++ header_tail h (zlen rd)) rd [] (zlen (wire_name ls ++ header_tail h (zlen rd)))
    (zlen (wire_name ls ++ header_tail h (zlen rd)) + zlen rd) eq_refl eq_refl) as Hs.
  rewrite app_nil_r in Hs. rewrite Hs. done.
Qed.

Lemma be2_inj a b : 0 <= a < 65536 -> 0 <= b < 65536 -> be 2 a = be 2 b -> a = b.
Proof. intros Ha Hb E. rewrite <- (unbe_be 2 a), <- (unbe_be 2 b), E; [done|done|done]. Qed.

Lemma shaped_prefix w1 w2 x y : shaped w1 -> shaped w2 -> w1 ++ x = w2 ++ y -> w1 = w2 /\ x = y.
Proof.
  intros (l1 & h1 & r1 & G1 & R1 & ->) (l2 & h2 & r2 & G2 & R2 & ->) E. unfold record_wire, header_tail in *.
  assert (zlen (wire_name l1) = zlen (wire_name l2)) as Hn.
  { pose proof (Unpack_wire_name l1 ((header_tail h1 (zlen r1) ++ r1) ++ x) G1) as U1.
    pose proof (Unpack_wire_name l2 ((header_tail h2 (zlen r2) ++ r2) ++ y) G2) as U2.
    unfold header_tail in U1, U2. rewrite app_assoc in U1, U2. rewrite E in U1. rewrite U1 in U2. by injection U2. }
  rewrite <- !app_assoc in E. apply app_inj_1 in E as [E0 E]; [|unfold zlen in Hn; lia].
  assert (forall n v, length (be n v) = n) as Hbe.
  { intros n v. pose proof (be_length n v) as H. unfold zlen in H. lia. }
  do 4 (apply app_inj_1 in E as [? E]; [|by rewrite !Hbe]).
  assert (zlen r1 = zlen r2) as Hr by (apply be2_inj; [pose proof (zlen_nonneg r1); lia|pose proof (zlen_nonneg r2); lia|done]).
  apply app_inj_1 in E as [-> ->]; [|unfold zlen in Hr; lia]. split; [congruence|done].
Qed.

Lemma shaped_nonempty w : shaped w -> w <> [].
Proof.
  intros (ls & h & rd & _ & _ & ->) E. apply (f_equal zlen) in E. rewrite zlen_record_wire in E.
  pose proof (zlen_nonneg rd). pose proof (zlen_nonneg (wire_name ls)). change (zlen []) with 0 in E. lia.
Qed.

(** Lists of wire forms are told apart by what they are together. *)
Lemma concat_shaped_inj l1 l2 : Forall shaped l1 -> Forall shaped l2 -> concat l1 = concat l2 -> l1 = l2.
Proof.
  intros H1. revert l2. induction H1 as [|w1 l1 S1 H1 IH]; intros l2 H2 E; destruct H2 as [|w2 l2 S2 H2]; cbn [concat] in E.
  - done.
  - symmetry in E. by apply app_nil in E as [E%shaped_nonempty _].
  - by apply app_nil in E as [E%shaped_nonempty _].
  - apply shaped_prefix in E as [-> E]; [|done..]. f_equal. by apply IH.
Qed.

(** ** Sorting *)

Definition rdata_key (w : bytes) : bytes := match wire_rdata w with Ok k => k | _ => [] end.

Lemma shaped_key w : shaped w -> wire_rdata w = Ok (rdata_key w).
Proof. intros (ls & h & rd & G & _ & ->). unfold rdata_key. by rewrite wire_rdata_record. Qed.

Lemma mapM_Ok {A B} (f : A -> res error B) (g : A -> B) l : Forall (fun x => f x = Ok (g x)) l -> mapM f l = Ok (map g l).
Proof. induction 1 as [|x l Hx Hl IH]; [done|]. cbn. rewrite Hx. cbn. rewrite IH. done. Qed.

Lemma sorted_map_snd (l : list (bytes * bytes)) : StronglySorted (by_bytes fst) l ->
  Forall (fun p => p.1 = rdata_key p.2) l -> StronglySorted (by_bytes rdata_key) (map snd l).
Proof.
  induction 1 as [|p l Hl IH Hp]; intros Hf; [constructor|]. apply Forall_cons in Hf as [Hf1 Hf2]. constructor; [by apply IH|].
  apply Forall_map. rewrite Forall_forall in *. intros q Hq. unfold by_bytes in *. cbn. rewrite <- Hf1, <- (Hf2 q Hq). by apply Hp.
Qed.

Lemma sort_wires_ok wires : Forall shaped wires ->
  exists l, sort_wires wires = Ok l /\ l ≡ₚ wires /\ StronglySorted (by_bytes rdata_key) l.
Proof.
  intros Hs. unfold sort_wires. destruct (Z.ltb_spec (zlen wires) 2) as [Hl|Hl].
  - exists wires. split_and!; [done|done|]. destruct wires as [|w [|w' wires]]; [constructor|repeat constructor|].
    rewrite !zlen_cons in Hl. pose proof (zlen_nonneg wires). lia.
  - rewrite (mapM_Ok _ (fun w => (rdata_key w, w))).
    2: { eapply Forall_impl; [exact Hs|]. intros w Hw. by rewrite shaped_key. }
    gosimp. eexists. split; [done|]. set (keyed := map (fun w => (rdata_key w, w)) wires). split.
    + rewrite (sort_by_perm fst keyed). unfold keyed. rewrite map_map. by rewrite map_id.
    + apply sorted_map_snd; [apply sort_by_sorted|]. rewrite (sort_by_perm fst keyed). unfold keyed. apply Forall_map, Forall_true. done.
Qed.

(** ** Sets of records that are signed together *)

(** The canonical records of a set share one header, up to the length of the data. *)
Definition record_set (s : RRSIG) (rrset : list RR) : Prop :=
  exists h, Forall (fun r => exists r1, canonical s r r1 /\ set_Rdlength 0 (Hdr r1) = h) rrset.

(** The wire form of a record of the set. *)
Definition canonical_form (s : RRSIG) (r : RR) : bytes := match canonical_wire s r with Ok w => w | _ => [] end.

Lemma record_set_forms s rrset : record_set s rrset ->
  exists ls h, good_labels ls /\ Forall (fun r => exists rd, zlen rd < 65536 /\
    canonical_wire s r = Ok (canonical_form s r) /\ canonical_form s r = record_wire ls h rd) rrset.
Proof.
  intros [h H]. destruct H as [|r rrset (r1 & Hc & Hh) H].
  { exists [], h. split; [|constructor]. split; [constructor|]. by vm_compute. }
  destruct (canonical_wire_shape s r r1 Hc) as (ls & rd & Hls & Hname & Hrd & Hw). exists ls, h. split; [done|].
  assert (forall h' n, set_Rdlength 0 h' = h -> header_tail h n = header_tail h' n) as Htail by (by intros h' n <-).
  constructor; [|eapply Forall_impl; [exact H|]].
  - exists rd. unfold canonical_form. rewrite Hw. split_and!; [done..|]. unfold record_wire. by rewrite (Htail _ _ Hh).
  - intros r' (r1' & Hc' & Hh'). destruct (canonical_wire_shape s r' r1' Hc') as (ls' & rd' & Hls' & Hname' & Hrd' & Hw').
    exists rd'. unfold canonical_form. rewrite Hw'. split_and!; [done..|].
    assert (show_name ls' = show_name ls) as Hsn.
    { rewrite <- Hname, <- Hname'. transitivity (Name h); [by rewrite <- Hh'|by rewrite <- Hh]. }
    assert (ls' = ls) as -> by (by apply good_show_inj).
    unfold record_wire. by rewrite (Htail _ _ Hh').
Qed.

Lemma raw_forms s rrset : record_set s rrset ->
  exists l, rawSignatureData rrset s = Ok (concat (drop_repeats None l)) /\ l ≡ₚ map (canonical_form s) rrset /\
    StronglySorted (by_bytes rdata_key) l /\ Forall shaped l /\
    (forall x y, x ∈ l -> y ∈ l -> rdata_key x = rdata_key y -> x = y).
Proof.
  intros H. destruct (record_set_forms s rrset H) as (ls & h & Hls & Hf). clear H.
  assert (Forall (fun w => exists rd, zlen rd < 65536 /\ w = record_wire ls h rd) (map (canonical_form s) rrset)) as Hw.
  { apply Forall_map. eapply Forall_impl; [exact Hf|]. cbn. intros r (rd & ? & _ & ?). by exists rd. }
  destruct (sort_wires_ok (map (canonical_form s) rrset)) as (l & E & P & S).
  { eapply Forall_impl; [exact Hw|]. intros w (rd & ? & ->). by exists ls, h, rd. }
  exists l. split_and!; [|done|done| |].
  - unfold rawSignatureData. rewrite (mapM_Ok _ (canonical_form s)).
    + gosimp. rewrite E. gosimp. done.
    + eapply Forall_impl; [exact Hf|]. cbn. by intros r (rd & _ & ? & _).
  - rewrite P. eapply Forall_impl; [exact Hw|]. intros w (rd & ? & ->). by exists ls, h, rd.
  - rewrite <- P in Hw. rewrite Forall_forall in Hw. intros x y Hx Hy.
    destruct (Hw x Hx) as (r1 & _ & ->), (Hw y Hy) as (r2 & _ & ->). unfold rdata_key.
    rewrite !wire_rdata_record by done. by intros ->.
Qed.

Lemma raw_same s rrset1 rrset2 : record_set s rrset1 -> record_set s rrset2 ->
  (forall w, w ∈ map (canonical_form s) rrset1 <-> w ∈ map (canonical_form s) rrset2) ->
  rawSignatureData rrset1 s = rawSignatureData rrset2 s.
Proof.
  intros H1 H2 Hs. destruct (raw_forms s rrset1 H1) as (l1 & -> & P1 & S1 & _ & K1), (raw_forms s rrset2 H2) as (l2 & -> & P2 & S2 & _ & _).
  do 2 f_equal. apply (sorted_dedup_unique rdata_key); [done..|]. intros x. by rewrite P1, P2.
Qed.

(** ** The data that is signed *)

(** The ranges of the fields and a signer's name that can be packed. *)
Definition rrsig_ok (rr : RRSIG) : Prop :=
  u16 (rs_TypeCovered rr) /\ u8 (rs_Algorithm rr) /\ u8 (rs_Labels rr) /\ u32 (rs_OrigTtl rr) /\ u32 (rs_Expiration rr) /\
  u32 (rs_Inception rr) /\ u16 (rs_KeyTag rr) /\ good_name (rs_SignerName rr).

Definition rrsig_fixed (rr : RRSIG) : bytes :=
  be 2 (rs_TypeCovered rr) ++ be 1 (rs_Algorithm rr) ++ be 1 (rs_Labels rr) ++ be 4 (rs_OrigTtl rr) ++
  be 4 (rs_Expiration rr) ++ be 4 (rs_Inception rr) ++ be 2 (rs_KeyTag rr).

Lemma sigwire_ok rr ls : good_labels ls -> sigwire rr (show_name ls) = Ok (rrsig_fixed rr ++ wire_name ls).
Proof.
  intros Hls. unfold sigwire. set (w := rrsig_fixed rr ++ wire_name ls).
  assert (zlen w <= 4096) as Hw.
  { unfold w, rrsig_fixed. rewrite !zlen_app, !be_length. pose proof (good_labels_size ls Hls). lia. }
  set (fixed_part := fun msg off =>
    '(msg, off) ← packUint16 (rs_TypeCovered rr) msg off; '(msg, off) ← packUint8 (rs_Algorithm rr) msg off;
    '(msg, off) ← packUint8 (rs_Labels rr) msg off; '(msg, off) ← packUint32 (rs_OrigTtl rr) msg off;
    '(msg, off) ← packUint32 (rs_Expiration rr) msg off; '(msg, off) ← packUint32 (rs_Inception rr) msg off;
    packUint16 (rs_KeyTag rr) msg off : wire (bytes * Z)).
  assert (fixed fixed_part (rrsig_fixed rr)) as Hf.
  { unfold fixed_part, rrsig_fixed. repeat first [apply fixed_uint8 | apply fixed_uint16 | apply fixed_uint32 |
      apply (fixed_seq _ (fun msg off => _)); [apply fixed_uint8 || apply fixed_uint16 || apply fixed_uint32|]]. }
  pose proof (everywhere_seq (plain fixed_part) (fun msg off cm => packDomainName (show_name ls) msg off cm false) _ _
    (everywhere_fixed _ _ Hf) (everywhere_name ls (proj1 Hls))) as He.
  destruct (He 0 4096 ltac:(lia) ltac:(fold w; lia) (make_bytes DefaultMsgSize)) as (m & E & Hm & Ht); [apply zlen_make; done|].
  fold w in E, Ht. apply (packed_ok DefaultMsgSize _ w m); [symmetry; apply zlen_make; done| |lia|exact Ht].
  unfold packSigWire, PackDomainName. cbn [sw_TypeCovered sw_Algorithm sw_Labels sw_OrigTtl sw_Expiration sw_Inception sw_KeyTag sw_SignerName].
  change {| ext := None; int_ := None |} with nil_map. unfold plain, fixed_part in E.
  repeat match goal with |- context [mbind _ ?r] => match r with
    | packUint8 _ _ _ => idtac | packUint16 _ _ _ => idtac | packUint32 _ _ _ => idtac end;
    destruct r as [[? ?]|?| |]; cbn [mbind res_bind] in E |- *; [|done..] end.
  destruct (packDomainName (show_name ls) _ _ _ _) as [[[? ?] ?]|?| |]; cbn [mbind res_bind] in E |- *; [|done..].
  injection E as -> -> _. by rewrite Z.add_0_l.
Qed.

(** What [Sign] and [Verify] hand to the cryptography. *)
Definition signed_data (rr : RRSIG) (rrset : list RR) : res error bytes :=
  signdata ← sigwire rr (CanonicalName (rs_SignerName rr)); wire ← rawSignatureData rrset rr; Ok (signdata ++ wire).

Lemma be_inj n a b : 0 <= a < 256 ^ Z.of_nat n -> 0 <= b < 256 ^ Z.of_nat n -> be n a = be n b -> a = b.
Proof. intros Ha Hb E. by rewrite <- (unbe_be n a Ha), <- (unbe_be n b Hb), E. Qed.

Lemma app_be n a b x y : 0 <= a < 256 ^ Z.of_nat n -> 0 <= b < 256 ^ Z.of_nat n -> be n a ++ x = be n b ++ y -> a = b /\ x = y.
Proof.
  intros Ha Hb E. apply app_inj_1 in E as [E ->].
  - split; [by eapply be_inj|done].
  - pose proof (be_length n a) as L1. pose proof (be_length n b) as L2. unfold zlen in *. lia.
Qed.

Lemma wire_name_prefix l1 l2 x y : good_labels l1 -> good_labels l2 -> wire_name l1 ++ x = wire_name l2 ++ y ->
  show_name l1 = show_name l2 /\ x = y.
Proof.
  intros G1 G2 E. pose proof (Unpack_wire_name l1 x G1) as U1. pose proof (Unpack_wire_name l2 y G2) as U2.
  rewrite E, U2 in U1. injection U1 as Hs Hl. split; [done|]. apply app_inj_1 in E as [_ ->]; [done|]. unfold zlen in Hl. lia.
Qed.

(** C12: the data that is signed binds the signature's fields and the records: when two
    record sets have canonical forms that can be packed, [rawSignatureData] gives
    the same octets for both exactly if they hold the same canonical records,
    whatever their order and however often a record is repeated; and the same
    signed data means the same fields of the RRSIG, the same signer and the same
    canonical records. *)
Theorem signed_data_binds rr1 rr2 set1 set2 :
  rrsig_ok rr1 -> rrsig_ok rr2 -> record_set rr1 set1 -> record_set rr2 set2 ->
  (exists d, signed_data rr1 set1 = Ok d) /\
  (signed_data rr1 set1 = signed_data rr2 set2 <->
   rrsig_fixed rr1 = rrsig_fixed rr2 /\ CanonicalName (rs_SignerName rr1) = CanonicalName (rs_SignerName rr2) /\
   rs_TypeCovered rr1 = rs_TypeCovered rr2 /\ rs_OrigTtl rr1 = rs_OrigTtl rr2 /\ rs_Labels rr1 = rs_Labels rr2 /\
   forall w, w ∈ map (canonical_form rr1) set1 <-> w ∈ map (canonical_form rr2) set2).
Proof.
  intros O1 O2 R1 R2. pose proof O1 as (A1 & A2 & A3 & A4 & A5 & A6 & A7 & l1 & G1 & N1).
  pose proof O2 as (B1 & B2 & B3 & B4 & B5 & B6 & B7 & l2 & G2 & N2). unfold signed_data. rewrite N1, N2, !CanonicalName_show.
  rewrite !sigwire_ok by (by apply good_lowered). gosimp.
  destruct (raw_forms rr1 set1 R1) as (w1 & E1 & P1 & S1 & F1 & K1), (raw_forms rr2 set2 R2) as (w2 & E2 & P2 & S2 & F2 & K2).
  rewrite E1, E2. gosimp. split; [by eexists|].
  assert (forall (l : list bytes) x, x ∈ drop_repeats None l <-> x ∈ l) as Hd by (intros l x; pose proof (drop_repeats_elem None l x); intuition congruence).
  split.
  - intros E%Ok_inj. unfold rrsig_fixed in *. rewrite <- !app_assoc in E.
    apply app_be in E as [T1 E]; [|done..]. apply app_be in E as [T2 E]; [|done..]. apply app_be in E as [T3 E]; [|done..].
    apply app_be in E as [T4 E]; [|done..]. apply app_be in E as [T5 E]; [|done..]. apply app_be in E as [T6 E]; [|done..].
    apply app_be in E as [T7 E]; [|done..]. apply wire_name_prefix in E as [Hs E]; [|by apply good_lowered..].
    apply concat_shaped_inj in E.
    + split_and!; [congruence|done..|]. intros w. by rewrite <- P1, <- P2, <- (Hd w1), E, Hd.
    + apply Forall_forall. intros x Hx. apply (Hd w1 x) in Hx. rewrite Forall_forall in F1. by apply F1.
    + apply Forall_forall. intros x Hx. apply (Hd w2 x) in Hx. rewrite Forall_forall in F2. by apply F2.
  - intros (Hf & Hs & _ & _ & _ & Hw).
    assert (lowered l1 = lowered l2) as -> by (apply good_show_inj; [by apply good_lowered..|done]).
    assert (drop_repeats None w1 = drop_repeats None w2) as ->; [|by rewrite Hf].
    apply (sorted_dedup_unique rdata_key); [done..|]. intros x. rewrite P1, P2. apply Hw.
Qed.

(** ** Verify after Sign *)

Section Crypto.
Context {openssl : Openssl}.

Definition rsa_algs : list Z := [RSASHA1; RSASHA1NSEC3SHA1; RSASHA256; RSASHA512].
Definition ecdsa_algs : list Z := [ECDSAP256SHA256; ECDSAP384SHA384].
Definition raw_algs : list Z := [ED25519; FALCON512; P256_FALCON512; RSA3072_FALCON512; FALCON1024; P521_FALCON1024].

(** The key [Verify] builds, and the form in which it hands over a signature. *)
Definition public_key (k : DNSKEY) : res error (option PublicKey) :=
  if one_of rsa_algs (dk_Algorithm k) then publicKeyRSA k
  else if one_of ecdsa_algs (dk_Algorithm k) then publicKeyECDSA k
  else publicKeyGeneric k.

Definition wire_signature (alg : Z) (sigbuf : bytes) : bytes :=
  if one_of ecdsa_algs alg
  then asn1_Marshal (big_SetBytes (ztake (zlen sigbuf / 2) sigbuf)) (big_SetBytes (zdrop (zlen sigbuf / 2) sigbuf))
  else sigbuf.

(** The public key of a DNSKEY accepts what the private key signs; an ECDSA
    signature is the DER form of two numbers of the size of the curve. *)
Definition key_pair (priv : PrivateKey) (k : DNSKEY) : Prop :=
  exists pub, public_key k = Ok (Some pub) /\
  forall h data sig, SignPKCS1v15 priv h data = Ok sig ->
    VerifyPKCS1v15 pub h data sig = Ok tt /\
    (dk_Algorithm k ∈ ecdsa_algs -> exists r s, sig = asn1_Marshal r s /\
       let n := if dk_Algorithm k =? ECDSAP256SHA256 then 32%nat else 48%nat in
       0 <= r < 256 ^ Z.of_nat n /\ 0 <= s < 256 ^ Z.of_nat n).

Lemma one_of_cons x l a : one_of (x :: l) a = (a =? x) || one_of l a.
Proof. unfold one_of. destruct (Z.eqb_spec a x) as [->|]; [|destruct (bool_decide (a ∈ l)) eqn:E];
  cbn [orb]; [rewrite bool_decide_true; [done|left]|..].
  - rewrite bool_decide_true; [done|]. right. by apply bool_decide_eq_true in E.
  - rewrite bool_decide_false; [done|]. apply bool_decide_eq_false in E. by intros [->|?]%elem_of_cons.
Qed.

(** [Verify] in one piece: the checks, and the signature over [signed_data]. *)
Lemma Verify_eq rr k r0 rrset data :
  IsRRset (r0 :: rrset) = true -> check_key rr k = Ok tt -> check_rrset rr (Hdr r0) = Ok tt -> signed_data rr (r0 :: rrset) = Ok data ->
  rs_Algorithm rr = dk_Algorithm k ->
  Verify rr k (r0 :: rrset) =
    if one_of (rsa_algs ++ ecdsa_algs ++ raw_algs) (rs_Algorithm rr)
    then verify_with (public_key k) (digest_of (rs_Algorithm rr)) data (wire_signature (rs_Algorithm rr) (sigBuf rr))
    else Err ErrAlg.
Proof.
  intros H1 H2 H3 H4 Ha. unfold Verify. rewrite H1, H2. cbn [negb]. gosimp. cbn [head index]. gosimp. rewrite H3. gosimp.
  unfold signed_data in H4. destruct (sigwire rr _) as [sd|?| |]; [|done..]. cbn [mbind res_bind] in H4. gosimp.
  destruct (rawSignatureData _ rr) as [w|?| |]; [|done..]. cbn [mbind res_bind] in H4. injection H4 as <-. gosimp.
  unfold public_key, wire_signature. rewrite <- Ha. fold rsa_algs ecdsa_algs raw_algs.
  assert (one_of (rsa_algs ++ ecdsa_algs ++ raw_algs) (rs_Algorithm rr) =
    one_of rsa_algs (rs_Algorithm rr) || one_of ecdsa_algs (rs_Algorithm rr) || one_of raw_algs (rs_Algorithm rr)) as ->.
  { unfold rsa_algs, ecdsa_algs, raw_algs. cbn [app]. rewrite !one_of_cons. change (one_of [] (rs_Algorithm rr)) with false.
    rewrite !orb_false_r, !orb_assoc. done. }
  destruct (one_of rsa_algs (rs_Algorithm rr)) eqn:Er; cbn [orb].
  - assert (one_of ecdsa_algs (rs_Algorithm rr) = false) as ->; [|done].
    unfold one_of in Er. apply bool_decide_eq_true in Er. unfold rsa_algs in Er. rewrite !elem_of_cons, elem_of_nil in Er.
    destruct Er as [->|[->|[->|[->|[]]]]]; reflexivity.
  - destruct (one_of ecdsa_algs (rs_Algorithm rr)); cbn [orb]; [done|].
    by destruct (one_of raw_algs (rs_Algorithm rr)).
Qed.

Lemma equal_true a b : equal a b = Ok true -> map lower a = map lower b.
Proof. rewrite equal_spec. intros [= E]. by apply bool_decide_eq_true in E. Qed.

Lemma check_key_inv rr k : check_key rr k = Ok tt ->
  KeyTag k = Ok (rs_KeyTag rr) /\ Class_ (rs_Hdr rr) = Class_ (dk_Hdr k) /\ rs_Algorithm rr = dk_Algorithm k /\
  map lower (CanonicalName (rs_SignerName rr)) = map lower (Name (dk_Hdr k)) /\ dk_Protocol k = 3 /\ Z.land (dk_Flags k) ZONE <> 0.
Proof.
  unfold check_key. intros H. inv_bind H.
  destruct (Z.eqb_spec (rs_KeyTag rr) a) as [->|]; cbn [negb] in H; [|done].
  destruct (Z.eqb_spec (Class_ (rs_Hdr rr)) (Class_ (dk_Hdr k))); cbn [negb] in H; [|done].
  destruct (Z.eqb_spec (rs_Algorithm rr) (dk_Algorithm k)); cbn [negb] in H; [|done].
  inv_bind H. destruct a0; cbn [negb] in H; [|done]. apply equal_true in Ha0.
  destruct (Z.eqb_spec (dk_Protocol k) 3); cbn [negb] in H; [|done].
  destruct (Z.eqb_spec (Z.land (dk_Flags k) ZONE) 0); [done|]. done.
Qed.

Lemma check_rrset_inv rr h : check_rrset rr h = Ok tt ->
  exists n, Rrtype h = rs_TypeCovered rr /\ Class_ h = Class_ (rs_Hdr rr) /\ CountLabel (Name h) = Ok n /\ rs_Labels rr <= n mod 256 /\
    map lower (Name h) = map lower (Name (rs_Hdr rr)) /\ exists front, CanonicalName (Name h) = front ++ CanonicalName (rs_SignerName rr).
Proof.
  unfold check_rrset. intros H.
  destruct (Z.eqb_spec (Class_ h) (Class_ (rs_Hdr rr))); cbn [negb] in H; [|done].
  destruct (Z.eqb_spec (Rrtype h) (rs_TypeCovered rr)); cbn [negb] in H; [|done].
  inv_bind H. destruct (Z.ltb_spec (a mod 256) (rs_Labels rr)); [done|]. inv_bind H. destruct a0; cbn [negb] in H; [|done].
  apply equal_true in Ha0. destruct (HasSuffix _ _) eqn:Hs; cbn [negb] in H; [|done].
  unfold HasSuffix in Hs. apply andb_true_iff in Hs as [_ Hs]. apply bool_decide_eq_true in Hs.
  exists a. split_and!; try done. exists (ztake (zlen (CanonicalName (Name h)) - zlen (CanonicalName (rs_SignerName rr))) (CanonicalName (Name h))).
  rewrite <- Hs at 2. unfold ztake, zdrop; by rewrite take_drop.
Qed.

(** What a successful [Sign] did. *)
Lemma Sign_inv rr priv r0 rrset rr' : Sign rr (Some priv) (r0 :: rrset) = Ok rr' ->
  exists n labels data sig, CountLabel (Name (Hdr r0)) = Ok n /\
    labels = (if HasPrefix (Name (Hdr r0)) (bs "*") then (n mod 256 - 1) mod 256 else n mod 256) /\
    signed_data (fill_rrsig rr (Hdr r0) labels) (r0 :: rrset) = Ok data /\
    sign priv (digest_of (rs_Algorithm rr)) data (rs_Algorithm rr) = Ok sig /\
    rr' = set_Signature (toBase64 sig) (fill_rrsig rr (Hdr r0) labels).
Proof.
  unfold Sign. cbn [head index]. intros H. cbn [mbind res_bind] in H. inv_bind H. rename a into n.
  set (labels := if HasPrefix _ _ then _ else _) in H. exists n, labels. unfold signAsIs in H.
  destruct (_ || _) in H; [done|]. cbn [rs_Algorithm rs_SignerName fill_rrsig] in H.
  unfold signed_data. cbn [rs_SignerName fill_rrsig]. inv_bind H. inv_bind H. destruct (one_of _ _) in H; [done|]. inv_bind H.
  injection H as <-. exists (a ++ a0), a1. rewrite Ha0. gosimp. rewrite Ha1. gosimp. split_and!; done.
Qed.

(** C11: [Verify] accepts what [Sign] made: with the key pair of the DNSKEY (its
    public key accepts what the private key signs, and ECDSA signatures are DER
    forms of numbers of the curve's size), and a received set that passes the
    checks and holds the same canonical records as the signed one, in any order
    and number, the signature [Sign] put into the RRSIG verifies. *)
Theorem Sign_Verify rr priv k r0 rrset r0' rrset' rr' :
  key_pair priv k -> Sign rr (Some priv) (r0 :: rrset) = Ok rr' ->
  check_key rr' k = Ok tt -> check_rrset rr' (Hdr r0') = Ok tt -> IsRRset (r0' :: rrset') = true ->
  record_set rr' (r0 :: rrset) -> record_set rr' (r0' :: rrset') ->
  (forall w, w ∈ map (canonical_form rr') (r0 :: rrset) <-> w ∈ map (canonical_form rr') (r0' :: rrset')) ->
  one_of (rsa_algs ++ ecdsa_algs ++ raw_algs) (rs_Algorithm rr) = true ->
  Verify rr' k (r0' :: rrset') = Ok tt.
Proof.
  intros (pub & Hpub & Hkey) Hsign Hck Hcr Hset R1 R2 Hsame Halg.
  apply Sign_inv in Hsign as (n & labels & data & sig & _ & _ & Hdata & Hsig & Hrr').
  assert (signed_data rr' (r0' :: rrset') = Ok data) as Hdata'.
  { rewrite <- Hdata. subst rr'. unfold signed_data. cbn [set_Signature rs_SignerName].
    change (sigwire (set_Signature ?x ?y)) with (sigwire y). change (rawSignatureData ?l (set_Signature ?x ?y)) with (rawSignatureData l y).
    assert (rawSignatureData (r0' :: rrset') (fill_rrsig rr (Hdr r0) labels) = rawSignatureData (r0 :: rrset) (fill_rrsig rr (Hdr r0) labels)) as ->; [|done].
    symmetry. apply raw_same; [exact R1|exact R2|exact Hsame]. }
  pose proof (check_key_inv _ _ Hck) as (_ & _ & Ha & _). rewrite (Verify_eq rr' k r0' rrset' data) by done.
  assert (rs_Algorithm rr' = rs_Algorithm rr) as Hal by (by rewrite Hrr'). rewrite Hal, Halg. unfold verify_with. rewrite Hpub. gosimp.
  assert (sigBuf rr' = sig) as -> by (rewrite Hrr'; unfold sigBuf; cbn [set_Signature rs_Signature]; by rewrite base64_roundtrip).
  unfold sign in Hsig. inv_bind Hsig. rename a into raw. destruct (Hkey _ _ _ Ha0) as [Hv He]. rewrite Hal in Ha.
  unfold wire_signature. fold rsa_algs ecdsa_algs in Hsig.
  destruct (one_of ecdsa_algs (rs_Algorithm rr)) eqn:Ee.
  - assert (one_of [RSASHA1; RSASHA1NSEC3SHA1; RSASHA256; RSASHA512; ED25519; FALCON512; P256_FALCON512; RSA3072_FALCON512; FALCON1024; P521_FALCON1024] (rs_Algorithm rr) = false) as Hn.
    { unfold one_of in Ee. apply bool_decide_eq_true in Ee. unfold ecdsa_algs in Ee. rewrite !elem_of_cons, elem_of_nil in Ee.
      destruct Ee as [->|[->|[]]]; reflexivity. }
    rewrite Hn in Hsig. rewrite <- Ha in He. unfold one_of in Ee. apply bool_decide_eq_true in Ee.
    destruct (He Ee) as (r & s & Eraw & Hr & Hs). set (m := if rs_Algorithm rr =? ECDSAP256SHA256 then 32%nat else 48%nat) in *.
    assert (Z.of_nat m <= 1000000) as Hm by (unfold m; clear; by destruct (_ =? _)).
    rewrite Eraw, (asn1_roundtrip m r s Hm Hr Hs) in Hsig. cbn [mbind res_bind] in Hsig.
    assert ((if rs_Algorithm rr =? ECDSAP256SHA256 then 32 else 48) = Z.of_nat m) as Em by (unfold m; clear; by destruct (_ =? _)).
    rewrite Em in Hsig. apply Ok_inj in Hsig as <-. destruct (split_halves m r s Hr Hs) as [-> ->]. by rewrite <- Eraw.
  - destruct (one_of _ (rs_Algorithm rr)) in Hsig; [|done]. by apply Ok_inj in Hsig as <-.
Qed.

(** C13: what [Verify] accepts has a signature that the DNSKEY's public key accepts over
    the signed data of the RRSIG and the records, a key tag, class, algorithm and
    owner that are the key's, a key of protocol 3 with the zone flag, and records
    of the covered type, the RRSIG's class and owner, whose name ends in the
    signer's. *)
Theorem Verify_sound rr k rrset : Verify rr k rrset = Ok tt ->
  IsRRset rrset = true /\ KeyTag k = Ok (rs_KeyTag rr) /\ rs_Algorithm rr = dk_Algorithm k /\ dk_Protocol k = 3 /\
  Class_ (rs_Hdr rr) = Class_ (dk_Hdr k) /\
  Z.land (dk_Flags k) ZONE <> 0 /\ map lower (CanonicalName (rs_SignerName rr)) = map lower (Name (dk_Hdr k)) /\
  (exists r n, head rrset = Some r /\ Rrtype (Hdr r) = rs_TypeCovered rr /\ Class_ (Hdr r) = Class_ (rs_Hdr rr) /\
     CountLabel (Name (Hdr r)) = Ok n /\ rs_Labels rr <= n mod 256 /\ map lower (Name (Hdr r)) = map lower (Name (rs_Hdr rr)) /\
     exists front, CanonicalName (Name (Hdr r)) = front ++ CanonicalName (rs_SignerName rr)) /\
  exists pub data, public_key k = Ok (Some pub) /\ signed_data rr rrset = Ok data /\
    VerifyPKCS1v15 pub (digest_of (rs_Algorithm rr)) data (wire_signature (rs_Algorithm rr) (sigBuf rr)) = Ok tt.
Proof.
  intros H. pose proof H as H0. unfold Verify in H. destruct (IsRRset rrset) eqn:Hset; cbn [negb] in H; [|done]. inv_bind H. destruct a.
  pose proof (check_key_inv _ _ Ha) as (I1 & I2 & I3 & I4 & I5 & I6). inv_bind H. destruct rrset as [|r rrset]; [done|]. injection Ha0 as <-.
  inv_bind H. destruct a. inv_bind H. inv_bind H.
  assert (signed_data rr (r :: rrset) = Ok (a ++ a0)) as Hd by (unfold signed_data; rewrite Ha1; gosimp; by rewrite Ha2).
  rewrite (Verify_eq rr k r rrset (a ++ a0)) in H0 by done. destruct (one_of _ _) in H0; [|done].
  unfold verify_with in H0. inv_bind H0. destruct a1 as [pub|]; [|done].
  split; [reflexivity|]. split; [exact I1|]. split; [exact I3|]. split; [exact I5|]. split; [exact I2|]. split; [exact I6|]. split; [exact I4|].
  split; [|exists pub, (a ++ a0); split; [assumption|split; [exact Hd|exact H0]]].
  destruct (check_rrset_inv _ _ Ha0) as (n & C1 & C2 & C3 & C4 & C5 & C6). exists r, n. split; [reflexivity|]. repeat (split; [assumption|]). exact C6.
Qed.
End Crypto.

(** ** The canonical form of names *)

Lemma segs_show ls : ls <> [] -> segs false (show_labels ls) = map (fun l => show_label l ++ [ch_dot]) ls.
Proof.
  induction ls as [|l ls IH]; [done|]. intros _. rewrite show_labels_cons, segs_undotted by apply undotted_show.
  case_decide as E.
  - apply show_labels_nil in E as ->. done.
  - cbn [map]. f_equal. apply IH. by intros ->.
Qed.

Lemma show_not_dot ls : ls <> [] -> Forall (fun l => 1 <= zlen l) ls -> show_labels ls <> [ch_dot].
Proof.
  intros Hne Hls. destruct Hls as [|l ls Hl Hls]; [done|]. rewrite show_labels_cons.
  assert (show_label l <> []) as Hs.
  { destruct l as [|b l]; [zlia|]. unfold show_label. cbn [map concat]. destruct (escape_byte b) eqn:E; [|done].
    apply (f_equal zlen) in E. by destruct b. }
  destruct (show_label l) as [|c r]; [done|]. intros [= -> E]. by destruct r.
Qed.

Lemma SplitDomainName_show ls : Forall (fun l => 1 <= zlen l) ls -> SplitDomainName (show_name ls) = Ok (map show_label ls).
Proof.
  intros Hls. destruct ls as [|l0 ls0]; [by vm_compute|]. set (ls := l0 :: ls0) in *. change (show_name ls) with (show_labels ls).
  assert (ls <> []) as Hne by done. destruct (exists_last Hne) as (ls' & l & El).
  pose proof (segs_show ls Hne) as Hs. rewrite El, map_app in Hs. cbn [map] in Hs. rewrite <- El in Hs.
  assert (IsFqdn (show_labels ls) = true) as Hf by (apply (IsFqdn_show_name ls)).
  assert (show_labels ls <> []) as Hnil by (intros E%show_labels_nil; done).
  destruct (SplitDomainName_segs _ _ _ Hnil (show_not_dot ls Hne Hls) Hs) as [-> _].
  rewrite Hf, removelast_last, map_map. f_equal. rewrite El, map_app. cbn [map]. f_equal. apply map_ext. intros a. apply removelast_last.
Qed.

Lemma join_show l ls : join_dots (map show_label (l :: ls)) ++ [ch_dot] = show_labels (l :: ls).
Proof.
  revert l. induction ls as [|l' ls IH]; intros l; [by rewrite show_labels_cons|].
  rewrite show_labels_cons, <- IH. cbn [map join_dots]. by rewrite <- !app_assoc.
Qed.

(** The owner name of the canonical form. *)
Definition canonical_owner (ls : list bytes) (labels : Z) : list bytes :=
  if labels <? zlen ls then bs "*" :: zdrop (zlen ls - labels) ls else ls.

(** The canonical form of a record has the RRSIG's original TTL and the owner name in
    lower case; when the owner has more labels than the RRSIG counts, it is the
    wildcard at the ancestor with that many labels (RFC 4035, 5.3.2), so a
    record that was expanded from a wildcard has the canonical form of the
    wildcard's record; a count of zero, the wildcard at the root, gives a name
    that cannot be packed. *)
Theorem canonical_rr_owner s r ls : good_labels ls -> Name (Hdr r) = show_name ls -> 0 <= rs_Labels s ->
  exists r1, canonical_rr s r = Ok r1 /\ Ttl (Hdr r1) = rs_OrigTtl s /\ struct r1 = struct r /\
    data r1 = lower_rdata (struct r) (data r) /\ Rrtype (Hdr r1) = Rrtype (Hdr r) /\ Class_ (Hdr r1) = Class_ (Hdr r) /\
    Name (Hdr r1) = (if (rs_Labels s =? 0) && negb (bool_decide (ls = [])) then bs "*.."
                     else show_name (lowered (canonical_owner ls (rs_Labels s)))).
Proof.
  intros Hls Hname H0. unfold canonical_rr. cbn [Name set_Ttl Hdr]. rewrite Hname.
  rewrite SplitDomainName_show by (eapply Forall_impl; [exact (proj1 Hls)|]; cbn; lia). gosimp.
  eexists. split; [done|]. cbn [Hdr struct data]. unfold set_Name. cbn [Name Ttl Rrtype Class_].
  assert (zlen (map show_label ls) = zlen ls) as Hz by (unfold zlen; by rewrite length_map). rewrite Hz.
  unfold canonical_owner. destruct (Z.ltb_spec (rs_Labels s) (zlen ls)) as [Hlt|Hlt]; cbn [Name Ttl Rrtype Class_ set_Ttl].
  2: { split_and!; try done. rewrite Hname, CanonicalName_show. destruct (Z.eqb_spec (rs_Labels s) 0) as [E|E]; [|done].
       destruct ls; [by rewrite bool_decide_true|]. rewrite zlen_cons in Hlt. pose proof (zlen_nonneg ls). lia. }
  split_and!; try done. unfold zdrop. rewrite skipn_map. fold (zdrop (zlen ls - rs_Labels s) ls).
  destruct (Z.eqb_spec (rs_Labels s) 0) as [E|E].
  - assert (ls <> []) as Hne by (intros ->; change (zlen []) with 0 in *; lia). rewrite bool_decide_false by done. cbn [andb negb].
    rewrite E, Z.sub_0_r. unfold zdrop, zlen. rewrite Nat2Z.id, drop_all. by vm_compute.
  - cbn [andb]. rewrite <- CanonicalName_show. f_equal. change (show_name (bs "*" :: ?x)) with (show_labels (bs "*" :: x)).
    rewrite show_labels_cons. change (show_label (bs "*")) with (bs "*"). change (bs "*.") with (bs "*" ++ [ch_dot]). rewrite <- app_assoc.
    f_equal. cbn [app]. f_equal. set (d := zdrop _ ls). assert (d <> []) as Hd.
    { intros Ed. apply (f_equal zlen) in Ed. unfold d in Ed. rewrite zlen_zdrop in Ed by lia. change (zlen []) with 0 in Ed. lia. }
    destruct d as [|l ds]; [done|]. apply join_show.
Qed.

(** ** Key tags *)

(** Lists two and four elements at a time. *)
Lemma list_ind2 {A} (P : list A -> Prop) :
  P [] -> (forall a, P [a]) -> (forall a b l, P l -> P (a :: b :: l)) -> forall l, P l.
Proof.
  intros P0 P1 P2 l. assert (P l /\ (forall a, P (a :: l))) as [? _]; [|done].
  induction l as [|x l (IH1 & IH2)]; [by split|]. split; [done|]. intros. by apply P2.
Qed.

Lemma list_ind4 {A} (P : list A -> Prop) :
  P [] -> (forall a, P [a]) -> (forall a b, P [a; b]) -> (forall a b c, P [a; b; c]) ->
  (forall a b c d l, P l -> P (a :: b :: c :: d :: l)) -> forall l, P l.
Proof.
  intros P0 P1 P2 P3 P4 l.
  assert (P l /\ (forall a, P (a :: l)) /\ (forall a b, P (a :: b :: l)) /\ (forall a b c, P (a :: b :: c :: l))) as [? _]; [|done].
  induction l as [|x l (IH1 & IH2 & IH3 & IH4)]; [by split_and!|]. split_and!; [done..|]. intros. by apply P4.
Qed.

(** RFC 4034, appendix B: the sum of the 16-bit words with the carry added. *)
Fixpoint words (l : bytes) : list Z :=
  match l with
  | [] => []
  | [x] => [bval x * 256]
  | x :: y :: l => bval x * 256 + bval y :: words l
  end.
Definition rfc4034_key_tag (rdata : bytes) : Z :=
  let ac := sum_with (fun w => w) (words rdata) in (ac + (ac / 65536) mod 65536) mod 65536.

Lemma keytag_sum_words w k : keytag_sum false k w = k + sum_with (fun w => w) (words w).
Proof.
  revert k. induction w as [| x | x y w IH] using list_ind2; intros k; cbn [keytag_sum words sum_with negb].
  - lia.
  - rewrite Z.shiftl_mul_pow2 by lia. lia.
  - rewrite IH, Z.shiftl_mul_pow2 by lia. lia.
Qed.

(** The resource data of the key. *)
Definition key_rdata (k : DNSKEY) (key : bytes) : bytes :=
  be 2 (dk_Flags k) ++ be 1 (dk_Protocol k) ++ be 1 (dk_Algorithm k) ++ key.

Lemma fixed_base64 l : fixed (packStringBase64 (toBase64 l)) l.
Proof.
  intros msg off H0. unfold packStringBase64, pack_decoded. rewrite base64_roundtrip. gosimp.
  destruct (Z.ltb_spec (zlen msg) (off + zlen l)); [left; split; [done|by eexists]|right].
  destruct (put_at_writes (E := Z * error) msg off l H0 ltac:(lia)) as (m & E & Hw). rewrite E. by exists m.
Qed.

(** A packer of fixed octets on a fresh buffer. *)
Lemma packed_fixed n pk pk' w : 0 <= n -> fixed pk w -> (forall msg, pk' msg = pk msg 0) ->
  (zlen w <= n -> packed n pk' = Ok w) /\ (n < zlen w -> exists e, packed n pk' = Err e).
Proof.
  intros Hn Hf He. pose proof (zlen_make n Hn) as Hz. destruct (Hf (make_bytes n) 0 ltac:(lia)) as [[Hlt [e E]]|(m & E & Hw)].
  - split; [lia|]. intros _. exists e.2. unfold packed. by rewrite He, E.
  - rewrite Z.add_0_l in *. assert (zlen w <= n) as Hle by (destruct Hw as (_ & _ & Hw & _); lia).
    split; [|lia]. intros _. apply (packed_ok n pk' w m); [done|by rewrite He| |].
    + by rewrite (writes_len _ _ _ _ _ Hw), Hz.
    + apply writes_take in Hw. rewrite Hw. by change (ztake 0 (make_bytes n)) with (@nil byte).
Qed.

Lemma bind_ret {E A B} (r : res E (A * B)) : ('(a, b) ← r; Ok (a, b)) = r.
Proof. by destruct r as [[a b]|?| |]. Qed.

Lemma keywire_spec k key : dk_PublicKey k = toBase64 key ->
  (zlen key <= 4092 -> keywire k = Ok (key_rdata k key)) /\ (4092 < zlen key -> exists e, keywire k = Err e).
Proof.
  intros Hp. unfold keywire. set (dw := {| dw_Flags := dk_Flags k |}).
  set (pk := fun msg off => '(msg, off) ← packUint16 (dw_Flags dw) msg off; '(msg, off) ← packUint8 (dw_Protocol dw) msg off;
    '(msg, off) ← packUint8 (dw_Algorithm dw) msg off; packStringBase64 (dw_PublicKey dw) msg off : wire (bytes * Z)).
  assert (fixed pk (key_rdata k key)) as Hf.
  { unfold pk, key_rdata. cbn [dw_Flags dw_Protocol dw_Algorithm dw_PublicKey dw]. rewrite Hp.
    repeat first [apply fixed_base64 | apply fixed_uint8 | apply fixed_uint16 |
      apply (fixed_seq _ (fun msg off => _)); [apply fixed_uint8 || apply fixed_uint16|]]. }
  destruct (packed_fixed DefaultMsgSize pk (packKeyWire dw) (key_rdata k key) ltac:(done) Hf) as [H1 H2].
  - intros msg. unfold packKeyWire, pk. apply bind_same. intros [m1 o1]. apply bind_same. intros [m2 o2].
    apply bind_same. intros [m3 o3]. apply bind_ret.
  - assert (zlen (key_rdata k key) = 4 + zlen key) as Hz by (unfold key_rdata; rewrite !zlen_app, !be_length; lia).
    unfold DefaultMsgSize in *. split; intros; [apply H1|apply H2]; lia.
Qed.

Lemma b64_written_ok s : forall b, b64_quanta s = Ok b -> b64_written s = b.
Proof.
  induction s as [| | | |c0 c1 c2 c3 r IH] using list_ind4; intros out; try done; [by intros [= <-]|]. cbn [b64_quanta b64_written].
  destruct (b64_val c0), (b64_val c1); try done. destruct (c2 =b ch_eq).
  - destruct (c3 =b ch_eq); cbn [andb]; [|done]. case_bool_decide; [|done]. by intros [= <-].
  - destruct (b64_val c2); [|done]. destruct (c3 =b ch_eq).
    + case_bool_decide; [|done]. by intros E%Ok_inj.
    + destruct (b64_val c3); [|done]. intros E. inv_bind E. rewrite (IH _ Ha). by apply Ok_inj in E.
Qed.

Lemma fromBase64_buf_ok l : fromBase64_buf (toBase64 l) = l.
Proof. unfold fromBase64_buf. apply b64_written_ok. exact (base64_roundtrip l). Qed.

(** C29: [KeyTag] is the key tag of RFC 4034, appendix B, and fits 16 bits; for the
    deprecated RSA/MD5 it is the middle 16 bits of the last 24 bits of the key,
    and a key of two octets is a run-time panic; the tag of a key that does not
    fit 4096 octets is zero. *)
Theorem KeyTag_rfc4034 k key : dk_PublicKey k = toBase64 key ->
  (dk_Algorithm k <> RSAMD5 -> zlen key <= 4092 ->
     KeyTag k = Ok (rfc4034_key_tag (key_rdata k key)) /\ u16 (rfc4034_key_tag (key_rdata k key))) /\
  (dk_Algorithm k <> RSAMD5 -> 4092 < zlen key -> KeyTag k = Ok 0) /\
  (dk_Algorithm k = RSAMD5 -> forall front a b c, key = front ++ [a; b; c] -> KeyTag k = Ok (bval a * 256 + bval b)) /\
  (dk_Algorithm k = RSAMD5 -> zlen key = 2 -> KeyTag k = Panic).
Proof.
  intros Hp. destruct (keywire_spec k key Hp) as [H1 H2]. unfold KeyTag. split_and!.
  - intros Ha Hl. rewrite (proj2 (Z.eqb_neq _ _) Ha), (H1 Hl), keytag_sum_words. rewrite !Z.add_0_l.
    unfold rfc4034_key_tag. set (ac := sum_with _ _). change 0xFFFF with (Z.ones 16). rewrite !Z.land_ones, Z.shiftr_div_pow2 by lia.
    change (2 ^ 16) with 65536. rewrite Z.mod_mod by lia. split; [done|].
    pose proof (Z.mod_pos_bound (ac + (ac / 65536) mod 65536) 65536 ltac:(lia)). unfold u16. lia.
  - intros Ha Hl. rewrite (proj2 (Z.eqb_neq _ _) Ha). by destruct (H2 Hl) as [e ->].
  - intros -> front a b c ->. rewrite Z.eqb_refl, Hp, fromBase64_buf_ok. pose proof (zlen_nonneg front).
    assert (zlen (front ++ [a; b; c]) = zlen front + 3) as Hz by (by rewrite zlen_app). rewrite Hz.
    destruct (Z.ltb_spec 1 (zlen front + 3)); [|lia]. replace (zlen front + 3 - 3) with (zlen front) by lia.
    pose proof (slice_mid front [a; b; c] [] (zlen front) (zlen front + 3) eq_refl eq_refl) as Hs. rewrite app_nil_r in Hs. rewrite Hs.
    cbn [index]. gosimp. change (ztake 2 [a; b; c]) with [a; b]. rewrite !unbe_cons. change (unbe []) with 0. change (zlen [b]) with 1.
    change (zlen []) with 0. pose proof (bval_range a). pose proof (bval_range b). f_equal. rewrite Z.mod_small; lia.
  - intros -> Hl. rewrite Z.eqb_refl, Hp, fromBase64_buf_ok, Hl. cbn [Z.ltb Z.compare Pos.compare Pos.compare_cont].
    by destruct key as [|x [|y [|z l]]].
Qed.

(** ** Public keys *)

Section Keys.
#[local] Open Scope string_scope.
Context {openssl : Openssl}.

Lemma big_Bytes_length x : 0 <= x -> zlen (big_Bytes x) = Z.of_nat (byte_length x).
Proof. intros. unfold big_Bytes. by rewrite be_length, Z.abs_eq. Qed.

Lemma zget_app_here {A} (l1 l2 : list A) x i : i = zlen l1 -> zget (l1 ++ x :: l2) i = Some x.
Proof. intros ->. apply zget_mid. Qed.

(** What the setters store is what the readers build a key of. *)
Lemma public_keys_read k :
  (forall _E _N, 0 < _E < 2 ^ 31 -> 0 < _N -> 64 <= zlen (big_Bytes _N) <= 512 ->
     publicKeyRSA (fst (setPublicKeyRSA (Some _E) (Some _N) k)) = Ok (BuildRSAPublicKey _E _N)) /\
  (forall _X _Y, dk_Algorithm k = ECDSAP256SHA256 -> 0 <= _X < 256 ^ 32 -> 0 <= _Y < 256 ^ 32 ->
     publicKeyECDSA (fst (setPublicKeyECDSA (Some _X) (Some _Y) k)) = Ok (BuildECDSAPublicKey (be 32 _X ++ be 32 _Y) "prime256v1")) /\
  (forall _X _Y, dk_Algorithm k = ECDSAP384SHA384 -> 0 <= _X < 256 ^ 48 -> 0 <= _Y < 256 ^ 48 ->
     publicKeyECDSA (fst (setPublicKeyECDSA (Some _X) (Some _Y) k)) = Ok (BuildECDSAPublicKey (be 48 _X ++ be 48 _Y) "secp384r1")).
Proof.
  split_and!.
  - intros e n He Hn Hnl. unfold publicKeyRSA, setPublicKeyRSA, set_PublicKey, exponentToBuf. cbn [fst dk_PublicKey].
    rewrite base64_roundtrip. pose proof (big_Bytes_length e ltac:(lia)) as Le.
    assert (byte_length e <= 4)%nat as Hle by (apply byte_length_le; lia).
    pose proof (unbe_big_Bytes e ltac:(lia)) as Ue. pose proof (unbe_big_Bytes n ltac:(lia)) as Un.
    destruct (big_Bytes e) as [|e0 es] eqn:Ee; [apply big_Bytes_nil in Ee; lia|]. pose proof (big_Bytes_head e e0 es ltac:(lia) Ee) as He0.
    destruct (big_Bytes n) as [|n0 ns] eqn:En; [apply big_Bytes_nil in En; lia|]. pose proof (big_Bytes_head n n0 ns ltac:(lia) En) as Hn0.
    rewrite Le. destruct (Z.ltb_spec (Z.of_nat (byte_length e)) 256); [|lia]. cbn [app].
    pose proof (zlen_nonneg es). rewrite zlen_cons in Le.
    set (buf := byte_of (Z.of_nat (byte_length e)) :: e0 :: es ++ n0 :: ns).
    assert (zlen buf = 1 + (1 + zlen es) + zlen (n0 :: ns)) as Hb by (unfold buf; rewrite !zlen_cons, zlen_app, !zlen_cons; lia).
    destruct (Z.ltb_spec (zlen buf) (1 + 1 + 64)); [lia|].
    destruct (zget_Some buf 1) as [b1 Hb1]; [lia|]. destruct (zget_Some buf 2) as [b2 Hb2]; [lia|]. rewrite Hb1, Hb2.
    change (zget buf 0) with (Some (byte_of (Z.of_nat (byte_length e)))). cbn [index]. gosimp. rewrite byte_of_small by lia.
    destruct (Z.eqb_spec (Z.of_nat (byte_length e)) 0); [lia|]. change (zget buf 1) with (Some e0). cbn [index]. gosimp.
    destruct (Z.ltb_spec 4 (Z.of_nat (byte_length e))); [lia|]. rewrite (proj2 (Z.eqb_neq _ _) He0). cbn [orb].
    destruct (Z.eqb_spec (Z.of_nat (byte_length e)) 0); [lia|]. cbn [orb].
    replace (zlen buf - (1 + Z.of_nat (byte_length e))) with (zlen (n0 :: ns)) by lia.
    destruct (Z.ltb_spec (zlen (n0 :: ns)) 64); [lia|]. destruct (Z.ltb_spec 512 (zlen (n0 :: ns))); [lia|]. cbn [orb].
    assert (buf = (byte_of (Z.of_nat (byte_length e)) :: e0 :: es) ++ n0 :: ns) as Hbuf by done.
    rewrite Hbuf at 1. rewrite zget_app_here by (rewrite !zlen_cons; lia). cbn [index]. gosimp.
    rewrite (proj2 (Z.eqb_neq _ _) Hn0).
    assert (slice buf 1 (1 + Z.of_nat (byte_length e)) = Some (e0 :: es)) as ->.
    { apply (slice_mid [byte_of (Z.of_nat (byte_length e))] (e0 :: es) (n0 :: ns)); [done|]. rewrite !zlen_cons. change (zlen []) with 0. lia. }
    cbn [index]. gosimp. rewrite Ue. destruct (Z.ltb_spec (2 ^ 31 - 1) e); [lia|].
    assert (slice buf (1 + Z.of_nat (byte_length e)) (zlen buf) = Some (n0 :: ns)) as ->.
    { pose proof (slice_mid (byte_of (Z.of_nat (byte_length e)) :: e0 :: es) (n0 :: ns) []) as Hs. rewrite app_nil_r in Hs.
      apply Hs; rewrite !zlen_cons in *; lia. }
    cbn [index]. gosimp. unfold big_SetBytes. by rewrite Un.
  - intros x y Ha Hx Hy. unfold publicKeyECDSA, setPublicKeyECDSA, set_PublicKey, curveToBuf. cbn [fst dk_PublicKey dk_Algorithm].
    rewrite Ha, base64_roundtrip. change (ECDSAP256SHA256 =? ECDSAP256SHA256) with true. cbn iota.
    change 32 with (Z.of_nat 32). rewrite !intToBytes_be by done. by rewrite zlen_app, !be_length.
  - intros x y Ha Hx Hy. unfold publicKeyECDSA, setPublicKeyECDSA, set_PublicKey, curveToBuf. cbn [fst dk_PublicKey dk_Algorithm].
    rewrite Ha, base64_roundtrip. change (ECDSAP384SHA384 =? ECDSAP256SHA256) with false. change (ECDSAP384SHA384 =? ECDSAP384SHA384) with true.
    cbn iota. change 48 with (Z.of_nat 48). rewrite !intToBytes_be by done. by rewrite zlen_app, !be_length.
Qed.

Ltac one_of_cases H :=
  unfold one_of in H; apply bool_decide_eq_true in H; rewrite ?elem_of_cons, ?elem_of_nil in H;
  repeat destruct H as [H|H]; [..|done].

(** A call of the interface in the branch of a known algorithm. *)
Ltac gen_step H :=
  repeat match type of H with
  | context [one_of ?l ?a] => let b := eval vm_compute in (one_of l a) in change (one_of l a) with b in H
  | context [?a =? ?c] => let b := eval vm_compute in (a =? c) in change (a =? c) with b in H
  end;
  cbn iota in H; inv_bind H.

Ltac key_of Ha R :=
  etransitivity; [|exact R]; unfold public_key; cbn [setPublicKeyRSA setPublicKeyECDSA fst];
  change (dk_Algorithm (set_PublicKey ?p ?k)) with (dk_Algorithm k); rewrite Ha; reflexivity.

(** C32: a generated key can be used: the DNSKEY that [Generate] filled is one for
    which [Verify] builds the public key of the generated private key, be it of
    the exponent and modulus (RFC 3110, for exponents below 2^31 and moduli of 64
    to 512 octets), of the two coordinates, or of the raw octets; only the
    public key field of the DNSKEY is changed. *)
Theorem Generate_public_key k bits k' priv : Generate k bits = Ok (k', priv) ->
    check_bits (dk_Algorithm k) bits = None /\ ((exists p, k' = set_PublicKey p k) \/ k' = k) /\
    (one_of rsa_algs (dk_Algorithm k) = true -> forall _E _N, GetParamsRSA priv = Ok (Some _E, Some _N) ->
       0 < _E < 2 ^ 31 -> 0 < _N -> 64 <= zlen (big_Bytes _N) <= 512 -> public_key k' = Ok (BuildRSAPublicKey _E _N)) /\
    (dk_Algorithm k = ECDSAP256SHA256 -> forall _X _Y, GetECDSAPublicKey priv = Ok (Some _X, Some _Y) ->
       0 <= _X < 256 ^ 32 -> 0 <= _Y < 256 ^ 32 -> public_key k' = Ok (BuildECDSAPublicKey (be 32 _X ++ be 32 _Y) "prime256v1")) /\
    (dk_Algorithm k = ECDSAP384SHA384 -> forall _X _Y, GetECDSAPublicKey priv = Ok (Some _X, Some _Y) ->
       0 <= _X < 256 ^ 48 -> 0 <= _Y < 256 ^ 48 -> public_key k' = Ok (BuildECDSAPublicKey (be 48 _X ++ be 48 _Y) "secp384r1")) /\
    (one_of raw_algs (dk_Algorithm k) = true -> forall raw, GetRawPublicKey (as_PublicKey priv) = Ok raw ->
       (dk_Algorithm k = ED25519 -> zlen raw = 32) ->
       public_key k' = Ok (BuildRawPublicKey raw (map_get AlgorithmToString (dk_Algorithm k)))).
Proof.
  intros H. unfold Generate in H. destruct (check_bits _ _) eqn:Hb; [done|]. split; [done|].
  pose proof (public_keys_read k) as (R1 & R2 & R3). split_and!.
  - destruct (one_of _ _) in H; [inv_bind H; inv_bind H; destruct a0 as [[E|] [N|]]; injection H as <- <-; eauto|].
    destruct (one_of _ _) in H; [inv_bind H; inv_bind H; destruct a0 as [[E|] [N|]]; injection H as <- <-; eauto|].
    unfold setPublicKeyGeneric in H. destruct (_ =? _) in H.
    + inv_bind H. injection H as <- <-. destruct (GetRawPublicKey _); eauto.
    + destruct (one_of _ _) in H; [|done]. inv_bind H. destruct (GetRawPublicKey _); cbn [negb] in H; [injection H as <- <-; eauto|done..].
  - intros Ha. unfold rsa_algs in Ha. one_of_cases Ha; rewrite Ha in H; gen_step H; gen_step H; destruct a0 as [E' N'].
    all: injection H as <- <-; intros E N Hp HE HN Hl; rewrite Hp in Ha1; injection Ha1 as <- <-; key_of Ha (R1 E N HE HN Hl).
  - intros Ha X Y. rewrite Ha in H. gen_step H; gen_step H. destruct a0 as [X' Y']. injection H as <- <-. intros Hp HX HY.
    rewrite Hp in Ha1. injection Ha1 as <- <-.
    key_of Ha (R2 X Y Ha HX HY).
  - intros Ha X Y. rewrite Ha in H. gen_step H; gen_step H. destruct a0 as [X' Y']. injection H as <- <-. intros Hp HX HY.
    rewrite Hp in Ha1. injection Ha1 as <- <-.
    key_of Ha (R3 X Y Ha HX HY).
  - intros Ha raw Hr Hz. unfold raw_algs in Ha. one_of_cases Ha; rewrite Ha in H; gen_step H; unfold setPublicKeyGeneric in H;
      destruct (GetRawPublicKey (as_PublicKey a)) eqn:E; cbn [negb fst] in H; try discriminate H; injection H as <- <-;
      rewrite Hr in E; try discriminate E; injection E as <-; unfold public_key, publicKeyGeneric;
      change (dk_Algorithm (set_PublicKey ?p ?k)) with (dk_Algorithm k); change (dk_PublicKey (set_PublicKey ?p ?k)) with p;
      rewrite base64_roundtrip, Ha, ?(Hz Ha); reflexivity.
Qed.
End Keys.

(** ** The validity period *)

(** [ValidityPeriod] compares the times as integers: no date makes the serial
    arithmetic of RFC 1982 that its comment names happen, so a signature whose
    expiration has passed 2^32 is never valid. *)
Theorem ValidityPeriod_plain rr utc : ValidityPeriod rr utc = (rs_Inception rr <=? utc) && (utc <=? rs_Expiration rr).
Proof.
  unfold ValidityPeriod. change year68 with (2 ^ 31).
  assert (forall a, (0 <= a -> 0 <= Z.quot a (2 ^ 31)) /\ (a <= 0 -> Z.quot a (2 ^ 31) <= 0)) as Hq.
  { intros a. split; intros Ha.
    - apply Z.quot_pos; lia.
    - replace a with (- - a) by lia. rewrite Z.quot_opp_l by lia. pose proof (Z.quot_pos (- a) (2 ^ 31) ltac:(lia) ltac:(lia)). lia. }
  destruct (Hq (rs_Inception rr - utc)) as [H1 H2], (Hq (rs_Expiration rr - utc)) as [H3 H4].
  set (a := Z.quot (rs_Inception rr - utc) _) in *. set (b := Z.quot (rs_Expiration rr - utc) _) in *.
  f_equal; apply Bool.eq_iff_eq_true; rewrite !Z.leb_le; lia.
Qed.

(** ** Examples *)

(** A toy implementation of the interface: the signature is the data, every
    octet string is a key. *)
Definition toy_openssl : Openssl := {|
  PrivateKey := unit; PublicKey := bytes; Digest := unit; DigestJob := bytes;
  GetDigestByName := fun _ => None;
  SignPKCS1v15 := fun _ _ data => Ok data;
  VerifyPKCS1v15 := fun _ _ data sig => if bool_decide (data = sig) then Ok tt else Err ErrSig;
  BuildRSAPublicKey := fun e n => Some (big_Bytes e ++ big_Bytes n);
  BuildECDSAPublicKey := fun buf _ => Some buf;
  BuildRawPublicKey := fun buf _ => Some buf;
  NewSHA1Hash := []; NewSHA256Hash := []; NewDigestJob := fun _ => [];
  DigestJob_Write := fun job b => job ++ b; DigestJob_Sum := fun job => job;
  GenerateRSAKey := fun _ => Ok tt; GenerateECKey := fun _ => Ok tt; GenerateED25519Key := Ok tt; GenerateKey := fun _ => Ok tt;
  GetParamsRSA := fun _ => Ok (Some 65537, Some (2 ^ 511 + 1)); GetECDSAPublicKey := fun _ => Ok (Some 5, Some 7);
  GetRawPublicKey := fun pub => Ok pub; as_PublicKey := fun _ => bs "key" |}.

Definition toy_key : DNSKEY := {| dk_Hdr := MkHeader (bs "example.") 48 1 3600 0; dk_Flags := 256; dk_Protocol := 3;
  dk_Algorithm := FALCON512; dk_PublicKey := toBase64 (bs "key") |}.
Definition toy_rrsig : RRSIG := {| rs_Hdr := zero_header; rs_TypeCovered := 0; rs_Algorithm := FALCON512; rs_Labels := 0; rs_OrigTtl := 0;
  rs_Expiration := 2000; rs_Inception := 1000; rs_KeyTag := 59510; rs_SignerName := bs "Example."; rs_Signature := [] |}.
Definition a_record (name : bytes) (ttl : Z) (last : byte) : RR := MkRR (MkHeader name 1 1 ttl 0) RR_A [V_str [xc0; x00; x02; last]].

Lemma example_key_pair : @key_pair toy_openssl tt toy_key.
Proof.
  exists (bs "key"). split; [vm_compute; reflexivity|]. intros h data sig [= <-]. split.
  - cbn. by rewrite bool_decide_true.
  - intros H. exfalso. revert H. by apply (bool_decide_unpack (~ _)).
Qed.

(** The canonical form of either spelling of the name. *)
Lemma a_record_canonical s name ttl b : rs_Labels s = 2 -> rs_OrigTtl s = 300 -> name = bs "a.example." \/ name = bs "A.Example." ->
  canonical s (a_record name ttl b) (a_record (bs "a.example.") 300 b).
Proof.
  intros Hl Ht Hn. split.
  - unfold canonical_rr, a_record. cbn [Hdr set_Ttl Name Ttl struct data]. rewrite Hl, Ht.
    assert (SplitDomainName name = Ok [ztake 1 name; ztake 7 (zdrop 2 name)]) as -> by (destruct Hn as [->| ->]; vm_compute; reflexivity).
    gosimp. assert (CanonicalName name = bs "a.example.") as Hc by (destruct Hn as [->| ->]; vm_compute; reflexivity).
    change (2 <? zlen [ztake 1 name; ztake 7 (zdrop 2 name)]) with false. cbn iota. unfold set_Name, set_Ttl. cbn [Name Rrtype Class_ Ttl Rdlength].
    rewrite Hc. reflexivity.
  - split; [split; [|unfold u16, u32; cbn; lia]|]. { exists [bs "a"; bs "example"]. split; [split; [by repeat apply Forall_cons_2|done]|done]. }
    split; [by right|]. split; [repeat constructor|by vm_compute].
Qed.

Lemma a_record_form s name ttl b : rs_Labels s = 2 -> rs_OrigTtl s = 300 -> name = bs "a.example." \/ name = bs "A.Example." ->
  canonical_form s (a_record name ttl b) = canonical_form s (a_record (bs "a.example.") 300 b).
Proof.
  intros Hl Ht Hn. unfold canonical_form. destruct (a_record_canonical s name ttl b Hl Ht Hn) as [E1 _].
  destruct (a_record_canonical s (bs "a.example.") 300 b Hl Ht (or_introl eq_refl)) as [E2 _].
  by rewrite (canonical_wire_ext s (a_record name ttl b) (a_record (bs "a.example.") 300 b) _ _ E1 E2 eq_refl).
Qed.

Lemma a_records_set s l : rs_Labels s = 2 -> rs_OrigTtl s = 300 ->
  Forall (fun r => exists name ttl b, r = a_record name ttl b /\ (name = bs "a.example." \/ name = bs "A.Example.")) l -> record_set s l.
Proof.
  intros Hl Ht H. exists (MkHeader (bs "a.example.") 1 1 300 0). eapply Forall_impl; [exact H|].
  intros r (name & ttl & b & -> & Hn). exists (a_record (bs "a.example.") 300 b). split; [by apply a_record_canonical|done].
Qed.

(** Two A records of a name are signed and arrive in the other order, one of them
    twice, with a lower TTL and in other letters. *)
Lemma Sign_Verify_witness :
  exists rr', @Sign toy_openssl toy_rrsig (Some tt) [a_record (bs "a.example.") 300 x01; a_record (bs "a.example.") 300 x02] = Ok rr' /\
    @Verify toy_openssl rr' toy_key [a_record (bs "A.Example.") 20 x02; a_record (bs "A.Example.") 20 x01; a_record (bs "A.Example.") 20 x02] = Ok tt.
Proof.
  destruct (@Sign toy_openssl toy_rrsig (Some tt) [a_record (bs "a.example.") 300 x01; a_record (bs "a.example.") 300 x02]) as [rr'|?| |] eqn:E;
    try (vm_compute in E; discriminate E).
  exists rr'. split; [reflexivity|].
  assert (rs_Labels rr' = 2 /\ rs_OrigTtl rr' = 300 /\ rs_KeyTag rr' = 59510 /\ rs_TypeCovered rr' = 1 /\ rs_SignerName rr' = bs "Example." /\
    rs_Algorithm rr' = 17 /\ rs_Hdr rr' = MkHeader (bs "a.example.") 46 1 0 0) as (Hl & Ht & Hk & Hty & Hs & Ha & Hh)
    by (apply Sign_inv in E as (n & labels & data & sig & En & -> & _ & _ & ->); vm_compute in En; apply Ok_inj in En as <-; vm_compute; done).
  apply (@Sign_Verify toy_openssl toy_rrsig tt toy_key (a_record (bs "a.example.") 300 x01) [a_record (bs "a.example.") 300 x02]
    (a_record (bs "A.Example.") 20 x02) [a_record (bs "A.Example.") 20 x01; a_record (bs "A.Example.") 20 x02] rr').
  - exact example_key_pair.
  - exact E.
  - unfold check_key. rewrite Hk, Ha, Hs, Hh. vm_compute. reflexivity.
  - unfold check_rrset. rewrite Hl, Hty, Hs, Hh. vm_compute. reflexivity.
  - vm_compute; reflexivity.
  - apply a_records_set; [done|done|]. repeat constructor; do 3 eexists; (split; [reflexivity|auto]).
  - apply a_records_set; [done|done|]. repeat constructor; do 3 eexists; (split; [reflexivity|auto]).
  - intros w. cbn [map]. rewrite !(a_record_form rr' (bs "A.Example.")) by auto. rewrite !elem_of_cons. tauto.
  - reflexivity.
Defined.

(** The RRSIG that [Sign] fills in for these records. *)
Definition toy_filled : RRSIG := fill_rrsig toy_rrsig (MkHeader (bs "a.example.") 1 1 300 0) 2.
Definition toy_signed : RRSIG :=
  match @Sign toy_openssl toy_rrsig (Some tt) [a_record (bs "a.example.") 300 x01] with Ok rr => rr | _ => toy_rrsig end.

Lemma toy_filled_ok : rrsig_ok toy_filled.
Proof.
  unfold rrsig_ok, u16, u8, u32. cbn. unfold FALCON512. repeat (split; [lia|]). exists [bs "Example"]. split; [split; [by apply Forall_cons_2|done]|done].
Qed.

Lemma signed_data_binds_witness :
  signed_data toy_filled [a_record (bs "a.example.") 300 x01; a_record (bs "a.example.") 300 x02] =
  signed_data toy_filled [a_record (bs "A.Example.") 20 x02; a_record (bs "A.Example.") 20 x01; a_record (bs "A.Example.") 20 x02].
Proof.
  apply (signed_data_binds toy_filled toy_filled).
  - exact toy_filled_ok.
  - exact toy_filled_ok.
  - apply a_records_set; [done|done|]. repeat constructor; do 3 eexists; (split; [reflexivity|auto]).
  - apply a_records_set; [done|done|]. repeat constructor; do 3 eexists; (split; [reflexivity|auto]).
  - split_and!; try done. intros w. cbn [map]. rewrite !(a_record_form toy_filled (bs "A.Example.")) by auto.
    rewrite !elem_of_cons. tauto.
Defined.

Lemma Verify_sound_witness :
  @Verify toy_openssl toy_signed toy_key [a_record (bs "A.example.") 20 x01] = Ok tt /\
  exists pub data, @public_key toy_openssl toy_key = Ok (Some pub) /\
    signed_data toy_signed [a_record (bs "A.example.") 20 x01] = Ok data /\ data = sigBuf toy_signed.
Proof.
  assert (@Verify toy_openssl toy_signed toy_key [a_record (bs "A.example.") 20 x01] = Ok tt) as H by (vm_compute; reflexivity).
  split; [exact H|].
  destruct (@Verify_sound toy_openssl toy_signed toy_key [a_record (bs "A.example.") 20 x01] H)
    as (_ & _ & _ & _ & _ & _ & _ & _ & pub & data & Hp & Hd & Hv).
  exists pub, data. split; [exact Hp|]. split; [exact Hd|].
  cbn [VerifyPKCS1v15 toy_openssl] in Hv. destruct (decide (data = wire_signature (rs_Algorithm toy_signed) (sigBuf toy_signed))) as [E|E].
  - rewrite E. reflexivity.
  - rewrite bool_decide_false in Hv by exact E. discriminate Hv.
Defined.

(** A record expanded from the wildcard [*.example.]. *)
Lemma canonical_rr_owner_witness :
  exists r1, canonical_rr (fill_rrsig toy_rrsig zero_header 1) (a_record (bs "A.b.Example.") 20 x01) = Ok r1 /\
    Name (Hdr r1) = bs "*.example." /\ Ttl (Hdr r1) = 0.
Proof.
  destruct (canonical_rr_owner (fill_rrsig toy_rrsig zero_header 1) (a_record (bs "A.b.Example.") 20 x01) [bs "A"; bs "b"; bs "Example"])
    as (r1 & E & Ht & _ & _ & _ & _ & Hn).
  - split; [by repeat apply Forall_cons_2|done].
  - vm_compute; reflexivity.
  - cbn. lia.
  - exists r1. split; [exact E|]. split; [rewrite Hn; vm_compute; reflexivity|rewrite Ht; reflexivity].
Defined.

Definition md5_key (key : bytes) : DNSKEY :=
  {| dk_Hdr := zero_header; dk_Flags := 256; dk_Protocol := 3; dk_Algorithm := RSAMD5; dk_PublicKey := toBase64 key |}.

Lemma KeyTag_rfc4034_witness :
  KeyTag toy_key = Ok (rfc4034_key_tag (key_rdata toy_key (bs "key"))) /\
  KeyTag (md5_key [x01; x02; x03; x04]) = Ok (2 * 256 + 3) /\ KeyTag (md5_key [x01; x02]) = Panic.
Proof.
  split_and!.
  - apply (KeyTag_rfc4034 toy_key (bs "key")); [reflexivity|vm_compute; discriminate|vm_compute; discriminate].
  - destruct (KeyTag_rfc4034 (md5_key [x01; x02; x03; x04]) [x01; x02; x03; x04] eq_refl) as (_ & _ & H & _).
    apply (H eq_refl [x01] x02 x03 x04 eq_refl).
  - apply (KeyTag_rfc4034 (md5_key [x01; x02]) [x01; x02]); reflexivity.
Defined.

Lemma Generate_public_key_witness :
  exists k' priv, @Generate toy_openssl {| dk_Hdr := zero_header; dk_Flags := 256; dk_Protocol := 3; dk_Algorithm := RSASHA256; dk_PublicKey := [] |} 512
      = Ok (k', priv) /\
    @public_key toy_openssl k' = Ok (Some (big_Bytes 65537 ++ big_Bytes (2 ^ 511 + 1))).
Proof.
  destruct (@Generate toy_openssl {| dk_Hdr := zero_header; dk_Flags := 256; dk_Protocol := 3; dk_Algorithm := RSASHA256; dk_PublicKey := [] |} 512)
    as [[k' priv]|?| |] eqn:E; [|vm_compute in E; discriminate E..].
  exists k', priv. split; [reflexivity|].
  destruct (@Generate_public_key toy_openssl _ _ _ _ E) as (_ & _ & H & _). rewrite (H eq_refl 65537 (2 ^ 511 + 1)); [reflexivity|reflexivity|lia|lia|].
  split; apply Z.leb_le; vm_compute; reflexivity.
Defined.

(** The check of the zone is on the text: a name of another zone that ends in the
    signer's text passes. *)
Example other_zone_passes :
  check_rrset (fill_rrsig toy_rrsig (MkHeader (bs "badexample.") 1 1 300 0) 1) (MkHeader (bs "badexample.") 1 1 300 0) = Ok tt /\
  IsSubDomain (bs "example.") (bs "badexample.") = Ok false.
Proof. split; vm_compute; reflexivity. Qed.

(** A wildcard at the root cannot be signed. *)
Example root_wildcard_unsigned : exists e, @Sign toy_openssl toy_rrsig (Some tt) [a_record (bs "*.") 300 x01] = Err e.
Proof. eexists. vm_compute. reflexivity. Qed.

(** A label that only starts with an asterisk is counted as a wildcard's. *)
Example star_prefix_counts :
  match @Sign toy_openssl toy_rrsig (Some tt) [a_record (bs "*foo.example.") 300 x01] with Ok rr => rs_Labels rr | _ => 0 end = 1.
Proof. vm_compute. reflexivity. Qed.
