(* ===== verification/Strconv.v ===== *)
(** * The packages strconv and strings of Go's standard library

    What the presentation code uses of them: [Itoa], [FormatUint], [ParseUint],
    [ParseInt], zero padding, [Cut], [IndexByte], [HasPrefix], [Fields] and
    [ToUpper].  A failed conversion is [None]: the callers only test the error. *)

From S2P Require Import Prelude Go Utf8 Labels Escape Encodings.

(** ** Numbers *)

Fixpoint format_digits (fuel : nat) (base v : Z) (acc : bytes) : bytes :=
  match fuel with
  | O => acc
  | S fuel =>
      let acc := hex_char (v mod base) :: acc in
      if v <? base then acc else format_digits fuel base (v / base) acc
  end.

(** [strconv.FormatUint] of a number that is not negative; every digit takes at
    least one bit, so the fuel is enough. *)
Definition FormatUint (v base : Z) : bytes := format_digits (S (Z.to_nat (Z.log2 v))) base v [].

(** [strconv.Itoa] and [strconv.FormatInt(_, 10)]. *)
Definition Itoa (v : Z) : bytes := if v <? 0 then x2d :: FormatUint (- v) 10 else FormatUint v 10.

Definition digit_val (c : byte) : option Z :=
  if isDigit c then Some (bval c - 48)
  else if (97 <=? bval (lower c)) && (bval (lower c) <=? 122) then Some (bval (lower c) - 97 + 10)
  else None.

(** [strconv.ParseUint] with a base that is not 0. *)
Definition parse_digit (base bits : Z) (n : option Z) (c : byte) : option Z :=
  n ← n; d ← digit_val c;
  if base <=? d then None else
  let n := n * base + d in
  if 2 ^ bits <=? n then None else Some n.

Definition ParseUint (s : bytes) (base bits : Z) : option Z :=
  match s with [] => None | _ => fold_left (parse_digit base bits) s (Some 0) end.

(** [strconv.ParseInt]; [strconv.Atoi] is the case of 64 bits to the base 10. *)
Definition ParseInt (s : bytes) (base bits : Z) : option Z :=
  match s with
  | [] => None
  | c :: r =>
      let '(neg, s) := if c =b x2b then (false, r) else if c =b x2d then (true, r) else (false, s) in
      un ← ParseUint s base bits;
      if negb neg && (2 ^ (bits - 1) <=? un) then None
      else if neg && (2 ^ (bits - 1) <? un) then None
      else Some (if neg then - un else un)
  end.
Definition Atoi (s : bytes) : option Z := ParseInt s 10 64.

(** Zeros in front up to a width. *)
Definition pad0 (width : Z) (s : bytes) : bytes := replicate (Z.to_nat (width - zlen s)) x30 ++ s.

(** ** Strings *)

Definition index_byte (s : bytes) (c : byte) : option Z :=
  match list_find (fun x => x = c) s with Some (i, _) => Some (Z.of_nat i) | None => None end.

(** [strings.Contains(s, string(c))]. *)
Definition contains_byte (s : bytes) (c : byte) : bool := match index_byte s c with Some _ => true | None => false end.

(** [strings.Cut(s, string(c))]. *)
Definition Cut (s : bytes) (c : byte) : bytes * bytes * bool :=
  match index_byte s c with
  | Some i => (ztake i s, zdrop (i + 1) s, true)
  | None => (s, [], false)
  end.

Definition has_prefix (s p : bytes) : bool := bool_decide (ztake (zlen p) s = p).

(** [strings.Join(l, sep)]. *)
Fixpoint join (sep : bytes) (l : list bytes) : bytes :=
  match l with
  | [] => []
  | [s] => s
  | s :: l => s ++ sep ++ join sep l
  end.

(** [unicode.IsSpace]. *)
Definition IsSpace (r : Z) : bool :=
  bool_decide (r ∈ [9; 10; 11; 12; 13; 32; 0x85; 0xA0; 0x1680; 0x2028; 0x2029; 0x202f; 0x205f; 0x3000])
  || ((0x2000 <=? r) && (r <=? 0x200a)).

(** [strings.Fields]: the maximal runs of runes that are not space; [field] is
    the run before [s]. *)
Fixpoint fields_loop (fuel : nat) (s field : bytes) : list bytes :=
  let done (l : list bytes) := match field with [] => l | _ => field :: l end in
  match fuel, s with
  | S fuel, _ :: _ =>
      let '(r, n) := decode_rune s in
      if IsSpace r then done (fields_loop fuel (drop n s) [])
      else fields_loop fuel (drop n s) (field ++ take n s)
  | _, _ => done []
  end.
Definition Fields (s : bytes) : list bytes := fields_loop (length s) s [].

(** [strings.ToUpper] and [strings.ToLower]: on ASCII they act byte by byte; the
    case tables of Unicode are not reproduced. *)
Definition is_ascii (b : byte) : Prop := bval b < 128.
Class Casing := {
  ToUpper : bytes -> bytes;
  ToLower : bytes -> bytes;
  ToUpper_ascii s : Forall is_ascii s -> ToUpper s = map to_upper s;
  ToLower_ascii s : Forall is_ascii s -> ToLower s = map lower s
}.

#[export] Instance ascii_casing : Casing | 100 := {|
  ToUpper := map to_upper; ToLower := map lower;
  ToUpper_ascii s _ := eq_refl; ToLower_ascii s _ := eq_refl |}.

(** ** Facts *)

Lemma hex_char_digit v : 0 <= v < 10 -> isDigit (hex_char v) = true /\ digit_val (hex_char v) = Some v.
Proof.
  intros H. assert (forall v, v ∈ seqZ 0 10 -> isDigit (hex_char v) = true /\ digit_val (hex_char v) = Some v) as Ha.
  { intros w Hw. apply elem_of_seqZ in Hw. assert (w = 0 \/ w = 1 \/ w = 2 \/ w = 3 \/ w = 4 \/ w = 5 \/ w = 6 \/ w = 7 \/ w = 8 \/ w = 9) by lia.
    destruct_or!; subst; split; reflexivity. }
  apply Ha, elem_of_seqZ. lia.
Qed.

Lemma format_digits_app fuel base v acc : format_digits fuel base v acc = format_digits fuel base v [] ++ acc.
Proof.
  revert v acc. induction fuel as [|f IH]; intros v acc; [done|]. cbn [format_digits]. destruct (v <? base); [done|].
  rewrite (IH _ (_ :: acc)), (IH _ [_]), <- app_assoc. done.
Qed.

Lemma format_digits_digits fuel v : 0 <= v -> Forall (fun c => isDigit c = true) (format_digits fuel 10 v []).
Proof.
  revert v. induction fuel as [|f IH]; intros v Hv; [constructor|]. cbn [format_digits].
  pose proof (hex_char_digit (v mod 10) (Z.mod_pos_bound v 10 ltac:(lia))) as [Hd _].
  destruct (v <? 10); [by repeat constructor|]. rewrite format_digits_app. apply Forall_app. split; [|by repeat constructor].
  apply IH, Z.div_pos; lia.
Qed.

Lemma parse_digits_app base bits l1 l2 n : fold_left (parse_digit base bits) (l1 ++ l2) n = fold_left (parse_digit base bits) l2 (fold_left (parse_digit base bits) l1 n).
Proof. apply fold_left_app. Qed.

Lemma hex_char_val v : 0 <= v < 16 -> digit_val (hex_char v) = Some v.
Proof.
  intros H. assert (v = 0 \/ v = 1 \/ v = 2 \/ v = 3 \/ v = 4 \/ v = 5 \/ v = 6 \/ v = 7 \/ v = 8 \/ v = 9 \/ v = 10 \/ v = 11 \/ v = 12 \/ v = 13 \/ v = 14 \/ v = 15) by lia.
  destruct_or!; subst; reflexivity.
Qed.

Lemma format_digits_parse fuel base v bits : 2 <= base <= 16 -> 0 <= v < 2 ^ bits -> v < 2 ^ Z.of_nat fuel ->
  fold_left (parse_digit base bits) (format_digits fuel base v []) (Some 0) = Some v.
Proof.
  intros Hb. revert v. induction fuel as [|f IH]; intros v Hv Hf.
  - cbn [format_digits fold_left]. f_equal. change (2 ^ Z.of_nat 0) with 1 in Hf. lia.
  - cbn [format_digits]. pose proof (Z.mod_pos_bound v base ltac:(lia)) as Hm. pose proof (hex_char_val (v mod base) ltac:(lia)) as Hd.
    assert (forall n, 0 <= n -> n * base + v mod base = v -> parse_digit base bits (Some n) (hex_char (v mod base)) = Some v) as Hs.
    { intros n Hn E. unfold parse_digit, mbind, option_bind. rewrite Hd. destruct (Z.leb_spec base (v mod base)); [lia|]. cbv zeta. rewrite E.
      destruct (Z.leb_spec (2 ^ bits) v); [lia|done]. }
    destruct (Z.ltb_spec v base) as [Hl|Hl].
    + cbn [fold_left]. apply Hs; [lia|]. rewrite Z.mod_small; lia.
    + rewrite format_digits_app, fold_left_app. pose proof (Z.div_mod v base ltac:(lia)).
      rewrite IH; [| |].
      * cbn [fold_left]. apply Hs; [apply Z.div_pos; lia|lia].
      * split; [apply Z.div_pos; lia|]. apply Z.le_lt_trans with v; [|lia]. apply Z.div_le_upper_bound; nia.
      * rewrite Nat2Z.inj_succ, Z.pow_succ_r in Hf by lia. apply Z.div_lt_upper_bound; [lia|]. pose proof (Z.pow_pos_nonneg 2 (Z.of_nat f)). nia.
Qed.

Lemma log2_fuel v : 0 <= v -> v < 2 ^ Z.of_nat (S (Z.to_nat (Z.log2 v))).
Proof.
  intros Hv. rewrite Nat2Z.inj_succ, Z2Nat.id by apply Z.log2_nonneg.
  destruct (Z.eq_dec v 0) as [->|]; [done|]. apply Z.log2_spec. lia.
Qed.

Lemma Itoa_digits v : 0 <= v -> Itoa v <> [] /\ Forall (fun c => isDigit c = true) (Itoa v).
Proof.
  intros Hv. unfold Itoa. rewrite (proj2 (Z.ltb_ge v 0) Hv). unfold FormatUint. split; [|by apply format_digits_digits].
  cbn [format_digits]. destruct (v <? 10); [done|]. rewrite format_digits_app. by intros [_ ?]%app_eq_nil.
Qed.

(** A number reads back. *)
Lemma ParseUint_Itoa v bits : 0 <= v < 2 ^ bits -> ParseUint (Itoa v) 10 bits = Some v.
Proof.
  intros Hv. destruct (Itoa_digits v ltac:(lia)) as [Hn _]. unfold ParseUint. destruct (Itoa v) as [|c s] eqn:E; [done|]. rewrite <- E.
  unfold Itoa. rewrite (proj2 (Z.ltb_ge v 0) ltac:(lia)). apply format_digits_parse; [lia|done|]. apply log2_fuel. lia.
Qed.

(** To the base 16, too. *)
Lemma FormatUint_nonempty v base : FormatUint v base <> [].
Proof. unfold FormatUint. cbn [format_digits]. destruct (v <? base); [done|]. rewrite format_digits_app. by intros [_ ?]%app_eq_nil. Qed.

Lemma ParseUint_FormatUint v base bits : 2 <= base <= 16 -> 0 <= v < 2 ^ bits -> ParseUint (FormatUint v base) base bits = Some v.
Proof.
  intros Hb Hv. pose proof (FormatUint_nonempty v base) as Hn. unfold ParseUint. destruct (FormatUint v base) as [|c s] eqn:E; [done|]. rewrite <- E.
  apply format_digits_parse; [done|done|]. apply log2_fuel. lia.
Qed.

(** The digits and their number. *)
Lemma format_digits_hex fuel v : 0 <= v -> Forall (fun c => exists d, 0 <= d < 16 /\ c = hex_char d) (format_digits fuel 16 v []).
Proof.
  revert v. induction fuel as [|f IH]; intros v Hv; [constructor|]. cbn [format_digits].
  assert (exists d, 0 <= d < 16 /\ hex_char (v mod 16) = hex_char d) as Hd by (exists (v mod 16); split; [apply Z.mod_pos_bound; lia|done]).
  destruct (v <? 16); [by repeat constructor|]. rewrite format_digits_app. apply Forall_app. split; [|by repeat constructor]. apply IH, Z.div_pos; lia.
Qed.

Lemma format_digits_count fuel n : forall v, 0 <= v < 16 ^ Z.of_nat (S n) -> (length (format_digits fuel 16 v []) <= S n)%nat.
Proof.
  revert n. induction fuel as [|f IH]; intros n v Hv; [cbn; lia|]. cbn [format_digits]. destruct (Z.ltb_spec v 16) as [|Hl]; [cbn; lia|].
  rewrite format_digits_app, length_app. cbn [length]. destruct n as [|n]; [change (16 ^ Z.of_nat 1) with 16 in Hv; lia|].
  specialize (IH n (v / 16)). rewrite Nat2Z.inj_succ, Z.pow_succ_r in Hv by lia. pose proof (Z.div_pos v 16 ltac:(lia) ltac:(lia)).
  assert (v / 16 < 16 ^ Z.of_nat (S n)) by (apply Z.div_lt_upper_bound; lia). lia.
Qed.

(** Hexadecimal digits stand for half as many octets. *)
Lemma hex_Decode_length s : ensures (hex_DecodeString s) (fun b => zlen b = zlen s / 2) (fun _ => True).
Proof.
  assert (forall n s, (length s <= n)%nat -> ensures (hex_DecodeString s) (fun b => zlen b = zlen s / 2) (fun _ => True)) as H; [|by eapply H].
  clear s. induction n as [|n IH]; intros s Hs; [destruct s; [done|cbn in Hs; lia]|].
  destruct s as [|a [|b r]]; [done| |]; cbn [hex_DecodeString].
  - by destruct (hex_val a).
  - destruct (hex_val a), (hex_val b); try exact I. eapply ensures_bind_via; [apply IH; cbn in Hs; lia|]. intros l Hl. unfold ensures.
    replace (zlen (a :: b :: r)) with (zlen r + 1 * 2) by (rewrite !zlen_cons; lia). rewrite zlen_cons, Hl, Z.div_add by lia. lia.
Qed.
