(* ===== verification/Netip.v ===== *)
(** * Addresses as text: packages net and net/netip of Go's standard library

    [net.ParseIP], [IP.String] and [net.ParseCIDR], and that the text of an
    address is read back. *)

From S2P Require Import Prelude Go Utf8 Labels Escape Wire Encodings Codec Apl Strconv.

Definition ch_colon : byte := x3a.

(** [strings.Split(s, string(c))]. *)
Fixpoint split_on (c : byte) (s : bytes) : list bytes :=
  match s with
  | [] => [[]]
  | x :: s =>
      if x =b c then [] :: split_on c s
      else match split_on c s with w :: ws => (x :: w) :: ws | [] => [[x]] end
  end.

(** ** Parsing *)

(** One octet of a dotted address: no leading zeros. *)
Definition parse_octet (s : bytes) : option byte :=
  if has_prefix s [x30] && (1 <? zlen s) then None
  else v ← ParseUint s 10 8; if forallb isDigit s then Some (byte_of v) else None.

(** [netip.parseIPv4]: four octets. *)
Definition parseIPv4 (s : bytes) : option bytes :=
  let fields := split_on ch_dot s in
  if negb (zlen fields =? 4) then None else mapM parse_octet fields.

Definition is_hex (c : byte) : bool := match digit_val c with Some v => v <? 16 | None => false end.

Fixpoint take_hex (s : bytes) : bytes * bytes :=
  match s with
  | c :: r => if is_hex c then let '(d, r) := take_hex r in (c :: d, r) else ([], s)
  | [] => ([], [])
  end.

(** The loop of [netip.parseIPv6] over the groups: what is read, the text that is
    left and where the ellipsis is. *)
Fixpoint parse_groups (fuel : nat) (s ip : bytes) (ellipsis : option nat) : option (bytes * bytes * option nat) :=
  match fuel with
  | O => Some (ip, s, ellipsis)
  | S fuel =>
      let '(d, rest) := take_hex s in
      if (zlen d =? 0) || (4 <? zlen d) then None else
      if has_prefix rest [ch_dot] then
        if bool_decide (ellipsis = None) && negb (zlen ip =? 12) then None else
        if 16 <? zlen ip + 4 then None else
        v4 ← parseIPv4 s; Some (ip ++ v4, [], ellipsis)
      else
        acc ← ParseUint d 16 16;
        let ip := ip ++ be 2 acc in
        match rest with
        | [] => Some (ip, [], ellipsis)
        | c :: r =>
            if negb (c =b ch_colon) then None else
            match r with
            | [] => None
            | c2 :: r2 =>
                if c2 =b ch_colon then
                  match ellipsis, r2 with
                  | Some _, _ => None
                  | None, [] => Some (ip, [], Some (length ip))
                  | None, _ => parse_groups fuel r2 ip (Some (length ip))
                  end
                else parse_groups fuel r ip ellipsis
            end
        end
  end.

(** Zeros for the ellipsis, which stands for one group at least. *)
Definition expand (ip : bytes) (ellipsis : option nat) : option bytes :=
  if zlen ip <? 16 then
    k ← ellipsis; Some (take k ip ++ replicate (16 - length ip) x00 ++ drop k ip)
  else match ellipsis with None => Some ip | Some _ => None end.

Definition parseIPv6 (s : bytes) : option bytes :=
  let start (s : bytes) (ellipsis : option nat) :=
    '(ip, rest, ellipsis) ← parse_groups 8 s [] ellipsis;
    match rest with [] => expand ip ellipsis | _ => None end in
  if has_prefix s [ch_colon; ch_colon] then
    let s := zdrop 2 s in
    match s with [] => Some (replicate 16 x00) | _ => start s (Some 0%nat) end
  else start s None.

(** [netip.ParseAddr] of an address without zone: [inl] IPv4, [inr] IPv6. *)
Fixpoint family_of (s : bytes) : option bool :=
  match s with
  | [] => None
  | c :: s => if c =b ch_dot then Some true else if c =b ch_colon then Some false else if c =b x25 then None else family_of s
  end.
Definition ParseAddr (s : bytes) : option (bytes + bytes) :=
  match family_of s with
  | Some true => ip ← parseIPv4 s; Some (inl ip)
  | Some false => if contains_byte s x25 then None else ip ← parseIPv6 s; Some (inr ip)
  | None => None
  end.

(** [net.ParseIP]; nil is [None]. *)
Definition ParseIP (s : bytes) : option bytes :=
  a ← ParseAddr s; Some (match a with inl ip => v4InV6Prefix ++ ip | inr ip => ip end).

(** [net.ParseCIDR]: the address, and the network's address and mask. *)
Definition ParseCIDR (s : bytes) : option (bytes * bytes * bytes) :=
  let '(addr, mask, found) := Cut s x2f in
  if negb found then None else
  a ← ParseAddr addr;
  let bits := match a with inl _ => 32 | inr _ => 128 end in
  n ← (if forallb isDigit mask then ParseUint mask 10 32 else None);
  if (0xFFFFFF <=? n) || (bits <? n) then None else
  let m := CIDRMask n bits in
  let addr16 := match a with inl ip => v4InV6Prefix ++ ip | inr ip => ip end in
  Some (addr16, IP_Mask addr16 m, m).

(** ** Printing *)

Definition dotted (ip : bytes) : bytes := join [ch_dot] (map (fun b => Itoa (bval b)) ip).

Fixpoint groups (ip : bytes) : list Z :=
  match ip with a :: b :: ip => (bval a * 256 + bval b) :: groups ip | _ => [] end.

(** The length of the run of zeros at the start. *)
Fixpoint zero_run (g : list Z) : nat := match g with v :: g => if v =? 0 then S (zero_run g) else O | [] => O end.

(** Start and length of the longest run of two zero groups or more, the first of
    its length: [best] is the one found so far. *)
Fixpoint longest_run (i : nat) (g : list Z) (best : nat * nat) : nat * nat :=
  match g with
  | [] => best
  | _ :: g' =>
      let l := zero_run g in
      longest_run (S i) g' (if ((2 <=? l) && (best.2 <? l))%nat then (i, l) else best)
  end.

Definition colons (g : list Z) : bytes := join [ch_colon] (map (fun v => FormatUint v 16) g).

Definition string6 (ip : bytes) : bytes :=
  let g := groups ip in
  let '(i, l) := longest_run 0 g (0%nat, 0%nat) in
  if (l =? 0)%nat then colons g else colons (take i g) ++ [ch_colon; ch_colon] ++ colons (drop (i + l) g).

(** [IP.String]. *)
Definition IP_String (ip : bytes) : bytes :=
  if zlen ip =? 0 then bs "<nil>"
  else if negb (zlen ip =? 4) && negb (zlen ip =? 16) then bs "?" ++ hex_EncodeToString ip
  else match To4 ip with [] => string6 ip | v4 => dotted v4 end.

Example ip_text : map IP_String [[x01; x02; x00; xff]; replicate 16 x00; bs "a" ++ replicate 14 x00 ++ bs "b"] = [bs "1.2.0.255"; bs "::"; bs "6100::62"] /\
  ParseIP (bs "6100::62") = Some (bs "a" ++ replicate 14 x00 ++ bs "b") /\ ParseIP (bs "1:2:3:4:5:6:7:8") = Some [x00;x01;x00;x02;x00;x03;x00;x04;x00;x05;x00;x06;x00;x07;x00;x08] /\
  ParseIP (bs "::ffff:1.2.3.4") = Some (v4InV6Prefix ++ [x01;x02;x03;x04]) /\ ParseIP (bs "1::2::3") = None /\ ParseIP (bs "1.2.3.04") = None /\
  ParseIP (bs "1:2:3:4:5:6:7::") = Some [x00;x01;x00;x02;x00;x03;x00;x04;x00;x05;x00;x06;x00;x07;x00;x00].
Proof. vm_compute. repeat split. Qed.

(** ** IPv4 reads back *)

#[local] Open Scope string_scope.

(** defaults.go [ReverseAddr]: the name of the PTR record of an address. *)
Definition ReverseAddr (addr : bytes) : res error bytes :=
  match ParseIP addr with
  | None => Err (MkError (String.append "unrecognized address: " (String.string_of_list_byte addr)))
  | Some ip =>
      match To4 ip with
      | [] => Ok (concat (map (fun v => [hex_char (bval v mod 16); ch_dot; hex_char (bval v / 16); ch_dot]) (rev ip)) ++ bs "ip6.arpa.")
      | v4 => Ok (concat (map (fun v => Itoa (bval v) ++ [ch_dot]) (rev v4)) ++ bs "in-addr.arpa.")
      end
  end.

Example ReverseAddr_examples :
  ReverseAddr (bs "192.0.2.3") = @Ok error bytes (bs "3.2.0.192.in-addr.arpa.") /\
  ReverseAddr (bs "2001:db8::1") = @Ok error bytes (bs "1.0.0.0.0.0.0.0.0.0.0.0.0.0.0.0.0.0.0.0.0.0.0.0.8.b.d.0.1.0.0.2.ip6.arpa.") /\
  ReverseAddr (bs "host") = Err (MkError "unrecognized address: host").
Proof. vm_compute. repeat split. Qed.

Lemma split_on_plain c w s : Forall (fun x => (x =b c) = false) w -> split_on c (w ++ c :: s) = w :: split_on c s.
Proof. induction 1 as [|x w Hx H IH]; cbn [split_on app]; [by rewrite beq_refl|]. by rewrite Hx, IH. Qed.

Lemma split_on_last c w : Forall (fun x => (x =b c) = false) w -> split_on c w = [w].
Proof. induction 1 as [|x w Hx H IH]; cbn [split_on]; [done|]. by rewrite Hx, IH. Qed.

Lemma parse_octet_Itoa b : parse_octet (Itoa (bval b)) = Some b /\ Forall (fun x => (x =b ch_dot) = false) (Itoa (bval b)).
Proof. destruct b; (split; [reflexivity|repeat constructor]). Qed.

Lemma parseIPv4_dotted a b c d : parseIPv4 (dotted [a; b; c; d]) = Some [a; b; c; d].
Proof.
  unfold dotted. cbn [map join]. destruct (parse_octet_Itoa a) as [Ea Fa], (parse_octet_Itoa b) as [Eb Fb], (parse_octet_Itoa c) as [Ec Fc], (parse_octet_Itoa d) as [Ed Fd].
  unfold parseIPv4. cbn [app]. rewrite (split_on_plain _ _ _ Fa), (split_on_plain _ _ _ Fb), (split_on_plain _ _ _ Fc), (split_on_last _ _ Fd).
  change (zlen [Itoa (bval a); Itoa (bval b); Itoa (bval c); Itoa (bval d)]) with 4. cbn [Z.eqb negb Pos.eqb]. cbn iota. cbn [mapM]. by rewrite Ea, Eb, Ec, Ed.
Qed.

Lemma family_of_digits w s : Forall (fun c => isDigit c = true) w -> family_of (w ++ ch_dot :: s) = Some true.
Proof. induction 1 as [|c w Hc H IH]; [done|]. cbn [app family_of]. assert ((c =b ch_dot) = false /\ (c =b ch_colon) = false /\ (c =b x25) = false) as (-> & -> & ->) by (by destruct c). done. Qed.

Lemma ParseIP_dotted ip : zlen ip = 4 -> ParseIP (dotted ip) = Some (v4InV6Prefix ++ ip) /\ contains_byte (dotted ip) ch_colon = false.
Proof.
  intros Hl. destruct ip as [|a [|b [|c [|d [|? ?]]]]]; try done; [|unfold zlen in Hl; cbn [length] in Hl; lia]. split.
  - unfold ParseIP, ParseAddr. assert (family_of (dotted [a; b; c; d]) = Some true) as ->.
    { unfold dotted. cbn [map join app]. apply family_of_digits, Itoa_digits. pose proof (bval_range a). lia. }
    by rewrite parseIPv4_dotted.
  - unfold contains_byte, index_byte. assert (list_find (fun x => x = ch_colon) (dotted [a; b; c; d]) = None) as ->; [|done].
    apply list_find_None, Forall_forall. intros x Hx ->. revert Hx. unfold dotted. cbn [map join app].
    assert (forall v w, ch_colon ∉ w -> ch_colon ∉ Itoa (bval v) ++ w) as Hi.
    { intros v w Hw [H|H]%elem_of_app; [|done]. revert H. pose proof (bval_range v). destruct (Itoa_digits (bval v) ltac:(lia)) as [_ Hd].
      intros Hb. rewrite Forall_forall in Hd. by specialize (Hd _ Hb). }
    intros H. revert H. apply Hi. intros [H|H]%elem_of_cons; [done|]. revert H. apply Hi. intros [H|H]%elem_of_cons; [done|]. revert H.
    apply Hi. intros [H|H]%elem_of_cons; [done|]. revert H. rewrite <- (app_nil_r (Itoa (bval d))). apply Hi. by intros ?%elem_of_nil.
Qed.
