(* ===== verification/NetipCarry.v ===== *)
(** * IPv6 addresses as text are read back

    [ParseIP] of what [IP.String] writes, for every address of sixteen octets. *)

From S2P Require Import Prelude Go Utf8 Labels Escape Wire Encodings Codec Apl Strconv Netip.

(** ** One group *)

Definition group_ok (v : Z) : Prop := 0 <= v < 65536.
Definition group_text (v : Z) : bytes := FormatUint v 16.

Lemma group_hex v : group_ok v -> Forall (fun c => is_hex c = true) (group_text v) /\ 1 <= zlen (group_text v) <= 4 /\ ParseUint (group_text v) 16 16 = Some v.
Proof.
  intros Hv. unfold group_ok in Hv. split_and!.
  - eapply Forall_impl; [apply format_digits_hex; lia|]. intros c (d & Hd & ->). unfold is_hex. rewrite hex_char_val by done. lia.
  - pose proof (FormatUint_nonempty v 16). unfold group_text. destruct (FormatUint v 16); [done|zlia].
  - pose proof (format_digits_count (S (Z.to_nat (Z.log2 v))) 3 v ltac:(change (16 ^ Z.of_nat 4) with 65536; lia)). unfold group_text, FormatUint, zlen. lia.
  - by apply ParseUint_FormatUint.
Qed.

(** Where the digits of a group end. *)
Definition stops (r : bytes) : Prop := match r with [] => True | c :: _ => is_hex c = false end.

Lemma take_hex_app w r : Forall (fun c => is_hex c = true) w -> stops r -> take_hex (w ++ r) = (w, r).
Proof. induction 1 as [|c w Hc H IH]; intros Hr; cbn [app take_hex]; [destruct r as [|c r]; [done|]; cbn in Hr |- *; by rewrite Hr|]. by rewrite Hc, IH. Qed.

(** ** A run of groups *)

Lemma colons_cons v g : g <> [] -> colons (v :: g) = group_text v ++ ch_colon :: colons g.
Proof. by destruct g. Qed.

Lemma colons_first v g : group_ok v -> exists c r, colons (v :: g) = c :: r /\ is_hex c = true.
Proof.
  intros Hv. destruct (group_hex v Hv) as (Hh & Hl & _). assert (exists r, colons (v :: g) = group_text v ++ r) as [r ->].
  { destruct g as [|v2 g]; [exists []; by rewrite app_nil_r|]. rewrite colons_cons by done. by eexists. }
  destruct (group_text v) as [|c w]; [zlia|]. apply Forall_cons in Hh as [Hc _]. by exists c, (w ++ r).
Qed.

Definition octets (g : list Z) : bytes := concat (map (be 2) g).

(** One group that is not the last. *)
Lemma parse_groups_step fuel v r ip e : group_ok v -> match r with c :: _ => (c =b ch_colon) = false | [] => False end ->
  parse_groups (S fuel) (group_text v ++ ch_colon :: r) ip e = parse_groups fuel r (ip ++ be 2 v) e.
Proof.
  intros Hv Hr. destruct (group_hex v Hv) as (Hh & Hl & Hp). cbn [parse_groups]. rewrite take_hex_app by done.
  destruct (Z.eqb_spec (zlen (group_text v)) 0); [lia|]. destruct (Z.ltb_spec 4 (zlen (group_text v))); [lia|]. cbn [orb].
  change (has_prefix (ch_colon :: r) [ch_dot]) with false. cbv iota. rewrite Hp. cbn [mbind option_bind]. change (ch_colon =b ch_colon) with true. cbn [negb].
  destruct r as [|c r]; [done|]. by rewrite Hr.
Qed.

Lemma parse_groups_last fuel v ip e : group_ok v -> parse_groups (S fuel) (group_text v) ip e = Some (ip ++ be 2 v, [], e).
Proof.
  intros Hv. destruct (group_hex v Hv) as (Hh & Hl & Hp). cbn [parse_groups]. rewrite <- (app_nil_r (group_text v)) at 1. rewrite take_hex_app by done.
  destruct (Z.eqb_spec (zlen (group_text v)) 0); [lia|]. destruct (Z.ltb_spec 4 (zlen (group_text v))); [lia|]. cbn [orb].
  change (has_prefix [] [ch_dot]) with false. cbv iota. by rewrite Hp.
Qed.

Lemma parse_groups_ellipsis fuel v r ip : group_ok v ->
  parse_groups (S fuel) (group_text v ++ ch_colon :: ch_colon :: r) ip None =
    match r with [] => Some (ip ++ be 2 v, [], Some (length (ip ++ be 2 v))) | _ => parse_groups fuel r (ip ++ be 2 v) (Some (length (ip ++ be 2 v))) end.
Proof.
  intros Hv. destruct (group_hex v Hv) as (Hh & Hl & Hp). cbn [parse_groups]. rewrite take_hex_app by done.
  destruct (Z.eqb_spec (zlen (group_text v)) 0); [lia|]. destruct (Z.ltb_spec 4 (zlen (group_text v))); [lia|]. cbn [orb].
  change (has_prefix (ch_colon :: ch_colon :: r) [ch_dot]) with false. cbv iota. rewrite Hp. cbn [mbind option_bind]. change (ch_colon =b ch_colon) with true. cbn [negb]. by destruct r.
Qed.

Lemma not_colon c : is_hex c = true -> (c =b ch_colon) = false.
Proof. destruct c; intros H; try discriminate H; done. Qed.

Lemma parse_groups_colons g : forall fuel ip e, Forall group_ok g -> g <> [] -> (length g <= fuel)%nat -> parse_groups fuel (colons g) ip e = Some (ip ++ octets g, [], e).
Proof.
  induction g as [|v g IH]; intros fuel ip e Hg Hne Hf; [done|]. apply Forall_cons in Hg as [Hv Hg]. destruct fuel as [|fuel]; [cbn in Hf; lia|]. destruct g as [|v2 g].
  - change (colons [v]) with (group_text v). rewrite parse_groups_last by done. unfold octets. cbn [map concat]. by rewrite app_nil_r.
  - rewrite colons_cons by done. pose proof Hg as Hg2. apply Forall_cons in Hg2 as [Hv2 _]. destruct (colons_first v2 g Hv2) as (c & r & E & Hc).
    rewrite parse_groups_step; [|done|rewrite E; by apply not_colon]. rewrite IH by (done || (cbn in *; lia)). unfold octets. cbn [map concat]. by rewrite <- !app_assoc.
Qed.

Lemma parse_groups_two g1 : forall fuel ip g2, Forall group_ok g1 -> Forall group_ok g2 -> g1 <> [] -> (length g1 + length g2 <= fuel)%nat ->
  parse_groups fuel (colons g1 ++ [ch_colon; ch_colon] ++ colons g2) ip None = Some (ip ++ octets g1 ++ octets g2, [], Some (length (ip ++ octets g1))).
Proof.
  induction g1 as [|v g1 IH]; intros fuel ip g2 H1 H2 Hne Hf; [done|]. apply Forall_cons in H1 as [Hv H1]. destruct fuel as [|fuel]; [cbn in Hf; lia|]. destruct g1 as [|v2 g1].
  - change (colons [v] ++ [ch_colon; ch_colon] ++ colons g2) with (group_text v ++ ch_colon :: ch_colon :: colons g2). rewrite parse_groups_ellipsis by done.
    unfold octets at 1 3. cbn [map concat]. rewrite !app_nil_r. destruct g2 as [|v2 g2]; [done|].
    pose proof H2 as H3. apply Forall_cons in H3 as [Hv2 _]. destruct (colons_first v2 g2 Hv2) as (c & r & E & _).
    rewrite E, <- E. rewrite parse_groups_colons by (done || (cbn in *; lia)). by rewrite <- app_assoc.
  - rewrite colons_cons by done. pose proof H1 as H3. apply Forall_cons in H3 as [Hv2 _]. destruct (colons_first v2 g1 Hv2) as (c & r & E & Hc).
    rewrite <- app_assoc. cbn [app]. rewrite parse_groups_step; [|done|rewrite E; by apply not_colon].
    change (colons (v2 :: g1) ++ ch_colon :: ch_colon :: colons g2) with (colons (v2 :: g1) ++ [ch_colon; ch_colon] ++ colons g2).
    rewrite IH by (done || (cbn in *; lia)). unfold octets. cbn [map concat]. rewrite <- !app_assoc. done.
Qed.

(** ** Groups and zeros *)

Lemma be_group a b : be 2 (bval a * 256 + bval b) = [a; b].
Proof.
  pose proof (bval_range a). pose proof (bval_range b). cbn [be]. change (256 ^ Z.of_nat 1) with 256. change (256 ^ Z.of_nat 0) with 1.
  rewrite Z.div_add_l, (Z.div_small (bval b)), Z.add_0_r, byte_of_bval, Z.div_1_r by lia. f_equal. f_equal.
  apply (inj bval). rewrite bval_byte_of, Z.add_comm, Z.mod_add by lia. by apply Z.mod_small.
Qed.

Lemma groups_octets n : forall ip, length ip = (2 * n)%nat -> octets (groups ip) = ip /\ Forall group_ok (groups ip) /\ length (groups ip) = n.
Proof.
  induction n as [|n IH]; intros ip Hl; [by destruct ip|]. destruct ip as [|a [|b ip]]; [cbn in Hl; lia..|]. cbn [length] in Hl. destruct (IH ip ltac:(lia)) as (H1 & H2 & H3).
  cbn [groups]. split_and!; [|constructor; [pose proof (bval_range a); pose proof (bval_range b); unfold group_ok; lia|done]|cbn [length]; lia].
  unfold octets in *. cbn [map concat]. rewrite be_group, H1. done.
Qed.

Lemma octets_app g1 g2 : octets (g1 ++ g2) = octets g1 ++ octets g2.
Proof. unfold octets. by rewrite map_app, concat_app. Qed.

Lemma octets_length g : length (octets g) = (2 * length g)%nat.
Proof. induction g as [|v g IH]; [done|]. change (octets (v :: g)) with (be 2 v ++ octets g). rewrite length_app, IH. cbn [length be]. lia. Qed.

Lemma octets_zeros n : octets (replicate n 0) = replicate (2 * n) x00.
Proof.
  induction n as [|n IH]; [done|]. change (octets (replicate (S n) 0)) with (x00 :: x00 :: octets (replicate n 0)). rewrite IH. replace (2 * S n)%nat with (S (S (2 * n))) by lia. done.
Qed.

Lemma zero_run_spec g : (zero_run g <= length g)%nat /\ take (zero_run g) g = replicate (zero_run g) 0.
Proof. induction g as [|v g [IH1 IH2]]; [done|]. cbn [zero_run]. destruct (Z.eqb_spec v 0) as [->|]; [|by split; [lia|]]. cbn. split; [lia|by rewrite IH2]. Qed.

(** A run of at least two zeros in the groups, or none. *)
Definition run_ok (g : list Z) (r : nat * nat) : Prop :=
  r.2 = 0%nat \/ ((2 <= r.2)%nat /\ (r.1 + r.2 <= length g)%nat /\ take r.2 (drop r.1 g) = replicate r.2 0).

Lemma longest_run_ok all g : forall i best, drop i all = g -> (i + length g = length all)%nat -> run_ok all best -> run_ok all (longest_run i g best).
Proof.
  induction g as [|v g IH]; intros i best Hd Hl Hb; [done|]. cbn [longest_run]. apply IH.
  - rewrite <- Nat.add_1_r, <- drop_drop, Hd. done.
  - cbn [length] in Hl. lia.
  - destruct (zero_run_spec (v :: g)) as [H1 H2]. destruct ((2 <=? zero_run (v :: g)) && (best.2 <? zero_run (v :: g)))%nat eqn:E; [|done].
    right. apply andb_true_iff in E as [E _]. apply Nat.leb_le in E. unfold fst, snd. rewrite Hd. split_and!; [done|lia|done].
Qed.

(** ** ParseIP *)

Lemma family_colon w r : Forall (fun c => is_hex c = true) w -> family_of (w ++ ch_colon :: r) = Some false.
Proof. induction 1 as [|c w Hc H IH]; [done|]. cbn [app family_of]. assert ((c =b ch_dot) = false /\ (c =b ch_colon) = false /\ (c =b x25) = false) as (-> & -> & ->) by (destruct c; try discriminate Hc; done). done. Qed.

Definition addr_char (c : byte) : bool := is_hex c || (c =b ch_colon).

Lemma colons_chars g : Forall group_ok g -> Forall (fun c => addr_char c = true) (colons g).
Proof.
  assert (forall v, group_ok v -> Forall (fun c => addr_char c = true) (group_text v)) as Hw.
  { intros v Hv. destruct (group_hex v Hv) as (H & _). eapply Forall_impl; [exact H|]. intros c Hc. unfold addr_char. by rewrite Hc. }
  induction 1 as [|v g Hv Hg IH]; [constructor|]. destruct g as [|v2 g]; [by apply Hw|]. rewrite colons_cons by done. apply Forall_app. split; [by apply Hw|by constructor].
Qed.

Lemma no_percent s : Forall (fun c => addr_char c = true) s -> contains_byte s x25 = false.
Proof.
  intros H. unfold contains_byte, index_byte. destruct (list_find _ s) as [[i c]|] eqn:E; [|done]. apply list_find_Some in E as (E & -> & _).
  rewrite Forall_lookup in H. by specialize (H _ _ E).
Qed.

Lemma expand_full ip : length ip = 16%nat -> expand ip None = Some ip.
Proof. intros H. unfold expand. destruct (Z.ltb_spec (zlen ip) 16); [unfold zlen in *; lia|done]. Qed.

Lemma expand_zeros g1 g2 n : (1 <= n)%nat -> (length g1 + n + length g2 = 8)%nat ->
  expand (octets g1 ++ octets g2) (Some (length (octets g1))) = Some (octets (g1 ++ replicate n 0 ++ g2)).
Proof.
  intros Hn Hl. unfold expand. rewrite zlen_app. unfold zlen. rewrite !octets_length. destruct (Z.ltb_spec (Z.of_nat (2 * length g1) + Z.of_nat (2 * length g2)) 16); [|lia].
  cbn [mbind option_bind]. f_equal. rewrite !octets_app, octets_zeros. rewrite <- (octets_length g1), take_app_length, drop_app_length. f_equal. f_equal. f_equal.
  rewrite length_app, !octets_length. lia.
Qed.

Lemma contains_mid a c b : contains_byte (a ++ c :: b) c = true.
Proof.
  unfold contains_byte, index_byte. destruct (list_find_elem_of (fun x => x = c) (a ++ c :: b) c) as [[i x] E]; [apply elem_of_app; right; by left|done|]. by rewrite E.
Qed.

(** [ParseIP] of a text whose first separator is a colon. *)
Lemma ParseIP_v6 s : family_of s = Some false -> Forall (fun c => addr_char c = true) s -> ParseIP s = parseIPv6 s.
Proof. intros Hf Hc. unfold ParseIP, ParseAddr. rewrite Hf, no_percent by done. by destruct (parseIPv6 s). Qed.

Lemma no_prefix v g r : group_ok v -> has_prefix (colons (v :: g) ++ r) [ch_colon; ch_colon] = false.
Proof.
  intros Hv. destruct (colons_first v g Hv) as (c & w & -> & Hc). unfold has_prefix. apply bool_decide_false. intros [= -> _]. discriminate Hc.
Qed.

Lemma family_colons v g r : group_ok v -> r <> [] -> match r with c :: _ => c = ch_colon | [] => True end -> family_of (colons (v :: g) ++ r) = Some false.
Proof.
  intros Hv Hne Hr. destruct (group_hex v Hv) as (Hh & _). destruct g as [|v2 g].
  - destruct r as [|c r]; [done|]. subst c. by apply family_colon.
  - rewrite colons_cons by done. rewrite <- app_assoc. by apply family_colon.
Qed.

(** The three forms: without an ellipsis, and with one at the start or later. *)
Lemma ParseIP_plain g : Forall group_ok g -> length g = 8%nat -> ParseIP (colons g) = Some (octets g) /\ contains_byte (colons g) ch_colon = true.
Proof.
  intros Hg Hl. destruct g as [|v [|v2 g]]; try done. pose proof Hg as Hv. apply Forall_cons in Hv as [Hv _]. pose proof (group_hex v Hv) as (Hh & _). split.
  - rewrite ParseIP_v6; [|rewrite colons_cons by done; by apply family_colon|by apply colons_chars]. unfold parseIPv6.
    rewrite <- (app_nil_r (colons _)) at 1. rewrite no_prefix by done. rewrite parse_groups_colons by (done || lia). cbn [mbind option_bind app]. apply expand_full. rewrite octets_length. lia.
  - rewrite colons_cons by done. apply contains_mid.
Qed.

Lemma ParseIP_start g n : Forall group_ok g -> (1 <= n)%nat -> (n + length g = 8)%nat -> ParseIP ([ch_colon; ch_colon] ++ colons g) = Some (octets (replicate n 0 ++ g)).
Proof.
  intros Hg Hn Hl. rewrite ParseIP_v6; [|done|by repeat (constructor; [done|]); apply colons_chars]. unfold parseIPv6. cbn [app].
  assert (has_prefix (ch_colon :: ch_colon :: colons g) [ch_colon; ch_colon] = true) as -> by (by apply bool_decide_eq_true).
  change (zdrop 2 (ch_colon :: ch_colon :: colons g)) with (colons g). destruct g as [|v g].
  - assert (n = 8%nat) as -> by (cbn in Hl; lia). reflexivity.
  - pose proof Hg as Hv. apply Forall_cons in Hv as [Hv _]. destruct (colons_first v g Hv) as (c & w & E & _). rewrite E, <- E.
    rewrite parse_groups_colons by (done || lia). cbn [mbind option_bind app]. apply (expand_zeros [] (v :: g) n Hn). cbn [length] in *. lia.
Qed.

Lemma ParseIP_later g1 g2 n : Forall group_ok g1 -> Forall group_ok g2 -> g1 <> [] -> (1 <= n)%nat -> (length g1 + n + length g2 = 8)%nat ->
  ParseIP (colons g1 ++ [ch_colon; ch_colon] ++ colons g2) = Some (octets (g1 ++ replicate n 0 ++ g2)).
Proof.
  intros H1 H2 Hne Hn Hl. destruct g1 as [|v g1]; [done|]. pose proof H1 as Hv. apply Forall_cons in Hv as [Hv _].
  rewrite ParseIP_v6; [|by apply family_colons|apply Forall_app; split; [by apply colons_chars|by repeat (constructor; [done|]); apply colons_chars]].
  unfold parseIPv6. rewrite no_prefix by done. rewrite parse_groups_two by (done || lia). cbn [mbind option_bind app]. by apply (expand_zeros (v :: g1) g2 n).
Qed.

Lemma ParseIP_string6 ip : length ip = 16%nat -> ParseIP (string6 ip) = Some ip /\ contains_byte (string6 ip) ch_colon = true.
Proof.
  intros Hl. destruct (groups_octets 8 ip Hl) as (Ho & Hg & Hn). unfold string6. generalize dependent (groups ip). intros g <- Hg Hn.
  pose proof (longest_run_ok g g 0 (0, 0)%nat ltac:(done) ltac:(lia) ltac:(by left)) as Hr. destruct (longest_run 0 g (0, 0)%nat) as [i l]. unfold run_ok, fst, snd in Hr.
  destruct (Nat.eqb_spec l 0) as [->|Hl0]; [by apply ParseIP_plain|]. destruct Hr as [?|(H2 & Hi & Hz)]; [done|].
  assert (g = take i g ++ replicate l 0 ++ drop (i + l) g) as Eg by (rewrite <- Hz, <- drop_drop, !take_drop; done).
  assert (Forall group_ok (take i g) /\ Forall group_ok (drop (i + l) g)) as [G1 G2] by (split; [by apply Forall_take|by apply Forall_drop]).
  assert (length (take i g) = i /\ length (drop (i + l) g) = (8 - (i + l))%nat) as [L1 L2] by (rewrite length_take, length_drop; lia).
  split; [|apply contains_mid]. replace (octets g) with (octets (take i g ++ replicate l 0 ++ drop (i + l) g)) by (by rewrite <- Eg). destruct (take i g) as [|v g1] eqn:E1.
  - apply ParseIP_start; [done|lia|]. cbn in L1. lia.
  - rewrite <- E1 in *. apply ParseIP_later; [done|done|by rewrite E1|lia|lia].
Qed.

Lemma string6_chars ip : length ip = 16%nat -> Forall (fun c => addr_char c = true) (string6 ip).
Proof.
  intros Hl. destruct (groups_octets 8 ip Hl) as (_ & Hg & _). unfold string6. destruct (longest_run 0 (groups ip) (0, 0)%nat) as [i l]. destruct (l =? 0)%nat; [by apply colons_chars|].
  apply Forall_app. split; [by apply colons_chars, Forall_take|]. apply Forall_app. split; [by repeat constructor|by apply colons_chars, Forall_drop].
Qed.

(** An IPv4 address in the last four octets of an IPv6 address. *)
Lemma parse_groups_dotted fuel a b c d ip : length ip = 2%nat ->
  parse_groups (S fuel) (dotted [a; b; c; d]) ip (Some 0%nat) = Some (ip ++ [a; b; c; d], [], Some 0%nat).
Proof.
  intros Hl. assert (Forall (fun x => is_hex x = true) (Itoa (bval a)) /\ 1 <= zlen (Itoa (bval a)) <= 4) as [Hh Hz] by (destruct a; (split; [by repeat constructor|by vm_compute])).
  pose proof (parseIPv4_dotted a b c d) as H4. assert (exists r, dotted [a; b; c; d] = Itoa (bval a) ++ ch_dot :: r) as [r E] by (by eexists).
  rewrite E in H4 |- *. cbn [parse_groups]. rewrite take_hex_app by done.
  destruct (Z.eqb_spec (zlen (Itoa (bval a))) 0); [lia|]. destruct (Z.ltb_spec 4 (zlen (Itoa (bval a)))); [lia|]. cbn [orb].
  change (has_prefix (ch_dot :: r) [ch_dot]) with true. cbv iota. rewrite bool_decide_false by done. cbn [andb]. unfold zlen. rewrite Hl. change (16 <? Z.of_nat 2 + 4) with false. cbv iota. by rewrite H4.
Qed.

Lemma ParseIP_mapped ip : zlen ip = 4 -> ParseIP (bs "::ffff:" ++ dotted ip) = Some (v4InV6Prefix ++ ip).
Proof.
  intros Hl. destruct ip as [|a [|b [|c [|d [|? ?]]]]]; try done; [|unfold zlen in Hl; cbn [length] in Hl; lia].
  assert (contains_byte (bs "::ffff:" ++ dotted [a; b; c; d]) x25 = false) as Hp.
  { assert (forall v, Forall (fun x => (addr_char x || (x =b ch_dot)) = true) (Itoa (bval v))) as Hi by (intros v; destruct v; by repeat constructor).
    assert (Forall (fun x => (addr_char x || (x =b ch_dot)) = true) (bs "::ffff:" ++ dotted [a; b; c; d])) as H.
    { apply Forall_app. split; [by repeat constructor|]. unfold dotted. cbn [map join app]. repeat (apply Forall_app; split; [apply Hi|constructor; [done|]]). apply Hi. }
    unfold contains_byte, index_byte. destruct (list_find _ _) as [[i x]|] eqn:E; [|done]. apply list_find_Some in E as (E & -> & _).
    rewrite Forall_lookup in H. by specialize (H _ _ E). }
  unfold ParseIP, ParseAddr. rewrite Hp. change (family_of (bs "::ffff:" ++ dotted [a; b; c; d])) with (Some false). cbv iota. unfold parseIPv6.
  change (has_prefix (bs "::ffff:" ++ dotted [a; b; c; d]) [ch_colon; ch_colon]) with true. cbv iota zeta.
  change (zdrop 2 (bs "::ffff:" ++ dotted [a; b; c; d])) with (group_text 65535 ++ ch_colon :: dotted [a; b; c; d]). cbn [app].
  assert (exists x w, dotted [a; b; c; d] = x :: w /\ (x =b ch_colon) = false) as (x & w & E & Hx) by (unfold dotted; destruct a; eexists _, _; split; reflexivity).
  rewrite (parse_groups_step 7 65535); [|done|by rewrite E]. rewrite parse_groups_dotted by done.
  change (match group_text 65535 ++ ch_colon :: dotted [a; b; c; d] with [] => ?x | _ => ?y end) with y. reflexivity.
Qed.
