(* ===== verification/TimeText.v ===== *)
(** * Times as text (types.go [TimeToString], [StringToTime])

    The layout 20060102150405 of package time, for the Gregorian calendar and
    times after 1970 when printing. *)

From S2P Require Import Prelude Go Escape Strconv Dnssec.

(** ** The calendar *)

Definition leap (y : Z) : bool := (y mod 4 =? 0) && (negb (y mod 100 =? 0) || (y mod 400 =? 0)).
Definition year_days (y : Z) : Z := if leap y then 366 else 365.
Definition month_days (y : Z) : list Z := [31; if leap y then 29 else 28; 31; 30; 31; 30; 31; 31; 30; 31; 30; 31].

(** Days from 1970 to the start of a year. *)
Definition days_before_year (y : Z) : Z :=
  365 * (y - 1970) + ((y - 1) / 4 - 1969 / 4) - ((y - 1) / 100 - 1969 / 100) + ((y - 1) / 400 - 1969 / 400).
Definition days_of (y m d : Z) : Z := days_before_year y + foldr Z.add 0 (take (Z.to_nat (m - 1)) (month_days y)) + (d - 1).

(** The year of a day after 1970, with the day of the year; years go by one by
    one. *)
Fixpoint find_year (fuel : nat) (y days : Z) : Z * Z :=
  match fuel with
  | O => (y, days)
  | S fuel => if year_days y <=? days then find_year fuel (y + 1) (days - year_days y) else (y, days)
  end.
Fixpoint find_month (ms : list Z) (m days : Z) : Z * Z :=
  match ms with
  | n :: ms => if n <=? days then find_month ms (m + 1) (days - n) else (m, days)
  | [] => (m, days)
  end.
Definition date_of (days : Z) : Z * Z * Z :=
  let '(y, days) := find_year (Z.to_nat (days / 365)) 1970 days in
  let '(m, days) := find_month (month_days y) 1 days in
  (y, m, days + 1).

(** ** Printing *)

(** [time.Unix(sec, 0).UTC().Format("20060102150405")] for [0 <= sec]. *)
Definition format_time (sec : Z) : bytes :=
  let '(y, m, d) := date_of (sec / 86400) in
  let s := sec mod 86400 in
  pad0 4 (Itoa y) ++ pad0 2 (Itoa m) ++ pad0 2 (Itoa d) ++
  pad0 2 (Itoa (s / 3600)) ++ pad0 2 (Itoa (s / 60 mod 60)) ++ pad0 2 (Itoa (s mod 60)).

(** [now] is the clock in seconds; [/] rounds towards zero. *)
Definition TimeToString (now t : Z) : bytes :=
  let mod_ := Z.quot (t - now) year68 - 1 in
  let mod_ := if mod_ <? 0 then 0 else mod_ in
  format_time (t - mod_ * year68).

(** ** Reading *)

(** Digits of a fixed number. *)
Definition digits_at (s : bytes) (i n : Z) : option Z :=
  let w := ztake n (zdrop i s) in
  if (zlen w =? n) && forallb isDigit w then ParseUint w 10 64 else None.

(** A fraction of a second is read and dropped. *)
Definition fraction (s : bytes) : bool :=
  match s with
  | [] => true
  | c :: d :: s => ((c =b x2e) || (c =b x2c)) && isDigit d && forallb isDigit s
  | _ => false
  end.

(** [time.Parse("20060102150405", s)], in seconds. *)
Definition parse_time (s : bytes) : option Z :=
  y ← digits_at s 0 4; m ← digits_at s 4 2; d ← digits_at s 6 2;
  h ← digits_at s 8 2; mi ← digits_at s 10 2; sec ← digits_at s 12 2;
  if negb ((1 <=? m) && (m <=? 12) && (h <? 24) && (mi <? 60) && (sec <? 60) && fraction (zdrop 14 s)) then None else
  n ← month_days y !! Z.to_nat (m - 1);
  if (d <? 1) || (n <? d) then None else
  Some (days_of y m d * 86400 + h * 3600 + mi * 60 + sec).

Definition StringToTime (s : bytes) : option Z :=
  t ← parse_time s;
  let mod_ := Z.quot t year68 - 1 in
  let mod_ := if mod_ <? 0 then 0 else mod_ in
  Some ((t - mod_ * year68) mod 2 ^ 32).

Example times : StringToTime (bs "20110403154150") = Some 1301845310 /\ TimeToString 1700000000 1301845310 = bs "20110403154150" /\
  TimeToString 1700000000 (2 ^ 32 - 1) = bs "21060207062815" /\ StringToTime (bs "21060207062816") = Some (2 ^ 31).
Proof. vm_compute. repeat split. Qed.

(** ** Times are read back *)

Lemma next_year y : days_before_year (y + 1) = days_before_year y + year_days y.
Proof.
  unfold days_before_year, year_days, leap. replace (y + 1 - 1) with y by lia.
  destruct (Z.eqb_spec (y mod 4) 0), (Z.eqb_spec (y mod 100) 0), (Z.eqb_spec (y mod 400) 0); cbn [andb orb negb]; dlia.
Qed.

Lemma find_year_spec fuel : forall y days, 0 <= days < 365 * (Z.of_nat fuel + 1) ->
  let '(y', d) := find_year fuel y days in days_before_year y' + d = days_before_year y + days /\ 0 <= d < year_days y' /\ y <= y' <= y + Z.of_nat fuel.
Proof.
  induction fuel as [|fuel IH]; intros y days Hd; cbn [find_year]; (assert (365 <= year_days y) by (unfold year_days; destruct (leap y); lia)); [lia|].
  destruct (Z.leb_spec (year_days y) days); [|lia]. specialize (IH (y + 1) (days - year_days y)).
  destruct (find_year fuel (y + 1) (days - year_days y)) as [y' d]. rewrite next_year in IH. lia.
Qed.

Lemma find_month_spec ms : forall m days, 0 <= days < foldr Z.add 0 ms -> Forall (fun n => 0 < n) ms ->
  let '(m', d) := find_month ms m days in exists k n, m' = m + Z.of_nat k /\ ms !! k = Some n /\ 0 <= d < n /\ foldr Z.add 0 (take k ms) + d = days.
Proof.
  induction ms as [|n ms IH]; intros m days Hd Hp; [cbn in Hd; lia|]. apply Forall_cons in Hp as [Hn Hp]. cbn [find_month foldr] in *. destruct (Z.leb_spec n days).
  - specialize (IH (m + 1) (days - n) ltac:(lia) Hp). destruct (find_month ms (m + 1) (days - n)) as [m' d]. destruct IH as (k & n' & -> & Hk & Hr & Hs).
    exists (S k), n'. cbn [take foldr]. split_and!; [lia|done|lia|lia|lia].
  - exists 0%nat, n. cbn. split_and!; [lia|done|lia|lia|lia].
Qed.

Lemma months_sum y : foldr Z.add 0 (month_days y) = year_days y /\ Forall (fun n => 0 < n) (month_days y) /\ length (month_days y) = 12%nat.
Proof. unfold month_days, year_days. destruct (leap y); (split_and!; [reflexivity|by repeat constructor|reflexivity]). Qed.

(** The date of a day, and the day of the date. *)
Lemma date_of_spec days : 0 <= days -> let '(y, m, d) := date_of days in
  days_of y m d = days /\ 1 <= m <= 12 /\ 1 <= d <= 31 /\ 1970 <= y <= 1970 + days / 365 /\ exists n, month_days y !! Z.to_nat (m - 1) = Some n /\ d <= n.
Proof.
  intros Hd. unfold date_of. pose proof (find_year_spec (Z.to_nat (days / 365)) 1970 days) as Hy. destruct (find_year _ 1970 days) as [y dy].
  assert (0 <= days / 365) by (apply Z.div_pos; lia). rewrite Z2Nat.id in Hy by done. destruct Hy as (H1 & H2 & H3); [pose proof (Z.div_mod days 365 ltac:(lia)); pose proof (Z.mod_pos_bound days 365 ltac:(lia)); lia|].
  destruct (months_sum y) as (Hs & Hp & Hl). rewrite <- Hs in H2. pose proof (find_month_spec (month_days y) 1 dy H2 Hp) as Hm. destruct (find_month (month_days y) 1 dy) as [m dm].
  destruct Hm as (k & n & -> & Hk & Hr & Hsum). pose proof (lookup_lt_Some _ _ _ Hk) as Hlt. rewrite Hl in Hlt.
  change (days_before_year 1970) with 0 in H1. unfold days_of. replace (Z.to_nat (1 + Z.of_nat k - 1)) with k by lia.
  assert (n <= 31) by (unfold month_days in Hk; do 12 (destruct k as [|k]; [injection Hk as <-; destruct (leap y); lia|]); lia).
  split_and!; try lia. exists n. split; [done|lia].
Qed.

(** Digits of a fixed width. *)
Definition fixed (n : nat) (v : Z) : bool :=
  let w := pad0 (Z.of_nat n) (Itoa v) in (zlen w =? Z.of_nat n) && forallb isDigit w && bool_decide (ParseUint w 10 64 = Some v).
Lemma two_digits v : 0 <= v < 100 -> fixed 2 v = true.
Proof.
  assert (forallb (fixed 2) (seqZ 0 100) = true) as H by (vm_compute; reflexivity). intros Hv. rewrite forallb_forall in H. by apply H, list_elem_of_In, elem_of_seqZ.
Qed.
Lemma four_digits v : 1970 <= v < 2110 -> fixed 4 v = true.
Proof.
  assert (forallb (fixed 4) (seqZ 1970 140) = true) as H by (vm_compute; reflexivity). intros Hv. rewrite forallb_forall in H. apply H, list_elem_of_In, elem_of_seqZ. lia.
Qed.

Lemma digits_at_fixed pre n v r i : fixed n v = true -> i = zlen pre -> digits_at (pre ++ pad0 (Z.of_nat n) (Itoa v) ++ r) i (Z.of_nat n) = Some v.
Proof.
  unfold fixed. set (w := pad0 _ _). rewrite !andb_true_iff. intros [[H1 H2] H3%bool_decide_eq_true] ->. unfold digits_at.
  assert (ztake (Z.of_nat n) (zdrop (zlen pre) (pre ++ w ++ r)) = w) as ->.
  { unfold zdrop, zlen. rewrite Nat2Z.id, drop_app_length. unfold ztake. apply Z.eqb_eq in H1. rewrite <- H1. unfold zlen. rewrite Nat2Z.id. apply take_app_length. }
  by rewrite H1, H2.
Qed.
Lemma fixed_length n v : fixed n v = true -> zlen (pad0 (Z.of_nat n) (Itoa v)) = Z.of_nat n /\ Forall (fun c => isDigit c = true) (pad0 (Z.of_nat n) (Itoa v)).
Proof.
  unfold fixed. rewrite !andb_true_iff. intros [[H1 H2] _]. split; [lia|]. rewrite forallb_forall in H2. apply Forall_forall. intros c Hc. by apply H2, list_elem_of_In.
Qed.

(** A time of 32 bits is printed as it is, and read back. *)
Lemma format_time_read t : 0 <= t < 2 ^ 32 -> parse_time (format_time t) = Some t /\ zlen (format_time t) = 14 /\ Forall (fun c => isDigit c = true) (format_time t).
Proof.
  intros Ht. unfold format_time. pose proof (date_of_spec (t / 86400) ltac:(apply Z.div_pos; lia)) as Hd. destruct (date_of (t / 86400)) as [[y m] d].
  destruct Hd as (Hdays & Hm & Hdd & Hy & n & Hn & Hdn). set (s := t mod 86400). assert (0 <= s < 86400) as Hs by (apply Z.mod_pos_bound; lia).
  assert (t / 86400 / 365 <= 136) as Hmax by dlia.
  pose proof (four_digits y ltac:(lia)) as F1. pose proof (two_digits m ltac:(lia)) as F2. pose proof (two_digits d ltac:(lia)) as F3.
  pose proof (two_digits (s / 3600) ltac:(dlia)) as F4. pose proof (two_digits (s / 60 mod 60) ltac:(dlia)) as F5. pose proof (two_digits (s mod 60) ltac:(dlia)) as F6.
  destruct (fixed_length _ _ F1) as [L1 D1], (fixed_length _ _ F2) as [L2 D2], (fixed_length _ _ F3) as [L3 D3], (fixed_length _ _ F4) as [L4 D4], (fixed_length _ _ F5) as [L5 D5], (fixed_length _ _ F6) as [L6 D6].
  pose proof (fun pre r => digits_at_fixed pre 4 y r) as A1. pose proof (fun pre r => digits_at_fixed pre 2 m r) as A2. pose proof (fun pre r => digits_at_fixed pre 2 d r) as A3.
  pose proof (fun pre r => digits_at_fixed pre 2 (s / 3600) r) as A4. pose proof (fun pre r => digits_at_fixed pre 2 (s / 60 mod 60) r) as A5. pose proof (fun pre r => digits_at_fixed pre 2 (s mod 60) r) as A6.
  change (Z.of_nat 4) with 4 in *. change (Z.of_nat 2) with 2 in *.
  set (w1 := pad0 4 (Itoa y)) in *. set (w2 := pad0 2 (Itoa m)) in *. set (w3 := pad0 2 (Itoa d)) in *. set (w4 := pad0 2 (Itoa (s / 3600))) in *.
  set (w5 := pad0 2 (Itoa (s / 60 mod 60))) in *. set (w6 := pad0 2 (Itoa (s mod 60))) in *.
  split; [|split; [rewrite !zlen_app; lia|repeat (apply Forall_app; split; [done|]); done]]. unfold parse_time.
  specialize (A1 [] (w2 ++ w3 ++ w4 ++ w5 ++ w6) 0 F1 eq_refl). cbn [app] in A1. rewrite A1. cbn [mbind option_bind].
  rewrite (A2 w1 (w3 ++ w4 ++ w5 ++ w6) 4 F2 ltac:(lia)). cbn [mbind option_bind].
  specialize (A3 (w1 ++ w2) (w4 ++ w5 ++ w6) 6 F3 ltac:(rewrite zlen_app; lia)). rewrite <- !app_assoc in A3. rewrite A3. cbn [mbind option_bind].
  specialize (A4 (w1 ++ w2 ++ w3) (w5 ++ w6) 8 F4 ltac:(rewrite !zlen_app; lia)). rewrite <- !app_assoc in A4. rewrite A4. cbn [mbind option_bind].
  specialize (A5 (w1 ++ w2 ++ w3 ++ w4) w6 10 F5 ltac:(rewrite !zlen_app; lia)). rewrite <- !app_assoc in A5. rewrite A5. cbn [mbind option_bind].
  specialize (A6 (w1 ++ w2 ++ w3 ++ w4 ++ w5) [] 12 F6 ltac:(rewrite !zlen_app; lia)). rewrite <- !app_assoc, app_nil_r in A6. rewrite A6. cbn [mbind option_bind].
  assert (zdrop 14 (w1 ++ w2 ++ w3 ++ w4 ++ w5 ++ w6) = []) as -> by (unfold zdrop; apply drop_ge; enough (zlen (w1 ++ w2 ++ w3 ++ w4 ++ w5 ++ w6) = 14) by (unfold zlen in *; lia); rewrite !zlen_app; lia).
  assert (((1 <=? m) && (m <=? 12) && (s / 3600 <? 24) && (s / 60 mod 60 <? 60) && (s mod 60 <? 60) && fraction []) = true) as ->.
  { rewrite !andb_true_iff. split_and!; [lia|lia|dlia|dlia|dlia|done]. }
  cbn [negb]. rewrite Hn. cbn [mbind option_bind]. assert (((d <? 1) || (n <? d)) = false) as -> by lia. f_equal. rewrite Hdays. subst s. dlia.
Qed.

Lemma StringToTime_TimeToString now t : 0 <= now -> 0 <= t < 2 ^ 32 -> StringToTime (TimeToString now t) = Some t /\ Forall (fun c => isDigit c = true) (TimeToString now t) /\ TimeToString now t <> [].
Proof.
  intros Hnow Ht. assert (forall x, x < 2 ^ 32 -> (if Z.quot x year68 - 1 <? 0 then 0 else Z.quot x year68 - 1) = 0) as Hq.
  { intros x Hx. assert (Z.quot x year68 <= 1); [|destruct (Z.ltb_spec (Z.quot x year68 - 1) 0); lia]. change year68 with (2 ^ 31). destruct (Z.le_gt_cases 0 x).
    - rewrite Z.quot_div_nonneg by lia. pose proof (Z.div_lt_upper_bound x (2 ^ 31) 2). lia.
    - pose proof (Z.quot_opp_l (- x) (2 ^ 31) ltac:(lia)) as E. rewrite Z.opp_involutive in E. rewrite E. pose proof (Z.quot_pos (- x) (2 ^ 31)). lia. }
  unfold TimeToString. rewrite Hq by lia. rewrite Z.mul_0_l, Z.sub_0_r. destruct (format_time_read t Ht) as (Hp & Hl & Hd). split_and!; [|done|by intros E; rewrite E in Hl].
  unfold StringToTime. rewrite Hp. cbn [mbind option_bind]. rewrite Hq by lia. rewrite Z.mul_0_l, Z.sub_0_r. f_equal. apply Z.mod_small. lia.
Qed.
