(* ===== verification/Types.v ===== *)
(** * Mnemonics of types and classes (defaults.go, reverse.go, msg.go)

    [Type.String] and [Class.String], the reversed tables and what the scanner
    reads [TYPEnnn] and [CLASSnnn] with. *)

From S2P Require Import Prelude Go Labels Escape Encodings Strconv RR Ztypes Dnssec.

#[local] Open Scope string_scope.

Definition ClassINET : Z := 1.
Definition ClassCSNET : Z := 2.
Definition ClassCHAOS : Z := 3.
Definition ClassHESIOD : Z := 4.
Definition ClassNONE : Z := 254.
Definition ClassANY : Z := 255.

Definition ClassToString : list (Z * String.string) :=
  [(ClassINET, "IN"); (ClassCSNET, "CS"); (ClassCHAOS, "CH"); (ClassHESIOD, "HS"); (ClassNONE, "NONE"); (ClassANY, "ANY")].

Definition CertTypeToString : list (Z * String.string) :=
  [(1, "PKIX"); (2, "SPKI"); (3, "PGP"); (4, "IPIX"); (5, "ISPKI"); (6, "IPGP"); (7, "ACPKIX"); (8, "IACPKIX"); (253, "URI"); (254, "OID")].

(** The middle of the angles of a LOC record. *)
Definition LOC_EQUATOR : Z := Z.shiftl 1 31.

(** A map from numbers to names, and its reverse; no name occurs twice. *)
Definition name_of (m : list (Z * String.string)) (k : Z) : option bytes :=
  match list_find (fun e => e.1 = k) m with Some (_, (_, s)) => Some (bs s) | None => None end.
Definition reverse_map (m : list (Z * String.string)) : list (bytes * Z) := map (fun e => (bs e.2, e.1)) m.
Definition number_of (m : list (bytes * Z)) (s : bytes) : option Z :=
  match list_find (fun e => e.1 = s) m with Some (_, (_, k)) => Some k | None => None end.

Definition StringToType : list (bytes * Z) := reverse_map TypeToString.
Definition StringToClass : list (bytes * Z) := reverse_map ClassToString.
Definition StringToAlgorithm : list (bytes * Z) := reverse_map AlgorithmToString.
Definition StringToCertType : list (bytes * Z) := reverse_map CertTypeToString.

Definition Type_String (t : Z) : bytes :=
  match name_of TypeToString t with Some s => s | None => bs "TYPE" ++ Itoa t end.

Definition Class_String (c : Z) : bytes :=
  match name_of ClassToString c with
  | Some s => match number_of StringToType s with None => s | Some _ => bs "CLASS" ++ Itoa c end
  | None => bs "CLASS" ++ Itoa c
  end.

(** scan.go [typeToInt] and [classToInt]; the callers discard the number when
    there is none. *)
Definition number_after (offset : Z) (token : bytes) : option Z :=
  if zlen token <? offset + 1 then None else ParseUint (zdrop offset token) 10 16.
Definition typeToInt (token : bytes) : option Z := number_after 4 token.
Definition classToInt (token : bytes) : option Z := number_after 5 token.

(** What a token in capitals names. *)
Definition type_of_token (upper token : bytes) : option Z :=
  match number_of StringToType upper with Some t => Some t | None => typeToInt token end.

(** ** Facts *)

Lemma number_after_Itoa p v : 0 <= v < 65536 -> number_after (zlen p) (p ++ Itoa v) = Some v.
Proof.
  intros Hv. unfold number_after. destruct (Itoa_digits v ltac:(lia)) as [Hn _]. rewrite zlen_app.
  assert (1 <= zlen (Itoa v)) by (destruct (Itoa v); [done|]; rewrite zlen_cons; pose proof (zlen_nonneg l); lia).
  destruct (Z.ltb_spec (zlen p + zlen (Itoa v)) (zlen p + 1)); [lia|].
  assert (zdrop (zlen p) (p ++ Itoa v) = Itoa v) as -> by (unfold zdrop, zlen; rewrite Nat2Z.id; apply drop_app_length).
  by apply ParseUint_Itoa.
Qed.
