(* ===== verification/Lexer.v ===== *)
(** * The tokenizer of zone files (scan.go [zlexer])

    [Next] reads octets until it has a token, [Peek] looks one token ahead.
    The reader is the octets it still gives and the error it ends with.  The
    buffers [str] and [com] are the octets written so far; of their capacities
    only the comment's can be observed. *)

From S2P Require Import Prelude Go Labels Escape Encodings Strconv RR Ztypes Dnssec Types.

#[local] Open Scope string_scope.

(** ** Tokens *)

Definition zEOF : Z := 0.
Definition zString : Z := 1.
Definition zBlank : Z := 2.
Definition zQuote : Z := 3.
Definition zNewline : Z := 4.
Definition zRrtpe : Z := 5.
Definition zOwner : Z := 6.
Definition zClass : Z := 7.
Definition zDirOrigin : Z := 8.
Definition zDirTTL : Z := 9.
Definition zDirInclude : Z := 10.
Definition zDirGenerate : Z := 11.

Definition maxTok : Z := 512.

Record lex := MkLex { token : bytes; err : bool; value : Z; torc : Z; line : Z; column : Z }.
Definition no_lex : lex := MkLex [] false 0 0 0 0.

#[export] Instance lex_eq_dec : EqDecision lex.
Proof. solve_decision. Defined.

Record ParseError := MkParseError { pe_file : bytes; pe_err : bytes; pe_lex : lex }.

(** What a reader can end with: the error of a $GENERATE reader, or another;
    [io.EOF] is no error. *)
Inductive read_error := R_parse (e : ParseError) | R_other (text : bytes).

(** ** The state *)

Record zlexer := MkLexer {
  br : bytes;                          (* what the reader still gives *)
  br_err : option read_error;          (* what it ends with *)
  at_end : bool;                       (* readErr != nil *)
  zl_line : Z; zl_column : Z;
  comBuf : bytes; comment : bytes;
  zl_l : lex; cachedL : option lex;
  brace : Z; quote : bool; space : bool; commt : bool; rrtype : bool; owner : bool;
  nextL : bool;
  eol : bool
}.

Definition newZLexer (r : bytes) (e : option read_error) : zlexer :=
  MkLexer r e false 1 0 [] [] no_lex None 0 false false false false true false false.

Definition lexer_Err (zl : zlexer) : option read_error := if at_end zl then br_err zl else None.

Definition set_l (l : lex) (z : zlexer) := MkLexer (br z) (br_err z) (at_end z) (zl_line z) (zl_column z) (comBuf z) (comment z) l (cachedL z) (brace z) (quote z) (space z) (commt z) (rrtype z) (owner z) (nextL z) (eol z).
Definition set_cachedL (c : option lex) (z : zlexer) := MkLexer (br z) (br_err z) (at_end z) (zl_line z) (zl_column z) (comBuf z) (comment z) (zl_l z) c (brace z) (quote z) (space z) (commt z) (rrtype z) (owner z) (nextL z) (eol z).
Definition set_comBuf (c : bytes) (z : zlexer) := MkLexer (br z) (br_err z) (at_end z) (zl_line z) (zl_column z) c (comment z) (zl_l z) (cachedL z) (brace z) (quote z) (space z) (commt z) (rrtype z) (owner z) (nextL z) (eol z).
Definition set_comment (c : bytes) (z : zlexer) := MkLexer (br z) (br_err z) (at_end z) (zl_line z) (zl_column z) (comBuf z) c (zl_l z) (cachedL z) (brace z) (quote z) (space z) (commt z) (rrtype z) (owner z) (nextL z) (eol z).
Definition set_brace (b : Z) (z : zlexer) := MkLexer (br z) (br_err z) (at_end z) (zl_line z) (zl_column z) (comBuf z) (comment z) (zl_l z) (cachedL z) b (quote z) (space z) (commt z) (rrtype z) (owner z) (nextL z) (eol z).
Definition set_quote (b : bool) (z : zlexer) := MkLexer (br z) (br_err z) (at_end z) (zl_line z) (zl_column z) (comBuf z) (comment z) (zl_l z) (cachedL z) (brace z) b (space z) (commt z) (rrtype z) (owner z) (nextL z) (eol z).
Definition set_space (b : bool) (z : zlexer) := MkLexer (br z) (br_err z) (at_end z) (zl_line z) (zl_column z) (comBuf z) (comment z) (zl_l z) (cachedL z) (brace z) (quote z) b (commt z) (rrtype z) (owner z) (nextL z) (eol z).
Definition set_commt (b : bool) (z : zlexer) := MkLexer (br z) (br_err z) (at_end z) (zl_line z) (zl_column z) (comBuf z) (comment z) (zl_l z) (cachedL z) (brace z) (quote z) (space z) b (rrtype z) (owner z) (nextL z) (eol z).
Definition set_rrtype (b : bool) (z : zlexer) := MkLexer (br z) (br_err z) (at_end z) (zl_line z) (zl_column z) (comBuf z) (comment z) (zl_l z) (cachedL z) (brace z) (quote z) (space z) (commt z) b (owner z) (nextL z) (eol z).
Definition set_owner (b : bool) (z : zlexer) := MkLexer (br z) (br_err z) (at_end z) (zl_line z) (zl_column z) (comBuf z) (comment z) (zl_l z) (cachedL z) (brace z) (quote z) (space z) (commt z) (rrtype z) b (nextL z) (eol z).
Definition set_nextL (b : bool) (z : zlexer) := MkLexer (br z) (br_err z) (at_end z) (zl_line z) (zl_column z) (comBuf z) (comment z) (zl_l z) (cachedL z) (brace z) (quote z) (space z) (commt z) (rrtype z) (owner z) b (eol z).

(** [l.value, l.token = v, t] and the like, on the lexer's own token. *)
Definition put (v : Z) (t : bytes) (z : zlexer) : zlexer :=
  set_l (MkLex t (err (zl_l z)) v (torc (zl_l z)) (line (zl_l z)) (column (zl_l z))) z.
Definition put_torc (v t : Z) (z : zlexer) : zlexer :=
  set_l (MkLex (token (zl_l z)) (err (zl_l z)) v t (line (zl_l z)) (column (zl_l z))) z.
Definition put_err (t : bytes) (z : zlexer) : zlexer :=
  set_l (MkLex t true (value (zl_l z)) (torc (zl_l z)) (line (zl_l z)) (column (zl_l z))) z.
Definition put_place (z : zlexer) : zlexer :=
  set_l (MkLex (token (zl_l z)) (err (zl_l z)) (value (zl_l z)) (torc (zl_l z)) (zl_line z) (zl_column z)) z.

(** [readByte] of a reader that has [x] next and [r] after it. *)
Definition take_byte (x : byte) (r : bytes) (z : zlexer) : zlexer :=
  let line := if eol z then zl_line z + 1 else zl_line z in
  let column := if eol z then 0 else zl_column z in
  let nl := x =b x0a in
  MkLexer r (br_err z) (at_end z) line (if nl then column else column + 1) (comBuf z) (comment z) (zl_l z) (cachedL z)
    (brace z) (quote z) (space z) (commt z) (rrtype z) (owner z) (nextL z) nl.
Definition set_at_end (z : zlexer) := MkLexer (br z) (br_err z) true (zl_line z) (zl_column z) (comBuf z) (comment z) (zl_l z) (cachedL z) (brace z) (quote z) (space z) (commt z) (rrtype z) (owner z) (nextL z) (eol z).

(** ** One octet *)

(** The local variables of [Next]. *)
Record scan := MkScan { str : bytes; com : bytes; com_cap : Z; escape : bool }.
Definition keep (x : byte) (t : scan) : scan := MkScan (str t ++ [x]) (com t) (com_cap t) false.
Definition note (x : byte) (t : scan) : scan := MkScan (str t) (com t ++ [x]) (com_cap t) (escape t).
Definition unescape (t : scan) : scan := MkScan (str t) (com t) (com_cap t) false.

(** The loop goes on, or [Next] returns. *)
Definition go (z : zlexer) (t : scan) : (zlexer * scan) + (lex * bool * zlexer) := inl (z, t).
Definition give (l : lex) (z : zlexer) : (zlexer * scan) + (lex * bool * zlexer) := inr (l, true, z).
Definition give_l (z : zlexer) := give (zl_l z) z.

Section Lexer.
Context {casing : Casing}.

(** The first word of a line. *)
Definition owner_value (tok : bytes) : Z :=
  let u := ToUpper tok in
  if bool_decide (u = bs "$TTL") then zDirTTL
  else if bool_decide (u = bs "$ORIGIN") then zDirOrigin
  else if bool_decide (u = bs "$INCLUDE") then zDirInclude
  else if bool_decide (u = bs "$GENERATE") then zDirGenerate
  else zOwner.

(** The two lookups of a later word before the type was seen: the type, then the
    class; [inr] is a token in error. *)
Definition lookup_type (z : zlexer) : zlexer + zlexer :=
  let tok := token (zl_l z) in
  let u := ToUpper tok in
  match number_of StringToType u with
  | Some t => inl (set_rrtype true (put_torc zRrtpe t z))
  | None =>
      if has_prefix u (bs "TYPE") then
        match typeToInt tok with
        | None => inr (put_err (bs "unknown RR type") z)
        | Some t => inl (set_rrtype true (put_torc zRrtpe t z))
        end
      else inl z
  end.
Definition lookup_class (tok : bytes) (z : zlexer) : zlexer + zlexer :=
  let u := ToUpper tok in
  match number_of StringToClass u with
  | Some t => inl (put_torc zClass t z)
  | None =>
      if has_prefix u (bs "CLASS") then
        match classToInt tok with
        | None => inr (put_err (bs "unknown class") z)
        | Some t => inl (put_torc zClass t z)
        end
      else inl z
  end.
Definition lookup_word (z : zlexer) : zlexer + zlexer :=
  if rrtype z then inl z
  else match lookup_type z with
       | inr z => inr z
       | inl z' => lookup_class (token (zl_l z)) z'
       end.

(** What comes before a blank: the token to return first, if any. *)
Definition before_blank (z : zlexer) (t : scan) : zlexer * option lex + zlexer :=
  match str t with
  | [] => inl (z, None)
  | _ =>
      if owner z then
        let z := put (owner_value (str t)) (str t) z in inl (z, Some (zl_l z))
      else
        match lookup_word (put zString (str t) z) with
        | inl z => inl (z, Some (zl_l z))
        | inr z => inr z
        end
  end.

Definition on_blank (z : zlexer) (t : scan) (x : byte) :=
  if escape t || quote z then go z (keep x t)
  else if commt z then go z (note x t)
  else
    match before_blank z t with
    | inr z => give_l z
    | inl (z, retL) =>
        let z := set_owner false z in
        if space z then match retL with Some l => give l z | None => go z t end
        else
          let z := put zBlank [ch_space] (set_space true z) in
          match retL with None => give_l z | Some l => give l (set_nextL true z) end
    end.

Definition on_semicolon (z : zlexer) (t : scan) (x : byte) :=
  if escape t || quote z then go z (keep x t)
  else
    let z := set_comBuf [] (set_commt true z) in
    let spaced := 1 <? zlen (com t) in
    let t := if spaced then note ch_space t else t in
    if spaced && (com_cap t <=? zlen (com t)) then give_l (put_err (bs "comment length insufficient for parsing") z)
    else
      let t := note x t in
      match str t with
      | [] => go z t
      | _ => give_l (put zString (str t) (set_comBuf (com t) z))
      end.

Definition on_newline (z : zlexer) (t : scan) (x : byte) :=
  let t := unescape t in
  if quote z then go z (keep x t)
  else if commt z then
    let z := set_rrtype false (set_commt false z) in
    if brace z =? 0 then give_l (set_comment (com t) (put zNewline [x0a] (set_owner true z)))
    else go (set_comBuf (com t) z) t
  else if brace z =? 0 then
    let '(z, retL) :=
      match str t with
      | [] => (z, None)
      | _ =>
          let z := put zString (str t) z in
          let z := if rrtype z then z
                   else match number_of StringToType (ToUpper (str t)) with
                        | Some ty => put_torc zRrtpe ty (set_rrtype true z)
                        | None => z
                        end in
          (z, Some (zl_l z))
      end in
    let z := put zNewline [x0a] z in
    let z := set_owner true (set_rrtype false (set_comBuf [] (set_comment (comBuf z) z))) in
    match retL with Some l => give l (set_nextL true z) | None => give_l z end
  else go z t.

Definition on_backslash (z : zlexer) (t : scan) (x : byte) :=
  if commt z then go z (note x t)
  else if escape t then go z (keep x t)
  else go z (MkScan (str t ++ [x]) (com t) (com_cap t) true).

Definition on_quote (z : zlexer) (t : scan) (x : byte) :=
  if commt z then go z (note x t)
  else if escape t then go z (keep x t)
  else
    let z := set_space false z in
    let '(z, retL) :=
      match str t with
      | [] => (z, None)
      | _ => let z := put zString (str t) z in (z, Some (zl_l z))
      end in
    let z := put zQuote [ch_quote] z in
    let z := set_quote (negb (quote z)) z in
    match retL with Some l => give l (set_nextL true z) | None => give_l z end.

Definition on_brace (z : zlexer) (t : scan) (x : byte) :=
  if commt z then go z (note x t)
  else if escape t || quote z then go z (keep x t)
  else if x =b x29 then
    let z := set_brace (brace z - 1) z in
    if brace z <? 0 then give_l (put_err (bs "extra closing brace") z) else go z t
  else go (set_brace (brace z + 1) z) t.

Definition on_other (z : zlexer) (t : scan) (x : byte) :=
  let t := unescape t in
  if commt z then go z (note x t) else go (set_space false z) (keep x t).

(** The body of the loop. *)
Definition lex_step (z : zlexer) (t : scan) (x : byte) :=
  let z := put_place z in
  let t := if com_cap t <=? zlen (com t) then MkScan (str t) (com t) (com_cap t + maxTok) (escape t) else t in
  if (x =b ch_space) || (x =b x09) then on_blank z t x
  else if x =b x3b then on_semicolon z t x
  else if x =b x0d then
    let t := unescape t in go z (if quote z then keep x t else t)
  else if x =b x0a then on_newline z t x
  else if x =b ch_bslash then on_backslash z t x
  else if x =b ch_quote then on_quote z t x
  else if (x =b x28) || (x =b x29) then on_brace z t x
  else on_other z t x.

(** ** The end of the input *)

Definition lex_end (z : zlexer) (t : scan) : lex * bool * zlexer :=
  match br_err z with
  | Some _ => (no_lex, false, z)
  | None =>
      let '(z, retL) :=
        match str t with
        | [] => (z, None)
        | _ => let z := put zString (str t) z in (z, Some (zl_l z))
        end in
      match retL, com t with
      | Some l, [] => (l, true, z)
      | _, _ :: _ =>
          let z := set_comment (com t) (put zNewline [x0a] z) in
          match retL with Some l => (l, true, set_nextL true z) | None => (zl_l z, true, z) end
      | None, [] =>
          if negb (brace z =? 0) then let z := put_err (bs "unbalanced brace") z in (zl_l z, true, z)
          else (no_lex, false, z)
      end
  end.

(** ** Next and Peek *)

(** The loop over the octets of the reader. *)
Fixpoint lex_loop (r : bytes) (z : zlexer) (t : scan) : lex * bool * zlexer :=
  match r with
  | [] => lex_end (set_at_end z) t
  | x :: r =>
      match lex_step (take_byte x r z) t x with
      | inl (z, t) => lex_loop r z t
      | inr res => res
      end
  end.

Definition Next (z : zlexer) : lex * bool * zlexer :=
  match cachedL z with
  | Some l => (l, true, set_cachedL None z)
  | None =>
      if nextL z then (zl_l z, true, set_nextL false z)
      else if err (zl_l z) then (no_lex, false, z)
      else
        let com := ztake maxTok (comBuf z) in
        let z := set_comment [] (set_comBuf [] z) in
        if at_end z then lex_end z (MkScan [] com maxTok false)
        else lex_loop (br z) z (MkScan [] com maxTok false)
  end.

Definition Peek (z : zlexer) : lex * zlexer :=
  if nextL z then (zl_l z, z)
  else
    let '(l, ok, z) := Next z in
    if negb ok then (l, z)
    else if nextL z then (l, set_cachedL (Some l) z)
    else (l, set_nextL true z).

Definition Comment (z : zlexer) : bytes := if err (zl_l z) then [] else comment z.
End Lexer.
