(* ===== verification/LexCarry.v ===== *)
(** * Facts about the tokenizer

    Every call of [Next] uses something up, so a zone file of n octets has at most
    4 n + 5 tokens; the tokens of a line that is made of words and quoted strings. *)

From S2P Require Import Prelude Go Labels Escape Encodings Strconv RR Ztypes Dnssec Types Lexer.

Section Lexing.
Context {casing : Casing}.

(** ** Termination *)

(** What is left: the octets of the reader, its end, a comment that was carried
    over, tokens that are waiting, and an error that was not met. *)
Definition b2n (b : bool) : nat := if b then 1 else 0.
Definition left_over (z : zlexer) : nat :=
  (if at_end z then 0 else 4 * length (br z) + 4) + (if decide (comBuf z = []) then 0 else 2) +
  b2n (nextL z) + b2n (bool_decide (cachedL z <> None)) + (1 - b2n (err (zl_l z))).

(** The fields an octet of the loop leaves alone. *)
Definition steady (z z' : zlexer) : Prop :=
  br z' = br z /\ at_end z' = at_end z /\ cachedL z' = cachedL z /\ br_err z' = br_err z.

Lemma lookup_type_steady z : match lookup_type z with inl z' | inr z' => steady z z' /\ nextL z' = nextL z /\ comBuf z' = comBuf z end.
Proof. unfold lookup_type. destruct (number_of _ _); [done|]. destruct (has_prefix _ _); [|done]. by destruct (typeToInt _). Qed.

Lemma lookup_class_steady tok z : match lookup_class tok z with inl z' | inr z' => steady z z' /\ nextL z' = nextL z /\ comBuf z' = comBuf z end.
Proof. unfold lookup_class. destruct (number_of _ _); [done|]. destruct (has_prefix _ _); [|done]. by destruct (classToInt _). Qed.

Lemma lookup_word_steady z : match lookup_word z with inl z' | inr z' => steady z z' /\ nextL z' = nextL z /\ comBuf z' = comBuf z end.
Proof.
  unfold lookup_word. destruct (rrtype z); [done|]. pose proof (lookup_type_steady z) as H. destruct (lookup_type z) as [z1|z1]; [|done].
  pose proof (lookup_class_steady (token (zl_l z)) z1) as H1. destruct (lookup_class _ _) as [z2|z2];
    destruct H as ((E1 & E2 & E3 & E4) & E5 & E6), H1 as ((F1 & F2 & F3 & F4) & F5 & F6); unfold steady; split_and!; congruence.
Qed.

Lemma before_blank_steady z t : match before_blank z t with inl (z', _) | inr z' => steady z z' /\ nextL z' = nextL z /\ comBuf z' = comBuf z end.
Proof.
  unfold before_blank. destruct (str t); [done|]. destruct (owner z); [done|].
  pose proof (lookup_word_steady (put zString (b :: l) z)) as H. by destruct (lookup_word _).
Qed.

(** One octet: the loop goes on with the same reader, or a token is given. *)
Lemma lex_step_steady z t x :
  match lex_step z t x with
  | inl (z', _) => steady z z' /\ nextL z' = nextL z
  | inr (_, _, z') => steady z z'
  end.
Proof.
  unfold lex_step. set (z0 := put_place z). assert (steady z z0 /\ nextL z0 = nextL z) as [Hs Hn] by done. clearbody z0.
  set (t0 := if com_cap t <=? _ then _ else t). clearbody t0.
  assert (forall z', steady z0 z' -> steady z z') as Ht.
  { intros z' (E1 & E2 & E3 & E4). destruct Hs as (F1 & F2 & F3 & F4). unfold steady. split_and!; congruence. }
  destruct (_ || _).
  { unfold on_blank, go, give, give_l. pose proof (before_blank_steady z0 t0) as H. destruct (escape t0 || quote z0); [done|]. destruct (commt z0); [done|].
    destruct (before_blank z0 t0) as [[z1 retL]|z1]; destruct H as (H1 & H2 & H3); [|by apply Ht].
    destruct (space (set_owner false z1)), retL; (try split); try (by apply Ht); cbn; congruence. }
  destruct (_ =b _).
  { unfold on_semicolon, go, give, give_l. destruct (escape t0 || quote z0); [split; [by apply Ht|done]|].
    destruct (_ && _); [by apply Ht|]. destruct (str _); [split; [by apply Ht|done]|by apply Ht]. }
  destruct (_ =b _). { unfold go. split; [by apply Ht|done]. }
  destruct (_ =b _).
  { unfold on_newline, go, give, give_l. destruct (quote z0); [split; [by apply Ht|done]|].
    destruct (commt z0).
    - cbn [set_commt set_rrtype brace]. destruct (brace z0 =? 0); [by apply Ht|split; [by apply Ht|done]].
    - destruct (brace z0 =? 0); [|split; [by apply Ht|done]]. destruct (str _); [by apply Ht|]. cbn [rrtype put set_l].
      destruct (rrtype z0); [by apply Ht|]. destruct (number_of _ _); by apply Ht. }
  destruct (_ =b _). { unfold on_backslash, go. destruct (commt z0), (escape t0); (split; [by apply Ht|done]). }
  destruct (_ =b _).
  { unfold on_quote, go, give, give_l. destruct (commt z0); [split; [by apply Ht|done]|]. destruct (escape t0); [split; [by apply Ht|done]|].
    destruct (str t0); by apply Ht. }
  destruct (_ || _).
  { unfold on_brace, go, give_l. destruct (commt z0); [split; [by apply Ht|done]|]. destruct (escape t0 || quote z0); [split; [by apply Ht|done]|].
    destruct (_ =b _); [|split; [by apply Ht|done]]. destruct (_ <? _); [by apply Ht|split; [by apply Ht|done]]. }
  unfold on_other, go. destruct (commt z0); (split; [by apply Ht|done]).
Qed.

Lemma b2n_le b : (b2n b <= 1)%nat.
Proof. destruct b; cbn; lia. Qed.

Lemma lex_end_left z t l z' : lex_end z t = (l, true, z') -> at_end z = true -> cachedL z = None ->
  (left_over z' <= 1 + b2n (nextL z || bool_decide (str t <> [])) + if decide (comBuf z = []) then 0 else 2)%nat /\
  (str t = [] -> com t = [] -> (left_over z' <= b2n (nextL z) + if decide (comBuf z = []) then 0 else 2)%nat).
Proof.
  unfold lex_end. intros H He Hc. destruct (br_err z); [done|]. pose proof (b2n_le (err (zl_l z'))).
  destruct (str t) as [|c s]; cbn in H.
  - destruct (com t).
    + destruct (brace z =? 0); [discriminate H|]. injection H as <- <-. unfold left_over. cbn. rewrite He, Hc. cbn. destruct (nextL z), (decide _); cbn; lia.
    + injection H as <- <-. split; [|done]. unfold left_over. cbn. rewrite He, Hc. cbn. destruct (nextL z), (decide _), (err (zl_l z)); cbn; lia.
  - destruct (com t); injection H as <- <-; (split; [|done]); unfold left_over; cbn; rewrite He, Hc; cbn;
      destruct (nextL z), (decide _), (err (zl_l z)); cbn; lia.
Qed.

Lemma lex_loop_left r : forall z t l z', lex_loop r z t = (l, true, z') ->
  at_end z = false -> cachedL z = None -> nextL z = false -> (left_over z' <= 4 * length r + 4)%nat.
Proof.
  induction r as [|x r IH]; intros z t l z' H He Hc Hn; cbn [lex_loop] in H.
  - apply lex_end_left in H as [H _]; [|done|done]. cbn in H. rewrite Hn in H. cbn in H.
    destruct (bool_decide _), (decide _); cbn in H; lia.
  - pose proof (lex_step_steady (take_byte x r z) t x) as Hs. destruct (lex_step _ _ _) as [[z1 t1]|[[l1 ok] z1]].
    + destruct Hs as ((S1 & S2 & S3 & S4) & S5). apply IH in H; [cbn [length]; lia|..]; [by rewrite S2|by rewrite S3|by rewrite S5].
    + injection H as -> -> ->. destruct Hs as (S1 & S2 & S3 & S4). unfold left_over. rewrite S1, S2, S3. cbn [take_byte br at_end cachedL].
      rewrite He, Hc. cbn [length]. pose proof (b2n_le (nextL z')). pose proof (b2n_le (err (zl_l z'))). cbn. destruct (decide _); lia.
Qed.

(** Every token that is given uses something up. *)
Lemma Next_progress z l z' : Next z = (l, true, z') -> (left_over z' < left_over z)%nat.
Proof.
  unfold Next. destruct (cachedL z) as [c|] eqn:Hc.
  { intros [= <- <-]. unfold left_over. cbn. rewrite Hc. cbn. lia. }
  destruct (nextL z) eqn:Hn. { intros [= <- <-]. unfold left_over. cbn. rewrite Hn, Hc. cbn. lia. }
  destruct (err (zl_l z)) eqn:Hr; [done|]. set (com0 := ztake _ _). set (z0 := set_comment _ _).
  assert (left_over z = (if at_end z then 0 else 4 * length (br z) + 4) + (if decide (comBuf z = []) then 0 else 2) + 1)%nat as Hz.
  { unfold left_over. rewrite Hc, Hn, Hr. cbn. lia. }
  change (at_end z0) with (at_end z). destruct (at_end z) eqn:He; intros H.
  - apply lex_end_left in H as [H1 H2]; [|done|done]. change (nextL z0) with (nextL z) in H1. change (comBuf z0) with (@nil byte) in H1.
    rewrite Hn, decide_True in H1 by done. cbn in H1. destruct (decide (comBuf z = [])) as [E|E].
    + try rewrite decide_True in Hz by done. assert (left_over z' <= 0)%nat; [|lia]. etransitivity; [apply H2; [done|unfold com0; cbn; by rewrite E]|].
      change (nextL z0) with (nextL z). change (comBuf z0) with (@nil byte). rewrite Hn, decide_True by done. cbn. lia.
    + lia.
  - apply lex_loop_left in H; [|done..]. change (br z0) with (br z) in H. destruct (decide _) in Hz; lia.
Qed.
(** All tokens, as a client's loop reads them. *)
Fixpoint drain (fuel : nat) (z : zlexer) : option (list lex * zlexer) :=
  match fuel with
  | O => None
  | S fuel =>
      match Next z with
      | (l, true, z) => '(ls, z) ← drain fuel z; Some (l :: ls, z)
      | (_, false, z) => Some ([], z)
      end
  end.

Lemma drain_ends n : forall z, (left_over z < n)%nat -> exists ls z', drain n z = Some (ls, z') /\ (length ls <= left_over z)%nat.
Proof.
  induction n as [|n IH]; intros z Hz; [lia|]. cbn [drain]. destruct (Next z) as [[l ok] z1] eqn:E. destruct ok.
  - pose proof (Next_progress z l z1 E). destruct (IH z1 ltac:(lia)) as (ls & z2 & -> & Hl). eexists _, _. split; [reflexivity|]. cbn. lia.
  - eexists _, _. split; [reflexivity|]. cbn. lia.
Qed.

(** The tokenizer comes to an end: a client that calls [Next] until it says that
    there is nothing left gets at most four tokens for each octet of the zone
    file and five more, whatever the file holds and however the reader ends. *)
Theorem lexing_ends r e :
  exists ls z, drain (4 * length r + 6) (newZLexer r e) = Some (ls, z) /\ (length ls <= 4 * length r + 5)%nat.
Proof.
  assert (left_over (newZLexer r e) = 4 * length r + 5)%nat as Hl.
  { unfold left_over, newZLexer. cbn [at_end br comBuf nextL cachedL zl_l err no_lex]. rewrite decide_True by done. cbn [b2n]. rewrite bool_decide_false by (intros H; by apply H). cbn. lia. }
  destruct (drain_ends (4 * length r + 6) (newZLexer r e) ltac:(lia)) as (ls & z & E & H). exists ls, z. split; [done|lia].
Qed.

(** ** Words *)

(** Octets that only add to a token. *)
Definition plain_char (c : byte) : bool :=
  negb ((c =b ch_space) || (c =b x09) || (c =b x3b) || (c =b x0d) || (c =b x0a) || (c =b ch_bslash) || (c =b ch_quote) || (c =b x28) || (c =b x29)).

(** A word: escapes are complete, and its last octet is a plain one. *)
Fixpoint wordy (e last : bool) (w : bytes) : bool :=
  match w with
  | [] => negb e && last
  | c :: w =>
      if e then negb ((c =b x0a) || (c =b x0d)) && wordy false (plain_char c) w
      else if c =b ch_bslash then wordy true false w
      else plain_char c && wordy false true w
  end.
Definition word (w : bytes) : Prop := wordy false false w = true.

(** The text between quotes. *)
Fixpoint quotable (e : bool) (w : bytes) : bool :=
  match w with
  | [] => negb e
  | c :: w =>
      if e then negb ((c =b x0a) || (c =b x0d)) && quotable false w
      else if c =b ch_bslash then quotable true w
      else negb (c =b ch_quote) && quotable false w
  end.

(** The tokenizer in front of [r], outside of comments and braces. *)
Record ready (z : zlexer) (r : bytes) (q sp rt ow : bool) : Prop := {
  r_br : br z = r; r_err : br_err z = None; r_end : at_end z = false; r_cached : cachedL z = None; r_brace : brace z = 0;
  r_quote : quote z = q; r_commt : commt z = false; r_space : space z = sp; r_rrtype : rrtype z = rt; r_owner : owner z = ow;
  r_next : nextL z = false; r_comBuf : comBuf z = []; r_lerr : err (zl_l z) = false }.

Definition text (s : bytes) (e : bool) : scan := MkScan s [] maxTok e.

Lemma step_plain z s e x r q sp rt ow : ready z (x :: r) q sp rt ow -> plain_char x = true ->
  exists z', lex_step (take_byte x r z) (text s e) x = inl (z', text (s ++ [x]) false) /\ ready z' r q false rt ow.
Proof.
  intros [] Hx. unfold plain_char in Hx. unfold lex_step, text. cbn [com_cap com]. change (maxTok <=? zlen []) with false. cbn iota.
  destruct (x =b ch_space) eqn:X1; [done|]. destruct (x =b x09) eqn:X2; [done|]. destruct (x =b x3b) eqn:X3; [done|].
  destruct (x =b x0d) eqn:X4; [done|]. destruct (x =b x0a) eqn:X5; [done|]. destruct (x =b ch_bslash) eqn:X6; [done|].
  destruct (x =b ch_quote) eqn:X7; [done|]. destruct (x =b x28) eqn:X8; [done|]. destruct (x =b x29) eqn:X9; [done|].
  cbn [orb]. unfold on_other. cbn [commt put_place set_l take_byte]. rewrite r_commt0. eexists. split; [reflexivity|]. by constructor.
Qed.

(** The cases of [lex_step] for a given octet. *)
Ltac at_octet :=
  unfold lex_step, text; cbn [com_cap com]; change (maxTok <=? zlen []) with false; cbn iota.

Lemma step_backslash z s r q sp rt ow : ready z (ch_bslash :: r) q sp rt ow ->
  exists z', lex_step (take_byte ch_bslash r z) (text s false) ch_bslash = inl (z', text (s ++ [ch_bslash]) true) /\ ready z' r q sp rt ow.
Proof.
  intros []. at_octet. change (ch_bslash =b ch_bslash) with true. cbn [orb beq Byte.eqb]. cbn iota. unfold on_backslash.
  cbn [commt put_place set_l take_byte escape]. rewrite r_commt0. eexists. split; [reflexivity|]. by constructor.
Qed.

Lemma step_escaped z s x r q sp rt ow : ready z (x :: r) q sp rt ow -> (x =b x0a) = false -> (x =b x0d) = false ->
  exists z', lex_step (take_byte x r z) (text s true) x = inl (z', text (s ++ [x]) false) /\
    ready z' r q (if plain_char x then false else sp) rt ow.
Proof.
  intros H Ha Hd. destruct (plain_char x) eqn:Hp; [by apply (step_plain z s true x r q sp rt ow)|]. destruct H.
  unfold plain_char in Hp. at_octet. rewrite Ha, Hd. rewrite Ha, Hd in Hp. cbn [orb].
  destruct ((x =b ch_space) || (x =b x09)) eqn:X1.
  { unfold on_blank. cbn [escape orb]. eexists. split; [reflexivity|]. by constructor. }
  destruct (x =b x3b) eqn:X2. { unfold on_semicolon. cbn [escape orb]. eexists. split; [reflexivity|]. by constructor. }
  destruct (x =b ch_bslash) eqn:X3.
  { unfold on_backslash. cbn [escape commt put_place set_l take_byte]. rewrite r_commt0. eexists. split; [reflexivity|]. by constructor. }
  destruct (x =b ch_quote) eqn:X4.
  { unfold on_quote. cbn [escape commt put_place set_l take_byte]. rewrite r_commt0. eexists. split; [reflexivity|]. by constructor. }
  destruct ((x =b x28) || (x =b x29)) eqn:X5.
  { unfold on_brace. cbn [escape commt put_place set_l take_byte orb]. rewrite r_commt0. eexists. split; [reflexivity|]. by constructor. }
  exfalso. destruct (x =b ch_space), (x =b x09), (x =b x28), (x =b x29); done.
Qed.

Lemma step_quoted z s x r sp rt ow : ready z (x :: r) true sp rt ow -> (x =b ch_quote) = false -> (x =b ch_bslash) = false ->
  exists z' sp', lex_step (take_byte x r z) (text s false) x = inl (z', text (s ++ [x]) false) /\ ready z' r true sp' rt ow.
Proof.
  intros H Hq Hb. destruct (plain_char x) eqn:Hp. { destruct (step_plain z s false x r true sp rt ow H Hp) as (z' & E & R). by exists z', false. }
  destruct H. unfold plain_char in Hp. at_octet. rewrite Hq, Hb. rewrite Hq, Hb in Hp. cbn [orb].
  destruct ((x =b ch_space) || (x =b x09)) eqn:X1.
  { unfold on_blank. cbn [escape orb quote put_place set_l take_byte]. rewrite r_quote0. eexists _, sp. split; [reflexivity|]. by constructor. }
  destruct (x =b x3b) eqn:X2.
  { unfold on_semicolon. cbn [escape orb quote put_place set_l take_byte]. rewrite r_quote0. eexists _, sp. split; [reflexivity|]. by constructor. }
  destruct (x =b x0d) eqn:X6. { cbn [quote put_place set_l take_byte]. rewrite r_quote0. eexists _, sp. split; [reflexivity|]. by constructor. }
  destruct (x =b x0a) eqn:X7.
  { unfold on_newline. cbn [quote put_place set_l take_byte]. rewrite r_quote0. eexists _, sp. split; [reflexivity|]. constructor; try done. }
  destruct ((x =b x28) || (x =b x29)) eqn:X5.
  { unfold on_brace. cbn [escape commt quote put_place set_l take_byte orb]. rewrite r_commt0, r_quote0. eexists _, sp. split; [reflexivity|]. by constructor. }
  exfalso. destruct (x =b ch_space), (x =b x09), (x =b x28), (x =b x29); done.
Qed.

Lemma loop_word w : forall e last s z r sp rt ow, wordy e last w = true -> ready z (w ++ r) false sp rt ow -> (last = true -> sp = false) ->
  exists z', lex_loop (w ++ r) z (text s e) = lex_loop r z' (text (s ++ w) false) /\ ready z' r false false rt ow.
Proof.
  induction w as [|x w IH]; intros e last s z r sp rt ow Hw Hz Hl; cbn [wordy app] in *.
  - destruct e; [done|]. cbn [negb andb] in Hw. rewrite app_nil_r. exists z. split; [done|]. by rewrite (Hl Hw) in Hz.
  - cbn [lex_loop]. destruct e.
    + apply andb_true_iff in Hw as [Hx Hw]. apply negb_true_iff, orb_false_iff in Hx as [Ha Hd].
      destruct (step_escaped z s x (w ++ r) false sp rt ow Hz Ha Hd) as (z1 & -> & H1).
      destruct (IH false (plain_char x) (s ++ [x]) z1 r _ rt ow Hw H1) as (z2 & -> & H2); [by intros ->|].
      exists z2. by rewrite <- app_assoc.
    + destruct (beq_spec x ch_bslash) as [->|Hb%beq_ne].
      * destruct (step_backslash z s (w ++ r) false sp rt ow Hz) as (z1 & -> & H1).
        destruct (IH true false (s ++ [ch_bslash]) z1 r _ rt ow Hw H1) as (z2 & -> & H2); [done|]. exists z2. by rewrite <- app_assoc.
      * apply andb_true_iff in Hw as [Hx Hw]. destruct (step_plain z s false x (w ++ r) false sp rt ow Hz Hx) as (z1 & -> & H1).
        destruct (IH false true (s ++ [x]) z1 r _ rt ow Hw H1) as (z2 & -> & H2); [done|]. exists z2. by rewrite <- app_assoc.
Qed.

Lemma loop_quoted w : forall e s z r sp rt ow, quotable e w = true -> ready z (w ++ r) true sp rt ow ->
  exists z' sp', lex_loop (w ++ r) z (text s e) = lex_loop r z' (text (s ++ w) false) /\ ready z' r true sp' rt ow.
Proof.
  induction w as [|x w IH]; intros e s z r sp rt ow Hw Hz; cbn [quotable app] in *.
  - destruct e; [done|]. rewrite app_nil_r. by exists z, sp.
  - cbn [lex_loop]. destruct e.
    + apply andb_true_iff in Hw as [Hx Hw]. apply negb_true_iff, orb_false_iff in Hx as [Ha Hd].
      destruct (step_escaped z s x (w ++ r) true sp rt ow Hz Ha Hd) as (z1 & -> & H1).
      destruct (IH false (s ++ [x]) z1 r _ rt ow Hw H1) as (z2 & sp2 & -> & H2). exists z2, sp2. by rewrite <- app_assoc.
    + destruct (beq_spec x ch_bslash) as [->|Hb%beq_ne].
      * destruct (step_backslash z s (w ++ r) true sp rt ow Hz) as (z1 & -> & H1).
        destruct (IH true (s ++ [ch_bslash]) z1 r _ rt ow Hw H1) as (z2 & sp2 & -> & H2). exists z2, sp2. by rewrite <- app_assoc.
      * apply andb_true_iff in Hw as [Hx Hw]. apply negb_true_iff in Hx.
        destruct (step_quoted z s x (w ++ r) sp rt ow Hz Hx Hb) as (z1 & sp1 & -> & H1).
        destruct (IH false (s ++ [x]) z1 r _ rt ow Hw H1) as (z2 & sp2 & -> & H2). exists z2, sp2. by rewrite <- app_assoc.
Qed.

(** ** Tokens of a line *)

(** A token is waiting in [zl_l]; the octets before [r] have been read. *)
Record waiting (z : zlexer) (v : Z) (t : bytes) (r : bytes) (q sp rt ow : bool) : Prop := {
  w_next : nextL z = true; w_value : value (zl_l z) = v; w_token : token (zl_l z) = t;
  w_ready : ready (set_nextL false z) r q sp rt ow }.

(** One call of [Next] gives the token. *)
Definition gives (z : zlexer) (v : Z) (t : bytes) (z' : zlexer) : Prop :=
  exists l, Next z = (l, true, z') /\ value l = v /\ token l = t /\ err l = false.

Lemma Next_waiting z v t r q sp rt ow : waiting z v t r q sp rt ow -> gives z v t (set_nextL false z) /\ ready (set_nextL false z) r q sp rt ow.
Proof.
  intros [H1 H2 H3 H4]. split; [|done]. pose proof (r_cached _ _ _ _ _ _ H4) as Hc. cbn in Hc. pose proof (r_lerr _ _ _ _ _ _ H4) as He. cbn in He.
  exists (zl_l z). unfold Next. by rewrite Hc, H1.
Qed.

Lemma Next_ready z r q sp rt ow : ready z r q sp rt ow ->
  exists z', Next z = lex_loop r z' (text [] false) /\ ready z' r q sp rt ow.
Proof.
  intros []. unfold Next. rewrite r_cached0, r_next0, r_lerr0. cbn [at_end set_comment set_comBuf br]. rewrite r_end0, r_comBuf0, r_br0. eexists. split; [reflexivity|]. by constructor.
Qed.

(** A blank after a token, after the type was seen. *)
Lemma blank_after z w x r : ready z (x :: r) false false true false -> (x =b ch_space) || (x =b x09) = true -> w <> [] ->
  exists l z', lex_step (take_byte x r z) (text w false) x = inr (l, true, z') /\ value l = zString /\ token l = w /\ err l = false /\
    waiting z' zBlank [ch_space] r false true true false.
Proof.
  intros [] Hx Hw. at_octet. rewrite Hx. unfold on_blank, before_blank, lookup_word. cbn [escape orb quote put_place set_l take_byte commt str owner put rrtype].
  rewrite r_quote0, r_commt0, r_owner0. destruct w as [|c w]; [done|]. rewrite r_rrtype0. cbn [set_owner space put_place set_l take_byte put]. rewrite r_space0.
  eexists _, _. split; [reflexivity|]. cbn. rewrite r_lerr0. split_and!; [done..|]. constructor; try done; by constructor.
Qed.

(** A blank after a quoted string. *)
Lemma blank_alone z x r rt : ready z (x :: r) false false rt false -> (x =b ch_space) || (x =b x09) = true ->
  exists l z', lex_step (take_byte x r z) (text [] false) x = inr (l, true, z') /\ value l = zBlank /\ token l = [ch_space] /\ err l = false /\
    ready z' r false true rt false.
Proof.
  intros [] Hx. at_octet. rewrite Hx. unfold on_blank, before_blank. cbn [escape orb quote put_place set_l take_byte commt str].
  rewrite r_quote0, r_commt0. cbn [set_owner space put_place set_l take_byte]. rewrite r_space0.
  eexists _, _. split; [reflexivity|]. cbn. rewrite r_lerr0. split_and!; [done..|]. by constructor.
Qed.

(** The end of the line, after a token or not. *)
Lemma newline_after z w r sp : ready z (x0a :: r) false sp true false -> w <> [] ->
  exists l z', lex_step (take_byte x0a r z) (text w false) x0a = inr (l, true, z') /\ value l = zString /\ token l = w /\ err l = false /\
    waiting z' zNewline [x0a] r false sp false true.
Proof.
  intros [] Hw. at_octet. change (x0a =b ch_space) with false. change (x0a =b x09) with false. change (x0a =b x3b) with false.
  change (x0a =b x0d) with false. change (x0a =b x0a) with true. cbn [orb]. cbn iota.
  unfold on_newline. cbn [quote put_place set_l take_byte commt str brace unescape]. rewrite r_quote0, r_commt0, r_brace0.
  destruct w as [|c w]; [done|]. change (0 =? 0) with true. cbn iota. cbn [rrtype put put_place set_l take_byte]. rewrite r_rrtype0.
  eexists _, _. split; [reflexivity|]. cbn. rewrite r_lerr0. split_and!; [done..|]. constructor; try done; by constructor.
Qed.

Lemma newline_alone z r sp rt ow : ready z (x0a :: r) false sp rt ow ->
  exists l z', lex_step (take_byte x0a r z) (text [] false) x0a = inr (l, true, z') /\ value l = zNewline /\ token l = [x0a] /\ err l = false /\
    ready z' r false sp false true.
Proof.
  intros []. at_octet. change (x0a =b ch_space) with false. change (x0a =b x09) with false. change (x0a =b x3b) with false.
  change (x0a =b x0d) with false. change (x0a =b x0a) with true. cbn [orb]. cbn iota.
  unfold on_newline. cbn [quote put_place set_l take_byte commt str brace unescape]. rewrite r_quote0, r_commt0, r_brace0.
  change (0 =? 0) with true. cbn iota. eexists _, _. split; [reflexivity|]. cbn. rewrite r_lerr0. split_and!; [done..|]. by constructor.
Qed.

(** A quote opens, or closes after what was between. *)
Lemma quote_alone z r q sp rt ow : ready z (ch_quote :: r) q sp rt ow ->
  exists l z', lex_step (take_byte ch_quote r z) (text [] false) ch_quote = inr (l, true, z') /\ value l = zQuote /\ token l = [ch_quote] /\ err l = false /\
    ready z' r (negb q) false rt ow.
Proof.
  intros []. at_octet. change (ch_quote =b ch_space) with false. change (ch_quote =b x09) with false. change (ch_quote =b x3b) with false.
  change (ch_quote =b x0d) with false. change (ch_quote =b x0a) with false. change (ch_quote =b ch_bslash) with false. change (ch_quote =b ch_quote) with true.
  cbn [orb]. cbn iota. unfold on_quote. cbn [escape commt put_place set_l take_byte str]. rewrite r_commt0.
  eexists _, _. split; [reflexivity|]. cbn. rewrite r_lerr0. split_and!; [done..|]. constructor; try done; cbn; by rewrite r_quote0.
Qed.

Lemma quote_after z w r sp rt ow : ready z (ch_quote :: r) true sp rt ow -> w <> [] ->
  exists l z', lex_step (take_byte ch_quote r z) (text w false) ch_quote = inr (l, true, z') /\ value l = zString /\ token l = w /\ err l = false /\
    waiting z' zQuote [ch_quote] r false false rt ow.
Proof.
  intros [] Hw. at_octet. change (ch_quote =b ch_space) with false. change (ch_quote =b x09) with false. change (ch_quote =b x3b) with false.
  change (ch_quote =b x0d) with false. change (ch_quote =b x0a) with false. change (ch_quote =b ch_bslash) with false. change (ch_quote =b ch_quote) with true.
  cbn [orb]. cbn iota. unfold on_quote. cbn [escape commt put_place set_l take_byte str]. rewrite r_commt0. destruct w as [|c w]; [done|].
  eexists _, _. split; [reflexivity|]. cbn. rewrite r_lerr0. split_and!; [done..|]. constructor; try done. constructor; try done; cbn; by rewrite r_quote0.
Qed.

(** What a line is made of: words and quoted strings. *)
Inductive item := W (w : bytes) | Q (s : bytes).
Definition item_text (i : item) : bytes := match i with W w => w | Q s => [ch_quote] ++ s ++ [ch_quote] end.
Definition item_ok (i : item) : Prop := match i with W w => word w | Q s => quotable false s = true end.
Definition item_toks (i : item) : list (Z * bytes) :=
  match i with
  | W w => [(zString, w)]
  | Q s => [(zQuote, [ch_quote])] ++ (match s with [] => [] | _ => [(zString, s)] end) ++ [(zQuote, [ch_quote])]
  end.

Fixpoint line_text (l : list item) : bytes :=
  match l with
  | [] => []
  | [i] => item_text i
  | i :: l => item_text i ++ [ch_space] ++ line_text l
  end.
Fixpoint line_toks (l : list item) : list (Z * bytes) :=
  match l with
  | [] => [(zNewline, [x0a])]
  | [i] => item_toks i ++ [(zNewline, [x0a])]
  | i :: l => item_toks i ++ [(zBlank, [ch_space])] ++ line_toks l
  end.

(** The next tokens. *)
Fixpoint reads (z : zlexer) (ts : list (Z * bytes)) (z' : zlexer) : Prop :=
  match ts with
  | [] => z = z'
  | (v, t) :: ts => exists z1, gives z v t z1 /\ reads z1 ts z'
  end.

Lemma reads_app z ts1 ts2 z' : reads z (ts1 ++ ts2) z' <-> exists z1, reads z ts1 z1 /\ reads z1 ts2 z'.
Proof.
  revert z. induction ts1 as [|[v t] ts1 IH]; intros z; cbn [reads app].
  - split; [by exists z|]. by intros (z1 & -> & H).
  - split.
    + intros (z1 & H1 & H2). apply IH in H2 as (z2 & H2 & H3). exists z2. split; [by exists z1|done].
    + intros (z2 & (z1 & H1 & H2) & H3). exists z1. split; [done|]. apply IH. by exists z2.
Qed.

Lemma word_nonempty w : word w -> w <> [].
Proof. by intros H ->. Qed.

Lemma word_then_blank z w r sp : word w -> ready z (w ++ ch_space :: r) false sp true false ->
  exists z', reads z [(zString, w); (zBlank, [ch_space])] z' /\ ready z' r false true true false.
Proof.
  intros Hw Hz. destruct (Next_ready z _ _ _ _ _ Hz) as (z0 & E0 & H0).
  destruct (loop_word w false false [] z0 (ch_space :: r) sp true false Hw H0 ltac:(done)) as (z1 & E1 & H1).
  destruct (blank_after z1 w ch_space r H1 eq_refl (word_nonempty w Hw)) as (l & z2 & E2 & V & T & R & H2).
  destruct (Next_waiting _ _ _ _ _ _ _ _ H2) as [G3 H3]. exists (set_nextL false z2). split; [|done].
  cbn [reads]. exists z2. split; [|by exists (set_nextL false z2)].
  exists l. rewrite E0, E1. cbn [lex_loop app]. by rewrite E2.
Qed.

Lemma word_then_newline z w r sp : word w -> ready z (w ++ x0a :: r) false sp true false ->
  exists z', reads z [(zString, w); (zNewline, [x0a])] z' /\ ready z' r false false false true.
Proof.
  intros Hw Hz. destruct (Next_ready z _ _ _ _ _ Hz) as (z0 & E0 & H0).
  destruct (loop_word w false false [] z0 (x0a :: r) sp true false Hw H0 ltac:(done)) as (z1 & E1 & H1).
  destruct (newline_after z1 w r false H1 (word_nonempty w Hw)) as (l & z2 & E2 & V & T & R & H2).
  destruct (Next_waiting _ _ _ _ _ _ _ _ H2) as [G3 H3]. exists (set_nextL false z2). split; [|done].
  cbn [reads]. exists z2. split; [|by exists (set_nextL false z2)].
  exists l. rewrite E0, E1. cbn [lex_loop app]. by rewrite E2.
Qed.

(** A token of one octet. *)
Lemma gives_alone z x r q sp rt ow v t (P : zlexer -> Prop) : ready z (x :: r) q sp rt ow ->
  (forall z0, ready z0 (x :: r) q sp rt ow -> exists l z', lex_step (take_byte x r z0) (text [] false) x = inr (l, true, z') /\
     value l = v /\ token l = t /\ err l = false /\ P z') ->
  exists z', gives z v t z' /\ P z'.
Proof.
  intros Hz Hs. destruct (Next_ready z _ _ _ _ _ Hz) as (z0 & E0 & H0). destruct (Hs z0 H0) as (l & z' & E & V & T & R & HP).
  exists z'. split; [|done]. exists l. rewrite E0. cbn [lex_loop]. by rewrite E.
Qed.

Lemma quoted_reads z s r sp rt ow : quotable false s = true -> ready z ([ch_quote] ++ s ++ ch_quote :: r) false sp rt ow ->
  exists z', reads z (item_toks (Q s)) z' /\ ready z' r false false rt ow.
Proof.
  intros Hs Hz. destruct (gives_alone z ch_quote (s ++ ch_quote :: r) _ _ _ _ zQuote [ch_quote] _ Hz (fun z0 H0 => quote_alone z0 _ _ _ _ _ H0)) as (z1 & G1 & H1).
  cbn [negb] in H1. unfold item_toks. destruct s as [|c s].
  - destruct (gives_alone z1 ch_quote r _ _ _ _ zQuote [ch_quote] _ H1 (fun z0 H0 => quote_alone z0 _ _ _ _ _ H0)) as (z2 & G2 & H2).
    exists z2. split; [|done]. exists z1. split; [done|]. by exists z2.
  - destruct (Next_ready z1 _ _ _ _ _ H1) as (z0 & E0 & H0).
    destruct (loop_quoted (c :: s) false [] z0 (ch_quote :: r) false rt ow Hs H0) as (z2 & sp2 & E2 & H2).
    destruct (quote_after z2 (c :: s) r sp2 rt ow H2 ltac:(done)) as (l & z3 & E3 & V & T & R & H3).
    destruct (Next_waiting _ _ _ _ _ _ _ _ H3) as [G4 H4]. exists (set_nextL false z3). split; [|done].
    exists z1. split; [done|]. exists z3. split; [|by exists (set_nextL false z3)].
    exists l. rewrite E0, E2. cbn [lex_loop app]. by rewrite E3.
Qed.

(** The tokens of a line after the type. *)
Lemma line_reads l : forall z r sp, Forall item_ok l -> ready z (line_text l ++ x0a :: r) false sp true false ->
  exists z' sp', reads z (line_toks l) z' /\ ready z' r false sp' false true.
Proof.
  induction l as [|i l IH]; intros z r sp Hl Hz.
  - destruct (gives_alone z x0a r _ _ _ _ zNewline [x0a] _ Hz (fun z0 H0 => newline_alone z0 _ _ _ _ H0)) as (z1 & G1 & H1).
    exists z1, sp. split; [by exists z1|done].
  - apply Forall_cons in Hl as [Hi Hl]. destruct l as [|i2 l].
    + cbn [line_text line_toks] in *. destruct i as [w|s].
      * destruct (word_then_newline z w r sp Hi Hz) as (z1 & G1 & H1). by exists z1, false.
      * cbn [item_text] in Hz. rewrite <- !app_assoc in Hz. destruct (quoted_reads z s _ sp true false Hi Hz) as (z1 & G1 & H1).
        destruct (gives_alone z1 x0a r _ _ _ _ zNewline [x0a] _ H1 (fun z0 H0 => newline_alone z0 _ _ _ _ H0)) as (z2 & G2 & H2).
        exists z2, false. split; [|done]. apply reads_app. exists z1. split; [done|]. by exists z2.
    + change (line_text (i :: i2 :: l)) with (item_text i ++ [ch_space] ++ line_text (i2 :: l)) in Hz.
      change (line_toks (i :: i2 :: l)) with (item_toks i ++ [(zBlank, [ch_space])] ++ line_toks (i2 :: l)).
      rewrite <- !app_assoc in Hz. destruct i as [w|s].
      * destruct (word_then_blank z w _ sp Hi Hz) as (z1 & G1 & H1). destruct (IH z1 r true Hl H1) as (z2 & sp2 & G2 & H2).
        exists z2, sp2. split; [|done]. change (item_toks (W w) ++ [(zBlank, [ch_space])] ++ ?x) with ([(zString, w); (zBlank, [ch_space])] ++ x).
        apply reads_app. by exists z1.
      * cbn [item_text] in Hz. rewrite <- !app_assoc in Hz. destruct (quoted_reads z s _ sp true false Hi Hz) as (z1 & G1 & H1).
        destruct (gives_alone z1 ch_space _ _ _ _ _ zBlank [ch_space] _ H1 (fun z0 H0 => blank_alone z0 _ _ _ H0 eq_refl)) as (z2 & G2 & H2).
        destruct (IH z2 r true Hl H2) as (z3 & sp3 & G3 & H3). exists z3, sp3. split; [|done].
        apply reads_app. exists z1. split; [done|]. apply reads_app. exists z2. split; [by exists z2|done].
Qed.

(** ** The words of a header *)

(** A token with the type or class it stands for. *)
Definition gives_code (z : zlexer) (v : Z) (t : bytes) (c : Z) (z' : zlexer) : Prop :=
  exists l, Next z = (l, true, z') /\ value l = v /\ token l = t /\ err l = false /\ (v <> zString -> torc l = c).

(** The lookups of a word that is not the first. *)
Definition looked_up (w : bytes) (v c : Z) (rt : bool) : Prop := forall z r,
  ready z r false false false false -> token (zl_l z) = w -> value (zl_l z) = zString ->
  exists z', lookup_word z = inl z' /\ ready z' r false false rt false /\ value (zl_l z') = v /\ token (zl_l z') = w /\ (v <> zString -> torc (zl_l z') = c).

Lemma lookup_blank z w x r v c rt : looked_up w v c rt -> ready z (x :: r) false false false false -> (x =b ch_space) || (x =b x09) = true -> w <> [] ->
  exists l z', lex_step (take_byte x r z) (text w false) x = inr (l, true, z') /\ value l = v /\ token l = w /\ err l = false /\ (v <> zString -> torc l = c) /\
    waiting z' zBlank [ch_space] r false true rt false.
Proof.
  intros Hl Hz Hx Hw. set (z0 := put zString w (put_place (take_byte x r z))).
  assert (ready z0 r false false false false) as H0 by (destruct Hz; by constructor).
  destruct (Hl z0 r H0 eq_refl eq_refl) as (z1 & E1 & H1 & V & T & C). destruct Hz. destruct H1.
  at_octet. rewrite Hx. unfold on_blank, before_blank. cbn [escape orb quote put_place set_l take_byte commt str owner].
  rewrite r_quote0, r_commt0, r_owner0. destruct w as [|b w]; [done|]. fold (put_place (take_byte x r z)).
  change (lookup_word _) with (lookup_word z0). rewrite E1. cbn [set_owner space]. rewrite r_space1.
  eexists _, _. split; [reflexivity|]. split_and!; [done..|]. constructor; try done; by constructor.
Qed.

Lemma word_reads z w x r sp v c rt : word w -> looked_up w v c rt -> (x =b ch_space) || (x =b x09) = true -> ready z (w ++ x :: r) false sp false false ->
  exists z1 z2, gives_code z v w c z1 /\ gives z1 zBlank [ch_space] z2 /\ ready z2 r false true rt false.
Proof.
  intros Hw Hl Hx Hz. destruct (Next_ready z _ _ _ _ _ Hz) as (z0 & E0 & H0).
  destruct (loop_word w false false [] z0 (x :: r) sp false false Hw H0 ltac:(done)) as (z1 & E1 & H1).
  destruct (lookup_blank z1 w x r v c rt Hl H1 Hx (word_nonempty w Hw)) as (l & z2 & E2 & V & T & R & C & H2).
  destruct (Next_waiting _ _ _ _ _ _ _ _ H2) as [G3 H3]. exists z2, (set_nextL false z2). split; [|done].
  exists l. rewrite E0, E1. cbn [lex_loop app]. by rewrite E2.
Qed.

(** The owner. *)
Lemma owner_reads z w x r sp rt : word w -> (x =b ch_space) || (x =b x09) = true -> owner_value w = zOwner -> ready z (w ++ x :: r) false sp rt true ->
  exists z1 z2, gives z zOwner w z1 /\ gives z1 zBlank [ch_space] z2 /\ ready z2 r false true rt false.
Proof.
  intros Hw Hx Ho Hz. destruct (Next_ready z _ _ _ _ _ Hz) as (z0 & E0 & H0).
  destruct (loop_word w false false [] z0 (x :: r) sp rt true Hw H0 ltac:(done)) as (z1 & E1 & H1).
  assert (exists l z2, lex_step (take_byte x r z1) (text w false) x = inr (l, true, z2) /\ value l = zOwner /\ token l = w /\ err l = false /\
    waiting z2 zBlank [ch_space] r false true rt false) as (l & z2 & E2 & V & T & R & H2).
  { destruct H1. at_octet. rewrite Hx. unfold on_blank, before_blank. cbn [escape orb quote put_place set_l take_byte commt str owner put].
    rewrite r_quote0, r_commt0, r_owner0. pose proof (word_nonempty w Hw). destruct w as [|b w]; [done|]. rewrite Ho. cbn [set_owner space put_place set_l take_byte put]. rewrite r_space0.
    eexists _, _. split; [reflexivity|]. cbn. rewrite r_lerr0. split_and!; [done..|]. constructor; try done; by constructor. }
  destruct (Next_waiting _ _ _ _ _ _ _ _ H2) as [G3 H3]. exists z2, (set_nextL false z2). split; [|done].
  exists l. rewrite E0, E1. cbn [lex_loop app]. by rewrite E2.
Qed.

(** No type and no class: a string. *)
Lemma looked_up_string w : number_of StringToType (ToUpper w) = None -> has_prefix (ToUpper w) (bs "TYPE") = false ->
  number_of StringToClass (ToUpper w) = None -> has_prefix (ToUpper w) (bs "CLASS") = false -> looked_up w zString 0 false.
Proof.
  intros H1 H2 H3 H4 z r Hz T V. exists z. destruct Hz. unfold lookup_word, lookup_type, lookup_class. rewrite r_rrtype0, T, H1, H2, H3, H4.
  split_and!; try done; by constructor.
Qed.

Lemma looked_up_class w c : number_of StringToType (ToUpper w) = None -> has_prefix (ToUpper w) (bs "TYPE") = false ->
  number_of StringToClass (ToUpper w) = Some c \/
    (number_of StringToClass (ToUpper w) = None /\ has_prefix (ToUpper w) (bs "CLASS") = true /\ classToInt w = Some c) ->
  looked_up w zClass c false.
Proof.
  intros H1 H2 H3 z r Hz T V. exists (put_torc zClass c z). destruct Hz. unfold lookup_word, lookup_type, lookup_class. rewrite r_rrtype0, T, H1, H2.
  destruct H3 as [->|(-> & -> & ->)]; (split; [done|]; split; [by constructor|done]).
Qed.

Lemma looked_up_type w t : number_of StringToType (ToUpper w) = Some t \/
    (number_of StringToType (ToUpper w) = None /\ has_prefix (ToUpper w) (bs "TYPE") = true /\ typeToInt w = Some t) ->
  number_of StringToClass (ToUpper w) = None -> has_prefix (ToUpper w) (bs "CLASS") = false -> looked_up w zRrtpe t true.
Proof.
  intros H1 H3 H4 z r Hz T V. exists (set_rrtype true (put_torc zRrtpe t z)). destruct Hz. unfold lookup_word, lookup_type, lookup_class. rewrite r_rrtype0, T.
  destruct H1 as [->|(-> & -> & ->)]; rewrite H3, H4; (split; [done|]; split; [by constructor|done]).
Qed.

(** ** Mnemonics and numbers *)

Lemma number_of_None m s : Forall (fun e : bytes * Z => e.1 <> s) m -> number_of m s = None.
Proof. intros H. unfold number_of. destruct (list_find _ m) as [[i e]|] eqn:E; [|done]. apply list_find_Some in E as (E1 & E2 & _). rewrite Forall_lookup in H. by destruct (H i e E1). Qed.

(** No key of a table starts like the word. *)
Lemma number_of_prefix m n s : bool_decide (Forall (fun e : bytes * Z => take n e.1 <> take n s) m) = true -> number_of m s = None.
Proof. intros H. apply number_of_None. apply bool_decide_eq_true in H. eapply Forall_impl; [exact H|]. intros e He E. apply He. by rewrite E. Qed.

Lemma digit_facts c : isDigit c = true -> to_upper c = c /\ is_ascii c /\ plain_char c = true.
Proof. unfold is_ascii. destruct c; intros H; try discriminate H; (split_and!; [done|by vm_compute|done]). Qed.

Lemma digits_word l : Forall (fun c => isDigit c = true) l -> l <> [] -> word l.
Proof.
  intros H. assert (forall last, wordy false last l = last || bool_decide (l <> [])) as Hw.
  { induction H as [|c l Hc H IH]; intros last; cbn [wordy]; [by destruct last|].
    destruct (digit_facts c Hc) as (_ & _ & Hp). rewrite Hp. destruct (beq_spec c ch_bslash) as [->|]; [done|]. rewrite IH. cbn [andb orb].
    rewrite (bool_decide_true (c :: l <> [])) by done. by rewrite orb_true_r. }
  intros Hn. unfold word. rewrite Hw. by rewrite bool_decide_true.
Qed.

Lemma upper_digits p l : Forall (fun c => isDigit c = true) l -> forallb (fun c => (bval c <? 128) && beq (to_upper c) c) p = true -> ToUpper (p ++ l) = p ++ l.
Proof.
  intros Hl Hp. assert (Forall (fun c => to_upper c = c /\ is_ascii c) (p ++ l)) as H.
  { apply Forall_app. split.
    - rewrite forallb_forall in Hp. apply Forall_forall. intros c Hc. apply list_elem_of_In in Hc. apply Hp, andb_true_iff in Hc as [H1 H2].
      split; [by destruct (beq_spec (to_upper c) c)|unfold is_ascii; lia].
    - eapply Forall_impl; [exact Hl|]. intros c Hc. by destruct (digit_facts c Hc) as (? & ? & _). }
  rewrite ToUpper_ascii by (eapply Forall_impl; [exact H|]; by intros ? []).
  induction H as [|c r [Hc _] H IH]; [done|]. cbn [map]. by rewrite Hc, IH.
Qed.

Lemma Itoa_word v : 0 <= v -> word (Itoa v) /\ looked_up (Itoa v) zString 0 false.
Proof.
  intros Hv. destruct (Itoa_digits v Hv) as [Hn Hd]. split; [by apply digits_word|].
  pose proof (upper_digits [] (Itoa v) Hd eq_refl) as Hu. cbn [app] in Hu. destruct (Itoa v) as [|c l]; [done|]. apply Forall_cons in Hd as [Hc _].
  assert (forall m, forallb (fun e : bytes * Z => match e.1 with [] => true | d :: _ => negb (isDigit d) end) m = true -> number_of m (c :: l) = None) as Hk.
  { intros m Hm. apply number_of_None, Forall_forall. intros e He E. rewrite forallb_forall in Hm. apply list_elem_of_In in He. specialize (Hm e He).
    rewrite E in Hm. by rewrite Hc in Hm. }
  apply looked_up_string; rewrite Hu; [by apply Hk|by destruct c|by apply Hk|by destruct c].
Qed.

(** The class of every record. *)
Lemma Class_String_word c : 0 <= c < 65536 -> word (Class_String c) /\ looked_up (Class_String c) zClass c false.
Proof.
  intros Hc. assert (word (bs "CLASS" ++ Itoa c) /\ looked_up (bs "CLASS" ++ Itoa c) zClass c false) as Hnum.
  { destruct (Itoa_digits c ltac:(lia)) as [Hn Hd]. pose proof (upper_digits (bs "CLASS") (Itoa c) Hd eq_refl) as Hu. split.
    - change (wordy false true (Itoa c) = true). pose proof (digits_word _ Hd Hn) as Hw. unfold word in Hw.
      destruct (Itoa c) as [|x l]; [done|]. apply Forall_cons in Hd as [Hx _]. by destruct x.
    - apply looked_up_class; rewrite Hu.
      + by apply (number_of_prefix _ 5).
      + done.
      + right. split_and!; [by apply (number_of_prefix _ 5)|by apply bool_decide_eq_true|by apply (number_after_Itoa (bs "CLASS"))]. }
  unfold Class_String, name_of. destruct (list_find _ ClassToString) as [[i [k s]]|] eqn:E; [|done].
  apply list_find_Some in E as (E & Hk & _). cbn in Hk. subst k. apply list_elem_of_lookup_2 in E. unfold ClassToString in E.
  rewrite !elem_of_cons, elem_of_nil in E. destruct_or! E; try done; injection E as -> ->; try exact Hnum; cbn [snd fst];
    (split; [done|apply looked_up_class; rewrite ToUpper_ascii by (by repeat constructor); [done|done|by left]]).
Qed.

(** The types that can be read back: not the mnemonics that are in small letters
    or are a class, too. *)
Definition readable_type (t : Z) : Prop := 0 <= t < 65536 /\ t <> 0 /\ t <> 255 /\ t <> 65535.

Lemma type_mnemonics : forallb (fun e : Z * String.string => let w := bs e.2 in
    (e.1 =? 0) || (e.1 =? 255) || (e.1 =? 65535) ||
    (wordy false false w && forallb (fun c => bval c <? 128) w && bool_decide (number_of StringToType (map to_upper w) = Some e.1) &&
     bool_decide (number_of StringToClass (map to_upper w) = None) && negb (has_prefix (map to_upper w) (bs "CLASS")))) TypeToString = true.
Proof. vm_compute. reflexivity. Qed.

Lemma ToUpper_forallb w : forallb (fun c => bval c <? 128) w = true -> ToUpper w = map to_upper w.
Proof. intros H. apply ToUpper_ascii, Forall_forall. intros c Hc. rewrite forallb_forall in H. apply list_elem_of_In, H in Hc. unfold is_ascii. lia. Qed.

Lemma Type_String_word t : readable_type t -> word (Type_String t) /\ looked_up (Type_String t) zRrtpe t true.
Proof.
  intros (Ht & N1 & N2 & N3). unfold Type_String, name_of. destruct (list_find _ TypeToString) as [[i [k s]]|] eqn:E.
  - apply list_find_Some in E as (E & Hk & _). cbn in Hk. subst k. apply list_elem_of_lookup_2, list_elem_of_In in E.
    pose proof type_mnemonics as H. rewrite forallb_forall in H. specialize (H _ E). cbn [fst snd] in H.
    rewrite (proj2 (Z.eqb_neq t 0) N1), (proj2 (Z.eqb_neq t 255) N2), (proj2 (Z.eqb_neq t 65535) N3) in H. cbn [orb] in H.
    rewrite !andb_true_iff in H. destruct H as ((((H1 & H2) & H3) & H4) & H5). split; [done|].
    apply bool_decide_eq_true in H3, H4. apply negb_true_iff in H5. apply looked_up_type; rewrite (ToUpper_forallb _ H2); [by left|done|done].
  - destruct (Itoa_digits t ltac:(lia)) as [Hn Hd]. pose proof (upper_digits (bs "TYPE") (Itoa t) Hd eq_refl) as Hu. split.
    + change (wordy false true (Itoa t) = true). pose proof (digits_word _ Hd Hn) as Hw. unfold word in Hw.
      destruct (Itoa t) as [|x l]; [done|]. apply Forall_cons in Hd as [Hx _]. by destruct x.
    + apply looked_up_type; rewrite Hu.
      * right. split_and!; [by apply (number_of_prefix _ 4)|by apply bool_decide_eq_true|by apply (number_after_Itoa (bs "TYPE"))].
      * by apply (number_of_prefix _ 4).
      * done.
Qed.

(** The owner, TTL, class and type of a printed record. *)
Lemma header_reads z name ttl c t r sp : word name -> owner_value name = zOwner -> 0 <= ttl -> 0 <= c < 65536 -> readable_type t ->
  ready z (name ++ x09 :: Itoa ttl ++ x09 :: Class_String c ++ x09 :: Type_String t ++ x09 :: r) false sp false true ->
  exists z1 z2 z3 z4 z5 z6 z7 z8, gives z zOwner name z1 /\ gives z1 zBlank [ch_space] z2 /\
    gives_code z2 zString (Itoa ttl) 0 z3 /\ gives z3 zBlank [ch_space] z4 /\
    gives_code z4 zClass (Class_String c) c z5 /\ gives z5 zBlank [ch_space] z6 /\
    gives_code z6 zRrtpe (Type_String t) t z7 /\ gives z7 zBlank [ch_space] z8 /\ ready z8 r false true true false.
Proof.
  intros Hn Ho Ht Hc Hy Hz. destruct (owner_reads z _ x09 _ _ _ Hn eq_refl Ho Hz) as (z1 & z2 & G1 & G2 & H2).
  destruct (Itoa_word ttl Ht) as [Wt Lt]. destruct (word_reads z2 _ x09 _ _ _ _ _ Wt Lt eq_refl H2) as (z3 & z4 & G3 & G4 & H4).
  destruct (Class_String_word c Hc) as [Wc Lc]. destruct (word_reads z4 _ x09 _ _ _ _ _ Wc Lc eq_refl H4) as (z5 & z6 & G5 & G6 & H6).
  destruct (Type_String_word t Hy) as [Wy Ly]. destruct (word_reads z6 _ x09 _ _ _ _ _ Wy Ly eq_refl H6) as (z7 & z8 & G7 & G8 & H8).
  by exists z1, z2, z3, z4, z5, z6, z7, z8.
Qed.
End Lexing.
