(* ===== verification/Scan.v ===== *)
(** * Helpers of the scanner (scan.go, scan_rr.go, types.go)

    A parse function reads tokens and gives fields or a [ParseError]; what the
    lexer is like after an error does not matter, because the zone parser
    stops.  An error that wraps another has no text of its own
    ([setParseError] copies the text only), so its text is empty here. *)

From S2P Require Import Prelude Go Utf8 Labels Escape Names Wire Encodings RR Ztypes Dnssec Strconv Types Lexer LexCarry.

#[local] Open Scope string_scope.

(** ** The parser's monad *)

Definition P (A : Type) : Type := zlexer -> res ParseError (A * zlexer).
#[export] Instance P_ret : MRet P := fun A a z => Ok (a, z).
#[export] Instance P_bind : MBind P := fun A B f p z => '(a, z) ← p z; f a z.

(** [return &ParseError{err: msg, lex: l}]. *)
Definition bad {A} (msg : String.string) (l : lex) : P A := fun _ => Err (MkParseError [] (bs msg) l).
Definition lift {A} (r : res error A) : P A := fun z =>
  match r with Ok a => Ok (a, z) | Err _ => Err (MkParseError [] [] no_lex) | Panic => Panic | Diverge => Diverge end.
(** A call on the Go side that panics or not, and has no error of its own. *)
Definition look {A} (r : res error A) : P A := lift r.

Section Scan.
Context {casing : Casing}.

Definition next : P lex := fun z => let '(l, _, z) := Next z in Ok (l, z).
Definition blank : P unit := _ ← next; mret tt.

(** ** Names and numbers *)

Definition appendOrigin (name origin : bytes) : bytes :=
  if bool_decide (origin = [ch_dot]) then name ++ origin else name ++ [ch_dot] ++ origin.

(** [None] is a result that is not ok. *)
Definition toAbsoluteName (name origin : bytes) : res error (option bytes) :=
  if bool_decide (name = bs "@") then Ok (if bool_decide (origin = []) then None else Some origin)
  else if bool_decide (name = [x0a]) then Ok None
  else
    '(_, ok) ← IsDomainName name;
    if negb ok || bool_decide (name = []) then Ok None
    else if IsFqdn name then Ok (Some name)
    else if bool_decide (origin = []) then Ok None
    else Ok (Some (appendOrigin name origin)).

(** One character of [stringToTTL]; the sums wrap at 64 bits. *)
Definition ttl_step (st : option (Z * Z)) (r : Z) : option (Z * Z) :=
  '(s, i) ← st;
  let unit n := Some ((s + i * n mod 2 ^ 64) mod 2 ^ 64, 0) in
  if (r =? 115) || (r =? 83) then unit 1
  else if (r =? 109) || (r =? 77) then unit 60
  else if (r =? 104) || (r =? 72) then unit (60 * 60)
  else if (r =? 100) || (r =? 68) then unit (60 * 60 * 24)
  else if (r =? 119) || (r =? 87) then unit (60 * 60 * 24 * 7)
  else if (48 <=? r) && (r <=? 57) then Some (s, (i * 10 mod 2 ^ 64 + (r - 48)) mod 2 ^ 64)
  else None.

(** [for _, c := range token]: a rune that is not ASCII is none of the letters,
    so the octets can be looked at one by one. *)
Definition stringToTTL (token : bytes) : option Z :=
  '(s, i) ← fold_left ttl_step (map bval token) (Some (0, 0));
  if 2 ^ 32 - 1 <? (s + i) mod 2 ^ 64 then None else Some ((s + i) mod 2 ^ 64).

(** The loop of [stringToCm] that counts the exponent. *)
Fixpoint cm_exponent (fuel : nat) (e val : Z) : Z * Z :=
  match fuel with
  | O => (e, val)
  | S fuel => if 10 <=? val then cm_exponent fuel (e + 1) (val / 10) else (e, val)
  end.

Definition digit_first (s : bytes) : bool := match s with c :: _ => isDigit c | [] => false end.

(** Exponent and mantissa; the last octet of an empty token is a panic. *)
Definition stringToCm (token : bytes) : res error (option (Z * Z)) :=
  last ← index (zget token (zlen token - 1));
  let token := if (last =b x4d) || (last =b x6d) then ztake (zlen token - 1) token else token in
  let '(mStr, cmStr, hasCM) := Cut token ch_dot in
  let cm :=
    if hasCM then
      match Atoi cmStr with
      | Some c => if (2 <? zlen cmStr) || negb (digit_first cmStr) then None else Some (if zlen cmStr =? 1 then c * 10 else c)
      | None => None
      end
    else Some 0 in
  match cm with
  | None => Ok None
  | Some cmeters =>
      let m :=
        if negb hasCM || negb (bool_decide (mStr = [])) then
          match Atoi mStr with
          | Some m => if negb (digit_first mStr) || (90000000 <? m) || ((m =? 90000000) && negb (cmeters =? 0)) then None else Some m
          | None => None
          end
        else Some 0 in
      match m with
      | None => Ok None
      | Some meters =>
          let '(e, val) := if 0 <? meters then (2, meters) else (0, cmeters) in
          Ok (Some (cm_exponent 10 e val))
      end
  end.

(** The number afterwards and whether the token was a direction. *)
Definition locCheckNorth (token : bytes) (latitude : Z) : Z * bool :=
  if 90 * 1000 * 60 * 60 <? latitude then (latitude, false)
  else if bool_decide (token = bs "n") || bool_decide (token = bs "N") then ((LOC_EQUATOR + latitude) mod 2 ^ 32, true)
  else if bool_decide (token = bs "s") || bool_decide (token = bs "S") then ((LOC_EQUATOR - latitude) mod 2 ^ 32, true)
  else (latitude, false).
Definition locCheckEast (token : bytes) (longitude : Z) : Z * bool :=
  if 180 * 1000 * 60 * 60 <? longitude then (longitude, false)
  else if bool_decide (token = bs "e") || bool_decide (token = bs "E") then ((LOC_EQUATOR + longitude) mod 2 ^ 32, true)
  else if bool_decide (token = bs "w") || bool_decide (token = bs "W") then ((LOC_EQUATOR - longitude) mod 2 ^ 32, true)
  else (longitude, false).

(** The [file] of the error is overwritten by [setParseError]. *)
Definition stringToNodeID (l : lex) : P Z :=
  let t := token l in
  let wrong : P Z := bad "bad NID/L64 NodeID/Locator64" l in
  if zlen t <? 19 then wrong else
  let colon i := bool_decide (zget t i = Some x3a) in
  if negb (colon 4) && negb (colon 9) && negb (colon 14) then wrong else
  let part i := ztake 4 (zdrop i t) in
  match ParseUint (part 0 ++ part 5 ++ part 10 ++ part 15) 16 64 with
  | Some u => mret u
  | None => wrong
  end.

(** ** The rest of a line *)

Definition slurpRemainder : P unit :=
  l ← next;
  if value l =? zBlank then
    l ← next;
    if negb (value l =? zNewline) && negb (value l =? zEOF) then bad "garbage after rdata" l else mret tt
  else if (value l =? zNewline) || (value l =? zEOF) then mret tt
  else bad "garbage after rdata" l.

(** [for l.value != zNewline && l.value != zEOF]: the tokens are folded into [s].
    Every token takes something from the lexer, so the fuel is enough. *)
Fixpoint until_newline {S} (fuel : nat) (step : S -> lex -> P S) (s : S) (l : lex) : P (S * lex) :=
  match fuel with
  | O => fun _ => Diverge
  | Datatypes.S fuel =>
      if (value l =? zNewline) || (value l =? zEOF) then mret (s, l)
      else s ← step s l; l ← next; until_newline fuel step s l
  end.
Definition line_loop {S} (step : S -> lex -> P S) (s : S) (l : lex) : P (S * lex) :=
  fun z => until_newline (left_over z + 2) step s l z.

Definition endingToString (errstr : String.string) : P bytes :=
  l ← next;
  '(s, _) ← line_loop (fun s l =>
    if err l then bad errstr l
    else if value l =? zString then mret (s ++ token l)
    else if value l =? zBlank then mret s
    else bad errstr l) [] l;
  mret s.

(** [escapedStringOffset]: [None] is a missing character after a backslash. *)
Fixpoint escaped_offset (fuel : nat) (s : bytes) (i current desired : Z) : res error (option Z) :=
  match fuel with
  | O => Diverge
  | S fuel =>
      if negb (i <? zlen s) then Ok (Some (-1)) else
      c ← index (zget s i);
      let current := current + 1 in
      let rest := zdrop (i + 1) s in
      let next i := if desired <=? current then Ok (Some i) else escaped_offset fuel s i current desired in
      if negb (c =b ch_bslash) then next (i + 1)
      else if isDDD rest then next (i + 4)
      else if zlen rest <? 1 then Ok None
      else next (i + 2)
  end.
Definition escapedStringOffset (s : bytes) (desiredByteOffset : Z) : res error (option Z) :=
  if desiredByteOffset =? 0 then Ok (Some 0) else escaped_offset (S (length s)) s 0 0 desiredByteOffset.

(** A token in pieces of at most 255 octets. *)
Fixpoint split_255 (fuel : nat) (tok : bytes) (p : Z) : res error (option (list bytes)) :=
  match fuel with
  | O => Diverge
  | S fuel =>
      i ← escapedStringOffset (zdrop p tok) 255;
      match i with
      | None => Ok None
      | Some i =>
          if negb (i =? -1) && negb (p + i =? zlen tok) then
            piece ← index (slice tok p (p + i));
            r ← split_255 fuel tok (p + i);
            Ok (match r with Some l => Some (piece :: l) | None => None end)
          else Ok (Some [zdrop p tok])
      end
  end.

(** The strings so far, [quote] and [empty]. *)
Definition txt_token (errstr : String.string) (st : list bytes * bool * bool) (l : lex) : P (list bytes * bool * bool) :=
  let '(s, quote, empty) := st in
  if err l then bad errstr l
  else if value l =? zString then
    sx ← look (split_255 (S (length (token l))) (token l) 0);
    match sx with Some sx => mret (s ++ sx, quote, false) | None => bad errstr l end
  else if value l =? zBlank then if quote then bad errstr l else mret st
  else if value l =? zQuote then mret (if empty && quote then s ++ [[]] else s, negb quote, true)
  else bad errstr l.

Definition endingToTxtSlice (errstr : String.string) : P (list bytes) :=
  l ← next;
  if err l then bad errstr l else
  r ← line_loop (txt_token errstr) ([], false, false) l;
  let '(s, quote, _, l) := (r : list bytes * bool * bool * lex) in
  if quote then bad errstr l else mret s.

(** ** Common fields *)

(** [toAbsoluteName] of the next token. *)
Definition name_field (msg : String.string) (o : bytes) : P bytes :=
  l ← next;
  name ← look (toAbsoluteName (token l) o);
  match name with
  | Some name => if err l then bad msg l else mret name
  | None => bad msg l
  end.

(** [strconv.ParseUint(l.token, 10, bits)] of the next token. *)
Definition uint_field (msg : String.string) (bits : Z) : P Z :=
  l ← next;
  match ParseUint (token l) 10 bits with
  | Some i => if err l then bad msg l else mret i
  | None => bad msg l
  end.

(** The same without a look at [l.err]. *)
Definition uint_token (msg : String.string) (bits : Z) : P Z :=
  l ← next;
  match ParseUint (token l) 10 bits with Some i => mret i | None => bad msg l end.

(** The loop over the types of a bit map. *)
Definition types_field (msg : String.string) : P (list Z) :=
  l ← next;
  '(ts, _) ← line_loop (fun ts l =>
    if value l =? zBlank then mret ts
    else if value l =? zString then
      match type_of_token (ToUpper (token l)) (token l) with Some k => mret (ts ++ [k]) | None => bad msg l end
    else bad msg l) [] l;
  mret ts.
End Scan.
