(* ===== verification/ScanRR.v ===== *)
(** * The parse methods of the records (scan_rr.go)

    One definition per method, in the order of the struct's fields.  The
    floating-point expressions of LOC and GPOS are the interface [Floats]. *)

From S2P Require Import Prelude Go Utf8 Labels Escape Names Wire Codec Encodings Apl RData RR Ztypes Duplicate Dnssec Strconv Netip TimeText Types Lexer LexCarry Scan.

#[local] Open Scope string_scope.

Definition IPSECGatewayNone : Z := 0.

(** [uint32(1000 * i)] of a number of seconds from 0 to 60, [uint32(i*100.0 + 10000000.0 + 0.5)]
    of an altitude, and whether [strconv.ParseFloat] takes a text. *)
Class Floats := {
  loc_seconds : bytes -> option Z;
  loc_altitude : bytes -> option Z;
  is_float : bytes -> bool;
  loc_altitude_range t a : loc_altitude t = Some a -> 0 <= a < 2 ^ 32
}.

Section ScanRR.
Context {casing : Casing} {floats : Floats}.

(** ** Names *)

Definition NS_parse (o : bytes) : P (list fval) :=
  Ns ← name_field "bad NS Ns" o;
  _ ← slurpRemainder;
  mret [V_str Ns].

Definition PTR_parse (o : bytes) : P (list fval) :=
  Ptr ← name_field "bad PTR Ptr" o;
  _ ← slurpRemainder;
  mret [V_str Ptr].

Definition NSAPPTR_parse (o : bytes) : P (list fval) :=
  Ptr ← name_field "bad NSAP-PTR Ptr" o;
  _ ← slurpRemainder;
  mret [V_str Ptr].

Definition MR_parse (o : bytes) : P (list fval) :=
  Mr ← name_field "bad MR Mr" o;
  _ ← slurpRemainder;
  mret [V_str Mr].

Definition MB_parse (o : bytes) : P (list fval) :=
  Mb ← name_field "bad MB Mb" o;
  _ ← slurpRemainder;
  mret [V_str Mb].

Definition MG_parse (o : bytes) : P (list fval) :=
  Mg ← name_field "bad MG Mg" o;
  _ ← slurpRemainder;
  mret [V_str Mg].

Definition MF_parse (o : bytes) : P (list fval) :=
  Mf ← name_field "bad MF Mf" o;
  _ ← slurpRemainder;
  mret [V_str Mf].

Definition MD_parse (o : bytes) : P (list fval) :=
  Md ← name_field "bad MD Md" o;
  _ ← slurpRemainder;
  mret [V_str Md].

Definition CNAME_parse (o : bytes) : P (list fval) :=
  Target ← name_field "bad CNAME Target" o;
  _ ← slurpRemainder;
  mret [V_str Target].

Definition DNAME_parse (o : bytes) : P (list fval) :=
  Target ← name_field "bad DNAME Target" o;
  _ ← slurpRemainder;
  mret [V_str Target].

Definition RP_parse (o : bytes) : P (list fval) :=
  Mbox ← name_field "bad RP Mbox" o;
  _ ← blank;
  Txt ← name_field "bad RP Txt" o;
  _ ← slurpRemainder;
  mret [V_str Mbox; V_str Txt].

Definition MINFO_parse (o : bytes) : P (list fval) :=
  Rmail ← name_field "bad MINFO Rmail" o;
  _ ← blank;
  Email ← name_field "bad MINFO Email" o;
  _ ← slurpRemainder;
  mret [V_str Rmail; V_str Email].

Definition TALINK_parse (o : bytes) : P (list fval) :=
  PreviousName ← name_field "bad TALINK PreviousName" o;
  _ ← blank;
  NextName ← name_field "bad TALINK NextName" o;
  _ ← slurpRemainder;
  mret [V_str PreviousName; V_str NextName].

Definition MX_parse (o : bytes) : P (list fval) :=
  Preference ← uint_field "bad MX Pref" 16;
  _ ← blank;
  Mx ← name_field "bad MX Mx" o;
  _ ← slurpRemainder;
  mret [V_int Preference; V_str Mx].

Definition RT_parse (o : bytes) : P (list fval) :=
  Preference ← uint_token "bad RT Preference" 16;
  _ ← blank;
  Host ← name_field "bad RT Host" o;
  _ ← slurpRemainder;
  mret [V_int Preference; V_str Host].

Definition AFSDB_parse (o : bytes) : P (list fval) :=
  Subtype ← uint_field "bad AFSDB Subtype" 16;
  _ ← blank;
  Hostname ← name_field "bad AFSDB Hostname" o;
  _ ← slurpRemainder;
  mret [V_int Subtype; V_str Hostname].

Definition KX_parse (o : bytes) : P (list fval) :=
  Preference ← uint_field "bad KX Pref" 16;
  _ ← blank;
  Exchanger ← name_field "bad KX Exchanger" o;
  _ ← slurpRemainder;
  mret [V_int Preference; V_str Exchanger].

Definition LP_parse (o : bytes) : P (list fval) :=
  Preference ← uint_field "bad LP Preference" 16;
  _ ← blank;
  Fqdn ← name_field "bad LP Fqdn" o;
  _ ← slurpRemainder;
  mret [V_int Preference; V_str Fqdn].

Definition OPENPGPKEY_parse (o : bytes) : P (list fval) :=
  PublicKey ← endingToString "bad OPENPGPKEY PublicKey";
  mret [V_str PublicKey].

Definition EID_parse (o : bytes) : P (list fval) :=
  Endpoint ← endingToString "bad EID Endpoint";
  mret [V_str Endpoint].

Definition NIMLOC_parse (o : bytes) : P (list fval) :=
  Locator ← endingToString "bad NIMLOC Locator";
  mret [V_str Locator].

Definition DHCID_parse (o : bytes) : P (list fval) :=
  Digest ← endingToString "bad DHCID Digest";
  mret [V_str Digest].

Definition SPF_parse (o : bytes) : P (list fval) :=
  s ← endingToTxtSlice "bad SPF Txt";
  mret [V_strs s].

Definition AVC_parse (o : bytes) : P (list fval) :=
  s ← endingToTxtSlice "bad AVC Txt";
  mret [V_strs s].

Definition TXT_parse (o : bytes) : P (list fval) :=
  s ← endingToTxtSlice "bad TXT Txt";
  mret [V_strs s].

Definition NINFO_parse (o : bytes) : P (list fval) :=
  s ← endingToTxtSlice "bad NINFO ZSData";
  mret [V_strs s].

Definition RESINFO_parse (o : bytes) : P (list fval) :=
  s ← endingToTxtSlice "bad RESINFO Resinfo";
  mret [V_strs s].

Definition UID_parse (o : bytes) : P (list fval) :=
  Uid ← uint_field "bad UID Uid" 32;
  _ ← slurpRemainder;
  mret [V_int Uid].

Definition GID_parse (o : bytes) : P (list fval) :=
  Gid ← uint_field "bad GID Gid" 32;
  _ ← slurpRemainder;
  mret [V_int Gid].

Definition TLSA_parse (o : bytes) : P (list fval) :=
  Usage ← uint_field "bad TLSA Usage" 8;
  _ ← blank;
  Selector ← uint_field "bad TLSA Selector" 8;
  _ ← blank;
  MatchingType ← uint_field "bad TLSA MatchingType" 8;
  Certificate ← endingToString "bad TLSA Certificate";
  mret [V_int Usage; V_int Selector; V_int MatchingType; V_str Certificate].

Definition SMIMEA_parse (o : bytes) : P (list fval) :=
  Usage ← uint_field "bad SMIMEA Usage" 8;
  _ ← blank;
  Selector ← uint_field "bad SMIMEA Selector" 8;
  _ ← blank;
  MatchingType ← uint_field "bad SMIMEA MatchingType" 8;
  Certificate ← endingToString "bad SMIMEA Certificate";
  mret [V_int Usage; V_int Selector; V_int MatchingType; V_str Certificate].

Definition PX_parse (o : bytes) : P (list fval) :=
  Preference ← uint_field "bad PX Preference" 16;
  _ ← blank;
  Map822 ← name_field "bad PX Map822" o;
  _ ← blank;
  Mapx400 ← name_field "bad PX Mapx400" o;
  _ ← slurpRemainder;
  mret [V_int Preference; V_str Map822; V_str Mapx400].

Definition A_parse (o : bytes) : P (list fval) :=
  l ← next;
  match ParseIP (token l) with
  | Some ip => if contains_byte (token l) ch_colon || err l then bad "bad A A" l else _ ← slurpRemainder; mret [V_str ip]
  | None => bad "bad A A" l
  end.

Definition AAAA_parse (o : bytes) : P (list fval) :=
  l ← next;
  match ParseIP (token l) with
  | Some ip => if negb (contains_byte (token l) ch_colon) || err l then bad "bad AAAA AAAA" l else _ ← slurpRemainder; mret [V_str ip]
  | None => bad "bad AAAA AAAA" l
  end.

(** The strings of HINFO and ISDN. *)
Definition two_fields (chunks : list bytes) : list fval :=
  let chunks :=
    match chunks with
    | [c] => let out := Fields c in if 1 <? zlen out then out else [c; []]
    | _ => chunks
    end in
  match chunks with
  | [] => [V_str []; V_str []]
  | c :: rest => [V_str c; V_str (join [ch_space] rest)]
  end.

Definition HINFO_parse (o : bytes) : P (list fval) :=
  chunks ← endingToTxtSlice "bad HINFO Fields";
  mret (two_fields chunks).

Definition ISDN_parse (o : bytes) : P (list fval) :=
  chunks ← endingToTxtSlice "bad ISDN Fields";
  mret (two_fields chunks).

Definition X25_parse (o : bytes) : P (list fval) :=
  l ← next;
  if err l then bad "bad X25 PSDNAddress" l else
  _ ← slurpRemainder; mret [V_str (token l)].

(** One of the five numbers of a SOA; all but the serial may have units. *)
Definition soa_number (serial : bool) : P Z :=
  l ← next;
  if err l then bad "bad SOA zone parameter" l else
  match ParseUint (token l) 10 32 with
  | Some j => mret j
  | None =>
      if serial then bad "bad SOA zone parameter" l
      else match stringToTTL (token l) with Some v => mret v | None => bad "bad SOA zone parameter" l end
  end.

Definition SOA_parse (o : bytes) : P (list fval) :=
  Ns ← name_field "bad SOA Ns" o;
  _ ← blank;
  Mbox ← name_field "bad SOA Mbox" o;
  _ ← blank;
  Serial ← soa_number true;
  _ ← blank;
  Refresh ← soa_number false;
  _ ← blank;
  Retry ← soa_number false;
  _ ← blank;
  Expire ← soa_number false;
  _ ← blank;
  Minttl ← soa_number false;
  _ ← slurpRemainder;
  mret [V_str Ns; V_str Mbox; V_int Serial; V_int Refresh; V_int Retry; V_int Expire; V_int Minttl].

Definition SRV_parse (o : bytes) : P (list fval) :=
  Priority ← uint_field "bad SRV Priority" 16;
  _ ← blank;
  Weight ← uint_field "bad SRV Weight" 16;
  _ ← blank;
  Port ← uint_field "bad SRV Port" 16;
  _ ← blank;
  Target ← name_field "bad SRV Target" o;
  _ ← slurpRemainder;
  mret [V_int Priority; V_int Weight; V_int Port; V_str Target].

(** A string in quotes, as one token. *)
Definition naptr_string (msg : String.string) : P bytes :=
  l ← next;
  if negb (value l =? zQuote) then bad msg l else
  l ← next;
  if value l =? zString then
    q ← next;
    if negb (value q =? zQuote) then bad msg q else mret (token l)
  else if value l =? zQuote then mret []
  else bad msg l.

Definition NAPTR_parse (o : bytes) : P (list fval) :=
  Order ← uint_field "bad NAPTR Order" 16;
  _ ← blank;
  Preference ← uint_field "bad NAPTR Preference" 16;
  _ ← blank;
  Flags ← naptr_string "bad NAPTR Flags";
  _ ← blank;
  Service ← naptr_string "bad NAPTR Service";
  _ ← blank;
  Regexp ← naptr_string "bad NAPTR Regexp";
  _ ← blank;
  Replacement ← name_field "bad NAPTR Replacement" o;
  _ ← slurpRemainder;
  mret [V_int Order; V_int Preference; V_str Flags; V_str Service; V_str Regexp; V_str Replacement].

(** ** LOC and GPOS *)

(** Degrees, then a direction, or minutes and seconds before it. *)
Definition loc_angle (max : Z) (check : bytes -> Z -> Z * bool) (deg min sec dir : String.string) : P Z :=
  l ← next;
  match ParseUint (token l) 10 32 with
  | None => bad deg l
  | Some i =>
      if err l || (max <? i) then bad deg l else
      let v := 1000 * 60 * 60 * i mod 2 ^ 32 in
      _ ← blank;
      l ← next;
      let '(v, ok) := check (token l) v in
      if ok then mret v else
      match ParseUint (token l) 10 32 with
      | None => bad min l
      | Some i =>
          if err l || (59 <? i) then bad min l else
          let v := (v + 1000 * 60 * i) mod 2 ^ 32 in
          _ ← blank;
          l ← next;
          match loc_seconds (token l) with
          | None => bad sec l
          | Some ms =>
              if err l then bad sec l else
              let v := (v + ms) mod 2 ^ 32 in
              _ ← blank;
              l ← next;
              let '(v, ok) := check (token l) v in
              if ok then mret v else bad dir l
          end
      end
  end.

(** The optional sizes, by their number. *)
Definition loc_size (st : Z * list Z) (l : lex) : P (Z * list Z) :=
  let '(count, sizes) := st in
  if value l =? zString then
    if count <=? 2 then
      let msg := if count =? 0 then "bad LOC Size" else if count =? 1 then "bad LOC HorizPre" else "bad LOC VertPre" in
      r ← look (stringToCm (token l));
      match r with
      | None => bad msg l
      | Some (e, m) => mret (count + 1, zset sizes count (Z.lor (Z.land e 0x0f) (Z.land (Z.shiftl m 4 mod 256) 0xf0)))
      end
    else mret (count + 1, sizes)
  else if value l =? zBlank then mret st
  else bad "bad LOC Size, HorizPre or VertPre" l.

Definition LOC_parse (o : bytes) : P (list fval) :=
  Latitude ← loc_angle 90 locCheckNorth "bad LOC Latitude" "bad LOC Latitude minutes" "bad LOC Latitude seconds" "bad LOC Latitude North/South";
  _ ← blank;
  Longitude ← loc_angle 180 locCheckEast "bad LOC Longitude" "bad LOC Longitude minutes" "bad LOC Longitude seconds" "bad LOC Longitude East/West";
  _ ← blank;
  l ← next;
  if bool_decide (token l = []) || err l then bad "bad LOC Altitude" l else
  last ← look (index (zget (token l) (zlen (token l) - 1)));
  let tok := if (last =b x4d) || (last =b x6d) then ztake (zlen (token l) - 1) (token l) else token l in
  match loc_altitude tok with
  | None => bad "bad LOC Altitude" l
  | Some Altitude =>
      l ← next;
      r ← line_loop loc_size (0, [0x12; 0x16; 0x13]) l;
      let '(_, sizes, _) := (r : Z * list Z * lex) in
      match sizes with
      | [Size; HorizPre; VertPre] =>
          mret [V_int 0; V_int Size; V_int HorizPre; V_int VertPre; V_int Latitude; V_int Longitude; V_int Altitude]
      | _ => look Panic
      end
  end.

(** A token that is a floating-point number. *)
Definition float_field (msg : String.string) : P bytes :=
  l ← next;
  if negb (is_float (token l)) || err l then bad msg l else mret (token l).

Definition GPOS_parse (o : bytes) : P (list fval) :=
  Longitude ← float_field "bad GPOS Longitude";
  _ ← blank;
  Latitude ← float_field "bad GPOS Latitude";
  _ ← blank;
  Altitude ← float_field "bad GPOS Altitude";
  _ ← slurpRemainder;
  mret [V_str Longitude; V_str Latitude; V_str Altitude].

(** ** Records with lists and keys *)

Definition HIP_parse (o : bytes) : P (list fval) :=
  PublicKeyAlgorithm ← uint_field "bad HIP PublicKeyAlgorithm" 8;
  _ ← blank;
  l ← next;
  if bool_decide (token l = []) || err l then bad "bad HIP Hit" l else
  let Hit := token l in
  let HitLength := zlen Hit mod 256 / 2 in
  _ ← blank;
  l ← next;
  if bool_decide (token l = []) || err l then bad "bad HIP PublicKey" l else
  let PublicKey := token l in
  match fromBase64 PublicKey with
  | Ok decodedPK =>
      let PublicKeyLength := zlen decodedPK mod 65536 in
      l ← next;
      r ← line_loop (fun xs l =>
        if value l =? zString then
          name ← look (toAbsoluteName (token l) o);
          match name with
          | Some name => if err l then bad "bad HIP RendezvousServers" l else mret (xs ++ [name])
          | None => bad "bad HIP RendezvousServers" l
          end
        else if value l =? zBlank then mret xs
        else bad "bad HIP RendezvousServers" l) [] l;
      mret [V_int HitLength; V_int PublicKeyAlgorithm; V_int PublicKeyLength; V_str Hit; V_str PublicKey; V_strs r.1]
  | _ => bad "bad HIP PublicKey" l
  end.

(** A mnemonic or a number, without a look at [l.err]. *)
Definition mnemonic (m : list (bytes * Z)) (msg : String.string) (bits : Z) : P Z :=
  l ← next;
  match number_of m (token l) with
  | Some v => mret v
  | None => match ParseUint (token l) 10 bits with Some i => mret i | None => bad msg l end
  end.

Definition CERT_parse (o : bytes) : P (list fval) :=
  Type_ ← mnemonic StringToCertType "bad CERT Type" 16;
  _ ← blank;
  KeyTag ← uint_field "bad CERT KeyTag" 16;
  _ ← blank;
  Algorithm ← mnemonic StringToAlgorithm "bad CERT Algorithm" 8;
  Certificate ← endingToString "bad CERT Certificate";
  mret [V_int Type_; V_int KeyTag; V_int Algorithm; V_str Certificate].

Definition CSYNC_parse (o : bytes) : P (list fval) :=
  Serial ← uint_token "bad CSYNC serial" 32;
  _ ← blank;
  Flags ← uint_token "bad CSYNC flags" 16;
  TypeBitMap ← types_field "bad CSYNC TypeBitMap";
  mret [V_int Serial; V_int Flags; V_types TypeBitMap].

Definition ZONEMD_parse (o : bytes) : P (list fval) :=
  Serial ← uint_field "bad ZONEMD Serial" 32;
  _ ← blank;
  Scheme ← uint_field "bad ZONEMD Scheme" 8;
  _ ← blank;
  Hash ← uint_field "bad ZONEMD Hash Algorithm" 8;
  Digest ← endingToString "bad ZONEMD Digest";
  mret [V_int Serial; V_int Scheme; V_int Hash; V_str Digest].

(** A time, or seconds. *)
Definition time_field (msg : String.string) : P Z :=
  l ← next;
  match StringToTime (token l) with
  | Some i => mret i
  | None => match ParseUint (token l) 10 32 with Some i => mret i | None => bad msg l end
  end.

Definition RRSIG_parse (o : bytes) : P (list fval) :=
  l ← next;
  let u := ToUpper (token l) in
  match (match number_of StringToType u with
         | Some t => Some t
         | None => if has_prefix u (bs "TYPE") then typeToInt (token l) else None
         end) with
  | None => bad "bad RRSIG Typecovered" l
  | Some TypeCovered =>
      _ ← blank;
      l ← next;
      if err l then bad "bad RRSIG Algorithm" l else
      match (match ParseUint (token l) 10 8 with Some i => Some i | None => number_of StringToAlgorithm (token l) end) with
      | None => bad "bad RRSIG Algorithm" l
      | Some Algorithm =>
          _ ← blank;
          Labels ← uint_field "bad RRSIG Labels" 8;
          _ ← blank;
          OrigTtl ← uint_field "bad RRSIG OrigTtl" 32;
          _ ← blank;
          Expiration ← time_field "bad RRSIG Expiration";
          _ ← blank;
          Inception ← time_field "bad RRSIG Inception";
          _ ← blank;
          KeyTag ← uint_field "bad RRSIG KeyTag" 16;
          _ ← blank;
          SignerName ← name_field "bad RRSIG SignerName" o;
          Signature ← endingToString "bad RRSIG Signature";
          mret [V_int TypeCovered; V_int Algorithm; V_int Labels; V_int OrigTtl; V_int Expiration; V_int Inception; V_int KeyTag;
                V_str SignerName; V_str Signature]
      end
  end.

Definition SIG_parse (o : bytes) : P (list fval) := RRSIG_parse o.

Definition NSEC_parse (o : bytes) : P (list fval) :=
  NextDomain ← name_field "bad NSEC NextDomain" o;
  TypeBitMap ← types_field "bad NSEC TypeBitMap";
  mret [V_str NextDomain; V_types TypeBitMap].

Definition NXT_parse (o : bytes) : P (list fval) := NSEC_parse o.

(** A token that is not empty. *)
Definition token_field (msg : String.string) : P bytes :=
  l ← next;
  if bool_decide (token l = []) || err l then bad msg l else mret (token l).

Definition NSEC3_parse (o : bytes) : P (list fval) :=
  Hash ← uint_field "bad NSEC3 Hash" 8;
  _ ← blank;
  Flags ← uint_field "bad NSEC3 Flags" 8;
  _ ← blank;
  Iterations ← uint_field "bad NSEC3 Iterations" 16;
  _ ← blank;
  t ← token_field "bad NSEC3 Salt";
  let '(SaltLength, Salt) := if negb (bool_decide (t = bs "-")) then (zlen t mod 256 / 2, t) else (0, []) in
  _ ← blank;
  NextDomain ← token_field "bad NSEC3 NextDomain";
  TypeBitMap ← types_field "bad NSEC3 TypeBitMap";
  mret [V_int Hash; V_int Flags; V_int Iterations; V_int SaltLength; V_str Salt; V_int 20; V_str NextDomain; V_types TypeBitMap].

Definition NSEC3PARAM_parse (o : bytes) : P (list fval) :=
  Hash ← uint_field "bad NSEC3PARAM Hash" 8;
  _ ← blank;
  Flags ← uint_field "bad NSEC3PARAM Flags" 8;
  _ ← blank;
  Iterations ← uint_field "bad NSEC3PARAM Iterations" 16;
  _ ← blank;
  l ← next;
  let '(SaltLength, Salt) := if negb (bool_decide (token l = bs "-")) then (zlen (token l) / 2 mod 256, token l) else (0, []) in
  _ ← slurpRemainder;
  mret [V_int Hash; V_int Flags; V_int Iterations; V_int SaltLength; V_str Salt].

(** [n] pairs of digits with dashes between them, as one number. *)
Definition eui_number (n : nat) (t : bytes) : option Z :=
  let pairs := map (fun i => ztake 2 (zdrop (3 * Z.of_nat i) t)) (seq 0 n) in
  let dashes := map (fun i => zget t (3 * Z.of_nat i + 2)) (seq 0 (n - 1)) in
  if negb (zlen t =? 3 * Z.of_nat n - 1) || negb (forallb (fun d => bool_decide (d = Some x2d)) dashes) then None
  else ParseUint (concat pairs) 16 (8 * Z.of_nat n).

Definition EUI48_parse (o : bytes) : P (list fval) :=
  l ← next;
  if err l then bad "bad EUI48 Address" l else
  match eui_number 6 (token l) with
  | Some i => _ ← slurpRemainder; mret [V_int i]
  | None => bad "bad EUI48 Address" l
  end.

(** A number that does not parse is reported as "bad EUI68 Address". *)
Definition EUI64_parse (o : bytes) : P (list fval) :=
  l ← next;
  let dashes := map (fun i => zget (token l) (3 * Z.of_nat i + 2)) (seq 0 7) in
  if negb (zlen (token l) =? 23) || err l || negb (forallb (fun d => bool_decide (d = Some x2d)) dashes) then bad "bad EUI64 Address" l else
  match eui_number 8 (token l) with
  | Some i => _ ← slurpRemainder; mret [V_int i]
  | None => bad "bad EUI68 Address" l
  end.

Definition SSHFP_parse (o : bytes) : P (list fval) :=
  Algorithm ← uint_field "bad SSHFP Algorithm" 8;
  _ ← blank;
  Type_ ← uint_field "bad SSHFP Type" 8;
  _ ← blank;
  FingerPrint ← endingToString "bad SSHFP Fingerprint";
  mret [V_int Algorithm; V_int Type_; V_str FingerPrint].

Definition bad_field (typ f : String.string) : String.string := String.append "bad " (String.append typ (String.append " " f)).

Definition parseDNSKEY (o : bytes) (typ : String.string) : P (list fval) :=
  Flags ← uint_field (bad_field typ "Flags") 16;
  _ ← blank;
  Protocol ← uint_field (bad_field typ "Protocol") 8;
  _ ← blank;
  Algorithm ← uint_field (bad_field typ "Algorithm") 8;
  PublicKey ← endingToString (bad_field typ "PublicKey");
  mret [V_int Flags; V_int Protocol; V_int Algorithm; V_str PublicKey].

Definition DNSKEY_parse (o : bytes) : P (list fval) := parseDNSKEY o "DNSKEY".
Definition KEY_parse (o : bytes) : P (list fval) := parseDNSKEY o "KEY".
Definition CDNSKEY_parse (o : bytes) : P (list fval) := parseDNSKEY o "CDNSKEY".
Definition RKEY_parse (o : bytes) : P (list fval) := parseDNSKEY o "RKEY".

(** A number, or the mnemonic of an algorithm in any letters. *)
Definition algorithm_field (msg : String.string) : P Z :=
  l ← next;
  match ParseUint (token l) 10 8 with
  | Some i => mret i
  | None =>
      match number_of StringToAlgorithm (ToUpper (token l)) with
      | Some i => if err l then bad msg l else mret i
      | None => bad msg l
      end
  end.

Definition parseDS (o : bytes) (typ : String.string) : P (list fval) :=
  KeyTag ← uint_field (bad_field typ "KeyTag") 16;
  _ ← blank;
  Algorithm ← algorithm_field (bad_field typ "Algorithm");
  _ ← blank;
  DigestType ← uint_field (bad_field typ "DigestType") 8;
  Digest ← endingToString (bad_field typ "Digest");
  mret [V_int KeyTag; V_int Algorithm; V_int DigestType; V_str Digest].

Definition DS_parse (o : bytes) : P (list fval) := parseDS o "DS".
Definition DLV_parse (o : bytes) : P (list fval) := parseDS o "DLV".
Definition CDS_parse (o : bytes) : P (list fval) := parseDS o "CDS".
Definition TA_parse (o : bytes) : P (list fval) := parseDS o "TA".

(** ** Gateways *)

(** The address and host of IPSECKEY and AMTRELAY; an error has no text, because
    it is wrapped. *)
Definition parseAddrHostUnion (tok o : bytes) (gatewayType : Z) : res error (option (bytes * bytes)) :=
  if gatewayType =? IPSECGatewayNone then Ok (if bool_decide (tok = [ch_dot]) then Some ([], []) else None)
  else if (gatewayType =? IPSECGatewayIPv4) || (gatewayType =? IPSECGatewayIPv6) then
    Ok (match ParseIP tok with
        | None => None
        | Some addr => if Bool.eqb (bool_decide (To4 addr = [])) (gatewayType =? IPSECGatewayIPv4) then None else Some (addr, [])
        end)
  else if gatewayType =? IPSECGatewayHost then
    host ← toAbsoluteName tok o;
    Ok (match host with Some host => Some ([], host) | None => None end)
  else Ok (Some ([], [])).

Definition gateway_field (msg : String.string) (o : bytes) (gatewayType : Z) : P (bytes * bytes) :=
  l ← next;
  if err l then bad msg l else
  r ← look (parseAddrHostUnion (token l) o gatewayType);
  match r with Some g => mret g | None => bad "" l end.

(** The rest of the line is read twice. *)
Definition IPSECKEY_parse (o : bytes) : P (list fval) :=
  Precedence ← uint_field "bad IPSECKEY value" 8;
  _ ← blank;
  GatewayType ← uint_field "bad IPSECKEY value" 8;
  _ ← blank;
  Algorithm ← uint_field "bad IPSECKEY value" 8;
  _ ← blank;
  g ← gateway_field "bad IPSECKEY gateway" o GatewayType;
  _ ← blank;
  PublicKey ← endingToString "bad IPSECKEY PublicKey";
  _ ← slurpRemainder;
  mret [V_int Precedence; V_int GatewayType; V_int Algorithm; V_gateway g.1 g.2; V_str PublicKey].

Definition AMTRELAY_parse (o : bytes) : P (list fval) :=
  Precedence ← uint_field "bad AMTRELAY value" 8;
  _ ← blank;
  l ← next;
  if err l || negb (bool_decide (token l = bs "0") || bool_decide (token l = bs "1")) then bad "bad discovery value" l else
  let GatewayType := if bool_decide (token l = bs "1") then 0x80 else 0 in
  _ ← blank;
  num ← uint_field "bad AMTRELAY value" 8;
  let GatewayType := Z.lor GatewayType num in
  _ ← blank;
  g ← gateway_field "bad AMTRELAY gateway" o (Z.land GatewayType 0x7f);
  _ ← slurpRemainder;
  mret [V_int Precedence; V_int GatewayType; V_gateway g.1 g.2].

(** ** The others *)

Definition RFC3597_parse (o : bytes) : P (list fval) :=
  l ← next;
  if negb (bool_decide (token l = bs "\#")) then bad "bad RFC3597 Rdata" l else
  _ ← blank;
  l ← next;
  match ParseUint (token l) 10 16 with
  | None => bad "bad RFC3597 Rdata " l
  | Some rdlength =>
      if err l then bad "bad RFC3597 Rdata " l else
      s ← endingToString "bad RFC3597 Rdata";
      if negb (rdlength * 2 =? zlen s) then bad "bad RFC3597 Rdata" l else mret [V_str s]
  end.

(** A number of strings that must be one. *)
Definition one_string (msg : String.string) (l : lex) : P bytes :=
  s ← endingToTxtSlice msg;
  match s with [s] => mret s | _ => bad msg l end.

Definition URI_parse (o : bytes) : P (list fval) :=
  Priority ← uint_field "bad URI Priority" 16;
  _ ← blank;
  l ← next;
  match ParseUint (token l) 10 16 with
  | None => bad "bad URI Weight" l
  | Some Weight =>
      if err l then bad "bad URI Weight" l else
      _ ← blank;
      Target ← one_string "bad URI Target" l;
      mret [V_int Priority; V_int Weight; V_str Target]
  end.

Definition NID_parse (o : bytes) : P (list fval) :=
  Preference ← uint_field "bad NID Preference" 16;
  _ ← blank;
  l ← next;
  NodeID ← stringToNodeID l;
  if err l then mret [V_int Preference; V_int 0] else
  _ ← slurpRemainder;
  mret [V_int Preference; V_int NodeID].

Definition L64_parse (o : bytes) : P (list fval) :=
  Preference ← uint_field "bad L64 Preference" 16;
  _ ← blank;
  l ← next;
  Locator64 ← stringToNodeID l;
  if err l then mret [V_int Preference; V_int 0] else
  _ ← slurpRemainder;
  mret [V_int Preference; V_int Locator64].

Definition L32_parse (o : bytes) : P (list fval) :=
  Preference ← uint_field "bad L32 Preference" 16;
  _ ← blank;
  l ← next;
  match ParseIP (token l) with
  | Some ip => if err l then bad "bad L32 Locator" l else _ ← slurpRemainder; mret [V_int Preference; V_str ip]
  | None => bad "bad L32 Locator" l
  end.

(** Strings after the first are discarded. *)
Definition UINFO_parse (o : bytes) : P (list fval) :=
  s ← endingToTxtSlice "bad UINFO Uinfo";
  mret [V_str (match s with [] => [] | Uinfo :: _ => Uinfo end)].

Definition CAA_parse (o : bytes) : P (list fval) :=
  Flag ← uint_field "bad CAA Flag" 8;
  _ ← blank;
  l ← next;
  if negb (value l =? zString) then bad "bad CAA Tag" l else
  let Tag := token l in
  _ ← blank;
  Value ← one_string "bad CAA Value" l;
  mret [V_int Flag; V_str Tag; V_str Value].

(** A token that is a string. *)
Definition string_token (msg : String.string) : P bytes :=
  l ← next;
  if negb (value l =? zString) then bad msg l else mret (token l).

(** What follows on the line is not read. *)
Definition TKEY_parse (o : bytes) : P (list fval) :=
  Algorithm ← string_token "bad TKEY algorithm";
  _ ← blank;
  KeySize ← uint_field "bad TKEY key length" 8;
  _ ← blank;
  Key ← string_token "bad TKEY key";
  _ ← blank;
  OtherLen ← uint_field "bad TKEY otherdata length" 8;
  _ ← blank;
  OtherData ← string_token "bad TKEY otherday";
  mret [V_str Algorithm; V_int 0; V_int 0; V_int 0; V_int 0; V_int KeySize; V_str Key; V_int OtherLen; V_str OtherData].

(** One prefix of an APL record: [!]afi:address/prefix. *)
Definition apl_prefix (l : lex) : P APLPrefix :=
  match index_byte (token l) ch_colon with
  | None => bad "missing colon in APL field" l
  | Some colon =>
      let family := ztake colon (token l) in
      let cidr := zdrop (colon + 1) (token l) in
      let negation := has_prefix family (bs "!") in
      let family := if negation then zdrop 1 family else family in
      match ParseUint family 10 16 with
      | None => bad "" l
      | Some afi =>
          if negb ((afi =? 1) || (afi =? 2)) then bad "unrecognized APL family" l else
          let addrLen := if afi =? 1 then 4 else 16 in
          match ParseCIDR cidr with
          | None => bad "" l
          | Some (ip, subnet, mask) =>
              if negb (IP_Equal ip subnet) then bad "extra bits in APL address" l
              else if negb (zlen subnet =? addrLen) then bad "address mismatch with the APL family" l
              else mret {| Negation := negation; Network_IP := subnet; Network_Mask := mask |}
          end
      end
  end.

Definition apl_token (prefixes : list APLPrefix) (l : lex) : P (list APLPrefix) :=
  if (value l =? zBlank) && negb (zlen prefixes =? 0) then mret prefixes
  else if negb (value l =? zString) then bad "unexpected APL field" l
  else p ← apl_prefix l; mret (prefixes ++ [p]).

Definition APL_parse (o : bytes) : P (list fval) :=
  l ← next;
  r ← line_loop apl_token [] l;
  mret [V_apl r.1].

(** Records without a presentation format: the error has no token. *)
Definition no_presentation (name : String.string) (o : bytes) : P (list fval) :=
  bad (String.append name " records do not have a presentation format") no_lex.
Definition ANY_parse := no_presentation "ANY".
Definition NULL_parse := no_presentation "NULL".
Definition NXNAME_parse := no_presentation "NXNAME".
Definition OPT_parse := no_presentation "OPT".
Definition TSIG_parse := no_presentation "TSIG".
End ScanRR.
