(* ===== verification/Present.v ===== *)
(** * The String methods (types.go, dns.go, defaults.go)

    One definition per method, on the fields in the order of the struct.  [now] is
    the clock that [TimeToString] reads; a value that does not have the
    struct's fields, which Go's types rule out, is a panic. *)

From S2P Require Import Prelude Go Utf8 Labels Escape Names Wire Codec Encodings Apl RData RR Ztypes Duplicate Dnssec Strconv Netip TimeText Types.

#[local] Open Scope string_scope.

(** ** Pieces *)

(** [RR_Header.String]: an OPT record is a comment. *)
Definition RR_Header_String (h : RR_Header) : res error bytes :=
  name ← sprintName (Name h);
  Ok ((if Rrtype h =? 41 then bs ";" else []) ++ name ++ [x09] ++ Itoa (Ttl h) ++ [x09] ++ Class_String (Class_ h) ++ [x09] ++
      Type_String (Rrtype h) ++ [x09]).

Definition rfc3597Header (h : RR_Header) : res error bytes :=
  name ← sprintName (Name h);
  Ok (name ++ [x09] ++ Itoa (Ttl h) ++ [x09] ++ bs "CLASS" ++ Itoa (Class_ h) ++ [x09] ++ bs "TYPE" ++ Itoa (Rrtype h) ++ [x09]).

(** [for _, t := range rr.TypeBitMap { s += " " + Type(t).String() }]. *)
Definition types_String (ts : list Z) : bytes := concat (map (fun t => ch_space :: Type_String t) ts).
Fixpoint names_String (l : list bytes) : res error bytes :=
  match l with
  | [] => Ok []
  | d :: l => d ← sprintName d; r ← names_String l; Ok ([ch_space] ++ d ++ r)
  end.

Definition certtype (t : Z) : bytes := match name_of CertTypeToString t with Some s => s | None => Itoa t end.
Definition algname (a : Z) : bytes := match name_of AlgorithmToString a with Some s => s | None => Itoa a end.

(** Hexadecimal digits in groups of [k], [n] digits in all. *)
Fixpoint hex_groups (n : nat) (k : Z) (sep : bytes) (s : bytes) : list bytes :=
  match n with O => [] | S n => ztake k s :: hex_groups n k sep (zdrop k s) end.

(** [%0.16x] or [%0.16X], with colons. *)
Definition node_String (upper : bool) (v : Z) : bytes :=
  let node := pad0 16 (FormatUint v 16) in
  let node := if upper then map to_upper node else node in
  join (bs ":") (hex_groups 4 4 [] node).

Definition euiToString (eui bits : Z) : bytes :=
  if bits =? 64 then join (bs "-") (hex_groups 8 2 [] (pad0 16 (FormatUint eui 16)))
  else if bits =? 48 then join (bs "-") (hex_groups 6 2 [] (pad0 12 (FormatUint eui 16)))
  else [].

(** [splitN]: a last piece may be empty. *)
Fixpoint split_pieces (fuel : nat) (s : bytes) (n : Z) : list bytes :=
  match fuel with
  | O => []
  | S fuel => if n <=? zlen s then ztake n s :: split_pieces fuel (zdrop n s) n else [s]
  end.
Definition splitN (s : bytes) (n : Z) : list bytes := if zlen s <? n then [s] else split_pieces (S (length s)) s n.

(** The gateway of IPSECKEY, and of AMTRELAY without the discovery bit. *)
Definition gateway_String (t : Z) (addr host : bytes) : bytes :=
  if (t =? IPSECGatewayIPv4) || (t =? IPSECGatewayIPv6) then IP_String addr
  else if t =? IPSECGatewayHost then host
  else bs ".".

Definition ipv4InIPv6Prefix : bytes := bs "::ffff:".

Definition aaaa_String (ip : bytes) : bytes :=
  if zlen ip =? 0 then [] else if bool_decide (To4 ip = []) then IP_String ip else ipv4InIPv6Prefix ++ IP_String ip.

(** [APLPrefix.str]. *)
Definition APLPrefix_str (a : APLPrefix) : bytes :=
  let ip := Network_IP a in
  (if Negation a then bs "!" else []) ++
  (if zlen ip =? 4 then bs "1" else if zlen ip =? 16 then bs "2" else []) ++ bs ":" ++
  (if zlen ip =? 4 then IP_String ip
   else if zlen ip =? 16 then (if bool_decide (To4 ip = []) then [] else ipv4InIPv6Prefix) ++ IP_String ip else []) ++
  bs "/" ++ Itoa (mask_Size (Network_Mask a)).

(** [cmToM]. *)
Definition cmToM (x : Z) : bytes :=
  let m := Z.shiftr (Z.land x 0xf0) 4 in
  let e := Z.land x 0x0f in
  if e <? 2 then bs "0." ++ pad0 2 (Itoa (if e =? 1 then m * 10 mod 256 else m))
  else Itoa m ++ replicate (Z.to_nat (e - 2)) x30.

(** The angle of a LOC record: degrees, minutes, seconds with three decimals, which
    the division by 1000 in floating point gives exactly. *)
Definition LOC_HOURS : Z := 60 * 1000.
Definition LOC_DEGREES : Z := 60 * LOC_HOURS.
Definition LOC_ALTITUDEBASE : Z := 100000.
Definition LOC_PRIMEMERIDIAN : Z := Z.shiftl 1 31.
Definition angle_String (equator v : Z) (above below : bytes) : bytes :=
  let '(v, dir) := if equator <? v then (v - equator, above) else (equator - v, below) in
  let h := v / LOC_DEGREES in
  let v := v mod LOC_DEGREES in
  let m := v / LOC_HOURS in
  let v := v mod LOC_HOURS in
  pad0 2 (Itoa h) ++ [ch_space] ++ pad0 2 (Itoa m) ++ [ch_space] ++ Itoa (v / 1000) ++ bs "." ++ pad0 3 (Itoa (v mod 1000)) ++ [ch_space] ++ dir ++ [ch_space].

(** [%.2f] or [%.0f] of the altitude in metres. *)
Definition altitude_String (a : Z) : bytes :=
  let v := a - 100 * LOC_ALTITUDEBASE in
  let sign := if v <? 0 then bs "-" else [] in
  let v := Z.abs v in
  sign ++ Itoa (v / 100) ++ (if negb (a mod 100 =? 0) then bs "." ++ pad0 2 (Itoa (v mod 100)) else []).

Section Present.
Context {casing : Casing} (now : Z).

Definition saltToString (s : bytes) : bytes := match s with [] => bs "-" | _ => ToUpper s end.

(** ** The records *)

Definition CNAME_String (Hdr : RR_Header) (rr : list fval) : res error bytes :=
  h ← RR_Header_String Hdr;
  match rr with
  | [V_str Target] =>
      Target_text ← sprintName Target;
      Ok (h ++ Target_text)
  | _ => Panic
  end.

Definition HINFO_String (Hdr : RR_Header) (rr : list fval) : res error bytes :=
  h ← RR_Header_String Hdr;
  match rr with
  | [V_str Cpu; V_str Os] =>
      text ← sprintTxt [Cpu; Os];
      Ok (h ++ text)
  | _ => Panic
  end.

Definition MB_String (Hdr : RR_Header) (rr : list fval) : res error bytes :=
  h ← RR_Header_String Hdr;
  match rr with
  | [V_str Mb] =>
      Mb_text ← sprintName Mb;
      Ok (h ++ Mb_text)
  | _ => Panic
  end.

Definition MG_String (Hdr : RR_Header) (rr : list fval) : res error bytes :=
  h ← RR_Header_String Hdr;
  match rr with
  | [V_str Mg] =>
      Mg_text ← sprintName Mg;
      Ok (h ++ Mg_text)
  | _ => Panic
  end.

Definition MINFO_String (Hdr : RR_Header) (rr : list fval) : res error bytes :=
  h ← RR_Header_String Hdr;
  match rr with
  | [V_str Rmail; V_str Email] =>
      Rmail_text ← sprintName Rmail;
      Email_text ← sprintName Email;
      Ok (h ++ Rmail_text ++ [ch_space] ++ Email_text)
  | _ => Panic
  end.

Definition MR_String (Hdr : RR_Header) (rr : list fval) : res error bytes :=
  h ← RR_Header_String Hdr;
  match rr with
  | [V_str Mr] =>
      Mr_text ← sprintName Mr;
      Ok (h ++ Mr_text)
  | _ => Panic
  end.

Definition MF_String (Hdr : RR_Header) (rr : list fval) : res error bytes :=
  h ← RR_Header_String Hdr;
  match rr with
  | [V_str Mf] =>
      Mf_text ← sprintName Mf;
      Ok (h ++ Mf_text)
  | _ => Panic
  end.

Definition MD_String (Hdr : RR_Header) (rr : list fval) : res error bytes :=
  h ← RR_Header_String Hdr;
  match rr with
  | [V_str Md] =>
      Md_text ← sprintName Md;
      Ok (h ++ Md_text)
  | _ => Panic
  end.

Definition MX_String (Hdr : RR_Header) (rr : list fval) : res error bytes :=
  h ← RR_Header_String Hdr;
  match rr with
  | [V_int Preference; V_str Mx] =>
      Mx_text ← sprintName Mx;
      Ok (h ++ Itoa Preference ++ [ch_space] ++ Mx_text)
  | _ => Panic
  end.

Definition AFSDB_String (Hdr : RR_Header) (rr : list fval) : res error bytes :=
  h ← RR_Header_String Hdr;
  match rr with
  | [V_int Subtype; V_str Hostname] =>
      Hostname_text ← sprintName Hostname;
      Ok (h ++ Itoa Subtype ++ [ch_space] ++ Hostname_text)
  | _ => Panic
  end.

Definition X25_String (Hdr : RR_Header) (rr : list fval) : res error bytes :=
  h ← RR_Header_String Hdr;
  match rr with
  | [V_str PSDNAddress] =>
      Ok (h ++ PSDNAddress)
  | _ => Panic
  end.

Definition ISDN_String (Hdr : RR_Header) (rr : list fval) : res error bytes :=
  h ← RR_Header_String Hdr;
  match rr with
  | [V_str Address; V_str SubAddress] =>
      text ← sprintTxt [Address; SubAddress];
      Ok (h ++ text)
  | _ => Panic
  end.

Definition RT_String (Hdr : RR_Header) (rr : list fval) : res error bytes :=
  h ← RR_Header_String Hdr;
  match rr with
  | [V_int Preference; V_str Host] =>
      Host_text ← sprintName Host;
      Ok (h ++ Itoa Preference ++ [ch_space] ++ Host_text)
  | _ => Panic
  end.

Definition NS_String (Hdr : RR_Header) (rr : list fval) : res error bytes :=
  h ← RR_Header_String Hdr;
  match rr with
  | [V_str Ns] =>
      Ns_text ← sprintName Ns;
      Ok (h ++ Ns_text)
  | _ => Panic
  end.

Definition PTR_String (Hdr : RR_Header) (rr : list fval) : res error bytes :=
  h ← RR_Header_String Hdr;
  match rr with
  | [V_str Ptr] =>
      Ptr_text ← sprintName Ptr;
      Ok (h ++ Ptr_text)
  | _ => Panic
  end.

Definition RP_String (Hdr : RR_Header) (rr : list fval) : res error bytes :=
  h ← RR_Header_String Hdr;
  match rr with
  | [V_str Mbox; V_str Txt] =>
      Mbox_text ← sprintName Mbox;
      Txt_text ← sprintName Txt;
      Ok (h ++ Mbox_text ++ [ch_space] ++ Txt_text)
  | _ => Panic
  end.

Definition SOA_String (Hdr : RR_Header) (rr : list fval) : res error bytes :=
  h ← RR_Header_String Hdr;
  match rr with
  | [V_str Ns; V_str Mbox; V_int Serial; V_int Refresh; V_int Retry; V_int Expire; V_int Minttl] =>
      Ns_text ← sprintName Ns;
      Mbox_text ← sprintName Mbox;
      Ok (h ++ Ns_text ++ [ch_space] ++ Mbox_text ++ [ch_space] ++ Itoa Serial ++ [ch_space] ++ Itoa Refresh ++ [ch_space] ++ Itoa Retry ++ [ch_space] ++ Itoa Expire ++ [ch_space] ++ Itoa Minttl)
  | _ => Panic
  end.

Definition TXT_String (Hdr : RR_Header) (rr : list fval) : res error bytes :=
  h ← RR_Header_String Hdr;
  match rr with
  | [V_strs Txt] =>
      text ← sprintTxt Txt;
      Ok (h ++ text)
  | _ => Panic
  end.

Definition SPF_String (Hdr : RR_Header) (rr : list fval) : res error bytes :=
  h ← RR_Header_String Hdr;
  match rr with
  | [V_strs Txt] =>
      text ← sprintTxt Txt;
      Ok (h ++ text)
  | _ => Panic
  end.

Definition AVC_String (Hdr : RR_Header) (rr : list fval) : res error bytes :=
  h ← RR_Header_String Hdr;
  match rr with
  | [V_strs Txt] =>
      text ← sprintTxt Txt;
      Ok (h ++ text)
  | _ => Panic
  end.

Definition SRV_String (Hdr : RR_Header) (rr : list fval) : res error bytes :=
  h ← RR_Header_String Hdr;
  match rr with
  | [V_int Priority; V_int Weight; V_int Port; V_str Target] =>
      Target_text ← sprintName Target;
      Ok (h ++ Itoa Priority ++ [ch_space] ++ Itoa Weight ++ [ch_space] ++ Itoa Port ++ [ch_space] ++ Target_text)
  | _ => Panic
  end.

Definition NAPTR_String (Hdr : RR_Header) (rr : list fval) : res error bytes :=
  h ← RR_Header_String Hdr;
  match rr with
  | [V_int Order; V_int Preference; V_str Flags; V_str Service; V_str Regexp; V_str Replacement] =>
      Ok (h ++ Itoa Order ++ [ch_space] ++ Itoa Preference ++ [ch_space] ++ [ch_quote] ++ Flags ++ [ch_quote] ++ [ch_space] ++ [ch_quote] ++ Service ++ [ch_quote] ++ [ch_space] ++ [ch_quote] ++ Regexp ++ [ch_quote] ++ [ch_space] ++ Replacement)
  | _ => Panic
  end.

Definition CERT_String (Hdr : RR_Header) (rr : list fval) : res error bytes :=
  h ← RR_Header_String Hdr;
  match rr with
  | [V_int Type_; V_int KeyTag; V_int Algorithm; V_str Certificate] =>
      Ok (h ++ (certtype Type_) ++ [ch_space] ++ Itoa KeyTag ++ [ch_space] ++ (algname Algorithm) ++ [ch_space] ++ Certificate)
  | _ => Panic
  end.

Definition DNAME_String (Hdr : RR_Header) (rr : list fval) : res error bytes :=
  h ← RR_Header_String Hdr;
  match rr with
  | [V_str Target] =>
      Target_text ← sprintName Target;
      Ok (h ++ Target_text)
  | _ => Panic
  end.

Definition PX_String (Hdr : RR_Header) (rr : list fval) : res error bytes :=
  h ← RR_Header_String Hdr;
  match rr with
  | [V_int Preference; V_str Map822; V_str Mapx400] =>
      Map822_text ← sprintName Map822;
      Mapx400_text ← sprintName Mapx400;
      Ok (h ++ Itoa Preference ++ [ch_space] ++ Map822_text ++ [ch_space] ++ Mapx400_text)
  | _ => Panic
  end.

Definition GPOS_String (Hdr : RR_Header) (rr : list fval) : res error bytes :=
  h ← RR_Header_String Hdr;
  match rr with
  | [V_str Longitude; V_str Latitude; V_str Altitude] =>
      Ok (h ++ Longitude ++ [ch_space] ++ Latitude ++ [ch_space] ++ Altitude)
  | _ => Panic
  end.

Definition RRSIG_String (Hdr : RR_Header) (rr : list fval) : res error bytes :=
  h ← RR_Header_String Hdr;
  match rr with
  | [V_int TypeCovered; V_int Algorithm; V_int Labels; V_int OrigTtl; V_int Expiration; V_int Inception; V_int KeyTag; V_str SignerName; V_str Signature] =>
      SignerName_text ← sprintName SignerName;
      Ok (h ++ (Type_String TypeCovered) ++ [ch_space] ++ Itoa Algorithm ++ [ch_space] ++ Itoa Labels ++ [ch_space] ++ Itoa OrigTtl ++ [ch_space] ++ (TimeToString now Expiration) ++ [ch_space] ++ (TimeToString now Inception) ++ [ch_space] ++ Itoa KeyTag ++ [ch_space] ++ SignerName_text ++ [ch_space] ++ Signature)
  | _ => Panic
  end.

Definition NSEC_String (Hdr : RR_Header) (rr : list fval) : res error bytes :=
  h ← RR_Header_String Hdr;
  match rr with
  | [V_str NextDomain; V_types TypeBitMap] =>
      NextDomain_text ← sprintName NextDomain;
      Ok (h ++ NextDomain_text ++ types_String TypeBitMap)
  | _ => Panic
  end.

Definition DS_String (Hdr : RR_Header) (rr : list fval) : res error bytes :=
  h ← RR_Header_String Hdr;
  match rr with
  | [V_int KeyTag; V_int Algorithm; V_int DigestType; V_str Digest] =>
      Ok (h ++ Itoa KeyTag ++ [ch_space] ++ Itoa Algorithm ++ [ch_space] ++ Itoa DigestType ++ [ch_space] ++ ToUpper Digest)
  | _ => Panic
  end.

Definition KX_String (Hdr : RR_Header) (rr : list fval) : res error bytes :=
  h ← RR_Header_String Hdr;
  match rr with
  | [V_int Preference; V_str Exchanger] =>
      Exchanger_text ← sprintName Exchanger;
      Ok (h ++ Itoa Preference ++ [ch_space] ++ Exchanger_text)
  | _ => Panic
  end.

Definition TA_String (Hdr : RR_Header) (rr : list fval) : res error bytes :=
  h ← RR_Header_String Hdr;
  match rr with
  | [V_int KeyTag; V_int Algorithm; V_int DigestType; V_str Digest] =>
      Ok (h ++ Itoa KeyTag ++ [ch_space] ++ Itoa Algorithm ++ [ch_space] ++ Itoa DigestType ++ [ch_space] ++ ToUpper Digest)
  | _ => Panic
  end.

Definition TALINK_String (Hdr : RR_Header) (rr : list fval) : res error bytes :=
  h ← RR_Header_String Hdr;
  match rr with
  | [V_str PreviousName; V_str NextName] =>
      PreviousName_text ← sprintName PreviousName;
      NextName_text ← sprintName NextName;
      Ok (h ++ PreviousName_text ++ [ch_space] ++ NextName_text)
  | _ => Panic
  end.

Definition SSHFP_String (Hdr : RR_Header) (rr : list fval) : res error bytes :=
  h ← RR_Header_String Hdr;
  match rr with
  | [V_int Algorithm; V_int Type_; V_str FingerPrint] =>
      Ok (h ++ Itoa Algorithm ++ [ch_space] ++ Itoa Type_ ++ [ch_space] ++ ToUpper FingerPrint)
  | _ => Panic
  end.

Definition DNSKEY_String (Hdr : RR_Header) (rr : list fval) : res error bytes :=
  h ← RR_Header_String Hdr;
  match rr with
  | [V_int Flags; V_int Protocol; V_int Algorithm; V_str PublicKey] =>
      Ok (h ++ Itoa Flags ++ [ch_space] ++ Itoa Protocol ++ [ch_space] ++ Itoa Algorithm ++ [ch_space] ++ PublicKey)
  | _ => Panic
  end.

Definition IPSECKEY_String (Hdr : RR_Header) (rr : list fval) : res error bytes :=
  h ← RR_Header_String Hdr;
  match rr with
  | [V_int Precedence; V_int GatewayType; V_int Algorithm; V_gateway GatewayAddr GatewayHost; V_str PublicKey] =>
      Ok (h ++ Itoa Precedence ++ [ch_space] ++ Itoa GatewayType ++ [ch_space] ++ Itoa Algorithm ++ [ch_space] ++ (gateway_String GatewayType GatewayAddr GatewayHost) ++ [ch_space] ++ PublicKey)
  | _ => Panic
  end.

Definition RKEY_String (Hdr : RR_Header) (rr : list fval) : res error bytes :=
  h ← RR_Header_String Hdr;
  match rr with
  | [V_int Flags; V_int Protocol; V_int Algorithm; V_str PublicKey] =>
      Ok (h ++ Itoa Flags ++ [ch_space] ++ Itoa Protocol ++ [ch_space] ++ Itoa Algorithm ++ [ch_space] ++ PublicKey)
  | _ => Panic
  end.

Definition NSAPPTR_String (Hdr : RR_Header) (rr : list fval) : res error bytes :=
  h ← RR_Header_String Hdr;
  match rr with
  | [V_str Ptr] =>
      Ptr_text ← sprintName Ptr;
      Ok (h ++ Ptr_text)
  | _ => Panic
  end.

Definition NSEC3_String (Hdr : RR_Header) (rr : list fval) : res error bytes :=
  h ← RR_Header_String Hdr;
  match rr with
  | [V_int Hash; V_int Flags; V_int Iterations; V_int SaltLength; V_str Salt; V_int HashLength; V_str NextDomain; V_types TypeBitMap] =>
      Ok (h ++ Itoa Hash ++ [ch_space] ++ Itoa Flags ++ [ch_space] ++ Itoa Iterations ++ [ch_space] ++ (saltToString Salt) ++ [ch_space] ++ NextDomain ++ types_String TypeBitMap)
  | _ => Panic
  end.

Definition NSEC3PARAM_String (Hdr : RR_Header) (rr : list fval) : res error bytes :=
  h ← RR_Header_String Hdr;
  match rr with
  | [V_int Hash; V_int Flags; V_int Iterations; V_int SaltLength; V_str Salt] =>
      Ok (h ++ Itoa Hash ++ [ch_space] ++ Itoa Flags ++ [ch_space] ++ Itoa Iterations ++ [ch_space] ++ (saltToString Salt))
  | _ => Panic
  end.

Definition URI_String (Hdr : RR_Header) (rr : list fval) : res error bytes :=
  h ← RR_Header_String Hdr;
  match rr with
  | [V_int Priority; V_int Weight; V_str Target] =>
      Target_text ← sprintTxtOctet Target;
      Ok (h ++ Itoa Priority ++ [ch_space] ++ Itoa Weight ++ [ch_space] ++ Target_text)
  | _ => Panic
  end.

Definition DHCID_String (Hdr : RR_Header) (rr : list fval) : res error bytes :=
  h ← RR_Header_String Hdr;
  match rr with
  | [V_str Digest] =>
      Ok (h ++ Digest)
  | _ => Panic
  end.

Definition TLSA_String (Hdr : RR_Header) (rr : list fval) : res error bytes :=
  h ← RR_Header_String Hdr;
  match rr with
  | [V_int Usage; V_int Selector; V_int MatchingType; V_str Certificate] =>
      Ok (h ++ Itoa Usage ++ [ch_space] ++ Itoa Selector ++ [ch_space] ++ Itoa MatchingType ++ [ch_space] ++ Certificate)
  | _ => Panic
  end.

Definition SMIMEA_String (Hdr : RR_Header) (rr : list fval) : res error bytes :=
  h ← RR_Header_String Hdr;
  match rr with
  | [V_int Usage; V_int Selector; V_int MatchingType; V_str Certificate] =>
      Ok (h ++ Itoa Usage ++ [ch_space] ++ Itoa Selector ++ [ch_space] ++ Itoa MatchingType ++ [ch_space] ++ (join [ch_space] (splitN Certificate 1024)))
  | _ => Panic
  end.

Definition HIP_String (Hdr : RR_Header) (rr : list fval) : res error bytes :=
  h ← RR_Header_String Hdr;
  match rr with
  | [V_int HitLength; V_int PublicKeyAlgorithm; V_int PublicKeyLength; V_str Hit; V_str PublicKey; V_strs RendezvousServers] =>
      names ← names_String RendezvousServers;
      Ok (h ++ Itoa PublicKeyAlgorithm ++ [ch_space] ++ Hit ++ [ch_space] ++ PublicKey ++ names)
  | _ => Panic
  end.

Definition NINFO_String (Hdr : RR_Header) (rr : list fval) : res error bytes :=
  h ← RR_Header_String Hdr;
  match rr with
  | [V_strs ZSData] =>
      text ← sprintTxt ZSData;
      Ok (h ++ text)
  | _ => Panic
  end.

Definition NID_String (Hdr : RR_Header) (rr : list fval) : res error bytes :=
  h ← RR_Header_String Hdr;
  match rr with
  | [V_int Preference; V_int NodeID] =>
      Ok (h ++ Itoa Preference ++ [ch_space] ++ (node_String false NodeID))
  | _ => Panic
  end.

Definition L64_String (Hdr : RR_Header) (rr : list fval) : res error bytes :=
  h ← RR_Header_String Hdr;
  match rr with
  | [V_int Preference; V_int Locator64] =>
      Ok (h ++ Itoa Preference ++ [ch_space] ++ (node_String true Locator64))
  | _ => Panic
  end.

Definition LP_String (Hdr : RR_Header) (rr : list fval) : res error bytes :=
  h ← RR_Header_String Hdr;
  match rr with
  | [V_int Preference; V_str Fqdn] =>
      Fqdn_text ← sprintName Fqdn;
      Ok (h ++ Itoa Preference ++ [ch_space] ++ Fqdn_text)
  | _ => Panic
  end.

Definition EUI48_String (Hdr : RR_Header) (rr : list fval) : res error bytes :=
  h ← RR_Header_String Hdr;
  match rr with
  | [V_int Address] =>
      Ok (h ++ (euiToString Address 48))
  | _ => Panic
  end.

Definition EUI64_String (Hdr : RR_Header) (rr : list fval) : res error bytes :=
  h ← RR_Header_String Hdr;
  match rr with
  | [V_int Address] =>
      Ok (h ++ (euiToString Address 64))
  | _ => Panic
  end.

Definition CAA_String (Hdr : RR_Header) (rr : list fval) : res error bytes :=
  h ← RR_Header_String Hdr;
  match rr with
  | [V_int Flag; V_str Tag; V_str Value] =>
      Value_text ← sprintTxtOctet Value;
      Ok (h ++ Itoa Flag ++ [ch_space] ++ Tag ++ [ch_space] ++ Value_text)
  | _ => Panic
  end.

Definition UID_String (Hdr : RR_Header) (rr : list fval) : res error bytes :=
  h ← RR_Header_String Hdr;
  match rr with
  | [V_int Uid] =>
      Ok (h ++ Itoa Uid)
  | _ => Panic
  end.

Definition GID_String (Hdr : RR_Header) (rr : list fval) : res error bytes :=
  h ← RR_Header_String Hdr;
  match rr with
  | [V_int Gid] =>
      Ok (h ++ Itoa Gid)
  | _ => Panic
  end.

Definition UINFO_String (Hdr : RR_Header) (rr : list fval) : res error bytes :=
  h ← RR_Header_String Hdr;
  match rr with
  | [V_str Uinfo] =>
      text ← sprintTxt [Uinfo];
      Ok (h ++ text)
  | _ => Panic
  end.

Definition EID_String (Hdr : RR_Header) (rr : list fval) : res error bytes :=
  h ← RR_Header_String Hdr;
  match rr with
  | [V_str Endpoint] =>
      Ok (h ++ ToUpper Endpoint)
  | _ => Panic
  end.

Definition NIMLOC_String (Hdr : RR_Header) (rr : list fval) : res error bytes :=
  h ← RR_Header_String Hdr;
  match rr with
  | [V_str Locator] =>
      Ok (h ++ ToUpper Locator)
  | _ => Panic
  end.

Definition OPENPGPKEY_String (Hdr : RR_Header) (rr : list fval) : res error bytes :=
  h ← RR_Header_String Hdr;
  match rr with
  | [V_str PublicKey] =>
      Ok (h ++ PublicKey)
  | _ => Panic
  end.

Definition CSYNC_String (Hdr : RR_Header) (rr : list fval) : res error bytes :=
  h ← RR_Header_String Hdr;
  match rr with
  | [V_int Serial; V_int Flags; V_types TypeBitMap] =>
      Ok (h ++ Itoa Serial ++ [ch_space] ++ Itoa Flags ++ types_String TypeBitMap)
  | _ => Panic
  end.

Definition ZONEMD_String (Hdr : RR_Header) (rr : list fval) : res error bytes :=
  h ← RR_Header_String Hdr;
  match rr with
  | [V_int Serial; V_int Scheme; V_int Hash; V_str Digest] =>
      Ok (h ++ Itoa Serial ++ [ch_space] ++ Itoa Scheme ++ [ch_space] ++ Itoa Hash ++ [ch_space] ++ Digest)
  | _ => Panic
  end.

Definition RESINFO_String (Hdr : RR_Header) (rr : list fval) : res error bytes :=
  h ← RR_Header_String Hdr;
  match rr with
  | [V_strs Txt] =>
      text ← sprintTxt Txt;
      Ok (h ++ text)
  | _ => Panic
  end.

Definition APL_String (Hdr : RR_Header) (rr : list fval) : res error bytes :=
  h ← RR_Header_String Hdr;
  match rr with
  | [V_apl Prefixes] =>
      Ok (h ++ (join [ch_space] (map APLPrefix_str Prefixes)))
  | _ => Panic
  end.

Definition A_String (Hdr : RR_Header) (rr : list fval) : res error bytes :=
  h ← RR_Header_String Hdr;
  match rr with
  | [V_str A] =>
      Ok (h ++ (if zlen A =? 0 then [] else IP_String A))
  | _ => Panic
  end.

Definition AAAA_String (Hdr : RR_Header) (rr : list fval) : res error bytes :=
  h ← RR_Header_String Hdr;
  match rr with
  | [V_str AAAA] =>
      Ok (h ++ (aaaa_String AAAA))
  | _ => Panic
  end.

Definition LOC_String (Hdr : RR_Header) (rr : list fval) : res error bytes :=
  h ← RR_Header_String Hdr;
  match rr with
  | [V_int Version; V_int Size; V_int HorizPre; V_int VertPre; V_int Latitude; V_int Longitude; V_int Altitude] =>
      Ok (h ++ angle_String LOC_EQUATOR Latitude (bs "N") (bs "S") ++ angle_String LOC_PRIMEMERIDIAN Longitude (bs "E") (bs "W") ++
          altitude_String Altitude ++ bs "m " ++ cmToM Size ++ bs "m " ++ cmToM HorizPre ++ bs "m " ++ cmToM VertPre ++ bs "m")
  | _ => Panic
  end.

Definition AMTRELAY_String (Hdr : RR_Header) (rr : list fval) : res error bytes :=
  h ← RR_Header_String Hdr;
  match rr with
  | [V_int Precedence; V_int GatewayType; V_gateway GatewayAddr GatewayHost] =>
      let gateway := gateway_String (Z.land GatewayType 0x7f) GatewayAddr GatewayHost in
      let boolS := if Z.land GatewayType 0x80 =? 0x80 then bs "1" else bs "0" in
      Ok (h ++ Itoa Precedence ++ [ch_space] ++ boolS ++ [ch_space] ++ Itoa (Z.land GatewayType 0x7f) ++ [ch_space] ++ gateway)
  | _ => Panic
  end.

Definition L32_String (Hdr : RR_Header) (rr : list fval) : res error bytes :=
  h ← RR_Header_String Hdr;
  match rr with
  | [V_int Preference; V_str Locator32] =>
      Ok (h ++ Itoa Preference ++ (if zlen Locator32 =? 0 then [] else [ch_space] ++ IP_String Locator32))
  | _ => Panic
  end.

Definition TKEY_String (Hdr : RR_Header) (rr : list fval) : res error bytes :=
  h ← RR_Header_String Hdr;
  match rr with
  | [V_str Algorithm; V_int Inception; V_int Expiration; V_int Mode; V_int Error_; V_int KeySize; V_str Key_; V_int OtherLen; V_str OtherData] =>
      Ok (bs ";" ++ h ++ [ch_space] ++ Algorithm ++ [ch_space] ++ TimeToString now Inception ++ [ch_space] ++ TimeToString now Expiration ++
          [ch_space] ++ Itoa Mode ++ [ch_space] ++ Itoa Error_ ++ [ch_space] ++ Itoa KeySize ++ [ch_space] ++ Key_ ++ [ch_space] ++
          Itoa OtherLen ++ [ch_space] ++ OtherData)
  | _ => Panic
  end.

Definition RFC3597_String (Hdr : RR_Header) (rr : list fval) : res error bytes :=
  h ← rfc3597Header Hdr;
  match rr with
  | [V_str Rdata] => Ok (h ++ bs "\# " ++ Itoa (zlen Rdata / 2) ++ [ch_space] ++ Rdata)
  | _ => Panic
  end.

Definition NULL_String (Hdr : RR_Header) (rr : list fval) : res error bytes :=
  h ← RR_Header_String Hdr;
  match rr with [V_str Data] => Ok (bs ";" ++ h ++ Data) | _ => Panic end.

Definition ANY_String (Hdr : RR_Header) (rr : list fval) : res error bytes := RR_Header_String Hdr.
Definition NXNAME_String (Hdr : RR_Header) (rr : list fval) : res error bytes := RR_Header_String Hdr.
End Present.
