(* ===== verification/PresentCarry.v ===== *)
(** * Printed fields are read back

    What [sprintName], [sprintTxt] and the numbers of the [String] methods write, as
    words and quoted strings of a line, and the fields of the parse methods on the
    tokens of such a line. *)

From S2P Require Import Prelude Go Labels Escape Names NameDecode NameEncode NameLen Wire Codec Text NameCarry Encodings Strconv Netip RR Ztypes Dnssec TimeText Types Lexer LexCarry Scan ScanRR Present.

(** ** Escapes *)

(** [e] stands for the octet [b]: itself, after a backslash, or as three digits. *)
Inductive stands : bytes -> byte -> Prop :=
| stands_plain b : plain_char b || (b =b ch_space) || (b =b x3b) || (b =b x28) || (b =b x29) = true -> stands [b] b
| stands_escaped b : isDigit b = false -> b <> x0a -> b <> x0d -> stands [ch_bslash; b] b
| stands_ddd b : stands [ch_bslash; byte_of (48 + bval b / 100); byte_of (48 + bval b / 10 mod 10); byte_of (48 + bval b mod 10)] b.

Lemma nextByte_stands pre e b r : stands e b -> nextByte (pre ++ e ++ r) (zlen pre) = Ok (b, zlen e).
Proof.
  intros H. unfold nextByte. assert (forall c w, zdrop (zlen pre + 1) (pre ++ (c :: w) ++ r) = w ++ r) as Hdrop.
  { intros c w. change (pre ++ (c :: w) ++ r) with (pre ++ [c] ++ (w ++ r)). rewrite app_assoc. apply zdrop_app_eq. zlia. }
  destruct (Z.leb_spec (zlen (pre ++ e ++ r)) (zlen pre)) as [Hle|_]; [destruct H; zlia|].
  destruct H as [b Hb|b Hd H1 H2|b]; rewrite Hdrop; cbn [app]; rewrite zget_mid; cbn [index mbind res_bind].
  - assert ((b =b ch_bslash) = false) as -> by (by destruct b). done.
  - change (ch_bslash =b ch_bslash) with true. cbn [negb]. destruct (Z.eqb_spec (zlen (pre ++ ch_bslash :: b :: r) - zlen pre) 1); [zlia|].
    assert (isDDD (b :: r) = false) as -> by (destruct r as [|? [|? ?]]; [done..|cbn; by rewrite Hd]). rewrite andb_false_r.
    change (pre ++ ch_bslash :: b :: r) with (pre ++ [ch_bslash] ++ (b :: r)). rewrite app_assoc.
    replace (zlen pre + 1) with (zlen (pre ++ [ch_bslash])) by zlia. by rewrite zget_mid.
  - match goal with |- context [pre ++ ch_bslash :: ?x :: ?y :: ?z :: r] => set (d1 := x); set (d2 := y); set (d3 := z) end.
    change (ch_bslash =b ch_bslash) with true. cbn [negb]. destruct (Z.eqb_spec (zlen (pre ++ ch_bslash :: d1 :: d2 :: d3 :: r) - zlen pre) 1); [zlia|].
    destruct (ddd_roundtrip b r) as [H1 H2]. fold d1 d2 d3 in H1, H2. rewrite H1, H2. destruct (Z.leb_spec 4 (zlen (pre ++ ch_bslash :: d1 :: d2 :: d3 :: r) - zlen pre)); [done|zlia].
Qed.

Lemma escape_stands b : stands (escape_byte b) b.
Proof.
  unfold escape_byte. destruct (isDomainNameLabelSpecial b) eqn:E1.
  - constructor; [by apply special_not_digit|by intros ->..].
  - destruct (unprintable b) eqn:E2; [constructor|]. constructor. destruct b; done.
Qed.

Lemma txt_stands b : stands (txt_byte b) b.
Proof.
  unfold txt_byte. destruct ((b =b ch_quote) || (b =b ch_bslash)) eqn:E1.
  - constructor; by destruct b.
  - destruct (unprintable b) eqn:E2; [constructor|]. constructor. destruct b; done.
Qed.

Lemma stands_nonempty e b : stands e b -> 1 <= zlen e.
Proof. intros []; zlia. Qed.

(** ** Names *)

(** One step of [sprintName]. *)
Definition sprint_step (s : bytes) : Z * bytes -> res error (Z * bytes + bytes) := fun '(i, dst) =>
  let finish (dst : bytes) : res error ((Z * bytes) + bytes) := Ok (inr (if decide (dst = []) then s else dst)) in
  if negb (i <? zlen s) then finish dst else
  c ← index (zget s i);
  if c =b ch_dot then Ok (inl (i + 1, if decide (dst = []) then dst else dst ++ [ch_dot]))
  else
    '(b, n) ← nextByte s i;
    if n =? 0 then (if decide (dst = []) then p ← index (slice s 0 i); Ok (inr p) else finish dst)
    else
      if isDomainNameLabelSpecial b then
        pre ← (if decide (dst = []) then index (slice s 0 i) else Ok dst);
        Ok (inl (i + n, pre ++ [ch_bslash; b]))
      else if unprintable b then
        pre ← (if decide (dst = []) then index (slice s 0 i) else Ok dst);
        e ← escapeByte b;
        Ok (inl (i + n, pre ++ e))
      else Ok (inl (i + n, if decide (dst = []) then dst else dst ++ [b])).

Lemma sprintName_loop s : sprintName s = loop (S (length s)) (sprint_step s) (0, []).
Proof. reflexivity. Qed.

(** What [sprintName] passes over without a change, and the octets built so far:
    none, as nothing had to be changed, or those that were passed over. *)
Definition settled (e : bytes) : Prop := e = [ch_dot] \/ exists b, e = escape_byte b.
Definition so_far (pre dst : bytes) : Prop := dst = [] \/ dst = pre.

Lemma settled_nonempty e : settled e -> 1 <= zlen e.
Proof. intros [->|[b ->]]; [done|]. apply (stands_nonempty _ _ (escape_stands b)). Qed.

Lemma so_far_keep pre dst e : so_far pre dst -> so_far (pre ++ e) (if decide (dst = []) then dst else dst ++ e).
Proof. intros [-> | ->]; [by left|]. destruct (decide _) as [H|]; [rewrite H; by left|by right]. Qed.

Lemma so_far_prefix pre dst r : so_far pre dst -> (if decide (dst = []) then index (slice (pre ++ r) 0 (zlen pre)) else Ok dst) = @Ok error _ pre.
Proof.
  intros Hd. destruct (decide (dst = [])); [|by destruct Hd as [| ->]].
  assert (slice (pre ++ r) 0 (zlen pre) = Some pre) as -> by (apply (slice_mid [] pre r); [done|zlia]). done.
Qed.

Lemma sprint_step_settled pre e r dst : settled e -> so_far pre dst ->
  exists dst', sprint_step (pre ++ e ++ r) (zlen pre, dst) = Ok (inl (zlen (pre ++ e), dst')) /\ so_far (pre ++ e) dst'.
Proof.
  intros He Hd. pose proof (settled_nonempty e He) as Hz. unfold sprint_step. destruct (Z.ltb_spec (zlen pre) (zlen (pre ++ e ++ r))); [|zlia]. cbn [negb].
  pose proof (so_far_prefix pre dst (e ++ r) Hd) as Hp. pose proof (so_far_keep pre dst e Hd) as Hk. rewrite zlen_app. destruct He as [->|[b ->]].
  - cbn [app]. rewrite zget_mid. gosimp. by eexists.
  - pose proof (nextByte_stands pre _ _ r (escape_stands b)) as Hb. unfold escape_byte in *. destruct (isDomainNameLabelSpecial b) eqn:E1; [|destruct (unprintable b) eqn:E2].
    + cbn [app] in *. rewrite zget_mid. gosimp. change (ch_bslash =b ch_dot) with false. cbn iota. rewrite Hb. gosimp. destruct (Z.eqb_spec (zlen [ch_bslash; b]) 0); [lia|].
      rewrite E1, Hp. gosimp. eexists. split; [reflexivity|by right].
    + cbn [app] in *. rewrite zget_mid. gosimp. change (ch_bslash =b ch_dot) with false. cbn iota. rewrite Hb. gosimp. match goal with |- context [?x =? 0] => destruct (Z.eqb_spec x 0); [lia|] end.
      rewrite E1, E2, Hp. gosimp. rewrite (escapeByte_ddd _ b E2). gosimp. eexists. split; [reflexivity|by right].
    + cbn [app] in *. rewrite zget_mid. gosimp. pose proof E1 as [_ Hdot]%printable_plain. rewrite Hdot, Hb. gosimp. destruct (Z.eqb_spec (zlen [b]) 0); [lia|].
      rewrite E1, E2. eexists. split; [reflexivity|done].
Qed.

Lemma sprint_settled ps : forall pre dst n, Forall settled ps -> so_far pre dst -> (length ps < n)%nat ->
  loop n (sprint_step (pre ++ concat ps)) (zlen pre, dst) = Ok (pre ++ concat ps).
Proof.
  induction ps as [|e ps IH]; intros pre dst n Hf Hd Hn; (destruct n as [|n]; [cbn in Hn; lia|]).
  - apply loop_done. cbn [concat]. rewrite app_nil_r. unfold sprint_step. rewrite Z.ltb_irrefl. cbn [negb]. f_equal. f_equal. destruct (decide (dst = [])); [done|by destruct Hd].
  - apply Forall_cons in Hf as [He Hf]. cbn [concat length] in *. destruct (sprint_step_settled pre e (concat ps) dst He Hd) as (dst' & E & Hd').
    rewrite (loop_next _ _ _ _ E), app_assoc. apply IH; [done|done|lia].
Qed.

Lemma sprintName_settled ps : Forall settled ps -> sprintName (concat ps) = Ok (concat ps).
Proof.
  intros Hp. rewrite sprintName_loop. apply (sprint_settled ps [] []); [done|by left|].
  induction Hp as [|e ps He Hp IH]; [cbn; lia|]. cbn [concat length]. rewrite length_app. pose proof (settled_nonempty e He). unfold zlen in *. lia.
Qed.

Lemma sprintName_show ls : sprintName (show_name ls) = Ok (show_name ls).
Proof.
  assert (exists pieces, Forall settled pieces /\ concat pieces = show_name ls) as (pieces & Hp & <-); [|by apply sprintName_settled].
  destruct ls as [|l0 ls0]; [exists [[ch_dot]]; split; [constructor; [by left|done]|done]|].
  change (show_name (l0 :: ls0)) with (show_labels (l0 :: ls0)). exists (concat (map (fun l => map escape_byte l ++ [[ch_dot]]) (l0 :: ls0))).
  generalize (l0 :: ls0) as ls. intros ls. induction ls as [|l ls [IH1 IH2]]; [by split|]. cbn [map concat]. split.
  - apply Forall_app. split; [|done]. apply Forall_app. split; [|constructor; [by left|done]]. apply Forall_forall. intros e (b & -> & _)%list_elem_of_fmap. right. by exists b.
  - rewrite concat_app, IH2, concat_app. unfold show_labels at 2. cbn [map concat]. unfold show_label at 2. by rewrite app_nil_r.
Qed.

Lemma wordy_escape b last r : exists last', wordy false last (escape_byte b ++ r) = wordy false last' r.
Proof. destruct b; eexists; reflexivity. Qed.

Lemma wordy_label l : forall last r, exists last', wordy false last (show_label l ++ r) = wordy false last' r.
Proof.
  induction l as [|b l IH]; intros last r; [by exists last|]. change (show_label (b :: l)) with (escape_byte b ++ show_label l). rewrite <- app_assoc.
  destruct (wordy_escape b last (show_label l ++ r)) as [last' ->]. apply IH.
Qed.

Lemma show_name_word ls : word (show_name ls).
Proof.
  destruct ls as [|l0 ls0]; [done|]. change (show_name (l0 :: ls0)) with (show_labels (l0 :: ls0)). unfold word.
  assert (forall ls last, wordy false last (show_labels ls) = last || bool_decide (ls <> [])) as Hw; [|by rewrite Hw].
  induction ls as [|l ls IH]; intros last; [by destruct last|]. change (show_labels (l :: ls)) with ((show_label l ++ [ch_dot]) ++ show_labels ls). rewrite <- app_assoc.
  destruct (wordy_label l last ([ch_dot] ++ show_labels ls)) as [last' ->]. cbn [app wordy]. change (ch_dot =b ch_bslash) with false. change (plain_char ch_dot) with true. cbn iota.
  cbn [andb]. rewrite IH. rewrite (bool_decide_true (l :: ls <> [])) by done. by rewrite orb_true_r.
Qed.

Lemma show_name_last ls : last (show_name ls) = Some ch_dot.
Proof. apply IsFqdn_last, IsFqdn_show_name. Qed.

Lemma IsDomainName_good ls : good_labels ls -> exists n, IsDomainName (show_name ls) = Ok (n, true).
Proof.
  intros (Hls & Hw & _). destruct (decide (ls = [])) as [->|Hne]; [by eexists|].
  destruct (IsDomainName_verdict (show_name ls) ls) as (n & ok & E & Hok & _); [by destruct ls as [|l ls]; [|unfold show_name; intros E%show_labels_nil]| |done|].
  - unfold Fqdn. rewrite IsFqdn_show_name. apply parse_show_name. eapply Forall_impl; [exact Hls|]. intros [|]; [zlia|done].
  - exists n. rewrite E. assert (ok = true) as ->; [|done]. apply Hok. split; [eapply Forall_impl; [exact Hls|]; cbn; lia|lia].
Qed.

Lemma toAbsoluteName_good ls o : good_labels ls -> toAbsoluteName (show_name ls) o = Ok (Some (show_name ls)).
Proof.
  intros H. pose proof (show_name_last ls) as Hl. destruct (IsDomainName_good ls H) as [n E]. unfold toAbsoluteName.
  rewrite bool_decide_false by (intros Hs; by rewrite Hs in Hl). rewrite bool_decide_false by (intros Hs; by rewrite Hs in Hl). rewrite E. gosimp.
  rewrite bool_decide_false by (intros Hs; by rewrite Hs in Hl). by rewrite IsFqdn_show_name.
Qed.

(** ** Character strings *)

Lemma quotable_txt l : forall r, quotable false (show_txt l ++ r) = quotable false r.
Proof.
  induction l as [|b l IH]; intros r; [done|]. change (show_txt (b :: l)) with (txt_byte b ++ show_txt l). rewrite <- app_assoc.
  transitivity (quotable false (show_txt l ++ r)); [by destruct b|apply IH].
Qed.

Lemma show_txt_quotable l : quotable false (show_txt l) = true.
Proof. rewrite <- (app_nil_r (show_txt l)). by rewrite quotable_txt. Qed.

Lemma show_txt_cons b l : show_txt (b :: l) = txt_byte b ++ show_txt l.
Proof. done. Qed.

(** The octets are counted, not the escapes. *)
Lemma escaped_offset_stands fuel pre e b r current d : stands e b ->
  escaped_offset (S fuel) (pre ++ e ++ r) (zlen pre) current d =
    if d <=? current + 1 then Ok (Some (zlen (pre ++ e))) else escaped_offset fuel (pre ++ e ++ r) (zlen (pre ++ e)) (current + 1) d.
Proof.
  intros H. assert (forall c w, zdrop (zlen pre + 1) (pre ++ (c :: w) ++ r) = w ++ r) as Hdrop.
  { intros c w. change (pre ++ (c :: w) ++ r) with (pre ++ [c] ++ (w ++ r)). rewrite app_assoc. apply zdrop_app_eq. zlia. }
  cbn [escaped_offset]. destruct (Z.ltb_spec (zlen pre) (zlen (pre ++ e ++ r))) as [_|Hle]; [|destruct H; zlia]. cbn [negb]. rewrite (zlen_app pre e).
  destruct H as [b Hb|b Hd H1 H2|b]; rewrite Hdrop; cbn [app]; rewrite zget_mid; cbn [index mbind res_bind].
  - assert ((b =b ch_bslash) = false) as -> by (by destruct b). done.
  - change (ch_bslash =b ch_bslash) with true. cbn [negb]. assert (isDDD (b :: r) = false) as -> by (destruct r as [|? [|? ?]]; [done..|cbn; by rewrite Hd]).
    destruct (Z.ltb_spec (zlen (b :: r)) 1); [zlia|done].
  - match goal with |- context [isDDD (?x :: ?y :: ?z :: r)] => set (d1 := x); set (d2 := y); set (d3 := z) end.
    change (ch_bslash =b ch_bslash) with true. cbn [negb]. destruct (ddd_roundtrip b r) as [H1 _]. fold d1 d2 d3 in H1. by rewrite H1.
Qed.

Lemma escaped_offset_txt d b : forall a fuel, zlen a < d -> zlen (a ++ b) <= d -> (length (show_txt b) < fuel)%nat ->
  exists j, escaped_offset fuel (show_txt (a ++ b)) (zlen (show_txt a)) (zlen a) d = Ok (Some j) /\ (j = -1 \/ j = zlen (show_txt (a ++ b))).
Proof.
  induction b as [|x b IH]; intros a fuel Ha Hd Hf; (destruct fuel as [|fuel]; [lia|]).
  - cbn [escaped_offset]. rewrite app_nil_r, Z.ltb_irrefl. exists (-1). by split; [|left].
  - pose proof (stands_nonempty _ _ (txt_stands x)) as Hz. rewrite show_txt_cons, length_app in Hf. rewrite zlen_app, zlen_cons in Hd.
    assert (show_txt a ++ txt_byte x = show_txt (a ++ [x])) as Ex by (by rewrite show_txt_app, show_txt_one).
    rewrite show_txt_app, show_txt_cons, (escaped_offset_stands _ _ _ _ _ _ _ (txt_stands x)), Ex, app_assoc, Ex, <- show_txt_app. destruct (Z.leb_spec d (zlen a + 1)).
    + assert (b = []) as -> by (destruct b; [done|zlia]). rewrite app_nil_r. eexists. split; [done|by right].
    + replace (zlen a + 1) with (zlen (a ++ [x])) by zlia. apply IH; [zlia|zlia|unfold zlen in *; lia].
Qed.

Lemma split_255_txt l fuel : zlen l <= 255 -> split_255 (S fuel) (show_txt l) 0 = Ok (Some [show_txt l]).
Proof.
  intros Hl. cbn [split_255]. change (zdrop 0 (show_txt l)) with (show_txt l). unfold escapedStringOffset. change (255 =? 0) with false. cbn iota.
  destruct (escaped_offset_txt 255 l [] (S (length (show_txt l))) ltac:(zlia) Hl ltac:(lia)) as (j & E & Hj). change (zlen (show_txt [])) with 0 in E. change (zlen []) with 0 in E. cbn [app] in E.
  rewrite E. gosimp. destruct Hj as [-> | ->]; [done|]. destruct (Z.eqb_spec (zlen (show_txt l)) (-1)); [zlia|]. cbn [app]. rewrite Z.add_0_l, Z.eqb_refl. cbn [negb]. by rewrite andb_false_r.
Qed.

(** [sprintTxt_string], and so the strings of TXT. *)
Definition txt_step (s : bytes) : Z * bytes -> res error (Z * bytes + bytes) := fun '(j, out) =>
  if negb (j <? zlen s) then Ok (inr out) else
  '(b, n) ← nextByte s j;
  if n =? 0 then Ok (inr out) else
  out ← writeTXTStringByte out b;
  Ok (inl (j + n, out)).

Lemma sprintTxt_loop out s : sprintTxt_string out s = loop (S (length s)) (txt_step s) (0, out).
Proof. reflexivity. Qed.

Lemma write_txt out b : writeTXTStringByte out b = Ok (out ++ txt_byte b).
Proof.
  unfold writeTXTStringByte, txt_byte. destruct ((b =b ch_quote) || (b =b ch_bslash)); [done|]. destruct (unprintable b) eqn:E; [by rewrite (escapeByte_ddd _ b E)|done].
Qed.

Lemma txt_loop l : forall pre out n, (length l < n)%nat -> loop n (txt_step (pre ++ show_txt l)) (zlen pre, out) = Ok (out ++ show_txt l).
Proof.
  induction l as [|b l IH]; intros pre out n Hn; (destruct n as [|n]; [cbn in Hn; lia|]).
  - apply loop_done. unfold txt_step. change (show_txt []) with (@nil byte). rewrite !app_nil_r, Z.ltb_irrefl. done.
  - cbn [length] in Hn. rewrite show_txt_cons. pose proof (stands_nonempty _ _ (txt_stands b)) as Hz. erewrite loop_next.
    2: { unfold txt_step. destruct (Z.ltb_spec (zlen pre) (zlen (pre ++ txt_byte b ++ show_txt l))); [|zlia]. cbn [negb]. rewrite (nextByte_stands _ _ _ _ (txt_stands b)). gosimp.
         destruct (Z.eqb_spec (zlen (txt_byte b)) 0); [lia|]. rewrite write_txt. gosimp. rewrite <- zlen_app. reflexivity. }
    rewrite app_assoc, IH by lia. by rewrite <- app_assoc.
Qed.

Lemma sprintTxt_string_show out l : sprintTxt_string out (show_txt l) = Ok (out ++ show_txt l).
Proof. rewrite sprintTxt_loop. apply (txt_loop l []). pose proof (show_txt_length l). unfold zlen in *. lia. Qed.

Lemma sprintTxt_show ls : sprintTxt (map show_txt ls) = Ok (line_text (map (fun l => Q (show_txt l)) ls)).
Proof.
  unfold sprintTxt. set (body := fun '(i, out) s => _).
  assert (forall i out l, body (i, out) (show_txt l) = Ok (i + 1, (if 0 <? i then out ++ [ch_space; ch_quote] else out ++ [ch_quote]) ++ show_txt l ++ [ch_quote])) as Hb.
  { intros i out l. unfold body. rewrite sprintTxt_string_show. gosimp. by rewrite <- app_assoc. }
  assert (forall ls i out, 0 < i -> foldM body (i, out) (map show_txt ls) = Ok (i + zlen ls, out ++ concat (map (fun l => [ch_space; ch_quote] ++ show_txt l ++ [ch_quote]) ls))) as Hf.
  { clear ls. induction ls as [|l ls IH]; intros i out Hi; cbn [map foldM concat].
    - rewrite app_nil_r. repeat f_equal. zlia.
    - rewrite Hb. destruct (Z.ltb_spec 0 i); [|lia]. gosimp. rewrite IH by lia. rewrite zlen_cons, <- !app_assoc. f_equal. apply (f_equal2 pair); [lia|by rewrite <- ?app_assoc]. }
  destruct ls as [|l ls]; [done|]. cbn [map foldM]. rewrite Hb. change (0 <? 0) with false. cbv iota. gosimp. rewrite Hf by lia. gosimp. f_equal.
  clear Hf Hb body. revert l. induction ls as [|l' ls IH]; intros l; [by rewrite app_nil_r|]. cbn [map concat].
  change (line_text (Q (show_txt l) :: Q (show_txt l') :: ?x)) with (([ch_quote] ++ show_txt l ++ [ch_quote]) ++ [ch_space] ++ line_text (Q (show_txt l') :: x)).
  rewrite <- IH. by rewrite <- !app_assoc.
Qed.

Lemma sprintTxt_two a b : sprintTxt [show_txt a; show_txt b] = Ok (line_text [Q (show_txt a); Q (show_txt b)]).
Proof. apply (sprintTxt_show [a; b]). Qed.
Lemma sprintTxt_one a : sprintTxt [show_txt a] = Ok (line_text [Q (show_txt a)]).
Proof. apply (sprintTxt_show [a]). Qed.

(** [sprintTxtOctet]: an escaped dot does not occur. *)
Definition octet_step (s : bytes) : Z * bytes -> res error (Z * bytes + bytes) := fun '(i, dst) =>
  if negb (i <? zlen s) then Ok (inr (dst ++ [ch_quote])) else
  if (i + 1 <? zlen s) && bool_decide (zget s i = Some ch_bslash) && bool_decide (zget s (i + 1) = Some ch_dot) then
    w ← index (slice s i (i + 2)); Ok (inl (i + 2, dst ++ w))
  else
    '(b, n) ← nextByte s i;
    if n =? 0 then Ok (inl (i + 1 + n, dst)) else
    dst ← writeTXTStringByte dst b;
    Ok (inl (i + n, dst)).

Lemma sprintTxtOctet_loop s : sprintTxtOctet s = loop (S (length s)) (octet_step s) (0, [ch_quote]).
Proof. reflexivity. Qed.

Lemma txt_no_dot pre b r : bool_decide (zget (pre ++ txt_byte b ++ r) (zlen pre) = Some ch_bslash) &&
  bool_decide (zget (pre ++ txt_byte b ++ r) (zlen pre + 1) = Some ch_dot) = false.
Proof.
  unfold txt_byte. assert (forall c d w, zget (pre ++ c :: d :: w) (zlen pre + 1) = Some d) as Hd.
  { intros c d w. rewrite (cons_middle c), app_assoc. replace (zlen pre + 1) with (zlen (pre ++ [c])) by zlia. apply zget_mid. }
  destruct ((b =b ch_quote) || (b =b ch_bslash)) eqn:E1; [|destruct (unprintable b) eqn:E2]; cbn [app]; rewrite zget_mid, ?Hd.
  - rewrite andb_comm, bool_decide_false; [done|]. intros [= ->]. discriminate E1.
  - rewrite andb_comm, bool_decide_false; [done|]. clear. destruct b; done.
  - rewrite bool_decide_false; [done|]. intros [= ->]. discriminate E1.
Qed.

Lemma octet_loop l : forall pre out n, (length l < n)%nat -> loop n (octet_step (pre ++ show_txt l)) (zlen pre, out) = Ok (out ++ show_txt l ++ [ch_quote]).
Proof.
  induction l as [|b l IH]; intros pre out n Hn; (destruct n as [|n]; [cbn in Hn; lia|]).
  - apply loop_done. unfold octet_step. change (show_txt []) with (@nil byte). by rewrite app_nil_r, Z.ltb_irrefl.
  - cbn [length] in Hn. rewrite show_txt_cons. pose proof (stands_nonempty _ _ (txt_stands b)) as Hz. erewrite loop_next.
    2: { unfold octet_step. destruct (Z.ltb_spec (zlen pre) (zlen (pre ++ txt_byte b ++ show_txt l))); [|zlia]. cbn [negb]. rewrite <- andb_assoc, txt_no_dot, andb_false_r.
         rewrite (nextByte_stands _ _ _ _ (txt_stands b)). gosimp. destruct (Z.eqb_spec (zlen (txt_byte b)) 0); [lia|]. rewrite write_txt. gosimp. rewrite <- zlen_app. reflexivity. }
    rewrite app_assoc, IH by lia. by rewrite <- !app_assoc.
Qed.

Lemma sprintTxtOctet_show l : sprintTxtOctet (show_txt l) = Ok (item_text (Q (show_txt l))).
Proof. rewrite sprintTxtOctet_loop. apply (octet_loop l []). pose proof (show_txt_length l). unfold zlen in *. lia. Qed.

(** ** Numbers in hexadecimal digits of a fixed width *)

Lemma parse_zeros n base bits s : 1 <= base -> 0 <= bits -> fold_left (parse_digit base bits) (replicate n x30 ++ s) (Some 0) = fold_left (parse_digit base bits) s (Some 0).
Proof.
  intros Hb Hbits. induction n as [|n IH]; [done|]. cbn [replicate app fold_left]. rewrite <- IH. f_equal. unfold parse_digit. change (digit_val x30) with (Some 0). cbn [mbind option_bind].
  destruct (Z.leb_spec base 0); [lia|]. cbv zeta. change (0 * base + 0) with 0. pose proof (Z.pow_pos_nonneg 2 bits). by destruct (Z.leb_spec (2 ^ bits) 0); [lia|].
Qed.

Definition hex_fixed (n : nat) (v : Z) : bytes := pad0 (Z.of_nat n) (FormatUint v 16).

Lemma hex_fixed_spec n v bits : 0 <= v < 16 ^ Z.of_nat (S n) -> v < 2 ^ bits -> 0 <= bits ->
  length (hex_fixed (S n) v) = S n /\ Forall (fun c => is_hex c = true) (hex_fixed (S n) v) /\ ParseUint (hex_fixed (S n) v) 16 bits = Some v.
Proof.
  intros Hv Hb Hbits. unfold hex_fixed, pad0. pose proof (format_digits_count (S (Z.to_nat (Z.log2 v))) n v Hv) as Hc. fold (FormatUint v 16) in Hc. split_and!.
  - rewrite length_app, length_replicate. unfold zlen. lia.
  - apply Forall_app. split; [by apply Forall_replicate|]. eapply Forall_impl; [apply format_digits_hex; lia|]. intros c (d & Hd & ->). unfold is_hex. rewrite hex_char_val by done. lia.
  - pose proof (ParseUint_FormatUint v 16 bits ltac:(lia) ltac:(lia)) as Hp. pose proof (FormatUint_nonempty v 16) as Hn. unfold ParseUint in *.
    destruct (FormatUint v 16) as [|c r] eqn:E; [done|]. destruct (replicate _ x30 ++ c :: r) eqn:E2; [by apply app_eq_nil in E2 as [_ ?]|]. rewrite <- E2. rewrite parse_zeros by lia. exact Hp.
Qed.

Lemma parse_upper bits s : Forall (fun c => is_hex c = true) s -> ParseUint (map to_upper s) 16 bits = ParseUint s 16 bits.
Proof.
  intros H. assert (forall n, fold_left (parse_digit 16 bits) (map to_upper s) n = fold_left (parse_digit 16 bits) s n) as Hf.
  { induction H as [|c s Hc H IH]; intros n; [done|]. cbn [map fold_left]. rewrite IH. f_equal. unfold parse_digit. assert (digit_val (to_upper c) = digit_val c) as -> by (destruct c; try discriminate Hc; done). done. }
  unfold ParseUint. destruct s; [done|]. apply Hf.
Qed.

(** Lists of a known length, as they are. *)
Ltac open_list n l H := lazymatch n with O => destruct l; [clear H|discriminate H] | S ?m => destruct l as [|? l]; [discriminate H|]; injection H as H; open_list m l H end.

Lemma node_shape w : length w = 16%nat -> let t := join (bs ":") (hex_groups 4 4 [] w) in
  zlen t = 19 /\ zget t 4 = Some x3a /\ zget t 9 = Some x3a /\ zget t 14 = Some x3a /\
  ztake 4 (zdrop 0 t) ++ ztake 4 (zdrop 5 t) ++ ztake 4 (zdrop 10 t) ++ ztake 4 (zdrop 15 t) = w.
Proof. intros H. open_list 16%nat w H. by split_and!. Qed.

Lemma node_read upper v l : 0 <= v < 2 ^ 64 -> token l = node_String upper v -> stringToNodeID l = mret v.
Proof.
  intros Hv Ht. destruct (hex_fixed_spec 15 v 64 Hv ltac:(lia) ltac:(lia)) as (Hl & Hh & Hp).
  set (w := if upper then map to_upper (hex_fixed 16 v) else hex_fixed 16 v).
  assert (length w = 16%nat /\ ParseUint w 16 64 = Some v) as [Hl' Hp'].
  { unfold w. destruct upper; [|done]. rewrite length_map, parse_upper by done. done. }
  assert (token l = join (bs ":") (hex_groups 4 4 [] w)) as E by (rewrite Ht; reflexivity).
  destruct (node_shape w Hl') as (Z1 & Z2 & Z3 & Z4 & Z5). rewrite <- E in Z1, Z2, Z3, Z4, Z5. unfold stringToNodeID.
  rewrite Z1, Z2, Z3, Z4, Z5, Hp'. change (19 <? 19) with false. cbv iota zeta. by rewrite bool_decide_true.
Qed.

Lemma eui_shape n w : length w = (2 * n)%nat -> n = 6%nat \/ n = 8%nat -> let t := join (bs "-") (hex_groups n 2 [] w) in
  zlen t = 3 * Z.of_nat n - 1 /\ forallb (fun d => bool_decide (d = Some x2d)) (map (fun i => zget t (3 * Z.of_nat i + 2)) (seq 0 (n - 1))) = true /\
  concat (map (fun i => ztake 2 (zdrop (3 * Z.of_nat i) t)) (seq 0 n)) = w.
Proof. intros H [-> | ->]; [open_list 12%nat w H|open_list 16%nat w H]; by split_and!. Qed.

Lemma eui_number_read n w v : length w = (2 * n)%nat -> n = 6%nat \/ n = 8%nat -> ParseUint w 16 (8 * Z.of_nat n) = Some v ->
  eui_number n (join (bs "-") (hex_groups n 2 [] w)) = Some v.
Proof. intros Hl Hn Hp. destruct (eui_shape n w Hl Hn) as (H1 & H2 & H3). unfold eui_number. by rewrite H1, H2, H3, Z.eqb_refl. Qed.

Lemma eui48_read v : 0 <= v < 2 ^ 48 -> eui_number 6 (euiToString v 48) = Some v.
Proof.
  intros Hv. destruct (hex_fixed_spec 11 v 48 Hv ltac:(lia) ltac:(lia)) as (Hl & _ & Hp). apply (eui_number_read 6 (hex_fixed 12 v)); [done|by left|done].
Qed.

Lemma eui64_read v : 0 <= v < 2 ^ 64 -> eui_number 8 (euiToString v 64) = Some v /\ zlen (euiToString v 64) = 23 /\
  forallb (fun d => bool_decide (d = Some x2d)) (map (fun i => zget (euiToString v 64) (3 * Z.of_nat i + 2)) (seq 0 7)) = true.
Proof.
  intros Hv. destruct (hex_fixed_spec 15 v 64 Hv ltac:(lia) ltac:(lia)) as (Hl & _ & Hp). split; [apply (eui_number_read 8 (hex_fixed 16 v)); [done|by right|done]|].
  destruct (eui_shape 8 (hex_fixed 16 v) Hl ltac:(by right)) as (H1 & H2 & _). by split.
Qed.

(** They are words. *)
Lemma plain_word w : Forall (fun c => plain_char c = true) w -> w <> [] -> word w.
Proof.
  intros H. assert (forall last, wordy false last w = last || bool_decide (w <> [])) as Hw; [|intros Hn; unfold word; rewrite Hw; by rewrite bool_decide_true].
  induction H as [|c w Hc H IH]; intros last; cbn [wordy]; [by destruct last|]. assert ((c =b ch_bslash) = false) as -> by (by destruct c). rewrite Hc, IH.
  rewrite (bool_decide_true (c :: w <> [])) by done. by rewrite orb_true_r.
Qed.

Lemma groups_plain sep n k w : plain_char sep = true -> Forall (fun c => plain_char c = true) w -> Forall (fun c => plain_char c = true) (join [sep] (hex_groups n k [] w)).
Proof.
  intros Hs. revert w. induction n as [|n IH]; intros w Hw; [constructor|]. cbn [hex_groups]. specialize (IH (zdrop k w) ltac:(by apply Forall_drop)).
  destruct n as [|n]; [by apply Forall_take|]. cbn [hex_groups join] in *. apply Forall_app. split; [by apply Forall_take|]. by constructor.
Qed.

Lemma hex_plain w : Forall (fun c => is_hex c = true) w -> Forall (fun c => plain_char c = true) w /\ Forall (fun c => plain_char c = true) (map to_upper w).
Proof.
  intros H. split; [|apply Forall_fmap]; (eapply Forall_impl; [exact H|]; intros c Hc; destruct c; try discriminate Hc; done).
Qed.

Lemma node_word upper v : 0 <= v < 2 ^ 64 -> Forall (fun c => plain_char c = true) (node_String upper v) /\ node_String upper v <> [].
Proof.
  intros Hv. destruct (hex_fixed_spec 15 v 64 Hv ltac:(lia) ltac:(lia)) as (Hl & Hh & _). destruct (hex_plain _ Hh) as [H1 H2].
  split; [unfold node_String; fold (hex_fixed 16 v); apply groups_plain; [done|by destruct upper]|].
  set (w := if upper then map to_upper (hex_fixed 16 v) else hex_fixed 16 v). assert (length w = 16%nat) as Hw by (unfold w; destruct upper; [by rewrite length_map|done]).
  change (node_String upper v) with (join (bs ":") (hex_groups 4 4 [] w)). clearbody w. destruct (node_shape w Hw) as (Hz & _). by intros E; rewrite E in Hz.
Qed.

Lemma eui_word n w : length w = (2 * n)%nat -> n = 6%nat \/ n = 8%nat -> Forall (fun c => is_hex c = true) w ->
  Forall (fun c => plain_char c = true) (join (bs "-") (hex_groups n 2 [] w)) /\ join (bs "-") (hex_groups n 2 [] w) <> [].
Proof.
  intros Hl Hn Hh. split; [apply groups_plain; [done|by apply hex_plain]|]. destruct (eui_shape n w Hl Hn) as (Hz & _). intros E. rewrite E in Hz. change (zlen []) with 0 in Hz. lia.
Qed.
Lemma eui48_word v : 0 <= v < 2 ^ 48 -> Forall (fun c => plain_char c = true) (euiToString v 48) /\ euiToString v 48 <> [].
Proof. intros Hv. destruct (hex_fixed_spec 11 v 48 Hv ltac:(lia) ltac:(lia)) as (Hl & Hh & _). apply (eui_word 6 (hex_fixed 12 v)); [done|by left|done]. Qed.
Lemma eui64_word v : 0 <= v < 2 ^ 64 -> Forall (fun c => plain_char c = true) (euiToString v 64) /\ euiToString v 64 <> [].
Proof. intros Hv. destruct (hex_fixed_spec 15 v 64 Hv ltac:(lia) ltac:(lia)) as (Hl & Hh & _). apply (eui_word 8 (hex_fixed 16 v)); [done|by right|done]. Qed.

(** ** Parse functions on given tokens *)

Section Reading.
Context {casing : Casing}.

(** [p] on a lexer whose next tokens are [ts]: it reads these and gives [a]. *)
Definition gets {A} (p : P A) (ts : list (Z * bytes)) (a : A) : Prop := forall z z', reads z ts z' -> p z = Ok (a, z').
Definition matches (l : lex) (vt : Z * bytes) : Prop := value l = vt.1 /\ token l = vt.2 /\ err l = false.
Abbreviation newline := ((zNewline, [x0a]) : Z * bytes).
Abbreviation space := ((zBlank, [ch_space]) : Z * bytes).

Lemma gets_ret {A} (a : A) : gets (mret a) [] a.
Proof. by intros z z' ->. Qed.

Lemma gets_bind {A B} (p : P A) (f : A -> P B) ts1 ts2 a b : gets p ts1 a -> gets (f a) ts2 b -> gets (p ≫= f) (ts1 ++ ts2) b.
Proof. intros Hp Hf z z' (z1 & H1 & H2)%reads_app. unfold mbind, P_bind. rewrite (Hp _ _ H1). cbn [mbind res_bind]. by apply Hf. Qed.

Lemma gets_next {A} (f : lex -> P A) t ts b : (forall l, matches l t -> gets (f l) ts b) -> gets (next ≫= f) (t :: ts) b.
Proof.
  intros H z z' Hr. destruct t as [v t]. destruct Hr as (z1 & (l & E & V & T & R) & Hr). unfold mbind, P_bind, next. rewrite E. cbn [mbind res_bind]. by apply (H l).
Qed.

Lemma gets_blank {A} (f : unit -> P A) t ts b : gets (f tt) ts b -> gets (blank ≫= f) (t :: ts) b.
Proof. intros H. eapply (gets_bind _ _ [t]); [|done]. apply gets_next. intros l _. apply gets_ret. Qed.

Lemma gets_look {A B} (r : res error A) (f : A -> P B) a ts b : r = Ok a -> gets (f a) ts b -> gets (look r ≫= f) ts b.
Proof. intros -> H. eapply (gets_bind _ _ []); [|done]. by intros z z' ->. Qed.

Lemma gets_slurp {A} (f : unit -> P A) ts b : gets (f tt) ts b -> gets (slurpRemainder ≫= f) (newline :: ts) b.
Proof. intros H. eapply (gets_bind _ _ [newline]); [|done]. apply gets_next. intros l (V & _ & _). rewrite V. cbn. apply gets_ret. Qed.

Lemma gets_name {A} msg o (f : bytes -> P A) ls ts b : good_labels ls -> gets (f (show_name ls)) ts b -> gets (name_field msg o ≫= f) ((zString, show_name ls) :: ts) b.
Proof.
  intros Hls H. eapply (gets_bind _ _ [(zString, show_name ls)]); [|done]. apply gets_next. intros l (_ & T & R). rewrite T. cbn [snd].
  eapply gets_look; [by apply toAbsoluteName_good|]. rewrite R. apply gets_ret.
Qed.

Lemma gets_uint {A} msg bits (f : Z -> P A) i ts b : 0 <= i < 2 ^ bits -> gets (f i) ts b -> gets (uint_field msg bits ≫= f) ((zString, Itoa i) :: ts) b.
Proof.
  intros Hi H. eapply (gets_bind _ _ [(zString, Itoa i)]); [|done]. apply gets_next. intros l (_ & T & R). rewrite T. cbn [snd].
  rewrite (ParseUint_Itoa _ _ Hi), R. apply gets_ret.
Qed.

Lemma gets_uint_token {A} msg bits (f : Z -> P A) i ts b : 0 <= i < 2 ^ bits -> gets (f i) ts b -> gets (uint_token msg bits ≫= f) ((zString, Itoa i) :: ts) b.
Proof. intros Hi H. eapply (gets_bind _ _ [(zString, Itoa i)]); [|done]. apply gets_next. intros l (_ & T & R). rewrite T. cbn [snd]. rewrite (ParseUint_Itoa _ _ Hi). apply gets_ret. Qed.

Lemma gets_soa {A} serial (f : Z -> P A) i ts b : 0 <= i < 2 ^ 32 -> gets (f i) ts b -> gets (soa_number serial ≫= f) ((zString, Itoa i) :: ts) b.
Proof. intros Hi H. eapply (gets_bind _ _ [(zString, Itoa i)]); [|done]. apply gets_next. intros l (_ & T & R). rewrite T, R. cbn [snd]. rewrite (ParseUint_Itoa _ _ Hi). apply gets_ret. Qed.

Lemma gets_algorithm {A} msg (f : Z -> P A) i ts b : 0 <= i < 2 ^ 8 -> gets (f i) ts b -> gets (algorithm_field msg ≫= f) ((zString, Itoa i) :: ts) b.
Proof. intros Hi H. eapply (gets_bind _ _ [(zString, Itoa i)]); [|done]. apply gets_next. intros l (_ & T & R). rewrite T. cbn [snd]. rewrite (ParseUint_Itoa _ _ Hi). apply gets_ret. Qed.

(** What the name of a type is read with. *)
Lemma Type_String_names t : readable_type t -> let s := Type_String t in
  number_of StringToType (ToUpper s) = Some t \/ (number_of StringToType (ToUpper s) = None /\ has_prefix (ToUpper s) (bs "TYPE") = true /\ typeToInt s = Some t).
Proof.
  intros (Ht & N1 & N2 & N3). unfold Type_String, name_of. destruct (list_find _ TypeToString) as [[i [k s]]|] eqn:E; cbn zeta.
  - left. apply list_find_Some in E as (E & Hk & _). cbn in Hk. subst k. apply list_elem_of_lookup_2, list_elem_of_In in E.
    pose proof type_mnemonics as H. rewrite forallb_forall in H. specialize (H _ E). cbn [fst snd] in H.
    rewrite (proj2 (Z.eqb_neq t 0) N1), (proj2 (Z.eqb_neq t 255) N2), (proj2 (Z.eqb_neq t 65535) N3) in H. cbn [orb] in H.
    rewrite !andb_true_iff in H. destruct H as ((((_ & H2) & H3) & _) & _). apply bool_decide_eq_true in H3. by rewrite (ToUpper_forallb _ H2), H3.
  - right. destruct (Itoa_digits t ltac:(lia)) as [Hn Hd]. pose proof (upper_digits (bs "TYPE") (Itoa t) Hd eq_refl) as Hu. rewrite Hu.
    split_and!; [by rewrite (number_of_prefix StringToType 4)|by apply bool_decide_eq_true|by apply (number_after_Itoa (bs "TYPE"))].
Qed.

Lemma Type_String_token t : readable_type t -> type_of_token (ToUpper (Type_String t)) (Type_String t) = Some t.
Proof. intros Ht. unfold type_of_token. destruct (Type_String_names t Ht) as [-> | (-> & _ & ->)]; done. Qed.

(** A number printed as its name in a table, or in decimal. *)
Definition named (m : list (Z * String.string)) (i : Z) : bytes := match name_of m i with Some s => s | None => Itoa i end.
Definition names_ok (m : list (Z * String.string)) : bool := forallb (fun e : Z * String.string => let w := bs e.2 in
  bool_decide (number_of (reverse_map m) w = Some e.1) && match w with [] => false | c :: _ => negb (isDigit c) end && forallb plain_char w) m.

Lemma named_spec m bits i : names_ok m = true -> 0 <= i < 2 ^ bits ->
  (number_of (reverse_map m) (named m i) = Some i \/ (number_of (reverse_map m) (named m i) = None /\ ParseUint (named m i) 10 bits = Some i)) /\
  Forall (fun c => plain_char c = true) (named m i) /\ named m i <> [].
Proof.
  unfold names_ok. intros Hm Hi. rewrite forallb_forall in Hm. unfold named, name_of. destruct (list_find _ m) as [[j [k s]]|] eqn:E.
  - apply list_find_Some in E as (E & Hk & _). cbn in Hk. subst k. apply list_elem_of_lookup_2, list_elem_of_In in E. specialize (Hm _ E). cbn [fst snd] in Hm.
    rewrite !andb_true_iff in Hm. destruct Hm as ((H1 & H2) & H3). apply bool_decide_eq_true in H1. split_and!; [by left| |by intros Hs; rewrite Hs in H2].
    apply Forall_forall. intros c Hc. rewrite forallb_forall in H3. by apply H3, list_elem_of_In.
  - destruct (Itoa_digits i ltac:(lia)) as [Hn Hd]. split_and!; [|by eapply Forall_impl; [exact Hd|]; intros c Hc; apply digit_facts|done].
    right. split; [|by apply ParseUint_Itoa]. apply number_of_None, Forall_fmap, Forall_forall. intros e He Hs. apply list_elem_of_In, Hm in He.
    cbn in Hs, He. rewrite Hs in He. destruct (Itoa i) as [|c r]; [done|]. apply Forall_cons in Hd as [Hc _]. rewrite Hc in He. rewrite andb_false_r in He. discriminate He.
Qed.

Lemma gets_mnemonic {A} m msg bits (f : Z -> P A) i ts b : names_ok m = true -> 0 <= i < 2 ^ bits -> gets (f i) ts b ->
  gets (mnemonic (reverse_map m) msg bits ≫= f) ((zString, named m i) :: ts) b.
Proof.
  intros Hm Hi H. eapply (gets_bind _ _ [(zString, named m i)]); [|done]. apply gets_next. intros l (_ & T & _). rewrite T. cbn [snd].
  destruct (named_spec m bits i Hm Hi) as ([-> | (-> & ->)] & _); apply gets_ret.
Qed.

(** The name of a type is a word without escapes. *)
Lemma Type_String_plain t : 0 <= t -> Forall (fun c => plain_char c = true) (Type_String t) /\ Type_String t <> [].
Proof.
  intros Ht. unfold Type_String, name_of. destruct (list_find _ TypeToString) as [[j [k s]]|] eqn:E.
  - apply list_find_Some in E as (E & _ & _). apply list_elem_of_lookup_2, list_elem_of_In in E.
    assert (forallb (fun e : Z * String.string => bool_decide (bs e.2 <> []) && forallb plain_char (bs e.2)) TypeToString = true) as H by (vm_compute; reflexivity).
    rewrite forallb_forall in H. specialize (H _ E). apply andb_true_iff in H as [H1 H2]. apply bool_decide_eq_true in H1. split; [|exact H1].
    apply Forall_forall. intros c Hc. rewrite forallb_forall in H2. by apply H2, list_elem_of_In.
  - split; [|done]. apply Forall_app. split; [by repeat constructor|]. eapply Forall_impl; [by apply Itoa_digits|]. intros c Hc. by apply digit_facts.
Qed.

Lemma gets_time {A} msg now (f : Z -> P A) t ts b : 0 <= now -> 0 <= t < 2 ^ 32 -> gets (f t) ts b -> gets (time_field msg ≫= f) ((zString, TimeToString now t) :: ts) b.
Proof.
  intros Hnow Ht H. eapply (gets_bind _ _ [(zString, TimeToString now t)]); [|done]. apply gets_next. intros l (_ & T & _). rewrite T. cbn [snd].
  rewrite (proj1 (StringToTime_TimeToString now t Hnow Ht)). apply gets_ret.
Qed.

(** *** Loops to the end of the line *)

(** What the tokens [ts] make of [s]. *)
Fixpoint folds {S} (step : S -> lex -> P S) (ts : list (Z * bytes)) (s s' : S) : Prop :=
  match ts with
  | [] => s = s'
  | t :: ts => t.1 <> zNewline /\ t.1 <> zEOF /\ exists s1, (forall l z, matches l t -> step s l z = Ok (s1, z)) /\ folds step ts s1 s'
  end.

Lemma folds_app {S} (step : S -> lex -> P S) ts1 ts2 s1 s2 s3 : folds step ts1 s1 s2 -> folds step ts2 s2 s3 -> folds step (ts1 ++ ts2) s1 s3.
Proof. revert s1. induction ts1 as [|t ts1 IH]; intros s1; [by intros ->|]. intros (H1 & H2 & s & H3 & H4) H5. split_and!; [done..|]. exists s. split; [done|]. by apply IH. Qed.

Lemma reads_left ts : forall z z', reads z ts z' -> (length ts + left_over z' <= left_over z)%nat.
Proof.
  induction ts as [|[v t] ts IH]; intros z z'; [intros ->; cbn; lia|]. intros (z1 & (l & E & _) & H). apply IH in H. apply Next_progress in E. cbn [length]. lia.
Qed.

Lemma until_folds {S} (step : S -> lex -> P S) ts : forall fuel s s' l z z' t0 ts0, folds step ts s s' -> ts ++ [newline] = t0 :: ts0 -> matches l t0 ->
  reads z ts0 z' -> (length ts < fuel)%nat -> exists l', until_newline fuel step s l z = Ok ((s', l'), z').
Proof.
  induction ts as [|[v t] ts IH]; intros fuel s s' l z z' t0 ts0 Hf Ht Hl Hr Hn; (destruct fuel as [|fuel]; [cbn in Hn; lia|]); cbn [until_newline].
  - injection Ht as <- <-. destruct Hl as (V & _ & _). rewrite V. cbn [fst]. change (zNewline =? zNewline) with true. cbn [orb]. cbn in Hf, Hr. subst. by exists l.
  - injection Ht as <- <-. destruct Hf as (N1 & N2 & s1 & Hs & Hf). cbn [fst] in N1, N2. pose proof Hl as (V & _ & _). cbn [fst] in V. rewrite V.
    destruct (Z.eqb_spec v zNewline); [done|]. destruct (Z.eqb_spec v zEOF); [done|]. cbn [orb]. unfold mbind at 1, P_bind at 1. rewrite (Hs _ _ Hl). cbn [mbind res_bind].
    destruct (ts ++ [newline]) as [|[v1 t1] ts1] eqn:Ets; [by destruct ts|]. destruct Hr as (z1 & (l1 & E & V1 & T1 & R1) & Hr).
    unfold mbind at 1, P_bind at 1. unfold next. rewrite E. cbn [mbind res_bind]. eapply IH; [done|done|by split_and!|done|cbn in Hn; lia].
Qed.

Lemma gets_loop {S A} (step : S -> lex -> P S) s s' ts (k : S * lex -> P A) l t0 ts0 b : folds step ts s s' -> ts ++ [newline] = t0 :: ts0 -> matches l t0 ->
  (forall l', gets (k (s', l')) [] b) -> gets (line_loop step s l ≫= k) ts0 b.
Proof.
  intros Hf Ht Hl Hk z z' Hr. pose proof (reads_left _ _ _ Hr). assert (length ts = length ts0) by (apply (f_equal length) in Ht; rewrite length_app in Ht; cbn in Ht; lia).
  destruct (until_folds step ts (left_over z + 2)%nat s s' l z z' t0 ts0 Hf Ht Hl Hr ltac:(lia)) as [l' E]. unfold mbind, P_bind, line_loop. rewrite E. cbn [mbind res_bind].
  by apply (Hk l' z' z').
Qed.

(** A loop that starts with the next token. *)
Lemma gets_next_loop {S A} (step : S -> lex -> P S) s s' ts (k : S * lex -> P A) b : folds step ts s s' ->
  (forall l', gets (k (s', l')) [] b) -> gets (l ← next; line_loop step s l ≫= k) (ts ++ [newline]) b.
Proof.
  intros Hf Hk. destruct (ts ++ [newline]) as [|t0 ts0] eqn:E; [by destruct ts|]. apply gets_next. intros l Hl. by eapply gets_loop.
Qed.

(** *** The rest of a line as one string, as types, as strings *)

Lemma gets_ending {A} msg (f : bytes -> P A) s ts b : ts = [(zString, s)] \/ ts = [space; (zString, s)] -> gets (f s) [] b ->
  gets (endingToString msg ≫= f) (ts ++ [newline]) b.
Proof.
  intros Hts H. rewrite <- (app_nil_r (ts ++ [newline])). eapply gets_bind; [|exact H]. eapply gets_next_loop; [|intros l'; apply gets_ret].
  assert (forall s0 s1, folds (fun s l => if err l then bad msg l else if value l =? zString then mret (s ++ token l) else if value l =? zBlank then mret s else bad msg l)
    [(zString, s0)] s1 (s1 ++ s0)) as Hs.
  { intros s0 s1. split_and!; [done..|]. exists (s1 ++ s0). split; [|done]. intros l z (V & T & R). by rewrite R, V, T. }
  destruct Hts as [-> | ->]; [apply (Hs s [])|]. split_and!; [done..|]. exists []. split; [|apply (Hs s [])]. intros l z (V & T & R). by rewrite R, V.
Qed.

(** Words to the end of the line, each after a blank. *)
Lemma folds_words {B} (text : B -> bytes) (step : list B -> lex -> P (list B)) xs : forall s,
  (forall s l z, matches l space -> step s l z = Ok (s, z)) -> Forall (fun x => forall s l z, matches l (zString, text x) -> step s l z = Ok (s ++ [x], z)) xs ->
  folds step (concat (map (fun x => [space; (zString, text x)]) xs)) s (s ++ xs).
Proof.
  intros s Hb Hw. revert s. induction Hw as [|x xs Hx Hw IH]; intros s; [by rewrite app_nil_r|]. cbn [map concat].
  eapply folds_app; [|rewrite (cons_middle x s xs), app_assoc; apply IH]. split_and!; [done..|]. exists s. split; [intros l z; by apply Hb|].
  split_and!; [done..|]. exists (s ++ [x]). split; [intros l z; apply Hx|done].
Qed.

Lemma gets_types {A} msg (f : list Z -> P A) ts b : Forall readable_type ts -> gets (f ts) [] b ->
  gets (types_field msg ≫= f) (concat (map (fun t => [space; (zString, Type_String t)]) ts) ++ [newline]) b.
Proof.
  intros Hts H. rewrite <- (app_nil_r (_ ++ [newline])). eapply gets_bind; [|exact H]. eapply gets_next_loop; [|intros l'; apply gets_ret].
  apply (folds_words Type_String _ ts []); [intros s l z (V & _ & _); by rewrite V|]. eapply Forall_impl; [exact Hts|].
  intros t Ht s l z (V & T & R). rewrite V, T. cbn [fst snd]. by rewrite (Type_String_token t Ht).
Qed.

(** One quoted string: the state is the strings so far, and neither in quotes nor
    after an empty string. *)
Lemma folds_quoted errstr l s q : zlen l <= 255 -> folds (txt_token errstr) (item_toks (Q (show_txt l))) (s, false, q) (s ++ [show_txt l], false, true).
Proof.
  intros Hl. unfold item_toks. destruct (decide (l = [])) as [->|Hne].
  - change (show_txt []) with (@nil byte). cbn [app folds fst snd]. split_and!; [done..|]. exists (s, true, true).
    split; [intros lx z (V & T & R); unfold txt_token; rewrite R, V; by destruct q|]. split_and!; [done..|]. exists (s ++ [[]], false, true).
    split; [|done]. intros lx z (V & T & R). unfold txt_token. by rewrite R, V.
  - destruct (show_txt l) as [|c r] eqn:E; [pose proof (show_txt_length l) as Hz; rewrite E in Hz; destruct l; [done|zlia]|]. rewrite <- E. clear c r E.
    cbn [app folds fst snd]. split_and!; [done..|]. exists (s, true, true).
    split; [intros lx z (V & T & R); unfold txt_token; rewrite R, V; by destruct q|]. split_and!; [done..|]. exists (s ++ [show_txt l], true, false).
    split; [intros lx z (V & T & R); unfold txt_token; rewrite R, V, T; cbn [snd]; unfold mbind, P_bind, look, lift; by rewrite (split_255_txt _ _ Hl)|].
    split_and!; [done..|]. exists (s ++ [show_txt l], false, true). split; [|done]. intros lx z (V & T & R). unfold txt_token. rewrite R, V. done.
Qed.

Definition quotes (ls : list bytes) : list item := map (fun l => Q (show_txt l)) ls.

Lemma folds_strings errstr ls : forall s q, Forall (fun l => zlen l <= 255) ls -> exists ts q', line_toks (quotes ls) = ts ++ [newline] /\
  folds (txt_token errstr) ts (s, false, q) (s ++ map show_txt ls, false, q').
Proof.
  induction ls as [|l ls IH]; intros s q H.
  - exists [], q. by rewrite app_nil_r.
  - apply Forall_cons in H as [Hl H]. destruct ls as [|l2 ls].
    + exists (item_toks (Q (show_txt l))), true. split; [done|]. by apply folds_quoted.
    + destruct (IH (s ++ [show_txt l]) true H) as (ts & q' & E & Hf). exists (item_toks (Q (show_txt l)) ++ [space] ++ ts), q'.
      change (quotes (l :: l2 :: ls)) with (Q (show_txt l) :: quotes (l2 :: ls)). cbn [quotes map line_toks] in *. rewrite E. split; [by rewrite <- !app_assoc|].
      change (show_txt l :: show_txt l2 :: map show_txt ls) with ([show_txt l] ++ (show_txt l2 :: map show_txt ls)). rewrite (app_assoc s).
      eapply folds_app; [by apply folds_quoted|]. split_and!; [done..|]. exists (s ++ [show_txt l], false, true). split; [|exact Hf].
      intros lx z (V & T & R). unfold txt_token. by rewrite R, V.
Qed.

Lemma gets_strings {A} msg (f : list bytes -> P A) ls b : Forall (fun l => zlen l <= 255) ls -> gets (f (map show_txt ls)) [] b ->
  gets (endingToTxtSlice msg ≫= f) (line_toks (quotes ls)) b.
Proof.
  intros Hl H. rewrite <- (app_nil_r (line_toks _)). eapply gets_bind; [|exact H]. destruct (folds_strings msg ls [] false Hl) as (ts & q' & -> & Hf).
  destruct (ts ++ [newline]) as [|t0 ts0] eqn:E; [by destruct ts|]. apply gets_next. intros l Hm. pose proof Hm as (_ & _ & ->).
  eapply gets_loop; [exact Hf|exact E|exact Hm|]. intros l'. apply gets_ret.
Qed.

(** A blank before the strings is passed over. *)
Lemma gets_naptr {A} msg (f : bytes -> P A) l ts b : gets (f (show_txt l)) ts b -> gets (naptr_string msg ≫= f) (item_toks (Q (show_txt l)) ++ ts) b.
Proof.
  intros H. eapply gets_bind; [|exact H]. unfold item_toks. destruct (show_txt l) as [|c r] eqn:E; cbn [app].
  - apply gets_next. intros l1 (V1 & _ & _). rewrite V1. cbn [fst]. change (negb (zQuote =? zQuote)) with false. cbn iota.
    apply gets_next. intros l2 (V2 & _ & _). rewrite V2. apply gets_ret.
  - apply gets_next. intros l1 (V1 & _ & _). rewrite V1. change (negb (zQuote =? zQuote)) with false. cbn iota.
    apply gets_next. intros l2 (V2 & T2 & _). rewrite V2, T2. change (zString =? zString) with true. cbn iota.
    apply gets_next. intros l3 (V3 & _ & _). rewrite V3. apply gets_ret.
Qed.

Lemma gets_one_string {A} msg l0 (f : bytes -> P A) l b : zlen l <= 255 -> gets (f (show_txt l)) [] b ->
  gets (one_string msg l0 ≫= f) (line_toks [Q (show_txt l)]) b.
Proof.
  intros Hl H. rewrite <- (app_nil_r (line_toks _)). eapply gets_bind; [|exact H]. apply (gets_strings msg _ [l]); [by constructor|]. apply gets_ret.
Qed.
End Reading.
