(* ===== verification/SvcbText.v ===== *)
(** * Service parameters as text (svcb.go)

    [String] and [parse] of the ten kinds of parameter, of their keys, and of
    the SVCB and HTTPS records. *)

From S2P Require Import Prelude Go Utf8 Labels Escape Names Wire Codec Encodings Apl Svcb RData RR Ztypes Dnssec Strconv Netip Types Lexer LexCarry Scan Present.

#[local] Open Scope string_scope.

Definition ch_comma : byte := x2c.

(** ** Keys *)

Definition svcbKeyToStringMap : list (Z * String.string) := [
  (SVCB_MANDATORY, "mandatory");
  (SVCB_ALPN, "alpn");
  (SVCB_NO_DEFAULT_ALPN, "no-default-alpn");
  (SVCB_PORT, "port");
  (SVCB_IPV4HINT, "ipv4hint");
  (SVCB_ECHCONFIG, "ech");
  (SVCB_IPV6HINT, "ipv6hint");
  (SVCB_DOHPATH, "dohpath");
  (SVCB_OHTTP, "ohttp")].
Definition svcbStringToKeyMap : list (bytes * Z) := reverse_map svcbKeyToStringMap.

Definition SVCBKey_String (key : Z) : bytes :=
  match name_of svcbKeyToStringMap key with
  | Some x => x
  | None => if key =? svcb_RESERVED then [] else bs "key" ++ FormatUint key 10
  end.

(** [s[3]] is only looked at when the number is one, so there is a fourth octet. *)
Definition svcbStringToKey (s : bytes) : Z :=
  if has_prefix s (bs "key") then
    match ParseUint (zdrop 3 s) 10 16 with
    | None => svcb_RESERVED
    | Some a =>
        if (a =? 65535) || bool_decide (zget s 3 = Some x30)
           || match name_of svcbKeyToStringMap a with Some _ => true | None => false end
        then svcb_RESERVED else a
    end
  else default svcb_RESERVED (number_of svcbStringToKeyMap s).

(** ** Values *)

(** [for len(b) > 0 { e, b, _ = strings.Cut(b, ",") }]: every turn takes an octet
    or ends the text. *)
Fixpoint cut_list (fuel : nat) (b : bytes) : list bytes :=
  match fuel, b with
  | S fuel, _ :: _ => let '(e, b, _) := Cut b ch_comma in e :: cut_list fuel b
  | _, _ => []
  end.

Definition mandatory_String (Code : list Z) : bytes := join [ch_comma] (map SVCBKey_String Code).
Definition mandatory_parse (b : bytes) : res error SVCBKeyValue := Ok (SVCBMandatory (map svcbStringToKey (cut_list (length b) b))).

(** One octet of a protocol name. *)
Definition alpn_escape (e : byte) : res error bytes :=
  if (bval e <? 32) || (126 <? bval e) then escapeByte e
  else if (e =b ch_quote) || (e =b x3b) || (e =b ch_space) then Ok [ch_bslash; e]
  else if e =b ch_comma then Ok (bs "\\\044")
  else if e =b ch_bslash then Ok (bs "\\\092")
  else Ok [e].
Definition alpn_text (alpn : bytes) : res error bytes := foldM (fun str e => x ← alpn_escape e; Ok (str ++ x)) [] alpn.
Definition alpn_String (Alpn : list bytes) : res error bytes := l ← mapM alpn_text Alpn; Ok (join [ch_comma] l).

Fixpoint alpn_loop (fuel : nat) (b : bytes) (p : Z) (alpn : list bytes) (a : bytes) : res error SVCBKeyValue :=
  match fuel with
  | O => Diverge
  | S fuel =>
      if negb (p <? zlen b) then
        match a with
        | [] => Err (MkError "bad svcbalpn: last protocol identifier empty")
        | _ => Ok (SVCBAlpn (alpn ++ [a]))
        end
      else
        '(c, q) ← nextByte b p;
        if q =? 0 then Err (MkError "bad svcbalpn: unterminated escape") else
        let p := p + q in
        if c =b ch_comma then
          match a with
          | [] => Err (MkError "bad svcbalpn: empty protocol identifier")
          | _ => alpn_loop fuel b p (alpn ++ [a]) []
          end
        else if c =b ch_bslash then
          '(dc, dq) ← nextByte b p;
          if dq =? 0 then Err (MkError "bad svcbalpn: unterminated escape decoding comma-separated list")
          else if negb (dc =b ch_bslash) && negb (dc =b ch_comma) then
            Err (MkError "bad svcbalpn: bad escaped character decoding comma-separated list")
          else alpn_loop fuel b (p + dq) alpn (a ++ [dc])
        else alpn_loop fuel b p alpn (a ++ [c])
  end.
Definition alpn_parse (b : bytes) : res error SVCBKeyValue :=
  match b with [] => Ok (SVCBAlpn []) | _ => alpn_loop (S (length b)) b 0 [] [] end.

Definition port_parse (b : bytes) : res error SVCBKeyValue :=
  match ParseUint b 10 16 with
  | Some port => Ok (SVCBPort port)
  | None => Err (MkError "bad svcbport: port out of range")
  end.

(** An address that is not of the family ends the text as a whole. *)
Definition ipv4hint_String (Hint : list bytes) : bytes :=
  if existsb (fun e => is_nil (To4 e)) Hint then bs "<nil>" else join [ch_comma] (map (fun e => IP_String (To4 e)) Hint).
Definition ipv6hint_String (Hint : list bytes) : bytes :=
  if existsb (fun e => negb (is_nil (To4 e))) Hint then bs "<nil>" else join [ch_comma] (map IP_String Hint).

Definition ipv4hint_parse (b : bytes) : res error SVCBKeyValue :=
  if is_nil b then Err (MkError "bad svcbipv4hint: empty hint")
  else if contains_byte b ch_colon then Err (MkError "bad svcbipv4hint: expected ipv4, got ipv6")
  else
    hint ← mapM (fun e =>
      let ip := To4 (default [] (ParseIP e)) in
      if is_nil ip then Err (MkError "bad svcbipv4hint: bad ip") else Ok ip) (cut_list (length b) b);
    Ok (SVCBIPv4Hint hint).

Definition ipv6hint_parse (b : bytes) : res error SVCBKeyValue :=
  if is_nil b then Err (MkError "bad svcbipv6hint: empty hint")
  else
    hint ← mapM (fun e =>
      match ParseIP e with
      | None => Err (MkError "bad svcbipv6hint: bad ip")
      | Some ip =>
          if negb (is_nil (To4 ip)) then Err (MkError "bad svcbipv6hint: expected ipv6, got ipv4-mapped-ipv6") else Ok ip
      end) (cut_list (length b) b);
    Ok (SVCBIPv6Hint hint).

(** [String()] and [parse]; of the errors of [parse] the record's error keeps nothing. *)
Definition svcb_String (s : SVCBKeyValue) : res error bytes :=
  match s with
  | SVCBMandatory Code => Ok (mandatory_String Code)
  | SVCBAlpn Alpn => alpn_String Alpn
  | SVCBNoDefaultAlpn | SVCBOhttp => Ok []
  | SVCBPort Port => Ok (FormatUint Port 10)
  | SVCBIPv4Hint Hint => Ok (ipv4hint_String Hint)
  | SVCBECHConfig ECH => Ok (toBase64 ECH)
  | SVCBIPv6Hint Hint => Ok (ipv6hint_String Hint)
  | SVCBDoHPath Template => svcbParamToStr Template
  | SVCBLocal _ Data => svcbParamToStr Data
  end.

Definition svcb_parse (s : SVCBKeyValue) (b : bytes) : res error SVCBKeyValue :=
  match s with
  | SVCBMandatory _ => mandatory_parse b
  | SVCBAlpn _ => alpn_parse b
  | SVCBNoDefaultAlpn =>
      if is_nil b then Ok SVCBNoDefaultAlpn else Err (MkError "bad svcbnodefaultalpn: no-default-alpn must have no value")
  | SVCBPort _ => port_parse b
  | SVCBIPv4Hint _ => ipv4hint_parse b
  | SVCBECHConfig _ =>
      match fromBase64 b with
      | Err _ => Err (MkError "bad svcbech: bad base64 ech")
      | r => x ← r; Ok (SVCBECHConfig x)
      end
  | SVCBIPv6Hint _ => ipv6hint_parse b
  | SVCBDoHPath _ => x ← svcbParseParam b; Ok (SVCBDoHPath x)
  | SVCBOhttp => if is_nil b then Ok SVCBOhttp else Err (MkError "bad svcbotthp: svcbotthp must have no value")
  | SVCBLocal k _ => x ← svcbParseParam b; Ok (SVCBLocal k x)
  end.

(** ** The records *)

Section Records.
Context {casing : Casing}.

(** The value after a key and an equality sign with nothing behind it: whether the
    next key needs a blank, the value, and the last token. *)
Definition quoted_value : P (bool * bytes * lex) :=
  l ← next;
  if negb (value l =? zQuote) then mret (true, [], l) else
  l ← next;
  if value l =? zString then
    let v := token l in
    l ← next;
    if negb (value l =? zQuote) then bad "SVCB unterminated value" l else mret (false, v, l)
  else if value l =? zQuote then mret (false, [], l)
  else bad "bad SVCB value" l.

(** One token: [canHaveNextKey] and the pairs so far. *)
Definition svcb_token (st : bool * list SVCBKeyValue) (l : lex) : P (bool * list SVCBKeyValue) :=
  let '(canHaveNextKey, xs) := st in
  if value l =? zString then
    if negb canHaveNextKey then bad "bad SVCB value quotation" l else
    let add (canHaveNextKey : bool) (key value : bytes) (l : lex) : P (bool * list SVCBKeyValue) :=
      match makeSVCBKeyValue (svcbStringToKey key) with
      | None => bad "bad SVCB key" l
      | Some kv =>
          match svcb_parse kv value with
          | Err _ => bad "" l
          | r => kv ← look r; mret (canHaveNextKey, xs ++ [kv])
          end
      end in
    match index_byte (token l) x3d with
    | None => add canHaveNextKey (token l) [] l
    | Some idx =>
        if idx =? 0 then bad "bad SVCB key" l else
        let key := ztake idx (token l) in
        let value := zdrop (idx + 1) (token l) in
        if is_nil value then
          v ← quoted_value;
          let '(canHaveNextKey, value, l) := (v : bool * bytes * lex) in
          add canHaveNextKey key value l
        else add canHaveNextKey key value l
    end
  else if value l =? zQuote then bad "SVCB key can't contain double quotes" l
  else if value l =? zBlank then mret (true, xs)
  else bad "bad SVCB values" l.

Definition SVCB_parse (o : bytes) : P (list fval) :=
  Priority ← uint_field "bad SVCB priority" 16;
  _ ← blank;
  Target ← name_field "bad SVCB Target" o;
  l ← next;
  r ← line_loop svcb_token (true, []) l;
  mret [V_int Priority; V_str Target; V_pairs r.1.2].
Definition HTTPS_parse (o : bytes) : P (list fval) := SVCB_parse o.

Fixpoint pairs_String (l : list SVCBKeyValue) : res error bytes :=
  match l with
  | [] => Ok []
  | e :: l =>
      v ← svcb_String e;
      r ← pairs_String l;
      Ok ([ch_space] ++ SVCBKey_String (Key e) ++ [x3d; ch_quote] ++ v ++ [ch_quote] ++ r)
  end.

Definition SVCB_String (Hdr : RR_Header) (rr : list fval) : res error bytes :=
  h ← RR_Header_String Hdr;
  match rr with
  | [V_int Priority; V_str Target; V_pairs Value] =>
      Target ← sprintName Target;
      pairs ← pairs_String Value;
      Ok (h ++ Itoa Priority ++ [ch_space] ++ Target ++ pairs)
  | _ => Panic
  end.
Definition HTTPS_String (Hdr : RR_Header) (rr : list fval) : res error bytes := SVCB_String Hdr rr.
End Records.
