(* ===== verification/EdnsText.v ===== *)
(** * Pseudo records as text (edns.go, tsig.go)

    The [String] methods of the EDNS0 options, of OPT and of TSIG, which have no
    presentation format and are only printed. *)

From S2P Require Import Prelude Go Utf8 Labels Escape Names Wire Codec Encodings Apl Edns RData RR Ztypes Dnssec Strconv Netip TimeText Types Present.

#[local] Open Scope string_scope.

Definition HashToString : list (Z * String.string) := [(1, "SHA1"); (2, "SHA256"); (3, "GOST94"); (4, "SHA384"); (5, "SHA512")].

Definition ExtendedErrorCodeToString : list (Z * String.string) := [
  (0, "Other");
  (1, "Unsupported DNSKEY Algorithm");
  (2, "Unsupported DS Digest Type");
  (3, "Stale Answer");
  (4, "Forged Answer");
  (5, "DNSSEC Indeterminate");
  (6, "DNSSEC Bogus");
  (7, "Signature Expired");
  (8, "Signature Not Yet Valid");
  (9, "DNSKEY Missing");
  (10, "RRSIGs Missing");
  (11, "No Zone Key Bit Set");
  (12, "NSEC Missing");
  (13, "Cached Error");
  (14, "Not Ready");
  (15, "Blocked");
  (16, "Censored");
  (17, "Filtered");
  (18, "Prohibited");
  (19, "Stale NXDOMAIN Answer");
  (20, "Not Authoritative");
  (21, "Not Supported");
  (22, "No Reachable Authority");
  (23, "Network Error");
  (24, "Invalid Data");
  (25, "Signature Expired Before Valid");
  (26, "Too Early");
  (27, "Unsupported NSEC3 Iterations Value");
  (28, "Unable To Conform To Policy");
  (29, "Synthesized");
  (30, "Invalid Query Type")].

(** ** The options *)

Definition SUBNET_String (SourceNetmask SourceScope : Z) (Address : bytes) : bytes :=
  (match Address with
   | [] => bs "<nil>"
   | _ => if bool_decide (To4 Address = []) then bs "[" ++ IP_String Address ++ bs "]" else IP_String Address
   end) ++ bs "/" ++ Itoa SourceNetmask ++ bs "/" ++ Itoa SourceScope.

(** DAU, DHU and N3U: the names of the algorithms. *)
Definition algs_String (m : list (Z * String.string)) (AlgCode : bytes) : bytes :=
  concat (map (fun alg => ch_space :: match name_of m (bval alg) with Some a => a | None => Itoa (bval alg) end) AlgCode).

(** [e.Timeout*100] is a product of 16 bits. *)
Definition TCP_KEEPALIVE_String (Timeout : Z) : bytes :=
  bs "use tcp keep-alive" ++
  (if Timeout =? 0 then bs ", timeout omitted" else bs ", timeout " ++ Itoa (Timeout * 100 mod 65536) ++ bs "ms").

Definition EDE_String (InfoCode : Z) (ExtraText : bytes) : bytes :=
  FormatUint InfoCode 10 ++
  (match name_of ExtendedErrorCodeToString InfoCode with Some s => bs " (" ++ s ++ bs ")" | None => [] end) ++
  bs ": (" ++ ExtraText ++ bs ")".

Definition EDNS0_String (e : EDNS0) : bytes :=
  match e with
  | EDNS0_NSID _ Nsid => Nsid
  | EDNS0_SUBNET _ _ SourceNetmask SourceScope Address => SUBNET_String SourceNetmask SourceScope Address
  | EDNS0_COOKIE _ Cookie => Cookie
  | EDNS0_UL _ Lease KeyLease => Itoa Lease ++ [ch_space] ++ Itoa KeyLease
  | EDNS0_LLQ _ Version Opcode Error_ Id LeaseLife =>
      join [ch_space] (map (fun n => FormatUint n 10) [Version; Opcode; Error_; Id; LeaseLife])
  | EDNS0_DAU _ AlgCode => algs_String AlgorithmToString AlgCode
  | EDNS0_DHU _ AlgCode => algs_String HashToString AlgCode
  | EDNS0_N3U _ AlgCode => algs_String HashToString AlgCode
  | EDNS0_EXPIRE _ Expire Empty => if Empty then [] else FormatUint Expire 10
  | EDNS0_LOCAL Code Data => Itoa Code ++ bs ":0x" ++ hex_EncodeToString Data
  | EDNS0_TCP_KEEPALIVE _ Timeout _ => TCP_KEEPALIVE_String Timeout
  | EDNS0_PADDING Padding => map to_upper (hex_EncodeToString Padding)
  | EDNS0_EDE InfoCode ExtraText => EDE_String InfoCode ExtraText
  | EDNS0_ESU _ Uri => Uri
  | EDNS0_REPORTING _ AgentDomain => AgentDomain
  | EDNS0_ZONEVERSION _ _ _ Version => Version
  end.

(** ** The records *)

(** [string(c)] of a byte: the character of that number, in UTF-8. *)
Definition string_of_byte (c : byte) : bytes :=
  if bval c <? 128 then [c] else [byte_of (0xC0 + bval c / 64); byte_of (0x80 + bval c mod 64)].

(** One option; the octets of an identifier are shown as characters as well. *)
Definition option_line (o : EDNS0) : res error bytes :=
  let s := EDNS0_String o in
  match o with
  | EDNS0_NSID _ _ =>
      r ← attempt (opt_pack o);
      Ok (x0a :: bs "; NSID: " ++ s ++
          match r with inl h => bs "  " ++ concat (map (fun c => bs "(" ++ string_of_byte c ++ bs ")") h) | inr _ => [] end)
  | EDNS0_SUBNET _ _ _ _ _ => Ok (x0a :: bs "; SUBNET: " ++ s)
  | EDNS0_COOKIE _ _ => Ok (x0a :: bs "; COOKIE: " ++ s)
  | EDNS0_EXPIRE _ _ _ => Ok (x0a :: bs "; EXPIRE: " ++ s)
  | EDNS0_TCP_KEEPALIVE _ _ _ => Ok (x0a :: bs "; KEEPALIVE: " ++ s)
  | EDNS0_UL _ _ _ => Ok (x0a :: bs "; UPDATE LEASE: " ++ s)
  | EDNS0_LLQ _ _ _ _ _ _ => Ok (x0a :: bs "; LONG LIVED QUERIES: " ++ s)
  | EDNS0_DAU _ _ => Ok (x0a :: bs "; DNSSEC ALGORITHM UNDERSTOOD: " ++ s)
  | EDNS0_DHU _ _ => Ok (x0a :: bs "; DS HASH UNDERSTOOD: " ++ s)
  | EDNS0_N3U _ _ => Ok (x0a :: bs "; NSEC3 HASH UNDERSTOOD: " ++ s)
  | EDNS0_LOCAL _ _ => Ok (x0a :: bs "; LOCAL OPT: " ++ s)
  | EDNS0_PADDING _ => Ok (x0a :: bs "; PADDING: " ++ s)
  | EDNS0_EDE _ _ => Ok (x0a :: bs "; EDE: " ++ s)
  | EDNS0_ESU _ _ => Ok (x0a :: bs "; ESU: " ++ s)
  | EDNS0_REPORTING _ _ => Ok (x0a :: bs "; REPORT-CHANNEL: " ++ s)
  | EDNS0_ZONEVERSION _ _ _ _ => Ok (x0a :: bs "; ZONEVERSION: " ++ s)
  end.

Definition OPT_String (Hdr : RR_Header) (rr : list fval) : res error bytes :=
  match rr with
  | [V_opts Option] =>
      let t := Ttl Hdr in
      let z := OPT_Z t in
      foldM (fun s o => l ← option_line o; Ok (s ++ l))
        (x0a :: bs ";; OPT PSEUDOSECTION:" ++ x0a :: bs "; EDNS: version " ++ Itoa (Version t) ++ bs "; flags:" ++
         (if Do t then bs " do" else []) ++ (if Co t then bs " co" else []) ++ bs "; " ++
         (if negb (z =? 0) then bs "MBZ: 0x" ++ pad0 4 (FormatUint z 16) ++ bs ", " else []) ++
         bs "udp: " ++ Itoa (Class_ Hdr)) Option
  | _ => Panic
  end.

(** [tsigTimeToString], for times that are not negative as signed numbers. *)
Definition tsigTimeToString (t : Z) : bytes := format_time t.

Definition TSIG_String {casing : Casing} (Hdr : RR_Header) (rr : list fval) : res error bytes :=
  h ← RR_Header_String Hdr;
  match rr with
  | [V_str Algorithm; V_int TimeSigned; V_int Fudge; V_int MACSize; V_str MAC; V_int OrigId; V_int Error_; V_int OtherLen; V_str OtherData] =>
      Ok (x0a :: bs ";; TSIG PSEUDOSECTION:" ++ x0a :: bs "; " ++ h ++ [ch_space] ++
          join [ch_space] [Algorithm; tsigTimeToString TimeSigned; Itoa Fudge; Itoa MACSize; ToUpper MAC; Itoa OrigId; Itoa Error_;
            Itoa OtherLen; OtherData])
  | _ => Panic
  end.

(** The product overflows from 65.6 seconds on. *)
Example keepalive_overflow : EDNS0_String (EDNS0_TCP_KEEPALIVE 11 700 0) = bs "use tcp keep-alive, timeout 4464ms".
Proof. reflexivity. Qed.
