(* ===== verification/Generate.v ===== *)
(** * The reader of a $GENERATE directive (generate.go)

    The range of the directive, and the [generateReader] that repeats the text for
    every number of it.  Its octets do not depend on when they are read, so
    [read_all] gives the lexer all of them with the error they end with. *)

From S2P Require Import Prelude Go Labels Escape Encodings Strconv Types Lexer LexCarry.

#[local] Open Scope string_scope.

(** Sums of [int64]. *)
Definition wrap64 (z : Z) : Z := (z + 2 ^ 63) mod 2 ^ 64 - 2 ^ 63.

(** The start of [generate]: start, end and step, or the error. *)
Definition generate_range (token : bytes) : Z * Z * Z + String.string :=
  let range (token : bytes) (step : Z) : Z * Z * Z + String.string :=
    let '(startStr, endStr, ok) := Cut token x2d in
    if negb ok then inr "bad start-stop in $GENERATE range" else
    match ParseInt startStr 10 64 with
    | None => inr "bad start in $GENERATE range"
    | Some start =>
        match ParseInt endStr 10 64 with
        | None => inr "bad stop in $GENERATE range"
        | Some end_ =>
            if (end_ <? 0) || (start <? 0) || (end_ <? start) || (65535 <? (end_ - start) / step)
            then inr "bad range in $GENERATE range" else inl (start, end_, step)
        end
    end in
  match index_byte token x2f with
  | None => range token 1
  | Some i =>
      if i + 1 =? zlen token then inr "bad step in $GENERATE range" else
      match ParseInt (zdrop (i + 1) token) 10 64 with
      | Some s => if s <=? 0 then inr "bad step in $GENERATE range" else range (ztake i token) s
      | None => inr "bad step in $GENERATE range"
      end
  end.

(** ** Modifiers *)

(** The verb of [Printf] and its width. *)
Record modifier := MkMod { mod_base : bytes; mod_width : Z }.

Definition modToPrintf (s : bytes) : modifier * Z + String.string :=
  let '(offStr, s, ok0) := Cut s x2c in
  let '(widthStr, s, ok1) := Cut s x2c in
  let '(base, _, ok2) := Cut s x2c in
  let widthStr := if ok0 then widthStr else bs "0" in
  let base := if ok1 then base else bs "d" in
  if ok2 then inr "bad modifier in $GENERATE"
  else if negb (bool_decide (base ∈ [bs "o"; bs "d"; bs "x"; bs "X"])) then inr "bad base in $GENERATE"
  else
    match ParseInt offStr 10 64 with
    | None => inr "bad offset in $GENERATE"
    | Some offset =>
        match ParseUint widthStr 10 8 with
        | None => inr "bad width in $GENERATE"
        | Some width => inl (MkMod base width, offset)
        end
    end.

(** [fmt.Fprintf] of a modifier: the sign counts for the width. *)
Definition print_mod (m : modifier) (v : Z) : bytes :=
  let base := if bool_decide (mod_base m = bs "o") then 8 else if bool_decide (mod_base m = bs "d") then 10 else 16 in
  let digits := FormatUint (Z.abs v) base in
  let digits := if bool_decide (mod_base m = bs "X") then map to_upper digits else digits in
  if v <? 0 then x2d :: pad0 (mod_width m - 1) digits else pad0 (mod_width m) digits.

(** ** The reader *)

Record generateReader := MkGen {
  g_s : bytes; g_si : Z;
  g_cur : Z; g_start : Z; g_end : Z; g_step : Z;
  g_mod : bytes;                       (* what [mod] still holds *)
  g_escape : bool; g_eof : bool;
  g_file : bytes; g_lex : lex
}.

Definition new_reader (s : bytes) (start end_ step : Z) (file : bytes) (l : lex) : generateReader :=
  MkGen s 0 start start end_ step [] false false file l.

Definition g_set (si : Z) (m : bytes) (escape : bool) (r : generateReader) : generateReader :=
  MkGen (g_s r) si (g_cur r) (g_start r) (g_end r) (g_step r) m escape (g_eof r) (g_file r) (g_lex r).

(** The end of the text: a newline, and the next number. *)
Definition g_newline (r : generateReader) : generateReader :=
  let cur := wrap64 (g_cur r + g_step r) in
  MkGen (g_s r) 0 cur (g_start r) (g_end r) (g_step r) (g_mod r) (g_escape r) ((g_end r <? cur) || (cur <? 0)) (g_file r) (g_lex r).

(** [parseError]: [si] is the offset of the dollar sign. *)
Definition g_error (msg : String.string) (si end_ : Z) (r : generateReader) : ParseError :=
  let l := g_lex r in
  MkParseError (g_file r) (bs msg)
    (MkLex (ztake (end_ - si) (zdrop si (g_s r))) (err l) (value l) (torc l) (line l) (column l + (si + 1))).

(** What a dollar sign at [si], not the last octet, stands for: another one, or a
    number; with the number of octets it takes. *)
Definition dollar (si : Z) (r : generateReader) : bytes * Z + ParseError :=
  let s := g_s r in
  if bool_decide (zget s (si + 1) = Some x24) then inl ([x24], 2)
  else if bool_decide (zget s (si + 1) = Some x7b) then
    let rest := zdrop (si + 2) s in
    match index_byte rest x7d with
    | None => inr (g_error "bad modifier in $GENERATE" si (zlen s) r)
    | Some sep =>
        let failed msg := inr (g_error msg si (si + 3 + sep) r) in
        match modToPrintf (ztake sep rest) with
        | inr errMsg => failed errMsg
        | inl (m, offset) =>
            if (wrap64 (g_start r + offset) <? 0) || (2 ^ 31 - 1 <? wrap64 (g_end r + offset)) then failed "bad offset in $GENERATE"
            else inl (print_mod m (wrap64 (g_cur r + offset)), 3 + sep)
        end
    end
  else inl (print_mod (MkMod (bs "d") 0) (g_cur r), 1).

(** [ReadByte]: [Err None] is the end; a call of itself moves [si], or ends a line. *)
Fixpoint ReadByte (fuel : nat) (r : generateReader) : res (option ParseError) (byte * generateReader) :=
  match fuel with
  | O => Diverge
  | S fuel =>
      if g_eof r then Err None else
      match g_mod r with
      | c :: m => Ok (c, g_set (g_si r) m (g_escape r) r)
      | [] =>
          let si := g_si r in
          if zlen (g_s r) <=? si then Ok (x0a, g_newline r) else
          c ← index (zget (g_s r) si);
          if c =b ch_bslash then
            if g_escape r then Ok (ch_bslash, g_set (si + 1) [] false r)
            else ReadByte fuel (g_set (si + 1) [] true r)
          else if c =b x24 then
            if g_escape r then Ok (x24, g_set (si + 1) [] false r)
            else
              match (if zlen (g_s r) - 1 <=? si then inl (print_mod (MkMod (bs "d") 0) (g_cur r), 1) else dollar si r) with
              | inr e => Err (Some e)
              | inl (m, n) =>
                  c ← index (m !! 0%nat);
                  Ok (c, g_set (si + n) (drop 1 m) false r)
              end
          else if g_escape r then ReadByte fuel (g_set (si + 1) [] false r)
          else Ok (c, g_set (si + 1) [] false r)
      end
  end.

(** All octets.  A line has at most 256 of them for each octet of the text. *)
Fixpoint read_loop (fuel : nat) (r : generateReader) : res error (bytes * option read_error) :=
  match fuel with
  | O => Diverge
  | S fuel =>
      match ReadByte (S (S (length (g_s r)))) r with
      | Ok (c, r) => '(l, e) ← read_loop fuel r; Ok (c :: l, e)
      | Err None => Ok ([], None)
      | Err (Some e) => Ok ([], Some (R_parse e))
      | Panic => Panic
      | Diverge => Diverge
      end
  end.
Definition read_all (r : generateReader) : res error (bytes * option read_error) :=
  read_loop (Z.to_nat ((g_end r - g_start r) / g_step r + 1) * (256 * length (g_s r) + 1) + 1) r.

Example generate_example :
  read_all (new_reader (bs "h${1,3,x} A 1.2.3.$ \$") 9 15 3 [] no_lex) =
    Ok (bs "h00a A 1.2.3.9 $" ++ [x0a] ++ bs "h00d A 1.2.3.12 $" ++ [x0a] ++ bs "h010 A 1.2.3.15 $" ++ [x0a], None).
Proof. vm_compute. reflexivity. Qed.
