(* ===== verification/Zone.v ===== *)
(** * The zone parser (scan.go, dns.go)

    [Next] of a [ZoneParser] is a state machine over the tokens of the lexer, with
    a sub-parser for an included file or a $GENERATE directive; Generate.v has the
    reader of the latter.  The files and their contents are the interface
    [Files]. *)

From S2P Require Import Prelude Go Utf8 Labels Escape Names Wire Codec Encodings Apl Edns Svcb RData RR Ztypes Dnssec Strconv Netip TimeText Types Lexer LexCarry Scan ScanRR Present SvcbText EdnsText Generate.

#[local] Open Scope string_scope.

Definition defaultTtl : Z := 3600.
Definition maxIncludeDepth : Z := 7.

(** ** The packages path and path/filepath, with slashes *)

Definition clean_step (rooted : bool) (out : list bytes) (e : bytes) : list bytes :=
  if bool_decide (e = []) || bool_decide (e = bs ".") then out
  else if bool_decide (e = bs "..") then
    match out with
    | x :: out' => if bool_decide (x = bs "..") then e :: out else out'
    | [] => if rooted then [] else [e]
    end
  else e :: out.
Definition Clean (p : bytes) : bytes :=
  let rooted := has_prefix p (bs "/") in
  let s := join (bs "/") (rev (fold_left (clean_step rooted) (split_on x2f p) [])) in
  if rooted then x2f :: s else match s with [] => bs "." | _ => s end.

(** The path up to the last slash, and with it. *)
Fixpoint to_last_slash (p : bytes) : bytes :=
  match p with
  | [] => []
  | c :: r => let d := to_last_slash r in if (c =b x2f) || negb (bool_decide (d = [])) then c :: d else []
  end.
Definition Dir (p : bytes) : bytes := Clean (to_last_slash p).
Definition IsAbs (p : bytes) : bool := has_prefix p (bs "/").
Definition path_Join (a b : bytes) : bytes :=
  match a, b with
  | [], [] => []
  | [], p | p, [] => Clean p
  | _, _ => Clean (a ++ bs "/" ++ b)
  end.
Fixpoint trim_slashes (p : bytes) : bytes :=
  match p with c :: r => if c =b x2f then trim_slashes r else p | [] => [] end.

(** Opening a file through the parser's [fs.FS] or [os.Open]: its contents and the
    error reading ends with, or the text of the error. *)
Class Files := open_file : forall use_fs : bool, bytes -> bytes * option read_error + bytes.

(** ** Texts of errors *)

(** [Error()] without the prefix "dns: " of the type [Error]; of an error of
    package hex the octet is left out. *)
Fixpoint error_text (e : error) : bytes :=
  match e with
  | ErrAlg => bs "bad algorithm" | ErrAuth => bs "bad authentication" | ErrBuf => bs "buffer size too small"
  | ErrExtendedRcode => bs "bad extended rcode" | ErrFqdn => bs "domain must be fully qualified" | ErrId => bs "id mismatch"
  | ErrKeyAlg => bs "bad key algorithm" | ErrKey => bs "bad key" | ErrKeySize => bs "bad key size"
  | ErrLongDomain => bs "domain name exceeded 255 wire-format octets" | ErrNoSig => bs "no signature found"
  | ErrPrivKey => bs "bad private key" | ErrRcode => bs "bad rcode" | ErrRdata => bs "bad rdata" | ErrRRset => bs "bad rrset"
  | ErrSecret => bs "no secrets defined" | ErrShortRead => bs "short read" | ErrSig => bs "bad signature" | ErrSoa => bs "no SOA"
  | ErrTime => bs "bad time"
  | MkError s => bs s
  | Errorf ctx e => bs ctx ++ bs ": " ++ error_text e
  end.

(** ** The state *)

Record ttlState := MkTtl { ttl : Z; isByDirective : bool }.

(** [fsys] is whether the field is set; the reader [r], which is only closed, is
    left out. *)
Inductive ZoneParser := MkZP {
  zc : zlexer;
  parseErr : option ParseError;
  zorigin : bytes;
  zfile : bytes;
  defttl : option ttlState;
  zh : RR_Header;
  sub : option ZoneParser;
  fsys : bool;
  includeDepth : Z;
  includeAllowed : bool;
  generateDisallowed : bool
}.

Definition set_c (c : zlexer) (zp : ZoneParser) := MkZP c (parseErr zp) (zorigin zp) (zfile zp) (defttl zp) (zh zp) (sub zp) (fsys zp) (includeDepth zp) (includeAllowed zp) (generateDisallowed zp).
Definition set_parseErr (e : ParseError) (zp : ZoneParser) := MkZP (zc zp) (Some e) (zorigin zp) (zfile zp) (defttl zp) (zh zp) (sub zp) (fsys zp) (includeDepth zp) (includeAllowed zp) (generateDisallowed zp).
Definition set_origin (o : bytes) (zp : ZoneParser) := MkZP (zc zp) (parseErr zp) o (zfile zp) (defttl zp) (zh zp) (sub zp) (fsys zp) (includeDepth zp) (includeAllowed zp) (generateDisallowed zp).
Definition set_defttl (d : option ttlState) (zp : ZoneParser) := MkZP (zc zp) (parseErr zp) (zorigin zp) (zfile zp) d (zh zp) (sub zp) (fsys zp) (includeDepth zp) (includeAllowed zp) (generateDisallowed zp).
Definition set_h (f : RR_Header -> RR_Header) (zp : ZoneParser) := MkZP (zc zp) (parseErr zp) (zorigin zp) (zfile zp) (defttl zp) (f (zh zp)) (sub zp) (fsys zp) (includeDepth zp) (includeAllowed zp) (generateDisallowed zp).
Definition set_sub (s : option ZoneParser) (zp : ZoneParser) := MkZP (zc zp) (parseErr zp) (zorigin zp) (zfile zp) (defttl zp) (zh zp) s (fsys zp) (includeDepth zp) (includeAllowed zp) (generateDisallowed zp).
Definition set_limits (depth : Z) (allowed disallowed : bool) (zp : ZoneParser) := MkZP (zc zp) (parseErr zp) (zorigin zp) (zfile zp) (defttl zp) (zh zp) (sub zp) (fsys zp) depth allowed disallowed.
Definition SetIncludeFS (f : bool) (zp : ZoneParser) := MkZP (zc zp) (parseErr zp) (zorigin zp) (zfile zp) (defttl zp) (zh zp) (sub zp) f (includeDepth zp) (includeAllowed zp) (generateDisallowed zp).
Definition SetDefaultTTL (t : Z) (zp : ZoneParser) : ZoneParser := set_defttl (Some (MkTtl t false)) zp.
Definition SetIncludeAllowed (v : bool) (zp : ZoneParser) : ZoneParser := set_limits (includeDepth zp) v (generateDisallowed zp) zp.

(** [NewZoneParser], of a reader with its octets and its end. *)
Definition NewZoneParser (r : bytes) (e : option read_error) (origin file : bytes) : res error ZoneParser :=
  let make (pe : option ParseError) (origin : bytes) : ZoneParser := MkZP (newZLexer r e) pe origin file None zero_header None false 0 false false in
  if bool_decide (origin = []) then Ok (make None origin) else
  let origin := Fqdn origin in
  r ← IsDomainName origin;
  let '(_, ok) := (r : Z * bool) in
  Ok (make (if ok then None else Some (MkParseError file (bs "bad initial origin name") no_lex)) origin).

Fixpoint Zone_Err (zp : ZoneParser) : option read_error :=
  match parseErr zp with
  | Some e => Some (R_parse e)
  | None =>
      match sub zp with
      | Some s => match Zone_Err s with Some e => Some e | None => lexer_Err (zc zp) end
      | None => lexer_Err (zc zp)
      end
  end.

Fixpoint Zone_Comment (zp : ZoneParser) : bytes :=
  match parseErr zp, sub zp with
  | Some _, _ => []
  | None, Some s => Zone_Comment s
  | None, None => Comment (zc zp)
  end.

Inductive zstate :=
| zExpectOwnerDir | zExpectOwnerBl | zExpectAny | zExpectAnyNoClass | zExpectAnyNoClassBl | zExpectAnyNoTTL | zExpectAnyNoTTLBl
| zExpectRrtype | zExpectRrtypeBl | zExpectRdata
| zExpectDirTTLBl | zExpectDirTTL | zExpectDirOriginBl | zExpectDirOrigin | zExpectDirIncludeBl | zExpectDirInclude
| zExpectDirGenerate | zExpectDirGenerateBl.

(** What a token leads to: the next state, a return of [Next], or [subNext]. *)
Inductive outcome := Continue (st : zstate) (zp : ZoneParser) | Return (rr : option RR) (zp : ZoneParser) | Nested (zp : ZoneParser).

Section Zone.
Context {casing : Casing} {floats : Floats} {files : Files}.

(** ** The records *)

(** [parse] of the struct. *)
Definition rr_parse (k : rrstruct) : bytes -> P (list fval) :=
  match k with
  | RR_A => A_parse
  | RR_NS => NS_parse
  | RR_MD => MD_parse
  | RR_MF => MF_parse
  | RR_CNAME => CNAME_parse
  | RR_SOA => SOA_parse
  | RR_MB => MB_parse
  | RR_MG => MG_parse
  | RR_MR => MR_parse
  | RR_NULL => NULL_parse
  | RR_PTR => PTR_parse
  | RR_HINFO => HINFO_parse
  | RR_MINFO => MINFO_parse
  | RR_MX => MX_parse
  | RR_TXT => TXT_parse
  | RR_RP => RP_parse
  | RR_AFSDB => AFSDB_parse
  | RR_X25 => X25_parse
  | RR_ISDN => ISDN_parse
  | RR_RT => RT_parse
  | RR_NSAPPTR => NSAPPTR_parse
  | RR_SIG => SIG_parse
  | RR_KEY => KEY_parse
  | RR_PX => PX_parse
  | RR_GPOS => GPOS_parse
  | RR_AAAA => AAAA_parse
  | RR_LOC => LOC_parse
  | RR_NXT => NXT_parse
  | RR_EID => EID_parse
  | RR_NIMLOC => NIMLOC_parse
  | RR_SRV => SRV_parse
  | RR_NAPTR => NAPTR_parse
  | RR_KX => KX_parse
  | RR_CERT => CERT_parse
  | RR_DNAME => DNAME_parse
  | RR_OPT => OPT_parse
  | RR_APL => APL_parse
  | RR_DS => DS_parse
  | RR_SSHFP => SSHFP_parse
  | RR_IPSECKEY => IPSECKEY_parse
  | RR_RRSIG => RRSIG_parse
  | RR_NSEC => NSEC_parse
  | RR_DNSKEY => DNSKEY_parse
  | RR_DHCID => DHCID_parse
  | RR_NSEC3 => NSEC3_parse
  | RR_NSEC3PARAM => NSEC3PARAM_parse
  | RR_TLSA => TLSA_parse
  | RR_SMIMEA => SMIMEA_parse
  | RR_HIP => HIP_parse
  | RR_NINFO => NINFO_parse
  | RR_RKEY => RKEY_parse
  | RR_TALINK => TALINK_parse
  | RR_CDS => CDS_parse
  | RR_CDNSKEY => CDNSKEY_parse
  | RR_OPENPGPKEY => OPENPGPKEY_parse
  | RR_CSYNC => CSYNC_parse
  | RR_ZONEMD => ZONEMD_parse
  | RR_SVCB => SVCB_parse
  | RR_HTTPS => HTTPS_parse
  | RR_SPF => SPF_parse
  | RR_UINFO => UINFO_parse
  | RR_UID => UID_parse
  | RR_GID => GID_parse
  | RR_NID => NID_parse
  | RR_L32 => L32_parse
  | RR_L64 => L64_parse
  | RR_LP => LP_parse
  | RR_EUI48 => EUI48_parse
  | RR_EUI64 => EUI64_parse
  | RR_NXNAME => NXNAME_parse
  | RR_TKEY => TKEY_parse
  | RR_TSIG => TSIG_parse
  | RR_ANY => ANY_parse
  | RR_URI => URI_parse
  | RR_CAA => CAA_parse
  | RR_AVC => AVC_parse
  | RR_AMTRELAY => AMTRELAY_parse
  | RR_RESINFO => RESINFO_parse
  | RR_TA => TA_parse
  | RR_DLV => DLV_parse
  | RR_RFC3597 => RFC3597_parse
  end.

(** [String] of the struct. *)
Definition rr_data_String (now : Z) (k : rrstruct) : RR_Header -> list fval -> res error bytes :=
  match k with
  | RR_A => A_String
  | RR_NS => NS_String
  | RR_MD => MD_String
  | RR_MF => MF_String
  | RR_CNAME => CNAME_String
  | RR_SOA => SOA_String
  | RR_MB => MB_String
  | RR_MG => MG_String
  | RR_MR => MR_String
  | RR_NULL => NULL_String
  | RR_PTR => PTR_String
  | RR_HINFO => HINFO_String
  | RR_MINFO => MINFO_String
  | RR_MX => MX_String
  | RR_TXT => TXT_String
  | RR_RP => RP_String
  | RR_AFSDB => AFSDB_String
  | RR_X25 => X25_String
  | RR_ISDN => ISDN_String
  | RR_RT => RT_String
  | RR_NSAPPTR => NSAPPTR_String
  | RR_SIG => RRSIG_String now
  | RR_KEY => DNSKEY_String
  | RR_PX => PX_String
  | RR_GPOS => GPOS_String
  | RR_AAAA => AAAA_String
  | RR_LOC => LOC_String
  | RR_NXT => NSEC_String
  | RR_EID => EID_String
  | RR_NIMLOC => NIMLOC_String
  | RR_SRV => SRV_String
  | RR_NAPTR => NAPTR_String
  | RR_KX => KX_String
  | RR_CERT => CERT_String
  | RR_DNAME => DNAME_String
  | RR_OPT => OPT_String
  | RR_APL => APL_String
  | RR_DS => DS_String
  | RR_SSHFP => SSHFP_String
  | RR_IPSECKEY => IPSECKEY_String
  | RR_RRSIG => RRSIG_String now
  | RR_NSEC => NSEC_String
  | RR_DNSKEY => DNSKEY_String
  | RR_DHCID => DHCID_String
  | RR_NSEC3 => NSEC3_String
  | RR_NSEC3PARAM => NSEC3PARAM_String
  | RR_TLSA => TLSA_String
  | RR_SMIMEA => SMIMEA_String
  | RR_HIP => HIP_String
  | RR_NINFO => NINFO_String
  | RR_RKEY => RKEY_String
  | RR_TALINK => TALINK_String
  | RR_CDS => DS_String
  | RR_CDNSKEY => DNSKEY_String
  | RR_OPENPGPKEY => OPENPGPKEY_String
  | RR_CSYNC => CSYNC_String
  | RR_ZONEMD => ZONEMD_String
  | RR_SVCB => SVCB_String
  | RR_HTTPS => HTTPS_String
  | RR_SPF => SPF_String
  | RR_UINFO => UINFO_String
  | RR_UID => UID_String
  | RR_GID => GID_String
  | RR_NID => NID_String
  | RR_L32 => L32_String
  | RR_L64 => L64_String
  | RR_LP => LP_String
  | RR_EUI48 => EUI48_String
  | RR_EUI64 => EUI64_String
  | RR_NXNAME => NXNAME_String
  | RR_TKEY => TKEY_String now
  | RR_TSIG => TSIG_String
  | RR_ANY => ANY_String
  | RR_URI => URI_String
  | RR_CAA => CAA_String
  | RR_AVC => AVC_String
  | RR_AMTRELAY => AMTRELAY_String
  | RR_RESINFO => RESINFO_String
  | RR_TA => TA_String
  | RR_DLV => DS_String
  | RR_RFC3597 => RFC3597_String
  end.
Definition rr_String (now : Z) (rr : RR) : res error bytes := rr_data_String now (struct rr) (Hdr rr) (data rr).

(** [fromRFC3597]: the header it leaves and the fields. *)
Definition fromRFC3597 (h : RR_Header) (k : rrstruct) (Rdata : bytes) : res error RR :=
  let h := set_Rdlength (zlen Rdata / 2 mod 65536) h in
  if noRdata h then Ok (new_rr h k) else
  msg ← hex_DecodeString Rdata;
  '(data, _) ← on_err snd (rr_unpack k (Rdlength h) msg 0);
  Ok (MkRR h k data).

(** ** One token *)

Definition setParseError (msg : bytes) (l : lex) (zp : ZoneParser) : res error outcome :=
  Ok (Return None (set_parseErr (MkParseError (zfile zp) msg l) zp)).
Definition stop (msg : String.string) (l : lex) (zp : ZoneParser) : res error outcome := setParseError (bs msg) l zp.
Definition to (st : zstate) (zp : ZoneParser) : res error outcome := Ok (Continue st zp).

(** A parse function on the lexer of the parser. *)
Definition with_lexer {A} (p : P A) (zp : ZoneParser) (failed : ParseError -> res error outcome)
    (k : A -> ZoneParser -> res error outcome) : res error outcome :=
  match p (zc zp) with
  | Ok (a, z) => k a (set_c z zp)
  | Err e => failed e
  | Panic => Panic
  | Diverge => Diverge
  end.
Definition slurp (zp : ZoneParser) (k : ZoneParser -> res error outcome) : res error outcome :=
  with_lexer slurpRemainder zp (fun e => setParseError (pe_err e) (pe_lex e) zp) (fun _ zp => k zp).
Definition peek (zp : ZoneParser) : lex * ZoneParser := let '(l, z) := Peek (zc zp) in (l, set_c z zp).
Definition advance (zp : ZoneParser) : lex * ZoneParser := let '(l, _, z) := Next (zc zp) in (l, set_c z zp).

Definition by_directive (zp : ZoneParser) : bool := match defttl zp with Some d => isByDirective d | None => false end.

(** A TTL in front of a record. *)
Definition take_ttl (l : lex) (st : zstate) (zp : ZoneParser) : res error outcome :=
  match stringToTTL (token l) with
  | None => stop "not a TTL" l zp
  | Some t =>
      let zp := set_h (set_Ttl t) zp in
      to st (if by_directive zp then zp else set_defttl (Some (MkTtl t false)) zp)
  end.

Definition expect_blank (msg : String.string) (l : lex) (st : zstate) (zp : ZoneParser) : res error outcome :=
  if negb (value l =? zBlank) then stop msg l zp else to st zp.
Definition take_class (l : lex) (st : zstate) (zp : ZoneParser) : res error outcome := to st (set_h (set_Class (torc l)) zp).
Definition take_type (l : lex) (zp : ZoneParser) : res error outcome := to zExpectRdata (set_h (set_Rrtype (torc l)) zp).

(** The first token of a line. *)
Definition owner_or_directive (l : lex) (zp : ZoneParser) : res error outcome :=
  let zp := match defttl zp with Some d => set_h (set_Ttl (ttl d)) zp | None => zp end in
  let zp := set_h (set_Class ClassINET) zp in
  let v := value l in
  if v =? zNewline then to zExpectOwnerDir zp
  else if v =? zOwner then
    name ← toAbsoluteName (token l) (zorigin zp);
    match name with
    | None => stop "bad owner name" l zp
    | Some name => to zExpectOwnerBl (set_h (set_Name name) zp)
    end
  else if v =? zDirTTL then to zExpectDirTTLBl zp
  else if v =? zDirOrigin then to zExpectDirOriginBl zp
  else if v =? zDirInclude then to zExpectDirIncludeBl zp
  else if v =? zDirGenerate then to zExpectDirGenerateBl zp
  else if v =? zRrtpe then take_type l zp
  else if v =? zClass then take_class l zExpectAnyNoClassBl zp
  else if v =? zBlank then to zExpectOwnerDir zp
  else if v =? zString then take_ttl l zExpectAnyNoTTLBl zp
  else stop "syntax error at beginning" l zp.

(** The file that is opened, and whether its path differs from the token. *)
Definition include_path (zp : ZoneParser) (tok : bytes) : bytes :=
  let p := if IsAbs tok then tok else path_Join (Dir (zfile zp)) tok in
  if fsys zp then trim_slashes (Clean p) else p.

Definition include_file (l : lex) (neworigin : bytes) (zp : ZoneParser) : res error outcome :=
  if negb (includeAllowed zp) then stop "$INCLUDE directive not allowed" l zp
  else if maxIncludeDepth <=? includeDepth zp then stop "too deeply nested $INCLUDE" l zp
  else
    let includePath := include_path zp (token l) in
    match open_file (fsys zp) includePath with
    | inr e1 =>
        let as_ := if bool_decide (includePath = token l) then [] else bs " as `" ++ includePath ++ bs "'" in
        setParseError (bs "failed to open `" ++ token l ++ bs "'" ++ as_ ++ bs ": " ++ e1) l zp
    | inl (r1, e1) =>
        s ← NewZoneParser r1 e1 neworigin includePath;
        Ok (Nested (set_sub (Some (SetIncludeFS (fsys zp) (set_limits (includeDepth zp + 1) true false (set_defttl (defttl zp) s)))) zp))
    end.

(** [$INCLUDE]: an origin may follow the file name. *)
Definition include_directive (l : lex) (zp : ZoneParser) : res error outcome :=
  if negb (value l =? zString) then stop "expecting $INCLUDE value, not this..." l zp else
  let '(l1, zp) := advance zp in
  if value l1 =? zBlank then
    let '(l2, zp) := advance zp in
    if value l2 =? zString then
      name ← toAbsoluteName (token l2) (zorigin zp);
      match name with
      | None => stop "bad origin name" l2 zp
      | Some name => include_file l name zp
      end
    else include_file l (zorigin zp) zp
  else if (value l1 =? zNewline) || (value l1 =? zEOF) then include_file l (zorigin zp) zp
  else stop "garbage after $INCLUDE" l1 zp.

(** generate.go [generate]: the rest of the line is the text of the reader. *)
Definition generate_text (zp : ZoneParser) : res error ((lex + bytes) * ZoneParser) :=
  let fix go n s zp :=
    match n with
    | O => Diverge
    | S n =>
        let '(l, ok, z) := Next (zc zp) in
        let zp := set_c z zp in
        if negb ok then Ok (inr s, zp)
        else if err l then Ok (inl l, zp)
        else if value l =? zNewline then Ok (inr s, zp)
        else go n (s ++ token l) zp
    end in
  go (left_over (zc zp) + 1)%nat [] zp.

Definition generate (l : lex) (zp : ZoneParser) : res error outcome :=
  match generate_range (token l) with
  | inr msg => stop msg l zp
  | inl (start, end_, step) =>
      let '(l, ok, z) := Next (zc zp) in
      let zp := set_c z zp in
      if negb ok || negb (value l =? zBlank) then stop "garbage after $GENERATE range" l zp else
      '(s, zp) ← generate_text zp;
      match s with
      | inl l => stop "bad data in $GENERATE directive" l zp
      | inr s =>
          '(r, e) ← read_all (new_reader s start end_ step (zfile zp) l);
          s ← NewZoneParser r e (zorigin zp) (zfile zp);
          Ok (Nested (set_sub (Some (SetDefaultTTL defaultTtl (set_limits (includeDepth zp) (includeAllowed zp) true s))) zp))
      end
  end.

(** The token after the type: the rest is the business of the record. *)
Definition record_data (l : lex) (zp : ZoneParser) : res error outcome :=
  let h := zh zp in
  let known := TypeToRR (Rrtype h) in
  let k := default RR_RFC3597 known in
  let '(parseAsRFC3597, zp) :=
    match known with
    | Some _ => let '(p, zp) := peek zp in (bool_decide (token p = bs "\#"), zp)
    | None => (false, zp)
    end in
  let '(p, zp) := peek zp in
  if bool_decide (token p = []) then slurp zp (fun zp => Ok (Return (Some (new_rr h k)) zp))
  else if value l =? zNewline then stop "unexpected newline" l zp
  else
    with_lexer (rr_parse (if parseAsRFC3597 then RR_RFC3597 else k) (zorigin zp)) zp
      (fun e => setParseError (pe_err e) (if bool_decide (pe_lex e = no_lex) then l else pe_lex e) zp)
      (fun data zp =>
         if parseAsRFC3597 then
           match data with
           | [V_str Rdata] =>
               r ← attempt (fromRFC3597 h k Rdata);
               match r with
               | inl rr => Ok (Return (Some rr) zp)
               | inr e => setParseError (error_text e) l zp
               end
           | _ => Panic
           end
         else Ok (Return (Some (MkRR h k data)) zp)).

(** The body of the loop of [Next]. *)
Definition on_token (st : zstate) (l : lex) (zp : ZoneParser) : res error outcome :=
  if err l then setParseError (token l) l zp else
  match st with
  | zExpectOwnerDir => owner_or_directive l zp
  | zExpectDirIncludeBl => expect_blank "no blank after $INCLUDE-directive" l zExpectDirInclude zp
  | zExpectDirInclude => include_directive l zp
  | zExpectDirTTLBl => expect_blank "no blank after $TTL-directive" l zExpectDirTTL zp
  | zExpectDirTTL =>
      if negb (value l =? zString) then stop "expecting $TTL value, not this..." l zp else
      slurp zp (fun zp =>
        match stringToTTL (token l) with
        | None => stop "expecting $TTL value, not this..." l zp
        | Some t => to zExpectOwnerDir (set_defttl (Some (MkTtl t true)) zp)
        end)
  | zExpectDirOriginBl => expect_blank "no blank after $ORIGIN-directive" l zExpectDirOrigin zp
  | zExpectDirOrigin =>
      if negb (value l =? zString) then stop "expecting $ORIGIN value, not this..." l zp else
      slurp zp (fun zp =>
        name ← toAbsoluteName (token l) (zorigin zp);
        match name with
        | None => stop "bad origin name" l zp
        | Some name => to zExpectOwnerDir (set_origin name zp)
        end)
  | zExpectDirGenerateBl => expect_blank "no blank after $GENERATE-directive" l zExpectDirGenerate zp
  | zExpectDirGenerate =>
      if generateDisallowed zp then stop "nested $GENERATE directive not allowed" l zp
      else if negb (value l =? zString) then stop "expecting $GENERATE value, not this..." l zp
      else generate l zp
  | zExpectOwnerBl => expect_blank "no blank after owner" l zExpectAny zp
  | zExpectAny =>
      if value l =? zRrtpe then
        match defttl zp with None => stop "missing TTL with no previous value" l zp | Some _ => take_type l zp end
      else if value l =? zClass then take_class l zExpectAnyNoClassBl zp
      else if value l =? zString then take_ttl l zExpectAnyNoTTLBl zp
      else stop "expecting RR type, TTL or class, not this..." l zp
  | zExpectAnyNoClassBl => expect_blank "no blank before class" l zExpectAnyNoClass zp
  | zExpectAnyNoTTLBl => expect_blank "no blank before TTL" l zExpectAnyNoTTL zp
  | zExpectAnyNoTTL =>
      if value l =? zClass then take_class l zExpectRrtypeBl zp
      else if value l =? zRrtpe then take_type l zp
      else stop "expecting RR type or class, not this..." l zp
  | zExpectAnyNoClass =>
      if value l =? zString then take_ttl l zExpectRrtypeBl zp
      else if value l =? zRrtpe then take_type l zp
      else stop "expecting RR type or TTL, not this..." l zp
  | zExpectRrtypeBl => expect_blank "no blank before RR type" l zExpectRrtype zp
  | zExpectRrtype => if negb (value l =? zRrtpe) then stop "unknown RR type" l zp else take_type l zp
  | zExpectRdata => record_data l zp
  end.

(** ** Next *)

(** The loop over the tokens, to a return ([Some]) or to [subNext]; every token
    uses something up. *)
Fixpoint token_loop (fuel : nat) (st : zstate) (zp : ZoneParser) : res error (option (option RR) * ZoneParser) :=
  match fuel with
  | O => Diverge
  | S fuel =>
      let '(l, ok, z) := Next (zc zp) in
      let zp := set_c z zp in
      if negb ok then Ok (Some None, zp) else
      r ← on_token st l zp;
      match r with
      | Continue st zp => token_loop fuel st zp
      | Return rr zp => Ok (Some rr, zp)
      | Nested zp => Ok (None, zp)
      end
  end.

(** [Next] and [subNext]; the fuel bounds the calls of each other. *)
Fixpoint Zone_Next (fuel : nat) (zp : ZoneParser) : res error (option RR * ZoneParser) :=
  match fuel with
  | O => Diverge
  | S fuel =>
      match parseErr zp, sub zp with
      | Some _, _ => Ok (None, zp)
      | None, Some s =>
          '(rr, s) ← Zone_Next fuel s;
          let zp := set_sub (Some s) zp in
          match rr, Zone_Err s with
          | Some rr, _ => Ok (Some rr, zp)
          | None, Some _ => Ok (None, zp)
          | None, None => Zone_Next fuel (set_sub None zp)
          end
      | None, None =>
          '(rr, zp) ← token_loop (left_over (zc zp) + 1) zExpectOwnerDir zp;
          match rr with
          | Some rr => Ok (rr, zp)
          | None => Zone_Next fuel zp
          end
      end
  end.

(** [for rr, ok := zp.Next(); ok; rr, ok = zp.Next()]: the records and the error. *)
Fixpoint all_records (fuel : nat) (zp : ZoneParser) : res error (list RR * option read_error) :=
  match fuel with
  | O => Diverge
  | S n =>
      '(rr, zp) ← Zone_Next fuel zp;
      match rr with
      | None => Ok ([], Zone_Err zp)
      | Some rr => '(l, e) ← all_records n zp; Ok (rr :: l, e)
      end
  end.

(** [ReadRR] and [NewRR]. *)
Definition ReadRR (fuel : nat) (r : bytes) (e : option read_error) (file : bytes) : res error (option RR * option read_error) :=
  zp ← NewZoneParser r e (bs ".") file;
  '(rr, zp) ← Zone_Next fuel (SetIncludeAllowed true (SetDefaultTTL defaultTtl zp));
  Ok (rr, Zone_Err zp).
Definition NewRR (fuel : nat) (s : bytes) : res error (option RR * option read_error) :=
  ReadRR fuel (match last s with Some c => if c =b x0a then s else s ++ [x0a] | None => s end) None [].
End Zone.
