(* ===== verification/RecordCarry.v ===== *)
(** * Printed records are read back

    The text of a record as items of a line, field by field ([record_items]); what the
    [String] methods write is this line after the header, and the parse methods read
    the fields from it. *)

From S2P Require Import Prelude Go Utf8 Labels Escape Names NameDecode NameEncode NameLen Wire Codec Text NameCarry Encodings RData RR Ztypes Duplicate Dnssec Strconv Netip TimeText Types Lexer LexCarry Scan ScanRR NetipCarry Present PresentCarry SvcbText EdnsText Zone.

#[local] Open Scope string_scope.

(** ** Fields that can be printed *)

(** Letters, digits and the other characters of base64. *)
Definition key_char (c : byte) : bool :=
  isDigit c || ((65 <=? bval c) && (bval c <=? 90)) || ((97 <=? bval c) && (bval c <=? 122)) || (c =b x2b) || (c =b x2f) || (c =b x3d).
Definition key_text (s : bytes) : Prop := s <> [] /\ Forall (fun c => key_char c = true) s.
Definition hex_text (s : bytes) : Prop := Forall (fun c => is_hex c = true) s.

Definition text_field (t : ftag) (v : fval) : Prop :=
  match t, v with
  | F_uint8, V_int i => 0 <= i < 2 ^ 8
  | F_uint16, V_int i => 0 <= i < 2 ^ 16
  | F_uint32, V_int i => 0 <= i < 2 ^ 32
  | F_uint48, V_int i => 0 <= i < 2 ^ 48
  | F_uint64, V_int i => 0 <= i < 2 ^ 64
  | F_cname, V_str s | F_name, V_str s => exists ls, good_labels ls /\ s = show_name ls
  | F_string, V_str s | F_octet, V_str s => exists l, zlen l <= 255 /\ s = show_txt l
  | F_txts, V_strs l => exists ls, Forall (fun l => zlen l <= 255) ls /\ l = map show_txt ls
  | F_names, V_strs l => exists lss, Forall good_labels lss /\ l = map show_name lss
  | F_base64, V_str s | F_size_base32 _, V_str s | F_size_base64 _, V_str s => key_text s
  | F_hex, V_str s | F_size_hex _, V_str s => s <> [] /\ hex_text s
  | F_salt _, V_str s => hex_text s
  | F_nsec, V_types ts => Forall readable_type ts
  | F_a, V_str s => exists ip, zlen ip = 4 /\ (s = ip \/ s = v4InV6Prefix ++ ip)
  | F_aaaa, V_str s => zlen s = 16
  | _, _ => False
  end.
Fixpoint text_fields (sch : schema) (vs : list fval) : Prop :=
  match sch, vs with
  | [], [] => True
  | f :: sch, v :: vs => text_field f.2 v /\ text_fields sch vs
  | _, _ => False
  end.

(** The structs whose text is this simple. *)
Definition text_structs : list rrstruct :=
  [RR_A; RR_NS; RR_MD; RR_MF; RR_CNAME; RR_SOA; RR_MB; RR_MG; RR_MR; RR_PTR; RR_HINFO; RR_MINFO; RR_MX; RR_TXT; RR_RP; RR_AFSDB;
   RR_ISDN; RR_RT; RR_NSAPPTR; RR_KEY; RR_PX; RR_NXT; RR_EID; RR_NIMLOC; RR_SRV; RR_NAPTR; RR_KX; RR_DNAME; RR_DS; RR_SSHFP;
   RR_NSEC; RR_DNSKEY; RR_DHCID; RR_NSEC3; RR_NSEC3PARAM; RR_TLSA; RR_NINFO; RR_RKEY; RR_TALINK; RR_CDS; RR_CDNSKEY;
   RR_OPENPGPKEY; RR_CSYNC; RR_ZONEMD; RR_SPF; RR_UINFO; RR_UID; RR_GID; RR_L32; RR_LP; RR_URI; RR_CAA; RR_AVC; RR_RESINFO;
   RR_TA; RR_DLV; RR_AAAA; RR_NID; RR_L64; RR_EUI48; RR_EUI64; RR_RRSIG; RR_SIG; RR_CERT; RR_X25; RR_SMIMEA; RR_HIP].

(** Lengths are those of the strings; a tag and a number of X.25 are words; the type
    an RRSIG covers has a name that can be read; the data of an SMIMEA is printed in
    one piece. *)
Definition sizes_fit (k : rrstruct) (data : list fval) : Prop :=
  match k, data with
  | RR_NSEC3, [_; _; _; V_int n; V_str salt; V_int h; _; _] => zlen salt = 2 * n /\ n < 128 /\ h = 20
  | RR_NSEC3PARAM, [_; _; _; V_int n; V_str salt] => zlen salt = 2 * n
  | RR_HIP, [V_int n; _; V_int m; V_str hit; V_str pk; _] => zlen hit = 2 * n /\ n < 128 /\ exists key, fromBase64 pk = Ok key /\ zlen key = m
  | RR_CAA, [_; V_str tag; _] => key_text tag
  | RR_X25, [V_str s] => key_text s
  | RR_RRSIG, V_int t :: _ | RR_SIG, V_int t :: _ => readable_type t
  | RR_SMIMEA, [_; _; _; V_str s] => zlen s < 1024
  | _, _ => True
  end.
Definition text_data (k : rrstruct) (data : list fval) : Prop := k ∈ text_structs /\ text_fields (fields k) data /\ sizes_fit k data.

Section RecordCarry.
Context {casing : Casing} {floats : Floats} (now : Z).

(** ** The text of a record, from its schema *)

(** The structs that print hexadecimal digits in capitals. *)
Definition capitals (k : rrstruct) : bool :=
  match k with RR_DS | RR_DLV | RR_CDS | RR_TA | RR_SSHFP | RR_EID | RR_NIMLOC => true | _ => false end.

Definition number_text (k : rrstruct) (name : String.string) (t : ftag) (i : Z) : bytes :=
  match t, k with
  | F_uint48, _ => euiToString i 48
  | F_uint64, RR_NID => node_String false i
  | F_uint64, RR_L64 => node_String true i
  | F_uint64, _ => euiToString i 64
  | F_uint32, _ => if String.eqb name "Expiration" || String.eqb name "Inception" then TimeToString now i else Itoa i
  | F_uint16, RR_CERT => if String.eqb name "Type" then certtype i else Itoa i
  | F_uint16, _ => if String.eqb name "TypeCovered" then Type_String i else Itoa i
  | F_uint8, RR_CERT => algname i
  | _, _ => Itoa i
  end.
Definition string_text (k : rrstruct) (t : ftag) (s : bytes) : item :=
  match t with
  | F_string => match k with RR_CAA | RR_X25 => W s | _ => Q s end
  | F_octet => Q s
  | F_hex => W (if capitals k then map to_upper s else s)
  | F_salt _ => W (match s with [] => bs "-" | _ => map to_upper s end)
  | F_a => W (dotted (zdrop (zlen s - 4) s))
  | F_aaaa => W (aaaa_String s)
  | _ => W s
  end.
(** Lengths of other fields are not printed. *)
Definition is_length (name : String.string) : bool :=
  String.eqb name "SaltLength" || String.eqb name "HashLength" || String.eqb name "HitLength" || String.eqb name "PublicKeyLength".
Definition field_items (k : rrstruct) (name : String.string) (t : ftag) (v : fval) : list item :=
  match v with
  | V_int i => if is_length name then [] else [W (number_text k name t i)]
  | V_str s => [string_text k t s]
  | V_strs l => match t with F_names => map W l | _ => map Q l end
  | V_types ts => map W (map Type_String ts)
  | _ => []
  end.
Fixpoint fields_items (k : rrstruct) (sch : schema) (vs : list fval) : list item :=
  match sch, vs with
  | f :: sch, v :: vs => field_items k f.1 f.2 v ++ fields_items k sch vs
  | _, _ => []
  end.
Definition record_items (k : rrstruct) (data : list fval) : list item := fields_items k (fields k) data.

(** What is read: addresses in sixteen octets, digits in the letters that were printed. *)
Definition read_value (k : rrstruct) (t : ftag) (v : fval) : fval :=
  match t, v with
  | F_hex, V_str s => V_str (if capitals k then map to_upper s else s)
  | F_salt _, V_str s => V_str (map to_upper s)
  | F_a, V_str s => V_str (v4InV6Prefix ++ zdrop (zlen s - 4) s)
  | _, _ => v
  end.
Definition as_read (k : rrstruct) (data : list fval) : list fval := zip_with (fun f v => read_value k f.2 v) (fields k) data.

(** ** Words *)

Definition plain_text (s : bytes) : Prop := s <> [] /\ Forall (fun c => plain_char c = true) s.

Lemma text_word s : plain_text s -> word s.
Proof. intros [Hs H]. by apply plain_word. Qed.

Lemma key_facts c : key_char c = true -> plain_char c = true /\ is_ascii c.
Proof. unfold is_ascii. destruct c; intros H; try discriminate H; (split; [done|by vm_compute]). Qed.

Lemma hex_key c : is_hex c = true -> key_char c = true /\ key_char (to_upper c) = true.
Proof. destruct c; intros H; try discriminate H; done. Qed.

Lemma plain_key s : key_text s -> plain_text s.
Proof. intros [Hs H]. split; [done|]. eapply Forall_impl; [exact H|]. intros c Hc. by apply key_facts. Qed.

Lemma plain_digits s : s <> [] -> Forall (fun c => isDigit c = true) s -> plain_text s.
Proof. intros Hs H. split; [done|]. eapply Forall_impl; [exact H|]. intros c Hc. by apply digit_facts. Qed.

Lemma plain_Itoa i : 0 <= i -> plain_text (Itoa i).
Proof. intros Hi. destruct (Itoa_digits i Hi). by apply plain_digits. Qed.

Lemma hex_text_key s : hex_text s -> s <> [] -> key_text s /\ key_text (map to_upper s).
Proof.
  intros H Hs. split; (split; [by destruct s|]).
  - eapply Forall_impl; [exact H|]. intros c Hc. by apply hex_key.
  - apply Forall_fmap. eapply Forall_impl; [exact H|]. intros c Hc. by apply hex_key.
Qed.

Lemma plain_hex (b : bool) s : hex_text s -> s <> [] -> plain_text (if b then map to_upper s else s).
Proof. intros H Hs. destruct (hex_text_key s H Hs). destruct b; by apply plain_key. Qed.

Lemma plain_salt s : hex_text s -> plain_text (match s with [] => bs "-" | _ => map to_upper s end).
Proof. intros H. destruct s as [|c s]; [by split; [|repeat constructor]|]. by apply (plain_hex true). Qed.

Lemma hex_ToUpper s : hex_text s -> ToUpper s = map to_upper s.
Proof. intros H. apply ToUpper_ascii. eapply Forall_impl; [exact H|]. intros c Hc. by apply key_facts, hex_key. Qed.

Lemma plain_dotted ip : zlen ip = 4 -> plain_text (dotted ip).
Proof.
  intros Hl. destruct ip as [|a [|b [|c [|d [|? ?]]]]]; try done; [|unfold zlen in Hl; cbn [length] in Hl; lia].
  assert (forall v, Forall (fun c => plain_char c = true) (Itoa (bval v))) as Hi by (intros v; apply plain_Itoa; pose proof (bval_range v); lia).
  unfold dotted. cbn [map join]. split; [by destruct (Itoa (bval a))|]. repeat (apply Forall_app; split; [apply Hi|constructor; [done|]]). apply Hi.
Qed.

Lemma addr_plain s : Forall (fun c => addr_char c = true) s -> Forall (fun c => plain_char c = true) s.
Proof. intros H. eapply Forall_impl; [exact H|]. intros c Hc. destruct c; try discriminate Hc; done. Qed.

(** An address of sixteen octets is read back, an IPv4 address in it, too. *)
Lemma aaaa_read ip : zlen ip = 16 -> ParseIP (aaaa_String ip) = Some ip /\ contains_byte (aaaa_String ip) ch_colon = true /\ plain_text (aaaa_String ip).
Proof.
  intros Hl. assert (length ip = 16%nat) as Hn by (unfold zlen in Hl; lia). unfold aaaa_String, IP_String. rewrite Hl. cbn [Z.eqb Pos.eqb negb andb]. cbv iota.
  destruct (To4 ip) as [|b v4] eqn:E.
  - rewrite bool_decide_true by done. destruct (ParseIP_string6 ip Hn) as [H1 H2]. split_and!; [done|done|]. split; [by intros Hs; rewrite Hs in H1|]. apply addr_plain, string6_chars, Hn.
  - rewrite bool_decide_false by done. rewrite <- E. assert (ip = v4InV6Prefix ++ To4 ip /\ zlen (To4 ip) = 4) as [Hip H4].
    { revert E. unfold To4. rewrite Hl. cbn [Z.eqb Pos.eqb]. cbv iota. cbn [andb]. destruct (bool_decide (ztake 12 ip = v4InV6Prefix)) eqn:Eb; [|done]. intros _. apply bool_decide_eq_true in Eb.
      split; [rewrite <- Eb; symmetry; apply take_drop|unfold zlen, zdrop; rewrite length_drop, Hn; done]. }
    split_and!; [rewrite Hip at 2; by apply ParseIP_mapped|done|]. destruct (plain_dotted _ H4) as [_ Hp]. split; [done|]. apply Forall_app. split; [by repeat constructor|done].
Qed.

Lemma IP_String_4 s ip : zlen ip = 4 -> s = ip \/ s = v4InV6Prefix ++ ip -> IP_String s = dotted ip /\ zdrop (zlen s - 4) s = ip /\ zlen s <> 0.
Proof.
  intros Hl. destruct ip as [|a [|b [|c [|d [|? ?]]]]]; try done; [|unfold zlen in Hl; cbn [length] in Hl; lia]. by intros [-> | ->].
Qed.

Lemma plain_type t : readable_type t -> plain_text (Type_String t).
Proof. intros (Ht & _). destruct (Type_String_plain t ltac:(lia)). by split. Qed.
Lemma plain_certtype i : 0 <= i < 2 ^ 16 -> plain_text (certtype i).
Proof. intros Hi. destruct (named_spec CertTypeToString 16 i eq_refl Hi) as (_ & H1 & H2). by split. Qed.
Lemma plain_algname i : 0 <= i < 2 ^ 8 -> plain_text (algname i).
Proof. intros Hi. destruct (named_spec AlgorithmToString 8 i eq_refl Hi) as (_ & H1 & H2). by split. Qed.
Lemma plain_node upper i : 0 <= i < 2 ^ 64 -> plain_text (node_String upper i).
Proof. intros Hi. destruct (node_word upper i Hi). by split. Qed.
Lemma plain_eui48 i : 0 <= i < 2 ^ 48 -> plain_text (euiToString i 48).
Proof. intros Hi. destruct (eui48_word i Hi). by split. Qed.
Lemma plain_eui64 i : 0 <= i < 2 ^ 64 -> plain_text (euiToString i 64).
Proof. intros Hi. destruct (eui64_word i Hi). by split. Qed.
Lemma plain_time i : 0 <= now -> 0 <= i < 2 ^ 32 -> plain_text (TimeToString now i).
Proof. intros Hn Hi. destruct (StringToTime_TimeToString now i Hn Hi) as (_ & H1 & H2). by apply plain_digits. Qed.
Lemma plain_aaaa ip : zlen ip = 16 -> plain_text (aaaa_String ip).
Proof. intros H. by apply aaaa_read. Qed.

(** ** Printing *)

Lemma line_text_snoc i l j : line_text ((i :: l) ++ [j]) = line_text (i :: l) ++ [ch_space] ++ item_text j.
Proof.
  revert i. induction l as [|i2 l IH]; intros i; [done|]. change ((i :: i2 :: l) ++ [j]) with (i :: (i2 :: l) ++ [j]).
  change (line_text (i :: (i2 :: l) ++ [j])) with (item_text i ++ [ch_space] ++ line_text ((i2 :: l) ++ [j])). rewrite IH.
  change (line_text (i :: i2 :: l)) with (item_text i ++ [ch_space] ++ line_text (i2 :: l)). by rewrite <- !app_assoc.
Qed.

Lemma line_text_words a ws : line_text (W a :: map W ws) = a ++ concat (map (fun w => ch_space :: w) ws).
Proof.
  assert (forall ws i l, line_text ((i :: l) ++ map W ws) = line_text (i :: l) ++ concat (map (fun w => ch_space :: w) ws)) as H; [|apply (H ws (W a) [])].
  clear ws. induction ws as [|w ws IH]; intros i l; [by rewrite !app_nil_r|]. cbn [map concat]. rewrite cons_middle, app_assoc.
  change ((i :: l) ++ [W w]) with (i :: (l ++ [W w])). rewrite IH. change (i :: l ++ [W w]) with ((i :: l) ++ [W w]). rewrite line_text_snoc, <- !app_assoc. done.
Qed.
Lemma line_text_types a ts : line_text (W a :: map W (map Type_String ts)) = a ++ types_String ts.
Proof. rewrite line_text_words, map_map. done. Qed.

Lemma names_String_show lss : names_String (map show_name lss) = Ok (concat (map (fun w => ch_space :: w) (map show_name lss))).
Proof. induction lss as [|ls lss IH]; [done|]. cbn [map names_String]. rewrite sprintName_show, IH. done. Qed.

Lemma splitN_short s n : zlen s < n -> join [ch_space] (splitN s n) = s.
Proof. intros H. unfold splitN. by rewrite (proj2 (Z.ltb_lt _ _) H). Qed.

Lemma line_text_cons i j l : line_text (i :: j :: l) = item_text i ++ [ch_space] ++ line_text (j :: l).
Proof. done. Qed.

Lemma salt_text s : hex_text s -> saltToString s = match s with [] => bs "-" | _ => map to_upper s end.
Proof. intros H. unfold saltToString. destruct s; [done|]. by rewrite hex_ToUpper. Qed.

Lemma quotes_map ls : map Q (map show_txt ls) = quotes ls.
Proof. unfold quotes. by rewrite map_map. Qed.
End RecordCarry.

(** The schemas, computed. *)
Ltac schemas_in H :=
  cbv [fields A_fields NS_fields MD_fields MF_fields CNAME_fields SOA_fields MB_fields MG_fields MR_fields PTR_fields HINFO_fields MINFO_fields MX_fields TXT_fields RP_fields
    AFSDB_fields ISDN_fields RT_fields NSAPPTR_fields KEY_fields PX_fields NXT_fields EID_fields NIMLOC_fields SRV_fields NAPTR_fields KX_fields DNAME_fields DS_fields
    SSHFP_fields NSEC_fields DNSKEY_fields DHCID_fields NSEC3_fields NSEC3PARAM_fields TLSA_fields NINFO_fields RKEY_fields TALINK_fields CDS_fields CDNSKEY_fields
    OPENPGPKEY_fields CSYNC_fields ZONEMD_fields SPF_fields UINFO_fields UID_fields GID_fields L32_fields LP_fields URI_fields CAA_fields AVC_fields RESINFO_fields
    TA_fields DLV_fields AAAA_fields NID_fields L64_fields EUI48_fields EUI64_fields RRSIG_fields SIG_fields CERT_fields X25_fields SMIMEA_fields HIP_fields] in H.
Ltac list_items :=
  cbv [record_items as_read fields A_fields NS_fields MD_fields MF_fields CNAME_fields SOA_fields MB_fields MG_fields MR_fields PTR_fields HINFO_fields MINFO_fields MX_fields TXT_fields RP_fields
    AFSDB_fields ISDN_fields RT_fields NSAPPTR_fields KEY_fields PX_fields NXT_fields EID_fields NIMLOC_fields SRV_fields NAPTR_fields KX_fields DNAME_fields DS_fields
    SSHFP_fields NSEC_fields DNSKEY_fields DHCID_fields NSEC3_fields NSEC3PARAM_fields TLSA_fields NINFO_fields RKEY_fields TALINK_fields CDS_fields CDNSKEY_fields
    OPENPGPKEY_fields CSYNC_fields ZONEMD_fields SPF_fields UINFO_fields UID_fields GID_fields L32_fields LP_fields URI_fields CAA_fields AVC_fields RESINFO_fields
    TA_fields DLV_fields AAAA_fields NID_fields L64_fields EUI48_fields EUI64_fields RRSIG_fields SIG_fields CERT_fields X25_fields SMIMEA_fields HIP_fields];
  cbn [fields_items field_items number_text string_text is_length zip_with read_value fst snd orb capitals map app String.eqb Ascii.eqb Bool.eqb]; rewrite ?app_nil_r, ?quotes_map.

(** The fields of a record, one by one. *)
Ltac open_fields H :=
  lazymatch type of H with
  | text_fields [] ?d => destruct d; [clear H|destruct H]
  | text_fields (_ :: _) ?d =>
      let v := fresh "v" in let Hv := fresh "Hv" in
      destruct d as [|v d]; [destruct H|]; destruct H as [Hv H]; cbn [snd text_field] in Hv; destruct v; try (exfalso; exact Hv); open_fields H
  end.
Ltac open_values :=
  repeat match goal with
  | H : exists ls, good_labels ls /\ _ = show_name ls |- _ => destruct H as (? & ? & ->)
  | H : exists l, zlen l <= 255 /\ _ = show_txt l |- _ => destruct H as (? & ? & ->)
  | H : exists ls, Forall _ ls /\ _ = map show_txt ls |- _ => destruct H as (? & ? & ->)
  | H : exists ls, Forall _ ls /\ _ = map show_name ls |- _ => destruct H as (? & ? & ->)
  end.
Ltac open_record Hk Hf :=
  unfold text_structs in Hk; rewrite !elem_of_cons, elem_of_nil in Hk; destruct_or! Hk; try (exfalso; exact Hk); subst;
  schemas_in Hf; open_fields Hf; open_values.

Create HintDb lines discriminated.

Section RecordText.
Context {casing : Casing} {floats : Floats}.

Lemma record_String now k data Hdr h : text_data k data -> RR_Header_String Hdr = Ok h -> rr_data_String now k Hdr data = Ok (h ++ line_text (record_items now k data)).
Proof.
  intros (Hk & Hf & Hs) Hh. open_record Hk Hf; cbn [sizes_fit] in Hs.
  all: cbn [rr_data_String]; cbv delta [A_String NS_String MD_String MF_String CNAME_String SOA_String MB_String MG_String MR_String PTR_String HINFO_String MINFO_String MX_String TXT_String RP_String
    AFSDB_String ISDN_String RT_String NSAPPTR_String PX_String EID_String NIMLOC_String SRV_String NAPTR_String KX_String DNAME_String DS_String
    SSHFP_String NSEC_String DNSKEY_String DHCID_String NSEC3_String NSEC3PARAM_String TLSA_String NINFO_String RKEY_String TALINK_String
    OPENPGPKEY_String CSYNC_String ZONEMD_String SPF_String UINFO_String UID_String GID_String L32_String LP_String URI_String CAA_String AVC_String RESINFO_String TA_String
    AAAA_String NID_String L64_String EUI48_String EUI64_String RRSIG_String CERT_String X25_String SMIMEA_String HIP_String] beta;
    rewrite Hh; gosimp; rewrite ?sprintName_show, ?names_String_show; gosimp; rewrite ?sprintName_show; gosimp; rewrite ?sprintTxt_show, ?sprintTxt_two, ?sprintTxt_one, ?sprintTxtOctet_show; gosimp;
    f_equal; f_equal; list_items; rewrite ?line_text_cons, ?line_text_types, ?line_text_words.
  all: rewrite ?hex_ToUpper by (by destruct_and?); rewrite ?salt_text, ?splitN_short by done; try (by cbn [line_text item_text]; rewrite <- ?app_assoc).
  - destruct Hv as (ip & Hl & E). destruct (IP_String_4 s ip Hl E) as (-> & -> & Hz). by destruct (Z.eqb_spec (zlen s) 0).
  - destruct Hv0 as (ip & Hl & E). destruct (IP_String_4 s ip Hl E) as (-> & -> & Hz). by destruct (Z.eqb_spec (zlen s) 0).
Qed.

(** ** Reading *)

(** The line does not start like the data of an unknown type. *)
Definition known (l : list item) : Prop := head l <> Some (W (bs "\#")).

Lemma known_plain s l : plain_text s -> known (W s :: l).
Proof. intros [_ H] [= ->]. by apply Forall_cons in H as [H _]. Qed.
Lemma known_name ls l : known (W (show_name ls) :: l).
Proof. intros [= E]. pose proof (show_name_last ls) as H. by rewrite E in H. Qed.
Lemma known_quotes ls : known (quotes ls).
Proof. by destruct ls. Qed.
Lemma known_quote s l : known (Q s :: l).
Proof. done. Qed.

Lemma types_ok ts : Forall readable_type ts -> Forall item_ok (map W (map Type_String ts)).
Proof. intros H. apply Forall_fmap, Forall_fmap. eapply Forall_impl; [exact H|]. intros t Ht. by apply Type_String_word. Qed.

Lemma names_ok_items lss : Forall item_ok (map W (map show_name lss)).
Proof. apply Forall_fmap, Forall_fmap, Forall_true. intros ls. apply show_name_word. Qed.

Lemma quotes_ok ls : Forall item_ok (quotes ls).
Proof. apply Forall_fmap, Forall_true. intros l. apply show_txt_quotable. Qed.

Hint Resolve show_name_word text_word show_txt_quotable types_ok names_ok_items quotes_ok known_plain known_name known_quotes known_quote : lines.
Hint Resolve plain_key plain_Itoa plain_salt plain_dotted plain_type plain_certtype plain_algname plain_node plain_eui48 plain_eui64 plain_time plain_aaaa : lines.
Hint Extern 2 (_ <= _) => lia : lines.

Lemma record_items_ok now k data : 0 <= now -> text_data k data -> Forall item_ok (record_items now k data) /\ known (record_items now k data).
Proof.
  intros Hnow (Hk & Hf & Hs). open_record Hk Hf; cbn [sizes_fit] in Hs; destruct_and?; list_items.
  all: repeat match goal with H : exists ip, zlen ip = 4 /\ _ |- _ => let E := fresh in destruct H as (? & ? & E); destruct (IP_String_4 _ _ ltac:(eassumption) E) as (_ & -> & _) end.
  all: repeat match goal with H : ?s <> [] , H2 : hex_text ?s |- _ => destruct (hex_text_key s H2 H); clear H end.
  all: split; [repeat (apply Forall_cons; split); try apply Forall_nil; cbn [item_ok]; eauto with lines|eauto with lines].
Qed.

Abbreviation newline := ((zNewline, [x0a]) : Z * bytes).
Abbreviation space := ((zBlank, [ch_space]) : Z * bytes).

Lemma toks_last a : line_toks [W a] = [(zString, a); newline].
Proof. done. Qed.
Lemma toks_word a j l : line_toks (W a :: j :: l) = (zString, a) :: space :: line_toks (j :: l).
Proof. done. Qed.
Lemma toks_quote a j l : line_toks (Q a :: j :: l) = item_toks (Q a) ++ space :: line_toks (j :: l).
Proof. done. Qed.

Lemma toks_words a ws : line_toks (W a :: map W ws) = (zString, a) :: concat (map (fun w => [space; (zString, w)]) ws) ++ [newline].
Proof. revert a. induction ws as [|w ws IH]; intros a; [done|]. cbn [map concat]. rewrite toks_word, IH. done. Qed.
Lemma toks_types a ts : line_toks (W a :: map W (map Type_String ts)) = (zString, a) :: concat (map (fun t => [space; (zString, Type_String t)]) ts) ++ [newline].
Proof. by rewrite toks_words, map_map. Qed.

Lemma gets_last_string {A} msg (f : bytes -> P A) s b : gets (f s) [] b -> gets (endingToString msg ≫= f) [space; (zString, s); newline] b.
Proof. apply (gets_ending msg f s [space; (zString, s)]). by right. Qed.
Lemma gets_only_string {A} msg (f : bytes -> P A) s b : gets (f s) [] b -> gets (endingToString msg ≫= f) [(zString, s); newline] b.
Proof. apply (gets_ending msg f s [(zString, s)]). by left. Qed.

Lemma gets_one_quote {A} msg (f : list bytes -> P A) l b : zlen l <= 255 -> gets (f [show_txt l]) [] b -> gets (endingToTxtSlice msg ≫= f) (line_toks [Q (show_txt l)]) b.
Proof. intros Hl H. apply (gets_strings msg f [l]); [by constructor|done]. Qed.
Lemma gets_two_quotes {A} msg (f : list bytes -> P A) l1 l2 b : zlen l1 <= 255 -> zlen l2 <= 255 -> gets (f [show_txt l1; show_txt l2]) [] b ->
  gets (endingToTxtSlice msg ≫= f) (item_toks (Q (show_txt l1)) ++ space :: line_toks [Q (show_txt l2)]) b.
Proof. intros H1 H2 H. apply (gets_strings msg f [l1; l2]); [by repeat constructor|done]. Qed.
Lemma gets_token {A} msg (f : bytes -> P A) s ts b : s <> [] -> gets (f s) ts b -> gets (token_field msg ≫= f) ((zString, s) :: ts) b.
Proof.
  intros Hs H. apply (gets_bind _ _ [(zString, s)] ts s); [|done]. apply gets_next. intros l (_ & T & R). rewrite T, R, bool_decide_false by done. apply gets_ret.
Qed.

(** The salt: a dash for none. *)
Definition shown_salt (s : bytes) : bytes := match s with [] => bs "-" | _ => map to_upper s end.
Lemma shown_salt_read f s n : hex_text s -> zlen s = 2 * n -> f (2 * n) = n -> shown_salt s <> [] /\
  (if negb (bool_decide (shown_salt s = bs "-")) then (f (zlen (shown_salt s)), shown_salt s) else (0, [])) = (n, map to_upper s).
Proof.
  intros H Hz Hf. destruct s as [|c s].
  - assert (n = 0) as -> by (change (zlen []) with 0 in Hz; lia). by split.
  - split; [done|]. cbn [shown_salt]. rewrite bool_decide_false; cbn [negb].
    + f_equal. rewrite <- Hf, <- Hz. f_equal. unfold zlen. by rewrite length_map.
    + apply Forall_cons in H as [Hc _]. intros E. injection E as E _. destruct c; try discriminate Hc; discriminate E.
Qed.

(** The next field. *)
Ltac read_field :=
  cbv beta iota delta [orb];
  lazymatch goal with
  | |- gets (mbind _ blank) _ _ => apply gets_blank
  | |- gets (mbind _ (name_field _ _)) _ _ => apply gets_name; [assumption|]
  | |- gets (mbind _ (uint_field _ _)) _ _ => apply gets_uint; [split; assumption|]
  | |- gets (mbind _ (uint_token _ _)) _ _ => apply gets_uint_token; [split; assumption|]
  | |- gets (mbind _ (soa_number _)) _ _ => apply gets_soa; [split; assumption|]
  | |- gets (mbind _ (algorithm_field _)) _ _ => apply gets_algorithm; [split; assumption|]
  | |- gets (mbind _ (time_field _)) _ _ => apply gets_time; [assumption|split; assumption|]
  | |- gets (mbind _ (mnemonic StringToCertType _ _)) _ _ => apply (gets_mnemonic CertTypeToString); [reflexivity|split; assumption|]
  | |- gets (mbind _ (mnemonic StringToAlgorithm _ _)) _ _ => apply (gets_mnemonic AlgorithmToString); [reflexivity|split; assumption|]
  | |- gets (mbind _ slurpRemainder) _ _ => apply gets_slurp
  | |- gets (mbind _ (endingToString _)) [_; _; _] _ => apply gets_last_string
  | |- gets (mbind _ (endingToString _)) [_; _] _ => apply gets_only_string
  | |- gets (mbind _ (types_field _)) _ _ => apply gets_types; [assumption|]
  | |- gets (mbind _ (naptr_string _)) _ _ => apply gets_naptr
  | |- gets (mbind _ (endingToTxtSlice _)) (line_toks (quotes _)) _ => apply gets_strings; [assumption|]
  | |- gets (mbind _ (endingToTxtSlice _)) (line_toks [_]) _ => apply gets_one_quote; [assumption|]
  | |- gets (mbind _ (endingToTxtSlice _)) (_ ++ _) _ => apply gets_two_quotes; [assumption..|]
  | |- gets (mbind _ (one_string _ _)) _ _ => apply gets_one_string; [assumption|]
  | |- gets (mret _) [] _ => apply gets_ret
  end.

Lemma RRSIG_read now o t alg labels ttl exp inc tag ls sig : 0 <= now -> readable_type t -> 0 <= alg < 2 ^ 8 -> 0 <= labels < 2 ^ 8 -> 0 <= ttl < 2 ^ 32 ->
  0 <= exp < 2 ^ 32 -> 0 <= inc < 2 ^ 32 -> 0 <= tag < 2 ^ 16 -> good_labels ls ->
  gets (RRSIG_parse o) (line_toks [W (Type_String t); W (Itoa alg); W (Itoa labels); W (Itoa ttl); W (TimeToString now exp); W (TimeToString now inc); W (Itoa tag); W (show_name ls); W sig])
    [V_int t; V_int alg; V_int labels; V_int ttl; V_int exp; V_int inc; V_int tag; V_str (show_name ls); V_str sig].
Proof.
  intros Hnow Ht Ha Hl Httl He Hi Htag Hls. unfold RRSIG_parse. rewrite ?toks_word, ?toks_last. apply gets_next. intros l (_ & T & _). rewrite T. cbn [snd].
  assert ((match number_of StringToType (ToUpper (Type_String t)) with Some t => Some t
    | None => if has_prefix (ToUpper (Type_String t)) (bs "TYPE") then typeToInt (Type_String t) else None end) = Some t) as ->.
  { destruct (Type_String_names t Ht) as [-> | (-> & -> & ->)]; done. }
  apply gets_blank, gets_next. intros l2 (_ & T2 & R2). rewrite T2, R2. cbn [snd]. rewrite (ParseUint_Itoa alg 8 Ha). destruct_and!. repeat read_field.
Qed.

Lemma HIP_read o n alg m hit pk key lss : 0 <= n < 128 -> zlen hit = 2 * n -> hit <> [] -> 0 <= alg < 2 ^ 8 -> 0 <= m < 2 ^ 16 -> pk <> [] -> fromBase64 pk = Ok key -> zlen key = m -> Forall good_labels lss ->
  gets (HIP_parse o) (line_toks (W (Itoa alg) :: W hit :: W pk :: map W (map show_name lss))) [V_int n; V_int alg; V_int m; V_str hit; V_str pk; V_strs (map show_name lss)].
Proof.
  intros Hn Hz Hh Ha Hm Hpk Hkey Hk Hls. unfold HIP_parse. rewrite !toks_word, toks_words. destruct_and!. read_field. read_field.
  apply gets_next. intros l (_ & T & R). rewrite T, R, (bool_decide_false _ Hh). cbn [orb snd]. read_field.
  apply gets_next. intros l2 (_ & T2 & R2). rewrite T2, R2, (bool_decide_false _ Hpk). cbn [orb snd]. rewrite Hkey, Hk, (Z.mod_small m) by lia.
  assert (zlen hit mod 256 / 2 = n) as -> by (rewrite Hz, Z.mod_small, Z.mul_comm by lia; by apply Z.div_mul).
  rewrite map_map. eapply (gets_next_loop _ [] (map show_name lss)); [|intros l3; apply gets_ret].
  rewrite <- (map_map show_name (fun w => [space; (zString, w)])). apply (folds_words id _ (map show_name lss) []); [intros s l3 z (V & _ & _); by rewrite V|].
  apply Forall_fmap. eapply Forall_impl; [exact Hls|]. intros ls Hl s l3 z (V & T3 & R3). rewrite V, T3. cbn [fst snd id]. change (zString =? zString) with true. cbv iota.
  unfold look, lift, mbind, P_bind. rewrite (toAbsoluteName_good ls o Hl). cbn. by rewrite R3.
Qed.

Lemma record_parse now k o data : 0 <= now -> text_data k data -> gets (rr_parse k o) (line_toks (record_items now k data)) (as_read k data).
Proof.
  intros Hnow (Hk & Hf & Hs). open_record Hk Hf; cbn [sizes_fit] in Hs; destruct_and?; list_items.
  all: repeat match goal with H : exists ip, zlen ip = 4 /\ _ |- _ => let E := fresh in destruct H as (? & ? & E); destruct (IP_String_4 _ _ ltac:(eassumption) E) as (_ & -> & _) end.
  all: cbn [rr_parse]; cbv delta [A_parse NS_parse MD_parse MF_parse CNAME_parse SOA_parse MB_parse MG_parse MR_parse PTR_parse HINFO_parse MINFO_parse MX_parse TXT_parse RP_parse
    AFSDB_parse ISDN_parse RT_parse NSAPPTR_parse PX_parse EID_parse NIMLOC_parse SRV_parse NAPTR_parse KX_parse DNAME_parse DS_parse KEY_parse NXT_parse CDS_parse CDNSKEY_parse DLV_parse
    SSHFP_parse NSEC_parse DNSKEY_parse DHCID_parse NSEC3_parse NSEC3PARAM_parse TLSA_parse NINFO_parse RKEY_parse TALINK_parse parseDNSKEY parseDS
    OPENPGPKEY_parse CSYNC_parse ZONEMD_parse SPF_parse UINFO_parse UID_parse GID_parse L32_parse LP_parse URI_parse CAA_parse AVC_parse RESINFO_parse TA_parse
    AAAA_parse NID_parse L64_parse EUI48_parse EUI64_parse CERT_parse X25_parse SMIMEA_parse] beta;
    rewrite ?toks_types, ?toks_word, ?toks_quote, ?toks_types, ?toks_last; repeat read_field.
  - apply gets_next. intros l (_ & T & R). rewrite T. cbn [snd]. destruct (ParseIP_dotted x ltac:(assumption)) as [-> ->]. rewrite R. repeat read_field.
  - fold (shown_salt s). destruct (shown_salt_read (fun z => z mod 256 / 2) s i2) as [Hn Hr]; [assumption|assumption|rewrite Z.mod_small, Z.mul_comm by lia; by apply Z.div_mul|].
    apply gets_token; [exact Hn|]. rewrite Hr. read_field. match goal with H : key_text s0 |- _ => destruct H end. apply gets_token; [assumption|]. subst. repeat read_field.
  - fold (shown_salt s). destruct (shown_salt_read (fun z => z / 2 mod 256) s i2) as [Hn Hr]; [assumption|assumption| |].
    { rewrite Z.mul_comm, Z.div_mul by done. by apply Z.mod_small. }
    apply gets_next. intros l (_ & T & R). rewrite T. cbn [snd]. rewrite Hr. repeat read_field.
  - apply gets_next. intros l (_ & T & R). rewrite T. cbn [snd]. destruct (ParseIP_dotted x ltac:(assumption)) as [-> _]. rewrite R. repeat read_field.
  - apply gets_next. intros l (_ & T & R). rewrite T. cbn [snd]. rewrite ParseUint_Itoa by (split; assumption). rewrite R. repeat read_field.
  - apply gets_next. intros l (V & T & R). rewrite V, T. cbn [snd fst]. change (negb (zString =? zString)) with false. cbv iota zeta. repeat read_field.
  - apply gets_next. intros l (_ & T & R). rewrite T. cbn [snd]. destruct (aaaa_read s ltac:(assumption)) as (-> & -> & _). rewrite R. cbn [negb orb]. repeat read_field.
  - apply gets_next. intros l (_ & T & R). rewrite (node_read false i0 l), R by done. eapply (gets_bind _ _ []); [apply gets_ret|]. repeat read_field.
  - apply gets_next. intros l (_ & T & R). rewrite (node_read true i0 l), R by done. eapply (gets_bind _ _ []); [apply gets_ret|]. repeat read_field.
  - apply gets_next. intros l (_ & T & R). rewrite T, R. cbn [snd]. rewrite eui48_read by done. repeat read_field.
  - apply gets_next. intros l (_ & T & R). rewrite T, R. cbn [snd]. destruct (eui64_read i) as (E1 & E2 & E3); [done|]. rewrite E1, E2, E3. cbn [negb orb Z.eqb Pos.eqb]. repeat read_field.
  - by apply RRSIG_read.
  - by apply RRSIG_read.
  - apply gets_next. intros l (_ & T & R). rewrite T, R. repeat read_field.
  - match goal with H : key_text s0, H2 : exists key, _ |- _ => destruct H, H2 as (key & ? & ?) end. by eapply HIP_read.
Qed.
End RecordText.
