(* ===== verification/ScanSafe.v ===== *)
(** * Reading records never panics

    The rule [fits]: a parse function on a lexer ends, without panic, with an
    error or a result that has a property, and the lexer has not grown.  The
    rules for the helpers of Scan.v and for the parse method of every struct. *)

From S2P Require Import Prelude Go Utf8 Labels Escape Names NameEncode NameLen NameDecode Wire Codec NameCarry Encodings Apl Edns Svcb RData RR Safety Ztypes Dnssec Strconv Netip TimeText Types Lexer LexCarry Scan ScanRR SvcbText.

(** ** Numbers of the tables *)

Lemma number_of_Forall (Q : Z -> Prop) m s t : Forall (fun e => Q e.2) m -> number_of m s = Some t -> Q t.
Proof.
  unfold number_of. destruct (list_find _ m) as [[i [s' t']]|] eqn:E; [|done]. intros H [= <-].
  apply list_find_Some in E as (E & _). by apply (Forall_lookup_1 _ _ _ _ H E).
Qed.

Definition in_range (n t : Z) : bool := (0 <=? t) && (t <? n).
Lemma number_of_range n m s t : forallb (fun e => in_range n e.2) m = true -> number_of m s = Some t -> 0 <= t < n.
Proof.
  intros H. apply (number_of_Forall (fun t => 0 <= t < n)).
  rewrite List.forallb_forall in H. apply Forall_forall. intros e He. apply list_elem_of_In in He. specialize (H e He).
  unfold in_range in H. lia.
Qed.

Lemma StringToType_range s t : number_of StringToType s = Some t -> u16 t.
Proof. apply number_of_range. vm_compute. reflexivity. Qed.
Lemma StringToClass_range s t : number_of StringToClass s = Some t -> u16 t.
Proof. apply number_of_range. vm_compute. reflexivity. Qed.
Lemma StringToCertType_range s t : number_of StringToCertType s = Some t -> u16 t.
Proof. apply number_of_range. vm_compute. reflexivity. Qed.
Lemma StringToAlgorithm_range s t : number_of StringToAlgorithm s = Some t -> u8 t.
Proof. apply number_of_range. vm_compute. reflexivity. Qed.

Lemma digit_val_nonneg c d : digit_val c = Some d -> 0 <= d.
Proof.
  unfold digit_val, isDigit. destruct (_ && _) eqn:E; [intros [= <-]; lia|]. destruct (_ && _) eqn:E2 in |- *; [|done]. intros [= <-]. lia.
Qed.

Lemma parse_digits_range base bits s : forall n v, 0 <= base -> 0 <= n < 2 ^ bits ->
  fold_left (parse_digit base bits) s (Some n) = Some v -> 0 <= v < 2 ^ bits.
Proof.
  induction s as [|c s IH]; intros n v Hb Hn H; cbn [fold_left] in H; [by injection H as <-|].
  assert (fold_left (parse_digit base bits) s None = None) as Hnone by (clear; induction s; done).
  destruct (parse_digit base bits (Some n) c) as [n'|] eqn:E; [|congruence]. apply (IH n'); [done| |done].
  unfold parse_digit, mbind, option_bind in E. destruct (digit_val c) as [d|] eqn:Ed; [|done]. apply digit_val_nonneg in Ed.
  destruct (base <=? d); [done|]. cbv zeta in E. destruct (Z.leb_spec (2 ^ bits) (n * base + d)); [done|]. injection E as <-. nia.
Qed.

Lemma ParseUint_range s base bits v : 0 <= base -> 0 <= bits -> ParseUint s base bits = Some v -> 0 <= v < 2 ^ bits.
Proof.
  intros Hb Hbits. unfold ParseUint. destruct s; [done|]. apply parse_digits_range; [done|].
  pose proof (Z.pow_pos_nonneg 2 bits). lia.
Qed.

Lemma number_after_range o tok v : number_after o tok = Some v -> u16 v.
Proof. unfold number_after. destruct (_ <? _); [done|]. intros H. by apply ParseUint_range in H. Qed.

Lemma type_of_token_range u tok t : type_of_token u tok = Some t -> u16 t.
Proof.
  unfold type_of_token. destruct (number_of _ u) as [t'|] eqn:E; [intros [= <-]; by eapply StringToType_range|]. apply number_after_range.
Qed.

Section Tokens.
Context {casing : Casing}.

(** ** Tokens *)

(** A string is not empty, and the number of a type or class has 16 bits. *)
Definition token_fine (l : lex) : Prop := (value l = zString -> token l <> []) /\ u16 (torc l).
Definition lexer_fine (z : zlexer) : Prop := token_fine (zl_l z) /\ forall c, cachedL z = Some c -> token_fine c.

Lemma no_lex_fine : token_fine no_lex.
Proof. split; [done|]. unfold u16. cbn. lia. Qed.

Lemma put_fine v t z : token_fine (zl_l z) -> (v = zString -> t <> []) -> token_fine (zl_l (put v t z)).
Proof. intros [_ H] Hv. by split. Qed.
Lemma put_err_fine t z : token_fine (zl_l z) -> t <> [] -> token_fine (zl_l (put_err t z)).
Proof. intros [_ H] Hv. by split. Qed.
Lemma put_torc_fine v t z : v <> zString -> u16 t -> token_fine (zl_l (put_torc v t z)).
Proof. intros Hv Ht. by split. Qed.

Lemma lookup_type_fine z : token_fine (zl_l z) -> match lookup_type z with inl z' | inr z' => token_fine (zl_l z') end.
Proof.
  intros H. unfold lookup_type. destruct (number_of _ _) as [t|] eqn:E; [by apply put_torc_fine, (StringToType_range _ _ E)|].
  destruct (has_prefix _ _); [|done]. destruct (typeToInt _) as [t|] eqn:Et; [|by apply put_err_fine].
  by apply put_torc_fine, (number_after_range _ _ _ Et).
Qed.
Lemma lookup_class_fine tok z : token_fine (zl_l z) -> match lookup_class tok z with inl z' | inr z' => token_fine (zl_l z') end.
Proof.
  intros H. unfold lookup_class. destruct (number_of _ _) as [t|] eqn:E; [by apply put_torc_fine, (StringToClass_range _ _ E)|].
  destruct (has_prefix _ _); [|done]. destruct (classToInt _) as [t|] eqn:Et; [|by apply put_err_fine].
  by apply put_torc_fine, (number_after_range _ _ _ Et).
Qed.
Lemma lookup_word_fine z : token_fine (zl_l z) -> match lookup_word z with inl z' | inr z' => token_fine (zl_l z') end.
Proof.
  intros H. unfold lookup_word. destruct (rrtype z); [done|]. pose proof (lookup_type_fine z H) as H1. destruct (lookup_type z); [|done].
  by apply lookup_class_fine.
Qed.

Lemma owner_value_not_string tok : owner_value tok <> zString.
Proof. unfold owner_value. by repeat case_bool_decide. Qed.

Definition blank_fine (r : zlexer * option lex + zlexer) : Prop :=
  match r with
  | inl (z, o) => token_fine (zl_l z) /\ match o with Some l => token_fine l | None => True end
  | inr z => token_fine (zl_l z)
  end.
Lemma before_blank_fine z t : token_fine (zl_l z) -> blank_fine (before_blank z t).
Proof.
  intros H. unfold before_blank. destruct (str t) as [|c s]; [done|]. destruct (owner z).
  - assert (token_fine (zl_l (put (owner_value (c :: s)) (c :: s) z))) by (by apply put_fine). done.
  - pose proof (lookup_word_fine (put zString (c :: s) z)) as Hw. destruct (lookup_word _); [split; apply Hw|apply Hw]; by apply put_fine.
Qed.

(** What one octet gives. *)
Definition step_fine (r : (zlexer * scan) + (lex * bool * zlexer)) : Prop :=
  match r with inl (z, _) => token_fine (zl_l z) | inr (l, _, z) => token_fine l /\ token_fine (zl_l z) end.

Lemma on_blank_fine z t x : token_fine (zl_l z) -> step_fine (on_blank z t x).
Proof.
  intros H. unfold on_blank. destruct (escape t || quote z); [done|]. destruct (commt z); [done|].
  pose proof (before_blank_fine z t H) as Hb. destruct (before_blank z t) as [[z1 o]|z1]; [|by split].
  destruct Hb as [H1 Ho]. destruct (space (set_owner false z1)); [by destruct o|].
  assert (token_fine (zl_l (put zBlank [ch_space] (set_space true (set_owner false z1))))) by (by apply put_fine).
  by destruct o.
Qed.

Lemma on_newline_fine z t x : token_fine (zl_l z) -> step_fine (on_newline z t x).
Proof.
  intros H. unfold on_newline. destruct (quote z); [done|]. destruct (commt z).
  { cbn [brace set_commt set_rrtype]. destruct (brace z =? 0); [|done]. assert (token_fine (zl_l (put zNewline [x0a] z))) by (by apply put_fine). by split. }
  destruct (brace z =? 0); [|done]. cbv zeta. change (str (unescape t)) with (str t).
  destruct (str t) as [|c s].
  - assert (token_fine (zl_l (put zNewline [x0a] z))) by (by apply put_fine). by split.
  - assert (token_fine (zl_l (put zString (c :: s) z))) as Hp by (by apply put_fine). cbn [rrtype put set_l] in *. destruct (rrtype z).
    + split; [done|]. by apply (put_fine zNewline [x0a] z).
    + destruct (number_of _ _) as [ty|] eqn:E; [|split; [done|by apply (put_fine zNewline [x0a] z)]].
      apply StringToType_range in E. split; cbn; by split.
Qed.

Lemma on_quote_fine z t x : token_fine (zl_l z) -> step_fine (on_quote z t x).
Proof.
  intros H. unfold on_quote. destruct (commt z); [done|]. destruct (escape t); [done|]. destruct (str t) as [|c s].
  - assert (token_fine (zl_l (put zQuote [ch_quote] z))) by (by apply put_fine). by split.
  - assert (token_fine (zl_l (put zString (c :: s) z))) by (by apply put_fine). split; [done|]. by apply (put_fine zQuote [ch_quote] z).
Qed.

Lemma lex_step_fine z t x : token_fine (zl_l z) -> step_fine (lex_step z t x).
Proof.
  intros H. unfold lex_step. assert (token_fine (zl_l (put_place z))) as H0 by done. revert H0. generalize (put_place z) as z0. clear z H. intros z0 H0.
  set (t0 := if com_cap t <=? _ then _ else t). clearbody t0.
  destruct (_ || _); [by apply on_blank_fine|]. destruct (_ =b _).
  { unfold on_semicolon. destruct (escape t0 || quote z0); [done|]. destruct (_ && _).
    - assert (token_fine (zl_l (put_err (bs "comment length insufficient for parsing") (set_comBuf [] (set_commt true z0))))) by (by apply put_err_fine). by split.
    - match goal with |- step_fine (match str ?t1 with [] => _ | _ => _ end) => generalize t1 end. intros t1.
      destruct (str t1) as [|c s]; [done|]. split; by apply (put_fine zString (c :: s) z0). }
  destruct (_ =b _); [done|]. destruct (_ =b _); [by apply on_newline_fine|].
  destruct (_ =b _). { unfold on_backslash. by destruct (commt z0), (escape t0). }
  destruct (_ =b _); [by apply on_quote_fine|].
  destruct (_ || _).
  { unfold on_brace. destruct (commt z0); [done|]. destruct (escape t0 || quote z0); [done|]. destruct (_ =b _); [|done]. destruct (_ <? _); [|done].
    assert (token_fine (zl_l (put_err (bs "extra closing brace") (set_brace (brace z0 - 1) z0)))) by (by apply put_err_fine). by split. }
  unfold on_other. by destruct (commt z0).
Qed.

Lemma lex_end_fine z t : token_fine (zl_l z) -> let '(l, _, z') := lex_end z t in token_fine l /\ token_fine (zl_l z').
Proof.
  intros H. unfold lex_end. destruct (br_err z); [split; [apply no_lex_fine|done]|].
  assert (forall z1, token_fine (zl_l z1) -> token_fine (zl_l (put zNewline [x0a] z1))) as Hn by (intros; by apply put_fine).
  destruct (str t) as [|c s].
  - destruct (com t); [|split; by apply Hn]. destruct (negb _); [|split; [apply no_lex_fine|done]]. split; by apply put_err_fine.
  - assert (token_fine (zl_l (put zString (c :: s) z))) as Hp by (by apply put_fine). destruct (com t); [done|]. split; [done|]. by apply (Hn z).
Qed.

Lemma lex_loop_fine r : forall z t, token_fine (zl_l z) -> let '(l, _, z') := lex_loop r z t in token_fine l /\ token_fine (zl_l z').
Proof.
  induction r as [|x r IH]; intros z t H; cbn [lex_loop]; [by apply lex_end_fine|].
  pose proof (lex_step_fine (take_byte x r z) t x H) as Hs. destruct (lex_step _ _ _) as [[z1 t1]|[[l ok] z1]]; [by apply IH|exact Hs].
Qed.

Lemma lex_loop_cached r : forall z t, cachedL (lex_loop r z t).2 = cachedL z.
Proof.
  induction r as [|x r IH]; intros z t; cbn [lex_loop].
  - unfold lex_end. destruct (br_err _); [done|]. destruct (str t), (com t); try done. by destruct (negb _).
  - pose proof (lex_step_steady (take_byte x r z) t x) as Hs. destruct (lex_step _ _ _) as [[z1 t1]|[[l1 ok] z1]].
    + transitivity (cachedL z1); [apply IH|]. by destruct Hs as [(_ & _ & ? & _) _].
    + by destruct Hs as (_ & _ & ? & _).
Qed.

Lemma lex_end_false z t l z' : lex_end z t = (l, false, z') -> z' = z /\ l = no_lex.
Proof.
  unfold lex_end. destruct (br_err z); [by intros [= <- <-]|].
  destruct (str t), (com t); try done. destruct (negb _); [done|]. by intros [= <- <-].
Qed.

Lemma lex_loop_false r : forall z t l z', lex_loop r z t = (l, false, z') -> at_end z' = true /\ l = no_lex /\
  (nextL z = false -> nextL z' = false) /\ cachedL z' = cachedL z.
Proof.
  induction r as [|x r IH]; intros z t l z' H; cbn [lex_loop] in H.
  - apply lex_end_false in H as [-> ->]. done.
  - pose proof (lex_step_steady (take_byte x r z) t x) as Hs. destruct (lex_step _ _ _) as [[z1 t1]|[[l1 ok] z1]] eqn:E.
    + apply IH in H as (H1 & H2 & H3 & H4). destruct Hs as [(_ & _ & E3 & _) E4]. split_and!; try done; [|by rewrite H4, E3].
      intros Hn. apply H3. by rewrite E4.
    + exfalso. injection H as -> -> ->. revert E. unfold lex_step, on_blank, on_semicolon, on_newline, on_backslash, on_quote, on_brace, on_other, go, give_l, give.
      repeat case_match; congruence.
Qed.

(** One token: the lexer does not grow, and shrinks when there is one. *)
Definition next_fine (z : zlexer) (r : lex * bool * zlexer) : Prop :=
  let '(l, ok, z') := r in
  token_fine l /\ lexer_fine z' /\ (left_over z' <= left_over z)%nat /\
  (if ok then (left_over z' < left_over z)%nat else l = no_lex).

Lemma Next_fine z : lexer_fine z -> next_fine z (Next z).
Proof.
  intros [Hl Hc]. destruct (Next z) as [[l ok] z'] eqn:E.
  assert (token_fine l /\ lexer_fine z') as [H1 H2].
  { revert E. unfold Next. destruct (cachedL z) as [c|] eqn:Ec.
    { intros [= <- <- <-]. split; [by apply Hc|]. by split. }
    destruct (nextL z); [intros [= <- <- <-]; split; [done|]; split; [done|]; intros c'; cbn; by rewrite Ec|].
    destruct (err (zl_l z)). { intros [= <- <- <-]. split; [apply no_lex_fine|]. split; [done|]. intros c'. by rewrite Ec. }
    set (z0 := set_comment _ _). intros E. assert (token_fine l /\ token_fine (zl_l z') /\ cachedL z' = None) as (? & ? & Hn).
    { change (at_end z0) with (at_end z) in E. destruct (at_end z).
      - pose proof (lex_end_fine z0 (MkScan [] (ztake maxTok (comBuf z)) maxTok false) Hl) as H. rewrite E in H. destruct H as [? ?]. split_and!; [done|done|].
        revert E. unfold lex_end. destruct (br_err z0); [by intros [= <- <- <-]|]. destruct (str _), (com _); try destruct (negb _); intros [= <- <- <-]; done.
      - pose proof (lex_loop_fine (br z0) z0 (MkScan [] (ztake maxTok (comBuf z)) maxTok false) Hl) as H.
        pose proof (lex_loop_cached (br z0) z0 (MkScan [] (ztake maxTok (comBuf z)) maxTok false)) as Hk. rewrite E in H, Hk. destruct H as [? ?].
        split_and!; [done|done|]. cbn [snd] in Hk. by rewrite Hk. }
    split; [done|]. split; [done|]. intros c'. by rewrite Hn. }
  split_and!; [done|done| |]; destruct ok.
  - apply Next_progress in E. lia.
  - revert E. unfold Next. destruct (cachedL z) as [c|] eqn:Ec; [done|]. destruct (nextL z) eqn:En; [done|].
    destruct (err (zl_l z)) eqn:Er; [by intros [= _ <-]|]. set (z0 := set_comment _ _). change (at_end z0) with (at_end z).
    destruct (at_end z) eqn:Ea; intros E.
    + apply lex_end_false in E as [-> ->]. unfold left_over, z0. cbn. rewrite Ea. cbn. rewrite Ec, En. cbn. destruct (decide (comBuf z = [])), (decide (@nil byte = [])); cbn; by try lia.
    + apply lex_loop_false in E as (E1 & E2 & E3 & E4). unfold left_over. rewrite E1, E4, (E3 En). change (cachedL z0) with (cachedL z).
      rewrite Ea, Ec, En. pose proof (b2n_le (err (zl_l z'))). cbn. destruct (decide (comBuf z' = [])), (decide (comBuf z = [])); cbn; lia.
  - by apply Next_progress in E.
  - revert E. unfold Next. destruct (cachedL z) as [c|]; [done|]. destruct (nextL z); [done|].
    destruct (err (zl_l z)); [by intros [= <- _]|]. destruct (at_end _); intros E; [by apply lex_end_false in E as [_ ->]|].
    by apply lex_loop_false in E as (_ & -> & _).
Qed.

Lemma left_over_cached c z : (left_over (set_cachedL c z) <= left_over z + 1)%nat.
Proof.
  unfold left_over. cbn [at_end br comBuf nextL cachedL zl_l set_cachedL]. pose proof (b2n_le (bool_decide (c <> None))). lia.
Qed.
Lemma left_over_next b z : (left_over (set_nextL b z) <= left_over z + 1)%nat.
Proof. unfold left_over. cbn [at_end br comBuf nextL cachedL zl_l set_nextL]. pose proof (b2n_le b). lia. Qed.

Lemma Peek_fine z : lexer_fine z -> let '(l, z') := Peek z in token_fine l /\ lexer_fine z' /\ (left_over z' <= left_over z)%nat.
Proof.
  intros H. unfold Peek. destruct (nextL z) eqn:En; [destruct H as [H1 H2]; by split|].
  pose proof (Next_fine z H) as Hn. destruct (Next z) as [[l ok] z'] eqn:E. destruct Hn as (Hl & Hz & Hle & Hok). destruct ok; [|by split].
  destruct (nextL z') eqn:En'.
  - split; [done|]. split; [split; [exact (proj1 Hz)|intros c; cbn; by intros [= <-]]|]. pose proof (left_over_cached (Some l) z'). lia.
  - split; [done|]. split; [done|]. pose proof (left_over_next true z'). lia.
Qed.
End Tokens.

(** ** The rules *)

Definition fits {casing : Casing} {A} (Q : A -> Prop) (p : P A) : Prop := forall z, lexer_fine z ->
  ensures (p z) (fun '(a, z') => Q a /\ lexer_fine z' /\ (left_over z' <= left_over z)%nat) (fun _ => True).

Section Rules.
Context {casing : Casing}.

Lemma fits_mono {A} (Q Q' : A -> Prop) p : fits Q p -> (forall a, Q a -> Q' a) -> fits Q' p.
Proof. intros H HQ z Hz. eapply ensures_mono; [by apply H| |done]. intros [a z'] (? & ? & ?). split; [by apply HQ|done]. Qed.

Lemma fits_ret {A} (Q : A -> Prop) a : Q a -> fits Q (mret a).
Proof. intros H z Hz. split; [done|]. split; [done|lia]. Qed.

Lemma fits_bad {A} (Q : A -> Prop) msg l : fits Q (bad msg l).
Proof. done. Qed.

Lemma fits_bind {A B} (Q : A -> Prop) (R : B -> Prop) p (f : A -> P B) : fits Q p -> (forall a, Q a -> fits R (f a)) -> fits R (p ≫= f).
Proof.
  intros Hp Hf z Hz. unfold mbind, P_bind. eapply ensures_bind_via; [by apply Hp|]. intros [a z1] (Ha & Hz1 & Hl).
  eapply ensures_mono; [by apply Hf| |done]. intros [b z2] (? & ? & ?). split; [done|]. split; [done|lia].
Qed.

Lemma fits_look {A} (Q : A -> Prop) r : ensures r Q (fun _ => True) -> fits Q (look r).
Proof. intros H z Hz. unfold look, lift. by destruct r. Qed.

Lemma fits_next : fits token_fine next.
Proof.
  intros z Hz. unfold next. pose proof (Next_fine z Hz) as H. destruct (Next z) as [[l ok] z']. destruct H as (? & ? & ? & _). done.
Qed.

Lemma fits_blank : fits always blank.
Proof. eapply fits_bind; [apply fits_next|]. intros l _. by apply fits_ret. Qed.

Lemma fits_slurp : fits always slurpRemainder.
Proof.
  eapply fits_bind; [apply fits_next|]. intros l _. destruct (_ =? _).
  - eapply fits_bind; [apply fits_next|]. intros l' _. destruct (_ && _); [apply fits_bad|by apply fits_ret].
  - destruct (_ || _); [by apply fits_ret|apply fits_bad].
Qed.

Lemma fits_until {S} (I : S -> Prop) (step : S -> lex -> P S) : (forall s l, I s -> token_fine l -> fits I (step s l)) ->
  forall fuel s l z, I s -> token_fine l -> lexer_fine z ->
  (left_over z + 1 < fuel \/ (0 < fuel /\ l = no_lex))%nat ->
  ensures (until_newline fuel step s l z) (fun '(r, z') => (I r.1 /\ token_fine r.2) /\ lexer_fine z' /\ (left_over z' <= left_over z)%nat) (fun _ => True).
Proof.
  intros Hs. induction fuel as [|fuel IH]; intros s l z HI Hl Hz Hf; [lia|]. cbn [until_newline].
  destruct (_ || _) eqn:E; [split; [done|]; split; [done|lia]|].
  assert (left_over z + 1 < Datatypes.S fuel)%nat as Hlt by (destruct Hf as [?|[_ ->]]; [lia|done]).
  unfold mbind, P_bind. eapply ensures_bind_via; [by apply Hs|]. intros [s1 z1] (HI1 & Hz1 & Hl1). unfold next.
  pose proof (Next_fine z1 Hz1) as Hn. destruct (Next z1) as [[l1 ok] z2]. destruct Hn as (Ht & Hz2 & Hle & Hok).
  change (ensures (until_newline fuel step s1 l1 z2) (fun '(r, z') => (I r.1 /\ token_fine r.2) /\ lexer_fine z' /\ (left_over z' <= left_over z)%nat) (fun _ => True)).
  eapply ensures_mono; [apply (IH s1 l1 z2); [done|done|done|destruct ok; [left; lia|right; split; [lia|done]]]| |done].
  intros [r z'] (? & ? & ?). split; [done|]. split; [done|lia].
Qed.

Lemma fits_line_loop {S} (I : S -> Prop) (step : S -> lex -> P S) s l : (forall s l, I s -> token_fine l -> fits I (step s l)) ->
  I s -> token_fine l -> fits (fun r => I r.1 /\ token_fine r.2) (line_loop step s l).
Proof. intros Hs HI Hl z Hz. unfold line_loop. eapply ensures_mono; [apply (fits_until I); [done..|left; lia]| |done]. by intros [r z']. Qed.

End Rules.

(** One step of straight-line code; [head] proves what a call gives. *)
Ltac fits_step head :=
  lazymatch goal with
  | |- fits _ (mret _) => apply fits_ret
  | |- fits _ (bad _ _) => apply fits_bad
  | |- fits _ (mbind _ _) => eapply fits_bind; [head|intros ? ?; cbv beta in *]
  | |- fits _ (let _ := _ in _) => cbv zeta
  | |- fits _ (match ?x with _ => _ end) => destruct x eqn:?
  end.

Section Helpers.
Context {casing : Casing}.

(** ** Helpers *)

Definition never {E} (e : E) : Prop := False.

Lemma isname_step_fine s st : 0 <= is_i st ->
  ensures (isname_step s st)
    (fun r => match r with inl st' => 0 <= is_i st' /\ (zlen s - is_i st' < zlen s - is_i st) /\ is_i st < zlen s | inr _ => True end) never.
Proof.
  intros H. unfold isname_step. cbv zeta. destruct (negb _) eqn:E; [exact I|]. assert (is_i st < zlen s) as Hi by lia.
  destruct (zget_Some s (is_i st) ltac:(lia)) as [c ->]. gosimp. destruct (c =b ch_bslash).
  - destruct (256 <? _); [exact I|]. unfold from. rewrite slice_Some by lia. gosimp. destruct (isDDD _); cbn; lia.
  - destruct (c =b ch_dot); [|cbn; lia]. destruct (_ && _); [exact I|]. destruct (is_wasDot st); [exact I|].
    destruct (64 <=? _); [exact I|]. destruct (256 <? _); [exact I|]. cbn. lia.
Qed.

Lemma IsDomainName_fine s : ensures (IsDomainName s) (fun _ => True) never.
Proof.
  unfold IsDomainName. destruct (decide _); [exact I|]. generalize (Fqdn s). intros t.
  apply (loop_ensures (fun st => 0 <= is_i st) (fun st => Z.to_nat (zlen t - is_i st))); [|done|cbn; unfold zlen; lia].
  intros st Hst. eapply ensures_mono; [by apply isname_step_fine| |done]. intros [st'|r] Hr; [|done]. split; [lia|]. lia.
Qed.

Lemma toAbsoluteName_fine name origin : ensures (toAbsoluteName name origin) (fun _ => True) never.
Proof.
  unfold toAbsoluteName. destruct (bool_decide _); [exact I|]. destruct (bool_decide _); [exact I|]. pose proof (IsDomainName_fine name) as H.
  destruct (IsDomainName name) as [[n ok]| | |]; try done. cbn. destruct (_ || _); [exact I|]. destruct (IsFqdn name); [exact I|].
  by destruct (bool_decide _).
Qed.
Lemma toAbsoluteName_returns name origin : returns (toAbsoluteName name origin).
Proof. eapply ensures_mono; [apply toAbsoluteName_fine|done..]. Qed.

Lemma fits_name_field msg o : fits always (name_field msg o).
Proof.
  eapply fits_bind; [apply fits_next|]. intros l _. eapply fits_bind; [apply fits_look, toAbsoluteName_returns|]. intros [n|] _; [|apply fits_bad].
  destruct (err l); [apply fits_bad|by apply fits_ret].
Qed.

Lemma fits_uint msg bits : 0 <= bits -> fits (fun i => 0 <= i < 2 ^ bits) (uint_field msg bits).
Proof.
  intros Hb. eapply fits_bind; [apply fits_next|]. intros l _. destruct (ParseUint _ _ _) as [i|] eqn:E; [|apply fits_bad].
  destruct (err l); [apply fits_bad|]. apply fits_ret. eapply ParseUint_range; [| |exact E]; lia.
Qed.

Lemma fits_uint_token msg bits : 0 <= bits -> fits (fun i => 0 <= i < 2 ^ bits) (uint_token msg bits).
Proof.
  intros Hb. eapply fits_bind; [apply fits_next|]. intros l _. destruct (ParseUint _ _ _) as [i|] eqn:E; [|apply fits_bad].
  apply fits_ret. eapply ParseUint_range; [| |exact E]; lia.
Qed.

Lemma fits_line {S} (step : S -> lex -> P S) s l : (forall s l, token_fine l -> fits always (step s l)) -> token_fine l ->
  fits always (line_loop step s l).
Proof. intros Hs Hl. eapply fits_mono; [apply (fits_line_loop always); auto|done]. done. Qed.

Lemma fits_ending errstr : fits always (endingToString errstr).
Proof.
  eapply fits_bind; [apply fits_next|]. intros l Hl. eapply fits_bind; [apply fits_line; [|done]|intros [s l'] _; by apply fits_ret].
  intros s l1 _. destruct (err l1); [apply fits_bad|]. destruct (_ =? _); [by apply fits_ret|]. destruct (_ =? _); [by apply fits_ret|apply fits_bad].
Qed.

Lemma fits_types msg : fits always (types_field msg).
Proof.
  eapply fits_bind; [apply fits_next|]. intros l Hl. eapply fits_bind; [apply fits_line; [|done]|intros [s l'] _; by apply fits_ret].
  intros s l1 _. destruct (_ =? _); [by apply fits_ret|]. destruct (_ =? _); [|apply fits_bad]. destruct (type_of_token _ _); [by apply fits_ret|apply fits_bad].
Qed.

(** The offset in a string with escapes: past [i], and in the string. *)
Lemma escaped_offset_fine s : forall fuel i current desired, 0 <= i <= zlen s -> (Z.to_nat (zlen s - i) < fuel)%nat ->
  ensures (escaped_offset fuel s i current desired) (fun r => forall j, r = Some j -> j = -1 \/ i < j <= zlen s) (fun _ => True).
Proof.
  induction fuel as [|fuel IH]; intros i current desired Hi Hf; [lia|]. cbn [escaped_offset]. destruct (negb _) eqn:E; [intros j [= <-]; by left|].
  destruct (zget_Some s i ltac:(lia)) as [c ->]. gosimp. cbv zeta.
  assert (forall j, i < j <= zlen s -> ensures (if desired <=? current + 1 then Ok (Some j) else escaped_offset fuel s j (current + 1) desired)
    (fun r => forall j, r = Some j -> j = -1 \/ i < j <= zlen s) (fun _ => True)) as Hnext.
  { intros j Hj. destruct (_ <=? _); [intros ? [= <-]; by right|]. eapply ensures_mono; [apply IH; lia| |done].
    intros r Hr k Hk. destruct (Hr k Hk); [by left|right; lia]. }
  assert (zlen (zdrop (i + 1) s) = zlen s - (i + 1)) as Hz by (apply zlen_zdrop; lia).
  destruct (negb (c =b ch_bslash)); [apply Hnext; lia|].
  destruct (isDDD (zdrop (i + 1) s)) eqn:Ed.
  - apply Hnext. assert (3 <= zlen (zdrop (i + 1) s)); [|lia]. destruct (zdrop (i + 1) s) as [|x [|y [|w r]]]; try done. unfold zlen. cbn [length]. lia.
  - destruct (Z.ltb_spec (zlen (zdrop (i + 1) s)) 1); [by intros j|]. apply Hnext. lia.
Qed.

Lemma escapedStringOffset_fine s : ensures (escapedStringOffset s 255) (fun r => forall j, r = Some j -> j = -1 \/ 0 < j <= zlen s) (fun _ => True).
Proof.
  unfold escapedStringOffset. change (255 =? 0) with false. cbn iota. pose proof (zlen_nonneg s).
  apply escaped_offset_fine; [lia|]. unfold zlen in *. lia.
Qed.

Lemma split_255_returns tok : forall fuel p, 0 <= p <= zlen tok -> (Z.to_nat (zlen tok - p) < fuel)%nat -> returns (split_255 fuel tok p).
Proof.
  induction fuel as [|fuel IH]; intros p Hp Hf; [lia|]. cbn [split_255]. unfold returns. eapply ensures_bind_via; [apply escapedStringOffset_fine|].
  intros [i|] Hi; [|done]. destruct (_ && _) eqn:E; [|done]. specialize (Hi i eq_refl). rewrite zlen_zdrop in Hi by lia.
  rewrite slice_Some by lia. gosimp. eapply ensures_bind_via; [apply (IH (p + i)); lia|]. by intros [l|] _.
Qed.

Lemma fits_txt errstr : fits always (endingToTxtSlice errstr).
Proof.
  eapply fits_bind; [apply fits_next|]. intros l Hl. destruct (err l); [apply fits_bad|].
  eapply fits_bind; [apply fits_line; [|done]|intros [[[s q] e] l'] _; destruct q; [apply fits_bad|by apply fits_ret]].
  intros [[s q] e] l1 _. unfold txt_token. destruct (err l1); [apply fits_bad|].
  destruct (_ =? _). { eapply fits_bind; [apply fits_look, split_255_returns; unfold zlen; lia|]. intros [sx|] _; [by apply fits_ret|apply fits_bad]. }
  destruct (_ =? _); [destruct q; [apply fits_bad|by apply fits_ret]|]. destruct (_ =? _); [by apply fits_ret|apply fits_bad].
Qed.

Lemma stringToCm_returns tok : tok <> [] -> returns (stringToCm tok).
Proof.
  intros H. unfold stringToCm. assert (1 <= zlen tok) by (destruct tok; [done|]; rewrite zlen_cons; pose proof (zlen_nonneg tok); lia).
  destruct (zget_Some tok (zlen tok - 1) ltac:(lia)) as [c ->]. gosimp. unfold returns. repeat (case_match; try done).
Qed.

Lemma fits_node l : fits (fun v => 0 <= v < 2 ^ 64) (stringToNodeID l).
Proof.
  unfold stringToNodeID. cbv zeta. destruct (_ <? _); [apply fits_bad|]. destruct (_ && _); [apply fits_bad|].
  destruct (ParseUint _ _ _) as [u|] eqn:E; [|apply fits_bad]. apply fits_ret. eapply ParseUint_range; [| |exact E]; lia.
Qed.

Lemma stringToTTL_range tok v : stringToTTL tok = Some v -> u32 v.
Proof.
  unfold stringToTTL, mbind, option_bind. destruct (fold_left _ _ _) as [[s i]|]; [|done]. destruct (Z.ltb_spec (2 ^ 32 - 1) ((s + i) mod 2 ^ 64)); [done|].
  intros [= <-]. unfold u32. pose proof (Z.mod_pos_bound (s + i) (2 ^ 64) ltac:(lia)). lia.
Qed.

Lemma lor_byte_range a b : 0 <= a < 256 -> 0 <= b < 256 -> 0 <= Z.lor a b < 256.
Proof.
  intros Ha Hb. rewrite <- (Z.mod_small a (2 ^ 8)), <- (Z.mod_small b (2 ^ 8)) by lia. rewrite <- !Z.land_ones, <- Z.land_lor_distr_l, Z.land_ones by lia.
  apply Z.mod_pos_bound. lia.
Qed.
End Helpers.
