(* ===== verification/ParseSafe.v ===== *)
(** * The parse method of every struct is safe

    It ends, without panic, with an error or with values of the types of the
    struct's fields, and the lexer has not grown. *)

From S2P Require Import Prelude Go Utf8 Labels Escape Names NameDecode NameEncode NameLen Wire Codec NameCarry Encodings Apl Edns Svcb RData RR Safety Ztypes Dnssec Strconv Netip TimeText Types Lexer LexCarry Scan ScanRR Present SvcbText EdnsText Generate Zone ScanSafe.

#[local] Open Scope string_scope.

Create HintDb fits.
#[export] Hint Extern 0 (0 <= _) => lia : fits.
#[export] Hint Resolve fits_next fits_blank fits_slurp fits_name_field fits_uint fits_uint_token fits_ending fits_txt fits_types fits_node : fits.

(** The values have the types of the fields. *)
Definition typed_data (k : rrstruct) (vs : list fval) : Prop := Forall2 (fun f v => has_type f.2 v) (fields k) vs.

Ltac typed :=
  unfold typed_data; cbn [fields];
  repeat (apply Forall2_cons; split); [..|apply Forall2_nil; exact I];
  cbn [snd has_type]; try exact I; unfold u8, u16, u32, u48, u64, always in *; simpl in *; lia.

Ltac parses := repeat fits_step ltac:(solve [eauto with fits]).

Section Methods.
Context {casing : Casing} {floats : Floats}.

(** ** Fields *)

Lemma fits_soa serial : fits u32 (soa_number serial).
Proof.
  unfold soa_number. parses; unfold u32.
  - eapply ParseUint_range; [| |eassumption]; lia.
  - by eapply stringToTTL_range.
Qed.

Lemma fits_naptr msg : fits always (naptr_string msg).
Proof. unfold naptr_string. by parses. Qed.

Lemma fits_token msg : fits always (token_field msg).
Proof. unfold token_field. by parses. Qed.

Lemma fits_string_token msg : fits always (string_token msg).
Proof. unfold string_token. by parses. Qed.

Lemma fits_float msg : fits always (float_field msg).
Proof. unfold float_field. by parses. Qed.

Lemma fits_one msg l : fits always (one_string msg l).
Proof. unfold one_string. by parses. Qed.

Lemma fits_time msg : fits u32 (time_field msg).
Proof.
  unfold time_field. parses; unfold u32.
  - match goal with H : StringToTime _ = _ |- _ => unfold StringToTime, mbind, option_bind in H; destruct (parse_time _); [|done]; injection H as <- end.
    apply Z.mod_pos_bound. lia.
  - eapply ParseUint_range; [| |eassumption]; lia.
Qed.

Lemma fits_cert_type msg : fits u16 (mnemonic StringToCertType msg 16).
Proof.
  unfold mnemonic. parses; [by eapply StringToCertType_range|]. unfold u16.
  match goal with H : ParseUint _ _ _ = _ |- _ => apply ParseUint_range in H; [|lia..] end. lia.
Qed.

Lemma ParseUint_8 s i : ParseUint s 10 8 = Some i -> u8 i.
Proof. intros H. apply ParseUint_range in H; [|lia..]. unfold u8. lia. Qed.

Lemma fits_cert_alg msg : fits u8 (mnemonic StringToAlgorithm msg 8).
Proof. unfold mnemonic. parses; [by eapply StringToAlgorithm_range|by eapply ParseUint_8]. Qed.

Lemma fits_algorithm msg : fits u8 (algorithm_field msg).
Proof. unfold algorithm_field. parses; [by eapply ParseUint_8|by eapply StringToAlgorithm_range]. Qed.

Lemma parseAddrHostUnion_returns tok o t : returns (parseAddrHostUnion tok o t).
Proof.
  unfold parseAddrHostUnion. destruct (_ =? _); [done|]. destruct (_ || _); [done|]. destruct (_ =? _); [|done].
  unfold returns. eapply ensures_bind_via; [apply toAbsoluteName_returns|]. by intros [h|] _.
Qed.

Lemma fits_gateway msg o t : fits always (gateway_field msg o t).
Proof.
  unfold gateway_field. eapply fits_bind; [apply fits_next|]. intros l _. destruct (err l); [apply fits_bad|].
  eapply fits_bind; [apply fits_look, parseAddrHostUnion_returns|]. intros [g|] _; [by apply fits_ret|apply fits_bad].
Qed.
End Methods.

#[export] Hint Resolve fits_soa fits_naptr fits_token fits_string_token fits_float fits_one fits_time fits_cert_type fits_cert_alg fits_algorithm fits_gateway : fits.

Section Records.
Context {casing : Casing} {floats : Floats}.

(** ** LOC, HIP, RRSIG, APL *)

Lemma angle_mod v : 0 <= v mod 2 ^ 32 < 2 ^ 32.
Proof. apply Z.mod_pos_bound. lia. Qed.

Definition check_fine (check : bytes -> Z -> Z * bool) : Prop := forall t v, 0 <= v < 2 ^ 32 -> 0 <= (check t v).1 < 2 ^ 32.
Lemma locCheckNorth_fine : check_fine locCheckNorth.
Proof. intros t v H. unfold locCheckNorth. pose proof angle_mod. repeat case_match; cbn; auto. Qed.
Lemma locCheckEast_fine : check_fine locCheckEast.
Proof. intros t v H. unfold locCheckEast. pose proof angle_mod. repeat case_match; cbn; auto. Qed.

Lemma fits_angle max check deg min sec dir : check_fine check -> fits u32 (loc_angle max check deg min sec dir).
Proof.
  intros Hc. unfold loc_angle.
  parses; unfold u32; match goal with H : check ?t ?v = (?v', _) |- _ => pose proof (Hc t v (angle_mod _)) as Hr; rewrite H in Hr; exact Hr end.
Qed.

Lemma land_byte_range a b : 0 <= b < 256 -> 0 <= Z.land a b < 256.
Proof.
  intros Hb. rewrite <- (Z.mod_small b (2 ^ 8)) by lia. rewrite <- Z.land_ones, Z.land_assoc, Z.land_ones by lia. apply Z.mod_pos_bound. lia.
Qed.

Definition sizes_fine (st : Z * list Z) : Prop := zlen st.2 = 3 /\ Forall u8 st.2.
Lemma fits_sizes st l : sizes_fine st -> token_fine l -> fits sizes_fine (loc_size st l).
Proof.
  intros [Hz Hu] [Hl _]. destruct st as [count sizes]. cbn [snd] in *. unfold loc_size. destruct (value l =? zString) eqn:E.
  - destruct (count <=? 2); [|apply fits_ret; by split]. eapply fits_bind; [apply fits_look, stringToCm_returns, Hl; lia|].
    intros [[e m]|] _; [|apply fits_bad]. apply fits_ret. split; cbn [snd]; [by rewrite zlen_zset|].
    unfold zset. apply Forall_insert; [done|]. apply lor_byte_range; apply land_byte_range; lia.
  - destruct (value l =? zBlank); [apply fits_ret; by split|apply fits_bad].
Qed.

Lemma LOC_fits o : fits (typed_data RR_LOC) (LOC_parse o).
Proof.
  unfold LOC_parse. eapply fits_bind; [apply fits_angle, locCheckNorth_fine|]. intros lat Hlat. eapply fits_bind; [apply fits_blank|]. intros _ _.
  eapply fits_bind; [apply fits_angle, locCheckEast_fine|]. intros lon Hlon. eapply fits_bind; [apply fits_blank|]. intros _ _.
  eapply fits_bind; [apply fits_next|]. intros l _. destruct (bool_decide _ || _) eqn:E; [apply fits_bad|].
  apply orb_false_iff in E as [E _]. apply bool_decide_eq_false in E.
  assert (1 <= zlen (token l)) by (destruct (token l); [done|]; rewrite zlen_cons; pose proof (zlen_nonneg l0); lia).
  destruct (zget_Some (token l) (zlen (token l) - 1) ltac:(lia)) as [c ->].
  eapply fits_bind; [by apply (fits_look always)|]. intros c' _. cbv zeta. destruct (loc_altitude _) as [alt|] eqn:Ea; [|apply fits_bad].
  apply loc_altitude_range in Ea.
  eapply fits_bind; [apply fits_next|]. intros l1 Hl1. eapply fits_bind; [apply (fits_line_loop sizes_fine); [apply fits_sizes| |done]|].
  - split; [done|]. cbn. repeat (apply Forall_cons; split); [unfold u8; lia..|by apply Forall_nil].
  - intros [[count sizes] l2] [[Hz Hu] _]. cbn [fst snd] in *. destruct sizes as [|a [|b [|c0 [|? ?]]]]; try done; [|exfalso; unfold zlen in Hz; cbn in Hz; lia].
    apply fits_ret. inversion_clear Hu as [|? ? Ha Hu']. inversion_clear Hu' as [|? ? Hb Hu'']. inversion_clear Hu'' as [|? ? Hc _]. typed.
Qed.

Lemma HIP_fits o : fits (typed_data RR_HIP) (HIP_parse o).
Proof.
  unfold HIP_parse. eapply fits_bind; [apply fits_uint; lia|]. intros alg Halg. eapply fits_bind; [apply fits_blank|]. intros _ _.
  eapply fits_bind; [apply fits_next|]. intros l _. destruct (_ || _); [apply fits_bad|]. cbv zeta.
  eapply fits_bind; [apply fits_blank|]. intros _ _. eapply fits_bind; [apply fits_next|]. intros l1 _. destruct (_ || _); [apply fits_bad|].
  destruct (fromBase64 _) as [pk| | |]; try apply fits_bad. eapply fits_bind; [apply fits_next|]. intros l2 Hl2.
  eapply fits_bind; [apply fits_line; [|done]|].
  - intros xs l3 _. destruct (_ =? _).
    + eapply fits_bind; [apply fits_look, toAbsoluteName_returns|]. intros [n|] _; [|apply fits_bad]. destruct (err l3); [apply fits_bad|by apply fits_ret].
    + destruct (_ =? _); [by apply fits_ret|apply fits_bad].
  - intros r _. apply fits_ret. pose proof (Z.mod_pos_bound (zlen (token l)) 256 ltac:(lia)). pose proof (Z.mod_pos_bound (zlen pk) 65536 ltac:(lia)).
    assert (0 <= zlen (token l) mod 256 / 2 < 256) by (split; [apply Z.div_pos; lia|apply Z.div_lt_upper_bound; lia]). typed.
Qed.

Lemma RRSIG_fits o : fits (typed_data RR_RRSIG) (RRSIG_parse o).
Proof.
  unfold RRSIG_parse. eapply fits_bind; [apply fits_next|]. intros l _. cbv zeta.
  destruct (match number_of StringToType _ with Some _ => _ | None => _ end) as [t|] eqn:Et; [|apply fits_bad].
  assert (u16 t).
  { destruct (number_of _ _) as [t'|] eqn:E in Et; [injection Et as <-; by eapply StringToType_range|]. destruct (has_prefix _ _); [|done].
    by eapply number_after_range. }
  eapply fits_bind; [apply fits_blank|]. intros _ _. eapply fits_bind; [apply fits_next|]. intros l1 _. destruct (err l1); [apply fits_bad|].
  destruct (match ParseUint _ _ _ with Some _ => _ | None => _ end) as [a|] eqn:Ea; [|apply fits_bad].
  assert (u8 a).
  { destruct (ParseUint _ _ _) as [a'|] eqn:E in Ea; [injection Ea as <-; by eapply ParseUint_8|]. by eapply StringToAlgorithm_range. }
  parses. typed.
Qed.

Lemma APL_fits o : fits (typed_data RR_APL) (APL_parse o).
Proof.
  unfold APL_parse. eapply fits_bind; [apply fits_next|]. intros l Hl. eapply fits_bind; [apply fits_line; [|done]|].
  - intros s l1 _. unfold apl_token. destruct (_ && _); [by apply fits_ret|]. destruct (negb _); [apply fits_bad|].
    eapply (fits_bind always); [|intros p _; by apply fits_ret]. unfold apl_prefix. by parses.
  - intros r _. apply fits_ret. typed.
Qed.

(** ** SVCB *)

Lemma nextByte_fine s p : 0 <= p -> ensures (nextByte s p) (fun r => 0 <= r.2) (fun _ => True).
Proof.
  intros Hp. unfold nextByte. destruct (Z.leb_spec (zlen s) p); [cbn; lia|]. destruct (zget_Some s p ltac:(lia)) as [c ->]. gosimp.
  destruct (negb _); [cbn; lia|]. cbv zeta. destruct (Z.eqb_spec (zlen s - p) 1); [cbn; lia|].
  destruct ((4 <=? zlen s - p) && isDDD (zdrop (p + 1) s)) eqn:E.
  - unfold dddToByte. destruct (zdrop (p + 1) s) as [|x [|y [|w r]]]; cbn in E; try (rewrite andb_false_r in E; done). cbn. lia.
  - destruct (zget_Some s (p + 1) ltac:(lia)) as [c1 ->]. cbn. lia.
Qed.

Lemma alpn_loop_returns b : forall fuel p alpn a, 0 <= p -> (Z.to_nat (zlen b - p) < fuel)%nat -> returns (alpn_loop fuel b p alpn a).
Proof.
  induction fuel as [|fuel IH]; intros p alpn a Hp Hf; [lia|]. cbn [alpn_loop]. destruct (negb _) eqn:E; [destruct a; exact I|].
  unfold returns in *. eapply ensures_bind_via; [by apply nextByte_fine|]. intros [c q] Hq. cbn [snd] in Hq. destruct (Z.eqb_spec q 0); [done|]. cbv zeta.
  destruct (c =b ch_comma); [destruct a; [done|apply IH; lia]|].
  destruct (c =b ch_bslash); [|apply IH; lia].
  eapply ensures_bind_via; [apply nextByte_fine; lia|]. intros [dc dq] Hdq. cbn [snd] in Hdq. destruct (Z.eqb_spec dq 0); [done|]. destruct (_ && _); [done|].
  apply IH; lia.
Qed.

Lemma parse_param_returns : forall fuel b d, (length b <= fuel)%nat -> returns (parse_param fuel b d).
Proof.
  induction fuel as [|fuel IH]; intros b d Hl; [destruct b; [done|cbn in Hl; lia]|]. destruct b as [|c r]; [done|]. cbn [parse_param length] in *.
  destruct (negb _); [apply IH; lia|]. destruct r as [|d1 r1]; [done|]. cbn [length] in Hl. destruct (isDigit d1); [|apply IH; lia].
  destruct r1 as [|d2 [|d3 r3]]; [done..|]. cbn [length] in Hl. destruct (_ && _); [|done]. cbv zeta. destruct (_ <? _); [apply IH; lia|done].
Qed.

Lemma b64_quanta_returns : forall n s, (length s <= n)%nat -> returns (b64_quanta s).
Proof.
  induction n as [|n IH]; intros s Hl; [destruct s; [done|cbn in Hl; lia]|].
  destruct s as [|c0 [|c1 [|c2 [|c3 r]]]]; try done. cbn [b64_quanta length] in *.
  destruct (b64_val c0), (b64_val c1); try done. destruct (c2 =b ch_eq); [by destruct (_ && _)|]. destruct (b64_val c2); [|done].
  destruct (c3 =b ch_eq); [by destruct (bool_decide _)|]. destruct (b64_val c3); [|done]. unfold returns.
  eapply ensures_bind_via; [apply IH; lia|done].
Qed.
Lemma fromBase64_returns s : returns (fromBase64 s).
Proof. by eapply b64_quanta_returns. Qed.

Lemma mapM_returns {A B} (f : A -> res error B) l : (forall a, returns (f a)) -> returns (mapM f l).
Proof.
  intros H. induction l as [|a l IH]; [done|]. cbn [mapM]. unfold returns in *. eapply ensures_bind_via; [apply H|]. intros b _.
  eapply ensures_bind_via; [apply IH|]. done.
Qed.

Lemma svcb_parse_returns s b : returns (svcb_parse s b).
Proof.
  destruct s; cbn [svcb_parse]; try done.
  - unfold alpn_parse. destruct b as [|c b]; [done|]. apply alpn_loop_returns; [lia|]. unfold zlen. lia.
  - by destruct (is_nil b).
  - unfold port_parse. by destruct (ParseUint _ _ _).
  - unfold ipv4hint_parse. destruct (is_nil b); [done|]. destruct (contains_byte _ _); [done|]. unfold returns.
    eapply ensures_bind_via; [apply mapM_returns|done]. intros e. cbv zeta. by destruct (is_nil _).
  - pose proof (fromBase64_returns b) as H. unfold returns in *. by destruct (fromBase64 b).
  - unfold ipv6hint_parse. destruct (is_nil b); [done|]. unfold returns.
    eapply ensures_bind_via; [apply mapM_returns|done]. intros e. destruct (ParseIP e); [|done]. by destruct (negb _).
  - unfold returns. eapply ensures_bind_via; [by apply parse_param_returns|done].
  - by destruct (is_nil b).
  - unfold returns. eapply ensures_bind_via; [by apply parse_param_returns|done].
Qed.

Lemma fits_quoted : fits (fun r => token_fine r.2) quoted_value.
Proof. unfold quoted_value. by parses. Qed.

Lemma fits_svcb_token st l : token_fine l -> fits always (svcb_token st l).
Proof.
  intros Hl. destruct st as [can xs]. unfold svcb_token. destruct (_ =? _); [|by parses]. destruct (negb can); [apply fits_bad|]. cbv zeta.
  assert (forall can key value l, fits always (match makeSVCBKeyValue (svcbStringToKey key) with
    | None => bad "bad SVCB key" l
    | Some kv => match svcb_parse kv value with Err _ => bad "" l | r => kv ← look r; mret (can, xs ++ [kv]) end
    end : P (bool * list SVCBKeyValue))) as Hadd.
  { intros can' key v l'. destruct (makeSVCBKeyValue _) as [kv|]; [|apply fits_bad]. pose proof (svcb_parse_returns kv v) as H.
    destruct (svcb_parse kv v); [|apply fits_bad|done..]. eapply (fits_bind always); [by apply fits_look|]. intros ? _. by apply fits_ret. }
  destruct (index_byte _ _) as [idx|]; [|apply Hadd]. destruct (idx =? 0); [apply fits_bad|]. destruct (is_nil _); [|apply Hadd].
  eapply fits_bind; [apply fits_quoted|]. intros [[c v] l1] _. apply Hadd.
Qed.

Lemma SVCB_fits o : fits (typed_data RR_SVCB) (SVCB_parse o).
Proof.
  unfold SVCB_parse. eapply fits_bind; [apply fits_uint; lia|]. intros p Hp. eapply fits_bind; [apply fits_blank|]. intros _ _.
  eapply fits_bind; [apply fits_name_field|]. intros t _. eapply fits_bind; [apply fits_next|]. intros l Hl.
  eapply fits_bind; [apply fits_line; [|done]|].
  - intros st l1 Hl1. by apply fits_svcb_token.
  - intros r _. apply fits_ret. typed.
Qed.

(** ** The records that are read with RFC 3597 *)

Lemma RFC3597_fits o : fits (fun vs => exists s, vs = [V_str s] /\ zlen s <= 2 * 65535) (RFC3597_parse o).
Proof.
  unfold RFC3597_parse. parses. eexists. split; [done|]. match goal with H : ParseUint _ _ _ = _ |- _ => apply ParseUint_range in H; [|lia..] end. lia.
Qed.
End Records.

#[export] Hint Resolve LOC_fits HIP_fits RRSIG_fits APL_fits SVCB_fits : fits.

(** ** All of them *)

Section More.
Context {casing : Casing} {floats : Floats}.

Lemma two_fields_typed k chunks : fields k = HINFO_fields \/ fields k = ISDN_fields -> typed_data k (two_fields chunks).
Proof.
  intros H. unfold typed_data. assert (exists a b, two_fields chunks = [V_str a; V_str b]) as (a & b & ->).
  { unfold two_fields. destruct (match chunks with [c] => _ | _ => _ end); eauto. }
  destruct H as [-> | ->]; repeat constructor.
Qed.
Lemma HINFO_fits o : fits (typed_data RR_HINFO) (HINFO_parse o).
Proof. unfold HINFO_parse. parses. apply two_fields_typed. by left. Qed.
Lemma ISDN_fits o : fits (typed_data RR_ISDN) (ISDN_parse o).
Proof. unfold ISDN_parse. parses. apply two_fields_typed. by right. Qed.

Lemma salt_range (b : bool) (n m : Z) (t : bytes) l s : 0 <= n < 256 -> (if b then (n, t) else (0, [])) = (l, s) -> u8 l.
Proof. intros Hn. unfold u8. destruct b; intros [= <- _]; lia. Qed.

Lemma NSEC3_fits o : fits (typed_data RR_NSEC3) (NSEC3_parse o).
Proof.
  unfold NSEC3_parse. parses. match goal with H : (if _ then _ else _) = _ |- _ => apply (salt_range _ _ 0) in H; [typed|] end.
  pose proof (Z.mod_pos_bound (zlen a5) 256 ltac:(lia)). split; [apply Z.div_pos; lia|apply Z.div_lt_upper_bound; lia].
Qed.
Lemma NSEC3PARAM_fits o : fits (typed_data RR_NSEC3PARAM) (NSEC3PARAM_parse o).
Proof.
  unfold NSEC3PARAM_parse. parses. match goal with H : (if _ then _ else _) = _ |- _ => apply (salt_range _ _ 0) in H; [typed|] end.
  apply Z.mod_pos_bound. lia.
Qed.

Lemma eui_number_range n t i : eui_number n t = Some i -> 0 <= i < 2 ^ (8 * Z.of_nat n).
Proof. unfold eui_number. destruct (_ || _); [done|]. apply ParseUint_range; lia. Qed.
Lemma EUI48_fits o : fits (typed_data RR_EUI48) (EUI48_parse o).
Proof. unfold EUI48_parse. parses. match goal with H : eui_number _ _ = _ |- _ => apply eui_number_range in H end. typed. Qed.
Lemma EUI64_fits o : fits (typed_data RR_EUI64) (EUI64_parse o).
Proof. unfold EUI64_parse. parses. match goal with H : eui_number _ _ = _ |- _ => apply eui_number_range in H end. typed. Qed.

Lemma URI_fits o : fits (typed_data RR_URI) (URI_parse o).
Proof. unfold URI_parse. parses. match goal with H : ParseUint _ _ _ = _ |- _ => apply ParseUint_range in H; [|lia..] end. typed. Qed.

Lemma AMTRELAY_fits o : fits (typed_data RR_AMTRELAY) (AMTRELAY_parse o).
Proof.
  unfold AMTRELAY_parse. parses.
  match goal with |- context [V_int (Z.lor ?x ?y)] => assert (u8 (Z.lor x y)) end; [|typed].
  apply lor_byte_range; [case_match; split; lia|]. simpl in *. lia.
Qed.
End More.

#[export] Hint Resolve HINFO_fits ISDN_fits NSEC3_fits NSEC3PARAM_fits EUI48_fits EUI64_fits URI_fits AMTRELAY_fits : fits.

Ltac head t := lazymatch t with ?f _ => head f | _ => t end.
Ltac unfold_head := lazymatch goal with |- fits _ ?p => let f := head p in lazymatch f with @mbind => idtac | _ => unfold f; cbv beta end end.

Lemma rr_parse_fits {casing : Casing} {floats : Floats} k o : fits (typed_data k) (rr_parse k o).
Proof.
  destruct k; cbn [rr_parse]; try solve [eauto with fits].
  all: unfold_head; try unfold_head; parses; typed.
Qed.
