(* ===== verification/ZoneSafe.v ===== *)
(** * The zone parser ends, without panic, on every text

    The reader of $GENERATE gives finitely many octets; a token of the zone parser
    makes it smaller in an order over its nested parsers; every record it returns is
    well typed. *)

From S2P Require Import Prelude Go Utf8 Labels Escape Names NameDecode NameEncode NameLen Wire Codec NameCarry Encodings Apl Edns Svcb RData RR Safety Ztypes Dnssec Strconv Netip TimeText Types Lexer LexCarry Scan ScanRR Present SvcbText EdnsText Generate Zone ScanSafe ParseSafe.

#[local] Open Scope string_scope.

(** ** The reader of $GENERATE *)

Lemma format_digits_length fuel base v acc : (length (format_digits fuel base v acc) <= fuel + length acc)%nat.
Proof.
  revert v acc. induction fuel as [|f IH]; intros v acc; cbn [format_digits]; [lia|]. destruct (v <? base); [cbn; lia|].
  etransitivity; [apply IH|]. cbn [length]. lia.
Qed.
Lemma FormatUint_length v base : 0 <= v < 2 ^ 64 -> zlen (FormatUint v base) <= 64.
Proof.
  intros Hv. unfold FormatUint. pose proof (format_digits_length (S (Z.to_nat (Z.log2 v))) base v []) as H. cbn [length] in H.
  assert (Z.log2 v < 64). { destruct (Z.eq_dec v 0) as [->|]; [done|]. apply Z.log2_lt_pow2; lia. }
  pose proof (Z.log2_nonneg v). unfold zlen. lia.
Qed.

Lemma pad0_length w s n : 0 <= n -> w <= n -> zlen s <= n -> zlen (pad0 w s) <= n.
Proof. intros Hn Hw Hs. unfold pad0, zlen in *. rewrite length_app, length_replicate. lia. Qed.
Lemma pad0_nonempty w s : s <> [] -> pad0 w s <> [].
Proof. unfold pad0. by intros H [_ ?]%app_eq_nil. Qed.

Lemma print_mod_fine m v : mod_width m < 256 -> - 2 ^ 63 <= v < 2 ^ 63 -> print_mod m v <> [] /\ zlen (print_mod m v) <= 256.
Proof.
  intros Hw Hv. unfold print_mod. set (base := if bool_decide (mod_base m = bs "o") then _ else _).
  set (digits := if bool_decide (mod_base m = bs "X") then _ else _).
  assert (digits <> [] /\ zlen digits <= 64) as [Hd Hl].
  { unfold digits. pose proof (FormatUint_nonempty (Z.abs v) base). pose proof (FormatUint_length (Z.abs v) base ltac:(lia)).
    destruct (bool_decide (mod_base m = bs "X")); [|by split]. split; [destruct (FormatUint _ _); cbn; congruence|]. unfold zlen in *. by rewrite length_map. }
  destruct (v <? 0).
  - split; [done|]. rewrite zlen_cons. pose proof (pad0_length (mod_width m - 1) digits 255 ltac:(lia) ltac:(lia) ltac:(lia)). lia.
  - split; [by apply pad0_nonempty|]. apply pad0_length; lia.
Qed.

Lemma wrap64_range z : - 2 ^ 63 <= wrap64 z < 2 ^ 63.
Proof. unfold wrap64. pose proof (Z.mod_pos_bound (z + 2 ^ 63) (2 ^ 64) ltac:(lia)). lia. Qed.

Definition reader_fine (r : generateReader) : Prop :=
  0 <= g_si r <= zlen (g_s r) /\ 0 < g_step r < 2 ^ 63 /\ 0 <= g_end r < 2 ^ 63 /\
  (g_eof r = false -> 0 <= g_cur r <= g_end r).

(** What the reader has left to give, at most. *)
Definition line_most (r : generateReader) : Z := 256 * zlen (g_s r) + 1.
Definition reader_left (r : generateReader) : Z :=
  if g_eof r then 0
  else zlen (g_mod r) + 256 * (zlen (g_s r) - g_si r) + (g_end r - g_cur r) / g_step r * line_most r + 1.

Lemma index_byte_range s c i : index_byte s c = Some i -> 0 <= i < zlen s.
Proof.
  unfold index_byte. destruct (list_find _ s) as [[k x]|] eqn:E; [|done]. intros [= <-]. apply list_find_Some in E as (E & _).
  apply lookup_lt_Some in E. unfold zlen. lia.
Qed.

Lemma modToPrintf_width s m o : modToPrintf s = inl (m, o) -> mod_width m < 256.
Proof.
  unfold modToPrintf. destruct (Cut s _) as [[a b] c]. destruct (Cut b _) as [[d e] f]. destruct (Cut e _) as [[g h] i].
  destruct i; [done|]. destruct (negb _); [done|]. destruct (ParseInt _ _ _); [|done]. destruct (ParseUint _ _ _) as [w|] eqn:E; [|done].
  intros [= <- _]. apply ParseUint_range in E; [|lia..]. cbn. lia.
Qed.

Lemma dollar_fine si r : reader_fine r -> g_eof r = false -> 0 <= si -> si < zlen (g_s r) - 1 ->
  match dollar si r with
  | inl (m, n) => m <> [] /\ zlen m <= 256 /\ 1 <= n /\ si + n <= zlen (g_s r)
  | inr _ => True
  end.
Proof.
  intros (H1 & H2 & H3 & H4) He Hs Hl. specialize (H4 He). unfold dollar. cbv zeta. destruct (bool_decide _); [change (zlen [x24]) with 1; split_and!; [done|lia..]|].
  destruct (bool_decide _).
  - destruct (index_byte _ _) as [sep|] eqn:Ei; [|done]. apply index_byte_range in Ei. rewrite zlen_zdrop in Ei by lia.
    destruct (modToPrintf _) as [[m o]|] eqn:Em; [|done]. destruct (_ || _); [done|]. apply modToPrintf_width in Em.
    destruct (print_mod_fine m (wrap64 (g_cur r + o)) Em (wrap64_range _)). split_and!; [done|done|lia..].
  - destruct (print_mod_fine (MkMod (bs "d") 0) (g_cur r)) as [? ?]; [cbn; lia|lia|]. split_and!; [done|done|lia..].
Qed.

Definition read_fine (left : Z) (r : res (option ParseError) (byte * generateReader)) : Prop :=
  ensures r (fun '(_, r') => reader_fine r' /\ reader_left r' < left) (fun _ => True).

Lemma read_fine_mono a b r : a <= b -> read_fine a r -> read_fine b r.
Proof. intros Hab H. eapply ensures_mono; [exact H| |done]. intros [c r'] [? ?]. split; [done|lia]. Qed.

(** [si] moves on, with [m] octets waiting. *)
Lemma move_fine r si m e : reader_fine r -> g_eof r = false -> g_si r <= si <= zlen (g_s r) -> zlen m < zlen (g_mod r) + 256 * (si - g_si r) ->
  reader_fine (g_set si m e r) /\ reader_left (g_set si m e r) < reader_left r.
Proof.
  intros (H1 & H2 & H3 & H4) He Hs Hm. split; [split_and!; cbn; try lia; done|]. unfold reader_left, line_most. cbn. rewrite He. lia.
Qed.

Lemma move_read x r si m e : reader_fine r -> g_eof r = false -> g_si r <= si <= zlen (g_s r) -> zlen m < zlen (g_mod r) + 256 * (si - g_si r) ->
  read_fine (reader_left r) (Ok (x, g_set si m e r)).
Proof. intros. unfold read_fine, ensures. by apply move_fine. Qed.

Lemma ReadByte_fine : forall fuel r, reader_fine r -> (Z.to_nat (zlen (g_s r) - g_si r) + 1 < fuel)%nat -> read_fine (reader_left r) (ReadByte fuel r).
Proof.
  induction fuel as [|fuel IH]; intros r Hr Hf; [lia|]. cbn [ReadByte]. destruct (g_eof r) eqn:He; [exact I|].
  pose proof Hr as (H1 & H2 & H3 & H4). pose proof (H4 He) as H4'.
  destruct (g_mod r) as [|c m] eqn:Em; [|apply move_read; [done|done|lia|rewrite Em, zlen_cons; lia]]. cbv zeta.
  destruct (Z.leb_spec (zlen (g_s r)) (g_si r)) as [Hsi|Hsi].
  { unfold read_fine, ensures. split.
    - pose proof (wrap64_range (g_cur r + g_step r)). split; [cbn; lia|]. split; [done|]. split; [done|]. cbn. intros E%orb_false_iff. lia.
    - unfold reader_left at 2. rewrite He, Em. unfold reader_left, g_newline, line_most. cbn. rewrite Em. change (zlen []) with 0.
      destruct (Z.ltb_spec (g_end r) (wrap64 (g_cur r + g_step r))); [cbn; pose proof (Z.div_pos (g_end r - g_cur r) (g_step r)); nia|].
      destruct (Z.ltb_spec (wrap64 (g_cur r + g_step r)) 0); [cbn; pose proof (Z.div_pos (g_end r - g_cur r) (g_step r)); nia|]. cbn.
      assert (wrap64 (g_cur r + g_step r) = g_cur r + g_step r) as ->.
      { unfold wrap64 in *. revert H0. destruct (Z.lt_ge_cases (g_cur r + g_step r) (2 ^ 63)); [rewrite Z.mod_small by lia; lia|].
        assert (g_cur r + g_step r + 2 ^ 63 = (g_cur r + g_step r - 2 ^ 63) + 1 * 2 ^ 64) as -> by lia. rewrite Z.mod_add, Z.mod_small by lia. lia. }
      replace ((g_end r - g_cur r) / g_step r) with ((g_end r - (g_cur r + g_step r)) / g_step r + 1); [nia|].
      rewrite <- Z.div_add by lia. f_equal. lia. }
  destruct (zget_Some (g_s r) (g_si r) ltac:(lia)) as [c ->]. gosimp.
  assert (forall e, read_fine (reader_left r) (ReadByte fuel (g_set (g_si r + 1) [] e r))) as Hagain.
  { intros e. destruct (move_fine r (g_si r + 1) [] e Hr He) as [? ?]; [lia|rewrite Em; change (zlen []) with 0; lia|].
    eapply read_fine_mono; [|apply IH; [done|cbn; lia]]. lia. }
  assert (forall (x : byte) e, read_fine (reader_left r) (Ok (x, g_set (g_si r + 1) [] e r))) as Hgive.
  { intros x e. apply move_read; [done|done|lia|]. rewrite Em. change (zlen []) with 0. lia. }
  destruct (c =b ch_bslash); [destruct (g_escape r); auto|]. destruct (c =b x24).
  - destruct (g_escape r); [auto|].
    assert (match (if zlen (g_s r) - 1 <=? g_si r then inl (print_mod (MkMod (bs "d") 0) (g_cur r), 1) else dollar (g_si r) r) with
            | inl (m, n) => m <> [] /\ zlen m <= 256 /\ 1 <= n /\ g_si r + n <= zlen (g_s r) | inr _ => True end) as Hd.
    { destruct (Z.leb_spec (zlen (g_s r) - 1) (g_si r)); [|apply dollar_fine; [done|done|lia|lia]].
      destruct (print_mod_fine (MkMod (bs "d") 0) (g_cur r)) as [? ?]; [cbn; lia|lia|]. split; [done|]. split; [done|]. lia. }
    destruct (if zlen (g_s r) - 1 <=? g_si r then _ else _) as [[m n]|e]; [|exact I]. destruct Hd as (Hm & Hlm & Hn & Hn').
    destruct m as [|x m]; [done|]. gosimp. cbn [lookup list_lookup]. change (drop 1 (x :: m)) with m. apply move_read; [done|done|lia|]. rewrite Em. rewrite zlen_cons in Hlm. change (zlen []) with 0. lia.
  - destruct (g_escape r); auto.
Qed.

Lemma read_loop_ends : forall fuel r, reader_fine r -> reader_left r < Z.of_nat fuel -> exists l e, read_loop fuel r = Ok (l, e).
Proof.
  assert (forall r, 0 <= reader_left r \/ ~ reader_fine r) as Hpos.
  { intros r. destruct (g_eof r) eqn:He; [left; unfold reader_left; rewrite He; lia|].
    destruct (Z.le_gt_cases 0 (reader_left r)); [by left|right]. intros (H1 & H2 & H3 & H4). specialize (H4 He). revert H. unfold reader_left, line_most. rewrite He.
    pose proof (Z.div_pos (g_end r - g_cur r) (g_step r)). pose proof (zlen_nonneg (g_mod r)). pose proof (zlen_nonneg (g_s r)). nia. }
  induction fuel as [|fuel IH]; intros r Hr Hf; [destruct (Hpos r); [lia|done]|]. cbn [read_loop].
  pose proof (ReadByte_fine (S (S (length (g_s r)))) r Hr) as H. destruct Hr as (H1 & _).
  assert (read_fine (reader_left r) (ReadByte (S (S (length (g_s r)))) r)) as Hb by (apply H; unfold zlen in *; lia).
  destruct (ReadByte _ r) as [[c r']|[e|]| |]; try done; [|by eexists _, _..]. destruct Hb as [Hr' Hl].
  destruct (IH r' Hr' ltac:(lia)) as (l & e & ->). by eexists _, _.
Qed.

Lemma ParseInt_range s bits v : 1 <= bits -> ParseInt s 10 bits = Some v -> - 2 ^ (bits - 1) <= v < 2 ^ (bits - 1).
Proof.
  intros Hb. unfold ParseInt. destruct s as [|c r]; [done|].
  destruct (if c =b x2b then _ else _) as [neg s]. unfold mbind, option_bind. destruct (ParseUint s 10 bits) as [u|] eqn:E; [|done].
  apply ParseUint_range in E; [|lia..]. destruct neg; cbn [negb andb].
  - destruct (Z.ltb_spec (2 ^ (bits - 1)) u); [done|]. intros [= <-]. pose proof (Z.pow_pos_nonneg 2 (bits - 1)). lia.
  - destruct (Z.leb_spec (2 ^ (bits - 1)) u); [done|]. intros [= <-]. pose proof (Z.pow_pos_nonneg 2 (bits - 1)). lia.
Qed.

Lemma generate_range_fine tok start end_ step : generate_range tok = inl (start, end_, step) ->
  0 <= start <= end_ /\ end_ < 2 ^ 63 /\ 0 < step < 2 ^ 63.
Proof.
  unfold generate_range. cbv zeta.
  assert (forall tok stp, 0 < stp < 2 ^ 63 ->
    (let '(startStr, endStr, ok) := Cut tok x2d in
     if negb ok then inr "bad start-stop in $GENERATE range"
     else match ParseInt startStr 10 64 with
          | Some start => match ParseInt endStr 10 64 with
            | Some end_ => if (end_ <? 0) || (start <? 0) || (end_ <? start) || (65535 <? (end_ - start) / stp) then inr "bad range in $GENERATE range" else inl (start, end_, stp)
            | None => inr "bad stop in $GENERATE range" end
          | None => inr "bad start in $GENERATE range" end) = inl (start, end_, step) ->
    0 <= start <= end_ /\ end_ < 2 ^ 63 /\ 0 < step < 2 ^ 63) as Hr.
  { intros t stp Hs. destruct (Cut t _) as [[a b] ok]. destruct (negb ok); [done|]. destruct (ParseInt a _ _) as [x|]; [|done].
    destruct (ParseInt b _ _) as [y|] eqn:Ey; [|done]. apply ParseInt_range in Ey; [|lia]. destruct (_ || _) eqn:E; [done|]. intros [= <- <- <-]. change (2 ^ (64 - 1)) with (2 ^ 63) in Ey. lia. }
  destruct (index_byte tok x2f) as [i|]; [|apply Hr; lia]. destruct (_ =? _); [done|]. destruct (ParseInt _ _ _) as [s|] eqn:Es; [|done].
  apply ParseInt_range in Es; [|lia]. destruct (Z.leb_spec s 0); [done|]. apply Hr. change (2 ^ (64 - 1)) with (2 ^ 63) in Es. lia.
Qed.

Lemma read_all_ends s start end_ step file l : 0 <= start <= end_ -> end_ < 2 ^ 63 -> 0 < step < 2 ^ 63 ->
  exists o e, read_all (new_reader s start end_ step file l) = Ok (o, e).
Proof.
  intros H1 H2 H3. apply read_loop_ends; [split_and!; cbn; pose proof (zlen_nonneg s); lia|].
  unfold reader_left, line_most. cbn. change (zlen []) with 0. pose proof (Z.div_pos (end_ - start) step). unfold zlen. nia.
Qed.

(** ** The zone parser *)

Section Zone.
Context {casing : Casing} {floats : Floats} {files : Files}.

(** How many parsers can still be nested in this one. *)
Definition allowance (zp : ZoneParser) : nat := 2 * Z.to_nat (7 - includeDepth zp) + (if generateDisallowed zp then 0 else 1).

Definition ttl_fine (d : option ttlState) : Prop := match d with Some d => u32 (ttl d) | None => True end.
Definition own_fine (zp : ZoneParser) : Prop :=
  lexer_fine (zc zp) /\ typed_header (zh zp) /\ ttl_fine (defttl zp) /\ 0 <= includeDepth zp <= 7.

(** A parser with at most [D] levels. *)
Fixpoint good (D : nat) (zp : ZoneParser) : Prop :=
  match D with
  | O => False
  | S D => own_fine zp /\ (allowance zp <= D)%nat /\ match sub zp with Some s => good D s | None => True end
  end.

Definition zleft (zp : ZoneParser) : nat := left_over (zc zp).
Definition typed_opt (rr : option RR) : Prop := match rr with Some rr => typed_rr rr | None => True end.

(** Nothing nested, no error. *)
Definition running (D : nat) (n : nat) (zp : ZoneParser) : Prop :=
  good D zp /\ (zleft zp <= n)%nat /\ sub zp = None /\ parseErr zp = None.

Definition outcome_fine (D n : nat) (r : outcome) : Prop :=
  match r with
  | Continue _ zp => running D n zp
  | Return rr zp => good D zp /\ (zleft zp <= n)%nat /\ typed_opt rr
  | Nested zp => good D zp /\ (zleft zp <= n)%nat /\ parseErr zp = None
  end.
Definition step_ok (D n : nat) (r : res error outcome) : Prop := ensures r (outcome_fine D n) never.

Lemma good_set_c D c zp : good D zp -> lexer_fine c -> good D (set_c c zp).
Proof. destruct D; [done|]. intros ((H1 & H2) & H3) Hc. by split. Qed.
Lemma good_set_err D e zp : good D zp -> good D (set_parseErr e zp).
Proof. by destruct D. Qed.
Lemma good_set_h D f zp : good D zp -> typed_header (f (zh zp)) -> good D (set_h f zp).
Proof. destruct D; [done|]. intros ((H1 & H2 & H3) & H4) Hf. by split. Qed.
Lemma good_set_defttl D d zp : good D zp -> ttl_fine d -> good D (set_defttl d zp).
Proof. destruct D; [done|]. intros ((H1 & H2 & H3 & H4) & H5) Hf. by split. Qed.
Lemma good_set_origin D o zp : good D zp -> good D (set_origin o zp).
Proof. by destruct D. Qed.
Lemma good_own D zp : good D zp -> own_fine zp.
Proof. destruct D; [done|]. by intros [? _]. Qed.
Lemma good_le D D' zp : good D zp -> (D <= D')%nat -> good D' zp.
Proof.
  revert D' zp. induction D as [|D IH]; intros D' zp; [done|]. intros (H1 & H2 & H3) Hle. destruct D' as [|D']; [lia|].
  split; [done|]. split; [lia|]. destruct (sub zp); [|done]. apply IH; [done|lia].
Qed.

Lemma running_set_h D n f zp : running D n zp -> typed_header (f (zh zp)) -> running D n (set_h f zp).
Proof. intros (H1 & H2) Hf. split; [by apply good_set_h|done]. Qed.
Lemma running_set_defttl D n d zp : running D n zp -> ttl_fine d -> running D n (set_defttl d zp).
Proof. intros (H1 & H2) Hf. split; [by apply good_set_defttl|done]. Qed.
Lemma running_typed D n zp : running D n zp -> typed_header (zh zp).
Proof. intros [H _]. apply good_own in H. apply H. Qed.

Lemma stop_ok D n msg l zp : running D n zp -> step_ok D n (setParseError msg l zp).
Proof. intros (H1 & H2 & _). split; [by apply good_set_err|]. by split. Qed.
Lemma to_ok D n st zp : running D n zp -> step_ok D n (to st zp).
Proof. done. Qed.
Lemma expect_blank_ok D n msg l st zp : running D n zp -> step_ok D n (expect_blank msg l st zp).
Proof. intros H. unfold expect_blank. destruct (negb _); [by apply stop_ok|by apply to_ok]. Qed.

Lemma take_ttl_ok D n l st zp : running D n zp -> step_ok D n (take_ttl l st zp).
Proof.
  intros H. unfold take_ttl. destruct (stringToTTL (token l)) as [t|] eqn:E; [|by apply stop_ok]. apply stringToTTL_range in E.
  assert (running D n (set_h (set_Ttl t) zp)).
  { apply running_set_h; [done|]. pose proof (running_typed _ _ _ H) as (? & ? & ? & ?). by split_and!. }
  cbv zeta. apply to_ok. destruct (by_directive _); [done|]. by apply running_set_defttl.
Qed.
Lemma take_class_ok D n l st zp : running D n zp -> token_fine l -> step_ok D n (take_class l st zp).
Proof.
  intros H [_ Hl]. apply to_ok, running_set_h; [done|]. pose proof (running_typed _ _ _ H) as (? & ? & ? & ?). by split_and!.
Qed.
Lemma take_type_ok D n l zp : running D n zp -> token_fine l -> step_ok D n (take_type l zp).
Proof.
  intros H [_ Hl]. apply to_ok, running_set_h; [done|]. pose proof (running_typed _ _ _ H) as (? & ? & ? & ?). by split_and!.
Qed.

Lemma bind_name_ok D n tok o (f : option bytes -> res error outcome) : (forall r, step_ok D n (f r)) ->
  step_ok D n (toAbsoluteName tok o ≫= f).
Proof. intros H. unfold step_ok. eapply ensures_bind_via; [apply toAbsoluteName_fine|]. intros r _. apply H. Qed.

Lemma owner_ok D n l zp : running D n zp -> token_fine l -> step_ok D n (owner_or_directive l zp).
Proof.
  intros H Hl. unfold owner_or_directive.
  assert (running D n (match defttl zp with Some d => set_h (set_Ttl (ttl d)) zp | None => zp end)) as H1.
  { destruct (defttl zp) as [d|] eqn:Ed; [|done]. apply running_set_h; [done|]. pose proof (running_typed _ _ _ H) as (? & ? & ? & ?).
    destruct H as [Hg _]. apply good_own in Hg as (_ & _ & Ht & _). rewrite Ed in Ht. by split_and!. }
  revert H1. generalize (match defttl zp with Some d => set_h (set_Ttl (ttl d)) zp | None => zp end). intros zp1 H1.
  assert (running D n (set_h (set_Class ClassINET) zp1)) as H2.
  { apply running_set_h; [done|]. pose proof (running_typed _ _ _ H1) as (? & ? & ? & ?). split; [done|]. split; [split; vm_compute; congruence|]. by split. }
  revert H2. generalize (set_h (set_Class ClassINET) zp1). intros zp2 H2. cbv zeta.
  destruct (_ =? _); [by apply to_ok|]. destruct (_ =? _).
  { apply (bind_name_ok). intros [name|]; [|by apply stop_ok]. apply to_ok, running_set_h; [done|].
    pose proof (running_typed _ _ _ H2) as (? & ? & ? & ?). by split_and!. }
  do 4 (destruct (_ =? _); [by apply to_ok|]). destruct (_ =? _); [by apply take_type_ok|]. destruct (_ =? _); [by apply take_class_ok|].
  destruct (_ =? _); [by apply to_ok|]. destruct (_ =? _); [by apply take_ttl_ok|by apply stop_ok].
Qed.

Lemma advance_fine D n zp : running D n zp -> let '(l, zp') := advance zp in token_fine l /\ running D n zp'.
Proof.
  intros (H1 & H2 & H3 & H4). unfold advance. pose proof (good_own _ _ H1) as [Hl _]. pose proof (Next_fine (zc zp) Hl) as Hn.
  destruct (Next (zc zp)) as [[l ok] z]. destruct Hn as (Ht & Hz & Hle & _). split; [done|]. split; [by apply good_set_c|].
  split; [unfold zleft in *; cbn; lia|done].
Qed.
Lemma peek_fine D n zp : running D n zp -> let '(l, zp') := peek zp in token_fine l /\ running D n zp'.
Proof.
  intros (H1 & H2 & H3 & H4). unfold peek. pose proof (good_own _ _ H1) as [Hl _]. pose proof (Peek_fine (zc zp) Hl) as Hn.
  destruct (Peek (zc zp)) as [l z]. destruct Hn as (Ht & Hz & Hle). split; [done|]. split; [by apply good_set_c|].
  split; [unfold zleft in *; cbn; lia|done].
Qed.

Lemma with_lexer_ok {A} (Q : A -> Prop) D n (p : P A) zp failed k : fits Q p -> running D n zp ->
  (forall e, step_ok D n (failed e)) -> (forall a zp, Q a -> running D n zp -> step_ok D n (k a zp)) -> step_ok D n (with_lexer p zp failed k).
Proof.
  intros Hp (H1 & H2 & H3 & H4) Hf Hk. unfold with_lexer. pose proof (good_own _ _ H1) as [Hl _]. specialize (Hp (zc zp) Hl).
  destruct (p (zc zp)) as [[a z]|e| |]; [|apply Hf|done|done]. destruct Hp as (Ha & Hz & Hle). apply Hk; [done|].
  split; [by apply good_set_c|]. split; [unfold zleft in *; cbn; lia|done].
Qed.
Lemma slurp_ok D n zp k : running D n zp -> (forall zp, running D n zp -> step_ok D n (k zp)) -> step_ok D n (slurp zp k).
Proof. intros H Hk. eapply with_lexer_ok; [apply fits_slurp|done|intros e; by apply stop_ok|intros _ zp' _; apply Hk]. Qed.

(** ** Nested parsers *)

Definition fresh (s : ZoneParser) : Prop :=
  own_fine s /\ sub s = None /\ includeDepth s = 0 /\ generateDisallowed s = false /\ defttl s = None.

Lemma newZLexer_fine r e : lexer_fine (newZLexer r e).
Proof. split; [apply no_lex_fine|done]. Qed.
Lemma zero_header_typed : typed_header zero_header.
Proof. unfold typed_header, u16, u32. cbn. lia. Qed.

Lemma NewZoneParser_fine r e o f : ensures (NewZoneParser r e o f) fresh never.
Proof.
  assert (forall pe o, fresh (MkZP (newZLexer r e) pe o f None zero_header None false 0 false false)) as Hm.
  { intros pe o'. split; [|done]. split; [apply newZLexer_fine|]. split; [apply zero_header_typed|]. split; [done|cbn; lia]. }
  unfold NewZoneParser. cbv zeta. destruct (bool_decide _); [apply Hm|]. eapply ensures_bind_via; [apply IsDomainName_fine|]. intros [x ok] _. apply Hm.
Qed.

Lemma nest_ok D n s zp : running D n zp -> own_fine s -> sub s = None -> (allowance s < allowance zp)%nat -> step_ok D n (Ok (Nested (set_sub (Some s) zp))).
Proof.
  intros (H1 & H2 & H3 & H4) Hs Hn Ha. split; [|done]. destruct D as [|D]; [done|]. destruct H1 as (G1 & G2 & G3). split; [done|]. split; [done|].
  cbn [sub set_sub]. destruct D as [|D]; [lia|]. split; [done|]. split; [lia|]. by rewrite Hn.
Qed.

Lemma include_file_ok D n l o zp : running D n zp -> step_ok D n (include_file l o zp).
Proof.
  intros H. unfold include_file. destruct (negb _); [by apply stop_ok|]. destruct (Z.leb_spec maxIncludeDepth (includeDepth zp)) as [|Hd]; [by apply stop_ok|].
  cbv zeta. destruct (open_file _ _) as [[r1 e1]|e1]; [|by apply stop_ok].
  unfold step_ok. eapply ensures_bind_via; [apply NewZoneParser_fine|]. intros s ((Hl & Hh & _) & Hs & _).
  pose proof H as [Hg _]. apply good_own in Hg as (_ & _ & Ht & Hi). unfold maxIncludeDepth in Hd.
  apply nest_ok; [done| |done|].
  - split; [done|]. split; [done|]. split; [done|]. cbn. lia.
  - unfold allowance. cbn. destruct (generateDisallowed zp); lia.
Qed.

Lemma include_ok D n l zp : running D n zp -> step_ok D n (include_directive l zp).
Proof.
  intros H. unfold include_directive. destruct (negb _); [by apply stop_ok|]. pose proof (advance_fine D n zp H) as Ha.
  destruct (advance zp) as [l1 zp1]. destruct Ha as [_ H1]. destruct (_ =? _).
  - pose proof (advance_fine D n zp1 H1) as Hb. destruct (advance zp1) as [l2 zp2]. destruct Hb as [_ H2]. destruct (_ =? _); [|by apply include_file_ok].
    apply bind_name_ok. intros [name|]; [by apply include_file_ok|by apply stop_ok].
  - destruct (_ || _); [by apply include_file_ok|by apply stop_ok].
Qed.

Lemma generate_text_ok D n zp : running D n zp ->
  ensures (generate_text zp) (fun r => running D n r.2) never.
Proof.
  intros H. unfold generate_text. assert (forall k s zp, running D n zp -> (zleft zp < k)%nat -> ensures
    ((fix go n s zp :=
    match n with
    | O => Diverge
    | S n =>
        let '(l, ok, z) := Next (zc zp) in
        let zp := set_c z zp in
        if negb ok then Ok (inr s, zp)
        else if err l then Ok (inl l, zp)
        else if value l =? zNewline then Ok (inr s, zp)
        else go n (s ++ token l) zp
    end) k s zp : res error ((lex + bytes) * ZoneParser)) (fun r => running D n r.2) never) as Hgo; [|by apply Hgo; [done|unfold zleft; lia]].
  induction k as [|k IH]; intros s zp1 H1 Hk; [lia|]. destruct H1 as (G1 & G2 & G3 & G4). pose proof (good_own _ _ G1) as [Hl _].
  pose proof (Next_fine (zc zp1) Hl) as Hn. destruct (Next (zc zp1)) as [[l ok] z]. destruct Hn as (Ht & Hz & Hle & Hok). cbv zeta.
  assert (running D n (set_c z zp1)) as Hr by (split; [by apply good_set_c|]; split; [unfold zleft in *; cbn; lia|done]).
  destruct ok; cbn [negb]; [|exact Hr]. destruct (err l); [exact Hr|]. destruct (_ =? _); [exact Hr|]. apply IH; [done|]. unfold zleft in *. cbn. lia.
Qed.

Lemma generate_text_depth zp r zp' : generate_text zp = Ok (r, zp') ->
  generateDisallowed zp' = generateDisallowed zp /\ includeDepth zp' = includeDepth zp.
Proof.
  unfold generate_text. generalize (left_over (zc zp) + 1)%nat. intros k. generalize (@nil byte). revert zp.
  induction k as [|k IH]; intros zp s; [done|]. destruct (Next (zc zp)) as [[l ok] z]. cbv zeta.
  destruct (negb ok); [by intros [= _ <-]|]. destruct (err l); [by intros [= _ <-]|]. destruct (_ =? _); [by intros [= _ <-]|].
  intros H. apply IH in H. exact H.
Qed.

Lemma generate_ok D n l zp : running D n zp -> generateDisallowed zp = false -> step_ok D n (generate l zp).
Proof.
  intros H Hd. unfold generate. destruct (generate_range _) as [[[start end_] step]|msg] eqn:Er; [|by apply stop_ok]. apply generate_range_fine in Er as (R1 & R2 & R3).
  pose proof (advance_fine D n zp H) as Ha. unfold advance in Ha. destruct (Next (zc zp)) as [[l1 ok] z]. destruct Ha as [_ H1]. cbv zeta.
  destruct (_ || _); [by apply stop_ok|]. unfold step_ok.
  assert (generateDisallowed (set_c z zp) = false /\ includeDepth (set_c z zp) = includeDepth zp) as [Hd1 Hi1] by done.
  pose proof (generate_text_depth (set_c z zp)) as Hdep.
  pose proof (generate_text_ok D n _ H1) as Hg. destruct (generate_text (set_c z zp)) as [[s zp2]| | |]; try done. cbn in Hg. gosimp.
  destruct (Hdep _ _ eq_refl) as [Hd2 Hi2].
  destruct s as [l2|s]; [by apply stop_ok|]. destruct (read_all_ends s start end_ step (zfile zp2) l1 R1 R2 R3) as (o & e & ->). gosimp.
  eapply ensures_bind_via; [apply NewZoneParser_fine|]. intros s' ((Hl & Hh & Ht & Hi) & Hs & _).
  pose proof Hg as [Hgood _]. apply good_own in Hgood as (_ & _ & _ & Hi').
  apply nest_ok; [done| |done|].
  - split; [done|]. split; [done|]. split; [unfold ttl_fine, u32; cbn; unfold defaultTtl; lia|done].
  - unfold allowance. cbn. rewrite Hd2, Hd1. lia.
Qed.

(** ** Records *)

Lemma fromRFC3597_fine h k s : typed_header h -> k = default RR_RFC3597 (TypeToRR (Rrtype h)) -> zlen s <= 2 * 65535 ->
  ensures (fromRFC3597 h k s) typed_rr (fun _ => True).
Proof.
  intros Hh Hk Hs. unfold fromRFC3597. cbv zeta. pose proof (zlen_nonneg s).
  assert (0 <= zlen s / 2 < 65536) as Hr by (split; [apply Z.div_pos; lia|apply Z.div_lt_upper_bound; lia]).
  rewrite Z.mod_small by lia. assert (typed_header (set_Rdlength (zlen s / 2) h)) as Hh' by (destruct Hh as (? & ? & ? & ?); split; [done|split; [done|split; [done|exact Hr]]]).
  destruct (noRdata _); [split; [exact Hh'|]; split; [exact Hk|]; apply zeros_typed|].
  eapply ensures_bind_via; [apply hex_Decode_length|]. intros msg Hm. cbv beta in Hm. change (Rdlength (set_Rdlength (zlen s / 2) h)) with (zlen s / 2). rewrite <- Hm.
  pose proof (unpack_fields_safe (struct_name k) (fields k) [] msg 0) as Hu. pose proof (unpack_fields_typed (struct_name k) (fields k) [] (zlen msg) msg 0) as Ht.
  pose proof (zlen_nonneg msg). specialize (Hu ltac:(constructor) ltac:(lia)). unfold rr_unpack.
  destruct (unpack_fields _ _ _ _ _ _) as [[vs o]| | |]; try done. split; [cbn [Hdr]; rewrite Hm; exact Hh'|]. split; [exact Hk|]. by eapply Ht.
Qed.

Lemma record_data_ok D n l zp : running D n zp -> step_ok D n (record_data l zp).
Proof.
  intros H. unfold record_data. cbv zeta. pose proof (running_typed _ _ _ H) as Hh. revert Hh. generalize (zh zp). intros h Hh.
  set (k := default RR_RFC3597 (TypeToRR (Rrtype h))).
  assert (let '(b, zp1) := match TypeToRR (Rrtype h) with Some _ => let '(p, zp) := peek zp in (bool_decide (token p = bs "\#"), zp) | None => (false, zp) end in running D n zp1) as H1.
  { destruct (TypeToRR _); [|done]. pose proof (peek_fine D n zp H) as Hp. destruct (peek zp) as [p zp1]. apply Hp. }
  destruct (match TypeToRR _ with Some _ => _ | None => _ end) as [b zp1]. pose proof (peek_fine D n zp1 H1) as Hp. destruct (peek zp1) as [p zp2]. destruct Hp as [_ H2].
  destruct (bool_decide _).
  { apply slurp_ok; [done|]. intros zp3 (G1 & G2 & _). split; [done|]. split; [done|]. split; [done|]. split; [done|]. apply zeros_typed. }
  destruct (_ =? _); [by apply stop_ok|]. destruct b.
  - eapply with_lexer_ok; [apply RFC3597_fits|done|intros e; by apply stop_ok|]. intros vs zp3 (s & -> & Hs) H3.
    pose proof (fromRFC3597_fine h k s Hh eq_refl Hs) as Hf. destruct (fromRFC3597 h k s) as [rr|e| |]; try done; gosimp; cbn [attempt].
    + destruct H3 as (G1 & G2 & _). by split.
    + by apply stop_ok.
  - eapply with_lexer_ok; [apply (rr_parse_fits k)|done|intros e; by apply stop_ok|]. intros vs zp3 Hvs (G1 & G2 & _).
    split; [done|]. split; [done|]. by split.
Qed.

(** ** One token, and the loop *)

Lemma on_token_ok D n st l zp : running D n zp -> token_fine l -> step_ok D n (on_token st l zp).
Proof.
  intros H Hl. unfold on_token. destruct (err l); [by apply stop_ok|].
  destruct st; try (by apply expect_blank_ok); [by apply owner_ok| | | | |by apply record_data_ok| | |by apply include_ok|].
  - destruct (_ =? _); [destruct (defttl zp); [by apply take_type_ok|by apply stop_ok]|]. destruct (_ =? _); [by apply take_class_ok|].
    destruct (_ =? _); [by apply take_ttl_ok|by apply stop_ok].
  - destruct (_ =? _); [by apply take_ttl_ok|]. destruct (_ =? _); [by apply take_type_ok|by apply stop_ok].
  - destruct (_ =? _); [by apply take_class_ok|]. destruct (_ =? _); [by apply take_type_ok|by apply stop_ok].
  - destruct (negb _); [by apply stop_ok|by apply take_type_ok].
  - destruct (negb _); [by apply stop_ok|]. apply slurp_ok; [done|]. intros zp1 H1. destruct (stringToTTL _) as [t|] eqn:E; [|by apply stop_ok].
    apply to_ok, running_set_defttl; [done|]. by apply stringToTTL_range in E.
  - destruct (negb _); [by apply stop_ok|]. apply slurp_ok; [done|]. intros zp1 H1. apply bind_name_ok. intros [name|]; [|by apply stop_ok].
    apply to_ok. destruct H1 as (? & ?). split; [by apply good_set_origin|done].
  - destruct (generateDisallowed zp) eqn:E; [by apply stop_ok|]. destruct (negb _); [by apply stop_ok|by apply generate_ok].
Qed.

(** What [token_loop] gives: a record or a nested parser only after a token. *)
Definition loop_fine (D n : nat) (r : option (option RR) * ZoneParser) : Prop :=
  let '(rr, zp) := r in
  good D zp /\ match rr with
               | Some None => True
               | Some (Some rr) => typed_rr rr /\ (zleft zp < n)%nat
               | None => parseErr zp = None /\ (zleft zp < n)%nat
               end.

Lemma token_loop_ok D : forall fuel st n zp, running D n zp -> (zleft zp < fuel)%nat ->
  ensures (token_loop fuel st zp) (loop_fine D n) never.
Proof.
  induction fuel as [|fuel IH]; intros st n zp H Hf; [lia|]. cbn [token_loop]. destruct H as (G1 & G2 & G3 & G4). pose proof (good_own _ _ G1) as [Hl _].
  pose proof (Next_fine (zc zp) Hl) as Hn. destruct (Next (zc zp)) as [[l ok] z]. destruct Hn as (Ht & Hz & Hle & Hok). cbv zeta.
  destruct ok; cbn [negb]; [|split; [by apply good_set_c|done]].
  assert (running D (left_over z) (set_c z zp)) as Hr by (split; [by apply good_set_c|]; split; [unfold zleft; cbn; lia|done]).
  pose proof (on_token_ok D (left_over z) st l _ Hr Ht) as Hs. unfold zleft in *. unfold step_ok in Hs.
  destruct (on_token st l (set_c z zp)) as [[st' zp'|rr zp'|zp']| | |]; try done; gosimp.
  - destruct Hs as (S1 & S2 & S3). apply IH; [split; [done|]; split; [unfold zleft in *; lia|done]|unfold zleft in *; lia].
  - destruct Hs as (S1 & S2 & S3). split; [done|]. unfold zleft in *. destruct rr; [split; [done|lia]|done].
  - destruct Hs as (S1 & S2 & S3). split; [done|]. unfold zleft in *. split; [done|lia].
Qed.

(** ** The order on nested parsers *)

(** The octets left at every level; 0 is no parser. *)
Fixpoint rank (D : nat) (o : option ZoneParser) : list nat :=
  match D with
  | O => []
  | S D => match o with None => O :: rank D None | Some zp => S (zleft zp) :: rank D (sub zp) end
  end.
Fixpoint lexlt (a b : list nat) : Prop :=
  match a, b with x :: a, y :: b => (x < y)%nat \/ (x = y /\ lexlt a b) | _, _ => False end.
Definition smaller (a b : list nat) : Prop := length a = length b /\ lexlt a b.

Lemma smaller_acc n : forall l, length l = n -> Acc smaller l.
Proof.
  induction n as [|n IHn]; intros l Hl; [destruct l; [|done]; constructor; by intros a [_ Ha]; destruct a|].
  destruct l as [|y l]; [done|]. injection Hl as Hl. revert l Hl. induction (lt_wf y) as [y _ IHy]. intros l Hl.
  induction (IHn l Hl) as [l _ IHl]. constructor. intros [|x a] [Hlen Ha]; [done|]. injection Hlen as Hlen.
  destruct Ha as [Hx|[-> Ha]]; [apply IHy; lia|]. apply IHl; [by split|lia].
Qed.
Lemma rank_length D : forall o, length (rank D o) = D.
Proof. induction D as [|D IH]; intros o; [done|]. destruct o; cbn; by rewrite IH. Qed.

(** [Next] of a parser with at most [D] levels. *)
Definition next_ends (D : nat) (zp : ZoneParser) : Prop := exists n rr zp',
  (forall m, (n <= m)%nat -> Zone_Next m zp = Ok (rr, zp')) /\ good D zp' /\ typed_opt rr /\
  (rr <> None -> smaller (rank D (Some zp')) (rank D (Some zp))).

Lemma rank_first D zp zp' : (zleft zp' < zleft zp)%nat -> smaller (rank (S D) (Some zp')) (rank (S D) (Some zp)).
Proof. intros H. split; [by rewrite !rank_length|]. cbn. left. lia. Qed.
Lemma rank_sub D s zp o : sub zp = Some s -> smaller (rank D o) (rank D (Some s)) -> smaller (rank (S D) (Some (set_sub o zp))) (rank (S D) (Some zp)).
Proof. intros Hs [_ H]. split; [by rewrite !rank_length|]. cbn. right. by rewrite Hs. Qed.
Lemma smaller_trans a b c : smaller a b -> smaller b c -> smaller a c.
Proof.
  intros [L1 H1] [L2 H2]. split; [lia|]. clear L1 L2. revert b c H1 H2. induction a as [|x a IH]; intros [|y b] [|z c]; cbn; try done.
  intros [|[-> ?]] [|[-> ?]]; [left; lia|left; lia|left; lia|right; eauto].
Qed.

Lemma next_ends_sub D s zp : sub zp = Some s -> parseErr zp = None -> good (S D) zp -> next_ends D s ->
  (good (S D) (set_sub None zp) -> next_ends (S D) (set_sub None zp)) -> next_ends (S D) zp.
Proof.
  intros Hs He (G1 & G2 & G3) (n & rr & s' & Hn & Hg & Ht & Hr) Hpop.
  assert (good (S D) (set_sub (Some s') zp)) as Hgs by done. assert (good (S D) (set_sub None zp)) as Hgn by done.
  destruct rr as [rr|].
  { exists (S n), (Some rr), (set_sub (Some s') zp). split_and!; [|done|done|].
    - intros [|m] Hm; [lia|]. cbn [Zone_Next]. rewrite He, Hs, Hn by lia. done.
    - intros _. apply (rank_sub D s); [done|]. by apply Hr. }
  destruct (Zone_Err s') as [e|] eqn:Ee.
  { exists (S n), None, (set_sub (Some s') zp). split_and!; [|done|done|done].
    intros [|m] Hm; [lia|]. cbn [Zone_Next]. rewrite He, Hs, Hn by lia. gosimp. by rewrite Ee. }
  destruct (Hpop Hgn) as (n2 & rr & zp' & Hn2 & Hg2 & Ht2 & Hr2). exists (S (n + n2)), rr, zp'. split_and!; [|done|done|].
  - intros [|m] Hm; [lia|]. cbn [Zone_Next]. rewrite He, Hs, Hn by lia. gosimp. rewrite Ee. apply Hn2. lia.
  - intros Hne. eapply smaller_trans; [by apply Hr2|]. apply (rank_sub D s); [done|]. split; [by rewrite !rank_length|].
    destruct D as [|D']; [destruct (sub zp); [done|discriminate]|]. cbn. left. lia.
Qed.

Lemma rank_ind D (Q : ZoneParser -> Prop) :
  (forall zp, (forall zp', smaller (rank D (Some zp')) (rank D (Some zp)) -> Q zp') -> Q zp) -> forall zp, Q zp.
Proof.
  intros H zp. assert (Acc smaller (rank D (Some zp))) as Ha by (apply (smaller_acc D), rank_length).
  remember (rank D (Some zp)) as l eqn:El. revert zp El. induction Ha as [l _ IH]. intros zp ->. apply H. intros zp' Hs. by eapply IH.
Qed.

Lemma Zone_Next_ends D : forall zp, good D zp -> next_ends D zp.
Proof.
  induction D as [|D IHD]; [done|]. intros zp. induction zp as [zp IH] using (rank_ind (S D)). intros Hg.
  destruct (parseErr zp) as [e|] eqn:He.
  { exists 1%nat, None, zp. split_and!; [|done..]. intros [|m] Hm; [lia|]. cbn [Zone_Next]. by rewrite He. }
  destruct (sub zp) as [s|] eqn:Hs.
  { pose proof Hg as (_ & _ & Hgs). rewrite Hs in Hgs. apply (next_ends_sub D s); [done|done|done|by apply IHD|]. intros Hgn. apply IH; [|done].
    apply (rank_sub D s); [done|]. destruct D as [|D']; [done|]. split; [by rewrite !rank_length|]. cbn. left. lia. }
  pose proof (token_loop_ok (S D) (left_over (zc zp) + 1) zExpectOwnerDir (zleft zp) zp) as Hl.
  assert (running (S D) (zleft zp) zp) as Hr by done. specialize (Hl Hr ltac:(unfold zleft; lia)).
  destruct (token_loop _ _ zp) as [[rr zp1]| | |] eqn:El; try done. destruct Hl as [Hg1 Hrr].
  destruct rr as [rr|].
  { exists 1%nat, rr, zp1. split_and!; [|done|destruct rr; [apply Hrr|done]|].
    - intros [|m] Hm; [lia|]. cbn [Zone_Next]. rewrite He, Hs, El. done.
    - destruct rr; [intros _; apply rank_first, Hrr|done]. }
  destruct Hrr as [He1 Hlt]. destruct (IH zp1 (rank_first _ _ _ Hlt) Hg1) as (n & rr & zp' & Hn & Hg' & Ht & Hd).
  exists (S n), rr, zp'. split_and!; [|done|done|].
  - intros [|m] Hm; [lia|]. cbn [Zone_Next]. rewrite He, Hs, El. gosimp. apply Hn. lia.
  - intros Hne. eapply smaller_trans; [by apply Hd|]. by apply rank_first.
Qed.

Lemma all_records_ends D : forall zp, good D zp -> exists n l e, (forall m, (n <= m)%nat -> all_records m zp = Ok (l, e)) /\ Forall typed_rr l.
Proof.
  intros zp. induction zp as [zp IH] using (rank_ind D). intros Hg. destruct (Zone_Next_ends D zp Hg) as (n & rr & zp' & Hn & Hg' & Ht & Hr).
  destruct rr as [rr|].
  - destruct (IH zp' (Hr ltac:(done)) Hg') as (n2 & l & e & Hn2 & Hl). exists (S (n + n2)), (rr :: l), e. split; [|by constructor].
    intros [|m] Hm; [lia|]. cbn [all_records]. rewrite Hn by lia. gosimp. rewrite Hn2 by lia. done.
  - exists (S n), [], (Zone_Err zp'). split; [|done]. intros [|m] Hm; [lia|]. cbn [all_records]. rewrite Hn by lia. done.
Qed.

(** A parser as a client sets it up. *)
Definition with_settings (ttl : option Z) (allowed fs : bool) (zp : ZoneParser) : ZoneParser :=
  SetIncludeFS fs (SetIncludeAllowed allowed (match ttl with Some t => SetDefaultTTL t zp | None => zp end)).

Lemma fresh_good zp ttl allowed fs : fresh zp -> match ttl with Some t => u32 t | None => True end -> good 16 (with_settings ttl allowed fs zp).
Proof.
  intros ((Hl & Hh & Ht & Hi) & Hs & Hd & Hg & Hn) Hu. split; [|split].
  - split; [by destruct ttl|]. split; [by destruct ttl|]. split; [destruct ttl; [done|cbn; by rewrite Hn]|by destruct ttl].
  - unfold allowance. assert (includeDepth (with_settings ttl allowed fs zp) = includeDepth zp) as -> by (by destruct ttl). rewrite Hd.
    change (Z.to_nat (7 - 0)) with 7%nat. match goal with |- context [if ?b then _ else _] => destruct b end; lia.
  - assert (sub (with_settings ttl allowed fs zp) = sub zp) as -> by (by destruct ttl). by rewrite Hs.
Qed.

(** ** Theorems *)

(** C10: the loop over the records of a zone file ends, without panic: for every
    text, error of the reader, origin, file name, default TTL and setting, and for
    every answer of the file system to $INCLUDE, the calls of [Next] return finitely
    many records and then none.  Every record is well typed: stored in the struct of
    its type, with integers that fit their fields. *)
Theorem zone_parsing_ends r e origin file ttl allowed fs : match ttl with Some t => u32 t | None => True end ->
  exists zp, NewZoneParser r e origin file = Ok zp /\
  exists n l err, (forall m, (n <= m)%nat -> all_records m (with_settings ttl allowed fs zp) = Ok (l, err)) /\ Forall typed_rr l.
Proof.
  intros Hu. pose proof (NewZoneParser_fine r e origin file) as H. destruct (NewZoneParser _ _ _ _) as [zp| | |]; try done.
  exists zp. split; [done|]. apply (all_records_ends 16). by apply fresh_good.
Qed.
End Zone.

(** Some implementation of the interfaces, for examples. *)
Definition no_floats : Floats := {| loc_seconds _ := None; loc_altitude _ := None; is_float _ := false; loc_altitude_range t a H := match H with end |}.
Definition no_files : Files := fun _ _ => inr (bs "no such file").

Lemma zone_parsing_ends_witness : u32 3600 /\
  exists zp, NewZoneParser (bs "a A 1.2.3.4") None (bs "ex.") [] = Ok zp /\
  exists n l err, (forall m, (n <= m)%nat -> @all_records ascii_casing no_floats no_files m (with_settings (Some 3600) true false zp) = Ok (l, err)) /\ Forall typed_rr l.
Proof.
  assert (u32 3600) as H by (unfold u32; lia). split; [exact H|].
  exact (@zone_parsing_ends ascii_casing no_floats no_files (bs "a A 1.2.3.4") None (bs "ex.") [] (Some 3600) true false H).
Defined.
