(* ===== verification/ZoneCarry.v ===== *)
(** * A printed zone is read back

    The lines that [String] writes for records, parsed by [ZoneParser]: the same
    records, in order, and no error. *)

From S2P Require Import Prelude Go Utf8 Labels Escape Names NameDecode NameEncode NameLen Wire Codec Text NameCarry Encodings RData RDataCarry RR RRCarry Ztypes Duplicate Dnssec Strconv Netip TimeText Types Lexer LexCarry Scan ScanRR NetipCarry Present PresentCarry SvcbText EdnsText Generate Zone RecordCarry ScanSafe ParseSafe ZoneSafe.

#[local] Open Scope string_scope.

Section ZoneCarry.
Context {casing : Casing} {floats : Floats} {files : Files}.


(** ** Peek *)

(** A token that is given is the current one, unless another waits there. *)
Definition said (r : (zlexer * scan) + (lex * bool * zlexer)) : Prop :=
  match r with inr (l, true, z) => nextL z = true \/ zl_l z = l | _ => True end.

Lemma lex_step_said z t x : said (lex_step z t x).
Proof.
  unfold lex_step. set (z0 := put_place z). clearbody z0. set (t0 := if com_cap t <=? _ then _ else t). clearbody t0.
  destruct (_ || _).
  { unfold on_blank, go, give, give_l, said. destruct (escape t0 || quote z0); [done|]. destruct (commt z0); [done|].
    assert (forall z1 l1, before_blank z0 t0 = inl (z1, Some l1) -> zl_l z1 = l1) as Hb.
    { intros z1 l1. unfold before_blank. destruct (str t0); [done|]. destruct (owner z0); [by intros [= <- <-]|]. destruct (lookup_word _); [by intros [= <- <-]|done]. }
    destruct (before_blank z0 t0) as [[z1 [retL|]]|z1]; [|destruct (space (set_owner false z1)); [done|by right]|by right].
    destruct (space (set_owner false z1)); [right; exact (Hb _ _ eq_refl)|by left]. }
  destruct (_ =b _).
  { unfold on_semicolon, go, give, give_l, said. destruct (escape t0 || quote z0); [done|]. destruct (_ && _); [by right|]. destruct (str _); [done|by right]. }
  destruct (_ =b _); [done|].
  destruct (_ =b _).
  { unfold on_newline, go, give, give_l, said. destruct (quote z0); [done|]. destruct (commt z0).
    - destruct (brace _ =? 0); [by right|done].
    - destruct (brace z0 =? 0); [|done]. destruct (str _); [by right|]. destruct (rrtype _); [by left|]. destruct (number_of _ _); by left. }
  destruct (_ =b _). { unfold on_backslash, go. by destruct (commt z0), (escape t0). }
  destruct (_ =b _).
  { unfold on_quote, go, give, give_l, said. destruct (commt z0); [done|]. destruct (escape t0); [done|]. destruct (str t0); by (left + right). }
  destruct (_ || _).
  { unfold on_brace, go, give_l, said. destruct (commt z0); [done|]. destruct (escape t0 || quote z0); [done|]. destruct (_ =b _); [|done]. destruct (_ <? _); [by right|done]. }
  unfold on_other, go. by destruct (commt z0).
Qed.

Lemma lex_end_said z t : said (inr (lex_end z t)).
Proof.
  unfold lex_end, said. destruct (br_err z); [done|]. destruct (str t) as [|c s]; cbn.
  - destruct (com t); [|by right]. destruct (brace z =? 0); [done|by right].
  - destruct (com t); [by right|by left].
Qed.

Lemma lex_loop_said r : forall z t, said (inr (lex_loop r z t)).
Proof.
  induction r as [|x r IH]; intros z t; cbn [lex_loop]; [apply lex_end_said|]. pose proof (lex_step_said (take_byte x r z) t x) as H.
  destruct (lex_step _ _ _) as [[z1 t1]|r1]; [apply IH|exact H].
Qed.

Lemma Next_said z l z' : cachedL z = None -> Next z = (l, true, z') -> cachedL z' = None /\ (nextL z' = true \/ zl_l z' = l).
Proof.
  intros Hc. unfold Next. rewrite Hc. destruct (nextL z) eqn:Hn; [intros [= <- <-]; split; [done|by right]|]. destruct (err (zl_l z)); [done|].
  set (com0 := ztake _ _). set (z0 := set_comment _ _). destruct (at_end z0) eqn:He; intros E.
  - pose proof (lex_end_said z0 (MkScan [] com0 maxTok false)) as H. rewrite E in H. split; [|exact H].
    revert E. unfold lex_end. destruct (br_err z0); [done|]. cbn. destruct com0; [|by intros [= <- <-]]. destruct (brace z =? 0); [done|by intros [= <- <-]].
  - pose proof (lex_loop_said (br z0) z0 (MkScan [] com0 maxTok false)) as H. rewrite E in H. split; [|exact H].
    pose proof (lex_loop_cached (br z0) z0 (MkScan [] com0 maxTok false)) as H2. rewrite E in H2. cbn [snd] in H2. by rewrite H2.
Qed.

(** Two calls of [Peek]: the first gives the next token, the second it or the one
    after; the tokens are still there. *)
Lemma two_peeks z t ts zend : cachedL z = None -> nextL z = false -> reads z (t :: ts) zend -> nextL zend = false -> Forall (fun t => t.2 <> []) (t :: ts) ->
  exists l1 z1 l2, Peek z = (l1, z1) /\ token l1 = t.2 /\ Peek z1 = (l2, z1) /\ token l2 <> [] /\ reads z1 (t :: ts) zend.
Proof.
  intros Hc Hn Hr Hend Ht. destruct t as [v t]. destruct Hr as (z' & (l & E & V & T & R) & Hr). apply Forall_cons in Ht as [Ht Hts]. cbn [snd] in *.
  destruct (Next_said z l z' Hc E) as [Hc' Hs]. unfold Peek at 1. rewrite Hn, E. cbn [negb]. destruct (nextL z') eqn:Hn'.
  - exists l, (set_cachedL (Some l) z'), (zl_l z'). split_and!; [done|done|by unfold Peek; cbn; rewrite Hn'| |].
    + destruct ts as [|[v2 t2] ts]; [cbn in Hr; congruence|]. destruct Hr as (z2 & (l2 & E2 & V2 & T2 & R2) & Hr). unfold Next in E2. rewrite Hc', Hn' in E2. injection E2 as <- _.
      apply Forall_cons in Hts as [H2 _]. by rewrite T2.
    + exists z'. split; [|done]. exists l. split; [|done]. unfold Next. cbn. by destruct z'; cbn in *; subst.
  - destruct Hs as [?|Hs]; [done|]. exists l, (set_nextL true z'), l. split_and!; [done|done|by unfold Peek; cbn; rewrite Hs|by rewrite T|].
    exists z'. split; [|done]. exists l. split; [|done]. unfold Next. cbn. rewrite Hc', Hs. by destruct z'; cbn in *; subst.
Qed.

(** ** TTLs *)

Lemma ttl_digits l : forall n v, 0 <= n -> fold_left (parse_digit 10 32) l (Some n) = Some v -> Forall (fun c => isDigit c = true) l ->
  fold_left ttl_step (map bval l) (Some (0, n)) = Some (0, v).
Proof.
  induction l as [|c l IH]; intros n v Hn H Hd; cbn [fold_left map] in *; [by injection H as ->|]. apply Forall_cons in Hd as [Hc Hd].
  assert (48 <= bval c <= 57) as Hr by (unfold isDigit in Hc; lia).
  assert (digit_val c = Some (bval c - 48)) as Hv by (clear -Hc; destruct c; try discriminate Hc; reflexivity).
  unfold parse_digit at 2 in H. rewrite Hv in H. cbn [mbind option_bind] in H.
  assert (forall l, fold_left (parse_digit 10 32) l None = None) as Hnone by (clear; induction l; [done|]; cbn; by rewrite IHl).
  destruct (10 <=? bval c - 48) eqn:E1; [lia|]. destruct (2 ^ 32 <=? n * 10 + (bval c - 48)) eqn:E2; [by rewrite Hnone in H|].
  assert (ttl_step (Some (0, n)) (bval c) = Some (0, n * 10 + (bval c - 48))) as ->; [|apply IH; [lia|exact H|exact Hd]].
  unfold ttl_step. cbn [mbind option_bind]. repeat match goal with |- context [if ?b then _ else _] => destruct b eqn:?; try lia end.
  do 2 f_equal. rewrite (Z.mod_small (n * 10)) by lia. apply Z.mod_small. lia.
Qed.

Lemma stringToTTL_Itoa t : 0 <= t < 2 ^ 32 -> stringToTTL (Itoa t) = Some t.
Proof.
  intros Ht. destruct (Itoa_digits t ltac:(lia)) as [Hn Hd]. pose proof (ParseUint_Itoa t 32 Ht) as H. unfold stringToTTL. unfold ParseUint in H. destruct (Itoa t) as [|c s] eqn:E; [done|].
  rewrite (ttl_digits (c :: s) 0 t); [|done|exact H|exact Hd]. cbn [mbind option_bind]. rewrite Z.add_0_l, Z.mod_small by lia. by destruct (Z.ltb_spec (2 ^ 32 - 1) t); [lia|].
Qed.

(** ** Tokens of the header *)

(** From a state of the parser to another, whatever fuel is left. *)
Definition steps (st : zstate) (zp : ZoneParser) (st' : zstate) (zp' : ZoneParser) : Prop :=
  forall n, (left_over (zc zp) < n)%nat -> exists n', (left_over (zc zp') < n')%nat /\ token_loop n st zp = token_loop n' st' zp'.

Lemma steps_trans st1 zp1 st2 zp2 st3 zp3 : steps st1 zp1 st2 zp2 -> steps st2 zp2 st3 zp3 -> steps st1 zp1 st3 zp3.
Proof. intros H1 H2 n Hn. destruct (H1 n Hn) as (n1 & Hn1 & ->). by apply H2. Qed.

Lemma step st zp l z1 st' zp' : Next (zc zp) = (l, true, z1) -> on_token st l (set_c z1 zp) = Ok (Continue st' zp') -> zc zp' = z1 -> steps st zp st' zp'.
Proof.
  intros E H Hz n Hn. apply Next_progress in E as Hp. destruct n as [|n]; [lia|]. exists n. split; [rewrite Hz; lia|]. cbn [token_loop]. rewrite E. cbn [negb]. by rewrite H.
Qed.

(** Between two records. *)
Definition at_rest (zp : ZoneParser) : Prop := parseErr zp = None /\ sub zp = None /\ Rdlength (zh zp) = 0.

Lemma owner_name ls : owner_value (show_name ls) = zOwner.
Proof.
  assert (ToUpper (show_name ls) = map to_upper (show_name ls)) as E.
  { apply ToUpper_ascii. destruct ls as [|l ls]; [by repeat constructor|]. exact (show_labels_ascii (l :: ls)). }
  assert (last (map to_upper (show_name ls)) = Some ch_dot) as Hl by (rewrite <- list_fmap_alt || idtac; rewrite fmap_last, show_name_last; done).
  unfold owner_value. rewrite E. repeat match goal with |- context [bool_decide ?P] => rewrite (bool_decide_false P) by (intros Hs; rewrite Hs in Hl; discriminate Hl) end. done.
Qed.

(** One step for each state a printed header goes through; [h] is the header so far. *)
Definition shift (z : zlexer) (h : RR_Header) (zp : ZoneParser) : ZoneParser := set_h (fun _ => h) (set_c z zp).

Lemma step_owner zp ls z1 : good_labels ls -> gives (zc zp) zOwner (show_name ls) z1 ->
  exists tl, steps zExpectOwnerDir zp zExpectOwnerBl (shift z1 (MkHeader (show_name ls) (Rrtype (zh zp)) ClassINET tl (Rdlength (zh zp))) zp).
Proof.
  intros Hls (l & E & V & T & R). exists (match defttl zp with Some d => ttl d | None => Ttl (zh zp) end).
  eapply step; [exact E| |done]. unfold on_token. rewrite R. unfold owner_or_directive. rewrite V, T. change (zOwner =? zNewline) with false. change (zOwner =? zOwner) with true. cbv iota zeta.
  rewrite (toAbsoluteName_good _ _ Hls). gosimp. unfold to, shift. destruct zp as [? ? ? ? [[]|] [] ? ? ? ? ?]; reflexivity.
Qed.

Lemma step_blank st st' msg zp z1 t : gives (zc zp) zBlank t z1 -> (forall l zp, err l = false -> on_token st l zp = expect_blank msg l st' zp) ->
  steps st zp st' (set_c z1 zp).
Proof. intros (l & E & V & T & R) H. eapply step; [exact E| |done]. rewrite (H l _ R). unfold expect_blank. by rewrite V. Qed.

Lemma step_ttl zp t z1 c : 0 <= t < 2 ^ 32 -> gives_code (zc zp) zString (Itoa t) c z1 ->
  exists d, steps zExpectAny zp zExpectAnyNoTTLBl (set_defttl d (set_h (set_Ttl t) (set_c z1 zp))).
Proof.
  intros Ht (l & E & V & T & R & _). exists (if by_directive zp then defttl zp else Some (MkTtl t false)).
  eapply step; [exact E| |done]. unfold on_token. rewrite R, V. change (zString =? zRrtpe) with false. change (zString =? zClass) with false. change (zString =? zString) with true. cbv iota.
  unfold take_ttl. rewrite T, (stringToTTL_Itoa t Ht). unfold to, by_directive. destruct zp as [? ? ? ? [[? []]|] [] ? ? ? ? ?]; reflexivity.
Qed.

Lemma step_class zp t c z1 : gives_code (zc zp) zClass t c z1 -> steps zExpectAnyNoTTL zp zExpectRrtypeBl (set_h (set_Class c) (set_c z1 zp)).
Proof.
  intros (l & E & V & T & R & C). eapply step; [exact E| |done]. unfold on_token. rewrite R, V. change (zClass =? zClass) with true. cbv iota.
  unfold take_class, to. rewrite C by (by rewrite V || done). done.
Qed.

Lemma step_type zp t c z1 : gives_code (zc zp) zRrtpe t c z1 -> steps zExpectRrtype zp zExpectRdata (set_h (set_Rrtype c) (set_c z1 zp)).
Proof.
  intros (l & E & V & T & R & C). eapply step; [exact E| |done]. unfold on_token. rewrite R, V. change (zRrtpe =? zRrtpe) with true. cbn [negb]. cbv iota.
  unfold take_type, to. by rewrite C.
Qed.

Lemma header_steps zp ls t c y r sp : at_rest zp -> good_labels ls -> 0 <= t < 2 ^ 32 -> 0 <= c < 65536 -> readable_type y ->
  ready (zc zp) (show_name ls ++ x09 :: Itoa t ++ x09 :: Class_String c ++ x09 :: Type_String y ++ x09 :: r) false sp false true ->
  exists zp' z8, steps zExpectOwnerDir zp zExpectRdata zp' /\ gives (zc zp') zBlank [ch_space] z8 /\ ready z8 r false true true false /\
    parseErr zp' = None /\ sub zp' = None /\ zh zp' = MkHeader (show_name ls) y c t 0 /\ zorigin zp' = zorigin zp.
Proof.
  intros (Hp & Hs & Hr) Hls Ht Hc Hy Hz.
  destruct (header_reads _ _ _ _ _ _ _ (show_name_word ls) (owner_name ls) (proj1 Ht) Hc Hy Hz) as (z1 & z2 & z3 & z4 & z5 & z6 & z7 & z8 & G1 & G2 & G3 & G4 & G5 & G6 & G7 & G8 & H8).
  destruct (step_owner zp ls z1 Hls G1) as (tl & S1). set (zp1 := shift _ _ _) in S1.
  pose proof (step_blank zExpectOwnerBl zExpectAny _ zp1 z2 _ G2 ltac:(intros l0 zp0 R0; unfold on_token; rewrite R0; reflexivity)) as S2.
  destruct (step_ttl (set_c z2 zp1) t z3 0 Ht G3) as (d & S3). set (zp3 := set_defttl _ _) in S3.
  pose proof (step_blank zExpectAnyNoTTLBl zExpectAnyNoTTL _ zp3 z4 _ G4 ltac:(intros l0 zp0 R0; unfold on_token; rewrite R0; reflexivity)) as S4.
  pose proof (step_class (set_c z4 zp3) _ _ _ G5) as S5. set (zp5 := set_h _ _) in S5.
  pose proof (step_blank zExpectRrtypeBl zExpectRrtype _ zp5 z6 _ G6 ltac:(intros l0 zp0 R0; unfold on_token; rewrite R0; reflexivity)) as S6.
  pose proof (step_type (set_c z6 zp5) _ _ _ G7) as S7.
  eexists _, z8. split; [eapply steps_trans; [exact S1|]; eapply steps_trans; [exact S2|]; eapply steps_trans; [exact S3|]; eapply steps_trans; [exact S4|];
    eapply steps_trans; [exact S5|]; eapply steps_trans; [exact S6|exact S7]|].
  split_and!; [exact G8|exact H8|exact Hp|exact Hs| |done]. by cbn; rewrite Hr.
Qed.

(** ** The data of a record *)

Lemma line_toks_full items : Forall item_ok items -> Forall (fun t => t.2 <> []) (line_toks items).
Proof.
  assert (forall i, item_ok i -> Forall (fun t => t.2 <> []) (item_toks i)) as Hi.
  { intros [w|q] H; [constructor; [by apply word_nonempty|done]|]. destruct q; repeat constructor; done. }
  induction 1 as [|i l Hok H IH]; [by repeat constructor|]. destruct l as [|j l].
  - apply Forall_app. split; [by apply Hi|by repeat constructor].
  - change (line_toks (i :: j :: l)) with (item_toks i ++ [(zBlank, [ch_space])] ++ line_toks (j :: l)). apply Forall_app. split; [by apply Hi|]. by constructor.
Qed.

Lemma line_toks_head items : known items -> exists t ts, line_toks items = t :: ts /\ t.2 <> bs "\#".
Proof.
  intros H. destruct items as [|[w|q] [|j l]]; try (eexists _, _; split; [reflexivity|done]); (eexists _, _; split; [reflexivity|]; cbn; intros ->; by apply H).
Qed.

Lemma record_step now zp z8 k data r n : 0 <= now -> gives (zc zp) zBlank [ch_space] z8 -> text_data k data -> TypeToRR (Rrtype (zh zp)) = Some k ->
  ready z8 (line_text (record_items now k data) ++ x0a :: r) false true true false -> (left_over (zc zp) < n)%nat ->
  exists zend sp, ready zend r false sp false true /\
    token_loop n zExpectRdata zp = Ok (Some (Some (MkRR (zh zp) k (as_read k data))), set_c zend zp).
Proof.
  intros Hnow (l & E & V & T & R) Hd Hk Hz Hn. destruct (record_items_ok now k data Hnow Hd) as [Hok Hkn].
  destruct (line_reads _ z8 r true Hok Hz) as (zend & sp & Hr & Hend). exists zend, sp. split; [done|].
  destruct (line_toks_head _ Hkn) as (t & ts & Et & Ht). pose proof (line_toks_full _ Hok) as Hfull. pose proof (record_parse now k (zorigin zp) data Hnow Hd) as Hparse.
  rewrite Et in Hr, Hfull, Hparse.
  destruct (two_peeks z8 t ts zend) as (l1 & z9 & l2 & P1 & T1 & P2 & T2 & Hr9); [by destruct Hz|by destruct Hz|done|by destruct Hend|done|].
  apply Next_progress in E as Hp. destruct n as [|n]; [lia|]. cbn [token_loop]. rewrite E. cbn [negb]. unfold on_token. rewrite R. unfold record_data.
  change (zh (set_c z8 zp)) with (zh zp). rewrite Hk. cbn [default]. unfold peek. change (zc (set_c z8 zp)) with z8. rewrite P1. cbn [zc set_c].
  rewrite T1, (bool_decide_false _ Ht), P2, (bool_decide_false _ T2), V. change (zBlank =? zNewline) with false. cbv iota. unfold with_lexer. cbn [zc set_c zorigin].
  change (id k) with k. rewrite (Hparse z9 zend Hr9). done.
Qed.

(** ** Records and zones *)

(** Records that are printed in this way: a name and data in the canonical form, and
    the struct of the type. *)
Definition text_record (rr : RR) : Prop :=
  (exists ls, good_labels ls /\ Name (Hdr rr) = show_name ls) /\ 0 <= Ttl (Hdr rr) < 2 ^ 32 /\ 0 <= Class_ (Hdr rr) < 65536 /\
  TypeToRR (Rrtype (Hdr rr)) = Some (struct rr) /\ text_data (struct rr) (data rr).

(** The record that is read: the data length is 0. *)
Definition read_record (rr : RR) : RR := MkRR (set_Rdlength 0 (Hdr rr)) (struct rr) (as_read (struct rr) (data rr)).

(** The records, each on a line. *)
Definition record_line (now : Z) (rr : RR) : res error bytes := s ← rr_String now rr; Ok (s ++ [x0a]).
Fixpoint zone_text (now : Z) (rrs : list RR) : res error bytes :=
  match rrs with
  | [] => Ok []
  | rr :: rrs => s ← record_line now rr; t ← zone_text now rrs; Ok (s ++ t)
  end.

Lemma TypeToRR_inv t k : TypeToRR t = Some k -> type_code k = Some t.
Proof. unfold TypeToRR. destruct (list_find _ all_structs) as [[i k']|] eqn:E; [|done]. apply list_find_Some in E as (_ & H & _). by intros [= <-]. Qed.

Lemma text_types : forallb (fun k => match type_code k with Some t => (0 <? t) && (t <? 65535) && negb (t =? 255) && negb (t =? 41) | None => false end) text_structs = true.
Proof. vm_compute. reflexivity. Qed.

Lemma text_type rr : text_record rr -> readable_type (Rrtype (Hdr rr)) /\ Rrtype (Hdr rr) <> 41.
Proof.
  intros (_ & _ & _ & Hk & (Hin & _)). apply TypeToRR_inv in Hk. pose proof text_types as H. rewrite forallb_forall in H. apply list_elem_of_In, H in Hin.
  rewrite Hk in Hin. unfold readable_type. lia.
Qed.

Lemma record_text now rr : text_record rr -> exists ls, good_labels ls /\ Name (Hdr rr) = show_name ls /\
  record_line now rr = Ok (show_name ls ++ x09 :: Itoa (Ttl (Hdr rr)) ++ x09 :: Class_String (Class_ (Hdr rr)) ++ x09 :: Type_String (Rrtype (Hdr rr)) ++
    x09 :: line_text (record_items now (struct rr) (data rr)) ++ [x0a]).
Proof.
  intros Hrr. destruct (text_type rr Hrr) as [_ N]. destruct Hrr as ((ls & Hls & Hn) & _ & _ & _ & Hd). exists ls. split_and!; [done..|].
  assert (RR_Header_String (Hdr rr) = Ok (show_name ls ++ [x09] ++ Itoa (Ttl (Hdr rr)) ++ [x09] ++ Class_String (Class_ (Hdr rr)) ++ [x09] ++ Type_String (Rrtype (Hdr rr)) ++ [x09])) as Hh.
  { unfold RR_Header_String. rewrite Hn, sprintName_show. gosimp. by rewrite (proj2 (Z.eqb_neq _ 41) N). }
  unfold record_line, rr_String. rewrite (record_String now _ _ _ _ Hd Hh). gosimp. f_equal. by rewrite <- !app_assoc.
Qed.

Lemma read_one zp rr s r sp now : 0 <= now -> text_record rr -> record_line now rr = Ok s -> at_rest zp -> ready (zc zp) (s ++ r) false sp false true ->
  exists zp' sp', (forall n, Zone_Next (S n) zp = Ok (Some (read_record rr), zp')) /\ at_rest zp' /\ ready (zc zp') r false sp' false true.
Proof.
  intros Hnow Hrr Es Hat Hz. destruct (record_text now rr Hrr) as (ls & Hls & Hn & E). rewrite Es in E. injection E as ->. destruct (text_type rr Hrr) as [Hy _].
  destruct Hrr as (_ & Ht & Hc & Hk & Hd). repeat (rewrite <- app_assoc in Hz; cbn [app] in Hz).
  destruct (header_steps zp ls _ _ _ _ sp Hat Hls Ht Hc Hy Hz) as (zp1 & z8 & S1 & G8 & H8 & P1 & P2 & P3 & P4).
  destruct (S1 (left_over (zc zp) + 1)%nat ltac:(lia)) as (n1 & Hn1 & E1).
  destruct (record_step now zp1 z8 (struct rr) (data rr) r n1 Hnow G8 Hd) as (zend & sp2 & Hend & E2); [by rewrite P3|exact H8|exact Hn1|].
  exists (set_c zend zp1), sp2. split_and!; [|unfold at_rest; split_and!; [exact P1|exact P2|by cbn; rewrite P3]|exact Hend]. intros n. destruct Hat as (A1 & A2 & _). cbn [Zone_Next]. rewrite A1, A2, E1, E2. gosimp.
  do 3 f_equal. unfold read_record. f_equal. rewrite P3. destruct (Hdr rr). cbn in *. by subst.
Qed.

Lemma read_end zp sp n : at_rest zp -> ready (zc zp) [] false sp false true -> exists zp', Zone_Next (S n) zp = Ok (None, zp') /\ Zone_Err zp' = None.
Proof.
  intros (A1 & A2 & _) Hz. destruct (Next_ready _ _ _ _ _ _ Hz) as (z0 & E0 & H0). cbn [lex_loop] in E0. pose proof (r_err _ _ _ _ _ _ H0) as He. pose proof (r_brace _ _ _ _ _ _ H0) as Hb.
  unfold lex_end in E0. cbn in E0. rewrite He, Hb in E0. cbn in E0.
  exists (set_c (set_at_end z0) zp). split.
  - cbn [Zone_Next]. rewrite A1, A2. replace (left_over (zc zp) + 1)%nat with (S (left_over (zc zp))) by lia. cbn [token_loop]. rewrite E0. done.
  - destruct zp. cbn in *. subst. cbn. unfold lexer_Err. by cbn; rewrite He.
Qed.

Lemma read_all now rrs : 0 <= now -> forall zp s sp n, Forall text_record rrs -> zone_text now rrs = Ok s -> at_rest zp -> ready (zc zp) s false sp false true ->
  (length rrs < n)%nat -> all_records n zp = Ok (map read_record rrs, None).
Proof.
  intros Hnow. induction rrs as [|rr rrs IH]; intros zp s sp n Hrr Es Hat Hz Hn; (destruct n as [|n]; [cbn in Hn; lia|]); cbn [zone_text] in Es.
  - injection Es as <-. destruct (read_end zp sp n Hat Hz) as (zp' & E & He). cbn [all_records]. rewrite E. gosimp. by rewrite He.
  - apply Forall_cons in Hrr as [Hr Hrr]. destruct (record_text now rr Hr) as (ls & _ & _ & E). rewrite E in Es. cbn [mbind res_bind] in Es.
    destruct (zone_text now rrs) as [t| | |] eqn:Et; [|done..]. cbn [mbind res_bind] in Es. injection Es as <-.
    destruct (read_one zp rr _ t sp now Hnow Hr E Hat Hz) as (zp' & sp' & E1 & Hat' & Hz'). cbn [all_records]. rewrite E1. gosimp.
    rewrite (IH zp' t sp' n Hrr eq_refl Hat' Hz') by (cbn in Hn; lia). done.
Qed.

Lemma zone_text_Ok now rrs : Forall text_record rrs -> exists s, zone_text now rrs = Ok s.
Proof.
  induction 1 as [|rr rrs Hr _ [s IH]]; [by eexists|]. destruct (record_text now rr Hr) as (ls & _ & _ & E). cbn [zone_text]. rewrite E, IH. by eexists.
Qed.

Lemma new_ready s : ready (newZLexer s None) s false false false true.
Proof. by constructor. Qed.

(** C9: the zone that [String] writes for any list of records, one on a line, is
    parsed to the same records in the same order and then no error, whatever the
    origin, the default TTL and the settings of the parser are.  The records are of
    67 of the structs ([text_structs]), with names and character strings in canonical form; what comes
    back has no data length, IPv4 addresses in the 16-octet form, and hexadecimal
    digits in the letters that were printed. *)
Theorem zone_roundtrip now rrs origin file ttl allowed fs : 0 <= now -> Forall text_record rrs -> origin = [] \/ (exists ls, good_labels ls /\ origin = show_name ls) ->
  exists s zp, zone_text now rrs = Ok s /\ NewZoneParser s None origin file = Ok zp /\
    forall n, (length rrs < n)%nat -> all_records n (with_settings ttl allowed fs zp) = Ok (map read_record rrs, None).
Proof.
  intros Hnow Hrr Ho. destruct (zone_text_Ok now rrs Hrr) as [s Es]. exists s.
  assert (exists zp, NewZoneParser s None origin file = Ok zp /\ at_rest zp /\ zc zp = newZLexer s None) as (zp & E & (A1 & A2 & A3) & Ez).
  { unfold NewZoneParser. destruct Ho as [->|(ls & Hls & ->)]; [by eexists|]. rewrite bool_decide_false by (intros Hs; pose proof (show_name_last ls) as Hl; by rewrite Hs in Hl).
    unfold Fqdn. rewrite IsFqdn_show_name. destruct (IsDomainName_good ls Hls) as [n ->]. by eexists. }
  exists zp. split_and!; [done|exact E|]. intros n Hn. apply (read_all now rrs Hnow _ s false n Hrr Es); [|unfold with_settings; destruct ttl; cbn; rewrite Ez; apply new_ready|exact Hn].
  unfold with_settings. destruct ttl; exact (conj A1 (conj A2 A3)).
Qed.

Lemma wordy_last w : forall e b, wordy e b w = true -> w <> [] -> last w <> Some x0a.
Proof.
  induction w as [|c w IH]; intros e b H Hw; [done|]. destruct w as [|d w].
  - cbn in *. intros [= ->]. by destruct e.
  - rewrite last_cons_cons. assert (exists e' b', wordy e' b' (d :: w) = true) as (e' & b' & H'); [|by eapply IH; [exact H'|]].
    change (wordy e b (c :: d :: w)) with (if e then negb ((c =b x0a) || (c =b x0d)) && wordy false (plain_char c) (d :: w) else if c =b ch_bslash then wordy true false (d :: w) else plain_char c && wordy false true (d :: w)) in H.
    destruct e; [apply andb_true_iff in H as [_ H]; by eexists _, _|].
    destruct (c =b ch_bslash); [by eexists _, _|]. apply andb_true_iff in H as [_ H]. by eexists _, _.
Qed.

Lemma line_last items : Forall item_ok items -> last (x09 :: line_text items) <> Some x0a.
Proof.
  intros H. induction H as [|i l Hi H IH]; [done|]. assert (last (x09 :: item_text i) <> Some x0a) as Hl.
  { destruct i as [w|q]; cbn [item_text].
    - pose proof (word_nonempty w Hi) as Hw. destruct w as [|c w]; [done|]. rewrite last_cons_cons. by eapply wordy_last.
    - change (x09 :: [ch_quote] ++ q ++ [ch_quote]) with ((x09 :: ch_quote :: q) ++ [ch_quote]). by rewrite last_snoc. }
  destruct l as [|j l]; [exact Hl|]. change (line_text (i :: j :: l)) with (item_text i ++ [ch_space] ++ line_text (j :: l)).
  change (x09 :: item_text i ++ [ch_space] ++ line_text (j :: l)) with ((x09 :: item_text i) ++ ch_space :: line_text (j :: l)). rewrite last_app_cons.
  destruct (line_text (j :: l)) as [|c r] eqn:E; [done|]. rewrite last_cons_cons in IH. by rewrite last_cons_cons.
Qed.

(** C24: for a record of one of the 67 structs of [text_structs], with its names
    and strings in the form the printer writes and its numbers in range
    ([text_record]), [NewRR] of what [String] writes gives the record that
    [read_record] describes, and no error: the same header with Rdlength 0, the same
    data with IPv4 addresses in 16 octets and hexadecimal digits as they are
    printed.  OPT, whose [String] is a comment, and the structs whose text the
    parser does not read or reads as another value are left out. *)
Theorem NewRR_String now rr n : 0 <= now -> text_record rr -> exists s, rr_String now rr = Ok s /\ NewRR (S n) s = Ok (Some (read_record rr), None).
Proof.
  intros Hnow Hrr. destruct (record_text now rr Hrr) as (ls & _ & _ & E). pose proof E as E2. unfold record_line in E2. destruct (rr_String now rr) as [s| | |] eqn:Es; [|done..]. cbn [mbind res_bind] in E2.
  exists s. split; [done|]. assert (last s <> Some x0a /\ s <> []) as [Hl Hs].
  { injection E2 as E2. destruct Hrr as (_ & _ & _ & _ & Hd). pose proof (line_last _ (proj1 (record_items_ok now _ _ Hnow Hd))) as Hl. revert E2.
    generalize (record_items now (struct rr) (data rr)) Hl. intros items. clear. intros Hl E.
    assert (s = show_name ls ++ x09 :: Itoa (Ttl (Hdr rr)) ++ x09 :: Class_String (Class_ (Hdr rr)) ++ x09 :: Type_String (Rrtype (Hdr rr)) ++ x09 :: line_text items) as ->.
    { apply (app_inv_tail [x0a]). rewrite E. repeat (rewrite <- app_assoc; cbn [app]). done. }
    split; [|by destruct (show_name ls)]. rewrite last_app_cons, app_comm_cons, last_app_cons, app_comm_cons, last_app_cons, app_comm_cons, last_app_cons. exact Hl. }
  unfold NewRR. assert ((match last s with Some c => if c =b x0a then s else s ++ [x0a] | None => s end) = s ++ [x0a]) as ->.
  { destruct (last s) as [c|] eqn:El; [|by apply last_None in El]. destruct (beq_spec c x0a) as [->|]; [by destruct Hl|done]. }
  unfold ReadRR. assert (exists zp, NewZoneParser (s ++ [x0a]) None (bs ".") [] = Ok zp /\ at_rest zp /\ zc zp = newZLexer (s ++ [x0a]) None) as (zp & En & Hat & Ez) by (by eexists).
  rewrite En. cbn [mbind res_bind]. unfold record_line in E. rewrite Es in E.
  destruct (read_one (SetIncludeAllowed true (SetDefaultTTL defaultTtl zp)) rr (s ++ [x0a]) [] false now Hnow Hrr) as (zp' & sp' & H1 & (A1 & A2 & _) & H2).
  - unfold record_line. by rewrite Es.
  - exact Hat.
  - cbn. rewrite Ez, app_nil_r. apply new_ready.
  - rewrite H1. cbn [mbind res_bind]. do 2 f_equal. destruct zp'. cbn in *. subst. unfold lexer_Err. by rewrite (r_end _ _ _ _ _ _ H2).
Qed.
End ZoneCarry.

(** A zone for examples: names with an escape and an octet above 127, quotes in a
    string and an empty one, addresses, digits and a signature. *)
Definition demo_zone : list RR :=
  [MkRR (MkHeader (bs "ex.") 6 1 3600 0) RR_SOA [V_str (bs "ns.ex."); V_str (bs "a\.b\195.ex."); V_int 1; V_int 7200; V_int 600; V_int 86400; V_int 60];
   MkRR (MkHeader (bs "ns.ex.") 1 1 3600 4) RR_A [V_str [x01; x02; x03; x04]];
   MkRR (MkHeader (bs "ns.ex.") 28 1 3600 0) RR_AAAA [V_str [x20; x01; x0d; xb8; x00; x00; x00; x00; x00; x00; x00; x00; x00; x00; x00; x01]];
   MkRR (MkHeader (bs "ex.") 16 3 0 0) RR_TXT [V_strs [[x61; ch_space; ch_bslash; ch_quote; x3b]; []]];
   MkRR (MkHeader (bs ".") 43 1 60 0) RR_DS [V_int 1; V_int 8; V_int 2; V_str (bs "0aff")];
   MkRR (MkHeader (bs "ex.") 46 1 60 0) RR_RRSIG
     [V_int 47; V_int 8; V_int 1; V_int 60; V_int 1700000000; V_int 1690000000; V_int 7; V_str (bs "ex."); V_str (bs "AQID")]].

Definition demo_rr (i : nat) : RR := nth i demo_zone (MkRR (MkHeader [] 0 0 0 0) RR_A []).

Definition demo_names : list (list (list byte)) := [[[x65; x78]]; [[x6e; x73]; [x65; x78]]; [[x61; x2e; x62; xc3]; [x65; x78]]; []].

Lemma demo_good : Forall good_labels demo_names.
Proof. unfold good_labels. repeat constructor; by vm_compute. Qed.

Lemma demo_name n ls s : demo_names !! n = Some ls -> s = show_name ls -> exists ls, good_labels ls /\ s = show_name ls.
Proof. intros H ->. exists ls. split; [|done]. by eapply (Forall_lookup_1 _ _ _ _ demo_good). Qed.

Ltac some_name := first [by apply (demo_name 0 _ _ eq_refl)|by apply (demo_name 1 _ _ eq_refl)|by apply (demo_name 2 _ _ eq_refl)|by apply (demo_name 3 _ _ eq_refl)].

Lemma demo_text : Forall text_record demo_zone.
Proof.
  unfold demo_zone, text_record, text_data. repeat (apply Forall_cons; split); try apply Forall_nil; cbn [Hdr Name Ttl Class_ Rrtype struct data].
  all: split_and?; try some_name; try lia; try (by vm_compute); cbv [text_fields fields SOA_fields A_fields AAAA_fields TXT_fields DS_fields RRSIG_fields snd text_field];
    split_and?; try some_name; try lia; try done; try (apply list_elem_of_In; cbn; tauto); try (by repeat constructor).
  - exists [x01; x02; x03; x04]. split; [done|by left].
  - exists [[x61; ch_space; ch_quote; x3b]; []]. split; [by repeat constructor|done].
Qed.

Lemma zone_roundtrip_witness : Forall text_record demo_zone /\ exists s zp, zone_text (casing := ascii_casing) 1700000000 demo_zone = Ok s /\ NewZoneParser s None [] [] = Ok zp /\
  @all_records ascii_casing no_floats no_files 9 (with_settings None false false zp) = Ok (map read_record demo_zone, None).
Proof.
  split; [exact demo_text|]. destruct (@zone_roundtrip ascii_casing no_floats no_files 1700000000 demo_zone [] [] None false false ltac:(lia) demo_text ltac:(by left)) as (s & zp & H1 & H2 & H3).
  exists s, zp. split; [exact H1|]. split; [exact H2|]. apply H3. vm_compute. lia.
Defined.

Lemma NewRR_String_witness : exists s, rr_String (casing := ascii_casing) 0 (demo_rr 5) = Ok s /\ @NewRR ascii_casing no_floats no_files 1 s = Ok (Some (read_record (demo_rr 5)), None).
Proof. apply (@NewRR_String ascii_casing no_floats no_files 0 (demo_rr 5) 0); [lia|]. by apply (Forall_lookup_1 _ _ 5 _ demo_text). Defined.

(** ** What the parser does on some zones *)

Section Behaviour.
#[local] Existing Instances ascii_casing no_floats no_files.

(** The records of a zone and the text of the error. *)
Definition parsed (s : bytes) : res error (list Z * option bytes) :=
  zp ← NewZoneParser s None [] []; '(rrs, e) ← all_records 9 zp;
  Ok (map (fun rr => Rrtype (Hdr rr)) rrs, match e with Some (R_parse e) => Some (pe_err e) | Some (R_other s) => Some s | None => None end).
Definition zone_lines (l : list String.string) : bytes := concat (map (fun s => bs s ++ [x0a]) l).

(** IPSECKEY.parse reads the rest of the line and then the rest of the next one. *)
Example IPSECKEY_next_line : parsed (zone_lines ["a. 1 IN IPSECKEY 10 0 2 . AQID"; "b. 1 IN A 1.2.3.4"]) = Ok ([], Some (bs "garbage after rdata")).
Proof. vm_compute. reflexivity. Qed.

(** A TTL is only missed when neither a TTL nor a class is given. *)
Example missing_TTL : parsed (zone_lines ["a. A 1.2.3.4"]) = Ok ([], Some (bs "missing TTL with no previous value")) /\
  parsed (zone_lines ["a. IN A 1.2.3.4"]) = Ok ([1], None).
Proof. vm_compute. by split. Qed.

(** The records of $GENERATE have a TTL when the directive gives none, whatever
    $TTL says: 3600. *)
Example generate_TTL :
  (zp ← NewZoneParser (zone_lines ["$TTL 60"; "$GENERATE 1-2 h$.ex. A 1.2.3.$"]) None [] []; '(rrs, _) ← all_records 9 zp; Ok (map (fun rr => Ttl (Hdr rr)) rrs)) = Ok [3600; 3600].
Proof. vm_compute. reflexivity. Qed.

(** A newline in parentheses is not a separator. *)
Example newline_in_parentheses : parsed (zone_lines ["a. 1 IN MX (1"; "b.)"]) = Ok ([], Some (bs "bad MX Pref")) /\ parsed (zone_lines ["a. 1 IN MX (1"; " b.)"]) = Ok ([15], None).
Proof. vm_compute. by split. Qed.
End Behaviour.
