(* ===== verification/Nsecx.v ===== *)
(** * Hashed names (nsecx.go)

    SHA-1 of crypto/sha1, [HashName] and what an NSEC3 record matches and covers. *)

From S2P Require Import Prelude Go Utf8 Labels Escape Names NameDecode NameEncode NameLen Wire Codec Text NameCarry Encodings RData RR Lengths Tsig Order Dnssec DnssecCarry Strconv.

#[local] Open Scope string_scope.

(** ** SHA-1 *)

Definition rotl (x k : Z) : Z := Z.lor (Z.shiftl x k mod 2 ^ 32) (Z.shiftr x (32 - k)).

(** The bit 1, zeros, and the length in bits: a multiple of 64 octets. *)
Definition sha1_pad (m : bytes) : bytes :=
  m ++ [x80] ++ replicate (Z.to_nat ((55 - zlen m) mod 64)) x00 ++ be 8 (8 * zlen m).

Fixpoint words (n : nat) (l : bytes) : list Z :=
  match n with O => [] | S n => unbe (ztake 4 l) :: words n (zdrop 4 l) end.

(** The 80 words of a block, the last first. *)
Fixpoint expand_words (n : nat) (w : list Z) : list Z :=
  match n with
  | O => w
  | S n =>
      let at_ i := nth i w 0 in
      expand_words n (rotl (Z.lxor (Z.lxor (at_ 2%nat) (at_ 7%nat)) (Z.lxor (at_ 13%nat) (at_ 15%nat))) 1 :: w)
  end.

Record digest := MkDigest { sh_a : Z; sh_b : Z; sh_c : Z; sh_d : Z; sh_e : Z }.

Definition sha1_round (s : nat * digest) (w : Z) : nat * digest :=
  let '(i, MkDigest a b c d e) := s in
  let '(f, k) :=
    if Nat.ltb i 20 then (Z.lor (Z.land b c) (Z.land (Z.lxor b (2 ^ 32 - 1)) d), 0x5A827999)
    else if Nat.ltb i 40 then (Z.lxor (Z.lxor b c) d, 0x6ED9EBA1)
    else if Nat.ltb i 60 then (Z.lor (Z.land (Z.lor b c) d) (Z.land b c), 0x8F1BBCDC)
    else (Z.lxor (Z.lxor b c) d, 0xCA62C1D6) in
  (S i, MkDigest ((rotl a 5 + f + e + w + k) mod 2 ^ 32) a (rotl b 30) c d).

Definition sha1_block (h : digest) (p : bytes) : digest :=
  let w := rev (expand_words 64 (rev (words 16 p))) in
  let '(_, d) := fold_left sha1_round w (O, h) in
  let add x y := (x + y) mod 2 ^ 32 in
  MkDigest (add (sh_a h) (sh_a d)) (add (sh_b h) (sh_b d)) (add (sh_c h) (sh_c d)) (add (sh_d h) (sh_d d)) (add (sh_e h) (sh_e d)).

Fixpoint sha1_blocks (n : nat) (h : digest) (p : bytes) : digest :=
  match n with O => h | S n => sha1_blocks n (sha1_block h (ztake 64 p)) (zdrop 64 p) end.

Definition sha1_init : digest := MkDigest 0x67452301 0xEFCDAB89 0x98BADCFE 0x10325476 0xC3D2E1F0.

(** [sha1.New], the writes and [Sum]. *)
Definition sha1 (m : bytes) : bytes :=
  let p := sha1_pad m in
  let d := sha1_blocks (Z.to_nat (zlen p / 64)) sha1_init p in
  be 4 (sh_a d) ++ be 4 (sh_b d) ++ be 4 (sh_c d) ++ be 4 (sh_d d) ++ be 4 (sh_e d).

Example sha1_abc : hex_EncodeToString (sha1 (bs "abc")) = bs "a9993e364706816aba3e25717850c26c9cd0d89d".
Proof. vm_compute. reflexivity. Qed.
Example sha1_two_blocks : hex_EncodeToString (sha1 (bs "abcdbcdecdefdefgefghfghighijhijkijkljklmklmnlmnomnopnopq")) = bs "84983e441c3bd26ebaae4aa1f95129e5e54670f1".
Proof. vm_compute. reflexivity. Qed.
Example sha1_empty : hex_EncodeToString (sha1 []) = bs "da39a3ee5e6b4b0d3255bfef95601890afd80709".
Proof. vm_compute. reflexivity. Qed.

(** ** The code *)

Section Nsecx.
Context {casing : Casing}.

(** Errors give the empty string. *)
Definition HashName (label : bytes) (ha iter : Z) (salt : bytes) : res error bytes :=
  if negb (ha =? SHA1) then Ok [] else
  match packStringHex salt (make_bytes (zlen salt / 2)) 0 with
  | Err _ => Ok []
  | Panic => Panic
  | Diverge => Diverge
  | Ok (wireSalt, n) =>
      wireSalt ← index (slice wireSalt 0 n);
      match PackDomainName (ToLower label) (make_bytes 255) 0 None false with
      | Err _ => Ok []
      | Panic => Panic
      | Diverge => Diverge
      | Ok (name, off, _) =>
          name ← index (slice name 0 off);
          Ok (toBase32 (Nat.iter (Z.to_nat iter) (fun nsec3 => sha1 (nsec3 ++ wireSalt)) (sha1 (name ++ wireSalt))))
      end
  end.

(** The first label of an owner and the rest. *)
Definition owner_parts (owner : bytes) : res error (option (bytes * bytes)) :=
  labelIndices ← Split owner;
  if zlen labelIndices <? 2 then Ok None else
  i ← index (zget labelIndices 1);
  ownerHash ← index (slice owner 0 (i - 1));
  ownerZone ← index (from owner i);
  Ok (Some (ownerHash, ownerZone)).

Definition Cover (h : RR_Header) (rr : list fval) (name : bytes) : res error bool :=
  match rr with
  | [V_int Hash; _; V_int Iterations; _; V_str Salt; _; V_str NextDomain; _] =>
      nameHash ← HashName name Hash Iterations Salt;
      parts ← owner_parts (ToUpper (Name h));
      match parts with
      | None => Ok false
      | Some (ownerHash, ownerZone) =>
          inside ← IsSubDomain ownerZone (ToUpper name);
          if negb inside then Ok false else
          let nextHash := NextDomain in
          if bool_decide (ownerHash = nextHash) && negb (bool_decide (nameHash = ownerHash)) then Ok true else
          if bytes_less nextHash ownerHash then
            if bytes_less ownerHash nameHash then Ok true else Ok (bytes_less nameHash nextHash)
          else if bytes_less nameHash ownerHash then Ok false else Ok (bytes_less nameHash nextHash)
      end
  | _ => Panic
  end.

Definition Match_ (h : RR_Header) (rr : list fval) (name : bytes) : res error bool :=
  match rr with
  | [V_int Hash; _; V_int Iterations; _; V_str Salt; _; V_str NextDomain; _] =>
      nameHash ← HashName name Hash Iterations Salt;
      parts ← owner_parts (ToUpper (Name h));
      match parts with
      | None => Ok false
      | Some (ownerHash, ownerZone) =>
          inside ← IsSubDomain ownerZone (ToUpper name);
          if negb inside then Ok false else Ok (bool_decide (ownerHash = nameHash))
      end
  | _ => Panic
  end.
End Nsecx.

(** The test vectors of the repository. *)
Example HashName_dnsex : HashName (bs "dnsex.nl.") SHA1 0 (bs "DEAD") = Ok (bs "ROCCJAE8BJJU7HN6T7NG3TNM8ACRS87J").
Proof. vm_compute. reflexivity. Qed.
Example HashName_abc : HashName (bs "a.b.c.example.org.") SHA1 2 (bs "DEAD") = Ok (bs "6LQ07OAHBTOOEU2R9ANI2AT70K5O0RCG").
Proof. vm_compute. reflexivity. Qed.

(** ** The hash of RFC 5155 *)

(** IH(salt, x, k): the hash of the salted name, hashed and salted k times more. *)
Fixpoint IH (salt x : bytes) (k : nat) : bytes :=
  match k with O => sha1 (x ++ salt) | S k => sha1 (IH salt x k ++ salt) end.

Definition rfc5155_hash (ls : list bytes) (salt : bytes) (iter : Z) : bytes := toBase32 (IH salt (wire_name (lowered ls)) (Z.to_nat iter)).

Lemma iter_IH salt x k : Nat.iter k (fun h => sha1 (h ++ salt)) (sha1 (x ++ salt)) = IH salt x k.
Proof. induction k as [|k IHk]; [done|]. rewrite Nat.iter_succ, IHk. done. Qed.

Lemma lower_runes s : map lower s = map lower_rune s.
Proof. apply map_ext. by intros []. Qed.

Lemma show_name_ascii ls : Forall Strconv.is_ascii (show_name ls).
Proof. destruct ls as [|l ls]; [by repeat constructor|]. exact (show_labels_ascii (l :: ls)). Qed.

Lemma map_show_name f ls : f ch_dot = ch_dot -> (forall b, map f (escape_byte b) = escape_byte (f b)) -> map f (show_name ls) = show_name (map (map f) ls).
Proof.
  intros Hd Hf. destruct ls as [|l0 ls0]; [by cbn; rewrite Hd|]. change (map f (show_labels (l0 :: ls0)) = show_labels (map (map f) (l0 :: ls0))).
  generalize (l0 :: ls0). intros ls. unfold show_labels. induction ls as [|l ls IH]; [done|]. cbn [map concat]. rewrite !map_app, IH. cbn [map]. rewrite Hd. do 2 f_equal.
  unfold show_label. clear -Hf. induction l as [|b l IH]; [done|]. cbn [map concat]. by rewrite map_app, IH, Hf.
Qed.

Section Hash.
Context {casing : Casing}.

Lemma ToLower_show ls : ToLower (show_name ls) = show_name (lowered ls).
Proof. rewrite ToLower_ascii by apply show_name_ascii. rewrite lower_runes. apply map_show_name; [done|exact lower_escape]. Qed.

Definition uppered : list bytes -> list bytes := map (map to_upper).
Lemma ToUpper_show ls : ToUpper (show_name ls) = show_name (uppered ls).
Proof. rewrite ToUpper_ascii by apply show_name_ascii. apply map_show_name; [done|]. by intros []. Qed.

(** [HashName] of a name is the hash of RFC 5155 with SHA-1: of its wire form in
    lower case, with the salt that the digits stand for, as many further times as
    [iter] says, in base32. *)
Lemma HashName_show ls iter salt wireSalt : good_labels ls -> hex_DecodeString salt = Ok wireSalt ->
  HashName (show_name ls) SHA1 iter salt = Ok (rfc5155_hash ls wireSalt iter).
Proof.
  intros Hls Hs. unfold HashName. change (negb (SHA1 =? SHA1)) with false. cbv iota. unfold packStringHex, pack_decoded. rewrite Hs. cbn [on_err mbind res_bind].
  pose proof (hex_Decode_length salt) as Hz. rewrite Hs in Hz. unfold ensures in Hz. rewrite <- Hz. rewrite zlen_make by apply zlen_nonneg. rewrite Z.add_0_l, Z.ltb_irrefl.
  destruct (put_at_writes (E := Z * error) (make_bytes (zlen wireSalt)) 0 wireSalt ltac:(lia)) as (m & -> & Hm); [rewrite zlen_make by apply zlen_nonneg; lia|].
  cbn [mbind res_bind index mret res_ret on_err]. rewrite Z.add_0_l in Hm. pose proof (writes_len _ _ _ _ _ Hm) as Hl. rewrite zlen_make in Hl by apply zlen_nonneg. pose proof (zlen_nonneg wireSalt).
  rewrite slice_Some by lia. rewrite Z.sub_0_r. change (zdrop 0 m) with m. rewrite (writes_take _ _ _ _ _ Hm). cbn [app index].
  rewrite ToLower_show. unfold PackDomainName. change {| ext := None; int_ := None |} with nil_map.
  destruct (everywhere_run _ _ (make_bytes 255) (everywhere_name (lowered ls) (proj1 (good_lowered ls Hls)))) as (m2 & -> & Hm2).
  { rewrite zlen_make by done. apply good_labels_size, good_lowered, Hls. }
  rewrite Hm2. gosimp. by rewrite iter_IH.
Qed.

(** ** What a record matches and covers *)

(** A name in the zone of the owner. *)
Definition below (zone ls : list bytes) : bool := bool_decide (lowered zone `suffix_of` lowered ls).

(** The hashes strictly between [a] and [b], around the end of the zone. *)
Definition between (a b x : bytes) : bool :=
  if bool_decide (a = b) then negb (bool_decide (x = a))
  else if bytes_less a b then bytes_less a x && bytes_less x b
  else bytes_less a x || bytes_less x b.

Lemma show_labels_one l : show_labels [l] = show_label l ++ [ch_dot].
Proof. unfold show_labels. cbn. by rewrite app_nil_r. Qed.

Lemma ci_segs_show ls : ls <> [] -> ci_segs (show_name ls) = map (fun l => show_label l ++ [ch_dot]) (lowered ls).
Proof.
  intros H. unfold ci_segs. assert (show_name ls = show_labels ls) as -> by (by destruct ls). rewrite segs_show by done.
  change (map lower <$> ?x) with (map (map lower) x). unfold lowered. rewrite !map_map. apply map_ext. intros l. rewrite <- !show_labels_one, lower_runes.
  apply (map_show_name lower_rune [l]); [done|exact lower_escape].
Qed.

Lemma lower_upper ls : lowered (uppered ls) = lowered ls.
Proof. unfold lowered, uppered. rewrite map_map. apply map_ext. intros l. rewrite map_map. apply map_ext. by intros []. Qed.

Lemma good_uppered ls : good_labels ls -> good_labels (uppered ls).
Proof.
  intros (H1 & H2 & H3). split; [|split].
  - unfold uppered. apply Forall_map. eapply Forall_impl; [exact H1|]. intros l. unfold zlen. by rewrite length_map.
  - replace (wire_len (uppered ls)) with (wire_len ls); [done|]. clear. induction ls as [|l ls IHl]; [done|]. cbn [uppered map wire_len]. fold (uppered ls). unfold zlen. by rewrite IHl, length_map.
  - unfold uppered, zlen in *. by rewrite length_map.
Qed.

Lemma good_one l ls : good_labels ls -> l ∈ ls -> good_labels [l].
Proof.
  intros (H & _ & _) Hl. rewrite Forall_forall in H. specialize (H l Hl). split; [by constructor|]. cbn [wire_len]. change (zlen [l]) with 1. change maxCompressionPointers with 126. lia.
Qed.

Lemma labels_suffix a b : good_labels a -> good_labels b ->
  map (fun l => show_label l ++ [ch_dot]) a `suffix_of` map (fun l => show_label l ++ [ch_dot]) b <-> a `suffix_of` b.
Proof.
  intros Ha Hb. split; [|by intros [k ->]; rewrite map_app; eexists]. intros [k E]. apply map_eq_app in E as (b1 & b2 & -> & _ & E). exists b1. f_equal.
  assert (forall l, l ∈ a -> good_labels [l]) as Ga by (intros l; by apply good_one). assert (forall l, l ∈ b2 -> good_labels [l]) as Gb.
  { intros l Hl. eapply good_one; [exact Hb|]. apply elem_of_app. by right. }
  clear Ha Hb. revert b2 E Gb. induction a as [|l a IHa]; intros [|m b2] E Gb; try done. injection E as E E2. f_equal.
  - assert ([m] = [l]) as [= ->]; [|done]. apply good_show_inj; [apply Gb; by left|apply Ga; by left|]. change (show_labels [m] = show_labels [l]). by rewrite !show_labels_one, E.
  - apply IHa; [intros l1 Hl1; apply Ga; by right|done|intros l1 Hl1; apply Gb; by right].
Qed.

Lemma below_spec zone ls : good_labels zone -> good_labels ls -> zone <> [] -> IsSubDomain (show_name (uppered zone)) (show_name (uppered ls)) = Ok (below zone ls).
Proof.
  intros Hz Hl Hne. assert (uppered zone <> []) as Hne2 by (by destruct zone). rewrite IsSubDomain_suffix. f_equal. unfold below. apply bool_decide_ext.
  assert (show_name (uppered zone) <> [ch_dot]) as Hd.
  { intros E. apply Hne2, good_show_inj; [by apply good_uppered|by split_and!|exact E]. }
  rewrite ci_segs_show, lower_upper by done. destruct ls as [|l ls].
  - split; [intros [?|[H _]]; [done|by destruct H]|]. intros [k E]. change (lowered []) with (@nil bytes) in E. symmetry in E. apply app_eq_nil in E as [_ E]. by destruct zone.
  - rewrite ci_segs_show, lower_upper, labels_suffix by (try done; by apply good_lowered).
    split; [intros [?|[_ H]]; done|]. intros H. right. split; [|done]. intros E.
    assert (uppered (l :: ls) = []); [|done]. apply good_show_inj; [by apply good_uppered|by split_and!|exact E].
Qed.

(** The two parts of an owner with at least two labels. *)
Lemma owner_parts_show l ls : ls <> [] -> owner_parts (show_name (l :: ls)) = Ok (Some (show_label l, show_name ls)).
Proof.
  intros Hne. assert (show_name ls = show_labels ls) as E by (by destruct ls). change (show_name (l :: ls)) with (show_labels (l :: ls)). unfold owner_parts.
  rewrite Split_label_starts, label_starts_segs, segs_show; [|done|].
  2: { intros Hd. apply (f_equal zlen) in Hd. rewrite show_labels_cons, zlen_app, zlen_cons in Hd. pose proof (zlen_nonneg (show_label l)). destruct ls as [|m ls]; [done|].
       rewrite show_labels_cons, zlen_app, zlen_cons in Hd. pose proof (zlen_nonneg (show_label m)). pose proof (zlen_nonneg (show_labels ls)). change (zlen [ch_dot]) with 1 in Hd. lia. }
  destruct ls as [|m ls]; [done|]. cbn [map offsets]. set (r := offsets _ _). gosimp. assert ((zlen (0 :: (0 + zlen (show_label l ++ [ch_dot]))%Z :: r) <? 2) = false) as ->.
  { apply Z.ltb_ge. rewrite !zlen_cons. pose proof (zlen_nonneg r). lia. }
  change (zget (0 :: ?x :: r) 1) with (Some x). gosimp. rewrite zlen_app, Z.add_0_l. change (zlen [ch_dot]) with 1. rewrite E, show_labels_cons.
  replace (zlen (show_label l) + 1 - 1) with (0 + zlen (show_label l)) by lia.
  pose proof (slice_mid [] (show_label l) (ch_dot :: show_labels (m :: ls))) as Hs. cbn [app] in Hs. rewrite Hs by done. gosimp.
  change (show_label l ++ ch_dot :: show_labels (m :: ls)) with (show_label l ++ [ch_dot] ++ show_labels (m :: ls)). rewrite app_assoc.
  replace (zlen (show_label l) + 1) with (zlen (show_label l ++ [ch_dot])) by (by rewrite zlen_app). rewrite from_suffix. done.
Qed.

Context (h : RR_Header) (owner : bytes) (zone : list bytes) (Flags iter SaltLength HashLength : Z) (salt wireSalt next_ : bytes) (types : list Z).
Hypothesis Howner : good_labels (owner :: zone).
Hypothesis Hzone : zone <> [].
Hypothesis Hname : Name h = show_name (owner :: zone).
Hypothesis Hsalt : hex_DecodeString salt = Ok wireSalt.
Let rr := [V_int SHA1; V_int Flags; V_int iter; V_int SaltLength; V_str salt; V_int HashLength; V_str next_; V_types types].
(** The hash in the owner name, in capitals. *)
Let first_ := show_label (map to_upper owner).

Lemma good_zone : good_labels zone.
Proof.
  destruct Howner as (H1 & H2 & H3). apply Forall_cons in H1 as [Hl H1]. cbn [wire_len] in H2. rewrite zlen_cons in H3. split_and!; [done|lia|lia].
Qed.

Lemma record_parts : owner_parts (ToUpper (Name h)) = Ok (Some (first_, show_name (uppered zone))).
Proof. rewrite Hname, ToUpper_show. apply owner_parts_show. by destruct zone. Qed.

(** [Match] holds exactly for the names of the zone whose hash is the first
    label of the owner. *)
Lemma Match_spec ls : good_labels ls -> Match_ h rr (show_name ls) = Ok (below zone ls && bool_decide (first_ = rfc5155_hash ls wireSalt iter)).
Proof.
  intros Hls. unfold Match_, rr. rewrite (HashName_show ls iter salt wireSalt Hls Hsalt), record_parts. gosimp. rewrite ToUpper_show, (below_spec zone ls good_zone Hls Hzone). gosimp. by destruct (below zone ls).
Qed.

(** C31: [Cover] holds for the names of the zone whose hash is strictly between the
    owner and the next hash, around the end of the zone; and, unlike the RFC has
    it, for the name whose hash is the owner when the next hash is greater: the
    record that matches a name covers it, too. *)
Theorem Cover_spec ls : good_labels ls -> let x := rfc5155_hash ls wireSalt iter in
  Cover h rr (show_name ls) = Ok (below zone ls && (between first_ next_ x || (bool_decide (x = first_) && bytes_less first_ next_))).
Proof.
  intros Hls x. unfold Cover, rr. rewrite (HashName_show ls iter salt wireSalt Hls Hsalt), record_parts. fold x. gosimp. rewrite ToUpper_show, (below_spec zone ls good_zone Hls Hzone). gosimp.
  destruct (below zone ls); [cbn [negb andb]|done]. unfold between. generalize first_ as a, next_ as b. clearbody x. clear. intros a b. case_bool_decide as Hab; cbn [andb].
  - subst b. rewrite bytes_less_irrefl, andb_false_r, orb_false_r. case_bool_decide as Hx; cbn [negb andb]; [|done]. subst. by rewrite bytes_less_irrefl.
  - destruct (bytes_less b a) eqn:Eba.
    + rewrite (bytes_less_asym _ _ Eba). rewrite andb_false_r, orb_false_r. by destruct (bytes_less a x).
    + destruct (bytes_less_total a b) as [?|[Eab|?]]; [done| |congruence]. rewrite Eab, andb_true_r. case_bool_decide as Hx.
      * subst. by rewrite bytes_less_irrefl, Eab.
      * rewrite orb_false_r. destruct (bytes_less x a) eqn:Exa; [by rewrite (bytes_less_asym _ _ Exa)|]. destruct (bytes_less_total a x) as [?|[->|?]]; [congruence|done|congruence].
Qed.
End Hash.

(** ** The record of the repository's test *)

Definition demo_owner : bytes := bs "sk4e8fj94u78smusb40o1n0oltbblu2r".
Definition demo_header : RR_Header := MkHeader (demo_owner ++ bs ".nl.") 50 1 0 0.
Definition demo_nsec3 (hash : Z) (next_ : bytes) : list fval :=
  [V_int hash; V_int 1; V_int 5; V_int 8; V_str (bs "F10E9F7EA83FC8F3"); V_int 20; V_str next_; V_types [2]].
Definition demo_next : bytes := bs "SK4F38CQ0ATIEI8MH3RGD0P5I4II6QAN".

(** It matches nl. and not test.nl.; it covers nl., too. *)
Example matches_and_covers : Match_ demo_header (demo_nsec3 SHA1 demo_next) (bs "nl.") = Ok true /\
  Match_ demo_header (demo_nsec3 SHA1 demo_next) (bs "test.nl.") = Ok false /\ Cover demo_header (demo_nsec3 SHA1 demo_next) (bs "nl.") = Ok true.
Proof. vm_compute. by split. Qed.

(** With a hash that is not known, the last record of a zone covers every name of it. *)
Example unknown_hash_covers : Cover demo_header (demo_nsec3 2 (bs "0")) (bs "nl.") = Ok true /\ Cover demo_header (demo_nsec3 2 (bs "0")) (bs "x.nl.") = Ok true.
Proof. vm_compute. by split. Qed.

Lemma demo_owner_good : good_labels [demo_owner; bs "nl"] /\ good_labels [bs "test"; bs "nl"].
Proof. unfold good_labels. split_and!; try (by vm_compute); repeat constructor; by vm_compute. Qed.

Lemma Cover_spec_witness : good_labels [demo_owner; bs "nl"] /\ hex_DecodeString (bs "F10E9F7EA83FC8F3") = Ok [xf1; x0e; x9f; x7e; xa8; x3f; xc8; xf3] /\
  Cover demo_header (demo_nsec3 SHA1 demo_next) (bs "test.nl.") = Ok false.
Proof.
  split; [apply demo_owner_good|]. split; [vm_compute; reflexivity|].
  refine (eq_trans (@Cover_spec ascii_casing demo_header demo_owner [bs "nl"] 1 5 8 20 (bs "F10E9F7EA83FC8F3") [xf1; x0e; x9f; x7e; xa8; x3f; xc8; xf3] demo_next [2] _ _ _ _ [bs "test"; bs "nl"] _) _);
    try apply demo_owner_good; try done; vm_compute; reflexivity.
Defined.
