(* ===== verification/Sanitize.v ===== *)
(** * Removing duplicate records (sanitize.go)

    [Dedup] on records that are shared locations, by their text without the TTL. *)

From S2P Require Import Prelude Go Utf8 Labels Escape Names NameDecode NameEncode NameLen Wire Codec Text NameCarry Encodings RData RDataCarry RR RRCarry Msg MsgCarry Build Lengths Tsig Ztypes Duplicate Dnssec Strconv Netip TimeText Types Lexer LexCarry Scan ScanRR Present PresentCarry SvcbText EdnsText Generate Zone RecordCarry ZoneSafe ZoneCarry.

#[local] Open Scope string_scope.

(** ** The code *)

(** The loop of [normalizedString] over [b[i:]]: the octets it leaves, and where the
    TTL starts and ends. *)
Fixpoint normal_loop (b : bytes) (i : Z) (esc : bool) (ttlStart : Z) : bytes * Z * Z :=
  match b with
  | [] => ([], ttlStart, 0)
  | c :: b =>
      if c =b ch_bslash then let '(b, s, e) := normal_loop b (i + 1) (negb esc) ttlStart in (c :: b, s, e)
      else if (c =b x09) && negb esc then
        if ttlStart =? 0 then let '(b, s, e) := normal_loop b (i + 1) esc i in (c :: b, s, e) else (c :: b, ttlStart, i)
      else if is_upper c && negb esc then let '(b, s, e) := normal_loop b (i + 1) esc ttlStart in (byte_of (bval c + 32) :: b, s, e)
      else let '(b, s, e) := normal_loop b (i + 1) false ttlStart in (c :: b, s, e)
  end.

Section Dedup.
Context {casing : Casing}.

(** With one tab only, the last slice goes past the length of [b]; that is taken for a
    panic, although the capacity of [b] may allow it. *)
Definition normalizedString (now : Z) (r : RR) : res error bytes :=
  b ← rr_String now r;
  let '(b, ttlStart, ttlEnd) := normal_loop b 0 false 0 in
  if ttlEnd <? ttlStart then Panic else Ok (ztake ttlStart b ++ zdrop ttlEnd b).

(** The first loop, over the records. *)
Definition dedup_key (now : Z) (s : store * gmap bytes loc * list bytes) (r : loc) : res error (store * gmap bytes loc * list bytes) :=
  let '(st, m, keys) := s in
  rr ← index (st !! r);
  key ← normalizedString now rr;
  let keys := keys ++ [key] in
  match m !! key with
  | Some p =>
      mr ← index (st !! p);
      Ok (if Ttl (Hdr rr) <? Ttl (Hdr mr) then <[p := MkRR (set_Ttl (Ttl (Hdr rr)) (Hdr mr)) (struct mr) (data mr)]> st else st, m, keys)
  | None => Ok (st, <[key := r]> m, keys)
  end.

(** The second loop, in place: [n] records are left, the next is [rrs[i]]. *)
Fixpoint dedup_move (n i j : nat) (rrs : list loc) (keys : list bytes) (m : gmap bytes loc) : res error (list loc * nat * gmap bytes loc) :=
  match n with
  | O => Ok (rrs, j, m)
  | S n =>
      r ← index (rrs !! i);
      key ← index (keys !! i);
      let '(rrs, j, m) := match m !! key with Some _ => (<[j := r]> rrs, S j, delete key m) | None => (rrs, j, m) end in
      if decide (size m = O) then Ok (rrs, j, m) else dedup_move n (S i) j rrs keys m
  end.

(** The store, the slice that is given back, the array of the caller and the map. *)
Definition Dedup (now : Z) (st : store) (rrs : list loc) (m : gmap bytes loc) : res error (store * list loc * list loc * gmap bytes loc) :=
  '(st, m, keys) ← foldM (dedup_key now) (st, m, []) rrs;
  if decide (size m = length rrs) then Ok (st, rrs, rrs, m)
  else '(arr, j, m) ← dedup_move (length rrs) 0 0 rrs keys m; Ok (st, take j arr, arr, m).

(** ** The text without the TTL *)

(** Text that is passed over: [e] becomes [e']. *)
Definition passes (e e' : bytes) : Prop := zlen e' = zlen e /\ forall r i ts,
  normal_loop (e ++ r) i false ts = let '(x, s, t) := normal_loop r (i + zlen e) false ts in (e' ++ x, s, t).

Lemma passes_nil : passes [] [].
Proof. split; [done|]. intros r i ts. cbn [app]. rewrite Z.add_0_r. by destruct (normal_loop r i false ts) as [[? ?] ?]. Qed.

Lemma passes_app e1 e1' e2 e2' : passes e1 e1' -> passes e2 e2' -> passes (e1 ++ e2) (e1' ++ e2').
Proof.
  intros [L1 H1] [L2 H2]. split; [rewrite !zlen_app; lia|]. intros r i ts. rewrite <- app_assoc, H1, H2, zlen_app, Z.add_assoc.
  destruct (normal_loop r _ _ _) as [[? ?] ?]. by rewrite app_assoc.
Qed.

Lemma passes_concat {A} (f g : A -> bytes) l : (forall x, passes (f x) (g x)) -> passes (concat (map f l)) (concat (map g l)).
Proof. intros H. induction l as [|x l IH]; [exact passes_nil|]. by apply passes_app. Qed.

Lemma passes_octet c : c <> ch_bslash -> c <> x09 -> passes [c] [lower_rune c].
Proof.
  intros H1 H2. split; [done|]. intros r i ts. cbn [app normal_loop]. rewrite (beq_ne _ _ H1), (beq_ne _ _ H2). cbn [andb negb]. rewrite andb_true_r. unfold lower_rune.
  change (zlen [c]) with 1. by destruct (is_upper c), (normal_loop r (i + 1) false ts) as [[? ?] ?].
Qed.

Lemma passes_escape b : passes (escape_byte b) (escape_byte (lower_rune b)).
Proof.
  split; [by destruct b|]. intros r i ts. unfold escape_byte. destruct (isDomainNameLabelSpecial b) eqn:Es.
  - assert (isDomainNameLabelSpecial (lower_rune b) = true /\ lower_rune b = b) as [-> ->] by (clear -Es; destruct b; try discriminate Es; done).
    change (zlen [ch_bslash; b]) with 2. cbn [app normal_loop]. change (ch_bslash =b ch_bslash) with true. cbn [negb]. rewrite !andb_false_r, <- Z.add_assoc. change (1 + 1) with 2.
    by destruct (b =b ch_bslash), (normal_loop r (i + 2) false ts) as [[? ?] ?].
  - destruct (unprintable b) eqn:Eu.
    + assert (isDomainNameLabelSpecial (lower_rune b) = false /\ unprintable (lower_rune b) = true /\ lower_rune b = b) as (-> & -> & ->) by (clear -Es Eu; destruct b; try discriminate Es; try discriminate Eu; done).
      set (d1 := byte_of (48 + bval b / 100)). set (d2 := byte_of (48 + bval b / 10 mod 10)). set (d3 := byte_of (48 + bval b mod 10)).
      assert (forall d, d = d1 \/ d = d2 \/ d = d3 -> (d =b ch_bslash) = false /\ (d =b x09) = false /\ is_upper d = false) as Hd.
      { unfold d1, d2, d3. intros d Hd. clear -Hd. destruct b; destruct_or! Hd; subst; by vm_compute. }
      destruct (Hd d1 ltac:(auto)) as (A1 & A2 & A3), (Hd d2 ltac:(auto)) as (B1 & B2 & B3), (Hd d3 ltac:(auto)) as (C1 & C2 & C3).
      change (zlen [ch_bslash; d1; d2; d3]) with 4. cbn [app normal_loop]. change (ch_bslash =b ch_bslash) with true. rewrite A1, A2, A3, B1, B2, B3, C1, C2, C3. cbn [negb andb].
      rewrite <- !Z.add_assoc. change (1 + (1 + (1 + 1))) with 4. by destruct (normal_loop r (i + 4) false ts) as [[? ?] ?].
    + assert (isDomainNameLabelSpecial (lower_rune b) = false /\ unprintable (lower_rune b) = false) as (-> & ->) by (clear -Es Eu; destruct b; try discriminate Es; try discriminate Eu; done).
      apply passes_octet; [by intros ->|by intros ->].
Qed.

Lemma passes_name ls : passes (show_name ls) (show_name (lowered ls)).
Proof.
  destruct ls as [|l0 ls0]; [by apply passes_octet|]. change (passes (show_labels (l0 :: ls0)) (show_labels (lowered (l0 :: ls0)))). unfold show_labels, lowered. rewrite map_map.
  apply passes_concat. intros l. apply passes_app; [|by apply passes_octet]. unfold show_label. rewrite map_map. apply passes_concat, passes_escape.
Qed.

Lemma passes_digits s : Forall (fun c => isDigit c = true) s -> passes s s.
Proof.
  induction 1 as [|c s Hc Hs IH]; [exact passes_nil|]. apply (passes_app [c] [c]); [|exact IH].
  assert (lower_rune c = c /\ c <> ch_bslash /\ c <> x09) as (E & H1 & H2) by (clear -Hc; destruct c; try discriminate Hc; by split_and!). rewrite <- E at 2. by apply passes_octet.
Qed.

Lemma normal_text name lname ttl r : passes name lname -> passes ttl ttl -> name <> [] ->
  normal_loop (name ++ x09 :: ttl ++ x09 :: r) 0 false 0 = (lname ++ x09 :: ttl ++ x09 :: r, zlen name, zlen name + 1 + zlen ttl).
Proof.
  intros [L1 H1] [_ H2] Hn. assert (0 < zlen name) as Hz by (destruct name; [done|]; rewrite zlen_cons; pose proof (zlen_nonneg name); lia).
  rewrite H1, Z.add_0_l. cbn [normal_loop]. change (x09 =b ch_bslash) with false. change (x09 =b x09) with true. cbn [andb negb]. change (0 =? 0) with true. cbv iota.
  rewrite H2. cbn [normal_loop]. change (x09 =b ch_bslash) with false. change (x09 =b x09) with true. cbn [andb negb]. by rewrite (proj2 (Z.eqb_neq (zlen name) 0)) by lia.
Qed.

(** For a record whose text can be read back, [normalizedString] gives its
    line with the owner name in lower case and without the TTL. *)
Lemma normalized now rr : text_record rr -> exists ls, Name (Hdr rr) = show_name ls /\
  normalizedString now rr = Ok (show_name (lowered ls) ++ x09 :: Class_String (Class_ (Hdr rr)) ++ x09 :: Type_String (Rrtype (Hdr rr)) ++ x09 :: line_text (record_items now (struct rr) (data rr))).
Proof.
  intros Hrr. destruct (record_text now rr Hrr) as (ls & Hls & Hn & E). exists ls. split; [done|]. unfold normalizedString. unfold record_line in E.
  destruct (rr_String now rr) as [s| | |]; [|done..]. cbn [mbind res_bind] in E |- *. injection E as E.
  assert (s = show_name ls ++ x09 :: Itoa (Ttl (Hdr rr)) ++ x09 :: (Class_String (Class_ (Hdr rr)) ++ x09 :: Type_String (Rrtype (Hdr rr)) ++ x09 :: line_text (record_items now (struct rr) (data rr)))) as ->.
  { apply (app_inv_tail [x0a]). rewrite E. repeat (rewrite <- app_assoc; cbn [app]). done. }
  destruct Hrr as (_ & [Ht _] & _). assert (show_name ls <> []) as Hne by (intros E2; pose proof (show_name_last ls) as H; by rewrite E2 in H).
  assert (passes (Itoa (Ttl (Hdr rr))) (Itoa (Ttl (Hdr rr)))) as Hp by (by apply passes_digits, Itoa_digits).
  rewrite (normal_text _ _ _ _ (passes_name ls) Hp Hne). pose proof (proj1 (passes_name ls)) as Hl. pose proof (zlen_nonneg (Itoa (Ttl (Hdr rr)))).
  rewrite (proj2 (Z.ltb_ge _ _)) by lia. f_equal. rewrite ztake_app_eq by done. f_equal.
  rewrite <- Hl. rewrite app_comm_cons, app_assoc. apply zdrop_app_eq. rewrite zlen_app, zlen_cons. lia.
Qed.

(** ** The records that stay *)

(** The key of a record, for records that have one. *)
Definition key_of (now : Z) (rr : RR) : bytes := match normalizedString now rr with Ok s => s | _ => [] end.
Definition with_Ttl (t : Z) (rr : RR) : RR := MkRR (set_Ttl t (Hdr rr)) (struct rr) (data rr).

Lemma with_Ttl_text now t rr : 0 <= t < 2 ^ 32 -> text_record rr -> text_record (with_Ttl t rr) /\ key_of now (with_Ttl t rr) = key_of now rr.
Proof.
  intros Ht Hrr. assert (text_record (with_Ttl t rr)) as H by (destruct Hrr as (H1 & _ & H3); exact (conj H1 (conj Ht H3))). split; [done|].
  destruct (normalized now rr Hrr) as (ls & Hn & E), (normalized now _ H) as (ls2 & Hn2 & E2). unfold key_of. rewrite E, E2. cbn [with_Ttl Hdr set_Ttl struct data Class_ Rrtype Name] in *.
  pose proof Hn as Hn1. rewrite Hn1 in Hn2. assert (show_name (lowered ls) = show_name (lowered ls2)) as -> by (by rewrite <- !CanonicalName_show, Hn2). done.
Qed.

Lemma key_of_Ok now rr : text_record rr -> normalizedString now rr = Ok (key_of now rr).
Proof. intros H. destruct (normalized now rr H) as (ls & _ & E). unfold key_of. by rewrite E. Qed.

Section Store.
Context (now : Z) (st0 : store).
(** The keys and TTLs of the records before. *)
Definition at_ (p : loc) : RR := default (MkRR (MkHeader [] 0 0 0 0) RR_A []) (st0 !! p).
Definition K (p : loc) : bytes := key_of now (at_ p).
Definition T (p : loc) : Z := Ttl (Hdr (at_ p)).

(** The first location with each key. *)
Fixpoint firsts (seen : list bytes) (rrs : list loc) : list loc :=
  match rrs with
  | [] => []
  | p :: rrs => if decide (K p ∈ seen) then firsts seen rrs else p :: firsts (K p :: seen) rrs
  end.

(** The lowest TTL among [rrs] of the records with a key. *)
Definition lowest (rrs : list loc) (k : bytes) (t : Z) : Prop :=
  (exists q, q ∈ rrs /\ K q = k /\ T q = t) /\ forall q, q ∈ rrs -> K q = k -> t <= T q.

Lemma firsts_snoc rrs p : forall seen, firsts seen (rrs ++ [p]) = firsts seen rrs ++ (if decide (K p ∈ seen \/ K p ∈ map K rrs) then [] else [p]).
Proof.
  induction rrs as [|q rrs IH]; intros seen; cbn [firsts app map].
  - destruct (decide (K p ∈ seen)) as [H|H]; [rewrite decide_True by (by left)|rewrite decide_False by (intros [?|?%not_elem_of_nil]; done)]; done.
  - destruct (decide (K q ∈ seen)) as [H|H]; rewrite IH; [|cbn [app]; f_equal]; f_equal; apply decide_ext; rewrite !elem_of_cons.
    + split; [intros [?|?]; auto|]. intros [?|[->|?]]; auto.
    + tauto.
Qed.

Lemma firsts_spec rrs p : forall seen, p ∈ firsts seen rrs -> p ∈ rrs /\ K p ∉ seen.
Proof. induction rrs as [|q rrs IH]; intros seen; cbn [firsts]; [set_solver|]. case_decide as H; intros Hp; [apply IH in Hp; set_solver|]. apply elem_of_cons in Hp as [->|Hp]; [set_solver|apply IH in Hp; set_solver]. Qed.

Lemma firsts_keys rrs : forall seen, NoDup (map K (firsts seen rrs)) /\ forall k, k ∈ map K rrs -> k ∈ seen \/ k ∈ map K (firsts seen rrs).
Proof.
  induction rrs as [|q rrs IH]; intros seen; cbn [firsts map]; [split; [constructor|by intros k ?%not_elem_of_nil]|].
  case_decide as H.
  - destruct (IH seen) as (H2 & H3). split; [done|]. intros k [->|Hk]%elem_of_cons; [by left|by apply H3].
  - destruct (IH (K q :: seen)) as (H2 & H3). cbn [map]. split.
    + constructor; [|done]. intros Hq. apply list_elem_of_fmap in Hq as (p & E & Hp). apply firsts_spec in Hp as [_ Hp]. apply Hp. rewrite <- E. by left.
    + intros k [->|Hk]%elem_of_cons; [right; by left|]. destruct (H3 k Hk) as [[->|?]%elem_of_cons|?]; [right; by left|by left|right; by right].
Qed.

Lemma firsts_all rrs : forall seen, length (firsts seen rrs) = length rrs -> firsts seen rrs = rrs.
Proof.
  assert (forall rrs seen, (length (firsts seen rrs) <= length rrs)%nat) as Hle by (clear; induction rrs as [|q rrs IH]; intros seen; cbn; [lia|]; case_decide; cbn; [specialize (IH seen)|specialize (IH (K q :: seen))]; lia).
  induction rrs as [|q rrs IH]; intros seen; cbn [firsts]; [done|]. case_decide; cbn [length]; intros E; [specialize (Hle rrs seen); lia|]. f_equal. apply IH. lia.
Qed.

(** ** The first loop *)

(** What the store holds after the records [pre]: the first of each key has the
    lowest TTL of its key. *)
Definition lowest_ttl (pre : list loc) (st : store) : Prop := forall p, p ∈ firsts [] pre -> exists t, st !! p = Some (with_Ttl t (at_ p)) /\ lowest pre (K p) t.

Definition known_rr (p : loc) : Prop := exists rr, st0 !! p = Some rr /\ text_record rr.

Definition first_map (pre : list loc) (m : gmap bytes loc) : Prop := forall k p, m !! k = Some p <-> p ∈ firsts [] pre /\ K p = k.

Lemma known_at p : known_rr p -> st0 !! p = Some (at_ p) /\ text_record (at_ p).
Proof. intros (rr & E & H). unfold at_. by rewrite E. Qed.

Lemma with_own_Ttl rr : with_Ttl (Ttl (Hdr rr)) rr = rr.
Proof. by destruct rr as [[] ? ?]. Qed.

Lemma with_Ttl_twice t u rr : with_Ttl t (with_Ttl u rr) = with_Ttl t rr.
Proof. by destruct rr as [[] ? ?]. Qed.

(** A location that is no first of its key has the record it had. *)
Definition others_same (pre : list loc) (st : store) : Prop := forall p, p ∉ firsts [] pre -> st !! p = st0 !! p.

Lemma lowest_other pre p k t : K p <> k -> lowest pre k t -> lowest (pre ++ [p]) k t.
Proof.
  intros Hne ((o & O1 & O2 & O3) & Hmin). split; [exists o; split_and!; [apply elem_of_app; by left|done|done]|].
  intros x [Hx| ->%list_elem_of_singleton]%elem_of_app Kx; [by apply Hmin|done].
Qed.

Lemma dedup_key_step pre p st m keys : known_rr p -> Forall known_rr pre -> first_map pre m -> keys = map K pre -> lowest_ttl pre st -> others_same pre st ->
  exists st' m', dedup_key now (st, m, keys) p = Ok (st', m', map K (pre ++ [p])) /\ first_map (pre ++ [p]) m' /\ lowest_ttl (pre ++ [p]) st' /\ others_same (pre ++ [p]) st'.
Proof.
  intros Hp Hpre Hm -> Hl Ho. destruct (known_at p Hp) as [Ep Tp].
  assert (exists t, st !! p = Some (with_Ttl t (at_ p)) /\ 0 <= t < 2 ^ 32 /\ t <= T p /\ (p ∉ firsts [] pre -> t = T p)) as (t & Est & Ht & Htp & Hnew).
  { destruct (decide (p ∈ firsts [] pre)) as [H|H].
    - destruct (Hl p H) as (t & E & (q & Hq & _ & <-) & Hmin). exists (T q). split; [done|]. rewrite Forall_forall in Hpre. destruct (known_at q (Hpre q Hq)) as [_ (_ & Hr & _)].
      split_and!; [apply Hr|apply Hr|apply Hmin; [by apply firsts_spec in H as [H _]|done]|done].
    - exists (T p). rewrite (Ho p H), Ep. unfold T. rewrite with_own_Ttl. destruct Tp as (_ & [Hr1 Hr2] & _). by split_and!. }
  destruct (with_Ttl_text now t (at_ p) Ht Tp) as [Tt Kt]. unfold dedup_key. rewrite Est. cbn [index mbind res_bind mret res_ret].
  rewrite (key_of_Ok now _ Tt), Kt. cbn [mbind res_bind]. change (key_of now (at_ p)) with (K p).
  assert (map K (pre ++ [p]) = map K pre ++ [K p]) as -> by apply map_app.
  destruct (m !! K p) as [q|] eqn:Em.
  - pose proof Em as Em2. apply Hm in Em as [Hq Eq]. destruct (Hl q Hq) as (u & Eu & (o & Ho1 & Ho2 & Ho3) & Hmin). rewrite Eu. cbn [index mbind res_bind mret res_ret with_Ttl Hdr Ttl set_Ttl struct data].
    assert (firsts [] (pre ++ [p]) = firsts [] pre) as Hf.
    { rewrite firsts_snoc, decide_True, app_nil_r; [done|]. right. rewrite <- Eq. apply list_elem_of_fmap_2. by apply firsts_spec in Hq as [Hq _]. }
    assert (t < u -> t = T p) as Htu.
    { intros Hlt. apply Hnew. intros H. assert (m !! K p = Some p) as Em3 by (by apply Hm). rewrite Em2 in Em3. injection Em3 as ->. rewrite Est in Eu. injection Eu as Eu. lia. }
    assert (lowest (pre ++ [p]) (K q) (if t <? u then t else u)) as Hlow.
    { split.
      - destruct (Z.ltb_spec t u) as [Hlt|Hlt]; [exists p; split_and!; [apply elem_of_app; right; by left|done|by rewrite Htu]|exists o; split_and!; [apply elem_of_app; by left|done|done]].
      - intros r [Hr| ->%list_elem_of_singleton]%elem_of_app Kr; [specialize (Hmin r Hr Kr)|]; destruct (Z.ltb_spec t u); lia. }
    exists (if t <? u then <[q:=with_Ttl t (with_Ttl u (at_ q))]> st else st), m. split_and!; [done|unfold first_map; by rewrite Hf| |].
    + intros r Hr. rewrite Hf in Hr. destruct (decide (r = q)) as [->|Hne].
      * exists (if t <? u then t else u). split; [|done]. destruct (t <? u); [by rewrite lookup_insert_eq, with_Ttl_twice|done].
      * destruct (Hl r Hr) as (v & Ev & Hv). exists v. split; [destruct (t <? u); [by rewrite lookup_insert_ne|done]|]. apply lowest_other; [|done].
        intros Kx. destruct Hne. assert (m !! K p = Some r) as Em3 by (by apply Hm). congruence.
    + intros r Hr. rewrite Hf in Hr. rewrite <- (Ho r Hr). destruct (t <? u); [|done]. rewrite lookup_insert_ne; [done|]. by intros ->.
  - assert (K p ∉ map K pre) as Hnk.
    { intros H. destruct (firsts_keys pre []) as [_ H2]. destruct (H2 _ H) as [?%not_elem_of_nil|Hk]; [done|]. apply list_elem_of_fmap in Hk as (q & Eq & Hq).
      assert (m !! K p = Some q) as E by (by apply Hm). congruence. }
    assert (firsts [] (pre ++ [p]) = firsts [] pre ++ [p]) as Hf by (rewrite firsts_snoc, decide_False; [done|]; by intros [?%not_elem_of_nil|?]).
    assert (p ∉ firsts [] pre) as Hp2 by (intros H; apply Hnk, list_elem_of_fmap_2; by apply firsts_spec in H as [H _]).
    exists st, (<[K p:=p]> m). split_and!; [done| | |].
    + intros k q. rewrite Hf, elem_of_app, list_elem_of_singleton. destruct (decide (k = K p)) as [->|Hk].
      * rewrite lookup_insert_eq. split; [intros [= <-]; by split; [right|]|]. intros [[H| ->] E]; [|done]. destruct Hnk. rewrite <- E. apply list_elem_of_fmap_2. by apply firsts_spec in H as [H _].
      * rewrite lookup_insert_ne by done. rewrite (Hm k q). split; [intros [? ?]; by split; [left|]|]. intros [[?| ->] E]; [by split|done].
    + intros q Hq. rewrite Hf in Hq. apply elem_of_app in Hq as [Hq| ->%list_elem_of_singleton].
      * destruct (Hl q Hq) as (v & Ev & Hv). exists v. split; [done|]. apply lowest_other; [|done]. intros Kx. destruct Hnk. rewrite Kx. apply list_elem_of_fmap_2. by apply firsts_spec in Hq as [Hq _].
      * exists t. split; [done|]. rewrite (Hnew Hp2). split; [exists p; split_and!; [apply elem_of_app; right; by left|done|done]|].
        intros x [Hx| ->%list_elem_of_singleton]%elem_of_app Kx; [|done]. destruct Hnk. rewrite <- Kx. by apply list_elem_of_fmap_2.
    + intros q Hq. rewrite Hf in Hq. apply Ho. intros H. apply Hq, elem_of_app. by left.
Qed.

Lemma dedup_keys rrs : forall pre st m, Forall known_rr rrs -> Forall known_rr pre -> first_map pre m -> lowest_ttl pre st -> others_same pre st ->
  exists st' m', foldM (dedup_key now) (st, m, map K pre) rrs = Ok (st', m', map K (pre ++ rrs)) /\ first_map (pre ++ rrs) m' /\ lowest_ttl (pre ++ rrs) st' /\ others_same (pre ++ rrs) st'.
Proof.
  induction rrs as [|p rrs IH]; intros pre st m Hrrs Hpre Hm Hl Ho; [rewrite app_nil_r; by exists st, m|]. apply Forall_cons in Hrrs as [Hp Hrrs].
  destruct (dedup_key_step pre p st m _ Hp Hpre Hm eq_refl Hl Ho) as (st1 & m1 & E & Hm1 & Hl1 & Ho1). cbn [foldM]. rewrite E. cbn [mbind res_bind].
  rewrite (cons_middle p pre rrs), app_assoc. apply IH; try done. apply Forall_app. split; [done|by constructor].
Qed.
(** ** The second loop *)

Lemma firsts_app_old l rest : (forall k, k ∈ map K rest -> k ∈ map K l) -> firsts [] (l ++ rest) = firsts [] l.
Proof.
  revert l. induction rest as [|p rest IH]; intros l H; [by rewrite app_nil_r|]. cbn [map] in H.
  rewrite (cons_middle p l rest), app_assoc, IH; [|intros k Hk; rewrite map_app; apply elem_of_app; left; apply H; by right].
  rewrite firsts_snoc, decide_True, app_nil_r; [done|]. right. apply H. by left.
Qed.

(** The map still holds the keys that are to come. *)
Definition to_come (l rest : list loc) (m : gmap bytes loc) : Prop := forall k, is_Some (m !! k) <-> k ∈ map K (l ++ rest) /\ k ∉ map K l.

Lemma to_come_none l p rest m : to_come l (p :: rest) m -> m !! K p = None -> K p ∈ map K l /\ to_come (l ++ [p]) rest m.
Proof.
  intros Hm E. assert (K p ∈ map K l) as Hin.
  { destruct (decide (K p ∈ map K l)) as [H|H]; [done|]. assert (is_Some (m !! K p)) as [? E2]; [|congruence]. apply Hm. split; [|done]. rewrite map_app. apply elem_of_app. right. by left. }
  split; [done|]. intros k. rewrite (Hm k), (cons_middle p l rest), app_assoc. split; intros [H1 H2]; (split; [done|]); intros H; apply H2; rewrite map_app in *; [|apply elem_of_app; by left].
  apply elem_of_app in H as [H|H]; [done|]. apply list_elem_of_singleton in H as ->. done.
Qed.

Lemma to_come_some l p rest m : to_come l (p :: rest) m -> is_Some (m !! K p) -> (K p ∉ map K l) /\ to_come (l ++ [p]) rest (delete (K p) m).
Proof.
  intros Hm E. split; [by apply Hm|]. intros k. rewrite lookup_delete_is_Some, (Hm k), (cons_middle p l rest), app_assoc, (map_app K l [p]), not_elem_of_app. cbn [map].
  rewrite list_elem_of_singleton. intuition congruence.
Qed.

Lemma to_come_empty l rest m : to_come l rest m -> size m = O -> firsts [] (l ++ rest) = firsts [] l.
Proof.
  intros Hm ->%map_size_empty_iff. apply firsts_app_old. intros k Hk. destruct (decide (k ∈ map K l)) as [H|H]; [done|].
  assert (is_Some ((∅ : gmap bytes loc) !! k)) as [? E]; [apply Hm; split; [rewrite map_app; apply elem_of_app; by right|done]|by rewrite lookup_empty in E].
Qed.

Lemma drop_next {A} i (l : list A) x r : drop i l = x :: r -> l !! i = Some x /\ drop (S i) l = r /\ (i < length l)%nat.
Proof.
  intros E. assert (l !! i = Some x) as H by (rewrite <- (Nat.add_0_r i), <- lookup_drop, E; done). split; [done|]. split; [|by eapply lookup_lt_Some].
  rewrite <- (Nat.add_1_r i), <- drop_drop, E. done.
Qed.

Lemma dedup_move_spec rest : forall l j arr m, drop (length l) arr = rest -> length arr = length (l ++ rest) -> (j <= length l)%nat -> take j arr = firsts [] l -> to_come l rest m ->
  exists arr' j' m', dedup_move (length rest) (length l) j arr (map K (l ++ rest)) m = Ok (arr', j', m') /\ take j' arr' = firsts [] (l ++ rest).
Proof.
  induction rest as [|p rest IH]; intros l j arr m Hd Hlen Hj Ht Hm; [rewrite app_nil_r; by exists arr, j, m|].
  destruct (drop_next _ _ _ _ Hd) as (Hp & Hd2 & Hi). cbn [length dedup_move]. rewrite Hp. cbn [index mbind res_bind mret res_ret].
  assert (map K (l ++ p :: rest) !! length l = Some (K p)) as Hk by (rewrite map_app, lookup_app_r, length_map, Nat.sub_diag by (by rewrite length_map); done).
  rewrite Hk. cbn [index mbind res_bind mret res_ret]. assert (length (l ++ [p]) = S (length l)) as Hl by (rewrite length_app; cbn; lia).
  assert (l ++ p :: rest = (l ++ [p]) ++ rest) as Hr by (by rewrite <- app_assoc).
  destruct (m !! K p) as [q|] eqn:Em.
  - destruct (to_come_some l p rest m Hm ltac:(by eexists)) as [Hn Hm2].
    assert (take (S j) (<[j:=p]> arr) = firsts [] (l ++ [p])) as Ht2.
    { rewrite (take_S_r _ _ p) by (apply list_lookup_insert_eq; lia). rewrite take_insert_ge, Ht by done. rewrite firsts_snoc, decide_False; [done|]. by intros [?%not_elem_of_nil|?]. }
    case_decide as Hs.
    + exists (<[j:=p]> arr), (S j), (delete (K p) m). split; [done|]. by rewrite Hr, (to_come_empty _ _ _ Hm2 Hs).
    + rewrite Hr, <- Hl. apply IH; [rewrite Hl, drop_insert_lt; [done|lia]|rewrite length_insert, Hlen, Hr; done|lia|done|done].
  - destruct (to_come_none l p rest m Hm Em) as [Hn Hm2].
    assert (take j arr = firsts [] (l ++ [p])) as Ht2 by (rewrite Ht, firsts_snoc, decide_True, app_nil_r; [done|by right]).
    case_decide as Hs.
    + exists arr, j, m. split; [done|]. by rewrite Hr, (to_come_empty _ _ _ Hm2 Hs).
    + rewrite Hr, <- Hl. apply IH; [by rewrite Hl|by rewrite Hlen, Hr|lia|done|done].
Qed.

Lemma first_map_size pre m : first_map pre m -> size m = length (firsts [] pre).
Proof.
  intros Hm. rewrite <- length_map_to_list. transitivity (length (map (fun p => (K p, p)) (firsts [] pre))); [|by rewrite length_map].
  apply Permutation_length, NoDup_Permutation; [apply NoDup_map_to_list| |].
  - apply (NoDup_fmap_1 fst). rewrite <- list_fmap_compose. exact (proj1 (firsts_keys pre [])).
  - intros [k p]. rewrite elem_of_map_to_list, (Hm k p). split; [intros [H <-]; apply list_elem_of_fmap; by exists p|]. intros (q & [= -> ->] & H)%list_elem_of_fmap. done.
Qed.

(** C30: [Dedup] with a new map gives, for records whose text can be read back, the
    first record of each key (the line in lower case without the TTL) in their
    order, each with the lowest TTL of its key; the other records stay as they
    were. *)
Theorem Dedup_spec rrs : Forall known_rr rrs -> exists st arr m,
  Dedup now st0 rrs ∅ = Ok (st, firsts [] rrs, arr, m) /\ lowest_ttl rrs st /\ others_same rrs st.
Proof.
  intros Hrrs. destruct (dedup_keys rrs [] st0 ∅ Hrrs) as (st & m & E & Hm & Hl & Ho).
  { constructor. } { intros k p. rewrite lookup_empty. split; [done|]. by intros [?%not_elem_of_nil _]. } { by intros p ?%not_elem_of_nil. } { done. }
  unfold Dedup. cbn [map app] in E, Hm, Hl, Ho. rewrite E. cbn [mbind res_bind]. pose proof (first_map_size _ _ Hm) as Hs. case_decide as Hd.
  - exists st, rrs, m. rewrite firsts_all by congruence. by split_and!.
  - destruct (dedup_move_spec rrs [] 0 rrs m eq_refl eq_refl ltac:(done) eq_refl) as (arr & j & m' & E2 & Ht).
    { intros k. cbn [app map]. split.
      - intros [p Hp]. apply Hm in Hp as [Hp <-]. split; [|by apply not_elem_of_nil]. apply list_elem_of_fmap_2. by apply firsts_spec in Hp as [Hp _].
      - intros [Hk _]. destruct (firsts_keys rrs []) as [_ H2]. destruct (H2 _ Hk) as [?%not_elem_of_nil|Hk2]; [done|]. apply list_elem_of_fmap in Hk2 as (p & -> & Hp). exists p. by apply Hm. }
    cbn [length app] in E2, Ht. rewrite E2. cbn [mbind res_bind]. rewrite Ht. exists st, arr, m'. by split_and!.
Qed.
End Store.
End Dedup.

(** ** Three records, two of them the same but for TTL and letters *)

Definition demo_a (name : bytes) (ttl last : Z) : RR := MkRR (MkHeader name 1 1 ttl 0) RR_A [V_str [x01; x02; x03; byte_of last]].
Definition demo_store : store := list_to_map [(1%positive, demo_a (bs "EX.") 60 4); (2%positive, demo_a (bs "ex.") 30 4); (3%positive, demo_a (bs "ex.") 60 5)].

Example dedup_demo : match @Dedup ascii_casing 0 demo_store [1; 2; 3; 1]%positive ∅ with
  | Ok (st, out, arr, m) => out = [1; 3]%positive /\ arr = [1; 3; 3; 1]%positive /\ m = ∅ /\ st = <[1%positive := demo_a (bs "EX.") 30 4]> demo_store
  | _ => False
  end.
Proof. vm_compute. repeat split; reflexivity. Qed.

Lemma demo_known : Forall (known_rr demo_store) [1; 2; 3; 1]%positive.
Proof.
  assert (forall name ttl n, (exists ls, good_labels ls /\ name = show_name ls) -> 0 <= ttl < 2 ^ 32 -> text_record (demo_a name ttl n)) as H.
  { intros name ttl n Hn Ht. split; [exact Hn|]. split; [exact Ht|]. split; [done|]. split; [done|]. split; [apply list_elem_of_In; cbn; tauto|]. split; [|done].
    split; [|done]. by exists [x01; x02; x03; byte_of n]; split; [|left]. }
  assert (forall a b, (a = x45 \/ a = x65) -> (b = x58 \/ b = x78) -> exists ls, good_labels ls /\ [a; b; ch_dot] = show_name ls) as Hn.
  { intros a b Ha Hb. exists [[a; b]]. split; [unfold good_labels; split_and!; [by repeat constructor|done|done]|]. by destruct Ha as [-> | ->], Hb as [-> | ->]. }
  repeat constructor; (eexists; split; [reflexivity|apply H; [apply Hn; auto|lia]]).
Qed.

Lemma Dedup_spec_witness : exists st arr m, @Dedup ascii_casing 0 demo_store [1; 2; 3; 1]%positive ∅ = Ok (st, [1; 3]%positive, arr, m).
Proof. destruct (@Dedup_spec ascii_casing 0 demo_store _ demo_known) as (st & arr & m & E & _). exists st, arr, m. exact E. Defined.
